(* ===== verification/_CoqProject ===== *)
-Q . S2P
Prelude.v
Common.v
CLib.v
Memory.v
Operations.v
BrickInit.v
PointerCache.v
StratScan.v
ParamScanner.v
AdaptStrat.v
Cells.v
ControlSimple.v
ControlWiring.v
ControlState.v
ControlFrame.v
ControlOps.v
ControlCreate.v
ControlBricks.v
ControlBoot.v
ControlDelete.v
ControlSafe.v
ControlText.v
AthStdio.v
Doprnt.v
DoprntSpec.v
Doscan.v
Random.v
BinStrat.v
BinStratRead.v
BinStratText.v
BinStratTotal.v
Division.v
PhysMem.v
PageAlloc.v
PageTrees.v
PageCopy.v
PageFault.v
PageInit.v
MemFuncs.v
LibStrings.v
LibNumbers.v
Screen.v
Console.v
Printf.v
Fprintf.v
Multiboot.v
Descriptors.v
TableInit.v
Posix.v
ElfLoader.v
ElfLoad.v
LoaderExec.v
ElfUnload.v
ExecStack.v
KernelStart.v
