(* ===== verification/Prelude.v ===== *)
(** * Athomux: a verification development of its C code

    Athomux is an operating system built from bricks that are wired through
    inputs and outputs; all bricks offer the same elementary operations on
    "nests", virtual address spaces whose parts can be reserved, locked, moved
    and transferred.  The bricks are written in a macro language ([.ath])
    that a Perl program turns into C.  This development models the code that
    everything else rests on: the runtime library that every brick calls, the
    bricks that create and wire all others and interpret the strategy language
    for it, the scanners and printers of that language, and the kernel for x86
    below them, with its C library and the loaders of programs.  Paths below
    are relative to [src/trunk/src].

    ** How C is modelled

    A piece of C is a function into [cres]: a value, or a [fault] that says how
    the code stops being meaningful (access out of bounds, a shift or a
    conversion without a result, a divide error, an abort).  Machine integers
    are integers with their wrap-around written out ([u32], [i32], ...);
    pointers into strings are suffixes of the string (Prelude); pointers into
    structures are addresses of a byte-addressed memory (Memory), or of words
    where the code works in words (PhysMem).  State that a file keeps is a
    record, updated with [r <| field := value |>].  The C library functions
    that the sources call are defined in CLib as the standard describes them;
    those of the kernel's own library are modelled from their source, and
    LibStrings proves that they provide what CLib defines.  ([AthStdio] prints
    with the standard [snprintf]; DoprntSpec shows where the kernel's own
    differs.)  Hardware, the operating system below the loaders and the bricks
    behind an operation are parameters.

    ** The files

    - Prelude: faults, integers and masks, characters, record update, tactics.
      Common: [common.h], operation codes, arguments, operation tables.  CLib:
      string functions and number conversion.  Memory: bytes, loads and stores.
    - Operations ([lib.c], the [missing__] functions): the operations that
      every brick has by default are compositions of elementary ones.  The
      theorems give each composed operation as the course of calls that it
      makes, failures included, show that no reservation leaks on any path, and that the
      operation table is fixed uniquely, whatever the order of its entries.
    - BrickInit ([lib.c], [init_all_conns], ...): the walk over connectors and
      instances visits each exactly once, in order or in reverse.
    - PointerCache ([lib.c] and the macros of [common.ath]): every access keeps
      the invariant of the cache (each line holds a reserved block that hashes
      to it), as do settings, allocations and frees; a hit returns the cached pointer, flushing releases everything
      that was reserved.
    - StratScan ([strat.c]): scanners of the text of strategies; keyword
      search finds the first keyword, copying never overruns, connector
      addresses survive printing and scanning.
    - ParamScanner ([param_scanner.c]): options are found with their values,
      unless a shorter name is a prefix of the one looked for.
    - AdaptStrat ([adapt_strat.ath]): the interpreter of strategy texts, for any
      strategy brick behind its input (the class [Strategy] with its laws
      [StrategyLaws]): it calls exactly the operations that the text names.
    - Cells, ControlSimple ([control_simple.ath]): the strategy brick itself,
      one definition per function and operation, on a memory of cells: the
      links of headers, connectors and the structures of inputs and outputs
      ([struct connector_link], [struct input], [struct output]).
      ControlWiring: connections as a list of pairs of input and target, and
      the lists in memory that represent it.  ControlState: the invariant
      [control_ok] for bricks, connectors, strings and connections, and what
      the searches find under it.  ControlFrame, ControlOps: connecting and
      disconnecting.  ControlCreate: connectors.  ControlBricks: new bricks.
      ControlBoot: the start of the system.  ControlDelete: removal of bricks.
      ControlSafe: the states reached by requests, with the theorems: they are
      consistent and no request leaves them half-way, connections are well
      typed, and what is created or connected can be taken back.
      ControlText: the interpreter and the strategy brick put together: a text
      leads from consistent states to consistent ones; what [$getconn] lists.
      KernelStart ([x86_kernel.c]): [cmain] starts its bricks by printing such
      texts; printer, interpreter and strategy brick together.
    - AthStdio ([ath_stdio.c]): formatted output never overruns its buffer and
      prints what the format says when it fits.
    - BinStrat, BinStratRead, BinStratText, BinStratTotal ([binstrat.c]): the
      printer of binary strategy records and the reader of their text are
      inverse, and the reader ends on every text.
    - Division ([x86_math64.c]): 64-bit division on 32-bit words is exact.
    - PhysMem ([x86_mem.c]): definitions; PageAlloc, PageTrees, PageCopy and PageInit:
      theorems on the page allocator (an inductive step relation of
      allocations and releases with its invariant), on page trees as maps from
      addresses to pages, on their copies, and on the set-up of both and of the heap.
    - PageFault ([mmu_x86.ath], [cpu_x86.ath]): after a fork with copy on write
      the page faults give each program its own page.
    - MemFuncs ([x86_mem.c]): copying and filling blocks, overlaps included.
    - Screen ([x86_lib.c]): the text screen refines a list of lines.
    - Console ([x86_lib.c]): bytes reach the serial line in order, provided
      the port becomes ready when it is polled.
    - Doprnt, DoprntSpec ([libc/doprnt.c], [libc/sprintf.c]): the formatter of the
      kernel refines a reference for typed directives; Printf, Fprintf
      ([libc/printf.c], [libc/vfprintf.c]): the text reaches the console through
      their buffers; Doscan ([libc/doscan.c]): what was printed is scanned back.
    - LibStrings, LibNumbers ([libc/]): strings, characters and the readers of
      numbers, on memory.  Random ([libc/random.c]): the random numbers refine
      a linear feedback sequence.
    - Multiboot ([multiboot.h]), Descriptors, TableInit ([x86_kernel.c],
      [x86_irq.c]): what the processor reads from segment and gate tables.
    - Posix: the system calls of the loaders as a type class of operations
      with a class of laws, and a small system that satisfies them.
      ElfLoader, ElfLoad ([static_loader.c]): loading refines the ELF file.
      LoaderExec, ElfUnload, ExecStack ([loader_exec.c], [loader_fork.c]):
      unmapping a program, and the stack of the program that replaces it.

    ** Loops and fuel

    Loops over an array or a string recurse on it.  Other loops take fuel, and
    a theorem shows that enough fuel gives a result: the reader of strategies
    needs as much as its text has characters (BinStratTotal), waiting for the
    serial port as many polls as the port needs (Console), filling page
    directories 257 rounds since a directory maps 4 GB (PageInit), the option
    scanner the length of its string (ParamScanner), and printing numbers the
    number of their bits (CLib).  A loop over a list of the strategy brick has
    as much fuel as there are cells in memory, plus one, which the invariant
    shows to be enough (Cells, [seg_length]).

    ** Hypotheses on what is not under the model's control

    - The strategy brick: the tables of loaders are well formed ([loaders_ok],
      and [boot_table] for the strategy brick's own entry), [malloc] grants
      what is asked for, and the generated initialisation of connectors
      succeeds, does not call the strategy brick back and leaves the members
      that connect inputs and outputs alone.  Without the second and third the
      code frees strings that stay in use, which the findings list.
    - The nest behind the pointer cache grants in full what it reports as
      granted and creates regions at multiples of the size of a line ([BufferNest]).
    - The serial port becomes ready when it is polled often enough (Console);
      the system calls behave as documented (Posix); a strategy brick keeps the
      size of the arrays in its arguments (AdaptStrat).

    ** Not modelled

    All other bricks (about 155 [.ath] files); the generators, which are Perl
    and Java, and the C that they make, which is not in the repository; assembly
    (boot code, interrupt entry, calls of the BIOS) and the calls of the other
    parts in [cmain]; main programs, test beds and benchmarks, which print; the
    kernel's heap (Doug Lea's malloc), BusyBox, uClibc and the Linux headers,
    which are third-party code; [print_multiboot_info].  Messages that functions
    print beside their work are dropped, and so are branches that are compiled
    out.  Of the strategy brick, the printed information
    ([$trans] with [direct_read]) and the search by parameter ([$findconn])
    are defined but have no theorem.  [calloc] in [init_memory] gives zeroed memory apart from
    the pages, its use of [sbrk] is not followed. *)

From stdpp Require Export base list strings gmap.
From Stdlib Require Export ZArith Lia.
From Stdlib Require Export Ascii.

(** ** Faults and the result type of C code

    A piece of C either produces a value or stops being meaningful.  The
    faults the models distinguish are the ones the sources can run into. *)

Inductive fault :=
  | OutOfBounds   (* access outside an array, a string or mapped memory *)
  | ShiftRange    (* shift count not below the width of the operand *)
  | Overflow      (* a conversion whose result has no representation *)
  | DivideError   (* #DE: division by zero or a quotient that does not fit *)
  | Aborted       (* assert(), abort(), exit() and die() *)
  | OutOfFuel.    (* the model's loop bound, never reached (proved) *)

Inductive cres (A : Type) : Type :=
  | Ok (a : A)
  | Fault (f : fault).
Arguments Ok {A} a.
Arguments Fault {A} f.

#[export] Instance fault_eq_dec : EqDecision fault.
Proof. solve_decision. Defined.

#[export] Instance cres_ret : MRet cres := fun A a => Ok a.
#[export] Instance cres_bind : MBind cres := fun A B k m =>
  match m with
  | Ok a => k a
  | Fault f => Fault f
  end.

(** [is_ok m] says that the code runs to completion. *)
Definition is_ok {A} (m : cres A) : bool :=
  match m with Ok _ => true | Fault _ => false end.

Lemma bind_Ok_inv {A B} (m : cres A) (k : A -> cres B) (b : B) :
  m ≫= k = Ok b <-> exists a, m = Ok a /\ k a = Ok b.
Proof.
  destruct m as [a|f]; simpl; split.
  - eauto.
  - by intros (a' & [= <-] & ?).
  - done.
  - by intros (a' & ? & ?).
Qed.

(** Decompose a successful run into its steps. *)
Ltac cres_inv H :=
  let a := fresh "a" in let Ha := fresh "Hstep" in
  apply bind_Ok_inv in H; destruct H as (a & Ha & H).

(** ** Machine integers *)

Declare Scope c_scope.
Delimit Scope c_scope with c.

Definition wrap (w z : Z) : Z := (z mod 2 ^ w)%Z.
Definition swrap (w z : Z) : Z := ((z + 2 ^ (w - 1)) mod 2 ^ w - 2 ^ (w - 1))%Z.

Abbreviation u8 := (wrap 8).
Abbreviation u16 := (wrap 16).
Abbreviation u32 := (wrap 32).
Abbreviation u64 := (wrap 64).
Abbreviation i32 := (swrap 32).
Abbreviation i64 := (swrap 64).

Notation "a '+u32' b" := (wrap 32 (a + b)) (at level 50, left associativity) : c_scope.
Notation "a '-u32' b" := (wrap 32 (a - b)) (at level 50, left associativity) : c_scope.
Notation "a '+u64' b" := (wrap 64 (a + b)) (at level 50, left associativity) : c_scope.
Notation "a '-u64' b" := (wrap 64 (a - b)) (at level 50, left associativity) : c_scope.

(** An [int] or [long] expression whose value has to be representable. *)
Definition int_range (n : Z) : cres Z :=
  if ((- 2 ^ 31 <=? n) && (n <? 2 ^ 31))%Z then Ok n else Fault Overflow.

Lemma int_range_ok (n : Z) : (- 2 ^ 31 <= n < 2 ^ 31)%Z -> int_range n = Ok n.
Proof.
  intros [H1 H2]. unfold int_range.
  by rewrite (proj2 (Z.leb_le _ _) H1), (proj2 (Z.ltb_lt _ _) H2).
Qed.

(** [b & ~m] on a [w]-bit operand. *)
Definition land_not (w b m : Z) : Z := Z.land b (Z.lxor (2 ^ w - 1) m).

Section machine_integers.
Open Scope Z_scope.

Lemma wrap_range (w z : Z) : 0 <= w -> 0 <= wrap w z < 2 ^ w.
Proof. intros. apply Z.mod_pos_bound. lia. Qed.

Lemma wrap_small (w z : Z) : 0 <= z < 2 ^ w -> wrap w z = z.
Proof. apply Z.mod_small. Qed.

Lemma wrap_idem (w z : Z) : wrap w (wrap w z) = wrap w z.
Proof. unfold wrap. rewrite Zmod_mod. done. Qed.

Lemma swrap_small (w z : Z) : - 2 ^ (w - 1) <= z < 2 ^ (w - 1) -> 0 < w -> swrap w z = z.
Proof.
  intros H Hw. unfold swrap. rewrite Z.mod_small; [lia|].
  assert (2 ^ w = 2 * 2 ^ (w - 1)) as ->; [|lia].
  rewrite <- Z.pow_succ_r by lia. f_equal. lia.
Qed.

Lemma swrap_range (w z : Z) : 0 < w -> - 2 ^ (w - 1) <= swrap w z < 2 ^ (w - 1).
Proof.
  intros Hw. unfold swrap.
  pose proof (Z.mod_pos_bound (z + 2 ^ (w - 1)) (2 ^ w) ltac:(lia)).
  assert (2 ^ w = 2 * 2 ^ (w - 1)) by (rewrite <- Z.pow_succ_r by lia; f_equal; lia).
  lia.
Qed.

(** A mask of low bits is a remainder, and clearing low bits is a rounding. *)
Lemma land_mask (z n : Z) : 0 <= n -> Z.land z (2 ^ n - 1) = z mod 2 ^ n.
Proof. intros. rewrite <- Z.land_ones, Z.ones_equiv by done. f_equal. Qed.

Lemma land_low_disjoint (a b n : Z) :
  0 <= n -> a mod 2 ^ n = 0 -> 0 <= b < 2 ^ n -> Z.land a b = 0.
Proof.
  intros Hn Ha Hb. apply Z.bits_inj'; intros i Hi.
  rewrite Z.land_spec, Z.bits_0. destruct (decide (i < n)) as [Hlt|Hge].
  - assert (Z.testbit a i = false) as ->; [|done].
    rewrite <- (Z.mod_pow2_bits_low a n i) by lia. by rewrite Ha, Z.bits_0.
  - assert (Z.testbit b i = false) as ->; [|apply andb_false_r].
    destruct (decide (b = 0)) as [->|]; [apply Z.bits_0|].
    apply Z.bits_above_log2; [lia|].
    apply Z.log2_lt_pow2; [lia|]. apply Z.lt_le_trans with (2 ^ n); [lia|].
    apply Z.pow_le_mono_r; lia.
Qed.

(** Disjoint bit fields are joined by [|] as by [+]. *)
Lemma lor_low_add (a b n : Z) :
  0 <= n -> a mod 2 ^ n = 0 -> 0 <= b < 2 ^ n -> Z.lor a b = a + b.
Proof.
  intros. rewrite Z.add_nocarry_lxor by eauto using land_low_disjoint.
  apply Z.bits_inj'; intros i Hi. rewrite Z.lor_spec, Z.lxor_spec.
  pose proof (f_equal (fun z => Z.testbit z i) (land_low_disjoint a b n ltac:(done) ltac:(done) ltac:(done))) as Hd.
  cbv beta in Hd. rewrite Z.land_spec, Z.bits_0 in Hd.
  by destruct (Z.testbit a i), (Z.testbit b i).
Qed.

Lemma land_high_mask (z n w : Z) :
  0 <= n <= w -> 0 <= z < 2 ^ w -> Z.land z (2 ^ w - 2 ^ n) = z - z mod 2 ^ n.
Proof.
  intros Hn Hz.
  assert (2 ^ w - 2 ^ n = Z.shiftl (Z.ones (w - n)) n) as ->.
  { rewrite Z.ones_equiv, Z.shiftl_mul_pow2 by lia.
    rewrite <- Z.sub_1_r, Z.mul_sub_distr_r, <- Z.pow_add_r by lia.
    f_equal; [f_equal|]; lia. }
  assert (z - z mod 2 ^ n = Z.shiftl (Z.shiftr z n) n) as ->.
  { rewrite Z.shiftl_mul_pow2, Z.shiftr_div_pow2 by lia.
    pose proof (Z.div_mod z (2 ^ n) ltac:(lia)). lia. }
  apply Z.bits_inj'; intros i Hi. rewrite Z.land_spec.
  destruct (decide (i < n)).
  - by rewrite !Z.shiftl_spec_low, andb_false_r by lia.
  - rewrite !Z.shiftl_spec, Z.shiftr_spec by lia.
    replace (i - n + n) with i by lia.
    destruct (decide (i < w)).
    + by rewrite Z.ones_spec_low, andb_true_r by lia.
    + rewrite Z.ones_spec_high, andb_false_r by lia.
      destruct (decide (z = 0)) as [->|]; [by rewrite Z.bits_0|].
      symmetry. apply Z.bits_above_log2; [lia|].
      apply Z.log2_lt_pow2; [lia|]. apply Z.lt_le_trans with (2 ^ w); [lia|].
      apply Z.pow_le_mono_r; lia.
Qed.

Lemma lxor_ones (w m : Z) :
  0 <= w -> 0 <= m < 2 ^ w -> Z.lxor (2 ^ w - 1) m = 2 ^ w - 1 - m.
Proof.
  intros Hw Hm.
  enough (Z.lxor (2 ^ w - 1) m + m = 2 ^ w - 1) by lia.
  assert (2 ^ w - 1 = Z.ones w) as -> by (rewrite Z.ones_equiv; lia).
  assert (Z.land m (Z.ones w) = m) as Hsub by (rewrite Z.land_ones, Z.mod_small; lia).
  rewrite Z.add_nocarry_lxor.
  - rewrite Z.lxor_assoc, Z.lxor_nilpotent, Z.lxor_0_r. done.
  - apply Z.bits_inj'; intros i Hi.
    pose proof (f_equal (fun z => Z.testbit z i) Hsub) as Hb.
    cbv beta in Hb. rewrite Z.land_spec in Hb. rewrite Z.land_spec, Z.lxor_spec, Z.bits_0.
    by destruct (Z.testbit m i), (Z.testbit (Z.ones w) i).
Qed.

End machine_integers.

Create HintDb machine discriminated.
#[export] Hint Resolve wrap_range : machine.

(** ** Characters and strings

    A C string is the list of the [char]s from a pointer to the end of the
    object it points into, as signed 8-bit values ([char] is signed on x86).
    A pointer that scans forward is the suffix it has not passed yet, so
    reading past the end of the object is the [nil] case. *)

Abbreviation text := (list Z).

Definition char_code (a : ascii) : Z := swrap 8 (Z.of_N (N_of_ascii a)).
Definition chars (s : string) : text := char_code <$> String.list_ascii_of_string s.
(** A string literal: its characters and the terminating NUL. *)
Definition cstr (s : string) : text := chars s ++ [0%Z].

Notation "'ch' a" := (char_code a%char) (at level 9, a at level 8, only parsing).

Definition NUL : Z := 0.
Definition TAB : Z := 9.
Definition NL : Z := 10.
Definition CR : Z := 13.
Definition SP : Z := 32.

(** [*p] *)
Definition deref (t : text) : cres Z :=
  match t with
  | c :: _ => Ok c
  | [] => Fault OutOfBounds
  end.

(** [p + n], for a pointer that stays inside its object or one past its end *)
Definition advance (n : nat) (t : text) : cres text :=
  if decide (n <= length t)%nat then Ok (drop n t) else Fault OutOfBounds.

Lemma advance_ok (n : nat) (t : text) : (n <= length t)%nat -> advance n t = Ok (drop n t).
Proof. intros. unfold advance. by rewrite decide_True. Qed.

(** A well-formed string: plain ASCII up to a terminating NUL. *)
Fixpoint terminated (t : text) : bool :=
  match t with
  | [] => false
  | c :: t' => (c =? 0)%Z || ((0 <? c)%Z && (c <? 128)%Z && terminated t')
  end.

(** The characters before the NUL. *)
Fixpoint body (t : text) : text :=
  match t with
  | [] => []
  | c :: t' => if (c =? 0)%Z then [] else c :: body t'
  end.

Lemma terminated_cons (c : Z) (t : text) :
  terminated (c :: t) = true -> c <> 0%Z -> (0 < c < 128)%Z /\ terminated t = true.
Proof.
  simpl. intros [H|H]%orb_true_iff ?; [lia|].
  apply andb_true_iff in H as [H ?]. split; [lia|done].
Qed.

Lemma terminated_tail (c : Z) (t : text) :
  terminated (c :: t) = true -> c <> 0%Z -> terminated t = true.
Proof. intros H Hc. by apply terminated_cons in H as [_ H]. Qed.

Lemma terminated_app (s t : text) :
  Forall (fun c => 0 < c < 128)%Z s -> terminated t = true -> terminated (s ++ t) = true.
Proof.
  induction 1 as [|c s Hc Hs IH]; intros Ht; simpl; [done|].
  rewrite IH by done. apply orb_true_iff. right. lia.
Qed.

Lemma terminated_nonempty (t : text) : terminated t = true -> exists c t', t = c :: t'.
Proof. destruct t; [done|eauto]. Qed.

Create HintDb scan discriminated.
#[export] Hint Resolve terminated_tail terminated_app : scan.

(** ** Record update

    [r <| f := v |>] for any record that has an [Eta] instance. *)

Class Eta (R : Type) := eta : R -> R.
Class Setter {R T : Type} (proj : R -> T) := upd : (T -> T) -> R -> R.

Ltac derive_setter proj :=
  match type of proj with
  | ?R -> ?T =>
    let inst := constr:(ltac:(typeclasses eauto) : Eta R) in
    let body := eval red in (inst : R -> R) in
    let body := eval hnf in body in
    match eval pattern proj in body with
    | ?g proj => exact (fun f r => g (fun r' => f (proj r')) r)
    end
  end.

#[export] Hint Extern 1 (Setter ?proj) => derive_setter proj : typeclass_instances.

Notation "r '<|' f ':=' v '|>'" := (upd (proj := f) (fun _ => v) r)
  (at level 1, f at level 10, left associativity).

(** Loops that are bounded by the number of elements of an array. *)
Fixpoint indices (start : Z) (n : nat) : list Z :=
  match n with
  | O => []
  | S n' => start :: indices (start + 1) n'
  end.

(** ** Tactics *)

(** Case analysis on the outermost boolean test or match in the goal. *)
Ltac split_match :=
  match goal with
  | |- context [match ?x with _ => _ end] => destruct x eqn:?
  end.

(** Replace character constants by their codes. *)
Ltac eval_chars :=
  repeat match goal with
  | |- context [char_code ?x] =>
    let v := eval vm_compute in (char_code x) in change (char_code x) with v
  end.
