(* ===== verification/Common.v ===== *)
(** * Shared data: [common.h]

    The basic types of every brick: the fixed-width integer types, the packed
    enumerations, the opcode list, the [args] structure that carries every
    operation's parameters and results, the connection descriptors, the
    loader tables and the address arithmetic of the pointer cache.

    [addr_t] and [len_t] are 64-bit unsigned, [offs_t] 64-bit signed,
    [paddr_t] and [plen_t] are [unsigned long]; values are [Z]. *)

From S2P Require Import Prelude.
Open Scope Z_scope.

(** ** Enumerations *)

Inductive direction_t := direct_read | direct_write | direct_stop.
Inductive prio_t := prio_none | prio_background | prio_normal | prio_urgent.
Inductive version_t := vers_undef | vers_old | vers_newest.
Inductive lock_t := lock_none | lock_read | lock_write.
Inductive action_t := action_ask | action_try | action_wait.

#[export] Instance direction_t_eq_dec : EqDecision direction_t.
Proof. solve_decision. Defined.
#[export] Instance prio_t_eq_dec : EqDecision prio_t.
Proof. solve_decision. Defined.
#[export] Instance version_t_eq_dec : EqDecision version_t.
Proof. solve_decision. Defined.
#[export] Instance lock_t_eq_dec : EqDecision lock_t.
Proof. solve_decision. Defined.
#[export] Instance action_t_eq_dec : EqDecision action_t.
Proof. solve_decision. Defined.

(** The code compares versions as integers. *)
Definition version_code (v : version_t) : Z :=
  match v with vers_undef => 0 | vers_old => 1 | vers_newest => 2 end.

Inductive op_t :=
  (* output operations *)
  | opcode_output_init
  | opcode_trans | opcode_wait | opcode_get | opcode_put
  | opcode_lock | opcode_unlock | opcode_gadr | opcode_padr
  | opcode_create | opcode_delete | opcode_move
  | opcode_instbrick | opcode_deinstbrick | opcode_instconn | opcode_deinstconn
  | opcode_connect | opcode_disconnect | opcode_getconn | opcode_findconn
  | opcode_transwait | opcode_gettranswait | opcode_transwaitput | opcode_putwait
  | opcode_createget | opcode_gadrcreate | opcode_gadrcreateget
  | opcode_gadrgettranswait | opcode_putpadr | opcode_putdelete
  | opcode_deletepadr | opcode_putdeletepadr
  | opcode_gadrtranswaitdeletepadr | opcode_gadrcreatetranswaitpadr
  | opcode_output_max
  (* input operations *)
  | opcode_input_init | opcode_retract | opcode_input_max
  (* static operations *)
  | opcode_brick_init | opcode_brick_max.

#[export] Instance op_t_eq_dec : EqDecision op_t.
Proof. solve_decision. Defined.

Definition all_opcodes : list op_t :=
  [ opcode_output_init;
    opcode_trans; opcode_wait; opcode_get; opcode_put;
    opcode_lock; opcode_unlock; opcode_gadr; opcode_padr;
    opcode_create; opcode_delete; opcode_move;
    opcode_instbrick; opcode_deinstbrick; opcode_instconn; opcode_deinstconn;
    opcode_connect; opcode_disconnect; opcode_getconn; opcode_findconn;
    opcode_transwait; opcode_gettranswait; opcode_transwaitput; opcode_putwait;
    opcode_createget; opcode_gadrcreate; opcode_gadrcreateget;
    opcode_gadrgettranswait; opcode_putpadr; opcode_putdelete;
    opcode_deletepadr; opcode_putdeletepadr;
    opcode_gadrtranswaitdeletepadr; opcode_gadrcreatetranswaitpadr;
    opcode_output_max;
    opcode_input_init; opcode_retract; opcode_input_max;
    opcode_brick_init; opcode_brick_max ].

(** ** Connection descriptors and the argument record *)

Record conn_info := { conn_addr : Z; conn_index : Z; conn_name : text }.
#[export] Instance eta_conn_info : Eta conn_info := fun r =>
  {| conn_addr := conn_addr r; conn_index := conn_index r; conn_name := conn_name r |}.

Record args := {
  log_addr : Z;
  log_len : Z;
  try_addr : Z;
  try_len : Z;
  offset : Z;
  offset_max : Z;
  phys_addr : Z;
  phys_len : Z;
  mandate : Z;
  forwrite : bool;
  clear : bool;
  melt : bool;
  direction : direction_t;
  prio : prio_t;
  reader : bool;
  exclu : bool;
  data_lock : lock_t;
  addr_lock : lock_t;
  action : action_t;
  destr : bool;
  constr : bool;
  success : bool;
  version : version_t;
  op_code : op_t;
  sect_code : Z;
  name : text;
  conn1 : option conn_info;
  conn2 : option conn_info;
  res_conn : list conn_info;
  conn_len : Z
}.

#[export] Instance eta_args : Eta args := fun r =>
  {| log_addr := log_addr r; log_len := log_len r;
     try_addr := try_addr r; try_len := try_len r;
     offset := offset r; offset_max := offset_max r;
     phys_addr := phys_addr r; phys_len := phys_len r;
     mandate := mandate r; forwrite := forwrite r; clear := clear r;
     melt := melt r; direction := direction r; prio := prio r;
     reader := reader r; exclu := exclu r;
     data_lock := data_lock r; addr_lock := addr_lock r;
     action := action r; destr := destr r; constr := constr r;
     success := success r; version := version r;
     op_code := op_code r; sect_code := sect_code r;
     name := name r; conn1 := conn1 r; conn2 := conn2 r;
     res_conn := res_conn r; conn_len := conn_len r |}.

(** [struct args args = { ... }]: the members not named are zero. *)
Definition zero_args : args :=
  {| log_addr := 0; log_len := 0; try_addr := 0; try_len := 0;
     offset := 0; offset_max := 0; phys_addr := 0; phys_len := 0;
     mandate := 0; forwrite := false; clear := false; melt := false;
     direction := direct_read; prio := prio_none;
     reader := false; exclu := false;
     data_lock := lock_none; addr_lock := lock_none;
     action := action_ask; destr := false; constr := false;
     success := false; version := vers_undef;
     op_code := opcode_output_init; sect_code := 0;
     name := []; conn1 := None; conn2 := None; res_conn := []; conn_len := 0 |}.

(** ** Operations and operation tables

    A static operation gets the connector, the arguments and the parameter
    string; the connector is fixed by the table it is called through.  It
    changes the argument record and the world: the brick's own state and the
    console. *)

Record world (W : Type) := World { console : list string; brick : W }.
Arguments World {W} console brick.
Arguments console {W}.
Arguments brick {W}.

Definition operation (W : Type) := args -> text -> world W -> args * world W.

(** [output.ops[sect][opcode]] *)
Definition optable (W : Type) := Z -> op_t -> operation W.

(** What a brick implements; the generated table holds a default elsewhere. *)
Definition impl_table (W : Type) := Z -> op_t -> option (operation W).

(** [on->output.ops[args->sect_code][op](on, args, param)] *)
Definition call {W} (ops : optable W) (op : op_t) : operation W :=
  fun a param w => ops (sect_code a) op a param w.

(** ** Pointer cache address arithmetic (user-space and x86 variant) *)

Definition PC__DIRTY : Z := 1.
Definition PC__PRESENT : Z := 2.

Definition PC__HASH (addr align max : Z) : Z := (addr / align) mod max.
Definition PC__BASE_ADDR2 (addr whole : Z) : Z := addr / whole * whole.
Definition PC__BASE_ADDR (addr whole : Z) : Z :=
  Z.lor (PC__BASE_ADDR2 addr whole) PC__PRESENT.
Definition PC__BASE_OFFSET (addr whole : Z) : Z := addr mod whole.
Definition PC__BASE_LEN (offset len whole : Z) : Z :=
  (offset + len - 1) / whole * whole + whole.

Record pc_elem := { pc_addr : Z; pc_len : Z; pc_ptr : Z }.
#[export] Instance eta_pc_elem : Eta pc_elem := fun r =>
  {| pc_addr := pc_addr r; pc_len := pc_len r; pc_ptr := pc_ptr r |}.

(** [memset(elem, 0, sizeof(struct pc_elem))] *)
Definition zero_elem : pc_elem := {| pc_addr := 0; pc_len := 0; pc_ptr := 0 |}.

(** The cache header and its dynamic array; the connector [pc_input] is the
    operation table the cache's functions are given. *)
Record pc := {
  pc_version : Z;
  pc_sect : Z;
  pc_write : bool;
  pc_elems : list pc_elem
}.
#[export] Instance eta_pc : Eta pc := fun r =>
  {| pc_version := pc_version r; pc_sect := pc_sect r;
     pc_write := pc_write r; pc_elems := pc_elems r |}.

(** ** Loader tables *)

(** [init_conn] and [init_brick] are given the address of the connector or
    brick instance they initialise. *)
Record load_conn (W : Type) := {
  lc_type : bool;        (* FALSE: input, TRUE: output *)
  lc_autoinit : bool;
  lc_count : Z;
  lc_offset : Z;
  lc_size : Z;
  lc_init_conn : Z -> operation W
}.
Arguments lc_type {W}.
Arguments lc_autoinit {W}.
Arguments lc_count {W}.
Arguments lc_offset {W}.
Arguments lc_size {W}.
Arguments lc_init_conn {W}.

(** An instance is its sub-brick's [init_brick] and the offset it lives at. *)
Record load_instance (W : Type) := {
  li_offset : Z;
  li_init_brick : Z -> operation W
}.
Arguments li_offset {W}.
Arguments li_init_brick {W}.

Record loader (W : Type) := {
  conn_count : Z;
  ld_conn : list (load_conn W);
  inst_count : Z;
  instances : list (load_instance W)
}.
Arguments conn_count {W}.
Arguments ld_conn {W}.
Arguments inst_count {W}.
Arguments instances {W}.
