(* ===== verification/CLib.v ===== *)
(** * The C library functions the sources use

    The string and conversion functions of the standard library that the
    scanners and printers call: [strncpy], [strncmp], [strlen], the integer
    conversions of [snprintf] and of [sscanf].  Conversions whose result does
    not fit the destination are undefined in C and fault here. *)

From S2P Require Import Prelude.
Open Scope Z_scope.

(** ** string.h *)

(** The bytes [strncpy(dst, src, n)] writes to [dst]. *)
Fixpoint strncpy (src : text) (n : nat) : cres (list Z) :=
  match n, src with
  | O, _ => Ok []
  | S _, [] => Fault OutOfBounds
  | S n', c :: src' =>
    if c =? 0 then Ok (replicate n 0) else
    r ← strncpy src' n'; Ok (c :: r)
  end.

(** The first bytes of a [char] array are overwritten. *)
Definition write_front (bytes dst : list Z) : cres (list Z) :=
  if decide (length bytes <= length dst)%nat
  then Ok (bytes ++ drop (length bytes) dst) else Fault OutOfBounds.

Fixpoint strncmp (a b : text) (n : nat) : cres Z :=
  match n, a, b with
  | O, _, _ => Ok 0
  | S n', x :: a', y :: b' =>
    if negb (x =? y) then Ok (wrap 8 x - wrap 8 y)
    else if x =? 0 then Ok 0 else strncmp a' b' n'
  | S _, _, _ => Fault OutOfBounds
  end.

Fixpoint strlen (t : text) : cres Z :=
  match t with
  | [] => Fault OutOfBounds
  | c :: t' => if c =? 0 then Ok 0 else n ← strlen t'; Ok (n + 1)
  end.

(** [strchr(s, c) != NULL]; the terminator itself is found too. *)
Fixpoint strchr (t : text) (c : Z) : cres bool :=
  match t with
  | [] => Fault OutOfBounds
  | x :: t' => if x =? c then Ok true else if x =? 0 then Ok false else strchr t' c
  end.

Lemma write_front_ok bytes dst :
  (length bytes <= length dst)%nat ->
  write_front bytes dst = Ok (bytes ++ drop (length bytes) dst).
Proof. intros. unfold write_front. by rewrite decide_True. Qed.

Lemma strncmp_prefix (k t : text) :
  terminated t = true -> Forall (fun c => - 128 <= c < 128 /\ c <> 0) k ->
  exists r, strncmp t k (length k) = Ok r /\ (r = 0 <-> exists t', t = k ++ t').
Proof.
  revert t. induction k as [|c k IH]; intros t Ht Hk; simpl.
  - exists 0. split; [by destruct t|]. split; intros _; [by exists t|done].
  - apply Forall_cons in Hk as [[Hr Hc] Hk].
    destruct (terminated_nonempty t Ht) as (x & t1 & ->); cbn [strncmp length app].
    destruct (decide (x = c)) as [->|Hne]; [rewrite Z.eqb_refl|rewrite (proj2 (Z.eqb_neq x c)) by done]; simpl.
    + rewrite (proj2 (Z.eqb_neq c 0)) by done.
      destruct (IH t1) as (r & -> & Hr'); [by eapply terminated_tail|done|].
      exists r. split; [done|]. rewrite Hr'.
      split; intros [t' Heq]; exists t'; by simplify_eq/=.
    + eexists. split; [done|]. split; [|intros [t' ?]; by simplify_eq/=].
      assert (0 <= x < 128) by (destruct (decide (x = 0)); [lia|apply terminated_cons in Ht; lia]).
      unfold wrap. change (2 ^ 8) with 256. intros.
      assert (x mod 256 = x) by (apply Z.mod_small; lia).
      pose proof (Z.div_mod c 256 ltac:(lia)). pose proof (Z.mod_pos_bound c 256). lia.
Qed.

Lemma strncmp_take t kw len :
  (len <= length kw)%nat -> strncmp t kw len = strncmp t (take len kw) len.
Proof.
  revert t kw. induction len as [|len IH]; intros t kw Hlen; [by destruct t, kw|].
  destruct kw as [|x kw]; simpl in *; [lia|]. destruct t as [|c t]; [done|].
  cbn [strncmp]. by rewrite IH by lia.
Qed.

(** Exchanging the strings changes the sign of the result only. *)
Lemma strncmp_swap a b n : strncmp b a n = (r ← strncmp a b n; Ok (- r)).
Proof.
  revert a b. induction n as [|n IH]; intros [|x a] [|y b]; try done; cbn [strncmp].
  rewrite (Z.eqb_sym y x). destruct (Z.eqb_spec x y) as [->|]; cbn [negb].
  - destruct (y =? 0); [done|]. apply IH.
  - cbn [mbind cres_bind]. f_equal. lia.
Qed.

Lemma strncmp_prefix_l (k u t : text) :
  terminated t = true -> Forall (fun c => - 128 <= c < 128 /\ c <> 0) k ->
  exists r, strncmp (k ++ u) t (length k) = Ok r /\ (r =? 0) = bool_decide (k `prefix_of` t).
Proof.
  intros Ht Hk. destruct (strncmp_prefix k t Ht Hk) as (r & Hr & Hp). exists (- r).
  rewrite strncmp_swap, (strncmp_take t (k ++ u)) by (rewrite length_app; lia).
  rewrite take_app_length, Hr. split; [done|]. apply eq_true_iff_eq.
  rewrite bool_decide_eq_true, Z.eqb_eq. unfold prefix. rewrite <- Hp. lia.
Qed.

Lemma strlen_run s t : Forall (fun c => c <> 0) s -> strlen (s ++ 0 :: t) = Ok (Z.of_nat (length s)).
Proof.
  induction 1 as [|c s Hc _ IH]; [done|]. cbn [app strlen length].
  rewrite (proj2 (Z.eqb_neq c 0) Hc), IH. cbn [mbind cres_bind]. f_equal. lia.
Qed.

(** ** Digits *)

(** The character of a digit, in C's lower- or upper-case hexadecimal. *)
Definition digit_char (upper : bool) (d : Z) : Z :=
  if d <? 10 then 48 + d else (if upper then 55 else 87) + d.

Definition digit_value (c : Z) : option Z :=
  if (48 <=? c) && (c <=? 57) then Some (c - 48)
  else if (97 <=? c) && (c <=? 102) then Some (c - 87)
  else if (65 <=? c) && (c <=? 70) then Some (c - 55)
  else None.

Fixpoint render (fuel : nat) (upper : bool) (base n : Z) (acc : text) : text :=
  match fuel with
  | O => acc
  | S f =>
    let acc := digit_char upper (n mod base) :: acc in
    if n / base =? 0 then acc else render f upper base (n / base) acc
  end.

(** [n >= 0] has at most [log2 n + 1] digits in any base from 2. *)
Definition digits (upper : bool) (base n : Z) : text :=
  render (S (Z.to_nat (Z.log2 n))) upper base n [].

(** [%d] *)
Definition format_d (n : Z) : text :=
  if n <? 0 then 45 :: digits false 10 (- n) else digits false 10 n.
(** [%x], [%lx], [%llx] and the upper-case forms *)
Definition format_x (upper : bool) (n : Z) : text := digits upper 16 n.

(** The longest run of digits of a base, its value and the rest. *)
Fixpoint scan_digits (base : Z) (t : text) (v : Z) : cres (Z * text) :=
  match t with
  | [] => Fault OutOfBounds
  | c :: t' =>
    match digit_value c with
    | Some d => if d <? base then scan_digits base t' (v * base + d) else Ok (v, t)
    | None => Ok (v, t)
    end
  end.

Definition is_digit (base c : Z) : bool :=
  match digit_value c with Some d => d <? base | None => false end.

(** [isspace] in the C locale *)
Definition isspace (c : Z) : bool := (c =? 32) || ((9 <=? c) && (c <=? 13)).

Fixpoint skip_space (t : text) : cres text :=
  match t with
  | [] => Fault OutOfBounds
  | c :: t' => if isspace c then skip_space t' else Ok t
  end.

(** [sscanf(t, "%d", &n)]: [None] when nothing is assigned. *)
Definition sscanf_d (t : text) : cres (option Z) :=
  t ← skip_space t;
  c ← deref t;
  let '(neg, t) := if c =? 45 then (true, drop 1 t)
                   else if c =? 43 then (false, drop 1 t) else (false, t) in
  c ← deref t;
  if negb (is_digit 10 c) then Ok None else
  r ← scan_digits 10 t 0;
  let v := if neg : bool then - r.1 else r.1 in
  if (- 2 ^ 31 <=? v) && (v <? 2 ^ 31) then Ok (Some v) else Fault Overflow.

(** [sscanf(t, "%llx", &n)] *)
Definition sscanf_llx (t : text) : cres (option Z) :=
  t ← skip_space t;
  c ← deref t;
  let '(neg, t) := if c =? 45 then (true, drop 1 t)
                   else if c =? 43 then (false, drop 1 t) else (false, t) in
  c ← deref t;
  t ← (if c =? 48 then
         d ← deref (drop 1 t);
         if (d =? 120) || (d =? 88) then Ok (drop 2 t) else Ok t
       else Ok t);
  c ← deref t;
  if negb (is_digit 16 c) then Ok None else
  r ← scan_digits 16 t 0;
  if r.1 <? 2 ^ 64 then Ok (Some (if neg : bool then wrap 64 (- r.1) else r.1))
  else Fault Overflow.

(** [atoi]: white space, a sign and digits; no digits is zero. *)
Definition atoi (t : text) : cres Z :=
  r ← sscanf_d t; Ok (default 0 r).

(** ** What the conversions mean *)

Definition digits_value (base : Z) (l : text) (v : Z) : Z :=
  foldl (fun v c => v * base + default 0 (digit_value c)) v l.

Lemma digit_char_value upper d : 0 <= d < 16 -> digit_value (digit_char upper d) = Some d.
Proof.
  intros Hd. unfold digit_char. destruct (Z.ltb_spec d 10).
  - unfold digit_value. rewrite !(proj2 (Z.leb_le _ _)) by lia. simpl. f_equal. lia.
  - unfold digit_value.
    destruct upper; repeat (case_match; try lia); f_equal; lia.
Qed.

Lemma render_app fuel upper base n acc :
  render fuel upper base n acc = render fuel upper base n [] ++ acc.
Proof.
  revert n acc. induction fuel as [|f IH]; intros n acc; simpl; [done|].
  destruct (_ =? 0); [done|]. rewrite IH, (IH _ [_]), <- app_assoc. done.
Qed.

Section render_facts.
Context (upper : bool) (base : Z) (Hbase : 2 <= base <= 16).

Lemma render_digits fuel n :
  0 <= n -> Forall (fun c => is_digit base c = true) (render fuel upper base n []).
Proof.
  revert n. induction fuel as [|f IH]; intros n Hn; simpl; [constructor|].
  pose proof (Z.mod_pos_bound n base ltac:(lia)).
  assert (is_digit base (digit_char upper (n mod base)) = true).
  { unfold is_digit. rewrite digit_char_value by lia. lia. }
  destruct (_ =? 0); [by repeat constructor|].
  rewrite render_app. apply Forall_app. split; [|by repeat constructor].
  apply IH. apply Z.div_pos; lia.
Qed.

Lemma render_value fuel n v :
  0 <= n -> n < 2 ^ Z.of_nat fuel -> (0 < fuel)%nat ->
  digits_value base (render fuel upper base n []) v
    = v * base ^ Z.of_nat (length (render fuel upper base n [])) + n.
Proof.
  revert n v. induction fuel as [|f IH]; intros n v Hn Hf Hpos; [lia|]. simpl.
  pose proof (Z.mod_pos_bound n base ltac:(lia)).
  pose proof (Z.div_mod n base ltac:(lia)) as Hdm.
  pose proof (digit_char_value upper (n mod base) ltac:(lia)) as Hdig.
  destruct (Z.eqb_spec (n / base) 0) as [Hz|Hz].
  - unfold digits_value. simpl. rewrite Hdig. simpl.
    change (Z.pow_pos base 1) with (base ^ 1). rewrite Z.pow_1_r. lia.
  - rewrite render_app. unfold digits_value in *. rewrite foldl_app, length_app. simpl.
    assert (0 <= n / base) by (apply Z.div_pos; lia).
    assert (n / base < 2 ^ Z.of_nat f).
    { apply Z.div_lt_upper_bound; [lia|].
      rewrite Nat2Z.inj_succ, Z.pow_succ_r in Hf by lia. nia. }
    assert (0 < f)%nat by (destruct f; simpl in *; lia).
    rewrite IH by done. rewrite Hdig. simpl.
    rewrite Nat2Z.inj_add, Z.pow_add_r by lia. change (base ^ Z.of_nat 1) with (base ^ 1).
    rewrite Z.pow_1_r. lia.
Qed.

Lemma digits_all n : 0 <= n -> Forall (fun c => is_digit base c = true) (digits upper base n).
Proof. by apply render_digits. Qed.

Lemma log2_fuel n : 0 <= n -> n < 2 ^ Z.of_nat (S (Z.to_nat (Z.log2 n))).
Proof.
  intros Hn. rewrite Nat2Z.inj_succ, Z2Nat.id by apply Z.log2_nonneg.
  destruct (decide (n = 0)) as [->|]; [done|]. apply Z.log2_spec. lia.
Qed.

Lemma digits_value_eq n : 0 <= n -> digits_value base (digits upper base n) 0 = n.
Proof.
  intros Hn. unfold digits. rewrite render_value; [lia|done|by apply log2_fuel|lia].
Qed.

Lemma digits_nonempty n : digits upper base n <> [].
Proof.
  unfold digits. simpl. destruct (_ =? 0); [done|]. rewrite render_app. by destruct (render _ _ _ _ _).
Qed.

Lemma scan_digits_run l t v :
  Forall (fun c => is_digit base c = true) l ->
  (exists c t', t = c :: t' /\ is_digit base c = false) ->
  scan_digits base (l ++ t) v = Ok (digits_value base l v, t).
Proof.
  intros Hl (c & t' & -> & Hc). revert v. induction Hl as [|x l Hx Hl IH]; intros v; simpl.
  - unfold is_digit in Hc. destruct (digit_value c); [by rewrite Hc|done].
  - unfold is_digit in Hx. destruct (digit_value x) as [d|] eqn:Hd; [|done].
    by rewrite Hx, IH.
Qed.
End render_facts.

(** A digit is not white space, not a sign and not NUL. *)
Lemma is_digit_code base c :
  is_digit base c = true -> (48 <= c <= 57 \/ 97 <= c <= 102 \/ 65 <= c <= 70).
Proof. unfold is_digit, digit_value. intros H. repeat (case_match; try lia). done. Qed.

Lemma sscanf_d_digits n t :
  0 <= n < 2 ^ 31 -> (exists c t', t = c :: t' /\ is_digit 10 c = false) ->
  sscanf_d (digits false 10 n ++ t) = Ok (Some n).
Proof.
  intros Hn Ht. pose proof (digits_all false 10 ltac:(lia) n ltac:(lia)) as Hall.
  pose proof (scan_digits_run 10 _ _ 0 Hall Ht) as Hscan.
  rewrite digits_value_eq in Hscan by lia.
  destruct (digits false 10 n) as [|c l] eqn:Heq; [by apply digits_nonempty in Heq|].
  apply Forall_cons in Hall as [Hc _]. pose proof (is_digit_code _ _ Hc) as Hcode.
  unfold sscanf_d. cbn [app skip_space].
  assert (isspace c = false) as -> by (unfold isspace; lia).
  cbn [mbind cres_bind deref].
  rewrite (proj2 (Z.eqb_neq c 45)), (proj2 (Z.eqb_neq c 43)) by lia.
  cbn [mbind cres_bind deref]. rewrite Hc. cbn [negb]. cbn [app] in Hscan.
  rewrite Hscan. cbn [mbind cres_bind fst].
  by rewrite (proj2 (Z.leb_le _ _)), (proj2 (Z.ltb_lt _ _)) by lia.
Qed.
