(* ===== verification/Memory.v ===== *)
(** * Byte-addressed memory

    The memory of the programs that build data structures behind pointers: a
    finite map from mapped addresses to bytes.  An access to an address that
    is not mapped faults.  Multi-byte values are little-endian, as on x86. *)

From S2P Require Import Prelude.
Open Scope Z_scope.

Abbreviation mem := (gmap Z Z).

Definition load8 (m : mem) (a : Z) : cres Z :=
  match m !! a with Some b => Ok b | None => Fault OutOfBounds end.

Definition store8 (m : mem) (a v : Z) : cres mem :=
  match m !! a with Some _ => Ok (<[a := u8 v]> m) | None => Fault OutOfBounds end.

(** [n] bytes from address [a], the lowest first. *)
Fixpoint load_le (n : nat) (m : mem) (a : Z) : cres Z :=
  match n with
  | O => Ok 0
  | S n' => b ← load8 m a; r ← load_le n' m (a + 1); Ok (b + 256 * r)
  end.

Fixpoint store_le (n : nat) (m : mem) (a v : Z) : cres mem :=
  match n with
  | O => Ok m
  | S n' => m ← store8 m a (v mod 256); store_le n' m (a + 1) (v / 256)
  end.

Definition load16 := load_le 2.
Definition load32 := load_le 4.
Definition load64 := load_le 8.
Definition store16 (m : mem) (a v : Z) := store_le 2 m a (u16 v).
Definition store32 (m : mem) (a v : Z) := store_le 4 m a (u32 v).
Definition store64 (m : mem) (a v : Z) := store_le 8 m a (u64 v).

(** The characters of the string at [a], without its terminator; [fuel]
    bounds its length. *)
Fixpoint load_string (fuel : nat) (m : mem) (a : Z) : cres text :=
  match fuel with
  | O => Fault OutOfFuel
  | S f =>
    b ← load8 m a;
    if b =? 0 then Ok [] else s ← load_string f m (a + 1); Ok (swrap 8 b :: s)
  end.

(** ** Regions *)

Definition mapped (m : mem) (lo hi : Z) : Prop := forall a, lo <= a < hi -> is_Some (m !! a).
(** [m'] differs from [m] at most within [lo, hi). *)
Definition only_changes (m m' : mem) (lo hi : Z) : Prop :=
  dom m' = dom m /\ forall a, ~ (lo <= a < hi) -> m' !! a = m !! a.
(** The two memories hold the same bytes in [lo, hi). *)
Definition agree (m m' : mem) (lo hi : Z) : Prop := forall a, lo <= a < hi -> m !! a = m' !! a.

Lemma only_changes_refl m lo hi : only_changes m m lo hi.
Proof. by split. Qed.

Lemma only_changes_trans m1 m2 m3 lo hi :
  only_changes m1 m2 lo hi -> only_changes m2 m3 lo hi -> only_changes m1 m3 lo hi.
Proof.
  intros [Hd1 H1] [Hd2 H2]. split; [congruence|]. intros a Ha.
  by rewrite H2, H1 by done.
Qed.

Lemma only_changes_mono m m' lo hi lo' hi' :
  only_changes m m' lo hi -> lo' <= lo -> hi <= hi' -> only_changes m m' lo' hi'.
Proof. intros [Hd H] ??. split; [done|]. intros a Ha. apply H. lia. Qed.

Lemma only_changes_agree m m' lo hi a b :
  only_changes m m' lo hi -> b <= lo \/ hi <= a -> agree m m' a b.
Proof. intros [_ H] ? x Hx. symmetry. apply H. lia. Qed.

Lemma mapped_only_changes m m' lo hi a b :
  only_changes m m' lo hi -> mapped m a b -> mapped m' a b.
Proof.
  intros [Hd _] Hm x Hx. apply elem_of_dom. rewrite Hd. apply elem_of_dom. by apply Hm.
Qed.

Lemma mapped_mono m a b a' b' : mapped m a b -> a <= a' -> b' <= b -> mapped m a' b'.
Proof. intros Hm ?? x ?. apply Hm. lia. Qed.

Lemma agree_sym m m' a b : agree m m' a b -> agree m' m a b.
Proof. intros H x Hx. symmetry. by apply H. Qed.

Lemma agree_trans m1 m2 m3 a b : agree m1 m2 a b -> agree m2 m3 a b -> agree m1 m3 a b.
Proof. intros H1 H2 x Hx. by rewrite H1, H2. Qed.

Lemma agree_mono m m' a b a' b' : agree m m' a b -> a <= a' -> b' <= b -> agree m m' a' b'.
Proof. intros H ?? x ?. apply H. lia. Qed.

Create HintDb memory discriminated.
#[export] Hint Resolve only_changes_refl : memory.

(** ** Loads and stores *)

Lemma store8_changes m a v m' : store8 m a v = Ok m' -> only_changes m m' a (a + 1).
Proof.
  unfold store8. destruct (m !! a) eqn:Ha; intros [= <-]. split.
  - rewrite dom_insert_lookup_L; [done|by eexists].
  - intros x Hx. rewrite lookup_insert_ne; [done|lia].
Qed.

Lemma store8_ok m a v : is_Some (m !! a) -> store8 m a v = Ok (<[a := u8 v]> m).
Proof. intros [b Hb]. unfold store8. by rewrite Hb. Qed.

Lemma store_le_changes n m a v m' :
  store_le n m a v = Ok m' -> only_changes m m' a (a + Z.of_nat n).
Proof.
  revert m a v. induction n as [|n IH]; intros m a v Hs; simplify_eq/=; [auto with memory|].
  cres_inv Hs. apply store8_changes in Hstep. apply IH in Hs.
  eapply only_changes_trans; eapply only_changes_mono; try done; lia.
Qed.

Lemma store_le_ok n m a v :
  mapped m a (a + Z.of_nat n) -> exists m', store_le n m a v = Ok m'.
Proof.
  revert m a v. induction n as [|n IH]; intros m a v Hm; [by eexists|].
  cbn [store_le]. pose proof (store8_ok m a (v mod 256) ltac:(apply Hm; lia)) as Hs.
  rewrite Hs. cbn [mbind cres_bind]. apply IH.
  eapply mapped_mono; [by eapply mapped_only_changes, Hm; apply store8_changes in Hs|lia|lia].
Qed.

Lemma load_le_agree n m m' a :
  agree m m' a (a + Z.of_nat n) -> load_le n m a = load_le n m' a.
Proof.
  revert a. induction n as [|n IH]; intros a H; [done|]. cbn [load_le].
  unfold load8. rewrite H by lia. destruct (m' !! a); [|done]. cbn [mbind cres_bind].
  rewrite IH; [done|]. eapply agree_mono; [done|lia|lia].
Qed.

Lemma load_store_le n m m' a v :
  store_le n m a v = Ok m' -> 0 <= v < 256 ^ Z.of_nat n -> load_le n m' a = Ok v.
Proof.
  revert m a v. induction n as [|n IH]; intros m a v Hs Hv.
  { simpl in Hv. assert (v = 0) as -> by lia. by simplify_eq/=. }
  cbn [store_le load_le] in *. cres_inv Hs. unfold store8 in Hstep.
  destruct (m !! a) as [b|] eqn:Hb; simplify_eq.
  rewrite Nat2Z.inj_succ, Z.pow_succ_r in Hv by lia.
  pose proof (Z.div_mod v 256 ltac:(lia)). pose proof (Z.mod_pos_bound v 256 ltac:(lia)).
  pose proof (store_le_changes _ _ _ _ _ Hs) as [_ Hc].
  unfold load8. rewrite Hc, lookup_insert_eq by lia. cbn [mbind cres_bind].
  erewrite IH; [|done|split; [apply Z.div_pos; lia|apply Z.div_lt_upper_bound; lia]].
  cbn [mbind cres_bind]. rewrite wrap_small by (change (2 ^ 8) with 256; lia). f_equal. lia.
Qed.

Lemma load_string_agree fuel m m' a s :
  load_string fuel m a = Ok s -> agree m m' a (a + Z.of_nat (length s) + 1) ->
  load_string fuel m' a = Ok s.
Proof.
  revert a s. induction fuel as [|f IH]; intros a s Hs Hag; [done|].
  cbn [load_string] in *. cres_inv Hs. unfold load8 in *.
  destruct (m !! a) as [b|] eqn:Hb; simplify_eq.
  rewrite <- Hag, Hb by lia. cbn [mbind cres_bind].
  destruct (a0 =? 0); [done|]. cres_inv Hs. simplify_eq. simpl in Hag.
  rewrite (IH (a + 1) a1); [done|done|]. eapply agree_mono; [done|lia|lia].
Qed.

(** ** Zeroed memory, for concrete runs *)

Fixpoint blank (a : Z) (n : nat) : mem :=
  match n with O => ∅ | S n' => <[a := 0]> (blank (a + 1) n') end.

Lemma blank_mapped a n : mapped (blank a n) a (a + Z.of_nat n).
Proof.
  revert a. induction n as [|n IH]; intros a x Hx; [lia|]. cbn [blank].
  destruct (decide (x = a)) as [->|]; [rewrite lookup_insert_eq; by eexists|].
  rewrite lookup_insert_ne by done. apply IH. lia.
Qed.
