(* ===== verification/Operations.v ===== *)
(** * Default operations: [lib.c]

    A brick's operation table has an entry for every opcode.  Where the brick
    implements nothing, the generated table points to a default of [lib.c]:
    elementary operations complain, combined operations are composed from
    elementary ones through the same table, so a brick that overrides one of
    them changes what the others do. *)

From S2P Require Import Prelude.
From S2P Require Import Common.
Open Scope Z_scope.

Section defaults.
Context {W : Type}.
Implicit Types (ops : optable W) (a : args) (param : text) (w : world W).

(** [printf] *)
Definition print (s : string) w : world W :=
  World (console w ++ [s]) (brick w).

(** The name of an operation as the macros paste it. *)
Definition bare_name (op : op_t) : string :=
  match op with
  | opcode_output_init => "output_init"
  | opcode_trans => "trans" | opcode_wait => "wait"
  | opcode_get => "get" | opcode_put => "put"
  | opcode_lock => "lock" | opcode_unlock => "unlock"
  | opcode_gadr => "gadr" | opcode_padr => "padr"
  | opcode_create => "create" | opcode_delete => "delete" | opcode_move => "move"
  | opcode_instbrick => "instbrick" | opcode_deinstbrick => "deinstbrick"
  | opcode_instconn => "instconn" | opcode_deinstconn => "deinstconn"
  | opcode_connect => "connect" | opcode_disconnect => "disconnect"
  | opcode_getconn => "getconn" | opcode_findconn => "findconn"
  | opcode_transwait => "transwait" | opcode_gettranswait => "gettranswait"
  | opcode_transwaitput => "transwaitput" | opcode_putwait => "putwait"
  | opcode_createget => "createget" | opcode_gadrcreate => "gadrcreate"
  | opcode_gadrcreateget => "gadrcreateget"
  | opcode_gadrgettranswait => "gadrgettranswait"
  | opcode_putpadr => "putpadr" | opcode_putdelete => "putdelete"
  | opcode_deletepadr => "deletepadr" | opcode_putdeletepadr => "putdeletepadr"
  | opcode_gadrtranswaitdeletepadr => "gadrtranswaitdeletepadr"
  | opcode_gadrcreatetranswaitpadr => "gadrcreatetranswaitpadr"
  | opcode_output_max => "bad_output_max"
  | opcode_input_init => "input_init" | opcode_retract => "retract"
  | opcode_input_max => "bad_input_max"
  | opcode_brick_init => "brick_init" | opcode_brick_max => "bad_brick_max"
  end.

Definition UNINITIALIZED (op : op_t) : operation W := fun a param w =>
  (a, print (String.append "operation "
        (String.append (bare_name op) " called at stateless phase")) w).

Definition MISSING (op : op_t) : operation W := fun a param w =>
  (a, print (String.append "operation "
        (String.append (bare_name op) " not implemented")) w).

Definition OPTIONAL : operation W := fun a param w =>
  (a <| success := false |>, w).

Definition UNUSED : operation W := fun a param w =>
  (a <| success := true |>, w).

(** ** Combined operations *)

Definition missing__transwait ops : operation W := fun a param w =>
  let '(a, w) := call ops opcode_trans (a <| op_code := opcode_trans |>) param w in
  if negb (success a) then (a, w) else
  let a := a <| success := false |> <| action := action_wait |>
             <| op_code := opcode_wait |> in
  call ops opcode_wait a param w.

Definition missing__gettranswait ops : operation W := fun a param w =>
  let '(a, w) := call ops opcode_get (a <| op_code := opcode_get |>) param w in
  if negb (success a) then (a, w) else
  if version_code (version a) <? version_code vers_newest then
    let a := a <| success := false |> <| direction := direct_read |>
               <| op_code := opcode_transwait |> in
    let '(a, w) := call ops opcode_transwait a param w in
    if negb (success a) then
      let '(a, w) := call ops opcode_put (a <| prio := prio_none |>) param w in
      (a <| success := false |>, w)
    else (a, w)
  else (a, w).

Definition missing__transwaitput ops : operation W := fun a param w =>
  let a := a <| direction := direct_write |> <| op_code := opcode_transwait |> in
  let '(a, w) := call ops opcode_transwait a param w in
  let res := success a in
  let a := a <| success := false |> <| op_code := opcode_put |> in
  let '(a, w) := call ops opcode_put a param w in
  (a <| success := success a && res |>, w).

Definition missing__putwait ops : operation W := fun a param w =>
  let '(a, w) := call ops opcode_put (a <| op_code := opcode_put |>) param w in
  if negb (success a) then (a, w) else
  call ops opcode_wait (a <| op_code := opcode_wait |>) param w.

Definition missing__createget ops : operation W := fun a param w =>
  let '(a, w) := call ops opcode_create (a <| op_code := opcode_create |>) param w in
  if negb (success a) then (a, w) else
  let a := a <| success := false |> <| forwrite := true |>
             <| op_code := opcode_get |> in
  call ops opcode_get a param w.

Definition missing__gadrcreate ops : operation W := fun a param w =>
  let a := a <| reader := false |> <| op_code := opcode_gadr |> in
  let '(a, w) := call ops opcode_gadr a param w in
  if negb (success a) then (a, w) else
  let a := a <| success := false |> <| op_code := opcode_create |> in
  call ops opcode_create a param w.

Definition missing__gadrcreateget ops : operation W := fun a param w =>
  let a := a <| reader := false |> <| op_code := opcode_gadr |> in
  let '(a, w) := call ops opcode_gadr a param w in
  if negb (success a) then (a, w) else
  let a := a <| success := false |> <| op_code := opcode_createget |> in
  call ops opcode_createget a param w.

Definition missing__gadrgettranswait ops : operation W := fun a param w =>
  let a := a <| reader := true |> <| op_code := opcode_gadr |> in
  let '(a, w) := call ops opcode_gadr a param w in
  if negb (success a) then (a, w) else
  let a := a <| success := false |> <| op_code := opcode_gettranswait |> in
  call ops opcode_gettranswait a param w.

Definition missing__putpadr ops : operation W := fun a param w =>
  let a := a <| prio := prio_background |> <| op_code := opcode_put |> in
  let '(a, w) := call ops opcode_put a param w in
  if negb (success a) then (a, w) else
  let a := a <| success := false |> <| reader := false |>
             <| op_code := opcode_padr |> in
  call ops opcode_padr a param w.

Definition missing__putdelete ops : operation W := fun a param w =>
  let a := a <| prio := prio_none |> <| op_code := opcode_put |> in
  let '(a, w) := call ops opcode_put a param w in
  if negb (success a) then (a, w) else
  let a := a <| success := false |> <| op_code := opcode_delete |> in
  call ops opcode_delete a param w.

Definition missing__deletepadr ops : operation W := fun a param w =>
  let '(a, w) := call ops opcode_delete (a <| op_code := opcode_delete |>) param w in
  if negb (success a) then (a, w) else
  let a := a <| success := false |> <| op_code := opcode_padr |> in
  call ops opcode_padr a param w.

Definition missing__putdeletepadr ops : operation W := fun a param w =>
  let a := a <| op_code := opcode_putdelete |> in
  let '(a, w) := call ops opcode_putdelete a param w in
  if negb (success a) then (a, w) else
  let a := a <| success := false |> <| op_code := opcode_padr |> in
  call ops opcode_padr a param w.

(** [args->log_len = args->try_len = args->phys_len;] and the flags of the
    two pipe operations *)
Definition pipe_prologue (a : args) : args :=
  a <| op_code := opcode_gadr |> <| try_len := phys_len a |>
    <| log_len := phys_len a |> <| reader := true |> <| exclu := true |>.

Definition missing__gadrtranswaitdeletepadr ops : operation W := fun a param w =>
  let '(a, w) := call ops opcode_gadr (pipe_prologue a) param w in
  if negb (success a) then (a, w) else
  let a := a <| success := false |> <| op_code := opcode_transwait |>
             <| direction := direct_read |> in
  let '(a, w) := call ops opcode_transwait a param w in
  if negb (success a) || negb (phys_len a =? log_len a) then (a, w) else
  let a := a <| success := false |> <| op_code := opcode_delete |>
             <| log_len := phys_len a |> in
  let '(a, w) := call ops opcode_delete a param w in
  if negb (success a) then (a, w) else
  let a := a <| success := false |> <| op_code := opcode_padr |> in
  call ops opcode_padr a param w.

Definition missing__gadrcreatetranswaitpadr ops : operation W := fun a param w =>
  let '(a, w) := call ops opcode_gadr (pipe_prologue a) param w in
  if negb (success a) then (a, w) else
  let a := a <| success := false |> <| op_code := opcode_create |>
             <| clear := false |> <| melt := true |> in
  let '(a, w) := call ops opcode_create a param w in
  if negb (success a) then (a, w) else
  let a := a <| success := false |> <| op_code := opcode_transwait |>
             <| direction := direct_read |> in
  let '(a, w) := call ops opcode_transwait a param w in
  if negb (success a) || negb (phys_len a =? log_len a) then (a, w) else
  let a := a <| success := false |> <| op_code := opcode_padr |>
             <| log_len := phys_len a |> in
  call ops opcode_padr a param w.

(** ** The tables *)

(** The default entry of every opcode. *)
Definition missing ops (op : op_t) : operation W :=
  match op with
  | opcode_output_init | opcode_input_init | opcode_brick_init => UNUSED
  | opcode_retract => OPTIONAL
  | opcode_transwait => missing__transwait ops
  | opcode_gettranswait => missing__gettranswait ops
  | opcode_transwaitput => missing__transwaitput ops
  | opcode_putwait => missing__putwait ops
  | opcode_createget => missing__createget ops
  | opcode_gadrcreate => missing__gadrcreate ops
  | opcode_gadrcreateget => missing__gadrcreateget ops
  | opcode_gadrgettranswait => missing__gadrgettranswait ops
  | opcode_putpadr => missing__putpadr ops
  | opcode_putdelete => missing__putdelete ops
  | opcode_deletepadr => missing__deletepadr ops
  | opcode_putdeletepadr => missing__putdeletepadr ops
  | opcode_gadrtranswaitdeletepadr => missing__gadrtranswaitdeletepadr ops
  | opcode_gadrcreatetranswaitpadr => missing__gadrcreatetranswaitpadr ops
  | _ => MISSING op
  end.

(** [uninitialized_output] and its siblings: every entry complains. *)
Definition uninitialized_output : optable W := fun sect op => UNINITIALIZED op.

(** The table of a brick refers to itself through the connector: it is a
    solution of this equation. *)
Definition is_table (impl : impl_table W) (ops : optable W) : Prop :=
  forall sect op a param w,
    ops sect op a param w =
    match impl sect op with
    | Some f => f a param w
    | None => missing ops op a param w
    end.

(** Unfolding the self-reference [n] times; below that nothing runs. *)
Fixpoint dispatch (n : nat) (impl : impl_table W) (sect : Z) (op : op_t) : operation W :=
  match impl sect op with
  | Some f => f
  | None =>
    match n with
    | O => fun a param w => (a, w)
    | S n' => missing (dispatch n' impl) op
    end
  end.

End defaults.

(** [op_names], indexed by opcode *)
Definition op_names : list string :=
  [ "output_init"; "trans"; "wait"; "get"; "put"; "lock"; "unlock"; "gadr"; "padr";
    "create"; "delete"; "move"; "instbrick"; "deinstbrick"; "instconn";
    "deinstconn"; "connect"; "disconnect"; "getconn"; "findconn";
    "transwait"; "gettranswait"; "transwaitput"; "putwait"; "createget";
    "gadrcreate"; "gadrcreateget"; "gadrgettranswait"; "putpadr"; "putdelete";
    "deletepadr"; "putdeletepadr"; "gadrtranswaitdeletepadr";
    "gadrcreatetranswaitpadr"; "bad_output_max"; "input_init"; "retract";
    "bad_input_max"; "brick_init"; "bad_brick_max" ].

(** ** Specification: courses of elementary operations *)

(** How deep the defaults of an operation call one another. *)
Definition rank (op : op_t) : nat :=
  match op with
  | opcode_transwait | opcode_putwait | opcode_createget | opcode_gadrcreate
  | opcode_putpadr | opcode_putdelete | opcode_deletepadr => 1
  | opcode_gettranswait | opcode_transwaitput | opcode_gadrcreateget
  | opcode_putdeletepadr | opcode_gadrtranswaitdeletepadr
  | opcode_gadrcreatetranswaitpadr => 2
  | opcode_gadrgettranswait => 3
  | _ => 0
  end.

Definition combined (op : op_t) : bool := negb (rank op =? 0)%nat.

(** A course of elementary operations: a call of one on the arguments as set
    up, and how to go on when it reports success and when it does not; a test
    of the arguments; the end, with a last change of the result. *)
Inductive course : Type :=
  | Finish (result : args -> args)
  | Step (setup : args -> args) (op : op_t) (yes no : course)
  | Test (cond : args -> bool) (yes no : course).

Fixpoint run_course {W} (ops : optable W) (k : course) : operation W :=
  fun a param w =>
    match k with
    | Finish result => (result a, w)
    | Step setup op yes no =>
      let '(a, w) := call ops op (setup a) param w in
      if success a then run_course ops yes a param w else run_course ops no a param w
    | Test cond yes no =>
      if cond a then run_course ops yes a param w else run_course ops no a param w
    end.

(** The end with the result of the last operation. *)
Definition stop : course := Finish id.

(** The steps one after the other, under their own opcodes, as long as each
    reports success; then [yes], and [no] after the first that does not. *)
Fixpoint steps (l : list ((args -> args) * op_t)) (yes no : course) : course :=
  match l with
  | [] => yes
  | (setup, op) :: l' => Step (fun a => setup a <| op_code := op |>) op (steps l' yes no) no
  end.

Definition again (setup : args -> args) : args -> args :=
  fun a => setup (a <| success := false |>).

(** One more operation whose report no longer counts: failure. *)
Definition but_fail (setup : args -> args) (op : op_t) : course :=
  Step setup op (Finish (fun a => a <| success := false |>))
    (Finish (fun a => a <| success := false |>)).

Definition wait_step : (args -> args) * op_t :=
  (again (fun a => a <| action := action_wait |>), opcode_wait).

Definition read_steps : list ((args -> args) * op_t) :=
  [ (again (fun a => a <| direction := direct_read |>), opcode_trans); wait_step ].

(** Take the region; read it unless its newest version is there already;
    give it back when the reading fails, with the opcode left as it is. *)
Definition get_course (setup : args -> args) : course :=
  steps [ (setup, opcode_get) ]
    (Test (fun a => version_code (version a) <? version_code vers_newest)
       (steps read_steps stop (but_fail (fun a => a <| prio := prio_none |>) opcode_put))
       stop)
    stop.

(** Only a transfer of the full length goes on. *)
Definition in_full (k : course) : course :=
  Test (fun a => phys_len a =? log_len a) k stop.

(** The elementary operations behind every combined one. *)
Definition plan (op : op_t) : course :=
  match op with
  | opcode_transwait => steps [ (id, opcode_trans); wait_step ] stop stop
  | opcode_gettranswait => get_course id
  | opcode_transwaitput =>
    steps [ (fun a => a <| direction := direct_write |>, opcode_trans); wait_step ]
      (steps [ (again id, opcode_put) ] stop stop)
      (but_fail (fun a => again id a <| op_code := opcode_put |>) opcode_put)
  | opcode_putwait => steps [ (id, opcode_put); (id, opcode_wait) ] stop stop
  | opcode_createget => steps
      [ (id, opcode_create); (again (fun a => a <| forwrite := true |>), opcode_get) ] stop stop
  | opcode_gadrcreate => steps
      [ (fun a => a <| reader := false |>, opcode_gadr); (again id, opcode_create) ] stop stop
  | opcode_gadrcreateget => steps
      [ (fun a => a <| reader := false |>, opcode_gadr);
        (again id, opcode_create);
        (again (fun a => a <| forwrite := true |>), opcode_get) ] stop stop
  | opcode_gadrgettranswait =>
    steps [ (fun a => a <| reader := true |>, opcode_gadr) ] (get_course (again id)) stop
  | opcode_putpadr => steps
      [ (fun a => a <| prio := prio_background |>, opcode_put);
        (again (fun a => a <| reader := false |>), opcode_padr) ] stop stop
  | opcode_putdelete => steps
      [ (fun a => a <| prio := prio_none |>, opcode_put); (again id, opcode_delete) ] stop stop
  | opcode_deletepadr => steps [ (id, opcode_delete); (again id, opcode_padr) ] stop stop
  | opcode_putdeletepadr => steps
      [ (fun a => a <| prio := prio_none |>, opcode_put);
        (again id, opcode_delete); (again id, opcode_padr) ] stop stop
  | opcode_gadrtranswaitdeletepadr =>
    Step pipe_prologue opcode_gadr
      (steps read_steps
         (in_full (steps
            [ (again (fun a => a <| log_len := phys_len a |>), opcode_delete);
              (again id, opcode_padr) ] stop stop))
         stop)
      stop
  | opcode_gadrcreatetranswaitpadr =>
    Step pipe_prologue opcode_gadr
      (steps ((again (fun a => a <| clear := false |> <| melt := true |>), opcode_create)
              :: read_steps)
         (in_full (steps [ (again (fun a => a <| log_len := phys_len a |>), opcode_padr) ] stop stop))
         stop)
      stop
  | _ => stop
  end.

(** A brick that implements elementary operations only. *)
Definition elementary {W} (impl : impl_table W) : Prop :=
  forall sect op, combined op = true -> impl sect op = None.

(** ** The contract of a buffer nest

    What a brick with reservations promises: [get] takes one when it reports
    success and none otherwise, [put] gives one back whatever it reports,
    and the other elementary operations leave them alone. *)
Class Reserving {W} (impl : impl_table W) (held : W -> nat) : Prop := {
  reserving_get sect f a param w : impl sect opcode_get = Some f ->
    held (brick (f a param w).2) =
    (if success (f a param w).1 then S else id) (held (brick w));
  reserving_put sect f a param w : impl sect opcode_put = Some f ->
    held (brick (f a param w).2) = pred (held (brick w));
  reserving_other sect op f a param w :
    impl sect op = Some f -> op ∈ [opcode_trans; opcode_wait; opcode_gadr] ->
    held (brick (f a param w).2) = held (brick w);
  reserving_implemented sect op :
    op ∈ [opcode_get; opcode_put] -> is_Some (impl sect op)
}.

(** The index of an opcode in the enumeration. *)
Definition opcode (op : op_t) : nat :=
  default 0%nat (fst <$> list_find (eq op) all_opcodes).

(** ** Facts about the tables *)

Ltac unfold_defaults :=
  unfold missing__transwait, missing__gettranswait, missing__transwaitput,
    missing__putwait, missing__createget, missing__gadrcreate,
    missing__gadrcreateget, missing__gadrgettranswait, missing__putpadr,
    missing__putdelete, missing__deletepadr, missing__putdeletepadr,
    missing__gadrtranswaitdeletepadr, missing__gadrcreatetranswaitpadr.

Section table_facts.
Context {W : Type}.
Implicit Types (ops : optable W) (impl : impl_table W).

(** Two tables that agree below an operation give it the same default. *)
Lemma missing_ext ops1 ops2 op :
  (forall sect op', (rank op' < rank op)%nat ->
     forall a param w, ops1 sect op' a param w = ops2 sect op' a param w) ->
  forall a param w, missing ops1 op a param w = missing ops2 op a param w.
Proof.
  intros H a param w.
  destruct op; try reflexivity;
    cbn [missing]; unfold_defaults; unfold call;
    repeat (first [ rewrite H by (simpl; lia) | destruct (ops2 _ _ _ _ _) | case_match ];
            try reflexivity).
Qed.

Lemma dispatch_stable impl n m sect op :
  (rank op < n)%nat -> (rank op < m)%nat ->
  forall a param w, dispatch n impl sect op a param w = dispatch m impl sect op a param w.
Proof.
  revert m sect op. induction n as [|n IH]; intros m sect op Hn Hm; [lia|].
  destruct m as [|m]; [lia|]. intros a param w. simpl.
  destruct (impl sect op); [done|].
  apply missing_ext. intros sect' op' Hop' a' param' w'. apply IH; lia.
Qed.

Lemma rank_bound op : (rank op < 4)%nat.
Proof. destruct op; simpl; lia. Qed.

Lemma dispatch_is_table impl : is_table impl (dispatch 4 impl).
Proof.
  intros sect op a param w.
  rewrite (dispatch_stable impl 4 5) by (pose proof (rank_bound op); lia).
  change (dispatch 5 impl sect op) with
    (match impl sect op with Some f => f | None => missing (dispatch 4 impl) op end).
  by destruct (impl sect op).
Qed.

Lemma table_is_dispatch impl ops :
  is_table impl ops ->
  forall n sect op, (rank op < n)%nat ->
  forall a param w, ops sect op a param w = dispatch n impl sect op a param w.
Proof.
  intros Htab n. induction n as [|n IH]; intros sect op Hop a param w; [lia|].
  rewrite Htab. simpl. destruct (impl sect op); [done|].
  apply missing_ext. intros. apply IH. lia.
Qed.

(** C30: the mutually referring defaults of lib.c are well founded.  For every
    brick there is exactly one operation table that has the brick's own
    operations where it implements them and the defaults elsewhere, and
    four levels of calls are enough to compute it. *)
Theorem default_table_unique impl :
  is_table impl (dispatch 4 impl) /\
  forall ops, is_table impl ops ->
  forall sect op a param w, ops sect op a param w = dispatch 4 impl sect op a param w.
Proof.
  split; [apply dispatch_is_table|].
  intros ops Htab sect op. apply table_is_dispatch, rank_bound. done.
Qed.

(** The default entry is reached for everything the brick leaves out. *)
Lemma table_missing impl ops sect op a param w :
  is_table impl ops -> impl sect op = None ->
  ops sect op a param w = missing ops op a param w.
Proof. intros Htab Hnone. by rewrite Htab, Hnone. Qed.

Lemma table_impl impl ops sect op f a param w :
  is_table impl ops -> impl sect op = Some f ->
  ops sect op a param w = f a param w.
Proof. intros Htab Hsome. by rewrite Htab, Hsome. Qed.

Lemma table_combined impl ops sect op a param w :
  is_table impl ops -> elementary impl -> combined op = true ->
  ops sect op a param w = missing ops op a param w.
Proof. intros ? He ?. apply table_missing with impl; [done|]. by apply He. Qed.

(** The same results, a flag that is known included. *)
Ltac same_results :=
  match goal with
  | |- _ => done
  | |- (_, ?w) = (?a, ?w) => is_var a; destruct a; simplify_eq/=; done
  end.

(** One call through the table: open the default of a combined operation,
    split on the outcome of an elementary one. *)
Ltac step_table impl ops :=
  match goal with
  | |- context [ops ?s ?o ?x ?p ?v] =>
    lazymatch eval cbv in (combined o) with
    | true => rewrite (table_combined impl ops s o x p v) by done;
              cbn [missing]; unfold_defaults; unfold call, upd; cbn
    | false => let a' := fresh "a" in let w' := fresh "w" in
               destruct (ops s o x p v) as [a' w'] eqn:?; cbn;
               let E := fresh "E" in destruct (success a') eqn:E; cbn;
               repeat (progress rewrite ?E; cbn)
    end
  | |- context [version_code ?v <? ?n] => destruct (version_code v <? n); cbn
  | |- context [?x =? ?y] => destruct (x =? y); cbn
  end.

End table_facts.

(** ** Reservations through the defaults *)

Section reservations.
Context {W : Type} (impl : impl_table W) (held : W -> nat) `{!Reserving impl held}.
Context (ops : optable W) (Htab : is_table impl ops) (Hel : elementary impl).

Lemma held_get sect a param w :
  let r := ops sect opcode_get a param w in
  held (brick r.2) = if success r.1 then S (held (brick w)) else held (brick w).
Proof.
  destruct (reserving_implemented sect opcode_get) as [f Hf]; [set_solver|].
  rewrite (table_impl impl ops sect _ f) by done. cbv zeta.
  rewrite (reserving_get sect f) by done. by destruct (success _).
Qed.

Lemma held_put sect a param w :
  held (brick (ops sect opcode_put a param w).2) = pred (held (brick w)).
Proof.
  destruct (reserving_implemented sect opcode_put) as [f Hf]; [set_solver|].
  rewrite (table_impl impl ops sect _ f) by done. by apply reserving_put with sect.
Qed.

(** Where the brick implements nothing the default only prints. *)
Lemma held_other sect op a param w :
  op ∈ [opcode_trans; opcode_wait; opcode_gadr] ->
  held (brick (ops sect op a param w).2) = held (brick w).
Proof.
  intros Hop. destruct (impl sect op) as [f|] eqn:Hf.
  - rewrite (table_impl impl ops sect _ f) by done. by apply reserving_other with sect op.
  - rewrite (table_missing impl) by done.
    set_unfold. by destruct Hop as [->|[->|[->|[]]]].
Qed.

Lemma held_transwait sect a param w :
  held (brick (ops sect opcode_transwait a param w).2) = held (brick w).
Proof.
  rewrite (table_combined impl) by done. cbn [missing]. unfold_defaults. unfold call.
  pose proof (held_other (sect_code (a <| op_code := opcode_trans |>)) opcode_trans
    (a <| op_code := opcode_trans |>) param w ltac:(set_solver)) as H1.
  destruct (ops _ opcode_trans _ _ _) as [a1 w1]; simpl in *.
  destruct (success a1); simpl; [|done].
  rewrite held_other by set_solver. done.
Qed.

Lemma held_gettranswait sect a param w :
  let r := ops sect opcode_gettranswait a param w in
  held (brick r.2) = if success r.1 then S (held (brick w)) else held (brick w).
Proof.
  cbv zeta. rewrite (table_combined impl) by done.
  cbn [missing]. unfold_defaults. unfold call.
  pose proof (held_get (sect_code (a <| op_code := opcode_get |>))
    (a <| op_code := opcode_get |>) param w) as H1.
  destruct (ops _ opcode_get _ _ _) as [a1 w1]; simpl in *.
  destruct (success a1) eqn:Hs1; simpl; [|by rewrite Hs1].
  destruct (_ <? 2); simpl; [|by rewrite Hs1].
  match goal with |- context [ops ?s opcode_transwait ?x ?p ?v] =>
    pose proof (held_transwait s x p v) as H2;
    destruct (ops s opcode_transwait x p v) as [a2 w2] end; simpl in *.
  destruct (success a2) eqn:Hs2; simpl; [by rewrite Hs2, H2|].
  match goal with |- context [ops ?s opcode_put ?x ?p ?v] =>
    pose proof (held_put s x p v) as H3;
    destruct (ops s opcode_put x p v) as [a3 w3] end; simpl in *.
  rewrite H3, H2, H1. done.
Qed.

(** C32: the default gettranswait never leaks a reservation.  Called in the
    table of any brick that keeps the reservation contract, it takes exactly
    one reservation when it reports success and none when it reports failure
    -- the transfer failing after the get included -- and so does
    gadrgettranswait, which is built on it. *)
Theorem gettranswait_no_leak a param w :
  (let r := missing__gettranswait ops a param w in
   held (brick r.2) = if success r.1 then S (held (brick w)) else held (brick w)) /\
  (let r := missing__gadrgettranswait ops a param w in
   held (brick r.2) = if success r.1 then S (held (brick w)) else held (brick w)).
Proof.
  change (missing__gettranswait ops) with (missing ops opcode_gettranswait).
  rewrite <- (table_combined impl ops 0 opcode_gettranswait) by done.
  split; [apply held_gettranswait|]. cbv zeta. unfold_defaults. unfold call.
  match goal with |- context [ops ?s opcode_gadr ?x ?p ?v] =>
    pose proof (held_other s opcode_gadr x p v ltac:(set_solver)) as H1;
    destruct (ops s opcode_gadr x p v) as [a1 w1] end; simpl in *.
  destruct (success a1) eqn:Hs1; simpl; [|by rewrite Hs1].
  rewrite <- H1. apply held_gettranswait.
Qed.

(** The default transwaitput always gives the reservation back, whatever
    the transfer and the put report, and reports success only when both
    the transfer and the put did. *)
Lemma transwaitput_always_puts a param w :
  let r := missing__transwaitput ops a param w in
  let a0 := a <| direction := direct_write |> <| op_code := opcode_transwait |> in
  let t := ops (sect_code a) opcode_transwait a0 param w in
  held (brick r.2) = pred (held (brick w)) /\
  (success r.1 = true -> success t.1 = true).
Proof.
  cbv zeta. unfold missing__transwaitput, call.
  change (sect_code (a <| direction := direct_write |> <| op_code := opcode_transwait |>))
    with (sect_code a).
  pose proof (held_transwait (sect_code a)
    (a <| direction := direct_write |> <| op_code := opcode_transwait |>) param w) as H1.
  destruct (ops (sect_code a) opcode_transwait _ param w) as [a1 w1]; simpl in *.
  match goal with |- context [ops ?s opcode_put ?x ?p ?v] =>
    pose proof (held_put s x p v) as H2;
    destruct (ops s opcode_put x p v) as [a2 w2] end; simpl in *.
  split; [by rewrite H2, H1|]. by intros [_ ?]%andb_true_iff.
Qed.
End reservations.

(** The sequences differ in what a missing second half means: transwait
    clears the result before its second call, putwait does not. *)
Section stale_success.
Context {W : Type} (impl : impl_table W) (ops : optable W) (Htab : is_table impl ops).
Context (no_wait : forall sect, impl sect opcode_wait = None).

(** For a brick without a wait operation the default transwait reports
    failure, but the default putwait reports the success left over from its
    put although the wait it calls only prints that it is not implemented. *)
Theorem putwait_reports_stale_success a param w :
  success (missing__transwait ops a param w).1 = false /\
  success (missing__putwait ops a param w).1
    = success (ops (sect_code a) opcode_put (a <| op_code := opcode_put |>) param w).1.
Proof.
  unfold_defaults. unfold call.
  change (sect_code (a <| op_code := _ |>)) with (sect_code a).
  split.
  - destruct (ops (sect_code a) opcode_trans _ param w) as [a1 w1].
    destruct (success a1) eqn:Hs; simpl; [|done].
    by rewrite (table_missing impl) by done.
  - destruct (ops (sect_code a) opcode_put _ param w) as [a1 w1].
    destruct (success a1) eqn:Hs; simpl; [|done].
    by rewrite (table_missing impl) by done.
Qed.
End stale_success.

(** ** A concrete brick

    A buffer that counts its reservations and can transfer, but has no
    [wait]; every property above is applied to it. *)

Definition counter_impl : impl_table nat := fun sect op =>
  match op with
  | opcode_get => Some (fun a param w =>
      (a <| success := true |>, World (console w) (S (brick w))))
  | opcode_put => Some (fun a param w =>
      (a <| success := true |>, World (console w) (pred (brick w))))
  | opcode_trans => Some (fun a param w => (a <| success := true |>, w))
  | _ => None
  end.

Definition counter_table : optable nat := dispatch 4 counter_impl.

Lemma counter_is_table : is_table counter_impl counter_table.
Proof. apply dispatch_is_table. Qed.

Lemma counter_elementary : elementary counter_impl.
Proof. intros sect op. by destruct op. Qed.

#[export] Instance counter_reserving : Reserving counter_impl id.
Proof.
  split.
  - intros sect f a param w [= <-]. done.
  - intros sect f a param w [= <-]. done.
  - intros sect op f a param w Hf Hop. set_unfold.
    destruct Hop as [->|[->|[->|[]]]]; simplify_eq/=; done.
  - intros sect op Hop. set_unfold. destruct Hop as [->|[->|[]]]; eauto.
Qed.

Lemma default_table_unique_witness :
  counter_table 0 opcode_gadrcreateget zero_args [] (World [] 5%nat) =
  dispatch 4 counter_impl 0 opcode_gadrcreateget zero_args [] (World [] 5%nat).
Proof.
  exact (proj2 (default_table_unique counter_impl) counter_table counter_is_table
    0 opcode_gadrcreateget zero_args [] (World [] 5%nat)).
Defined.


Lemma gettranswait_no_leak_witness :
  let r := missing__gettranswait counter_table zero_args [] (World [] 5%nat) in
  success r.1 = false /\ brick r.2 = 5%nat.
Proof.
  pose proof (proj1 (gettranswait_no_leak counter_impl id counter_table
    counter_is_table counter_elementary zero_args [] (World [] 5%nat))) as H.
  split; [vm_compute; reflexivity | exact H].
Defined.

Lemma transwaitput_always_puts_witness :
  brick (missing__transwaitput counter_table zero_args [] (World [] 5%nat)).2 = 4%nat.
Proof.
  exact (proj1 (transwaitput_always_puts counter_impl id counter_table
    counter_is_table counter_elementary zero_args [] (World [] 5%nat))).
Defined.

Lemma putwait_reports_stale_success_witness :
  success (missing__transwait counter_table zero_args [] (World [] 5%nat)).1 = false /\
  success (missing__putwait counter_table zero_args [] (World [] 5%nat)).1 = true.
Proof.
  destruct (putwait_reports_stale_success counter_impl counter_table counter_is_table
    (fun _ => eq_refl) zero_args [] (World [] 5%nat)) as [H1 H2].
  split; [exact H1 | rewrite H2; reflexivity].
Defined.
