(* ===== verification/BrickInit.v ===== *)
(** * Brick initialisation: [lib.c]

    [init_all_conns] walks the loader's connector table, forwards when it
    constructs and backwards when it destructs, and runs the initialiser of
    every selected connector; [init_all_instances] and [init_one_instance]
    initialise the sub-bricks of a composite brick. *)

From S2P Require Import Prelude.
From S2P Require Import Common.
Open Scope Z_scope.

Section init.
Context {W : Type}.
Implicit Types (ld : loader W) (lc : load_conn W) (a : args) (param : text) (w : world W).

(** ** The operations *)

(** The nested function [do_it]: [n] connectors, [size] bytes apart. *)
Fixpoint do_it (n : nat) (conn size : Z) (init_conn : Z -> operation W) : operation W :=
  fun a param w =>
    match n with
    | O => (a, w)
    | S n' =>
      let '(a, w) := init_conn conn (a <| success := false |>) param w in
      if negb (success a) then (a, w)
      else do_it n' (conn + size) size init_conn a param w
    end.

Definition bool_code (b : bool) : Z := if b then 1 else 0.

(** [!load_conn->autoinit || (type >= 0 && load_conn->type != type)] *)
Definition skipped (type : Z) lc : bool :=
  negb (lc_autoinit lc) || ((type >=? 0) && negb (bool_code (lc_type lc) =? type)).

(** [loader->conn\[k\]] *)
Definition conn_at ld (k : Z) : cres (load_conn W) :=
  if k <? 0 then Fault OutOfBounds else
  match ld_conn ld !! Z.to_nat k with
  | Some lc => Ok lc
  | None => Fault OutOfBounds
  end.

(** The loop [for(...; i > 0; load_conn += dk, i--)]. *)
Fixpoint conn_loop ld (type brick : Z) (i : nat) (k dk : Z) a param w
    : cres (args * world W) :=
  match i with
  | O => Ok (a, w)
  | S i' =>
    lc ← conn_at ld k;
    if skipped type lc then conn_loop ld type brick i' (k + dk) dk a param w
    else
      let '(a, w) := do_it (Z.to_nat (lc_count lc)) (brick + lc_offset lc)
                       (lc_size lc) (lc_init_conn lc) a param w in
      if negb (success a) then Ok (a, w)
      else conn_loop ld type brick i' (k + dk) dk a param w
  end.

Definition init_all_conns ld (type brick : Z) a param w : cres (args * world W) :=
  let i := conn_count ld in
  let a := a <| success := true |> in
  if constr a
  then conn_loop ld type brick (Z.to_nat i) 0 1 a param w
  else conn_loop ld type brick (Z.to_nat i) (i - 1) (-1) a param w.

Fixpoint instance_loop (l : list (load_instance W)) (brick : Z) (i : nat) a param w
    : cres (args * world W) :=
  match i, l with
  | O, _ => Ok (a, w)
  | S i', [] => Fault OutOfBounds
  | S i', li :: l' =>
    let '(a, w) := li_init_brick li (brick + li_offset li) (a <| success := false |>) param w in
    if negb (success a) then Ok (a, w) else instance_loop l' brick i' a param w
  end.

Definition init_all_instances ld (brick : Z) a param w : cres (args * world W) :=
  instance_loop (instances ld) brick (Z.to_nat (inst_count ld)) a param w.

Fixpoint one_instance_loop (l : list (load_instance W)) (brick subbrick_offset : Z)
    (i : nat) a param w : cres (args * world W) :=
  match i, l with
  | O, _ => Ok (a, w)
  | S i', [] => Fault OutOfBounds
  | S i', li :: l' =>
    if li_offset li =? subbrick_offset
    then Ok (li_init_brick li (brick + li_offset li) a param w)
    else one_instance_loop l' brick subbrick_offset i' a param w
  end.

Definition init_one_instance ld (brick subbrick : Z) a param w : cres (args * world W) :=
  one_instance_loop (instances ld) brick (subbrick - brick)
    (Z.to_nat (inst_count ld)) a param w.

(** ** Specification *)

(** A visit is an initialiser applied to the address it initialises. *)
Definition visit := operation W.

(** Run initialisers in order, each with [success] cleared, up to and
    including the first one that does not set it. *)
Fixpoint run_inits (l : list visit) : operation W :=
  fun a param w =>
    match l with
    | [] => (a, w)
    | f :: l' =>
      let '(a, w) := f (a <| success := false |>) param w in
      if success a then run_inits l' a param w else (a, w)
    end.

(** The elements of one connector array, in ascending order. *)
Definition conn_visits (brick : Z) lc : list visit :=
  (fun j => lc_init_conn lc (brick + lc_offset lc + j * lc_size lc))
    <$> indices 0 (Z.to_nat (lc_count lc)).

Definition visits (type brick : Z) (l : list (load_conn W)) : list visit :=
  concat (conn_visits brick <$> List.filter (fun lc => negb (skipped type lc)) l).

Definition instance_visits (brick : Z) (l : list (load_instance W)) : list visit :=
  (fun li => li_init_brick li (brick + li_offset li)) <$> l.

(** The loader's counts agree with its tables. *)
Definition loader_ok ld : Prop :=
  conn_count ld = Z.of_nat (length (ld_conn ld)) /\
  inst_count ld = Z.of_nat (length (instances ld)).

(** ** Proofs *)

Lemma run_inits_app l1 l2 a param w :
  success a = true ->
  run_inits (l1 ++ l2) a param w =
  (let r := run_inits l1 a param w in
   if success r.1 then run_inits l2 r.1 param r.2 else r).
Proof.
  revert a w. induction l1 as [|f l1 IH]; intros a w Hs; simpl; [by rewrite Hs|].
  destruct (f (a <| success := false |>) param w) as [a1 w1].
  destruct (success a1) eqn:Hs1; [by apply IH|]. simpl. by rewrite Hs1.
Qed.

Lemma do_it_visits n init (base size : Z) j0 a param w :
  do_it n (base + j0 * size) size init a param w =
  run_inits ((fun j => init (base + j * size)) <$> indices j0 n) a param w.
Proof.
  revert j0 a w. induction n as [|n IH]; intros j0 a w; simpl; [done|].
  destruct (init _ _ param w) as [a1 w1].
  destruct (success a1); simpl; [|done].
  rewrite <- IH. f_equal. lia.
Qed.

(** The connectors from index [k] on, in steps of [dk]. *)
Definition walk_order ld (k dk : Z) (i : nat) (l : list (load_conn W)) : Prop :=
  i = length l /\
  forall (j : nat) lc, l !! j = Some lc -> conn_at ld (k + Z.of_nat j * dk) = Ok lc.

Lemma walk_order_cons ld k dk i lc l :
  walk_order ld k dk (S i) (lc :: l) ->
  conn_at ld k = Ok lc /\ walk_order ld (k + dk) dk i l.
Proof.
  intros [Hi H]. split.
  - rewrite <- (H 0%nat lc) by done. f_equal. lia.
  - split; [by injection Hi|]. intros j lc' Hj. rewrite <- (H (S j) lc') by done.
    f_equal. lia.
Qed.

Lemma visits_cons type brick lc l :
  visits type brick (lc :: l) =
  (if skipped type lc then [] else conn_visits brick lc) ++ visits type brick l.
Proof. unfold visits. simpl. by destruct (skipped type lc). Qed.

Lemma conn_visits_run brick lc a param w :
  run_inits (conn_visits brick lc) a param w =
  do_it (Z.to_nat (lc_count lc)) (brick + lc_offset lc) (lc_size lc)
    (lc_init_conn lc) a param w.
Proof.
  unfold conn_visits. rewrite <- (do_it_visits _ _ (brick + lc_offset lc) _ 0).
  f_equal. lia.
Qed.

Lemma conn_loop_visits ld type brick i k dk l a param w :
  walk_order ld k dk i l -> success a = true ->
  conn_loop ld type brick i k dk a param w = Ok (run_inits (visits type brick l) a param w).
Proof.
  revert i k a w. induction l as [|lc l IH]; intros i k a w Hwalk Hs.
  { destruct Hwalk as [-> _]. done. }
  destruct i as [|i]; [by destruct Hwalk|].
  apply walk_order_cons in Hwalk as [Hat Hwalk]. simpl. rewrite Hat. simpl.
  rewrite visits_cons. destruct (skipped type lc) eqn:Hskip; [by apply IH|].
  rewrite run_inits_app, conn_visits_run by done.
  destruct (do_it _ _ _ _ a param w) as [a1 w1]. simpl.
  destruct (success a1) eqn:Hs1; [by apply IH|done].
Qed.

Lemma walk_forward ld :
  walk_order ld 0 1 (length (ld_conn ld)) (ld_conn ld).
Proof.
  split; [done|]. intros j lc Hj. unfold conn_at.
  replace (0 + Z.of_nat j * 1) with (Z.of_nat j) by lia.
  rewrite (proj2 (Z.ltb_ge _ _)), Nat2Z.id, Hj by lia. done.
Qed.

Lemma walk_backward ld :
  walk_order ld (Z.of_nat (length (ld_conn ld)) - 1) (-1)
    (length (ld_conn ld)) (reverse (ld_conn ld)).
Proof.
  split; [by rewrite length_reverse|]. intros j lc Hj.
  pose proof (lookup_lt_Some _ _ _ Hj) as Hlt. rewrite length_reverse in Hlt.
  rewrite reverse_lookup in Hj by done. unfold conn_at.
  rewrite (proj2 (Z.ltb_ge _ _)) by lia.
  replace (Z.to_nat _) with (length (ld_conn ld) - S j)%nat by lia. by rewrite Hj.
Qed.

(** C35: connector initialisation visits the auto-initialised connectors of the
    requested kind in table order when it constructs and in reverse table
    order when it destructs -- the elements of one connector array in
    ascending order both ways -- and stops at the first initialiser that
    does not report success; a loader with no such connector succeeds. *)
Theorem init_all_conns_order ld type brick a param w :
  loader_ok ld ->
  init_all_conns ld type brick a param w =
  Ok (run_inits
        (visits type brick (if constr a then ld_conn ld else reverse (ld_conn ld)))
        (a <| success := true |>) param w).
Proof.
  intros [Hcount _]. unfold init_all_conns.
  change (constr (a <| success := true |>)) with (constr a).
  rewrite Hcount, Nat2Z.id. destruct (constr a).
  - by apply conn_loop_visits; [apply walk_forward|].
  - by apply conn_loop_visits; [apply walk_backward|].
Qed.

(** Sub-brick initialisation visits the instances in table order whether it
    constructs or destructs, and stops at the first failure. *)
Theorem init_all_instances_order ld brick a param w :
  loader_ok ld ->
  init_all_instances ld brick a param w =
  Ok (run_inits (instance_visits brick (instances ld)) a param w).
Proof.
  intros [_ Hcount]. unfold init_all_instances. rewrite Hcount, Nat2Z.id.
  clear Hcount. revert a w. induction (instances ld) as [|li l IH]; intros a w; simpl; [done|].
  destruct (li_init_brick li _ _ param w) as [a1 w1].
  destruct (success a1); simpl; [apply IH|done].
Qed.

(** [init_one_instance] runs exactly the first sub-brick whose offset is
    that of the given address, with the arguments unchanged, and leaves
    arguments and world alone when there is none. *)
Theorem init_one_instance_spec ld brick subbrick a param w :
  loader_ok ld ->
  init_one_instance ld brick subbrick a param w =
  Ok match list_find (fun li => li_offset li = subbrick - brick) (instances ld) with
     | Some (_, li) => li_init_brick li (brick + li_offset li) a param w
     | None => (a, w)
     end.
Proof.
  intros [_ Hcount]. unfold init_one_instance. rewrite Hcount, Nat2Z.id. clear Hcount.
  induction (instances ld) as [|li l IH]; simpl; [done|].
  destruct (Z.eqb_spec (li_offset li) (subbrick - brick)) as [Heq|Hne].
  - by rewrite decide_True.
  - rewrite decide_False by done. rewrite IH.
    by destruct (list_find _ l) as [[k li']|].
Qed.
End init.

(** ** A concrete loader

    Two inputs (the first an array of two) and an output; the initialisers
    append the address they were given to the world. *)

Definition log_init (addr : Z) : operation (list Z) := fun a param w =>
  (a <| success := true |>, World (console w) (brick w ++ [addr])).

Definition sample_loader : loader (list Z) :=
  let conn ty cnt off :=
    {| lc_type := ty; lc_autoinit := true; lc_count := cnt; lc_offset := off;
       lc_size := 24; lc_init_conn := log_init |} in
  {| conn_count := 3;
     ld_conn := [conn false 2 0; conn false 1 48; conn true 1 72];
     inst_count := 1;
     instances := [ {| li_offset := 100; li_init_brick := log_init |} ] |}.

Lemma sample_loader_ok : loader_ok sample_loader.
Proof. done. Qed.

Lemma init_all_conns_order_witness :
  (exists a, init_all_conns sample_loader (-1) 1000 zero_args [] (World [] [])
             = Ok (a, World [] [1072; 1048; 1000; 1024])) /\
  init_all_conns sample_loader 0 1000 (zero_args <| constr := true |>) [] (World [] []) =
  Ok (run_inits (visits 0 1000 (ld_conn sample_loader))
        (zero_args <| constr := true |> <| success := true |>) [] (World [] [])).
Proof.
  split.
  - eexists. rewrite (init_all_conns_order sample_loader) by apply sample_loader_ok.
    vm_compute. reflexivity.
  - exact (init_all_conns_order sample_loader 0 1000 (zero_args <| constr := true |>)
             [] (World [] []) sample_loader_ok).
Defined.

Lemma init_all_instances_order_witness :
  init_all_instances sample_loader 1000 zero_args [] (World [] []) =
  Ok (zero_args <| success := true |>, World [] [1100]).
Proof.
  rewrite (init_all_instances_order sample_loader) by apply sample_loader_ok.
  reflexivity.
Defined.

Lemma init_one_instance_spec_witness :
  init_one_instance sample_loader 1000 1100 zero_args [] (World [] []) =
  Ok (zero_args <| success := true |>, World [] [1100]).
Proof.
  rewrite (init_one_instance_spec sample_loader) by apply sample_loader_ok.
  reflexivity.
Defined.
