(* ===== verification/PointerCache.v ===== *)
(** * The pointer cache: [lib.c] and the [PC_] macros of [common.ath]

    A direct-mapped cache from logical addresses of a nest to pointers into
    memory.  A cache line holds a reservation of the nest: it is taken with
    [gettranswait] when the line is filled and given back with [put] when the
    line is replaced, flushed or freed.  The two low bits of a line's address
    are its flags, dirty and present. *)

From stdpp Require Import gmultiset.
From S2P Require Import Prelude.
From S2P Require Import Common.
Open Scope Z_scope.

(** [PC_name_ALIGN], [PC_name_WHOLE] and [PC_name_MAX] *)
Record pc_conf := { ALIGN : Z; WHOLE : Z; MAX : Z }.

(** [addr & ~(addr_t)(PC__DIRTY | PC__PRESENT)] and its one-flag variant *)
Definition strip_flags (addr : Z) : Z := land_not 64 addr (Z.lor PC__DIRTY PC__PRESENT).
Definition strip_dirty (addr : Z) : Z := land_not 64 addr PC__DIRTY.

Definition has_flag (addr flag : Z) : bool := negb (Z.land addr flag =? 0).
Definition is_present (e : pc_elem) : bool := has_flag (pc_addr e) PC__PRESENT.

(** [dirty & PC__DIRTY] *)
Definition dirty_bit (dirty : bool) : Z := if dirty then 1 else 0.

Section cache.
Context {W : Type} (ops : optable W).
Implicit Types (p : pc) (w : world W) (e : pc_elem).

Abbreviation state := (pc * world W)%type.

(** ** Lines *)

(** [&pc->pc_elem\[i\]] *)
Definition get_elem p (i : nat) : cres pc_elem :=
  match pc_elems p !! i with
  | Some e => Ok e
  | None => Fault OutOfBounds
  end.

Definition set_elem p (i : nat) e : pc := p <| pc_elems := <[i := e]> (pc_elems p) |>.

(** ** lib.c *)

Definition put_args p e : args :=
  zero_args <| log_addr := strip_flags (pc_addr e) |>
            <| log_len := pc_len e |>
            <| phys_addr := pc_ptr e |>
            <| prio := if has_flag (pc_addr e) PC__DIRTY then prio_background else prio_none |>
            <| op_code := opcode_put |>
            <| sect_code := pc_sect p |>.

Definition _PC_PUT (i : nat) (s : state) : cres state :=
  let '(p, w) := s in
  e ← get_elem p i;
  let '(_, w) := ops (pc_sect p) opcode_put (put_args p e) [0] w in
  Ok (set_elem p i zero_elem, w).

(** [if(elem->pc_addr & PC__PRESENT) _PC_PUT(pc, elem);] *)
Definition put_if_present (i : nat) (s : state) : cres state :=
  e ← get_elem s.1 i;
  if is_present e then _PC_PUT i s else Ok s.

Definition get_args p (addr len : Z) : args :=
  zero_args <| log_addr := strip_flags addr |>
            <| log_len := len |>
            <| forwrite := true |>
            <| prio := prio_normal |>
            <| op_code := opcode_gettranswait |>
            <| sect_code := pc_sect p |>.

Definition _PC_GET (i : nat) (addr len : Z) (s : state) : cres state :=
  s ← put_if_present i s;
  let '(p, w) := s in
  let '(a, w) := ops (pc_sect p) opcode_gettranswait (get_args p addr len) [0] w in
  if negb (success a) || (phys_len a <? len) then Ok (p, w)
  else Ok (set_elem p i {| pc_addr := Z.lor addr PC__PRESENT; pc_len := len;
                           pc_ptr := phys_addr a |}, w).

Fixpoint all_put_loop (i : nat) (n : nat) (s : state) : cres state :=
  match n with
  | O => Ok s
  | S n' => s ← put_if_present i s; all_put_loop (S i) n' s
  end.

Definition _PC_ALL_PUT (max : Z) (s : state) : cres state :=
  all_put_loop 0 (Z.to_nat max) s.

Definition alloc_args p (base_len : Z) : args :=
  zero_args <| log_len := base_len |> <| try_len := base_len |>
            <| exclu := true |> <| melt := true |> <| action := action_wait |>
            <| op_code := opcode_gadrcreateget |> <| sect_code := pc_sect p |>.

(** [None] is the NULL element. *)
Definition _PC_ALLOC (len align whole max : Z) (s : state) : cres (option nat * state) :=
  let '(p, w) := s in
  let base_len := PC__BASE_LEN 0 len whole in
  let '(a, w) := ops (pc_sect p) opcode_gadrcreateget (alloc_args p base_len) [0] w in
  if negb (success a) || (log_len a <? base_len) then Ok (None, (p, w)) else
  let i := Z.to_nat (PC__HASH (log_addr a) align max) in
  s ← put_if_present i (p, w);
  let '(p, w) := s in
  let e := {| pc_addr := Z.lor (Z.lor (PC__BASE_ADDR (log_addr a) whole) PC__PRESENT) PC__DIRTY;
              pc_len := log_len a; pc_ptr := phys_addr a |} in
  Ok (Some i, ((set_elem p i e) <| pc_write := true |>, w)).

Definition free_args p (addr len : Z) : args :=
  zero_args <| log_addr := addr |> <| log_len := len |> <| try_len := len |>
            <| exclu := true |> <| melt := true |> <| action := action_wait |>
            <| op_code := opcode_putdeletepadr |> <| sect_code := pc_sect p |>.

Definition _PC_FREE (i : nat) (addr len : Z) (s : state) : cres state :=
  e ← get_elem s.1 i;
  s ← (if is_present e && (strip_flags (pc_addr e) =? addr) then _PC_PUT i s else Ok s);
  let '(p, w) := s in
  let '(_, w) := ops (pc_sect p) opcode_putdeletepadr (free_args p addr len) [0] w in
  Ok (p, w).

(** ** common.ath *)

Definition _PC_HASH (c : pc_conf) (addr : Z) : nat :=
  Z.to_nat (PC__HASH addr (ALIGN c) (MAX c)).

(** Returns the index of the line. *)
Definition __PC_GET (c : pc_conf) (addr len : Z) (dirty : bool) (s : state)
    : cres (nat * state) :=
  let i := _PC_HASH c addr in
  e ← get_elem s.1 i;
  let base_addr := PC__BASE_ADDR addr (WHOLE c) in
  let base_offset := PC__BASE_OFFSET addr (WHOLE c) in
  s ← (if negb (strip_dirty (pc_addr e) =? base_addr)
       then _PC_GET i base_addr (PC__BASE_LEN base_offset len (WHOLE c)) s
       else Ok s);
  let '(p, w) := s in
  e ← get_elem p i;
  let p := p <| pc_write := pc_write p || dirty |> in
  Ok (i, (set_elem p i (e <| pc_addr := Z.lor (pc_addr e) (dirty_bit dirty) |>), w)).

(** The pointer the macro evaluates to. *)
Definition PC_GET_gen (dirty : bool) (c : pc_conf) (addr len : Z) (s : state)
    : cres (Z * state) :=
  r ← __PC_GET c addr len dirty s;
  let '(i, s) := r in
  e ← get_elem s.1 i;
  Ok (pc_ptr e + PC__BASE_OFFSET addr (WHOLE c), s).

Definition PC_GET := PC_GET_gen false.
Definition PC_GET_DIRTY := PC_GET_gen true.

Definition PC_SET (c : pc_conf) (addr len ptr : Z) (dirty : bool) (s : state) : cres state :=
  let i := _PC_HASH c addr in
  s ← put_if_present i s;
  let '(p, w) := s in
  let base_offset := PC__BASE_OFFSET addr (WHOLE c) in
  let e := {| pc_addr := Z.lor (PC__BASE_ADDR addr (WHOLE c)) (dirty_bit dirty);
              pc_len := PC__BASE_LEN base_offset len (WHOLE c);
              pc_ptr := land_not 64 ptr (WHOLE c - 1) |} in
  Ok ((set_elem p i e) <| pc_write := pc_write p || dirty |>, w).

Definition PC_UNSET (c : pc_conf) (addr : Z) (s : state) : cres state :=
  put_if_present (_PC_HASH c addr) s.

Definition PC_DIRTY (c : pc_conf) (addr : Z) (s : state) : cres state :=
  let i := _PC_HASH c addr in
  let '(p, w) := s in
  e ← get_elem p i;
  if strip_dirty (pc_addr e) =? PC__BASE_ADDR addr (WHOLE c)
  then Ok ((set_elem p i (e <| pc_addr := Z.lor (pc_addr e) PC__DIRTY |>))
             <| pc_write := true |>, w)
  else Ok s.

Definition PC_FLUSH (c : pc_conf) (s : state) : cres state :=
  if pc_version s.1 =? 0 then Ok s else
  s ← _PC_ALL_PUT (MAX c) s;
  let '(p, w) := s in
  Ok (p <| pc_version := wrap 64 (pc_version p + 1) |> <| pc_write := false |>, w).

Definition PC_ALLOC (c : pc_conf) (len : Z) (s : state) : cres (Z * Z * state) :=
  r ← _PC_ALLOC len (ALIGN c) (WHOLE c) (MAX c) s;
  let '(oi, s) := r in
  match oi with
  | None => Fault OutOfBounds   (* elem->pc_addr with elem == NULL *)
  | Some i =>
    e ← get_elem s.1 i;
    Ok (strip_flags (pc_addr e), pc_ptr e, s)
  end.

Definition PC_FREE (c : pc_conf) (addr len : Z) (s : state) : cres state :=
  _PC_FREE (_PC_HASH c addr) addr len s.
End cache.

(** ** Flag arithmetic *)

Lemma lor_flag (b r : Z) : b mod 4 = 0 -> 0 <= r < 4 -> Z.lor b r = b + r.
Proof. intros. by apply (lor_low_add b r 2). Qed.

Lemma flags_of (b r m : Z) :
  b mod 4 = 0 -> 0 <= r < 4 -> 0 <= m < 4 -> Z.land (b + r) m = Z.land r m.
Proof.
  intros Hb Hr Hm. rewrite <- lor_flag by done. rewrite Z.land_lor_distr_l.
  by rewrite (land_low_disjoint b m 2) by done.
Qed.

Lemma get_elem_Some p i e : pc_elems p !! i = Some e -> get_elem p i = Ok e.
Proof. unfold get_elem. by intros ->. Qed.

Lemma strip_flags_of (b r : Z) :
  0 <= b < 2 ^ 64 -> b mod 4 = 0 -> 0 <= r < 4 -> strip_flags (b + r) = b.
Proof.
  intros Hb Hmod Hr. unfold strip_flags, land_not.
  change (Z.lxor (2 ^ 64 - 1) (Z.lor PC__DIRTY PC__PRESENT)) with (2 ^ 64 - 2 ^ 2).
  rewrite <- lor_flag, Z.land_lor_distr_l by done.
  rewrite !land_high_mask by lia. change (2 ^ 2) with 4.
  rewrite Hmod, (Z.mod_small r) by lia. rewrite Z.sub_diag, Z.lor_0_r. lia.
Qed.

Lemma strip_dirty_of (b f d : Z) :
  0 <= b < 2 ^ 64 -> b mod 4 = 0 -> f = 0 \/ f = 2 -> 0 <= d <= 1 ->
  strip_dirty (b + f + d) = b + f.
Proof.
  intros Hb Hmod Hf Hd. unfold strip_dirty, land_not.
  change (Z.lxor (2 ^ 64 - 1) PC__DIRTY) with (2 ^ 64 - 2 ^ 1).
  pose proof (Z.div_mod b 4 ltac:(lia)).
  rewrite land_high_mask by (destruct Hf; lia). change (2 ^ 1) with 2.
  enough ((b + f + d) mod 2 = d) by lia.
  replace (b + f + d) with (d + (2 * (b / 4) + f / 2) * 2)
    by (destruct Hf; subst f; [change (0/2) with 0 | change (2/2) with 1]; lia).
  rewrite Z.mod_add by lia. apply Z.mod_small. lia.
Qed.

Lemma add_flag (b f d : Z) :
  b mod 4 = 0 -> 0 <= f < 4 -> 0 <= d < 4 -> 0 <= Z.lor f d < 4 ->
  Z.lor (b + f) d = b + Z.lor f d.
Proof.
  intros. rewrite <- (lor_flag b f), <- (lor_flag b (Z.lor f d)) by done.
  by rewrite Z.lor_assoc.
Qed.

Lemma dirty_bit_range d : 0 <= dirty_bit d <= 1.
Proof. destruct d; simpl; lia. Qed.

(** ** What a line holds *)

(** The power-of-two geometry the macros are used with: flags fit below a
    whole, and a whole never straddles two hash slots. *)
Definition conf_ok (c : pc_conf) : Prop :=
  0 < WHOLE c /\ (4 | WHOLE c) /\ (WHOLE c | ALIGN c) /\ 0 < ALIGN c /\ 0 < MAX c.

(** Never filled, given back, or marked dirty after a failed fill. *)
Definition vacant (e : pc_elem) : Prop :=
  (pc_addr e = 0 \/ pc_addr e = 1) /\ pc_ptr e = 0.

(** Line [i] holds the whole at base address [b]. *)
Definition holds (c : pc_conf) (i : nat) (e : pc_elem) (b : Z) : Prop :=
  (pc_addr e = b + 2 \/ pc_addr e = b + 3) /\
  0 <= b < 2 ^ 64 /\ (WHOLE c | b) /\ _PC_HASH c b = i.

Definition line_ok (c : pc_conf) (i : nat) (e : pc_elem) : Prop := vacant e \/ exists b, holds c i e b.

(** The reservation of a line, and those of the whole cache. *)
Definition line_res (e : pc_elem) : gmultiset (Z * Z) :=
  if is_present e then {[+ (strip_flags (pc_addr e), pc_len e) +]} else ∅.
Definition reserved (l : list pc_elem) : gmultiset (Z * Z) := ⋃+ (line_res <$> l).

Lemma conf_mod4 c b : conf_ok c -> (WHOLE c | b) -> b mod 4 = 0.
Proof.
  intros (? & H4 & _) Hb. apply Z.mod_divide; [lia|].
  by apply Z.divide_trans with (WHOLE c).
Qed.

Lemma zero_elem_vacant : vacant zero_elem.
Proof. split; [by left|done]. Qed.

Lemma vacant_not_present e : vacant e -> is_present e = false.
Proof. unfold is_present, has_flag. by intros [[-> | ->] _]. Qed.

Lemma holds_present c i e b : conf_ok c -> holds c i e b -> is_present e = true.
Proof.
  intros Hc ([Ha|Ha] & ? & ? & ?); unfold is_present, has_flag; rewrite Ha;
    rewrite flags_of by (try lia; eauto using conf_mod4 || done); done.
Qed.

Lemma holds_strip c i e b : conf_ok c -> holds c i e b -> strip_flags (pc_addr e) = b.
Proof.
  intros Hc ([Ha|Ha] & ? & ? & ?); rewrite Ha; apply strip_flags_of;
    eauto using conf_mod4; lia.
Qed.

Lemma line_res_vacant e : vacant e -> line_res e = ∅.
Proof. intros He. unfold line_res. by rewrite vacant_not_present. Qed.

Lemma line_res_holds c i e b :
  conf_ok c -> holds c i e b -> line_res e = {[+ (b, pc_len e) +]}.
Proof.
  intros Hc He. unfold line_res.
  rewrite (holds_present c i e b) by done. by rewrite (holds_strip c i e b).
Qed.

Lemma line_ok_not_present c i e : conf_ok c -> line_ok c i e -> is_present e = false -> vacant e.
Proof.
  intros Hc [?|[b Hb]] Hp; [done|]. by rewrite (holds_present c i e b) in Hp.
Qed.

Lemma reserved_insert l i e e' :
  l !! i = Some e ->
  reserved (<[i := e']> l) ⊎ line_res e = reserved l ⊎ line_res e'.
Proof.
  revert i. induction l as [|x l IH]; intros [|i] Hi; simplify_eq/=.
  - change (line_res e' ⊎ reserved l ⊎ line_res e = line_res e ⊎ reserved l ⊎ line_res e').
    generalize (line_res e) (line_res e') (reserved l). clear. intros A B C. multiset_solver.
  - change (line_res x ⊎ reserved (<[i:=e']> l) ⊎ line_res e
            = line_res x ⊎ reserved l ⊎ line_res e').
    by rewrite <- !assoc_L, IH by (done || apply _).
Qed.

Lemma base_addr_divide c addr : conf_ok c -> (WHOLE c | PC__BASE_ADDR2 addr (WHOLE c)).
Proof. intros. by apply Z.divide_factor_r. Qed.

Lemma base_addr_range c addr :
  conf_ok c -> 0 <= addr < 2 ^ 64 -> 0 <= PC__BASE_ADDR2 addr (WHOLE c) <= addr.
Proof.
  intros (? & _) ?. unfold PC__BASE_ADDR2.
  pose proof (Z.div_mod addr (WHOLE c) ltac:(lia)).
  pose proof (Z.mod_pos_bound addr (WHOLE c) ltac:(lia)).
  pose proof (Z.div_pos addr (WHOLE c)). nia.
Qed.

Lemma base_addr_flag c addr :
  conf_ok c -> PC__BASE_ADDR addr (WHOLE c) = PC__BASE_ADDR2 addr (WHOLE c) + 2.
Proof.
  intros Hc. unfold PC__BASE_ADDR. apply lor_flag; [|done].
  eapply conf_mod4; eauto using base_addr_divide.
Qed.

(** A whole is cached in the line its members hash to. *)
Lemma hash_base c addr :
  conf_ok c -> 0 <= addr -> _PC_HASH c (PC__BASE_ADDR2 addr (WHOLE c)) = _PC_HASH c addr.
Proof.
  intros (HW & _ & [k Hk] & HA & _) Ha. unfold _PC_HASH, PC__HASH, PC__BASE_ADDR2.
  do 2 f_equal. rewrite Hk in *.
  assert (0 < k) by nia.
  rewrite (Z.mul_comm k), <- !Z.div_div by lia. by rewrite Z.div_mul by lia.
Qed.

Lemma hash_bound c addr : conf_ok c -> (_PC_HASH c addr < Z.to_nat (MAX c))%nat.
Proof.
  intros (_ & _ & _ & _ & HM). unfold _PC_HASH, PC__HASH.
  pose proof (Z.mod_pos_bound (addr / ALIGN c) (MAX c) HM). lia.
Qed.

(** ** The nest behind the cache

    What the cache relies on: a [get] that succeeds reserves the requested
    region in full, one that fails reserves nothing, a [put] gives the region
    back, and so does deleting it.  Creating a region reserves the region
    created, at least as long as asked for and at an address of the nest that
    is a multiple of [unit], or reserves nothing when it fails. *)
Class BufferNest {W} (ops : optable W) (held : W -> gmultiset (Z * Z)) (unit : Z) : Prop := {
  nest_put sect a param w :
    held (brick (ops sect opcode_put a param w).2)
      = held (brick w) ∖ {[+ (log_addr a, log_len a) +]};
  nest_get sect a param w :
    held (brick (ops sect opcode_gettranswait a param w).2)
      = if success (ops sect opcode_gettranswait a param w).1
        then held (brick w) ⊎ {[+ (log_addr a, log_len a) +]} else held (brick w);
  nest_get_full sect a param w :
    success (ops sect opcode_gettranswait a param w).1 = true ->
    log_len a <= phys_len (ops sect opcode_gettranswait a param w).1;
  nest_free sect a param w :
    held (brick (ops sect opcode_putdeletepadr a param w).2)
      = held (brick w) ∖ {[+ (log_addr a, log_len a) +]};
  nest_create sect a param w :
    held (brick (ops sect opcode_gadrcreateget a param w).2)
      = if success (ops sect opcode_gadrcreateget a param w).1
        then held (brick w) ⊎
          {[+ (log_addr (ops sect opcode_gadrcreateget a param w).1,
               log_len (ops sect opcode_gadrcreateget a param w).1) +]}
        else held (brick w);
  nest_create_full sect a param w :
    success (ops sect opcode_gadrcreateget a param w).1 = true ->
    log_len a <= log_len (ops sect opcode_gadrcreateget a param w).1 /\
    0 <= log_addr (ops sect opcode_gadrcreateget a param w).1 < 2 ^ 64 /\
    (unit | log_addr (ops sect opcode_gadrcreateget a param w).1)
}.

Section invariant.
Context {W : Type} (ops : optable W) (held : W -> gmultiset (Z * Z)).
Context (c : pc_conf) `{!BufferNest ops held (WHOLE c)} (Hc : conf_ok c).
Implicit Types (p : pc) (w : world W) (s : pc * world W).

(** The reservations taken from the nest are those of the environment and one
    for each line that is present. *)
Record cache_ok (base : gmultiset (Z * Z)) s : Prop := {
  co_len : length (pc_elems s.1) = Z.to_nat (MAX c);
  co_lines : forall i e, pc_elems s.1 !! i = Some e -> line_ok c i e;
  co_held : held (brick s.2) = base ⊎ reserved (pc_elems s.1)
}.

Lemma cache_elem base s i :
  cache_ok base s -> (i < Z.to_nat (MAX c))%nat ->
  exists e, pc_elems s.1 !! i = Some e /\ line_ok c i e.
Proof.
  intros Hs Hi. rewrite <- (co_len _ _ Hs) in Hi.
  apply lookup_lt_is_Some in Hi as [e He]. exists e. split; [done|].
  by apply (co_lines _ _ Hs).
Qed.

(** Replacing a line keeps the books when the nest's change is the line's. *)
Lemma replace_line base p w w' i e e' :
  cache_ok base (p, w) -> pc_elems p !! i = Some e -> line_ok c i e' ->
  held (brick w') ⊎ line_res e = held (brick w) ⊎ line_res e' ->
  cache_ok base (set_elem p i e', w').
Proof.
  intros [Hlen Hlines Hheld] He He' Hw. split; simpl in *.
  - by rewrite length_insert.
  - intros j ej Hj. destruct (decide (i = j)) as [<-|Hne].
    + rewrite list_lookup_insert_eq in Hj by (by eapply lookup_lt_Some). congruence.
    + rewrite list_lookup_insert_ne in Hj by done. eauto.
  - pose proof (reserved_insert _ _ _ e' He) as Hr. rewrite Hheld in Hw.
    apply (inj (.⊎ line_res e)). rewrite Hw, <- !assoc_L, Hr by apply _. done.
Qed.

Lemma put_if_present_ok base s i :
  cache_ok base s -> (i < Z.to_nat (MAX c))%nat ->
  exists s', put_if_present ops i s = Ok s' /\ cache_ok base s' /\
    (exists e, pc_elems s'.1 !! i = Some e /\ vacant e) /\
    (forall j, j <> i -> pc_elems s'.1 !! j = pc_elems s.1 !! j).
Proof.
  intros Hs Hi. destruct (cache_elem _ _ _ Hs Hi) as (e & He & Hok).
  destruct s as [p w]. unfold put_if_present, get_elem. simpl in *. rewrite He. simpl.
  destruct (is_present e) eqn:Hp.
  - destruct Hok as [?|[b Hb]]; [by rewrite vacant_not_present in Hp|].
    unfold get_elem. rewrite He. simpl.
    pose proof (nest_put (pc_sect p) (put_args p e) [0] w) as Hput.
    destruct (ops (pc_sect p) opcode_put _ _ _) as [a1 w1]. simpl in Hput.
    eexists. split; [done|].
    pose proof zero_elem_vacant as Hz.
    split; [|split; [exists zero_elem; split; [|done] |]]; simpl.
    + apply (replace_line base p w w1 i e); [done|done|left; apply zero_elem_vacant|].
      rewrite (line_res_vacant zero_elem), (line_res_holds c i e b) by done.
      change (log_addr (put_args p e)) with (strip_flags (pc_addr e)) in Hput.
      rewrite (holds_strip c i e b) in Hput by done. simpl in Hput. rewrite Hput.
      pose proof (reserved_insert _ _ _ zero_elem He) as Hr.
      rewrite (line_res_holds c i e b), (line_res_vacant zero_elem) in Hr by done.
      pose proof (co_held _ _ Hs) as Hh. simpl in Hh. rewrite Hh.
      revert Hr. generalize (reserved (<[i:=zero_elem]> (pc_elems p))) (reserved (pc_elems p)).
      intros R' R Hr. rewrite (right_id_L ∅ (⊎)) in Hr.
      rewrite <- Hr, (right_id_L ∅ (⊎)). multiset_solver.
    + apply list_lookup_insert_eq. by eapply lookup_lt_Some.
    + intros j Hj. by apply list_lookup_insert_ne.
  - exists (p, w). split; [done|]. split; [done|]. split; [|done].
    exists e. split; [done|]. by eapply line_ok_not_present.
Qed.

Lemma filled_line_ok b l ptr i :
  0 <= b < 2 ^ 64 -> (WHOLE c | b) -> _PC_HASH c b = i ->
  holds c i {| pc_addr := Z.lor (b + 2) PC__PRESENT; pc_len := l; pc_ptr := ptr |} b.
Proof.
  intros Hb Hd Hh. split; [left|done]. simpl.
  rewrite <- (lor_flag b 2), <- Z.lor_assoc by (eauto using conf_mod4; lia). done.
Qed.

Lemma _PC_GET_ok base s i b len :
  cache_ok base s -> 0 <= b < 2 ^ 64 -> (WHOLE c | b) -> _PC_HASH c b = i ->
  exists s', _PC_GET ops i (b + 2) len s = Ok s' /\ cache_ok base s' /\
    (exists e, pc_elems s'.1 !! i = Some e /\ (vacant e \/ holds c i e b /\ pc_len e = len)).
Proof.
  intros Hs Hb Hd Hh. assert (i < Z.to_nat (MAX c))%nat as Hi.
  { rewrite <- Hh. by apply hash_bound. }
  destruct (put_if_present_ok base s i Hs Hi) as ([p w] & Hput & Hs1 & (e & He & Hv) & _).
  unfold _PC_GET. rewrite Hput. simpl in *.
  pose proof (nest_get (pc_sect p) (get_args p (b + 2) len) [0] w) as Hget.
  pose proof (nest_get_full (pc_sect p) (get_args p (b + 2) len) [0] w) as Hfull.
  destruct (ops (pc_sect p) opcode_gettranswait _ _ _) as [a1 w1]. simpl in *.
  change (log_addr (get_args p (b + 2) len)) with (strip_flags (b + 2)) in Hget.
  rewrite strip_flags_of in Hget by (eauto using conf_mod4; lia).
  change (log_len (get_args p (b + 2) len)) with len in *.
  destruct (success a1); simpl.
  - rewrite (proj2 (Z.ltb_ge _ _)) by (specialize (Hfull eq_refl); lia). simpl.
    eexists. split; [done|]. set (e' := {| pc_addr := _ |}).
    assert (holds c i e' b) as He' by by apply filled_line_ok.
    split; [|exists e'; split; [|by right] ].
    + apply (replace_line base p w w1 i e); [done|done|by right; exists b|].
      rewrite (line_res_vacant e), (line_res_holds c i e' b), Hget by done. simpl.
      multiset_solver.
    + apply list_lookup_insert_eq. by eapply lookup_lt_Some.
  - exists (p, w1). split; [done|]. split; [|by eauto].
    destruct Hs1 as [H1 H2 H3]. split; [done|done|]. simpl in *. by rewrite Hget.
Qed.

(** The comparison at the start of every access recognises the cached whole. *)
Lemma strip_dirty_hit i e b :
  line_ok c i e -> 0 <= b < 2 ^ 64 -> (WHOLE c | b) ->
  strip_dirty (pc_addr e) = b + 2 <-> holds c i e b.
Proof.
  intros Hok Hb Hd. pose proof (conf_mod4 _ _ Hc Hd) as Hm. split.
  - destruct Hok as [[[Ha|Ha] _]|[b' Hb']].
    + rewrite Ha. change (strip_dirty 0) with 0. lia.
    + rewrite Ha. change (strip_dirty 1) with 0. lia.
    + pose proof Hb' as ([Ha|Ha] & Hr' & Hd' & Hh');
        pose proof (conf_mod4 _ _ Hc Hd') as Hm'; rewrite Ha.
      * replace (b' + 2) with (b' + 2 + 0) by lia. rewrite strip_dirty_of by (done || lia).
        intros ?. by replace b with b' by lia.
      * replace (b' + 3) with (b' + 2 + 1) by lia. rewrite strip_dirty_of by (done || lia).
        intros ?. by replace b with b' by lia.
  - intros ([Ha|Ha] & _); rewrite Ha.
    + replace (b + 2) with (b + 2 + 0) at 1 by lia. by rewrite strip_dirty_of by (done || lia).
    + replace (b + 3) with (b + 2 + 1) by lia. by rewrite strip_dirty_of by (done || lia).
Qed.

Lemma mark_dirty_ok i e d :
  line_ok c i e -> line_ok c i (e <| pc_addr := Z.lor (pc_addr e) (dirty_bit d) |>) /\
  line_res (e <| pc_addr := Z.lor (pc_addr e) (dirty_bit d) |>) = line_res e.
Proof.
  intros [Hv|[b Hb]].
  - assert (vacant (e <| pc_addr := Z.lor (pc_addr e) (dirty_bit d) |>)) as Hv'.
    { destruct Hv as [[Ha|Ha] Hp]; split; simpl; try done; rewrite Ha;
        destruct d; [by right|by left|by right|by right]. }
    split; [by left|]. by rewrite !line_res_vacant.
  - assert (holds c i (e <| pc_addr := Z.lor (pc_addr e) (dirty_bit d) |>) b) as Hb'.
    { destruct Hb as (Ha & Hr & Hd & Hh). split; [|done]. simpl.
      pose proof (conf_mod4 _ _ Hc Hd). destruct Ha as [Ha|Ha]; rewrite Ha.
      - rewrite add_flag by (done || by destruct d). destruct d; [by right|by left].
      - rewrite add_flag by (done || by destruct d). destruct d; by right. }
    split; [right; by exists b|].
    by rewrite (line_res_holds c i e b), (line_res_holds c i _ b).
Qed.

Lemma mark_dirty_state base p w i e d wr :
  cache_ok base (p, w) -> pc_elems p !! i = Some e ->
  cache_ok base (set_elem (p <| pc_write := wr |>) i
    (e <| pc_addr := Z.lor (pc_addr e) (dirty_bit d) |>), w).
Proof.
  intros Hs He. destruct (mark_dirty_ok i e d) as [Hok Hres]; [by apply (co_lines _ _ Hs)|].
  apply (replace_line base (p <| pc_write := wr |>) w w i e); [|done|done|by rewrite Hres].
  destruct Hs. by split.
Qed.

Lemma PC_GET_gen_ok base s addr len d :
  cache_ok base s -> 0 <= addr < 2 ^ 64 ->
  exists ptr s' e, PC_GET_gen ops d c addr len s = Ok (ptr, s') /\ cache_ok base s' /\
    pc_elems s'.1 !! _PC_HASH c addr = Some e /\
    ptr = pc_ptr e + PC__BASE_OFFSET addr (WHOLE c) /\
    (vacant e \/ holds c (_PC_HASH c addr) e (PC__BASE_ADDR2 addr (WHOLE c))).
Proof.
  intros Hs Ha. set (i := _PC_HASH c addr). set (b := PC__BASE_ADDR2 addr (WHOLE c)).
  pose proof (base_addr_divide c addr Hc) as Hd.
  pose proof (base_addr_range c addr Hc Ha) as Hb. fold b in Hd, Hb.
  assert (_PC_HASH c b = i) as Hh by (apply hash_base; [done|lia]).
  destruct (cache_elem base s i Hs) as (e & He & Hok); [by apply hash_bound|].
  unfold PC_GET_gen, __PC_GET. cbv zeta. fold i. rewrite (get_elem_Some s.1 i e) by done. simpl.
  rewrite base_addr_flag by done. fold b.
  assert (exists s1 e1,
    (if negb (strip_dirty (pc_addr e) =? b + 2)
     then _PC_GET ops i (b + 2) (PC__BASE_LEN (PC__BASE_OFFSET addr (WHOLE c)) len (WHOLE c)) s
     else Ok s) = Ok s1 /\ cache_ok base s1 /\ pc_elems s1.1 !! i = Some e1 /\
    (vacant e1 \/ holds c i e1 b)) as (s1 & e1 & -> & Hs1 & He1 & Hcase).
  { destruct (Z.eqb_spec (strip_dirty (pc_addr e)) (b + 2)) as [Heq|Hne]; simpl.
    - exists s, e. do 3 (split; [done|]). right. apply strip_dirty_hit; [done|lia|done|done].
    - destruct (_PC_GET_ok base s i b
        (PC__BASE_LEN (PC__BASE_OFFSET addr (WHOLE c)) len (WHOLE c)))
        as (s1 & -> & Hs1 & e1 & He1 & Hcase); [done|lia|done|done|].
      exists s1, e1. do 3 (split; [done|]). destruct Hcase as [?|[? _]]; auto. }
  destruct s1 as [p w]. simpl in *. rewrite (get_elem_Some p i e1) by done. simpl.
  erewrite get_elem_Some by (apply list_lookup_insert_eq; by eapply lookup_lt_Some). simpl.
  do 3 eexists. split; [done|]. split; [by apply mark_dirty_state|].
  split; [apply list_lookup_insert_eq; by eapply lookup_lt_Some|]. split; [done|].
  destruct (mark_dirty_ok i e1 d) as [Hm Hres]; [by apply (co_lines _ _ Hs1)|].
  destruct Hcase as [Hv|Hb1].
  - left. eapply line_ok_not_present; [done|exact Hm|].
    destruct (is_present _) eqn:Hp; [|done]. exfalso.
    unfold line_res in Hres. rewrite Hp, vacant_not_present in Hres by done. multiset_solver.
  - right. destruct Hm as [Hv|[b' Hb']].
    + rewrite (line_res_vacant _ Hv), (line_res_holds c i e1 b) in Hres by done.
      exfalso. multiset_solver.
    + rewrite (line_res_holds c i _ b'), (line_res_holds c i e1 b) in Hres by done.
      simpl in Hres. assert ((b', pc_len e1) ∈@{gmultiset _} {[+ (b, pc_len e1) +]}) as Hin
        by (rewrite <- Hres; set_solver).
      apply gmultiset_elem_of_singleton in Hin. by simplify_eq.
Qed.

Lemma all_put_ok base s i n :
  cache_ok base s -> (i + n <= Z.to_nat (MAX c))%nat ->
  exists s', all_put_loop ops i n s = Ok s' /\ cache_ok base s' /\
    (forall j e, pc_elems s'.1 !! j = Some e -> (i <= j < i + n)%nat -> vacant e) /\
    (forall j, (j < i)%nat -> pc_elems s'.1 !! j = pc_elems s.1 !! j).
Proof.
  revert i s. induction n as [|n IH]; intros i s Hs Hin; simpl.
  { exists s. do 2 (split; [done|]). split; [lia|done]. }
  destruct (put_if_present_ok base s i) as (s1 & -> & Hs1 & (e & He & Hv) & Hrest);
    [done|lia|]. simpl.
  destruct (IH (S i) s1) as (s2 & -> & Hs2 & Hvac & Hlow); [done|lia|].
  exists s2. do 2 (split; [done|]). split.
  - intros j ej Hj Hrange. destruct (decide (j = i)) as [->|].
    + rewrite Hlow in Hj by lia. congruence.
    + apply (Hvac j); [done|lia].
  - intros j Hj. rewrite Hlow, Hrest by lia. done.
Qed.

Lemma reserved_vacant l :
  (forall j e, l !! j = Some e -> vacant e) -> reserved l = ∅.
Proof.
  induction l as [|x l IH]; intros H; [done|].
  change (line_res x ⊎ reserved l = ∅). rewrite IH by (intros j; apply (H (S j))).
  rewrite line_res_vacant by (by apply (H 0%nat)). by rewrite (left_id_L ∅ (⊎)).
Qed.

(** A flush gives every reservation of the cache back.  From any
    consistent cache in use, [PC_FLUSH] completes, leaves every line vacant
    and leaves the nest with exactly the reservations of the environment. *)
Lemma PC_FLUSH_releases base s :
  cache_ok base s -> pc_version s.1 <> 0 ->
  exists s', PC_FLUSH ops c s = Ok s' /\ cache_ok base s' /\
    (forall j e, pc_elems s'.1 !! j = Some e -> vacant e) /\
    held (brick s'.2) = base /\ pc_write s'.1 = false.
Proof.
  intros Hs Hv. unfold PC_FLUSH, _PC_ALL_PUT. rewrite (proj2 (Z.eqb_neq _ _)) by done.
  destruct (all_put_ok base s 0 (Z.to_nat (MAX c)) Hs) as ([p w] & -> & Hs1 & Hvac & _); [lia|].
  simpl in *. eexists. split; [done|]. simpl.
  assert (forall j e, pc_elems p !! j = Some e -> vacant e) as Hall.
  { intros j e Hj. apply (Hvac j e Hj). pose proof (lookup_lt_Some _ _ _ Hj) as Hlt.
    pose proof (co_len _ _ Hs1) as Hlen. simpl in Hlen. lia. }
  split; [by destruct Hs1; split|]. split; [done|]. split; [|done].
  pose proof (co_held _ _ Hs1) as Hh. simpl in Hh.
  by rewrite reserved_vacant, (right_id_L ∅ (⊎)) in Hh by done.
Qed.

Lemma PC_DIRTY_ok base s addr :
  cache_ok base s -> exists s', PC_DIRTY c addr s = Ok s' /\ cache_ok base s'.
Proof.
  intros Hs. destruct (cache_elem base s (_PC_HASH c addr) Hs) as (e & He & Hok);
    [by apply hash_bound|].
  destruct s as [p w]. unfold PC_DIRTY, get_elem. simpl in *. rewrite He. simpl.
  destruct (_ =? _); [|eauto]. eexists. split; [done|].
  pose proof (mark_dirty_state base p w _ e true (pc_write p) Hs He) as [H1 H2 H3].
  by split.
Qed.

(** Every reservation of the cache belongs to the line its address hashes to. *)
Lemma reserved_line l b n :
  (forall j e, l !! j = Some e -> line_ok c j e) ->
  (b, n) ∈ reserved l -> exists e, l !! _PC_HASH c b = Some e /\ holds c (_PC_HASH c b) e b.
Proof.
  intros Hl Hin. unfold reserved in Hin.
  apply elem_of_gmultiset_disj_union_list in Hin as (r & Hr & Hin).
  apply list_elem_of_fmap in Hr as (e & -> & He).
  apply list_elem_of_lookup in He as [j Hj]. destruct (Hl j e Hj) as [Hv|[b' Hb']].
  - rewrite line_res_vacant in Hin by done. multiset_solver.
  - rewrite (line_res_holds c j e b') in Hin by done.
    apply gmultiset_elem_of_singleton in Hin. simplify_eq.
    pose proof Hb' as (_ & _ & _ & <-). eauto.
Qed.

Lemma PC_FREE_ok base s addr len :
  cache_ok base s -> 0 <= addr < 2 ^ 64 -> (addr, len) ∉ base ->
  exists s', PC_FREE ops c addr len s = Ok s' /\ cache_ok base s'.
Proof.
  intros Hs Ha Hbase. set (i := _PC_HASH c addr).
  assert (i < Z.to_nat (MAX c))%nat as Hi by by apply hash_bound.
  destruct (cache_elem base s i Hs Hi) as (e & He & Hok).
  unfold PC_FREE, _PC_FREE. fold i. rewrite (get_elem_Some s.1 i e) by done. simpl.
  assert (exists s1,
    (if is_present e && (strip_flags (pc_addr e) =? addr) then _PC_PUT ops i s else Ok s)
      = Ok s1 /\ cache_ok base s1 /\
    (forall e1, pc_elems s1.1 !! i = Some e1 -> ~ holds c i e1 addr)) as (s1 & -> & Hs1 & Hno).
  { destruct (is_present e && (strip_flags (pc_addr e) =? addr)) eqn:Htest.
    - apply andb_true_iff in Htest as [Hp _].
      destruct (put_if_present_ok base s i Hs Hi) as (s1 & Hput & Hs1 & (e1 & He1 & Hv) & _).
      unfold put_if_present, get_elem in Hput. rewrite He in Hput. simpl in Hput.
      rewrite Hp in Hput. exists s1. do 2 (split; [done|]).
      intros e2 He2 Hh2. simplify_eq. apply (holds_present c i) in Hh2; [|done].
      by rewrite vacant_not_present in Hh2.
    - exists s. do 2 (split; [done|]). intros e1 He1 Hh. simplify_eq.
      rewrite (holds_present c i e addr), (holds_strip c i e addr), Z.eqb_refl in Htest by done.
      done. }
  destruct s1 as [p w]. simpl in *.
  pose proof (nest_free (pc_sect p) (free_args p addr len) [0] w) as Hfree.
  destruct (ops (pc_sect p) opcode_putdeletepadr _ _ _) as [a1 w1]. simpl in Hfree.
  eexists. split; [done|]. destruct Hs1 as [H1 H2 H3]. split; [done|done|]. simpl in *.
  assert ((addr, len) ∉ base ⊎ reserved (pc_elems p)) as Hout.
  { rewrite gmultiset_elem_of_disj_union. intros [?|Hin]; [done|].
    apply reserved_line in Hin as (e1 & He1 & Hh); [|done]. by apply (Hno e1). }
  rewrite Hfree, H3. change (log_addr _, log_len _) with (addr, len).
  clear -Hout. multiset_solver.
Qed.

(** A vacant line that is filled takes over a reservation of the caller: it
    counts as the cache's from then on. *)
Lemma take_over base p w i e e' b wr :
  cache_ok (base ⊎ {[+ (b, pc_len e') +]}) (p, w) ->
  pc_elems p !! i = Some e -> vacant e -> holds c i e' b ->
  cache_ok base ((set_elem p i e') <| pc_write := wr |>, w).
Proof.
  intros [H1 H2 H3] He Hv He'. split; simpl in *.
  - by rewrite length_insert.
  - intros j ej Hj. destruct (decide (i = j)) as [<-|Hne].
    + rewrite list_lookup_insert_eq in Hj by (by eapply lookup_lt_Some).
      simplify_eq. right. by exists b.
    + rewrite list_lookup_insert_ne in Hj by done. eauto.
  - pose proof (reserved_insert _ _ _ e' He) as Hr.
    rewrite (line_res_vacant e), (line_res_holds c i e' b), (right_id_L ∅ (⊎)) in Hr by done.
    rewrite Hr, H3. clear. multiset_solver.
Qed.

Lemma base_holds addr l ptr d :
  0 <= addr < 2 ^ 64 ->
  holds c (_PC_HASH c addr)
    {| pc_addr := Z.lor (PC__BASE_ADDR addr (WHOLE c)) (dirty_bit d); pc_len := l; pc_ptr := ptr |}
    (PC__BASE_ADDR2 addr (WHOLE c)).
Proof.
  intros Ha. pose proof (base_addr_divide c addr Hc) as Hd.
  pose proof (base_addr_range c addr Hc Ha) as Hb. rewrite base_addr_flag by done.
  split; [|split; [lia|]; split; [done|]; apply hash_base; [done|lia] ].
  simpl. rewrite add_flag by (by eauto using conf_mod4 || lia || by destruct d).
  destruct d; [by right|by left].
Qed.

(** The region a [PC_SET] marks as reserved. *)
Definition set_region (addr len : Z) : Z * Z :=
  (PC__BASE_ADDR2 addr (WHOLE c),
   PC__BASE_LEN (PC__BASE_OFFSET addr (WHOLE c)) len (WHOLE c)).

(** Taking over a reservation the caller holds. *)
Lemma PC_SET_ok base s addr len ptr d :
  0 <= addr < 2 ^ 64 ->
  cache_ok (base ⊎ {[+ set_region addr len +]}) s ->
  exists s', PC_SET ops c addr len ptr d s = Ok s' /\ cache_ok base s'.
Proof.
  intros Ha Hs.
  destruct (put_if_present_ok _ s (_PC_HASH c addr) Hs)
    as ([p w] & Hput & Hs1 & (e & He & Hv) & _); [by apply hash_bound|].
  unfold PC_SET. cbv zeta. rewrite Hput. simpl in *. eexists. split; [done|].
  eapply take_over; [|done|done|by apply base_holds]. exact Hs1.
Qed.

(** An allocation completes exactly when the nest creates the region, and
    the line then holds what was created. *)
Lemma PC_ALLOC_ok base s len :
  cache_ok base s ->
  if success (ops (pc_sect s.1) opcode_gadrcreateget
                (alloc_args s.1 (PC__BASE_LEN 0 len (WHOLE c))) [0] s.2).1
  then exists addr ptr s', PC_ALLOC ops c len s = Ok (addr, ptr, s') /\ cache_ok base s' /\
    exists e, pc_elems s'.1 !! _PC_HASH c addr = Some e /\ holds c (_PC_HASH c addr) e addr /\
      pc_ptr e = ptr /\ PC__BASE_LEN 0 len (WHOLE c) <= pc_len e
  else is_ok (PC_ALLOC ops c len s) = false.
Proof.
  intros Hs. destruct s as [p w]. unfold PC_ALLOC, _PC_ALLOC. cbv zeta. simpl.
  set (al := alloc_args _ _).
  pose proof (nest_create (pc_sect p) al [0] w) as Hnew.
  pose proof (nest_create_full (pc_sect p) al [0] w) as Hfull.
  destruct (ops (pc_sect p) opcode_gadrcreateget al [0] w) as [a w1]. simpl in *.
  change (log_len al) with (PC__BASE_LEN 0 len (WHOLE c)) in Hfull.
  destruct (success a); simpl; [|done].
  destruct (Hfull eq_refl) as (Hlen & Ha & Hd). rewrite (proj2 (Z.ltb_ge _ _)) by lia. simpl.
  change (Z.to_nat (PC__HASH (log_addr a) (ALIGN c) (MAX c))) with (_PC_HASH c (log_addr a)).
  assert (cache_ok (base ⊎ {[+ (log_addr a, log_len a) +]}) (p, w1)) as Hs1.
  { destruct Hs as [H1 H2 H3]. split; [done|done|]. simpl in *. rewrite Hnew, H3.
    clear. multiset_solver. }
  destruct (put_if_present_ok _ _ (_PC_HASH c (log_addr a)) Hs1)
    as ([p2 w2] & -> & Hs2 & (e & He & Hv) & _); [by apply hash_bound|]. simpl in *.
  pose proof (base_holds (log_addr a) (log_len a) (phys_addr a) true Ha) as Hh.
  assert (PC__BASE_ADDR2 (log_addr a) (WHOLE c) = log_addr a) as Hb.
  { destruct Hd as [k Hk]. unfold PC__BASE_ADDR2. rewrite Hk at 1.
    rewrite Z.div_mul by (destruct Hc; lia). done. }
  rewrite Hb in Hh.
  replace (Z.lor (Z.lor (PC__BASE_ADDR (log_addr a) (WHOLE c)) PC__PRESENT) PC__DIRTY)
    with (Z.lor (PC__BASE_ADDR (log_addr a) (WHOLE c)) (dirty_bit true))
    by (unfold PC__BASE_ADDR; by rewrite <- (Z.lor_assoc _ PC__PRESENT PC__PRESENT)).
  erewrite get_elem_Some by (apply list_lookup_insert_eq; by eapply lookup_lt_Some).
  simpl.
  pose proof (holds_strip c _ _ (log_addr a) Hc Hh) as Hst. simpl in Hst. rewrite Hst.
  do 3 eexists. split; [done|].
  split; [by eapply take_over; [exact Hs2|exact He|exact Hv|exact Hh]|].
  eexists. split; [by apply list_lookup_insert_eq; eapply lookup_lt_Some|]. done.
Qed.

(** ** Runs of the cache *)

(** A step of the cache and its environment, on the reservations the
    environment holds and the state: every operation of the cache, and a change
    of the environment's own reservations.  A [PC_SET] hands the cache a
    reservation of the environment, of just the region it fills in; a
    [PC_FREE] is not for a region the environment holds. *)
Inductive cache_step : relation (gmultiset (Z * Z) * (pc * world W)) :=
  | step_get base s d addr len ptr s' :
      0 <= addr < 2 ^ 64 -> PC_GET_gen ops d c addr len s = Ok (ptr, s') ->
      cache_step (base, s) (base, s')
  | step_set base s addr len ptr d s' :
      0 <= addr < 2 ^ 64 -> PC_SET ops c addr len ptr d s = Ok s' ->
      cache_step (base ⊎ {[+ set_region addr len +]}, s) (base, s')
  | step_unset base s addr s' :
      PC_UNSET ops c addr s = Ok s' -> cache_step (base, s) (base, s')
  | step_dirty base s addr s' :
      PC_DIRTY c addr s = Ok s' -> cache_step (base, s) (base, s')
  | step_flush base s s' : PC_FLUSH ops c s = Ok s' -> cache_step (base, s) (base, s')
  | step_alloc base s len addr ptr s' :
      PC_ALLOC ops c len s = Ok (addr, ptr, s') -> cache_step (base, s) (base, s')
  | step_free base s addr len s' :
      0 <= addr < 2 ^ 64 -> (addr, len) ∉ base -> PC_FREE ops c addr len s = Ok s' ->
      cache_step (base, s) (base, s')
  | step_environment base base' p w w' :
      held (brick w) ⊎ base' = held (brick w') ⊎ base ->
      cache_step (base, (p, w)) (base', (p, w')).

Lemma PC_FLUSH_ok base s :
  cache_ok base s -> exists s', PC_FLUSH ops c s = Ok s' /\ cache_ok base s'.
Proof.
  intros Hs. destruct (decide (pc_version s.1 = 0)) as [Hv|Hv].
  - unfold PC_FLUSH. rewrite Hv. eauto.
  - destruct (PC_FLUSH_releases base s Hs Hv) as (?&?&?&_). eauto.
Qed.

Lemma environment_ok base base' p w w' :
  cache_ok base (p, w) -> held (brick w) ⊎ base' = held (brick w') ⊎ base ->
  cache_ok base' (p, w').
Proof.
  intros [H1 H2 H3] Hw. split; [done|done|]. simpl in *. rewrite H3 in Hw.
  apply (inj (.⊎ base)). rewrite <- Hw. clear. multiset_solver.
Qed.

Lemma cache_step_ok x y : cache_step x y -> cache_ok x.1 x.2 -> cache_ok y.1 y.2.
Proof.
  intros Hstep. destruct Hstep as [base s d addr len ptr s' Ha H|base s addr len ptr d s' Ha H
    |base s addr s' H|base s addr s' H|base s s' H|base s len addr ptr s' H
    |base s addr len s' Ha Hb H|base base' p w w' H]; simpl; intros Hs.
  - destruct (PC_GET_gen_ok base s addr len d Hs Ha) as (?&?&?&?&?&_). congruence.
  - destruct (PC_SET_ok base s addr len ptr d Ha Hs) as (?&?&?). congruence.
  - destruct (put_if_present_ok base s (_PC_HASH c addr) Hs (hash_bound c addr Hc)) as (?&?&?&_).
    unfold PC_UNSET in H. congruence.
  - destruct (PC_DIRTY_ok base s addr Hs) as (?&?&?). congruence.
  - destruct (PC_FLUSH_ok base s Hs) as (?&?&?). congruence.
  - pose proof (PC_ALLOC_ok base s len Hs) as Hal. rewrite H in Hal.
    destruct (success _); [|done]. destruct Hal as (?&?&?&?&?&_). congruence.
  - destruct (PC_FREE_ok base s addr len Hs Ha Hb) as (?&?&?). congruence.
  - by eapply environment_ok.
Qed.


Lemma PC_GET_hit base s addr len e :
  cache_ok base s -> 0 <= addr < 2 ^ 64 -> pc_elems s.1 !! _PC_HASH c addr = Some e ->
  holds c (_PC_HASH c addr) e (PC__BASE_ADDR2 addr (WHOLE c)) ->
  PC_GET ops c addr len s = Ok (pc_ptr e + PC__BASE_OFFSET addr (WHOLE c), s).
Proof.
  intros Hs Ha He Hh. unfold PC_GET, PC_GET_gen, __PC_GET. cbv zeta.
  rewrite (get_elem_Some s.1 _ e) by done. simpl. rewrite base_addr_flag by done.
  pose proof (base_addr_range c addr Hc Ha).
  assert (strip_dirty (pc_addr e) = PC__BASE_ADDR2 addr (WHOLE c) + 2) as ->.
  { apply (strip_dirty_hit (_PC_HASH c addr)); [|lia|by apply base_addr_divide|done].
    by apply (co_lines _ _ Hs). }
  rewrite Z.eqb_refl. simpl. destruct s as [[v sec wr l] w]. simpl in *.
  rewrite (get_elem_Some _ _ e) by done. simpl. rewrite Z.lor_0_r, orb_false_r.
  assert (upd (proj := pc_addr) (fun _ => pc_addr e) e = e) as -> by by destruct e.
  unfold set_elem. simpl. rewrite list_insert_id by done. simpl.
  by rewrite (get_elem_Some _ _ e) by done.
Qed.

(** Cached pointers are coherent.  If an access to [addr] leaves its line
    filled, any later access to the same whole before the line changes is a
    hit: it does not touch the nest or the cache and yields the pointer that
    differs from the first by exactly the difference of the addresses. *)
Lemma PC_GET_coherent base s addr len ptr s' d addr' len' :
  cache_ok base s -> 0 <= addr < 2 ^ 64 -> 0 <= addr' < 2 ^ 64 ->
  PC_GET_gen ops d c addr len s = Ok (ptr, s') ->
  (forall e, pc_elems s'.1 !! _PC_HASH c addr = Some e -> is_present e = true) ->
  PC__BASE_ADDR2 addr' (WHOLE c) = PC__BASE_ADDR2 addr (WHOLE c) ->
  PC_GET ops c addr' len' s' = Ok (ptr + (addr' - addr), s').
Proof.
  intros Hs Ha Ha' Hget Hfilled Hbase.
  destruct (PC_GET_gen_ok base s addr len d Hs Ha) as (ptr1 & s1 & e & Hget1 & Hs1 & He & -> & Hcase).
  rewrite Hget1 in Hget. injection Hget as <- <-.
  destruct Hcase as [Hv|Hh].
  { specialize (Hfilled e He). by rewrite vacant_not_present in Hfilled. }
  assert (_PC_HASH c addr' = _PC_HASH c addr) as Hhash.
  { rewrite <- (hash_base c addr'), Hbase, hash_base by (done || lia). done. }
  unfold PC__BASE_ADDR2 in Hbase.
  rewrite (PC_GET_hit base s1 addr' len' e); [|done|done|by rewrite Hhash|].
  - do 2 f_equal. unfold PC__BASE_OFFSET. pose proof Hc as (HW & _).
    pose proof (Z.div_mod addr (WHOLE c) ltac:(lia)).
    pose proof (Z.div_mod addr' (WHOLE c) ltac:(lia)). lia.
  - unfold PC__BASE_ADDR2. rewrite Hhash, Hbase. exact Hh.
Qed.

(** A failed access is not reported to its caller.  When the access misses
    and the nest refuses the region, the macro still evaluates to a pointer,
    namely the offset of the address within its whole on top of a null
    pointer. *)
Theorem PC_GET_failure_pointer base s addr len d e :
  cache_ok base s -> 0 <= addr < 2 ^ 64 ->
  pc_elems s.1 !! _PC_HASH c addr = Some e ->
  strip_dirty (pc_addr e) <> PC__BASE_ADDR addr (WHOLE c) ->
  (forall sect a w, success (ops sect opcode_gettranswait a [0] w).1 = false) ->
  exists s', PC_GET_gen ops d c addr len s = Ok (addr mod WHOLE c, s').
Proof.
  intros Hs Ha He Hmiss Hfail. set (i := _PC_HASH c addr) in *.
  assert (i < Z.to_nat (MAX c))%nat as Hi by by apply hash_bound.
  destruct (put_if_present_ok base s i Hs Hi) as ([p w] & Hput & Hs1 & (e1 & He1 & Hv) & _).
  unfold PC_GET_gen, __PC_GET. cbv zeta. fold i. rewrite (get_elem_Some s.1 i e) by done. simpl.
  rewrite (proj2 (Z.eqb_neq _ _) Hmiss). simpl. unfold _PC_GET. rewrite Hput. simpl in *.
  match goal with |- context [ops ?sec opcode_gettranswait ?x ?pa ?v] =>
    pose proof (Hfail sec x v) as Hf; destruct (ops sec opcode_gettranswait x pa v) as [a1 w1] end.
  simpl in *. rewrite Hf. simpl. rewrite (get_elem_Some p i e1) by done. simpl.
  erewrite get_elem_Some by (apply list_lookup_insert_eq; by eapply lookup_lt_Some). simpl.
  destruct Hv as [_ ->]. rewrite Z.add_0_l. eauto.
Qed.
End invariant.

(** ** Two concrete nests

    One grants every request at physical addresses [0x100000] above the
    logical ones, the other refuses every read.  Both create their regions at
    the logical address [0x2000]. *)

Fixpoint remove_one (x : Z * Z) (l : list (Z * Z)) : list (Z * Z) :=
  match l with
  | [] => []
  | y :: l' => if decide (x = y) then l' else y :: remove_one x l'
  end.

Definition bag (l : list (Z * Z)) : gmultiset (Z * Z) := list_to_set_disj l.

Lemma bag_remove_one x l : bag (remove_one x l) = bag l ∖ {[+ x +]}.
Proof.
  unfold bag. induction l as [|y l IH]; simpl.
  - multiset_solver.
  - case_decide; subst; simpl; [multiset_solver|]. rewrite IH. multiset_solver.
Qed.

Definition granting_nest (grant : bool) : optable (list (Z * Z)) :=
  fun sect op a param w =>
    match op with
    | opcode_put | opcode_putdeletepadr =>
      (a <| success := true |>,
       World (console w) (remove_one (log_addr a, log_len a) (brick w)))
    | opcode_gettranswait =>
      if grant
      then (a <| success := true |> <| phys_addr := log_addr a + 0x100000 |>
              <| phys_len := log_len a |>,
            World (console w) ((log_addr a, log_len a) :: brick w))
      else (a <| success := false |>, w)
    | opcode_gadrcreateget =>
      (a <| success := true |> <| log_addr := 0x2000 |> <| phys_addr := 0x102000 |>,
       World (console w) ((0x2000, log_len a) :: brick w))
    | _ => (a, w)
    end.

#[export] Instance granting_nest_ok grant : BufferNest (granting_nest grant) bag 64.
Proof.
  split; intros; destruct grant; simpl;
    first [ apply bag_remove_one | done
          | split; [lia|split; [done|by exists 128] ]
          | unfold bag; simpl; multiset_solver ].
Qed.

Definition sample_conf : pc_conf := {| ALIGN := 256; WHOLE := 64; MAX := 4 |}.

Lemma sample_conf_ok : conf_ok sample_conf.
Proof.
  unfold conf_ok. simpl. repeat split; try lia.
  - by exists 16.
  - by exists 4.
Qed.

Definition empty_cache : pc :=
  {| pc_version := 1; pc_sect := 0; pc_write := false; pc_elems := replicate 4 zero_elem |}.

Lemma empty_cache_ok held : cache_ok bag sample_conf (bag held) (empty_cache, World [] held).
Proof.
  split; simpl.
  - done.
  - intros i e Hi. left. destruct i as [|[|[|[|]]]]; simplify_eq/=; apply zero_elem_vacant.
  - unfold reserved. simpl. unfold line_res. simpl. multiset_solver.
Qed.

Lemma PC_FLUSH_releases_witness :
  exists s', PC_FLUSH (granting_nest true) sample_conf (empty_cache, World [] []) = Ok s' /\
    bag (brick s'.2) = ∅.
Proof.
  destruct (PC_FLUSH_releases (granting_nest true) bag sample_conf sample_conf_ok ∅
    (empty_cache, World [] []) (empty_cache_ok [])) as (s' & H1 & _ & _ & H2 & _); [done|].
  exists s'. split; [exact H1|exact H2].
Defined.

(** The state after one dirty access. *)
Definition after_access : pc * world (list (Z * Z)) :=
  ({| pc_version := 1; pc_sect := 0; pc_write := true;
      pc_elems := [ zero_elem; zero_elem;
                    {| pc_addr := 0x1203; pc_len := 64; pc_ptr := 0x101200 |};
                    zero_elem ] |},
   World [] [(0x1200, 64)]).

Lemma after_access_eq :
  PC_GET_gen (granting_nest true) true sample_conf 0x1234 8 (empty_cache, World [] [])
  = Ok (0x101234, after_access).
Proof. vm_compute. reflexivity. Qed.

(** The environment then takes a region itself and hands it to the cache, and
    an allocation fills a third line. *)
Definition after_environment : pc * world (list (Z * Z)) :=
  (after_access.1, World [] [(0x1100, 64); (0x1200, 64)]).

Definition set_lines (e0 : pc_elem) : pc :=
  {| pc_version := 1; pc_sect := 0; pc_write := true;
     pc_elems := [ e0;
                   {| pc_addr := 0x1102; pc_len := 64; pc_ptr := 0x5000 |};
                   {| pc_addr := 0x1203; pc_len := 64; pc_ptr := 0x101200 |};
                   zero_elem ] |}.

Definition after_set : pc * world (list (Z * Z)) :=
  (set_lines zero_elem, World [] [(0x1100, 64); (0x1200, 64)]).

Definition after_alloc : pc * world (list (Z * Z)) :=
  (set_lines {| pc_addr := 0x2003; pc_len := 128; pc_ptr := 0x102000 |},
   World [] [(0x2000, 128); (0x1100, 64); (0x1200, 64)]).

Lemma after_set_eq :
  PC_SET (granting_nest true) sample_conf 0x1110 8 0x5010 false after_environment = Ok after_set.
Proof. vm_compute. reflexivity. Qed.

Lemma after_alloc_eq :
  PC_ALLOC (granting_nest true) sample_conf 100 after_set = Ok (0x2000, 0x102000, after_alloc).
Proof. vm_compute. reflexivity. Qed.


Lemma PC_GET_coherent_witness :
  PC_GET (granting_nest true) sample_conf 0x1220 4 after_access = Ok (0x101220, after_access).
Proof.
  apply (PC_GET_coherent (granting_nest true) bag sample_conf sample_conf_ok ∅
    (empty_cache, World [] []) 0x1234 8 0x101234 after_access true 0x1220 4).
  - apply (empty_cache_ok []).
  - lia.
  - lia.
  - apply after_access_eq.
  - intros e He. change (pc_elems after_access.1 !! 2%nat = Some e) in He.
    injection He as <-. reflexivity.
  - reflexivity.
Defined.

Lemma PC_GET_failure_pointer_witness :
  exists s', PC_GET (granting_nest false) sample_conf 0x1234 8 (empty_cache, World [] [])
    = Ok (0x34, s').
Proof.
  apply (PC_GET_failure_pointer (granting_nest false) bag sample_conf sample_conf_ok ∅
    (empty_cache, World [] []) 0x1234 8 false zero_elem).
  - apply (empty_cache_ok []).
  - lia.
  - reflexivity.
  - vm_compute. discriminate.
  - reflexivity.
Defined.
