(* ===== verification/StratScan.v ===== *)
(** * Scanning strategy text: [strat.c], [strat.h]

    The hand-written scanner of the strategy protocol: skipping, keyword
    search, table-driven scanning, the connector specifiers [name[index]] and
    [addr:name[index]], and the deprecated line parsers.

    A pointer is the suffix of the string it points to, [*str] arguments are
    passed and returned, and an output argument is passed with its old value
    and returned with its new one.  Diagnostics on [stderr] are not modelled;
    strings are shorter than [INT_MAX]. *)

From S2P Require Import Prelude CLib Common.
Open Scope Z_scope.

(** ** Copying *)

Definition copy_str (dst : list Z) (maxlen : Z) (src : text) (start end_ : Z) : cres (list Z) :=
  let len := end_ - start in
  if (start <? 0) || (len <? 0) then write_front [NUL] dst else
  let len := if maxlen <=? len then maxlen - 1 else len in
  if len <? 0 then Fault OutOfBounds else
  src ← advance (Z.to_nat start) src;
  bytes ← strncpy src (Z.to_nat len);
  write_front (bytes ++ [NUL]) dst.

(** ** Skipping *)

Fixpoint skip_line (str : text) : cres text :=
  match str with
  | [] => Fault OutOfBounds
  | c :: str' =>
    if c =? NUL then Ok str else if c =? NL then Ok str' else skip_line str'
  end.

Fixpoint skip_blanks (str : text) : cres text :=
  match str with
  | [] => Fault OutOfBounds
  | c :: str' => if c =? SP then skip_blanks str' else Ok str
  end.

(** ** Keywords *)

(** [for(i = 0; i < nr; i++) if(!strncmp(tmp, search[i], lens[i])) ...] *)
Fixpoint match_keyword (tmp : text) (search : list (text * nat)) (i : Z)
  : cres (option (Z * text)) :=
  match search with
  | [] => Ok None
  | (kw, len) :: search' =>
    r ← strncmp tmp kw len;
    if r =? 0 then
      tmp ← advance len tmp; tmp ← skip_blanks tmp; Ok (Some (i, tmp))
    else match_keyword tmp search' (i + 1)
  end.

Fixpoint scan_multi_loop (fuel : nat) (tmp : text) (search : list (text * nat))
  : cres (Z * text) :=
  match fuel with
  | O => Fault OutOfFuel
  | S fuel' =>
    tmp ← skip_blanks tmp;
    c ← deref tmp;
    if c =? NUL then Ok (-1, tmp) else
    m ← match_keyword tmp search 0;
    match m with
    | Some r => Ok r
    | None => tmp ← skip_line tmp; scan_multi_loop fuel' tmp search
    end
  end.

(** Every round that does not return consumes at least one character. *)
Definition scan_multi (str : text) (search : list (text * nat)) : cres (Z * text) :=
  scan_multi_loop (S (length str)) str search.

Fixpoint scan_single_loop (fuel : nat) (str search : text) (searchlen : nat)
  : cres (option text) :=
  match fuel with
  | O => Fault OutOfFuel
  | S fuel' =>
    str ← skip_blanks str;
    c ← deref str;
    if c =? NUL then Ok None else
    r ← strncmp str search searchlen;
    if r =? 0 then
      str ← advance searchlen str; str ← skip_blanks str; Ok (Some str)
    else
      str ← skip_line str; scan_single_loop fuel' str search searchlen
  end.

Definition scan_single (str search : text) (searchlen : nat) : cres (option text) :=
  scan_single_loop (S (length str)) str search searchlen.

(** ** Character tables *)

Definition in_range (lo hi c : Z) : bool := (lo <=? c) && (c <=? hi).

Definition id_table (c : Z) : bool :=
  in_range (ch "a") (ch "z") c || in_range (ch "A") (ch "Z") c
  || in_range (ch "0") (ch "9") c || (c =? ch "_").
Definition num_table (c : Z) : bool := in_range (ch "0") (ch "9") c.
Definition hex_table (c : Z) : bool :=
  in_range (ch "0") (ch "9") c || in_range (ch "a") (ch "f") c
  || in_range (ch "A") (ch "F") c || (c =? ch "x").
Definition op_table (c : Z) : bool :=
  (c =? ch "=") || (c =? ch ":") || (c =? ch "/") || (c =? ch "+") || (c =? ch "-").
Definition ws_table (c : Z) : bool := (c =? SP) || (c =? TAB) || (c =? NL).
Definition bl_table (c : Z) : bool := (c =? SP) || (c =? TAB).
Definition nl_table (c : Z) : bool := c =? NL.

(** [table[(unsigned)c]]: a negative [char] is an index far outside the table. *)
Definition table_at (table : Z -> bool) (c : Z) : cres bool :=
  let i := u32 c in
  if i <? 256 then Ok (table i) else Fault OutOfBounds.

(** [for(i = 0; tmp[i] && OP table[(unsigned)tmp[i]]; i++)] *)
Fixpoint span_table (wanted : bool) (table : Z -> bool) (tmp : text) : cres nat :=
  match tmp with
  | [] => Fault OutOfBounds
  | c :: tmp' =>
    if c =? NUL then Ok O else
    b ← table_at table c;
    if Bool.eqb b wanted then i ← span_table wanted table tmp'; Ok (S i) else Ok O
  end.

(** [(i, *res, *str)] *)
Definition scan_body (wanted : bool) (table : Z -> bool) (str : text)
  : cres (Z * text * text) :=
  tmp ← skip_blanks str;
  i ← span_table wanted table tmp;
  Ok (Z.of_nat i, tmp, drop i tmp).

Definition scan_table (str : text) (table : Z -> bool) := scan_body true table str.
Definition scan_not_table (str : text) (table : Z -> bool) := scan_body false table str.

(** [(i, res[], *str)] *)
Definition scan_body2 (wanted : bool) (table : Z -> bool) (str : text)
  (res : list Z) (reslen : Z) : cres (Z * list Z * text) :=
  tmp ← skip_blanks str;
  i ← span_table wanted table tmp;
  if reslen <=? Z.of_nat i then Ok (-1, res, str) else
  bytes ← strncpy tmp i;
  res ← write_front (bytes ++ [NUL]) res;
  Ok (Z.of_nat i, res, drop i tmp).

Definition scan_table_copy (str : text) (table : Z -> bool) := scan_body2 true table str.
Definition scan_not_table_copy (str : text) (table : Z -> bool) := scan_body2 false table str.

Definition scan_op (str : text) : cres (Z * text) :=
  res ← deref str;
  let tmp := drop 1 str in
  b ← table_at op_table res;
  let res := if b : bool then res else ch "?" in
  c ← deref tmp;
  if c =? ch "=" then Ok (res, drop 1 tmp)
  else Ok (if negb (res =? ch "=") then ch "?" else res, tmp).

(** ** Connector specifiers *)

Definition strat_keywords : list text :=
  [cstr "brick"; cstr "input"; cstr "output"; cstr "connect"].
Definition strat_keylens : list nat := [5; 5; 6; 7]%nat.

(** [while( *p && *p++ != stop)] *)
Fixpoint skip_past (stop : Z) (p : text) : cres text :=
  match p with
  | [] => Fault OutOfBounds
  | c :: p' => if c =? NUL then Ok p else if c =? stop then Ok p' else skip_past stop p'
  end.

Definition sizeof_sname : Z := 8.

Definition scan_connstr (str : text) (conn : conn_info) : cres (bool * text * conn_info) :=
  str ← skip_blanks str;
  r ← scan_table_copy str id_table (conn_name conn) sizeof_sname;
  let '(count, nm, str) := r in
  let conn := conn <| conn_name := nm |> in
  c ← deref str;
  r ← (if c =? ch "[" then
         let str := drop 1 str in
         n ← sscanf_d str;
         match n with
         | None => Ok (false, str, conn)
         | Some n =>
           str ← skip_past (ch "]") str;
           Ok (true, str, conn <| conn_index := n |>)
         end
       else Ok (true, str, conn <| conn_index := 0 |>));
  let '(parsed, str, conn) := r in
  if negb parsed then Ok (false, str, conn) else
  c ← deref str;
  let str := if c =? ch "," then drop 1 str else str in
  c ← deref str;
  if (c =? NUL) && (count <=? 0) then Ok (false, str, conn)
  else Ok (true, str, conn).

Definition scan_connstraddr (str : text) (conn : conn_info) : cres (bool * text * conn_info) :=
  str ← skip_blanks str;
  a ← sscanf_llx str;
  let conn := match a with Some a => conn <| conn_addr := a |> | None => conn end in
  r ← scan_table str hex_table;
  let str := r.2 in
  c ← deref str;
  if negb (c =? ch ":") then Ok (false, str, conn)
  else scan_connstr (drop 1 str) conn.

(** ** The deprecated line parsers *)

(** [for(i = 0; p(tmp[i]); i++)] for a predicate that is false at NUL *)
Fixpoint span_chars (p : Z -> bool) (tmp : text) : cres nat :=
  match tmp with
  | [] => Fault OutOfBounds
  | c :: tmp' => if p c then i ← span_chars p tmp'; Ok (S i) else Ok O
  end.

Definition name_char (c : Z) : bool := in_range (ch "a") (ch "z") c || (c =? ch "_").
Definition line_char (c : Z) : bool := negb (c =? NUL) && negb (c =? NL).

(** The operator [":="], ["/="] or ["="] and the blanks after it: [*res_op]
    and the position of the value. *)
Definition parse_op (found : text) : cres (Z * text) :=
  op_char ← deref found;
  let found := drop 1 found in
  let res_op := if (op_char =? ch ":") || (op_char =? ch "/") then op_char else 0 in
  c ← deref found;
  let found := if c =? ch "=" then drop 1 found else found in
  found ← skip_blanks found;
  Ok (res_op, found).

(** Pointer difference within [buf]. *)
Definition offset_in (buf p : text) : Z := Z.of_nat (length buf) - Z.of_nat (length p).

(** [(return value, *res_op, res_name[])] *)
Definition parse_brick (buf : text) (res_op : Z) (res_name : list Z) (len_name : Z)
  : cres (Z * Z * list Z) :=
  found ← scan_single buf (cstr "brick") 5;
  match found with
  | None => Ok (-1, res_op, res_name)
  | Some found =>
    r ← parse_op found;
    let '(res_op, found) := r in
    c ← deref found;
    if c =? NUL then Ok (-1, res_op, res_name) else
    res_len ← span_chars line_char found;
    res_name ← copy_str res_name len_name found 0 (Z.of_nat res_len);
    Ok (offset_in buf (drop res_len found), res_op, res_name)
  end.

Record connector_out := {
  out_name : list Z; out_index : Z; out_op : Z; out_other : list Z; out_reslen : Z
}.
#[export] Instance eta_connector_out : Eta connector_out := fun r =>
  {| out_name := out_name r; out_index := out_index r; out_op := out_op r;
     out_other := out_other r; out_reslen := out_reslen r |}.

Definition parse_connector (buf : text) (len_name len_other : Z) (o : connector_out)
  : cres (Z * connector_out) :=
  found ← scan_single buf (cstr "connect") 7;
  match found with
  | None => Ok (-1, o)
  | Some found =>
    pos ← span_chars name_char found;
    nm ← copy_str (out_name o) len_name found 0 (Z.of_nat pos);
    let o := o <| out_name := nm |> <| out_index := 0 |> in
    let found := drop pos found in
    at_pos ← advance pos found;
    c ← deref at_pos;
    r ← (if c =? ch "[" then
           found ← advance 1 found;
           n ← atoi found;
           found ← skip_past (ch "]") found;
           Ok (n, found)
         else Ok (0, found));
    let '(n, found) := r in
    let o := o <| out_index := n |> in
    found ← skip_blanks found;
    r ← parse_op found;
    let '(res_op, found) := r in
    let o := o <| out_op := res_op |> in
    c ← deref found;
    if c =? NUL then Ok (-1, o) else
    res_len ← span_chars line_char found;
    other ← copy_str (out_other o) len_other found 0 (Z.of_nat res_len);
    Ok (offset_in buf (drop res_len found),
        o <| out_reslen := Z.of_nat res_len |> <| out_other := other |>)
  end.

Definition parse_connstr (ptr : text) (conn : conn_info) : cres (text * conn_info) :=
  i ← span_chars name_char ptr;
  nm ← copy_str (conn_name conn) sizeof_sname ptr 0 (Z.of_nat i);
  let conn := conn <| conn_name := nm |> in
  let ptr := drop i ptr in
  c ← deref ptr;
  if c =? ch "[" then
    let ptr := drop 1 ptr in
    n ← sscanf_d ptr;
    let conn := match n with Some n => conn <| conn_index := n |> | None => conn end in
    ptr ← skip_past (ch "]") ptr;
    Ok (ptr, conn)
  else Ok (ptr, conn).

Definition parse_elem (buf : text) (conn : conn_info) : cres (Z * conn_info) :=
  ptr ← skip_blanks buf;
  c ← deref ptr;
  if c =? NUL then Ok (-1, conn) else
  a ← sscanf_llx ptr;
  let conn := match a with Some a => conn <| conn_addr := a |> | None => conn end in
  ptr ← skip_past (ch ":") ptr;
  c ← deref ptr;
  if c =? NUL then Ok (-1, conn) else
  r ← parse_connstr ptr conn;
  let '(ptr, conn) := r in
  c ← deref ptr;
  let ptr := if c =? ch "," then drop 1 ptr else ptr in
  ptr ← skip_blanks ptr;
  Ok (offset_in buf ptr, conn).

(** [(return value, *res_type, *res_op, *conn)] *)
Definition parse_inout (buf : text) (res_type res_op : Z) (conn : conn_info)
  : cres (Z * Z * Z * conn_info) :=
  r ← scan_multi buf [(cstr "input", 5%nat); (cstr "output", 6%nat)];
  let '(code, found) := r in
  if code <? 0 then Ok (-1, res_type, res_op, conn) else
  r ← parse_op found;
  let '(res_op, found) := r in
  c ← deref found;
  if c =? NUL then Ok (-1, code, res_op, conn) else
  r ← parse_connstr found conn;
  Ok (offset_in buf r.1, code, res_op, r.2).

(** * Reference definitions *)

(** The string after its leading blanks, and after its first line. *)
Fixpoint trim (t : text) : text :=
  match t with
  | c :: t' => if c =? SP then trim t' else t
  | [] => []
  end.

Fixpoint next_line (t : text) : text :=
  match t with
  | c :: t' => if c =? NUL then t else if c =? NL then t' else next_line t'
  | [] => []
  end.

(** The suffixes of a string at which a line starts. *)
Fixpoint line_starts (start : bool) (t : text) : list text :=
  match t with
  | [] => []
  | c :: t' =>
    (if start then [t] else []) ++ (if c =? NUL then [] else line_starts (c =? NL) t')
  end.

(** The first keyword of the list that a line, blanks skipped, begins with:
    its index and what follows it. *)
Fixpoint line_keyword (search : list (text * nat)) (i : Z) (u : text) : option (Z * text) :=
  match search with
  | [] => None
  | (kw, len) :: search' =>
    if decide (take len kw `prefix_of` u) then Some (i, trim (drop len u))
    else line_keyword search' (i + 1) u
  end.

Definition keyword_ok (k : text * nat) : Prop :=
  (0 < k.2 <= length k.1)%nat /\ Forall (fun c => 0 < c < 128) (take k.2 k.1).

(** The characters the table scanners accept. *)
Fixpoint take_while (p : Z -> bool) (t : text) : text :=
  match t with
  | c :: t' => if p c then c :: take_while p t' else []
  | [] => []
  end.

Definition accepted (wanted : bool) (table : Z -> bool) (c : Z) : bool :=
  negb (c =? NUL) && Bool.eqb (table c) wanted.

(** * Safety of the scanners on terminated strings *)

Lemma terminated_drop (t : text) n :
  terminated t = true -> Forall (fun c => c <> 0) (take n t) -> terminated (drop n t) = true.
Proof.
  revert n. induction t as [|c t IH]; intros [|n] Ht Hn; [done..|].
  simpl in Hn. apply Forall_cons in Hn as [Hc Hn]. apply IH; [|done].
  by eapply terminated_tail.
Qed.

Lemma trim_terminated t : terminated t = true -> terminated (trim t) = true.
Proof.
  induction t as [|c t IH]; intros Ht; [done|]. cbn [trim].
  destruct (Z.eqb_spec c SP) as [->|]; [|done]. apply IH. by apply terminated_tail in Ht.
Qed.

Lemma trim_length t : (length (trim t) <= length t)%nat.
Proof. induction t as [|c t IH]; simpl; [done|]. destruct (c =? SP); simpl; lia. Qed.

Lemma skip_blanks_trim t : terminated t = true -> skip_blanks t = Ok (trim t).
Proof.
  induction t as [|c t IH]; intros Ht; [done|]. cbn [skip_blanks trim].
  destruct (Z.eqb_spec c SP) as [->|]; [|done]. apply IH. by apply terminated_tail in Ht.
Qed.

Lemma skip_line_next t : terminated t = true -> skip_line t = Ok (next_line t).
Proof.
  induction t as [|c t IH]; intros Ht; [done|]. cbn [skip_line next_line].
  destruct (Z.eqb_spec c NUL) as [->|Hc]; [done|].
  destruct (c =? NL); [done|]. apply IH. by eapply terminated_tail.
Qed.

Lemma next_line_terminated t : terminated t = true -> terminated (next_line t) = true.
Proof.
  induction t as [|c t IH]; intros Ht; [done|]. cbn [next_line].
  destruct (Z.eqb_spec c NUL) as [->|Hc]; [done|].
  apply terminated_tail in Ht; [|done]. destruct (c =? NL); auto.
Qed.

Lemma next_line_length c t :
  c <> NUL -> (length (next_line (c :: t)) <= length t)%nat.
Proof.
  intros Hc. cbn [next_line]. rewrite (proj2 (Z.eqb_neq c NUL)) by done.
  destruct (c =? NL); [done|]. clear c Hc.
  induction t as [|c t IH]; simpl; [done|]. destruct (c =? NUL); [done|].
  destruct (c =? NL); simpl; lia.
Qed.

#[export] Hint Resolve trim_terminated next_line_terminated : scan.

Lemma next_line_trim t : next_line (trim t) = next_line t.
Proof.
  induction t as [|c t IH]; [done|]. cbn [trim].
  destruct (Z.eqb_spec c SP) as [->|]; [|done]. by rewrite IH.
Qed.

Lemma body_trim t : drop (length (body (trim t))) (trim t) = drop (length (body t)) t.
Proof.
  induction t as [|c t IH]; [done|]. cbn [trim].
  destruct (Z.eqb_spec c SP) as [->|]; [|done]. by rewrite IH.
Qed.

Lemma body_next_line t :
  drop (length (body (next_line t))) (next_line t) = drop (length (body t)) t.
Proof.
  induction t as [|c t IH]; [done|]. cbn [next_line body].
  change NUL with 0. destruct (Z.eqb_spec c 0) as [->|Hc]; [done|].
  cbn [length drop]. destruct (c =? NL); [done|]. apply IH.
Qed.

(** * Keywords *)

Lemma strncmp_keyword t kw len :
  terminated t = true -> keyword_ok (kw, len) ->
  exists r, strncmp t kw len = Ok r /\ (r =? 0) = bool_decide (take len kw `prefix_of` t).
Proof.
  intros Ht [Hlen Hkw]; simpl in *.
  destruct (strncmp_prefix (take len kw) t) as (r & Hr & Hpre); [done| |].
  { eapply Forall_impl; [exact Hkw|]. simpl. lia. }
  exists r. rewrite length_take_le in Hr by lia. rewrite strncmp_take by lia.
  split; [done|]. apply eq_true_iff_eq. rewrite bool_decide_eq_true, Z.eqb_eq, Hpre.
  unfold prefix. done.
Qed.

Lemma drop_keyword t kw len :
  terminated t = true -> keyword_ok (kw, len) -> take len kw `prefix_of` t ->
  advance len t = Ok (drop len t) /\ terminated (drop len t) = true.
Proof.
  intros Ht [Hlen Hkw] [t' ->]; simpl in *.
  assert (length (take len kw) = len) as Hl by (rewrite length_take; lia).
  unfold advance. rewrite decide_True by (rewrite length_app; lia). split; [done|].
  apply terminated_drop; [done|].
  rewrite take_app_le, take_ge by lia.
  eapply Forall_impl; [exact Hkw|]. simpl. lia.
Qed.

Lemma match_keyword_spec t search i :
  terminated t = true -> Forall keyword_ok search ->
  match_keyword t search i = Ok (line_keyword search i t).
Proof.
  intros Ht Hs. revert i. induction Hs as [|[kw len] search Hk Hs IH]; intros i; [done|].
  cbn [match_keyword line_keyword].
  destruct (strncmp_keyword t kw len Ht Hk) as (r & -> & Hr).
  cbn [mbind cres_bind]. rewrite Hr.
  destruct (decide _) as [Hpre|Hpre]; [rewrite bool_decide_true by done|
    rewrite bool_decide_false by done; apply IH].
  destruct (drop_keyword t kw len) as [-> Hd]; [done..|].
  cbn [mbind cres_bind]. by rewrite skip_blanks_trim.
Qed.

Lemma line_keyword_end search i t :
  Forall keyword_ok search -> line_keyword search i (NUL :: t) = None.
Proof.
  intros Hs. revert i. induction Hs as [|[kw len] search [Hlen Hk] Hs IH]; intros i; [done|].
  cbn [line_keyword]. rewrite decide_False; [apply IH|]. simpl in *.
  destruct len as [|len]; [lia|]. destruct kw as [|c kw]; simpl in *; [lia|].
  intros [? ?]. simplify_eq/=. apply Forall_cons in Hk as [Hk _]. unfold NUL in Hk. lia.
Qed.

(** The lines after the first are those of the rest of the text. *)
Lemma line_starts_next {A} (f : text -> option A) t :
  terminated t = true -> (forall u, f (NUL :: u) = None) ->
  omap f (line_starts false t) = omap f (line_starts true (next_line t)).
Proof.
  intros Ht Hf. induction t as [|c t IH]; [done|]. cbn [line_starts next_line app].
  destruct (Z.eqb_spec c NUL) as [->|Hc].
  - cbn [line_starts]. rewrite Z.eqb_refl. simpl. by rewrite Hf.
  - apply terminated_tail in Ht; [|done]. destruct (c =? NL); [done|]. by apply IH.
Qed.

Lemma line_starts_step {A} (f : text -> option A) c t :
  terminated (c :: t) = true -> (forall u, f (NUL :: u) = None) -> c <> NUL ->
  omap f (line_starts true (c :: t)) =
  option_list (f (c :: t)) ++ omap f (line_starts true (next_line (c :: t))).
Proof.
  intros Ht Hf Hc. cbn [line_starts next_line].
  rewrite (proj2 (Z.eqb_neq c NUL)) by done. apply terminated_tail in Ht; [|done].
  cbn [app]. destruct (c =? NL); [|rewrite <- line_starts_next by done];
    simpl; by destruct (f (c :: t)).
Qed.

Section keyword_search.
Context (search : list (text * nat)) (Hs : Forall keyword_ok search).

Definition candidate (u : text) : option (Z * text) := line_keyword search 0 (trim u).

Lemma candidate_end u : candidate (NUL :: u) = None.
Proof. apply (line_keyword_end search 0 u Hs). Qed.

Lemma candidates_step t c u :
  terminated t = true -> trim t = c :: u ->
  head (omap candidate (line_starts true t)) =
  (if c =? NUL then None else
   match line_keyword search 0 (c :: u) with
   | Some r => Some r
   | None => head (omap candidate (line_starts true (next_line (c :: u))))
   end).
Proof.
  intros Ht Htrim. destruct (terminated_nonempty t Ht) as (x & t' & ->).
  assert (candidate (x :: t') = line_keyword search 0 (c :: u)) as Hc
    by (unfold candidate; by rewrite Htrim).
  destruct (decide (x = NUL)) as [->|Hx].
  { cbn in Htrim. injection Htrim as <- <-. cbn [line_starts]. rewrite Z.eqb_refl. simpl.
    by rewrite candidate_end. }
  rewrite (line_starts_step candidate x t') by auto using candidate_end.
  rewrite Hc, <- (next_line_trim (x :: t')), Htrim.
  destruct (Z.eqb_spec c NUL) as [->|]; [|by destruct (line_keyword _ _ _)].
  rewrite line_keyword_end by done. cbn [next_line]. rewrite Z.eqb_refl.
  cbn [line_starts]. rewrite Z.eqb_refl. simpl. by rewrite candidate_end.
Qed.

Lemma scan_multi_loop_spec fuel t :
  terminated t = true -> (length t < fuel)%nat ->
  scan_multi_loop fuel t search =
  Ok (default (-1, drop (length (body t)) t) (head (omap candidate (line_starts true t)))).
Proof.
  revert t. induction fuel as [|fuel IH]; intros t Ht Hfuel; [lia|].
  cbn [scan_multi_loop]. rewrite skip_blanks_trim by done. cbn [mbind cres_bind].
  pose proof (trim_terminated t Ht) as Ht'. pose proof (trim_length t) as Hlen.
  rewrite <- body_trim.
  destruct (trim t) as [|c u] eqn:Htrim; [done|]. cbn [deref mbind cres_bind].
  rewrite (candidates_step t c u) by done. cbn [body].
  change NUL with 0. destruct (Z.eqb_spec c 0) as [->|Hc]; [done|].
  rewrite match_keyword_spec by done. cbn [mbind cres_bind].
  destruct (line_keyword search 0 (c :: u)) as [r|]; [done|].
  rewrite skip_line_next by done. cbn [mbind cres_bind].
  pose proof (next_line_length c u Hc). simpl in Hlen.
  rewrite IH by (auto with scan; lia).
  pose proof (body_next_line (c :: u)) as Hb. cbn [body] in Hb.
  rewrite (proj2 (Z.eqb_neq c 0)) in Hb by done. by rewrite Hb.
Qed.
End keyword_search.

Lemma scan_single_loop_multi fuel t kw len :
  scan_single_loop fuel t kw len =
  (r ← scan_multi_loop fuel t [(kw, len)];
   Ok (if r.1 =? -1 then None else Some r.2)).
Proof.
  revert t. induction fuel as [|fuel IH]; intros t; [done|].
  cbn [scan_single_loop scan_multi_loop].
  destruct (skip_blanks t) as [u|]; [|done]. cbn [mbind cres_bind].
  destruct (deref u) as [c|]; [|done]. cbn [mbind cres_bind].
  destruct (c =? NUL); [done|]. cbn [match_keyword].
  destruct (strncmp u kw len) as [r|]; [|done]. cbn [mbind cres_bind].
  destruct (r =? 0).
  - destruct (advance len u) as [v|]; [|done]. cbn [mbind cres_bind].
    by destruct (skip_blanks v).
  - cbn [mbind cres_bind]. destruct (skip_line u) as [v|]; [|done]. apply IH.
Qed.

(** On every terminated string the keyword search terminates without
    reading past the end and finds the first line that begins, after blanks,
    with one of the keywords, returning that keyword's index and the position
    after it; scan_single is the search for one keyword. *)
Lemma scan_multi_first_keyword str search :
  terminated str = true -> Forall keyword_ok search ->
  let found := head (omap (fun u => line_keyword search 0 (trim u)) (line_starts true str)) in
  scan_multi str search = Ok (default (-1, drop (length (body str)) str) found) /\
  (forall kw len, search = [(kw, len)] -> scan_single str kw len = Ok (snd <$> found)).
Proof.
  intros Ht Hs found.
  pose proof (scan_multi_loop_spec search Hs (S (length str)) str Ht ltac:(lia)) as Hm.
  split; [exact Hm|]. intros kw len ->. unfold scan_single.
  rewrite scan_single_loop_multi, Hm. cbn [mbind cres_bind].
  change (head (omap (candidate [(kw, len)]) (line_starts true str))) with found.
  destruct found as [[i u]|] eqn:Hf; [|done]. cbn.
  assert (i = 0) as ->; [|done]. subst found.
  destruct (omap _ _) as [|r l] eqn:Ho in Hf; [done|]. injection Hf as ->.
  assert ((i, u) ∈ omap (fun u => line_keyword [(kw, len)] 0 (trim u)) (line_starts true str))
    as Hin by (rewrite Ho; left).
  apply list_elem_of_omap in Hin as (v & _ & Hv). cbn [line_keyword] in Hv.
  by destruct (decide _); simplify_eq.
Qed.

(** * Table-driven scanning *)

Lemma table_at_ascii table c : 0 <= c < 128 -> table_at table c = Ok (table c).
Proof.
  intros Hc. unfold table_at. rewrite wrap_small by (change (2 ^ 32) with 4294967296; lia).
  by rewrite (proj2 (Z.ltb_lt _ _)) by lia.
Qed.

Lemma take_while_length p t : (length (take_while p t) <= length t)%nat.
Proof. induction t as [|c t IH]; simpl; [done|]. destruct (p c); simpl; lia. Qed.

Lemma take_while_all p t : Forall (fun c => p c = true) (take_while p t).
Proof. induction t as [|c t IH]; simpl; [constructor|]. destruct (p c) eqn:?; by constructor. Qed.

Lemma take_while_prefix p t : take (length (take_while p t)) t = take_while p t.
Proof. induction t as [|c t IH]; simpl; [done|]. destruct (p c); simpl; [by rewrite IH|done]. Qed.

Lemma take_while_app p l t :
  Forall (fun c => p c = true) l -> (exists c t', t = c :: t' /\ p c = false) ->
  take_while p (l ++ t) = l.
Proof.
  intros Hl (c & t' & -> & Hc). induction Hl as [|x l Hx Hl IH]; simpl; [by rewrite Hc|].
  by rewrite Hx, IH.
Qed.

Lemma span_table_spec wanted table t :
  terminated t = true ->
  span_table wanted table t = Ok (length (take_while (accepted wanted table) t)).
Proof.
  induction t as [|c t IH]; intros Ht; [done|]. cbn [span_table take_while].
  unfold accepted at 1. destruct (Z.eqb_spec c NUL) as [->|Hc]; [done|].
  apply terminated_cons in Ht as [Hr Ht]; [|done]. cbn [negb andb].
  rewrite table_at_ascii by lia. cbn [mbind cres_bind].
  destruct (Bool.eqb (table c) wanted); [|done]. by rewrite IH.
Qed.

Lemma strncpy_exact t n :
  (n <= length t)%nat -> Forall (fun c => c <> 0) (take n t) -> strncpy t n = Ok (take n t).
Proof.
  revert t. induction n as [|n IH]; intros t Hn Ht; [by destruct t|].
  destruct t as [|c t]; simpl in *; [lia|]. apply Forall_cons in Ht as [Hc Ht].
  rewrite (proj2 (Z.eqb_neq c 0)) by done. by rewrite IH by (done || lia).
Qed.

Lemma accepted_nonzero wanted table t :
  Forall (fun c => c <> 0) (take_while (accepted wanted table) t).
Proof.
  eapply Forall_impl; [apply take_while_all|]. cbv beta. unfold accepted, NUL.
  intros c [?%negb_true_iff%Z.eqb_neq _]%andb_true_iff. done.
Qed.

Lemma scan_body2_spec wanted table str res reslen :
  terminated str = true -> reslen <= Z.of_nat (length res) ->
  let w := take_while (accepted wanted table) (trim str) in
  scan_body2 wanted table str res reslen =
  Ok (if reslen <=? Z.of_nat (length w) then (-1, res, str)
      else (Z.of_nat (length w), w ++ NUL :: drop (S (length w)) res,
            drop (length w) (trim str))).
Proof.
  intros Ht Hres w. unfold scan_body2. rewrite skip_blanks_trim by done.
  cbn [mbind cres_bind]. rewrite span_table_spec by auto with scan. cbn [mbind cres_bind].
  fold w. destruct (Z.leb_spec reslen (Z.of_nat (length w))); [done|].
  rewrite strncpy_exact.
  - cbn [mbind cres_bind]. unfold w. rewrite take_while_prefix. fold w.
    rewrite write_front_ok by (rewrite length_app; simpl; lia). cbn [mbind cres_bind].
    rewrite length_app. cbn [length]. rewrite Nat.add_1_r, <- app_assoc. done.
  - apply take_while_length.
  - unfold w. rewrite take_while_prefix. apply accepted_nonzero.
Qed.

(** The copying table scanners are memory safe on every terminated
    string: with a destination of at least [reslen] bytes they never write
    outside it, never move the scan pointer past the terminator, and either
    copy the whole run of accepted characters, NUL-terminated, or leave
    destination and pointer alone and return -1. *)
Lemma scan_table_copy_bounds wanted table str res reslen :
  terminated str = true -> reslen <= Z.of_nat (length res) ->
  let scan := if wanted : bool then scan_table_copy else scan_not_table_copy in
  let w := take_while (accepted wanted table) (trim str) in
  exists n res' str',
    scan str table res reslen = Ok (n, res', str') /\
    length res' = length res /\ terminated str' = true /\
    (if reslen <=? Z.of_nat (length w)
     then n = -1 /\ res' = res /\ str' = str
     else n = Z.of_nat (length w) /\ take (S (length w)) res' = w ++ [NUL] /\
          w ++ str' = trim str).
Proof.
  intros Ht Hres scan w. pose proof (scan_body2_spec wanted table str res reslen Ht Hres) as Hs.
  fold w in Hs. cbv zeta in Hs.
  assert (scan str table res reslen = scan_body2 wanted table str res reslen) as ->
    by (by destruct wanted).
  rewrite Hs. destruct (Z.leb_spec reslen (Z.of_nat (length w))); do 3 eexists; split; try done.
  assert (take (length w) (trim str) = w) as Hw by apply take_while_prefix.
  split; [|split; [|split; [done|split]]].
  - rewrite length_app, length_cons, length_drop. lia.
  - apply terminated_drop; [by auto with scan|]. rewrite Hw. apply accepted_nonzero.
  - rewrite (cons_middle NUL), app_assoc, take_app_length'; [done|].
    rewrite length_app. simpl. lia.
  - rewrite <- Hw at 1. apply take_drop.
Qed.

(** A [char] with the high bit set is an index outside the table. *)
Lemma scan_table_high_byte wanted table c t :
  - 128 <= c < 0 -> scan_body wanted table (c :: t) = Fault OutOfBounds.
Proof.
  intros Hc. unfold scan_body. cbn [skip_blanks]. unfold SP, NUL.
  rewrite (proj2 (Z.eqb_neq c 32)) by lia. cbn [mbind cres_bind span_table].
  change NUL with 0. rewrite (proj2 (Z.eqb_neq c 0)) by lia.
  unfold table_at, wrap. change (2 ^ 32) with 4294967296.
  pose proof (Z.div_mod c 4294967296 ltac:(lia)).
  pose proof (Z.mod_pos_bound c 4294967296 ltac:(lia)).
  assert (c mod 4294967296 = c + 4294967296).
  { symmetry. apply Z.mod_unique with (-1); lia. }
  by rewrite (proj2 (Z.ltb_ge _ _)) by lia.
Qed.

(** * Connector specifiers round-trip *)

Definition print_connstr (nm : text) (idx : Z) : text :=
  nm ++ ch "[" :: format_d idx ++ [ch "]"].
Definition print_connstraddr (addr : Z) (nm : text) (idx : Z) : text :=
  format_x false addr ++ ch ":" :: print_connstr nm idx.

Definition after_comma (t : text) : text :=
  match t with c :: t' => if c =? ch "," then t' else t | [] => [] end.

Definition name_ok (nm : text) : Prop :=
  (0 < length nm < 8)%nat /\ Forall (fun c => id_table c = true) nm.

Ltac bool_ranges :=
  repeat match goal with
  | H : _ || _ = true |- _ => apply orb_true_iff in H as [H|H]
  | H : _ && _ = true |- _ => apply andb_true_iff in H as [? H]
  | H : (_ <=? _) = true |- _ => apply Z.leb_le in H
  | H : (_ =? _) = true |- _ => apply Z.eqb_eq in H
  end.

Lemma id_table_code c :
  id_table c = true -> 97 <= c <= 122 \/ 65 <= c <= 90 \/ 48 <= c <= 57 \/ c = 95.
Proof.
  unfold id_table, in_range. eval_chars. intros H. bool_ranges; lia.
Qed.

Lemma hex_table_digit c : is_digit 16 c = true -> hex_table c = true.
Proof.
  intros H. apply is_digit_code in H. unfold hex_table, in_range.
  eval_chars.
  destruct H as [H|[H|H]]; lia.
Qed.

Lemma trim_nonblank c t : c <> SP -> trim (c :: t) = c :: t.
Proof. intros. cbn [trim]. by rewrite (proj2 (Z.eqb_neq c SP)). Qed.

Lemma trim_blanks n t : trim (replicate n SP ++ t) = trim t.
Proof. induction n as [|n IH]; [done|]. exact IH. Qed.

Lemma trim_app l t :
  l <> [] -> Forall (fun c => c <> SP) l -> trim (l ++ t) = l ++ t.
Proof. intros Hne Hl. destruct Hl; [done|]. by apply trim_nonblank. Qed.

Lemma skip_past_app stop l t :
  stop <> NUL -> Forall (fun c => c <> NUL /\ c <> stop) l ->
  skip_past stop (l ++ stop :: t) = Ok t.
Proof.
  intros Hstop. induction 1 as [|c l [H1 H2] Hl IH]; cbn [app skip_past].
  - by rewrite (proj2 (Z.eqb_neq stop NUL)), Z.eqb_refl by done.
  - by rewrite (proj2 (Z.eqb_neq c NUL)), (proj2 (Z.eqb_neq c stop)) by done.
Qed.

Lemma digits_ascii base n :
  2 <= base <= 16 -> 0 <= n ->
  Forall (fun c => 48 <= c <= 57 \/ 97 <= c <= 102 \/ 65 <= c <= 70) (digits false base n).
Proof.
  intros Hb Hn. eapply Forall_impl; [by apply (digits_all false base Hb n Hn)|].
  intros c. apply is_digit_code.
Qed.

Lemma print_connstr_terminated nm idx rest :
  name_ok nm -> 0 <= idx -> terminated rest = true ->
  terminated (print_connstr nm idx ++ rest) = true.
Proof.
  intros [_ Hnm] Hidx Hrest. unfold print_connstr, format_d.
  rewrite (proj2 (Z.ltb_ge _ _)) by lia. apply terminated_app; [|done].
  apply Forall_app; split; [eapply Forall_impl; [exact Hnm|]; intros c ?%id_table_code; lia|].
  constructor; [done|]. apply Forall_app; split; [|by repeat constructor].
  eapply Forall_impl; [apply (digits_ascii 10); lia|]. simpl. lia.
Qed.

Lemma sscanf_llx_digits n t :
  0 <= n < 2 ^ 64 -> (exists t', t = ch ":" :: t') ->
  sscanf_llx (format_x false n ++ t) = Ok (Some n).
Proof.
  intros Hn (t' & ->). unfold format_x.
  pose proof (digits_all false 16 ltac:(lia) n ltac:(lia)) as Hall.
  pose proof (scan_digits_run 16 _ (ch ":" :: t') 0 Hall ltac:(by do 2 eexists)) as Hscan.
  rewrite digits_value_eq in Hscan by lia.
  destruct (digits false 16 n) as [|c l] eqn:Heq; [by apply digits_nonempty in Heq|].
  apply Forall_cons in Hall as [Hc Hl]. pose proof (is_digit_code _ _ Hc) as Hcode.
  unfold sscanf_llx. cbn [app skip_space].
  assert (isspace c = false) as -> by (unfold isspace; lia).
  cbn [mbind cres_bind deref].
  rewrite (proj2 (Z.eqb_neq c 45)), (proj2 (Z.eqb_neq c 43)) by lia.
  cbn [mbind cres_bind deref drop].
  assert (exists d u, l ++ ch ":" :: t' = d :: u /\ (d =? 120) || (d =? 88) = false)
    as (d & u & Hd & Hx).
  { destruct l as [|d l]; do 2 eexists; (split; [done|]); [done|].
    apply Forall_cons in Hl as [Hd%is_digit_code _]. lia. }
  rewrite Hd. cbn [deref drop mbind cres_bind]. rewrite Hx, <- Hd.
  assert ((if c =? 48 then Ok (c :: l ++ ch ":" :: t') else Ok (c :: l ++ ch ":" :: t'))
    = Ok (c :: l ++ ch ":" :: t')) as -> by (by destruct (c =? 48)).
  cbn [deref mbind cres_bind]. rewrite Hc. cbn [negb]. cbn [app] in Hscan.
  rewrite Hscan. cbn [mbind cres_bind fst].
  by rewrite (proj2 (Z.ltb_lt _ _)) by lia.
Qed.

Lemma scan_connstr_print nm idx rest conn :
  name_ok nm -> 0 <= idx < 2 ^ 31 -> length (conn_name conn) = 8%nat ->
  terminated rest = true ->
  scan_connstr (print_connstr nm idx ++ rest) conn =
  Ok (true, after_comma rest,
      {| conn_addr := conn_addr conn; conn_index := idx;
         conn_name := nm ++ NUL :: drop (S (length nm)) (conn_name conn) |}).
Proof.
  intros Hok Hidx Hlen Hrest. pose proof Hok as [Hnl Hnm].
  pose proof (print_connstr_terminated nm idx rest Hok ltac:(lia) Hrest) as Hterm.
  unfold scan_connstr. rewrite skip_blanks_trim by done. cbn [mbind cres_bind].
  unfold print_connstr, format_d in *. rewrite (proj2 (Z.ltb_ge _ _)) in * by lia.
  rewrite <- !app_assoc in *. cbn [app] in *. rewrite <- !app_assoc in *. cbn [app] in *.
  assert (Forall (fun c => accepted true id_table c = true) nm) as Hacc.
  { eapply Forall_impl; [exact Hnm|]. intros c Hc. unfold accepted.
    pose proof (id_table_code c Hc). rewrite Hc. change NUL with 0. lia. }
  rewrite trim_app; [|by destruct nm; simpl in *; [lia|]|
    eapply Forall_impl; [exact Hnm|]; intros c ?%id_table_code; change SP with 32; lia].
  unfold scan_table_copy. rewrite scan_body2_spec by (done || (unfold sizeof_sname; lia)).
  rewrite trim_app; [|by destruct nm; simpl in *; [lia|]|
    eapply Forall_impl; [exact Hnm|]; intros c ?%id_table_code; change SP with 32; lia].
  rewrite take_while_app by (done || by do 2 eexists).
  rewrite (proj2 (Z.leb_gt _ _)) by (unfold sizeof_sname; lia).
  cbn [mbind cres_bind]. rewrite drop_app_length. cbn [deref mbind cres_bind].
  rewrite Z.eqb_refl. cbn [drop]. rewrite !drop_0.
  rewrite (sscanf_d_digits idx (ch "]" :: rest)) by (done || by do 2 eexists).
  cbn [mbind cres_bind].
  rewrite skip_past_app; [|done|].
  2:{ eapply Forall_impl; [apply (digits_ascii 10); lia|].
      intros c Hc. change (ch "]") with 93. change NUL with 0. cbv beta in Hc. lia. }
  cbn [mbind cres_bind negb].
  destruct (terminated_nonempty rest Hrest) as (c & rest' & ->).
  cbn [deref mbind cres_bind after_comma drop].
  assert ((Z.of_nat (length nm) <=? 0) = false) as Hcount by lia.
  destruct (Z.eqb_spec c (ch ",")) as [->|Hc].
  - apply terminated_tail in Hrest; [|done].
    destruct (terminated_nonempty rest' Hrest) as (d & rest & ->).
    rewrite drop_0. cbn [deref mbind cres_bind]. by rewrite Hcount, andb_false_r.
  - cbn [deref mbind cres_bind]. by rewrite Hcount, andb_false_r.
Qed.

(** C36: a connector specifier survives printing and scanning.  For every
    64-bit address, every identifier that fits the name field and every
    non-negative index, scanning the text [addr:name[index]], after blanks and
    with anything behind it, succeeds and restores the address, the
    NUL-terminated name and the index, leaving the pointer behind the
    specifier and the comma that separates it from the next one. *)
Theorem connstraddr_roundtrip n addr nm idx rest conn :
  0 <= addr < 2 ^ 64 -> name_ok nm -> 0 <= idx < 2 ^ 31 ->
  length (conn_name conn) = 8%nat -> terminated rest = true ->
  scan_connstraddr (replicate n SP ++ print_connstraddr addr nm idx ++ rest) conn =
  Ok (true, after_comma rest,
      {| conn_addr := addr; conn_index := idx;
         conn_name := nm ++ NUL :: drop (S (length nm)) (conn_name conn) |}).
Proof.
  intros Haddr Hok Hidx Hlen Hrest.
  pose proof (print_connstr_terminated nm idx rest Hok ltac:(lia) Hrest) as Hterm.
  unfold print_connstraddr. rewrite <- app_assoc. cbn [app].
  assert (Forall (fun c => 48 <= c <= 57 \/ 97 <= c <= 102 \/ 65 <= c <= 70)
    (format_x false addr)) as Hhex by (apply digits_ascii; lia).
  assert (terminated (format_x false addr ++ ch ":" :: print_connstr nm idx ++ rest) = true)
    as Hterm'.
  { apply terminated_app; [|done]. eapply Forall_impl; [exact Hhex|]. simpl. lia. }
  unfold scan_connstraddr. rewrite skip_blanks_trim.
  2:{ apply terminated_app; [|done]. by apply Forall_replicate. }
  assert (trim (format_x false addr ++ ch ":" :: print_connstr nm idx ++ rest) =
    format_x false addr ++ ch ":" :: print_connstr nm idx ++ rest) as Htrim.
  { apply trim_app; [apply digits_nonempty|].
    eapply Forall_impl; [exact Hhex|]. intros c Hc. cbv beta in Hc. change SP with 32. lia. }
  rewrite trim_blanks, Htrim. cbn [mbind cres_bind].
  rewrite sscanf_llx_digits by (done || by eexists). cbn [mbind cres_bind].
  unfold scan_table, scan_body. rewrite skip_blanks_trim, Htrim by done. cbn [mbind cres_bind].
  rewrite span_table_spec by done. cbn [mbind cres_bind snd].
  rewrite take_while_app; [|eapply Forall_impl; [apply (digits_all false 16); lia|]|by do 2 eexists].
  2:{ intros c Hc. unfold accepted. rewrite (hex_table_digit c Hc).
      apply is_digit_code in Hc. change NUL with 0. lia. }
  rewrite drop_app_length. cbn [deref mbind cres_bind]. rewrite Z.eqb_refl.
  cbn [negb drop]. rewrite drop_0. by rewrite scan_connstr_print.
Qed.

Lemma scan_single_hit kw len t :
  keyword_ok (kw, len) -> terminated t = true -> take len kw `prefix_of` trim t ->
  scan_single t kw len = Ok (Some (trim (drop len (trim t)))).
Proof.
  intros Hk Ht Hpre. pose proof (trim_terminated t Ht) as Ht'. unfold scan_single.
  cbn [scan_single_loop]. rewrite skip_blanks_trim by done. cbn [mbind cres_bind].
  destruct (strncmp_keyword (trim t) kw len Ht' Hk) as (r & Hr & Hz).
  destruct (drop_keyword (trim t) kw len Ht' Hk Hpre) as [Ha Hd].
  rewrite Hr, Ha. rewrite bool_decide_true in Hz by done.
  destruct (trim t) as [|c u]; [done|]. cbn [deref mbind cres_bind].
  assert (c <> NUL) as Hc.
  { destruct Hk as [Hlen Hk], Hpre as [v Hv]; simpl in *.
    destruct len as [|len]; [lia|]. destruct kw as [|x kw]; simpl in *; [lia|].
    simplify_eq/=. apply Forall_cons in Hk as [Hk _]. change NUL with 0. lia. }
  rewrite (proj2 (Z.eqb_neq c NUL)), Hz by done. by rewrite skip_blanks_trim.
Qed.

Lemma span_chars_spec p t :
  terminated t = true -> p NUL = false -> span_chars p t = Ok (length (take_while p t)).
Proof.
  intros Ht Hp. induction t as [|c t IH]; [done|]. cbn [span_chars take_while].
  destruct (p c) eqn:Hc; [|done]. apply terminated_tail in Ht; [by rewrite IH|].
  intros ->. change NUL with 0 in Hp. congruence.
Qed.

Lemma copy_str_exact dst maxlen w t :
  Forall (fun c => c <> 0) w -> Z.of_nat (length w) < maxlen <= Z.of_nat (length dst) ->
  copy_str dst maxlen (w ++ t) 0 (Z.of_nat (length w)) =
  Ok (w ++ NUL :: drop (S (length w)) dst).
Proof.
  intros Hw Hlen. unfold copy_str. rewrite Z.sub_0_r. cbn [Z.ltb Z.compare orb].
  rewrite (proj2 (Z.ltb_ge _ _)) by lia. rewrite (proj2 (Z.leb_gt _ _)) by lia.
  rewrite (proj2 (Z.ltb_ge _ _)) by lia. rewrite Nat2Z.id. cbn [Z.to_nat].
  unfold advance. rewrite decide_True by lia. rewrite drop_0. cbn [mbind cres_bind].
  rewrite strncpy_exact; rewrite ?take_app_length; [|rewrite length_app; lia|done].
  cbn [mbind cres_bind]. rewrite write_front_ok; rewrite length_app; cbn [length]; [|lia].
  rewrite Nat.add_1_r, <- app_assoc. done.
Qed.

Lemma drop_head_Forall (P : Z -> Prop) l k t :
  Forall P l -> (k < length l)%nat -> exists c u, drop k (l ++ t) = c :: u /\ P c.
Proof.
  intros Hl. revert k. induction Hl as [|x l Hx Hl IH]; intros k Hk; simpl in *; [lia|].
  destruct k as [|k]; [by do 2 eexists|]. apply IH. lia.
Qed.

(** A position in a bracketed index does not hold an opening bracket. *)
Lemma index_text idx rest :
  0 <= idx -> terminated rest = true ->
  let l := format_d idx ++ ch "]" :: rest in
  terminated l = true /\ trim l = l /\
  (exists d u, l = d :: u /\ 48 <= d <= 57) /\
  (forall k, (k <= length (format_d idx))%nat -> exists c u, drop k l = c :: u /\ c <> ch "[").
Proof.
  intros Hidx Hrest l. subst l. unfold format_d. rewrite (proj2 (Z.ltb_ge _ _)) by lia.
  pose proof (digits_all false 10 ltac:(lia) idx Hidx) as Hall.
  pose proof (digits_nonempty false 10 idx) as Hne.
  assert (Forall (fun c => 48 <= c <= 57) (digits false 10 idx)) as Hcode.
  { eapply Forall_impl; [exact Hall|]. unfold is_digit, digit_value. intros c Hc.
    repeat case_match; simplify_eq/=; try done; lia. }
  split; [|split; [|split]].
  - apply terminated_app; [eapply Forall_impl; [exact Hcode|]; simpl; lia|].
    eapply (terminated_app [_]); [by repeat constructor|done].
  - apply trim_app; [done|]. eapply Forall_impl; [exact Hcode|]. change SP with 32. simpl. lia.
  - destruct (digits false 10 idx) as [|d u]; [done|]. apply Forall_cons in Hcode as [Hd _].
    by do 2 eexists.
  - intros k Hk. change (ch "]" :: rest) with ([ch "]"] ++ rest). rewrite app_assoc.
    apply drop_head_Forall; [|rewrite length_app; simpl; lia].
    apply Forall_app; split; [|constructor; [by eval_chars|constructor]].
    eapply Forall_impl; [exact Hcode|]. eval_chars. simpl. lia.
Qed.

(** A bracketed index read as an operator. *)
Lemma parse_op_bracket idx rest :
  0 <= idx -> terminated rest = true ->
  parse_op (ch "[" :: format_d idx ++ ch "]" :: rest) = Ok (0, format_d idx ++ ch "]" :: rest).
Proof.
  intros Hidx Hrest.
  destruct (index_text idx rest Hidx Hrest) as (Ht & Htrim & (d & u & Hd & Hdig) & _).
  unfold parse_op. cbn [deref mbind cres_bind drop]. rewrite drop_0, Hd.
  cbn [deref mbind cres_bind drop]. eval_chars.
  rewrite (proj2 (Z.eqb_neq d 61)) by lia. by rewrite <- Hd, skip_blanks_trim, Htrim.
Qed.

(** The rest of the line at a position. *)
Definition rest_of_line (t : text) : text := take_while line_char t.

(** [parse_connector] does not see the index.  It tests for the opening
    bracket at [found[pos]] after it has already moved [found] by [pos], so
    for every connector name no longer than the bracketed digits the index is
    reported as 0, the operator as absent, and everything up to the end of
    the line, digits, bracket and operator included, as the other side. *)
Theorem parse_connector_ignores_index nm idx rest o len_name len_other :
  name_ok nm -> Forall (fun c => name_char c = true) nm -> 0 <= idx ->
  (length nm <= S (length (format_d idx)))%nat -> terminated rest = true ->
  let v := rest_of_line (format_d idx ++ ch "]" :: rest) in
  Z.of_nat (length nm) < len_name <= Z.of_nat (length (out_name o)) ->
  Z.of_nat (length v) < len_other <= Z.of_nat (length (out_other o)) ->
  exists n, parse_connector (chars "connect " ++ print_connstr nm idx ++ rest)
      len_name len_other o =
    Ok (n, {| out_name := nm ++ NUL :: drop (S (length nm)) (out_name o);
              out_index := 0; out_op := 0;
              out_other := v ++ NUL :: drop (S (length v)) (out_other o);
              out_reslen := Z.of_nat (length v) |}).
Proof.
  intros Hok Hnm Hidx Hshort Hrest v Hln Hlo.
  pose proof (print_connstr_terminated nm idx rest Hok Hidx Hrest) as Hterm.
  assert (terminated (chars "connect " ++ print_connstr nm idx ++ rest) = true) as Hterm'.
  { by apply terminated_app; [repeat constructor|]. }
  unfold parse_connector.
  rewrite scan_single_hit; [|split; [simpl; lia|by repeat constructor]|done|by eexists].
  cbn [mbind cres_bind].
  destruct (index_text idx rest Hidx Hrest) as (Ht & Htrim & (d & u & Hd & Hdig) & Hpos).
  set (l := format_d idx ++ ch "]" :: rest) in *.
  assert (trim (drop 7 (trim (chars "connect " ++ print_connstr nm idx ++ rest)))
    = nm ++ ch "[" :: l) as ->.
  { transitivity (trim (print_connstr nm idx ++ rest)); [done|]. unfold print_connstr.
    rewrite <- app_assoc. cbn [app]. rewrite <- app_assoc. destruct Hok as [Hl Hn].
    apply trim_app; [by destruct nm; simpl in *; [lia|]|].
    eapply Forall_impl; [exact Hn|]. intros c ?%id_table_code. change SP with 32. lia. }
  assert (terminated (ch "[" :: l) = true) as Htl
    by (apply (terminated_app [_]); [by repeat constructor|done]).
  assert (Forall (fun c => 0 < c < 128) nm) as Hasc.
  { destruct Hok as [_ Hn]. eapply Forall_impl; [exact Hn|]. intros c ?%id_table_code. lia. }
  rewrite span_chars_spec by (done || by apply terminated_app).
  rewrite take_while_app by (done || by do 2 eexists). cbn [mbind cres_bind].
  rewrite copy_str_exact by (done || (eapply Forall_impl; [exact Hasc|]; simpl; lia)).
  cbn [mbind cres_bind]. rewrite drop_app_length.
  destruct Hok as [Hnl _]. destruct (Hpos (pred (length nm)) ltac:(lia)) as (c & w & Hw & Hc).
  assert (drop (length nm) (ch "[" :: l) = c :: w) as Hat
    by (destruct (length nm); [lia|exact Hw]).
  rewrite (advance_ok (length nm)), Hat by (apply (f_equal length) in Hat;
    rewrite length_drop in Hat; simpl in *; lia). cbn [deref mbind cres_bind]. rewrite (proj2 (Z.eqb_neq c _)) by done.
  cbn [mbind cres_bind]. rewrite skip_blanks_trim, trim_nonblank by done.
  cbn [mbind cres_bind]. unfold l. rewrite parse_op_bracket by done. fold l.
  cbn [mbind cres_bind]. rewrite Hd. cbn [deref mbind cres_bind]. change NUL with 0.
  rewrite (proj2 (Z.eqb_neq d 0)) by lia. rewrite <- Hd.
  rewrite span_chars_spec by done. cbn [mbind cres_bind].
  fold (rest_of_line l). fold v.
  assert (l = v ++ drop (length v) l) as Hsplit.
  { rewrite <- (take_drop (length v) l) at 1. f_equal. apply take_while_prefix. }
  pose proof (copy_str_exact (out_other o) len_other v (drop (length v) l)) as Hcopy.
  rewrite <- Hsplit in Hcopy. unfold upd. cbn [out_other]. rewrite Hcopy; [by eexists| |done].
  eapply Forall_impl; [apply take_while_all|]. unfold line_char. change NUL with 0.
  change NL with 10. simpl. lia.
Qed.

(** * Concrete runs *)

Lemma scan_multi_first_keyword_witness :
  scan_multi (cstr "# a  brick
  input x
output y") [(cstr "output", 6%nat); (cstr "input", 5%nat)] = Ok (1, cstr "x
output y").
Proof.
  rewrite (proj1 (scan_multi_first_keyword (cstr "# a  brick
  input x
output y") [(cstr "output", 6%nat); (cstr "input", 5%nat)] eq_refl
    ltac:(repeat constructor; simpl; lia))).
  vm_compute. reflexivity.
Defined.

Lemma scan_table_copy_bounds_witness :
  exists n res' str',
    scan_table_copy (cstr "  in[2]") id_table (replicate 8 7) 8 = Ok (n, res', str') /\
    n = 2 /\ take 3 res' = chars "in" ++ [NUL].
Proof.
  destruct (scan_table_copy_bounds true id_table (cstr "  in[2]") (replicate 8 7) 8
    eq_refl ltac:(vm_compute; discriminate)) as (n & res' & str' & H1 & _ & _ & H2).
  exists n, res', str'. split; [exact H1|].
  change (n = 2 /\ take 3 res' = chars "in" ++ [NUL] /\
    chars "in" ++ str' = trim (cstr "  in[2]")) in H2.
  split; apply H2.
Defined.

Definition blank_conn : conn_info :=
  {| conn_addr := 0; conn_index := 0; conn_name := replicate 8 0 |}.

Lemma connstraddr_roundtrip_witness :
  scan_connstraddr (cstr " 1f00:tmp[3],20:x[0]") blank_conn =
  Ok (true, cstr "20:x[0]",
      {| conn_addr := 0x1f00; conn_index := 3; conn_name := chars "tmp" ++ replicate 5 0 |}).
Proof.
  apply (connstraddr_roundtrip 1 0x1f00 (chars "tmp") 3 (cstr ",20:x[0]") blank_conn);
    [lia | split; [simpl; lia | repeat constructor] | lia | reflexivity | reflexivity].
Defined.

Lemma parse_connector_ignores_index_witness :
  exists n, parse_connector (cstr "connect in[7] := 1f00:out[0]") 8 64
    {| out_name := replicate 8 1; out_index := 5; out_op := 5;
       out_other := replicate 64 1; out_reslen := 0 |} =
  Ok (n, {| out_name := chars "in" ++ 0 :: replicate 5 1; out_index := 0; out_op := 0;
            out_other := chars "7] := 1f00:out[0]" ++ 0 :: replicate 46 1;
            out_reslen := 17 |}).
Proof.
  apply (parse_connector_ignores_index (chars "in") 7 (cstr " := 1f00:out[0]")
    {| out_name := replicate 8 1; out_index := 5; out_op := 5;
       out_other := replicate 64 1; out_reslen := 0 |} 8 64);
    [split; [simpl; lia | repeat constructor] | repeat constructor | lia
    | simpl; lia | reflexivity | simpl; lia | vm_compute; split; [reflexivity|discriminate]].
Defined.
