(* ===== verification/ParamScanner.v ===== *)
(** * Option strings of bricks: [param_scanner.c]

    The scanner for the parameter strings of bricks, lists of options
    [name], [name=value], [name="value"] and [name='value'] separated by
    white space.  A pointer is the suffix it points to and [None] is NULL. *)

From S2P Require Import Prelude CLib.
Open Scope Z_scope.

Definition param_nidchars : text := [TAB; CR; NL; SP; ch "="].
Definition param_delimchars : text := [TAB; CR; NL; SP].
Definition DQ : Z := 34.
Definition SQ : Z := 39.

(** [for(i = 0; start[i] != 0 && (strchr(toc, start[i]) != NULL) == listed; i++)] *)
Fixpoint span_toc (listed : bool) (start toc : text) : cres nat :=
  match start with
  | [] => Fault OutOfBounds
  | c :: start' =>
    if c =? 0 then Ok O else
    b ← strchr (toc ++ [0]) c;
    if Bool.eqb b listed then i ← span_toc listed start' toc; Ok (S i) else Ok O
  end.

Definition excl_len (start : option text) (toc : text) : cres nat :=
  match start with None => Ok O | Some p => span_toc false p toc end.

Definition incl_len (start : option text) (toc : text) : cres nat :=
  match start with None => Ok O | Some p => span_toc true p toc end.

Record option_read := {
  bytes_read : Z; r_name : option text; r_name_len : Z;
  r_val : option text; r_val_len : Z
}.

(** A value: the quotes are not part of it, and a closing quote is skipped
    without looking at it. *)
Definition next_val (p : text) : cres (text * nat * text * Z) :=
  c ← deref p;
  let quoted q :=
    let p := drop 1 p in
    len ← excl_len (Some p) [q];
    p' ← advance (len + 1) p;
    Ok (p, len, p', Z.of_nat (len + 1) + 1) in
  if c =? DQ then quoted DQ
  else if c =? SQ then quoted SQ
  else
    len ← excl_len (Some p) param_delimchars;
    Ok (p, len, drop len p, Z.of_nat len).

Definition next_opt (start : option text) : cres option_read :=
  match start with
  | None => Ok {| bytes_read := 0; r_name := None; r_name_len := 0;
                  r_val := None; r_val_len := 0 |}
  | Some p =>
    l0 ← incl_len (Some p) param_delimchars;
    let p := drop l0 p in
    let name := p in
    l1 ← excl_len (Some p) param_nidchars;
    let p := drop l1 p in
    l2 ← incl_len (Some p) param_delimchars;
    let p := drop l2 p in
    let r_sum := Z.of_nat l0 + Z.of_nat l1 + Z.of_nat l2 in
    c ← deref p;
    if c =? ch "=" then
      let p := drop 1 p in
      l3 ← incl_len (Some p) param_delimchars;
      let p := drop l3 p in
      v ← next_val p;
      let '(val, val_len, p, l4) := v in
      l5 ← incl_len (Some p) param_delimchars;
      Ok {| bytes_read := r_sum + 1 + Z.of_nat l3 + l4 + Z.of_nat l5;
            r_name := Some name; r_name_len := Z.of_nat l1;
            r_val := Some val; r_val_len := Z.of_nat val_len |}
    else
      Ok {| bytes_read := r_sum; r_name := Some name; r_name_len := Z.of_nat l1;
            r_val := None; r_val_len := 0 |}
  end.

(** [(cur_name_len>0) && (strncmp(cur_name, name, cur_name_len)==0)] *)
Definition name_matches (r : option_read) (name : text) : cres bool :=
  if 0 <? r_name_len r then
    match r_name r with
    | None => Fault OutOfBounds
    | Some cur => d ← strncmp cur name (Z.to_nat (r_name_len r)); Ok (d =? 0)
    end
  else Ok false.

(** [( *found, *val, *val_len)]; [val] and [val_len] say whether the caller
    passed a place for the result. *)
Fixpoint getopt_loop (fuel : nat) (p name : text) (val val_len : bool)
  : cres (bool * option text * Z) :=
  match fuel with
  | O => Fault OutOfFuel
  | S fuel' =>
    c ← deref p;
    if c =? 0 then Ok (false, None, 0) else
    r ← next_opt (Some p);
    p ← advance (Z.to_nat (bytes_read r)) p;
    m ← name_matches r name;
    if m : bool then
      if (0 <? r_val_len r) && val && val_len then Ok (true, r_val r, r_val_len r)
      else Ok (true, None, 0)
    else getopt_loop fuel' p name val val_len
  end.

Definition param_getopt (param name : option text) (val val_len : bool)
  : cres (bool * option text * Z) :=
  match param, name with
  | Some p, Some n => getopt_loop (S (length p)) p n val val_len
  | _, _ => Ok (false, None, 0)
  end.

Definition is_null {A} (p : option A) : bool :=
  match p with None => true | Some _ => false end.

(** [(return value, *val, *val_len)] *)
Fixpoint check_loop (fuel : nat) (p name : text) (val val_len : bool)
  : cres (bool * option text * Z) :=
  match fuel with
  | O => Fault OutOfFuel
  | S fuel' =>
    c ← deref p;
    if c =? 0 then Ok (false, None, 0) else
    r ← next_opt (Some p);
    p ← advance (Z.to_nat (bytes_read r)) p;
    m ← name_matches r name;
    if m : bool then
      if negb (Bool.eqb (is_null (r_val r)) (negb val)) then Ok (false, None, 0)
      else if val && val_len then Ok (true, r_val r, r_val_len r)
      else if negb val && negb val_len then Ok (true, None, 0)
      else Ok (false, None, 0)
    else check_loop fuel' p name val val_len
  end.

Definition param_check (param name : option text) (val val_len : bool)
  : cres (bool * option text * Z) :=
  match param, name with
  | Some p, Some n => check_loop (S (length p)) p n val val_len
  | _, _ => Ok (false, None, 0)
  end.

(** * The option language *)

Inductive quoting := Bare | Single | Double.

Record setting := { s_name : text; s_val : option (quoting * text); s_sep : text }.

Definition is_delim (c : Z) : bool := (c =? TAB) || (c =? CR) || (c =? NL) || (c =? SP).

Definition quote_of (q : quoting) : text :=
  match q with Bare => [] | Single => [SQ] | Double => [DQ] end.

Definition print_val (v : option (quoting * text)) : text :=
  match v with
  | None => []
  | Some (q, v) => ch "=" :: quote_of q ++ v ++ quote_of q
  end.

(** The settings in sequence, each followed by its separator. *)
Definition print_setting (s : setting) : text := s_name s ++ print_val (s_val s) ++ s_sep s.
Definition print_settings (l : list setting) : text := mjoin (print_setting <$> l).

Definition plain (c : Z) : Prop := 0 < c < 128.
Definition name_plain (c : Z) : Prop := plain c /\ is_delim c = false /\ c <> 61.

Definition val_ok (v : option (quoting * text)) : Prop :=
  match v with
  | None => True
  | Some (Bare, v) => v <> [] /\ Forall (fun c => plain c /\ is_delim c = false) v /\
                      head v <> Some SQ /\ head v <> Some DQ
  | Some (Single, v) => Forall (fun c => plain c /\ c <> SQ) v
  | Some (Double, v) => Forall (fun c => plain c /\ c <> DQ) v
  end.

Definition setting_ok (s : setting) : Prop :=
  s_name s <> [] /\ Forall name_plain (s_name s) /\ val_ok (s_val s) /\
  s_sep s <> [] /\ Forall (fun c => is_delim c = true) (s_sep s).

(** * Scanning printed options *)

Lemma strchr_spec toc c :
  Forall (fun x => x <> 0) toc -> c <> 0 ->
  strchr (toc ++ [0]) c = Ok (bool_decide (c ∈ toc)).
Proof.
  intros Ht Hc. induction Ht as [|x toc Hx Ht IH]; cbn [app strchr].
  - rewrite (proj2 (Z.eqb_neq 0 c)) by done. by rewrite bool_decide_false by set_solver.
  - destruct (Z.eqb_spec x c) as [->|Hne].
    + by rewrite bool_decide_true by set_solver.
    + rewrite (proj2 (Z.eqb_neq x 0)), IH by done. f_equal.
      apply bool_decide_ext. set_solver.
Qed.

Lemma span_toc_app listed toc l c u :
  Forall (fun x => x <> 0) toc ->
  Forall (fun x => x <> 0 /\ bool_decide (x ∈ toc) = listed) l ->
  c = 0 \/ bool_decide (c ∈ toc) = negb listed ->
  span_toc listed (l ++ c :: u) toc = Ok (length l).
Proof.
  intros Ht Hl Hc. induction Hl as [|x l [Hx Hin] Hl IH]; cbn [app span_toc].
  - destruct (Z.eqb_spec c 0) as [->|H0]; [done|]. destruct Hc as [?|Hc]; [done|].
    rewrite strchr_spec, Hc by done. cbn [mbind cres_bind]. by destruct listed.
  - rewrite (proj2 (Z.eqb_neq x 0)), strchr_spec, Hin by done. cbn [mbind cres_bind].
    rewrite Bool.eqb_reflx, IH. done.
Qed.

Lemma is_delim_in c : bool_decide (c ∈ param_delimchars) = is_delim c.
Proof.
  unfold is_delim, param_delimchars. apply eq_true_iff_eq.
  rewrite bool_decide_eq_true, !orb_true_iff, !Z.eqb_eq. set_unfold. tauto.
Qed.

Lemma not_name_in c : bool_decide (c ∈ param_nidchars) = is_delim c || (c =? 61).
Proof.
  unfold is_delim, param_nidchars. apply eq_true_iff_eq. eval_chars.
  rewrite bool_decide_eq_true, !orb_true_iff, !Z.eqb_eq. set_unfold. tauto.
Qed.

Lemma is_delim_code c : is_delim c = true -> c = 9 \/ c = 13 \/ c = 10 \/ c = 32.
Proof. unfold is_delim, TAB, CR, NL, SP. lia. Qed.

Lemma incl_delims l c u :
  Forall (fun c => is_delim c = true) l -> is_delim c = false ->
  incl_len (Some (l ++ c :: u)) param_delimchars = Ok (length l).
Proof.
  intros Hl Hc. apply span_toc_app; [by repeat constructor| |right; by rewrite is_delim_in].
  eapply Forall_impl; [exact Hl|]. intros x Hx. rewrite is_delim_in.
  split; [apply is_delim_code in Hx; lia|done].
Qed.

Lemma incl_none c u : is_delim c = false -> incl_len (Some (c :: u)) param_delimchars = Ok O.
Proof. apply (incl_delims []). constructor. Qed.

Lemma excl_name l c u :
  Forall name_plain l -> is_delim c = true \/ c = 61 ->
  excl_len (Some (l ++ c :: u)) param_nidchars = Ok (length l).
Proof.
  intros Hl Hc. apply span_toc_app; [by repeat constructor| |].
  - eapply Forall_impl; [exact Hl|]. intros x ([Hp _] & Hd & He). rewrite not_name_in, Hd.
    split; [lia|]. simpl. lia.
  - right. rewrite not_name_in. simpl. destruct Hc as [->| ->]; [done|apply orb_true_r].
Qed.

Lemma excl_quote q l u :
  q <> 0 -> Forall (fun c => plain c /\ c <> q) l ->
  excl_len (Some (l ++ q :: u)) [q] = Ok (length l).
Proof.
  intros Hq Hl. apply span_toc_app; [by repeat constructor| |].
  - eapply Forall_impl; [exact Hl|]. intros x [[Hp _] Hx].
    rewrite bool_decide_false by set_solver. split; [lia|done].
  - right. by rewrite bool_decide_true by set_solver.
Qed.

Lemma excl_bare l c u :
  Forall (fun c => plain c /\ is_delim c = false) l -> is_delim c = true ->
  excl_len (Some (l ++ c :: u)) param_delimchars = Ok (length l).
Proof.
  intros Hl Hc. apply span_toc_app; [by repeat constructor| |right; by rewrite is_delim_in].
  eapply Forall_impl; [exact Hl|]. intros x [[Hp _] Hd]. rewrite is_delim_in. split; [lia|done].
Qed.

Lemma next_val_print q v d rest :
  val_ok (Some (q, v)) -> is_delim d = true ->
  next_val (quote_of q ++ v ++ quote_of q ++ d :: rest) =
  Ok (v ++ quote_of q ++ d :: rest, length v, d :: rest,
      Z.of_nat (length (quote_of q ++ v ++ quote_of q))).
Proof.
  intros Hv Hd. unfold next_val. destruct q; cbn [quote_of app val_ok] in *.
  - destruct Hv as (Hne & Hall & H1 & H2). destruct v as [|c v]; [done|].
    cbn [app deref mbind cres_bind]. simpl in H1, H2.
    destruct (Z.eqb_spec c DQ) as [->|_]; [done|]. destruct (Z.eqb_spec c SQ) as [->|_]; [done|].
    change (c :: v ++ d :: rest) with ((c :: v) ++ d :: rest).
    rewrite excl_bare by done. cbn [mbind cres_bind].
    rewrite drop_app_length, app_nil_r. done.
  - cbn [deref mbind cres_bind]. change (SQ =? DQ) with false. rewrite Z.eqb_refl.
    cbn [drop]. rewrite drop_0, excl_quote by done. cbn [mbind cres_bind].
    rewrite advance_ok by (rewrite length_app; simpl; lia). cbn [mbind cres_bind].
    rewrite (cons_middle SQ), app_assoc, drop_app_length' by (rewrite length_app; simpl; lia).
    rewrite <- app_assoc. cbn [app]. repeat f_equal. rewrite length_cons, length_app. simpl. lia.
  - cbn [deref mbind cres_bind]. rewrite Z.eqb_refl.
    cbn [drop]. rewrite drop_0, excl_quote by done. cbn [mbind cres_bind].
    rewrite advance_ok by (rewrite length_app; simpl; lia). cbn [mbind cres_bind].
    rewrite (cons_middle DQ), app_assoc, drop_app_length' by (rewrite length_app; simpl; lia).
    rewrite <- app_assoc. cbn [app]. repeat f_equal. rewrite length_cons, length_app. simpl. lia.
Qed.

(** What the scanner reports for a setting at [p]. *)
Definition read_of (s : setting) (rest : text) : option_read :=
  {| bytes_read := Z.of_nat (length (print_setting s));
     r_name := Some (print_setting s ++ rest);
     r_name_len := Z.of_nat (length (s_name s));
     r_val := match s_val s with
              | None => None
              | Some (q, v) => Some (v ++ quote_of q ++ s_sep s ++ rest)
              end;
     r_val_len := match s_val s with
                  | None => 0
                  | Some (q, v) => Z.of_nat (length v)
                  end |}.

Lemma next_opt_print s c u :
  setting_ok s -> is_delim c = false -> c <> 61 ->
  next_opt (Some (print_setting s ++ c :: u)) = Ok (read_of s (c :: u)).
Proof.
  intros (Hne & Hname & Hval & Hsne & Hsep) Hc He. unfold read_of, print_setting.
  assert (forall x, incl_len (Some (s_name s ++ x)) param_delimchars = Ok O) as Hstart.
  { intros x. destruct (s_name s) as [|n0 nm]; [done|].
    apply Forall_cons in Hname as [(_ & Hn0 & _) _]. by apply incl_none. }
  destruct (s_sep s) as [|d sep] eqn:Hs; [done|]. pose proof Hsep as Hsep'.
  apply Forall_cons in Hsep as [Hd Hsep].
  unfold next_opt. rewrite <- !app_assoc, Hstart. cbn [mbind cres_bind drop]. rewrite drop_0.
  destruct (s_val s) as [[q v]|]; cbn [print_val app].
  - rewrite excl_name by (done || by right). cbn [mbind cres_bind]. rewrite drop_app_length.
    rewrite incl_none by done. cbn [mbind cres_bind drop length]. rewrite drop_0.
    cbn [deref mbind cres_bind]. rewrite Z.eqb_refl. rewrite <- !app_assoc.
    assert (incl_len (Some (quote_of q ++ v ++ quote_of q ++ (d :: sep) ++ c :: u))
      param_delimchars = Ok O) as Hskip.
    { destruct q; cbn [quote_of app]; try by apply incl_none.
      destruct Hval as (Hvne & Hv & _). destruct v as [|x v]; [done|].
      apply Forall_cons in Hv as [[_ Hx] _]. by apply incl_none. }
    cbn [app] in *. rewrite Hskip. cbn [mbind cres_bind drop]. rewrite drop_0.
    rewrite next_val_print by done. cbn [mbind cres_bind].
    change (d :: sep ++ c :: u) with ((d :: sep) ++ c :: u).
    rewrite incl_delims by done. cbn [mbind cres_bind].
    f_equal. f_equal. rewrite !length_app, !length_cons, !length_app. simpl. lia.
  - rewrite excl_name by (done || by left). cbn [mbind cres_bind]. rewrite drop_app_length.
    change (d :: sep ++ c :: u) with ((d :: sep) ++ c :: u).
    rewrite incl_delims by done. cbn [mbind cres_bind]. rewrite drop_app_length.
    cbn [deref mbind cres_bind]. eval_chars. rewrite (proj2 (Z.eqb_neq c 61)) by done.
    f_equal. f_equal. rewrite !length_app. simpl. lia.
Qed.

Lemma name_matches_print s rest q :
  setting_ok s -> terminated q = true ->
  name_matches (read_of s rest) q = Ok (bool_decide (s_name s `prefix_of` q)).
Proof.
  intros (Hne & Hname & _) Hq. unfold name_matches, read_of. cbn [r_name_len r_name].
  rewrite (proj2 (Z.ltb_lt _ _)) by (destruct (s_name s); simpl in *; [done|lia]).
  rewrite Nat2Z.id. unfold print_setting. rewrite <- app_assoc.
  edestruct strncmp_prefix_l as (r & Hr & Hb); [exact Hq| |].
  - eapply Forall_impl; [exact Hname|]. intros c ([? ?] & _). lia.
  - by rewrite Hr; cbn [mbind cres_bind]; rewrite Hb.
Qed.

Lemma print_setting_head s rest :
  setting_ok s -> exists c u, print_setting s ++ rest = c :: u /\
    is_delim c = false /\ c <> 61 /\ c <> 0.
Proof.
  intros (Hne & Hname & _). unfold print_setting. destruct (s_name s) as [|c nm]; [done|].
  apply Forall_cons in Hname as [([? ?] & ? & ?) _]. do 2 eexists. split; [done|].
  repeat split; try done. lia.
Qed.

Lemma print_settings_head l :
  Forall setting_ok l -> exists c u, print_settings l ++ [NUL] = c :: u /\
    is_delim c = false /\ c <> 61.
Proof.
  intros [|s l' Hs Hl]; [by do 2 eexists|].
  unfold print_settings. cbn [fmap list_fmap mjoin list_join]. rewrite <- app_assoc.
  destruct (print_setting_head s (mjoin (print_setting <$> l') ++ [NUL]) Hs)
    as (c & u & ? & ? & ? & _). by do 2 eexists.
Qed.

(** * Searching for an option *)

(** The option a query finds: the first whose name the queried name begins
    with. *)
Fixpoint first_match (q : text) (l : list setting) : option setting :=
  match l with
  | [] => None
  | s :: l' => if decide (s_name s `prefix_of` q) then Some s else first_match q l'
  end.

(** [v] and [n] are the pointer to the value of [s] and its length. *)
Definition value_at (s : setting) (v : option text) (n : Z) : Prop :=
  match s_val s with
  | None => v = None /\ n = 0
  | Some (_, t) => n = Z.of_nat (length t) /\ exists u, v = Some (t ++ u)
  end.

Lemma print_settings_cons s l :
  print_settings (s :: l) ++ [NUL] = print_setting s ++ (print_settings l ++ [NUL]).
Proof. unfold print_settings. cbn [fmap list_fmap mjoin list_join]. by rewrite app_assoc. Qed.

Lemma value_at_read s rest : value_at s (r_val (read_of s rest)) (r_val_len (read_of s rest)).
Proof. unfold value_at, read_of. simpl. destruct (s_val s) as [[q v]|]; eauto. Qed.

(** One round of either search loop on a printed option. *)
Lemma option_round s l q :
  setting_ok s -> Forall setting_ok l -> terminated q = true ->
  let p := print_settings (s :: l) ++ [NUL] in
  let r := read_of s (print_settings l ++ [NUL]) in
  (exists c, deref p = Ok c /\ (c =? 0) = false) /\ next_opt (Some p) = Ok r /\
  advance (Z.to_nat (bytes_read r)) p = Ok (print_settings l ++ [NUL]) /\
  name_matches r q = Ok (bool_decide (s_name s `prefix_of` q)) /\
  (length (print_settings l ++ [NUL]) < length p)%nat.
Proof.
  intros Hs Hl Hq p r. subst p r. rewrite print_settings_cons.
  destruct (print_settings_head l Hl) as (c & u & Hcu & Hd & He).
  destruct (print_setting_head s (print_settings l ++ [NUL]) Hs) as (x & w & Hxw & _ & _ & Hx).
  split; [|split; [|split; [|split]]].
  - exists x. rewrite Hxw. split; [done|]. by apply Z.eqb_neq.
  - rewrite Hcu. by apply next_opt_print.
  - cbn [read_of bytes_read]. rewrite Nat2Z.id, advance_ok by (rewrite length_app; lia).
    by rewrite drop_app_length.
  - by apply name_matches_print.
  - destruct Hs as (Hne & _). unfold print_setting. destruct (s_name s) as [|x' nm]; [done|].
    rewrite !length_app. simpl. lia.
Qed.

(** What a search finds in general: the first option whose name is a prefix
    of the queried name, with a pointer to exactly the characters of its value,
    NULL and 0 when the value is missing or empty. *)
Lemma getopt_prefix l q :
  Forall setting_ok l -> terminated q = true ->
  exists v n,
    param_getopt (Some (print_settings l ++ [NUL])) (Some q) true true =
      Ok (negb (is_null (first_match q l)), v, n) /\
    match first_match q l with
    | None => v = None /\ n = 0
    | Some s => if decide (n = 0) then v = None /\ (s_val s = None \/ exists m, s_val s = Some (m, []))
                else value_at s v n
    end.
Proof.
  intros Hl Hq. unfold param_getopt.
  generalize (le_n (S (length (print_settings l ++ [NUL])))).
  generalize (S (length (print_settings l ++ [NUL]))) at 2 3. intros fuel. revert fuel.
  induction Hl as [|s l Hs Hl IH]; intros [|fuel] Hf; try lia.
  { exists None, 0. by split. }
  destruct (option_round s l q Hs Hl Hq) as ((c & Hc & Hz) & Hn & Ha & Hm & Hlen).
  cbn [getopt_loop first_match]. rewrite Hc. cbn [mbind cres_bind]. rewrite Hz, Hn.
  cbn [mbind cres_bind]. rewrite Ha. cbn [mbind cres_bind]. rewrite Hm. cbn [mbind cres_bind].
  destruct (decide (s_name s `prefix_of` q)) as [Hp|Hp];
    [rewrite bool_decide_true by done|rewrite bool_decide_false by done; apply IH; lia].
  pose proof (value_at_read s (print_settings l ++ [NUL])) as Hv. rewrite !andb_true_r.
  destruct (Z.ltb_spec 0 (r_val_len (read_of s (print_settings l ++ [NUL])))) as [Hpos|Hpos];
    do 2 eexists; (split; [done|]).
  - by rewrite decide_False by lia.
  - rewrite decide_True by done. split; [done|]. cbn [read_of r_val_len] in Hpos.
    destruct (s_val s) as [[m [|? ?]]|]; simpl in *; [by eauto|lia|by left].
Qed.

(** The first option of a name. *)
Fixpoint first_named (nm : text) (l : list setting) : option setting :=
  match l with
  | [] => None
  | s :: l' => if decide (s_name s = nm) then Some s else first_named nm l'
  end.

Lemma name_prefix s nm :
  setting_ok s -> s_name s `prefix_of` nm ++ [NUL] -> s_name s `prefix_of` nm.
Proof.
  intros (_ & Hname & _) [k Hk]. destruct k as [|x k _] using rev_ind.
  - rewrite app_nil_r in Hk. exfalso. rewrite <- Hk in Hname.
    apply Forall_app in Hname as [_ H0]. apply Forall_singleton in H0 as ([H0 _] & _). done.
  - rewrite app_assoc in Hk. apply app_inj_tail in Hk as [-> _]. by exists k.
Qed.

(** Where no name of an option is a proper prefix of the queried name, the
    first match is the first option of that name. *)
Lemma first_match_named l nm :
  Forall setting_ok l ->
  Forall (fun s => s_name s `prefix_of` nm -> s_name s = nm) l ->
  first_match (nm ++ [NUL]) l = first_named nm l.
Proof.
  intros Hl Hn. induction Hl as [|s l Hs Hl IH]; [done|].
  apply Forall_cons in Hn as [Hs' Hn]. simpl. rewrite IH by done.
  destruct (decide (s_name s = nm)) as [<-|Hne].
  - rewrite decide_True; [done|]. by exists [NUL].
  - rewrite decide_False; [done|]. intros Hp. by apply Hne, Hs', name_prefix.
Qed.

Lemma first_named_in nm l s : first_named nm l = Some s -> s ∈ l /\ s_name s = nm.
Proof.
  induction l as [|x l IH]; simpl; [done|]. case_decide; intros Heq; simplify_eq.
  - split; [by left|done].
  - destruct IH as [? ?]; [done|]. split; [by right|done].
Qed.

(** C37: param_getopt reads back what was written.  In a string of options
    with bare, single- or double-quoted values it reports whether there is an
    option of the queried name and points to exactly the characters of the
    value of the first one; it returns NULL and 0 when that option has no
    value.  Two cases that the code does not treat so are left out: a name
    in the string that is a proper prefix of the queried name (it answers the
    query, [getopt_prefix]), and a quoted value that is empty (NULL is
    returned). *)
Theorem param_getopt_finds l nm :
  Forall setting_ok l -> Forall plain nm ->
  Forall (fun s => s_name s `prefix_of` nm -> s_name s = nm) l ->
  Forall (fun s => forall m, s_val s <> Some (m, [])) l ->
  exists v n,
    param_getopt (Some (print_settings l ++ [NUL])) (Some (nm ++ [NUL])) true true =
      Ok (negb (is_null (first_named nm l)), v, n) /\
    match first_named nm l with
    | None => v = None /\ n = 0
    | Some s => value_at s v n
    end.
Proof.
  intros Hl H0 Hn Hv.
  destruct (getopt_prefix l (nm ++ [NUL]) Hl) as (v & n & Hget & Hres).
  { by apply terminated_app. }
  rewrite first_match_named in Hget, Hres by done.
  exists v, n. split; [done|]. destruct (first_named nm l) as [s|] eqn:Hf; [|done].
  apply first_named_in in Hf as [Hin _].
  apply (Forall_forall _ _) with (x := s) in Hv; [|done].
  destruct (decide (n = 0)) as [->|]; [|done].
  destruct Hres as [-> [Hnone|[m Hm] ] ]; [|by destruct (Hv m)].
  unfold value_at. by rewrite Hnone.
Qed.

(** [param_check] demands the form asked for.  It accepts the same first
    option as param_getopt, but only if the option has a value exactly when
    the caller asked for one, and then returns the value even when it is
    empty. *)
Theorem param_check_form l q wanted :
  Forall setting_ok l -> terminated q = true ->
  exists v n,
    param_check (Some (print_settings l ++ [NUL])) (Some q) wanted wanted =
      Ok (match first_match q l with
          | Some s => Bool.eqb (negb (is_null (s_val s))) wanted
          | None => false
          end, v, n) /\
    match first_match q l with
    | Some s => if wanted then (s_val s = None /\ v = None /\ n = 0) \/ value_at s v n
                else v = None /\ n = 0
    | None => v = None /\ n = 0
    end.
Proof.
  intros Hl Hq. unfold param_check.
  generalize (le_n (S (length (print_settings l ++ [NUL])))).
  generalize (S (length (print_settings l ++ [NUL]))) at 2 3. intros fuel. revert fuel.
  induction Hl as [|s l Hs Hl IH]; intros [|fuel] Hf; try lia.
  { exists None, 0. by split. }
  destruct (option_round s l q Hs Hl Hq) as ((c & Hc & Hz) & Hn & Ha & Hm & Hlen).
  cbn [check_loop first_match]. rewrite Hc. cbn [mbind cres_bind]. rewrite Hz, Hn.
  cbn [mbind cres_bind]. rewrite Ha. cbn [mbind cres_bind]. rewrite Hm. cbn [mbind cres_bind].
  destruct (decide (s_name s `prefix_of` q)) as [Hp|Hp];
    [rewrite bool_decide_true by done|rewrite bool_decide_false by done; apply IH; lia].
  pose proof (value_at_read s (print_settings l ++ [NUL])) as Hv.
  assert (is_null (r_val (read_of s (print_settings l ++ [NUL]))) = is_null (s_val s)) as ->
    by (simpl; by destruct (s_val s) as [[? ?]|]).
  destruct wanted, (s_val s) as [[m t]|] eqn:Hval; simpl; do 2 eexists; (split; [done|]); auto.
Qed.

(** * Arbitrary strings *)

(** [run ok m P]: [m] yields a value with [P], or (unless [ok]) leaves the
    string; the loop bound is never the reason. *)
Definition run {A} (ok : bool) (m : cres A) (P : A -> Prop) : Prop :=
  match m with Ok a => P a | Fault f => ok = false /\ f = OutOfBounds end.

Lemma run_bind {A B} ok (m : cres A) (k : A -> cres B) P Q :
  run ok m P -> (forall a, P a -> run ok (k a) Q) -> run ok (m ≫= k) Q.
Proof. destruct m; simpl; auto. Qed.

Lemma run_bind_eq {A B} ok (m : cres A) (k : A -> cres B) P Q :
  run ok m P -> (forall a, m = Ok a -> P a -> run ok (k a) Q) -> run ok (m ≫= k) Q.
Proof. destruct m; simpl; auto. Qed.

Lemma run_mono {A} ok (m : cres A) (P Q : A -> Prop) :
  run ok m P -> (forall a, P a -> Q a) -> run ok m Q.
Proof. destruct m; simpl; auto. Qed.

(** Either any string, or a terminated one without quotes. *)
Definition inside (ok : bool) (p : text) : Prop :=
  ok = true -> terminated p = true /\ Forall (fun c => c <> DQ /\ c <> SQ) p.

Lemma inside_nil ok : inside ok [] -> ok = false.
Proof. destruct ok; [|done]. intros H. by destruct (H eq_refl). Qed.

Lemma inside_tail ok c p : inside ok (c :: p) -> c <> 0 -> inside ok p.
Proof.
  intros H Hc ->. destruct (H eq_refl) as [Ht Hq]. apply Forall_cons in Hq as [_ Hq].
  split; [by eapply terminated_tail|done].
Qed.

Lemma run_deref ok p : inside ok p -> run ok (deref p) (fun c => exists p', p = c :: p').
Proof. destruct p; intros H; simpl; [by apply inside_nil in H|eauto]. Qed.

Lemma run_strchr ok toc c : run ok (strchr (toc ++ [0]) c) (fun _ => True).
Proof.
  induction toc as [|x toc IH]; cbn [app strchr].
  - destruct (0 =? c); [done|]. done.
  - destruct (x =? c); [done|]. by destruct (x =? 0).
Qed.

Lemma run_span ok listed p toc :
  inside ok p ->
  run ok (span_toc listed p toc) (fun i => (i <= length p)%nat /\ inside ok (drop i p)).
Proof.
  induction p as [|c p IH]; intros Hp; [by apply inside_nil in Hp|]. cbn [span_toc].
  destruct (Z.eqb_spec c 0) as [->|Hc]; [split; [lia|by rewrite drop_0]|].
  eapply run_bind; [apply run_strchr|]. intros b _.
  destruct (Bool.eqb b listed); [|split; [lia|by rewrite drop_0]].
  eapply run_bind; [by eapply IH, inside_tail|]. intros i [Hi Hd]. split; [simpl; lia|done].
Qed.

(** A first character that is listed is passed. *)
Lemma span_toc_first listed c p toc i :
  c <> 0 -> Forall (fun x => x <> 0) toc -> bool_decide (c ∈ toc) = listed ->
  span_toc listed (c :: p) toc = Ok i -> (0 < i)%nat.
Proof.
  intros Hc Ht Hin. cbn [span_toc]. rewrite (proj2 (Z.eqb_neq c 0)), strchr_spec, Hin by done.
  cbn [mbind cres_bind]. rewrite Bool.eqb_reflx. intros H. cres_inv H. injection H as <-. lia.
Qed.

Lemma run_next_val ok p :
  inside ok p ->
  run ok (next_val p) (fun '(_, _, p', l) =>
    0 <= l /\ p' = drop (Z.to_nat l) p /\ (Z.to_nat l <= length p)%nat /\ inside ok p').
Proof.
  intros Hp. unfold next_val. eapply run_bind; [by apply run_deref|]. intros c [p' ->].
  assert (forall q, (c = DQ \/ c = SQ) ->
    run ok (len ← excl_len (Some (drop 1 (c :: p'))) [q];
            p'' ← advance (len + 1) (drop 1 (c :: p'));
            Ok (drop 1 (c :: p'), len, p'', Z.of_nat (len + 1) + 1))
      (fun '(_, _, p'', l) => 0 <= l /\ p'' = drop (Z.to_nat l) (c :: p') /\
         (Z.to_nat l <= length (c :: p'))%nat /\ inside ok p'')) as Hquote.
  { intros q Hc. destruct ok.
    { destruct (Hp eq_refl) as [_ Hq]. apply Forall_cons in Hq as [[? ?] _]. tauto. }
    cbn [drop]. rewrite drop_0. eapply run_bind; [by apply (run_span false)|].
    intros i [Hi _]. unfold advance. destruct (decide _); [|done].
    cbn [mbind cres_bind run].
    replace (Z.to_nat (Z.of_nat (i + 1) + 1)) with (S (i + 1))%nat by lia.
    split; [lia|]. simpl. split; [done|]. split; [lia|done]. }
  destruct (Z.eqb_spec c DQ) as [->|]; [apply Hquote; by left|].
  destruct (Z.eqb_spec c SQ) as [->|]; [apply Hquote; by right|].
  eapply run_bind; [by apply run_span|]. intros i [Hi Hd]. simpl.
  rewrite Nat2Z.id. split; [lia|done].
Qed.

(** Before anything else a name, a blank or an equals sign is consumed. *)
Lemma next_opt_progress c p l0 l1 l2 :
  c <> 0 -> incl_len (Some (c :: p)) param_delimchars = Ok l0 ->
  excl_len (Some (drop l0 (c :: p))) param_nidchars = Ok l1 ->
  incl_len (Some (drop l1 (drop l0 (c :: p)))) param_delimchars = Ok l2 ->
  (0 < l0 + l1)%nat \/ (l0 + l1 + l2 = 0)%nat /\ c = 61.
Proof.
  intros Hc E0 E1 E2. destruct (is_delim c) eqn:Hd.
  { apply (span_toc_first true) in E0; [lia|done|by repeat constructor|by rewrite is_delim_in]. }
  rewrite incl_none in E0 by done. injection E0 as <-. rewrite drop_0 in *.
  destruct (Z.eqb_spec c 61) as [->|Hne].
  - assert (l1 = O) as ->; [|rewrite drop_0, incl_none in E2 by done; simplify_eq; by right].
    pose proof (excl_name [] 61 p ltac:(constructor) ltac:(by right)) as He.
    cbn [app length] in He. congruence.
  - apply (span_toc_first false) in E1; [lia|done|by repeat constructor|].
    rewrite not_name_in, Hd. simpl. lia.
Qed.

(** Reading an option consumes at least one character. *)
Lemma run_next_opt ok c p :
  inside ok (c :: p) -> c <> 0 ->
  run ok (next_opt (Some (c :: p))) (fun r =>
    exists n, bytes_read r = Z.of_nat n /\ (0 < n <= S (length p))%nat /\
      inside ok (drop n (c :: p)) /\
      exists m, r_name r = Some (drop m (c :: p)) /\ inside ok (drop m (c :: p))).
Proof.
  intros Hp H0. unfold next_opt. change (S (length p)) with (length (c :: p)).
  eapply run_bind_eq; [by apply (run_span ok true)|]. intros l0 E0 [Hl0 Hd0].
  eapply run_bind_eq; [by apply (run_span ok false)|]. intros l1 E1 [Hl1 Hd1].
  eapply run_bind_eq; [by apply (run_span ok true)|]. intros l2 E2 [Hl2 Hd2].
  pose proof (next_opt_progress c p l0 l1 l2 H0 E0 E1 E2) as Hprogress.
  eapply run_bind_eq; [by apply run_deref|]. intros x Hx [p' Hp'].
  assert (Z.of_nat l0 + Z.of_nat l1 + Z.of_nat l2 = Z.of_nat (l0 + l1 + l2)) as -> by lia.
  rewrite !drop_drop, ?Nat.add_assoc in *. rewrite !length_drop in *.
  destruct (Z.eqb_spec x (ch "=")) as [->|Hne].
  - pose proof (inside_tail ok _ p' ltac:(by rewrite <- Hp') ltac:(done)) as Hin.
    assert (drop (l0 + l1 + l2 + 1) (c :: p) = p') as Hp1
      by (rewrite <- drop_drop, Hp'; done).
    rewrite Hp1.
    assert (length p' = length (c :: p) - (l0 + l1 + l2 + 1))%nat as Hlen
      by (rewrite <- Hp1, length_drop; done).
    apply (f_equal length) in Hp'. rewrite length_drop in Hp'. cbn [length] in Hp'.
    eapply run_bind; [by apply (run_span ok true)|]. intros l3 [Hl3 Hd3].
    eapply run_bind; [by apply run_next_val|]. intros [[[v vl] p4] l4] (Hl4 & -> & Hle & Hd4).
    eapply run_bind; [by apply (run_span ok true)|]. intros l5 [Hl5 Hd5].
    rewrite <- Hp1, !drop_drop in *. rewrite !length_drop in *. cbn [run bytes_read r_name].
    exists (l0 + l1 + l2 + 1 + l3 + Z.to_nat l4 + l5)%nat. cbn [length] in *.
    rewrite ?Nat.add_assoc in Hd5. split; [lia|].
    split; [lia|]. split; [exact Hd5|]. by exists l0.
  - cbn [run bytes_read r_name]. eexists. split; [reflexivity|].
    split; [|split; [done|by exists l0]]. cbn [length] in *.
    destruct Hprogress as [?|[Hz ->]]; [lia|]. rewrite Hz, drop_0 in Hp'. by simplify_eq.
Qed.

Lemma run_strncmp ok a b n :
  (ok = true -> terminated a = true /\ terminated b = true) ->
  run ok (strncmp a b n) (fun _ => True).
Proof.
  revert a b. induction n as [|n IH]; intros [|x a] [|y b] H; try done; cbn [strncmp];
    try (by destruct ok; [destruct (H eq_refl)|]).
  destruct (Z.eqb_spec x y) as [->|]; [|done]. cbn [negb].
  destruct (Z.eqb_spec y 0) as [->|Hy]; [done|]. apply IH. intros Hok.
  destruct (H Hok). split; by eapply terminated_tail.
Qed.

Lemma run_name_matches ok r nm q :
  r_name r = Some nm -> inside ok nm -> (ok = true -> terminated q = true) ->
  run ok (name_matches r q) (fun _ => True).
Proof.
  intros Hr Hnm Hq. unfold name_matches. rewrite Hr. destruct (_ <? _); [|done].
  eapply run_bind; [|done]. apply run_strncmp. intros Hok. split; [|auto].
  by apply Hnm in Hok as [? _].
Qed.

(** One round of either search loop. *)
Lemma run_round {A} ok c p q (k : option_read -> text -> bool -> cres A) Q :
  inside ok (c :: p) -> c <> 0 -> (ok = true -> terminated q = true) ->
  (forall r p' m, (length p' <= length p)%nat -> inside ok p' -> run ok (k r p' m) Q) ->
  run ok (r ← next_opt (Some (c :: p));
          p' ← advance (Z.to_nat (bytes_read r)) (c :: p);
          m ← name_matches r q; k r p' m) Q.
Proof.
  intros Hp Hc Hq Hk. eapply run_bind; [by apply run_next_opt|].
  intros r (n & Hn & Hle & Hd & m & Hm & Hdm). rewrite Hn, Nat2Z.id.
  rewrite advance_ok by (simpl; lia). cbn [mbind cres_bind].
  eapply run_bind; [by eapply run_name_matches|]. intros b _. apply Hk; [|done].
  rewrite length_drop. simpl. lia.
Qed.

Lemma run_getopt ok fuel p q val len :
  inside ok p -> (ok = true -> terminated q = true) -> (length p < fuel)%nat ->
  run ok (getopt_loop fuel p q val len) (fun _ => True).
Proof.
  revert p. induction fuel as [|fuel IH]; intros p Hp Hq Hf; [lia|]. cbn [getopt_loop].
  eapply run_bind_eq; [by apply run_deref|]. intros c _ [p' ->].
  destruct (Z.eqb_spec c 0) as [->|Hc]; [done|]. simpl in Hf.
  apply run_round; [done..|]. intros r p'' m Hle Hin.
  destruct m; [by destruct (_ && _ && _)|]. apply IH; [done..|lia].
Qed.

Lemma run_check ok fuel p q val len :
  inside ok p -> (ok = true -> terminated q = true) -> (length p < fuel)%nat ->
  run ok (check_loop fuel p q val len) (fun _ => True).
Proof.
  revert p. induction fuel as [|fuel IH]; intros p Hp Hq Hf; [lia|]. cbn [check_loop].
  eapply run_bind_eq; [by apply run_deref|]. intros c _ [p' ->].
  destruct (Z.eqb_spec c 0) as [->|Hc]; [done|]. simpl in Hf.
  apply run_round; [done..|]. intros r p'' m Hle Hin.
  destruct m; [by repeat case_match|]. apply IH; [done..|lia].
Qed.

(** C38: the searches terminate, and quotes are the only way out of the
    string.  On any memory whatsoever both loops end (each option read
    consumes a character); on a terminated parameter string without quotes
    both complete without leaving it; but a value whose opening quote is
    never closed makes next_opt step over the terminating NUL, which is a
    read outside the string. *)
Theorem param_search_safety p q val len :
  (param_getopt (Some p) (Some q) val len <> Fault OutOfFuel /\
   param_check (Some p) (Some q) val len <> Fault OutOfFuel) /\
  (terminated p = true -> terminated q = true ->
   Forall (fun c => c <> DQ /\ c <> SQ) p ->
   is_ok (param_getopt (Some p) (Some q) val len) = true /\
   is_ok (param_check (Some p) (Some q) val len) = true) /\
  (forall nm v quote, quote = SQ \/ quote = DQ -> Forall name_plain nm ->
   Forall (fun c => plain c /\ c <> quote) v ->
   next_opt (Some (nm ++ ch "=" :: quote :: v ++ [NUL])) = Fault OutOfBounds).
Proof.
  split; [|split].
  - pose proof (run_getopt false (S (length p)) p q val len ltac:(done) ltac:(done) ltac:(lia)).
    pose proof (run_check false (S (length p)) p q val len ltac:(done) ltac:(done) ltac:(lia)).
    unfold param_getopt, param_check.
    destruct (getopt_loop _ _ _ _ _), (check_loop _ _ _ _ _); naive_solver.
  - intros Hp Hq Hquote.
    pose proof (run_getopt true (S (length p)) p q val len ltac:(done) ltac:(done) ltac:(lia)).
    pose proof (run_check true (S (length p)) p q val len ltac:(done) ltac:(done) ltac:(lia)).
    unfold param_getopt, param_check.
    destruct (getopt_loop _ _ _ _ _), (check_loop _ _ _ _ _); naive_solver.
  - intros nm v quote Hquote Hnm Hv. unfold next_opt.
    assert (incl_len (Some (nm ++ ch "=" :: quote :: v ++ [NUL])) param_delimchars = Ok O) as ->.
    { destruct Hnm as [|c nm (_ & Hc & _) _]; by apply incl_none. }
    cbn [mbind cres_bind]. rewrite drop_0, excl_name by (done || by right). cbn [mbind cres_bind].
    rewrite drop_app_length, incl_none by done. cbn [mbind cres_bind drop]. rewrite ?drop_0.
    cbn [deref mbind cres_bind]. rewrite Z.eqb_refl. cbn [drop]. rewrite ?drop_0.
    rewrite incl_none by (by destruct Hquote as [->| ->]). cbn [mbind cres_bind drop].
    assert (excl_len (Some (v ++ [NUL])) [quote] = Ok (length v)) as Hlen.
    { apply span_toc_app; [by destruct Hquote as [->| ->]; repeat constructor| |by left].
      eapply Forall_impl; [exact Hv|]. intros x [[Hx _] Hq].
      rewrite bool_decide_false by set_solver. split; [lia|done]. }
    assert (advance (length v + 1) (v ++ [NUL]) = Ok []) as Hadv.
    { rewrite advance_ok, drop_ge by (rewrite length_app; simpl; lia). done. }
    rewrite ?drop_0. unfold next_val. cbn [deref mbind cres_bind drop]. rewrite ?drop_0.
    by destruct Hquote as [->| ->]; cbn [Z.eqb Pos.eqb DQ SQ]; rewrite Hlen;
      cbn [mbind cres_bind]; rewrite Hadv.
Qed.

(** * Concrete runs *)

(** [somevalue=12 others="bernie ert grooby" eo] *)
Definition sample_settings : list setting :=
  [ {| s_name := chars "somevalue"; s_val := Some (Bare, chars "12"); s_sep := chars " " |};
    {| s_name := chars "others"; s_val := Some (Double, chars "bernie ert grooby");
       s_sep := [TAB] |};
    {| s_name := chars "eo"; s_val := None; s_sep := chars " " |} ].

Lemma sample_settings_ok : Forall setting_ok sample_settings.
Proof. repeat constructor; try done; simpl; repeat constructor; done. Qed.

Lemma param_getopt_finds_witness :
  exists u, param_getopt (Some (print_settings sample_settings ++ [NUL])) (Some (cstr "others"))
    true true = Ok (true, Some (chars "bernie ert grooby" ++ u), 17).
Proof.
  destruct (param_getopt_finds sample_settings (chars "others") sample_settings_ok)
    as (v & n & H1 & H2).
  - repeat constructor.
  - apply (bool_decide_unpack _). vm_compute. exact I.
  - repeat constructor; intros m Hm; discriminate Hm.
  - change (first_named (chars "others") sample_settings) with
      (Some {| s_name := chars "others"; s_val := Some (Double, chars "bernie ert grooby");
               s_sep := [TAB] |}) in *.
    destruct H2 as [-> [u ->]]. exists u. exact H1.
Defined.

Lemma param_check_form_witness :
  param_check (Some (print_settings sample_settings ++ [NUL])) (Some (cstr "eo_num"))
    false false = Ok (true, None, 0).
Proof.
  destruct (param_check_form sample_settings (cstr "eo_num") false sample_settings_ok eq_refl)
    as (v & n & H1 & H2).
  change (first_match (cstr "eo_num") sample_settings) with
    (Some {| s_name := chars "eo"; s_val := None; s_sep := chars " " |}) in *.
  destruct H2 as [-> ->]. exact H1.
Defined.

Lemma param_search_safety_witness :
  is_ok (param_getopt (Some (cstr "a=b c")) (Some (cstr "c")) true true) = true /\
  next_opt (Some (chars "a" ++ ch "=" :: DQ :: chars "bc" ++ [NUL])) = Fault OutOfBounds.
Proof.
  destruct (param_search_safety (cstr "a=b c") (cstr "c") true true) as (_ & H2 & H3). split.
  - apply H2; [reflexivity|reflexivity|repeat constructor; discriminate].
  - apply H3; [right; reflexivity|repeat constructor; discriminate|
      repeat constructor; discriminate].
Defined.
