(* ===== verification/AdaptStrat.v ===== *)
(** * Interpreting strategy commands: [adapt_strat.ath], operation [$trans]

    Text written to the control output is a list of commands: instantiate a
    brick, a connector, or connect an input.  [$trans] scans it with the
    functions of [strat.c] and calls the corresponding operations of the
    strategy brick behind its input.  The strategy is an interface, which
    [ControlSimple] implements. *)

From S2P Require Import Prelude CLib Common StratScan.
Open Scope Z_scope.

(** An operation gets the arguments and the parameter string and returns the
    arguments; [ST] is the state of the strategy brick. *)
Class Strategy (ST : Type) := strategy_op : op_t -> args -> text -> ST -> cres (args * ST).

(** [@=call :<strat$... @args]: the operation code is restored afterwards. *)
Definition call_strat `{Strategy ST} (op : op_t) (a : args) (param : text) (s : ST) : cres (args * ST) :=
  r ← strategy_op op (a <| op_code := op |>) param s;
  Ok (r.1 <| op_code := op_code a |>, r.2).

Definition sizeof_name : Z := 24.
Definition scod_brick : Z := 0.
Definition scod_input : Z := 1.
Definition scod_output : Z := 2.
Definition scod_connect : Z := 3.

(** [scan_multi(&buf, strat_keywords, strat_keylens, scod_max)] *)
Definition scan_command (buf : text) : cres (Z * text) :=
  scan_multi buf (combine strat_keywords strat_keylens).

(** The parameter string of a brick, from the next line that starts with the
    keyword, and the position behind it.  [malloc] is taken to succeed. *)
Definition scan_b_param (buf : text) : cres (text * text) :=
  buf ← skip_line buf;
  tmp ← scan_single buf (cstr "b_param") 7;
  match tmp with
  | None => Ok ([NUL], buf)
  | Some tmp =>
    buf ← skip_blanks tmp;
    r ← scan_op buf;
    let '(op, buf) := r in
    if op =? ch ":" then
      tmp ← skip_blanks buf;
      buf ← skip_line tmp;
      let len := (length tmp - length buf)%nat in
      let newline := match nth_error tmp (len - 1) with Some c => (0 <? len)%nat && (c =? NL) | None => false end in
      let len := if newline then (len - 1)%nat else len in
      bytes ← strncpy tmp len;
      Ok (bytes ++ [NUL], buf)
    else Ok ([NUL], buf)
  end.

(** [struct conn_info conn = {}] *)
Definition zero_conn : conn_info := {| conn_addr := 0; conn_index := 0; conn_name := replicate 8 0 |}.

Definition the_conn1 (a : args) : conn_info := default zero_conn (conn1 a).
Definition the_conn2 (a : args) : conn_info := default zero_conn (conn2 a).

Section trans.
Context `{Strategy ST}.

(** [while(scan_connstraddr(&buf, &conn2))]; the third result says that the
    operation returns. *)
Fixpoint connect_loop (fuel : nat) (buf : text) (a : args) (param : text) (s : ST)
  : cres (args * ST * bool * text) :=
  match fuel with
  | O => Fault OutOfFuel
  | S fuel' =>
    r ← scan_connstraddr buf (the_conn2 a);
    let '(more, buf, c) := r in
    let a := a <| conn2 := Some c |> in
    if negb more then Ok (a, s, false, buf) else
    r ← call_strat opcode_connect (a <| success := false |>) param s;
    if success r.1 then connect_loop fuel' buf r.1 param r.2 else Ok (r.1, r.2, true, buf)
  end.

(** [goto test] and [goto skip]: the rest of the line is skipped. *)
Fixpoint command_loop (fuel : nat) (buf : text) (a : args) (param : text) (s : ST) : cres (args * ST) :=
  match fuel with
  | O => Fault OutOfFuel
  | S fuel' =>
    let skip buf a s := buf ← skip_line buf; command_loop fuel' buf a param s in
    let test buf r := if success r.1 then skip buf r.1 r.2 else Ok r in
    let a := a <| success := false |> in
    r ← scan_command buf;
    let '(code, buf) := r in
    if code =? scod_brick then
      r ← scan_op buf;
      let '(op, buf) := r in
      r ← scan_table_copy buf id_table (name a) sizeof_name;
      let '(_, nm, buf) := r in
      let a := a <| name := nm |> in
      if op =? ch ":" then
        p ← scan_b_param buf;
        r ← call_strat opcode_instbrick (a <| constr := true |> <| destr := false |>) p.1 s;
        if success r.1 then command_loop fuel' p.2 r.1 param r.2 else Ok r
      else if op =? ch "/" then call_strat opcode_deinstbrick (a <| destr := true |>) param s
      else skip buf a s
    else if (code =? scod_input) || (code =? scod_output) then
      r ← scan_op buf;
      let '(op, buf) := r in
      r ← scan_connstr buf (the_conn1 a);
      let '(ok, buf, c) := r in
      let a := a <| conn1 := Some c |> in
      if negb ok then Ok (a, s) else
      if (op =? ch ":") || (op =? ch "+") || (op =? ch "-") || (op =? ch "^") then
        r ← call_strat opcode_instconn
          (a <| constr := (op =? ch "+") || (op =? ch "^") |> <| destr := (op =? ch "-") || (op =? ch "^") |>) param s;
        test buf r
      else if op =? ch "/" then
        r ← call_strat opcode_deinstconn (a <| constr := false |> <| destr := true |>) param s;
        test buf r
      else skip buf a s
    else if code =? scod_connect then
      r ← scan_connstr buf (the_conn1 a);
      let '(ok, buf, c) := r in
      let a := a <| conn1 := Some c |> in
      if negb ok then Ok (a, s) else
      r ← scan_op buf;
      let '(op, buf) := r in
      if op =? ch "/" then r ← call_strat opcode_disconnect a param s; test buf r
      else if negb (op =? ch ":") then skip buf a s
      else
        r ← connect_loop (S (length buf)) buf a param s;
        let '(a, s, return_, buf) := r in
        if return_ : bool then Ok (a, s) else skip buf a s
    else Ok (a <| success := true |>, s)
  end.

(** [buf] is the string at [@phys_addr]. *)
Definition trans (buf : text) (a : args) (param : text) (s : ST) : cres (args * ST) :=
  match direction a with
  | direct_read => strategy_op (op_code a) a param s
  | direct_write =>
    command_loop (S (length buf)) buf
      (a <| conn1 := Some (zero_conn <| conn_addr := log_addr a |>) |> <| conn2 := Some zero_conn |>) param s
  | direct_stop => Ok (a, s)
  end.
End trans.

(** ** Commands and their text *)

(** The name of a connector, with an index or without *)
Record conn_spec := { cs_name : text; cs_index : option Z }.

Inductive command :=
  | InstBrick (nm : text) (param : option text)          (* brick:=, with a parameter line *)
  | DeinstBrick (nm : text)                              (* brick/= *)
  | OtherBrick (op : Z) (nm : text)                      (* an operator that bricks do not have *)
  | InstConn (output : bool) (op : Z) (c : conn_spec)    (* input or output with :=, += or -= *)
  | DeinstConn (output : bool) (c : conn_spec)
  | Connect (c : conn_spec) (targets : list (Z * conn_spec))
  | Disconnect (c : conn_spec).

(** A line may be indented, and [tail] may follow what is scanned. *)
Record line := { indent : nat; cmd : command; tail : text }.

Definition show_conn (c : conn_spec) : text :=
  cs_name c ++ match cs_index c with Some i => ch "[" :: format_d i ++ [ch "]"] | None => [] end.

Definition show_target (t : Z * conn_spec) : text := format_x false t.1 ++ ch ":" :: show_conn t.2.

Fixpoint show_targets (l : list (Z * conn_spec)) : text :=
  match l with
  | [] => []
  | [t] => show_target t
  | t :: l' => show_target t ++ ch "," :: show_targets l'
  end.

Definition keyword (output : bool) : text := if output then chars "output" else chars "input".

Definition show (c : command) (tail : text) : text :=
  match c with
  | InstBrick nm None => chars "brick:=" ++ nm ++ tail
  | InstBrick nm (Some p) => chars "brick:=" ++ nm ++ tail ++ NL :: chars "b_param:=" ++ p
  | DeinstBrick nm => chars "brick/=" ++ nm ++ tail
  | OtherBrick op nm => chars "brick" ++ op :: ch "=" :: nm ++ tail
  | InstConn output op c => keyword output ++ op :: ch "=" :: show_conn c ++ tail
  | DeinstConn output c => keyword output ++ chars "/=" ++ show_conn c ++ tail
  | Connect c ts => chars "connect " ++ show_conn c ++ chars ":=" ++ show_targets ts
  | Disconnect c => chars "connect " ++ show_conn c ++ chars "/=" ++ tail
  end.

(** The text of a list of lines; the last one may lack its new line. *)
Fixpoint script (last_nl : bool) (l : list line) : text :=
  match l with
  | [] => [NUL]
  | x :: l' =>
    replicate (indent x) SP ++ show (cmd x) (tail x) ++
    (if last_nl || negb (bool_decide (l' = [])) then [NL] else []) ++ script last_nl l'
  end.

(** ** What the commands do *)

Definition set_name (old nm : text) : text := nm ++ NUL :: drop (S (length nm)) old.

Definition fill (c : conn_info) (cs : conn_spec) : conn_info :=
  {| conn_addr := conn_addr c; conn_index := default 0 (cs_index cs);
     conn_name := set_name (conn_name c) (cs_name cs) |}.

(** When the list of targets has ended, the next keyword has been tried as a
    number: the first letters of [brick] and [connect] are hexadecimal. *)
Definition looked_at (l : list line) (c : conn_info) : conn_info :=
  match l with
  | [] => c
  | x :: _ =>
    match cmd x with
    | InstBrick _ _ | DeinstBrick _ | OtherBrick _ _ => c <| conn_addr := 0xb |>
    | Connect _ _ | Disconnect _ => c <| conn_addr := 0xc |>
    | InstConn _ _ _ | DeinstConn _ _ => c
    end
  end.

Section run.
Context `{Strategy ST}.

(** The connections are made one by one until one fails. *)
Fixpoint run_targets (ts : list (Z * conn_spec)) (a : args) (param : text) (s : ST) : cres (args * ST * bool) :=
  match ts with
  | [] => Ok (a, s, false)
  | t :: ts' =>
    let a := a <| conn2 := Some (fill ((the_conn2 a) <| conn_addr := t.1 |>) t.2) |> in
    r ← call_strat opcode_connect (a <| success := false |>) param s;
    if success r.1 then run_targets ts' r.1 param r.2 else Ok (r.1, r.2, true)
  end.

Fixpoint run (l : list line) (a : args) (param : text) (s : ST) : cres (args * ST) :=
  match l with
  | [] => Ok (a <| success := true |>, s)
  | x :: l' =>
    let go r := if success r.1 then run l' r.1 param r.2 else Ok r in
    let a := a <| success := false |> in
    match cmd x with
    | InstBrick nm p =>
      r ← call_strat opcode_instbrick (a <| name := set_name (name a) nm |> <| constr := true |> <| destr := false |>)
        (default [] p ++ [NUL]) s;
      go r
    | DeinstBrick nm =>
      call_strat opcode_deinstbrick (a <| name := set_name (name a) nm |> <| destr := true |>) param s
    | OtherBrick _ nm => run l' (a <| name := set_name (name a) nm |>) param s
    | InstConn _ op c =>
      r ← call_strat opcode_instconn
        (a <| conn1 := Some (fill (the_conn1 a) c) |> <| constr := op =? ch "+" |> <| destr := op =? ch "-" |>) param s;
      go r
    | DeinstConn _ c =>
      r ← call_strat opcode_deinstconn
        (a <| conn1 := Some (fill (the_conn1 a) c) |> <| constr := false |> <| destr := true |>) param s;
      go r
    | Connect c ts =>
      r ← run_targets ts (a <| conn1 := Some (fill (the_conn1 a) c) |>) param s;
      let '(a, s, failed) := r in
      if failed : bool then Ok (a, s)
      else run l' (a <| conn2 := Some (looked_at l' (the_conn2 a)) |>) param s
    | Disconnect c =>
      r ← call_strat opcode_disconnect (a <| conn1 := Some (fill (the_conn1 a) c) |>) param s;
      go r
    end
  end.
End run.

(** ** Well-formed scripts *)

Definition name_ok (size : nat) (nm : text) : bool :=
  (0 <? length nm)%nat && (length nm <? size)%nat && forallb id_table nm.

Definition conn_ok (c : conn_spec) : bool :=
  name_ok 8 (cs_name c) && match cs_index c with Some i => (0 <=? i) && (i <? 2 ^ 31) | None => true end.

(** No new line and no terminator *)
Definition line_chars (t : text) : bool := forallb (fun c => (0 <? c) && (c <? 128) && negb (c =? NL)) t.

(** What follows a name is not taken for a part of it. *)
Definition tail_ok (t : text) : bool :=
  line_chars t && match t with c :: _ => negb (id_table c) && negb (c =? ch "[") && negb (c =? ch ",") | [] => true end.

Definition param_ok (p : text) : bool :=
  line_chars p && match p with c :: _ => negb (c =? SP) | [] => true end.

Definition line_ok (x : line) : bool :=
  tail_ok (tail x) &&
  match cmd x with
  | InstBrick nm p => name_ok 24 nm && match p with Some p => param_ok p | None => true end
  | DeinstBrick nm => name_ok 24 nm
  | OtherBrick op nm => name_ok 24 nm && ((op =? ch "+") || (op =? ch "-"))
  | InstConn _ op c => conn_ok c && ((op =? ch ":") || (op =? ch "+") || (op =? ch "-"))
  | DeinstConn _ c | Disconnect c => conn_ok c
  | Connect c ts => conn_ok c && forallb (fun t => (0 <=? t.1) && (t.1 <? 2 ^ 64) && conn_ok t.2) ts &&
      bool_decide (tail x = [])
  end.

Definition has_param (x : line) : bool := match cmd x with InstBrick _ (Some _) => true | _ => false end.
Definition lacks_param (x : line) : bool := match cmd x with InstBrick _ None => true | _ => false end.

(** A brick without a parameter would take that of a later one. *)
Fixpoint params_ok (l : list line) : bool :=
  match l with
  | [] => true
  | x :: l' => (negb (lacks_param x) || forallb (fun y => negb (has_param y)) l') && params_ok l'
  end.

(** The arrays of the argument record *)
Definition shaped (a : args) : Prop :=
  length (name a) = 24%nat /\ length (conn_name (the_conn1 a)) = 8%nat /\ length (conn_name (the_conn2 a)) = 8%nat.

(** A strategy brick keeps their sizes. *)
Class StrategyLaws (ST : Type) `{Strategy ST} : Prop :=
  strategy_shaped : forall op a param s a' s', strategy_op op a param s = Ok (a', s') -> shaped a -> shaped a'.

(** ** Scanning the parts of a line *)

Definition plain (t : text) : Prop := Forall (fun c => 0 < c < 128 /\ c <> NL) t.

Lemma line_chars_plain t : line_chars t = true -> plain t.
Proof.
  unfold line_chars, plain. rewrite forallb_forall, Forall_forall. intros H c Hc.
  apply list_elem_of_In, H in Hc. lia.
Qed.

Lemma plain_ascii t : plain t -> Forall (fun c => 0 < c < 128) t.
Proof. intros H. eapply Forall_impl; [exact H|]. by intros c [? _]. Qed.

Lemma plain_app t u : plain t -> plain u -> plain (t ++ u).
Proof. intros. by apply Forall_app. Qed.

Lemma name_chars size nm : name_ok size nm = true ->
  (0 < length nm < size)%nat /\ Forall (fun c => id_table c = true) nm /\ plain nm.
Proof.
  unfold name_ok. intros [[H1%Nat.ltb_lt H2%Nat.ltb_lt]%andb_prop H3]%andb_prop.
  assert (Forall (fun c => id_table c = true) nm) as Hid.
  { rewrite forallb_forall in H3. apply Forall_forall. intros c Hc. by apply H3, list_elem_of_In. }
  split; [lia|]. split; [done|]. eapply Forall_impl; [exact Hid|]. cbv beta. intros c Hc.
  apply id_table_code in Hc. change NL with 10. lia.
Qed.

Lemma digits_plain base n : 2 <= base <= 16 -> 0 <= n -> plain (digits false base n).
Proof.
  intros Hb Hn. eapply Forall_impl; [by apply digits_ascii|]. cbv beta. intros c Hc. change NL with 10. lia.
Qed.

Lemma format_d_plain i : 0 <= i -> plain (format_d i).
Proof. intros Hi. unfold format_d. rewrite (proj2 (Z.ltb_ge _ _)) by lia. by apply digits_plain. Qed.

Lemma show_conn_plain c : conn_ok c = true -> plain (show_conn c).
Proof.
  unfold conn_ok, show_conn. intros [Hn Hi]%andb_prop. apply name_chars in Hn as (_ & _ & Hp).
  apply plain_app; [done|]. destruct (cs_index c) as [i|]; [|constructor].
  constructor; [by vm_compute|]. apply plain_app; [apply format_d_plain; lia|]. by repeat constructor.
Qed.

(** What may stand behind a name *)
Definition stops (t : text) : Prop :=
  exists c t', t = c :: t' /\ id_table c = false /\ c <> ch "[".

Lemma scan_name nm t old size : name_ok size nm = true -> stops t -> terminated t = true -> length old = size ->
  scan_table_copy (nm ++ t) id_table old (Z.of_nat size) = Ok (Z.of_nat (length nm), set_name old nm, t).
Proof.
  intros Hn (c & t' & -> & Hc & _) Ht Hold. destruct (name_chars _ _ Hn) as (Hlen & Hid & Hp).
  assert (terminated (nm ++ c :: t') = true) as Hterm by (apply terminated_app; [by apply plain_ascii|done]).
  assert (trim (nm ++ c :: t') = nm ++ c :: t') as Htrim.
  { apply trim_app; [by destruct nm; cbn in Hlen; [lia|]|]. eapply Forall_impl; [exact Hid|]. cbv beta.
    intros x Hx ->. by vm_compute in Hx. }
  unfold scan_table_copy. rewrite scan_body2_spec by (done || lia). rewrite Htrim, take_while_app.
  - rewrite (proj2 (Z.leb_gt _ _)) by lia. by rewrite drop_app_length.
  - eapply Forall_impl; [exact Hid|]. cbv beta. intros x Hx. unfold accepted. rewrite Hx.
    apply id_table_code in Hx. change NUL with 0. lia.
  - exists c, t'. split; [done|]. unfold accepted. rewrite Hc. apply andb_false_r.
Qed.

Lemma stops_term c t : id_table c = false -> c <> ch "[" -> stops (c :: t).
Proof. intros. by exists c, t. Qed.

(** A connector, with an index or without *)
Lemma scan_conn c t conn : conn_ok c = true -> stops t -> terminated t = true -> length (conn_name conn) = 8%nat ->
  scan_connstr (show_conn c ++ t) conn = Ok (true, after_comma t, fill conn c).
Proof.
  intros Hc Hs Ht Hl. unfold conn_ok in Hc. apply andb_prop in Hc as [Hn Hi].
  destruct (name_chars _ _ Hn) as (Hlen & Hid & Hp). unfold show_conn.
  destruct (cs_index c) as [i|] eqn:Hidx.
  - change (cs_name c ++ ch "[" :: format_d i ++ [ch "]"]) with (print_connstr (cs_name c) i).
    rewrite (scan_connstr_print (cs_name c) i t conn); [|done|lia|done|done].
    unfold fill. by rewrite Hidx.
  - rewrite app_nil_r. destruct Hs as (x & t' & -> & Hx & Hb).
    assert (terminated (cs_name c ++ x :: t') = true) as Hterm by (apply terminated_app; [by apply plain_ascii|done]).
    unfold scan_connstr. rewrite skip_blanks_trim by done. cbn [mbind cres_bind].
    rewrite trim_app.
    2:{ by destruct (cs_name c); cbn in Hlen; [lia|]. }
    2:{ eapply Forall_impl; [exact Hid|]. cbv beta. intros y Hy ->. by vm_compute in Hy. }
    change sizeof_sname with (Z.of_nat 8). rewrite (scan_name _ _ _ 8) by (done || by apply stops_term).
    cbn [mbind cres_bind deref]. rewrite (proj2 (Z.eqb_neq x _) Hb). cbn [mbind cres_bind negb deref].
    unfold fill. rewrite Hidx. cbn [default].
    assert ((Z.of_nat (length (cs_name c)) <=? 0) = false) as Hpos by lia.
    unfold after_comma. destruct (Z.eqb_spec x (ch ",")) as [->|].
    + apply terminated_tail in Ht; [|done]. destruct (terminated_nonempty _ Ht) as (y & u & ->).
      change (drop 1 (ch "," :: y :: u)) with (y :: u). cbn [deref mbind cres_bind]. by rewrite Hpos, andb_false_r.
    + cbn [deref mbind cres_bind]. by rewrite Hpos, andb_false_r.
Qed.

Lemma hex_plain n : 0 <= n -> plain (format_x false n).
Proof. intros. by apply digits_plain. Qed.

(** A target with its address *)
Lemma scan_target a c t conn : 0 <= a < 2 ^ 64 -> conn_ok c = true -> stops t -> terminated t = true ->
  length (conn_name conn) = 8%nat ->
  scan_connstraddr (show_target (a, c) ++ t) conn = Ok (true, after_comma t, fill (conn <| conn_addr := a |>) c).
Proof.
  intros Ha Hc Hs Ht Hl. unfold show_target. cbn [fst snd]. rewrite <- app_assoc. cbn [app].
  assert (terminated (show_conn c ++ t) = true) as Ht2 by (apply terminated_app; [apply plain_ascii; by apply show_conn_plain|done]).
  assert (terminated (format_x false a ++ ch ":" :: show_conn c ++ t) = true) as Ht1
    by (apply terminated_app; [apply plain_ascii, hex_plain; lia|by vm_compute]).
  assert (Forall (fun c => 48 <= c <= 57 \/ 97 <= c <= 102 \/ 65 <= c <= 70) (format_x false a)) as Hhex by (apply digits_ascii; lia).
  assert (trim (format_x false a ++ ch ":" :: show_conn c ++ t) = format_x false a ++ ch ":" :: show_conn c ++ t) as Htrim.
  { apply trim_app; [apply digits_nonempty|]. eapply Forall_impl; [exact Hhex|]. cbv beta. intros x Hx. change SP with 32. lia. }
  unfold scan_connstraddr. rewrite skip_blanks_trim, Htrim by done. cbn [mbind cres_bind].
  rewrite sscanf_llx_digits by (done || by eexists). cbn [mbind cres_bind].
  unfold scan_table, scan_body. rewrite skip_blanks_trim, Htrim by done. cbn [mbind cres_bind].
  rewrite span_table_spec by done. cbn [mbind cres_bind snd]. rewrite take_while_app.
  - rewrite drop_app_length. cbn [deref mbind cres_bind]. change (ch ":" =? ch ":") with true. cbn [negb].
    change (drop 1 (ch ":" :: ?q)) with q. by apply scan_conn.
  - eapply Forall_impl; [exact Hhex|]. cbv beta. intros x Hx. unfold accepted, hex_table, in_range. eval_chars.
    change NUL with 0. lia.
  - by do 2 eexists.
Qed.

(** ** Lines *)

(** What stands between the end of a command and the next line *)
Definition line_end (last_nl : bool) (l : list line) : text :=
  (if last_nl || negb (bool_decide (l = [])) then [NL] else []) ++ script last_nl l.

Lemma skip_line_plain u t : plain u -> skip_line (u ++ t) = skip_line t.
Proof.
  induction 1 as [|c u [Hc Hn] _ IH]; [done|]. cbn [app skip_line]. unfold NUL.
  by rewrite (proj2 (Z.eqb_neq c 0)), (proj2 (Z.eqb_neq c NL)) by (done || lia).
Qed.

Lemma skip_line_end b l : skip_line (line_end b l) = Ok (script b l).
Proof.
  unfold line_end. destruct (b || negb (bool_decide (l = []))) eqn:E; [done|].
  apply orb_false_iff in E as [_ E%negb_false_iff%bool_decide_eq_true]. by subst.
Qed.

Lemma line_end_stops b l : stops (line_end b l).
Proof.
  unfold line_end. destruct (b || negb (bool_decide (l = []))) eqn:E; cbn [app].
  - by apply stops_term.
  - apply orb_false_iff in E as [_ E%negb_false_iff%bool_decide_eq_true]. subst. by apply stops_term.
Qed.

Lemma skip_blanks_run n c t : c <> SP -> skip_blanks (replicate n SP ++ c :: t) = Ok (c :: t).
Proof.
  intros Hc. induction n as [|n IH]; cbn [replicate app skip_blanks].
  - by rewrite (proj2 (Z.eqb_neq c SP)).
  - exact IH.
Qed.

Lemma show_targets_ascii ts : forallb (fun t => (0 <=? t.1) && (t.1 <? 2 ^ 64) && conn_ok t.2) ts = true ->
  plain (show_targets ts).
Proof.
  induction ts as [|[a c] ts IH]; cbn [forallb show_targets fst snd]; [constructor|].
  intros [[Ha Hc]%andb_prop Hts]%andb_prop.
  assert (plain (show_target (a, c))) as Hp.
  { unfold show_target. cbn [fst snd]. apply plain_app; [apply hex_plain; lia|]. constructor; [by vm_compute|]. by apply show_conn_plain. }
  destruct ts as [|t ts]; [done|]. apply plain_app; [done|]. constructor; [by vm_compute|]. by apply IH.
Qed.

Ltac ok_fields H :=
  repeat match type of H with _ && _ = true => let H' := fresh H in apply andb_prop in H as [H H'] end.

(** The text of a line without a parameter is on one line. *)
Lemma show_plain x : line_ok x = true -> has_param x = false -> plain (show (cmd x) (tail x)).
Proof.
  unfold line_ok, has_param. intros [Ht Hc]%andb_prop Hp.
  assert (plain (tail x)) as Htail by (unfold tail_ok in Ht; apply andb_prop in Ht as [Ht _]; by apply line_chars_plain).
  assert (forall s, line_chars (chars s) = true -> plain (chars s)) as Hs by (intros; by apply line_chars_plain).
  destruct (cmd x) as [nm [p|]|nm|op nm|o op c|o c|c ts|c]; [done| | | | | | |]; unfold show; ok_fields Hc.
  - apply plain_app; [by apply Hs|]. apply plain_app; [by eapply name_chars|done].
  - apply plain_app; [by apply Hs|]. apply plain_app; [by eapply name_chars|done].
  - apply plain_app; [by apply Hs|]. constructor; [|constructor; [by vm_compute|]].
    + apply orb_prop in Hc0 as [->%Z.eqb_eq| ->%Z.eqb_eq]; by vm_compute.
    + apply plain_app; [by eapply name_chars|done].
  - apply plain_app; [destruct o; by apply Hs|]. constructor; [|constructor; [by vm_compute|]].
    + apply orb_prop in Hc0 as [[->%Z.eqb_eq| ->%Z.eqb_eq]%orb_prop| ->%Z.eqb_eq]; by vm_compute.
    + apply plain_app; [by apply show_conn_plain|done].
  - apply plain_app; [destruct o; by apply Hs|]. apply plain_app; [by apply Hs|].
    apply plain_app; [by apply show_conn_plain|done].
  - apply plain_app; [by apply Hs|]. apply plain_app; [by apply show_conn_plain|].
    apply plain_app; [by apply Hs|]. by apply show_targets_ascii.
  - apply plain_app; [by apply Hs|]. apply plain_app; [by apply show_conn_plain|].
    apply plain_app; [by apply Hs|done].
Qed.

Lemma show_ascii x : line_ok x = true -> Forall (fun c => 0 < c < 128) (show (cmd x) (tail x)).
Proof.
  intros Hx. destruct (has_param x) eqn:Hp; [|by apply plain_ascii, show_plain].
  unfold has_param, line_ok in *. apply andb_prop in Hx as [Ht Hc].
  unfold tail_ok in Ht. apply andb_prop in Ht as [Ht _]. apply line_chars_plain, plain_ascii in Ht.
  destruct (cmd x) as [nm [p|]|nm|op nm|o op c|o c|c ts|c]; try discriminate Hp. unfold show. ok_fields Hc.
  unfold param_ok in Hc0. apply andb_prop in Hc0 as [Hp0 _]. apply line_chars_plain, plain_ascii in Hp0.
  apply name_chars in Hc as (_ & _ & Hn%plain_ascii). apply Forall_app. split; [by repeat constructor|].
  apply Forall_app. split; [done|]. apply Forall_app. split; [done|]. constructor; [by vm_compute|].
  apply Forall_app. split; [by repeat constructor|done].
Qed.

Lemma script_terminated b l : Forall (fun x => line_ok x = true) l -> terminated (script b l) = true.
Proof.
  induction 1 as [|x l Hx _ IH]; [done|]. cbn [script].
  apply terminated_app; [by apply Forall_replicate|]. apply terminated_app; [by apply show_ascii|].
  destruct (_ || _); [|exact IH]. by apply (terminated_app [NL]); [repeat constructor|].
Qed.

Lemma line_end_terminated b l : Forall (fun x => line_ok x = true) l -> terminated (line_end b l) = true.
Proof.
  intros Hl. apply (script_terminated b) in Hl. unfold line_end. destruct (_ || _); [|exact Hl].
  by apply (terminated_app [NL]); [repeat constructor|].
Qed.

(** ** Keywords *)

(** The keyword of a command, what follows it, and its code *)
Definition code_of (c : command) : Z :=
  match c with
  | InstBrick _ _ | DeinstBrick _ | OtherBrick _ _ => scod_brick
  | InstConn o _ _ | DeinstConn o _ => if o then scod_output else scod_input
  | Connect _ _ | Disconnect _ => scod_connect
  end.

Definition keyword_of (c : command) : text :=
  match c with
  | InstBrick _ _ | DeinstBrick _ | OtherBrick _ _ => chars "brick"
  | InstConn o _ _ | DeinstConn o _ => keyword o
  | Connect _ _ | Disconnect _ => chars "connect"
  end.

Definition after_keyword (c : command) (tail : text) : text := drop (length (keyword_of c)) (show c tail).

Lemma show_keyword c tail : show c tail = keyword_of c ++ after_keyword c tail.
Proof. by destruct c as [nm [p|]|nm|op nm|[] op c|[] c|c ts|c]. Qed.

(** A keyword search that has found the keyword [kw] at the front *)
Lemma match_at_keyword c t : match_keyword (keyword_of c ++ t) (combine strat_keywords strat_keylens) 0 =
  (u ← skip_blanks t; Ok (Some (code_of c, u))).
Proof.
  assert (forall kw, advance (length kw) (kw ++ t) = Ok t) as Hadv.
  { intros kw. rewrite advance_ok by (rewrite length_app; lia). by rewrite drop_app_length. }
  destruct c as [nm p|nm|op nm|[] op c|[] c|c ts|c]; cbn [keyword_of keyword code_of].
  1-3: transitivity (tmp ← advance 5 (chars "brick" ++ t); tmp ← skip_blanks tmp; Ok (Some (0, tmp)));
    [by destruct t|by rewrite (Hadv (chars "brick") : advance 5 _ = _)].
  1,3: transitivity (tmp ← advance 6 (chars "output" ++ t); tmp ← skip_blanks tmp; Ok (Some (2, tmp)));
    [by destruct t|by rewrite (Hadv (chars "output") : advance 6 _ = _)].
  1,2: transitivity (tmp ← advance 5 (chars "input" ++ t); tmp ← skip_blanks tmp; Ok (Some (1, tmp)));
    [by destruct t|by rewrite (Hadv (chars "input") : advance 5 _ = _)].
  all: transitivity (tmp ← advance 7 (chars "connect" ++ t); tmp ← skip_blanks tmp; Ok (Some (3, tmp)));
    [by destruct t|by rewrite (Hadv (chars "connect") : advance 7 _ = _)].
Qed.

Lemma keyword_head c t : exists x u, keyword_of c ++ t = x :: u /\ x <> SP /\ x <> NUL.
Proof. destruct c as [nm p|nm|op nm|[] op c|[] c|c ts|c]; by do 2 eexists. Qed.

Lemma scan_command_run n c t : scan_command (replicate n SP ++ keyword_of c ++ t) =
  (u ← skip_blanks t; Ok (code_of c, u)).
Proof.
  unfold scan_command, scan_multi. cbn [scan_multi_loop].
  destruct (keyword_head c t) as (x & u & Heq & Hx & H0). rewrite Heq, skip_blanks_run by done.
  cbn [mbind cres_bind deref]. rewrite (proj2 (Z.eqb_neq x NUL)) by done. rewrite <- Heq, match_at_keyword.
  destruct (skip_blanks t); done.
Qed.

Lemma scan_command_end : scan_command [NUL] = Ok (-1, [NUL]).
Proof. done. Qed.

Lemma scan_line n c tail t : scan_command (replicate n SP ++ show c tail ++ t) =
  (u ← skip_blanks (after_keyword c tail ++ t); Ok (code_of c, u)).
Proof. by rewrite show_keyword, <- app_assoc, scan_command_run. Qed.

Lemma script_cons b x l : script b (x :: l) = replicate (indent x) SP ++ show (cmd x) (tail x) ++ line_end b l.
Proof. done. Qed.

Lemma no_b_param b l fuel : Forall (fun x => line_ok x = true) l ->
  forallb (fun y => negb (has_param y)) l = true -> (length l < fuel)%nat ->
  scan_single_loop fuel (script b l) (cstr "b_param") 7 = Ok None.
Proof.
  intros Hl. revert fuel. induction Hl as [|x l Hx Hl IH]; intros [|fuel] Hp Hf; cbn [length] in Hf; try lia; [done|].
  cbn [forallb] in Hp. apply andb_prop in Hp as [Hpx%negb_true_iff Hp].
  rewrite script_cons. cbn [scan_single_loop].
  pose proof (show_plain x Hx Hpx) as Hplain.
  assert (exists r, strncmp (show (cmd x) (tail x) ++ line_end b l) (cstr "b_param") 7 = Ok r /\ (r =? 0) = false) as (r & Hr & Hr0).
  { rewrite show_keyword, <- app_assoc. destruct (cmd x) as [nm p|nm|op nm|[] op c|[] c|c ts|c]; by eexists. }
  assert (exists y u, show (cmd x) (tail x) ++ line_end b l = y :: u /\ y <> SP /\ y <> NUL) as (y & u & Heq & Hy & Hy0).
  { rewrite show_keyword, <- app_assoc. apply keyword_head. }
  rewrite Heq, skip_blanks_run, <- Heq by done. cbn [mbind cres_bind].
  rewrite Heq at 1. cbn [deref mbind cres_bind]. rewrite (proj2 (Z.eqb_neq y NUL)), Hr by done. cbn [mbind cres_bind]. rewrite Hr0.
  rewrite skip_line_plain, skip_line_end by done. cbn [mbind cres_bind]. apply IH; [done|lia].
Qed.

Lemma keyword_word c t : exists x u, keyword_of c ++ t = x :: u /\ isspace x = false.
Proof. destruct c as [nm p|nm|op nm|[] op c|[] c|c ts|c]; by do 2 eexists. Qed.

(** The end of a list of targets *)
Lemma skip_space_run n c t : isspace c = false -> skip_space (replicate n SP ++ c :: t) = Ok (c :: t).
Proof.
  intros Hc. induction n as [|n IH]; cbn [replicate app skip_space]; [by rewrite Hc|].
  change (isspace SP) with true. cbn. exact IH.
Qed.

Lemma sscanf_llx_space t u : skip_space t = skip_space u -> sscanf_llx t = sscanf_llx u.
Proof. unfold sscanf_llx. by intros ->. Qed.

Lemma scan_end b l conn : Forall (fun x => line_ok x = true) l ->
  scan_connstraddr (line_end b l) conn = Ok (false, line_end b l, looked_at l conn).
Proof.
  intros Hl. pose proof (line_end_stops b l) as (x & u & Hx & Hid & _).
  assert (sscanf_llx (line_end b l) = Ok match l with [] => None | x :: _ =>
      match cmd x with InstBrick _ _ | DeinstBrick _ | OtherBrick _ _ => Some 0xb
      | Connect _ _ | Disconnect _ => Some 0xc | _ => None end end) as Hs.
  { unfold line_end. destruct l as [|x' l]; [by destruct b|].
    replace (b || negb (bool_decide (x' :: l = []))) with true by (by rewrite bool_decide_false, orb_true_r).
    rewrite script_cons, show_keyword, <- app_assoc. cbn [app].
    rewrite (sscanf_llx_space _ (keyword_of (cmd x') ++ after_keyword (cmd x') (tail x') ++ line_end b l)).
    - destruct (cmd x') as [nm p|nm|op nm|[] op c|[] c|c ts|c]; done.
    - cbn [skip_space]. change (isspace NL) with true. cbn iota.
      destruct (keyword_word (cmd x') (after_keyword (cmd x') (tail x') ++ line_end b l)) as (y & v & Hy & Hw).
      rewrite Hy, skip_space_run by done. cbn [skip_space]. by rewrite Hw. }
  assert (skip_blanks (line_end b l) = Ok (line_end b l) /\ scan_table (line_end b l) hex_table = Ok (0, line_end b l, line_end b l) /\
    (x =? ch ":") = false) as (H1 & H2 & H3).
  { unfold line_end in *. destruct (b || negb (bool_decide (l = []))) eqn:E; cbn [app] in *.
    - injection Hx as <- <-. done.
    - apply orb_false_iff in E as [_ E%negb_false_iff%bool_decide_eq_true]. subst l. injection Hx as <- <-. done. }
  unfold scan_connstraddr. rewrite H1. cbn [mbind cres_bind]. rewrite Hs. cbn [mbind cres_bind]. rewrite H2.
  cbn [mbind cres_bind snd]. rewrite Hx at 1. cbn [deref mbind cres_bind]. rewrite H3. cbn [negb].
  destruct l as [|x' l]; [done|]. cbn [looked_at]. destruct (cmd x'); done.
Qed.

(** ** Interpretation *)

Lemma set_name_length old nm size : length old = size -> (length nm < size)%nat -> length (set_name old nm) = size.
Proof. intros Ho Hn. unfold set_name. rewrite length_app. cbn [length]. rewrite length_drop. lia. Qed.

Lemma fill_length c cs : conn_ok cs = true -> length (conn_name c) = 8%nat -> length (conn_name (fill c cs)) = 8%nat.
Proof.
  unfold conn_ok. intros [Hn _]%andb_prop Hl. apply name_chars in Hn as (Hn & _). cbn [fill conn_name].
  apply set_name_length; [done|lia].
Qed.

Lemma scan_op_run op t : (op =? ch ":") || (op =? ch "+") || (op =? ch "-") || (op =? ch "/") = true ->
  scan_op (op :: ch "=" :: t) = Ok (op, t).
Proof. by intros [[[->%Z.eqb_eq| ->%Z.eqb_eq]%orb_prop| ->%Z.eqb_eq]%orb_prop| ->%Z.eqb_eq]%orb_prop. Qed.

Lemma tail_facts t b l : tail_ok t = true ->
  plain t /\ stops (t ++ line_end b l) /\ after_comma (t ++ line_end b l) = t ++ line_end b l.
Proof.
  unfold tail_ok. intros [Ht%line_chars_plain Hc]%andb_prop. split; [done|]. destruct t as [|c t]; cbn [app].
  - pose proof (line_end_stops b l) as Hs. split; [done|]. unfold line_end.
    destruct (b || negb (bool_decide (l = []))) eqn:E; [done|].
    apply orb_false_iff in E as [_ E%negb_false_iff%bool_decide_eq_true]. by subst.
  - apply andb_prop in Hc as [[H1%negb_true_iff H2%negb_true_iff%Z.eqb_neq]%andb_prop H3%negb_true_iff].
    split; [by apply stops_term|]. cbn [after_comma]. by rewrite H3.
Qed.

Lemma skip_line_tail t b l : plain t -> skip_line (t ++ line_end b l) = Ok (script b l).
Proof. intros Ht. by rewrite skip_line_plain, skip_line_end. Qed.

(** The parameter line of a brick, or none *)
Lemma scan_b_param_none t b l : plain t -> Forall (fun x => line_ok x = true) l ->
  forallb (fun y => negb (has_param y)) l = true ->
  scan_b_param (t ++ line_end b l) = Ok ([NUL], script b l).
Proof.
  intros Ht Hl Hp. unfold scan_b_param. rewrite skip_line_tail by done. cbn [mbind cres_bind].
  unfold scan_single. rewrite no_b_param; [done|done|done|].
  assert (forall l, (length l < length (script b l))%nat) as H; [|specialize (H l); lia].
  clear. induction l as [|x l IH]; [cbn; lia|]. rewrite script_cons, !length_app. cbn [length].
  rewrite show_keyword, length_app. assert (0 < length (keyword_of (cmd x)))%nat
    by (destruct (cmd x) as [nm p|nm|op nm|[] op c|[] c|c ts|c]; cbn; lia).
  unfold line_end. rewrite length_app. lia.
Qed.

Lemma strncpy_line p t : plain p -> strncpy (p ++ t) (length p) = Ok p.
Proof.
  intros Hp. rewrite strncpy_exact; rewrite ?length_app; [by rewrite take_app_length|lia|].
  rewrite take_app_length. eapply Forall_impl; [exact Hp|]. cbv beta. lia.
Qed.

Lemma nth_line_end (p : text) b l : line_end b l <> script b l -> line_end b l = NL :: script b l.
Proof. unfold line_end. by destruct (_ || _). Qed.

Lemma scan_b_param_some t p b l : plain t -> param_ok p = true -> Forall (fun x => line_ok x = true) l ->
  scan_b_param (t ++ NL :: chars "b_param:=" ++ p ++ line_end b l) = Ok (p ++ [NUL], script b l).
Proof.
  intros Ht Hp Hl. unfold param_ok in Hp. apply andb_prop in Hp as [Hp%line_chars_plain Hhead].
  unfold scan_b_param. rewrite skip_line_plain by done.
  change (skip_line (NL :: ?q)) with (Ok q). cbn [mbind cres_bind].
  set (q := p ++ line_end b l).
  assert (scan_single (chars "b_param:=" ++ q) (cstr "b_param") 7 = Ok (Some (chars ":=" ++ q))) as ->.
  { unfold scan_single. cbn [scan_single_loop]. change (skip_blanks (chars "b_param:=" ++ q)) with (Ok (chars "b_param:=" ++ q)).
    cbn [mbind cres_bind]. change (deref (chars "b_param:=" ++ q)) with (Ok (ch "b")). cbn [mbind cres_bind].
    change (strncmp (chars "b_param:=" ++ q) (cstr "b_param") 7) with (Ok 0 : cres Z). cbn [mbind cres_bind].
    rewrite advance_ok by (rewrite length_app; cbn; lia). reflexivity. }
  cbn [mbind cres_bind]. change (skip_blanks (chars ":=" ++ q)) with (Ok (chars ":=" ++ q)). cbn [mbind cres_bind].
  change (chars ":=" ++ q) with (ch ":" :: ch "=" :: q). rewrite scan_op_run by done. cbn [mbind cres_bind].
  change (ch ":" =? ch ":") with true. cbv iota.
  assert (skip_blanks q = Ok q) as ->.
  { unfold q. destruct p as [|c p]; cbn [app].
    - pose proof (line_end_stops b l) as (x & u & Hx & _ & _). unfold line_end in *.
      destruct (b || negb (bool_decide (l = []))) eqn:E; [done|].
      apply orb_false_iff in E as [_ E%negb_false_iff%bool_decide_eq_true]. by subst.
    - cbn [skip_blanks]. apply negb_true_iff in Hhead. by rewrite Hhead. }
  cbn [mbind cres_bind]. unfold q. rewrite skip_line_tail by done. cbn [mbind cres_bind].
  rewrite length_app. replace (length p + length (line_end b l) - length (script b l))%nat with
    (length p + (length (line_end b l) - length (script b l)))%nat by (unfold line_end; rewrite length_app; lia).
  unfold line_end. destruct (b || negb (bool_decide (l = []))); cbn [length app].
  - replace (length p + (S (length (script b l)) - length (script b l)))%nat with (S (length p)) by lia.
    replace (S (length p) - 1)%nat with (length p) by lia. rewrite nth_error_app2, Nat.sub_diag by lia. cbn [nth_error].
    replace ((0 <? S (length p))%nat && (NL =? NL)) with true by done. cbv iota.
    by rewrite strncpy_line.
  - rewrite Nat.sub_diag, Nat.add_0_r.
    assert (match nth_error (p ++ script b l) (length p - 1) with
      Some c => (0 <? length p)%nat && (c =? NL) | None => false end = false) as ->.
    { destruct (nth_error _ _) as [c|] eqn:Hc; [|done]. destruct (length p) as [|n] eqn:Hn; [done|].
      rewrite nth_error_app1 in Hc by lia. apply nth_error_In, list_elem_of_In in Hc.
      unfold plain in Hp. rewrite Forall_forall in Hp. apply Hp in Hc as [_ Hc]. rewrite (proj2 (Z.eqb_neq c NL)) by done. apply andb_false_r. }
    by rewrite strncpy_line.
Qed.

Section interpretation.
Context `{StrategyLaws ST}.

Lemma shaped_success a v : shaped a -> shaped (a <| success := v |>).
Proof. done. Qed.

Lemma call_shaped op a param s r : call_strat op a param s = Ok r -> shaped a -> shaped r.1.
Proof.
  unfold call_strat. destruct (strategy_op op _ param s) as [[a' s']|] eqn:Hop; [|done]. intros [= <-] Ha.
  exact (strategy_shaped _ _ _ _ _ _ Hop Ha).
Qed.

Lemma fill_conn1 a c : conn_ok c = true -> shaped a -> shaped (a <| conn1 := Some (fill (the_conn1 a) c) |>).
Proof. intros Hc (H1 & H2 & H3). split; [exact H1|]. split; [|exact H3]. by apply fill_length. Qed.

Lemma fill_conn2 a adr c : conn_ok c = true -> shaped a ->
  shaped (a <| conn2 := Some (fill ((the_conn2 a) <| conn_addr := adr |>) c) |>).
Proof. intros Hc (H1 & H2 & H3). split; [exact H1|]. split; [exact H2|]. by apply fill_length. Qed.

Lemma named a nm : name_ok 24 nm = true -> shaped a -> shaped (a <| name := set_name (name a) nm |>).
Proof.
  intros Hn (H1 & H2 & H3). apply name_chars in Hn as (Hn & _). split; [|done]. apply set_name_length; [done|lia].
Qed.

(** The loop over the targets makes the connections of [run_targets]; it is
    left at once when one fails. *)
Lemma connect_loop_run b l ts fuel a param s :
  Forall (fun x => line_ok x = true) l ->
  forallb (fun t => (0 <=? t.1) && (t.1 <? 2 ^ 64) && conn_ok t.2) ts = true ->
  shaped a -> (length ts < fuel)%nat ->
  match run_targets ts a param s with
  | Ok (a', s', true) => exists buf, connect_loop fuel (show_targets ts ++ line_end b l) a param s = Ok (a', s', true, buf)
  | Ok (a', s', false) => shaped a' /\ connect_loop fuel (show_targets ts ++ line_end b l) a param s =
      Ok (a' <| conn2 := Some (looked_at l (the_conn2 a')) |>, s', false, line_end b l)
  | Fault f => connect_loop fuel (show_targets ts ++ line_end b l) a param s = Fault f
  end.
Proof.
  intros Hl. revert fuel a s. induction ts as [|[adr c] ts IH]; intros [|fuel] a s Hts Ha Hf; cbn [length] in Hf; try lia.
  - cbn [run_targets show_targets app connect_loop]. rewrite scan_end by done. by split.
  - cbn [forallb fst snd] in Hts. apply andb_prop in Hts as [[[H1 H2]%andb_prop Hc]%andb_prop Hts].
    cbn [run_targets connect_loop fst snd]. set (a1 := a <| conn2 := _ |>).
    pose proof (fill_conn2 a adr c Hc Ha) as Ha1. fold a1 in Ha1.
    assert (scan_connstraddr (show_targets ((adr, c) :: ts) ++ line_end b l) (the_conn2 a) =
      Ok (true, show_targets ts ++ line_end b l, fill ((the_conn2 a) <| conn_addr := adr |>) c)) as ->.
    { destruct ts as [|t ts].
      - cbn [show_targets app]. destruct (tail_facts [] b l ltac:(done)) as (_ & Hst & Hac). cbn [app] in Hst, Hac.
        rewrite scan_target; [by rewrite Hac|lia|done|done|by apply line_end_terminated|apply Ha].
      - cbn [show_targets]. rewrite <- app_assoc. cbn [app].
        rewrite scan_target; [done|lia|done|by apply stops_term| |apply Ha].
        apply (terminated_app (ch "," :: show_targets (t :: ts))); [|by apply line_end_terminated].
        constructor; [by vm_compute|]. by apply plain_ascii, show_targets_ascii. }
    cbn [mbind cres_bind negb]. change (upd _ a) with a1.
    destruct (call_strat opcode_connect (a1 <| success := false |>) param s) as [[a2 s2]|f] eqn:Hcall; [|done].
    cbn [mbind cres_bind fst snd]. pose proof (call_shaped _ _ _ _ _ Hcall Ha1) as Ha2. cbn [fst] in Ha2.
    destruct (success a2); [|by eexists]. apply IH; [done|done|lia].
Qed.

Lemma skip_blanks_conn c t : conn_ok c = true -> skip_blanks (show_conn c ++ t) = Ok (show_conn c ++ t).
Proof.
  unfold conn_ok, show_conn. intros [Hn _]%andb_prop. apply name_chars in Hn as (Hlen & Hid & _).
  destruct (cs_name c) as [|x nm]; [cbn in Hlen; lia|]. apply Forall_cons in Hid as [Hx _].
  cbn [app skip_blanks]. destruct (Z.eqb_spec x SP) as [->|]; [by vm_compute in Hx|done].
Qed.

Lemma show_targets_length ts : (length ts <= length (show_targets ts))%nat.
Proof.
  induction ts as [|t ts IH]; [done|]. cbn [show_targets length].
  destruct ts as [|t' ts]; [unfold show_target; rewrite length_app; cbn [length]; lia|].
  rewrite length_app. cbn [length] in *. lia.
Qed.

(** One line, and the rest of the script *)
Section one_line.
Context (b : bool) (l : list line) (tl : text) (fuel : nat) (param : text).
Context (Hl : Forall (fun x => line_ok x = true) l) (Ht : tail_ok tl = true).
Context (IH : forall a s, shaped a -> command_loop fuel (script b l) a param s = run l a param s).

(** What the commands do when the operation has returned *)
Lemma continue op a s u : shaped a -> skip_line u = Ok (script b l) ->
  (r ← call_strat op a param s;
   if success r.1 then u' ← skip_line u; command_loop fuel u' r.1 param r.2 else Ok r) =
  (r ← call_strat op a param s; if success r.1 then run l r.1 param r.2 else Ok r).
Proof.
  intros Ha Hu. destruct (call_strat op a param s) as [r|] eqn:Hr; [|done]. cbn [mbind cres_bind].
  apply call_shaped in Hr; [|done]. destruct (success r.1); [|done]. rewrite Hu. cbn [mbind cres_bind]. by apply IH.
Qed.

Lemma skip_tail : skip_line (tl ++ line_end b l) = Ok (script b l).
Proof. apply skip_line_tail. by eapply tail_facts. Qed.

Lemma tail_term : terminated (tl ++ line_end b l) = true.
Proof. apply terminated_app; [apply plain_ascii; by eapply tail_facts|by apply line_end_terminated]. Qed.

(** A line whose keyword and blanks have been scanned *)
Lemma scanned n c u : skip_blanks (after_keyword c tl ++ line_end b l) = Ok u ->
  scan_command (script b ({| indent := n; cmd := c; tail := tl |} :: l)) = Ok (code_of c, u).
Proof. intros Hu. rewrite script_cons. cbn [indent cmd tail]. by rewrite scan_line, Hu. Qed.

Lemma instbrick_run n nm p a s :
  line_ok {| indent := n; cmd := InstBrick nm p; tail := tl |} = true -> shaped a ->
  match p with None => forallb (fun y => negb (has_param y)) l = true | Some _ => True end ->
  command_loop (S fuel) (script b ({| indent := n; cmd := InstBrick nm p; tail := tl |} :: l)) a param s =
    run ({| indent := n; cmd := InstBrick nm p; tail := tl |} :: l) a param s.
Proof.
  unfold line_ok. cbn [cmd tail]. intros [_ [Hn Hp]%andb_prop]%andb_prop Ha Hlater. cbn [run cmd].
  set (rest := tl ++ match p with Some p => NL :: chars "b_param:=" ++ p | None => [] end ++ line_end b l).
  assert (skip_blanks (after_keyword (InstBrick nm p) tl ++ line_end b l) = Ok (ch ":" :: ch "=" :: nm ++ rest)) as Hs.
  { transitivity (Ok (after_keyword (InstBrick nm p) tl ++ line_end b l)); [by destruct p|]. f_equal. unfold rest.
    destruct p as [p|].
    - change (after_keyword (InstBrick nm (Some p)) tl) with (ch ":" :: ch "=" :: nm ++ tl ++ NL :: chars "b_param:=" ++ p).
      cbn [app]. by rewrite <- !app_assoc.
    - change (after_keyword (InstBrick nm None) tl) with (ch ":" :: ch "=" :: nm ++ tl).
      cbn [app]. by rewrite <- !app_assoc. }
  destruct (tail_facts tl b l Ht) as (Htp & (x & u & Hst & Hx) & _).
  assert (stops rest /\ terminated rest = true /\ scan_b_param rest = Ok (default [] p ++ [NUL], script b l))
    as (Hr1 & Hr2 & Hr3).
  { unfold rest. destruct p as [p|]; cbn [default]; [|].
    - split; [|split].
      + destruct tl as [|y t]; [by apply stops_term|]. injection Hst as -> _. cbn [app]. apply stops_term; apply Hx.
      + apply terminated_app; [by apply plain_ascii|]. cbn [app]. rewrite <- app_assoc.
        apply (terminated_app (NL :: chars "b_param:=")); [by repeat constructor|].
        apply terminated_app; [|by apply line_end_terminated].
        unfold param_ok in Hp. apply andb_prop in Hp as [Hp _]. by apply plain_ascii, line_chars_plain.
      + cbn [app]. rewrite <- app_assoc. by apply scan_b_param_some.
    - cbn [app]. split; [by exists x, u|]. split; [apply tail_term|]. by apply scan_b_param_none. }
  cbn [command_loop]. rewrite (scanned n _ _ Hs). cbn [mbind cres_bind code_of]. change (scod_brick =? scod_brick) with true.
  cbv iota. rewrite scan_op_run by done. cbn [mbind cres_bind].
  change sizeof_name with (Z.of_nat 24). rewrite (scan_name nm rest _ 24) by (done || apply Ha).
  cbn [mbind cres_bind]. change (ch ":" =? ch ":") with true. cbv iota. rewrite Hr3. cbn [mbind cres_bind fst snd].
  set (a1 := _ <| destr := false |>). assert (shaped a1) as Ha1 by exact (named a nm Hn Ha).
  change (upd _ (upd _ (upd _ (upd _ a)))) with a1.
  destruct (call_strat opcode_instbrick a1 _ s) as [r|] eqn:Hr; [|done]. cbn [mbind cres_bind].
  apply call_shaped in Hr; [|done]. destruct (success r.1); [|done]. by apply IH.
Qed.

Lemma brick_run n c nm op a s : c = DeinstBrick nm /\ op = ch "/" \/ c = OtherBrick op nm ->
  line_ok {| indent := n; cmd := c; tail := tl |} = true -> shaped a ->
  command_loop (S fuel) (script b ({| indent := n; cmd := c; tail := tl |} :: l)) a param s =
    run ({| indent := n; cmd := c; tail := tl |} :: l) a param s.
Proof.
  intros Hc Hok Ha. unfold line_ok in Hok. cbn [cmd tail] in Hok. apply andb_prop in Hok as [_ Hok].
  assert (name_ok 24 nm = true /\ (op = ch "/" \/ op = ch "+" \/ op = ch "-")) as [Hn Hop].
  { destruct Hc as [[-> ->]| ->]; [split; [done|by left]|]. apply andb_prop in Hok as [Hn Hop]. split; [done|].
    apply orb_prop in Hop as [?%Z.eqb_eq|?%Z.eqb_eq]; tauto. }
  assert (skip_blanks (after_keyword c tl ++ line_end b l) = Ok (op :: ch "=" :: nm ++ tl ++ line_end b l)) as Hs.
  { transitivity (skip_blanks (op :: ch "=" :: (nm ++ tl) ++ line_end b l)); [by destruct Hc as [[-> ->]| ->]|].
    rewrite <- app_assoc. apply (skip_blanks_run 0). destruct Hop as [-> |[-> | ->]]; done. }
  destruct (tail_facts tl b l Ht) as (Htp & Hst & _).
  cbn [command_loop]. rewrite (scanned n _ _ Hs). cbn [mbind cres_bind].
  replace (code_of c) with scod_brick by (by destruct Hc as [[-> _]| ->]). change (scod_brick =? scod_brick) with true.
  cbv iota. rewrite scan_op_run by (by destruct Hop as [-> |[-> | ->]]). cbn [mbind cres_bind].
  change sizeof_name with (Z.of_nat 24). rewrite (scan_name nm _ _ 24) by (done || apply tail_term || apply Ha).
  cbn [mbind cres_bind]. destruct Hc as [[-> ->]| ->]; cbn [run cmd].
  - done.
  - assert ((op =? ch ":") = false /\ (op =? ch "/") = false) as [-> ->].
    { apply andb_prop in Hok as [_ Hok]. by apply orb_prop in Hok as [->%Z.eqb_eq| ->%Z.eqb_eq]. }
    rewrite skip_tail. cbn [mbind cres_bind]. apply IH. by apply named.
Qed.

Lemma conn_run n o c cs op a s : c = DeinstConn o cs /\ op = ch "/" \/ c = InstConn o op cs ->
  line_ok {| indent := n; cmd := c; tail := tl |} = true -> shaped a ->
  command_loop (S fuel) (script b ({| indent := n; cmd := c; tail := tl |} :: l)) a param s =
    run ({| indent := n; cmd := c; tail := tl |} :: l) a param s.
Proof.
  intros Hc Hok Ha. unfold line_ok in Hok. cbn [cmd tail] in Hok. apply andb_prop in Hok as [_ Hok].
  assert (conn_ok cs = true /\ (op = ch "/" \/ op = ch ":" \/ op = ch "+" \/ op = ch "-")) as [Hn Hop].
  { destruct Hc as [[-> ->]| ->]; [split; [done|by left]|]. apply andb_prop in Hok as [Hn Hop]. split; [done|].
    apply orb_prop in Hop as [[?%Z.eqb_eq|?%Z.eqb_eq]%orb_prop|?%Z.eqb_eq]; tauto. }
  assert (skip_blanks (after_keyword c tl ++ line_end b l) = Ok (op :: ch "=" :: show_conn cs ++ tl ++ line_end b l)) as Hs.
  { transitivity (skip_blanks (op :: ch "=" :: (show_conn cs ++ tl) ++ line_end b l)); [by destruct Hc as [[-> ->]| ->], o|].
    rewrite <- app_assoc. apply (skip_blanks_run 0). destruct Hop as [-> |[-> |[-> | ->]]]; done. }
  destruct (tail_facts tl b l Ht) as (Htp & Hst & Hac).
  cbn [command_loop]. rewrite (scanned n _ _ Hs). cbn [mbind cres_bind].
  assert ((code_of c =? scod_brick) = false /\ (code_of c =? scod_input) || (code_of c =? scod_output) = true) as [-> ->]
    by (by destruct Hc as [[-> _]| ->], o).
  rewrite scan_op_run by (by destruct Hop as [-> |[-> |[-> | ->]]]). cbn [mbind cres_bind].
  rewrite (scan_conn cs) by (done || apply tail_term || apply Ha). rewrite Hac. cbn [mbind cres_bind negb].
  destruct Hc as [[-> ->]| ->]; cbn [run cmd].
  - change ((ch "/" =? ch ":") || (ch "/" =? ch "+") || (ch "/" =? ch "-") || (ch "/" =? ch "^")) with false.
    change (ch "/" =? ch "/") with true. cbv iota. apply continue; [|apply skip_tail]. by apply fill_conn1.
  - apply andb_prop in Hok as [_ Hok].
    apply orb_prop in Hok as [[->%Z.eqb_eq| ->%Z.eqb_eq]%orb_prop| ->%Z.eqb_eq];
      (apply continue; [by apply fill_conn1|apply skip_tail]).
Qed.

Lemma disconnect_run n cs a s :
  line_ok {| indent := n; cmd := Disconnect cs; tail := tl |} = true -> shaped a ->
  command_loop (S fuel) (script b ({| indent := n; cmd := Disconnect cs; tail := tl |} :: l)) a param s =
    run ({| indent := n; cmd := Disconnect cs; tail := tl |} :: l) a param s.
Proof.
  intros Hok Ha. unfold line_ok in Hok. cbn [cmd tail] in Hok. apply andb_prop in Hok as [_ Hn].
  assert (skip_blanks (after_keyword (Disconnect cs) tl ++ line_end b l) =
    Ok (show_conn cs ++ ch "/" :: ch "=" :: tl ++ line_end b l)) as Hs.
  { change (after_keyword (Disconnect cs) tl) with (SP :: show_conn cs ++ ch "/" :: ch "=" :: tl).
    cbn [app]. rewrite <- app_assoc. cbn [skip_blanks]. change (SP =? SP) with true. cbv iota. by apply skip_blanks_conn. }
  cbn [command_loop]. rewrite (scanned n _ _ Hs). cbn [mbind cres_bind code_of].
  change (scod_connect =? scod_brick) with false. change ((scod_connect =? scod_input) || (scod_connect =? scod_output)) with false.
  change (scod_connect =? scod_connect) with true. cbv iota.
  rewrite (scan_conn cs); [|done|by apply stops_term|by apply (terminated_app [ch "/"; ch "="]); [repeat constructor|apply tail_term]|apply Ha].
  cbn [mbind cres_bind negb]. change (after_comma (ch "/" :: ?q)) with (ch "/" :: q).
  rewrite scan_op_run by done. cbn [mbind cres_bind]. change (ch "/" =? ch "/") with true. cbv iota.
  apply continue; [by apply fill_conn1|apply skip_tail].
Qed.

Lemma connect_run n cs ts a s :
  line_ok {| indent := n; cmd := Connect cs ts; tail := tl |} = true -> shaped a ->
  command_loop (S fuel) (script b ({| indent := n; cmd := Connect cs ts; tail := tl |} :: l)) a param s =
    run ({| indent := n; cmd := Connect cs ts; tail := tl |} :: l) a param s.
Proof.
  intros Hok Ha. unfold line_ok in Hok. cbn [cmd tail] in Hok. apply andb_prop in Hok as [_ [[Hn Hts]%andb_prop _]%andb_prop].
  assert (skip_blanks (after_keyword (Connect cs ts) tl ++ line_end b l) =
    Ok (show_conn cs ++ ch ":" :: ch "=" :: show_targets ts ++ line_end b l)) as Hs.
  { change (after_keyword (Connect cs ts) tl) with (SP :: show_conn cs ++ ch ":" :: ch "=" :: show_targets ts).
    cbn [app]. rewrite <- app_assoc. cbn [skip_blanks]. change (SP =? SP) with true. cbv iota. by apply skip_blanks_conn. }
  cbn [command_loop run cmd]. rewrite (scanned n _ _ Hs). cbn [mbind cres_bind code_of].
  change (scod_connect =? scod_brick) with false. change ((scod_connect =? scod_input) || (scod_connect =? scod_output)) with false.
  change (scod_connect =? scod_connect) with true. cbv iota.
  assert (terminated (show_targets ts ++ line_end b l) = true) as Hterm.
  { apply terminated_app; [by apply plain_ascii, show_targets_ascii|by apply line_end_terminated]. }
  rewrite (scan_conn cs); [|done|by apply stops_term|by apply (terminated_app [ch ":"; ch "="]); [repeat constructor|]|apply Ha].
  cbn [mbind cres_bind negb]. change (after_comma (ch ":" :: ?q)) with (ch ":" :: q).
  rewrite scan_op_run by done. cbn [mbind cres_bind]. change (ch ":" =? ch "/") with false. change (ch ":" =? ch ":") with true.
  cbn [negb]. cbv iota. set (a1 := upd _ (upd _ a)). assert (shaped a1) as Ha1 by (by apply fill_conn1).
  pose proof (connect_loop_run b l ts (S (length (show_targets ts ++ line_end b l))) a1 param s Hl Hts Ha1) as Hloop.
  specialize (Hloop ltac:(rewrite length_app; pose proof (show_targets_length ts); lia)).
  change (upd _ (a <| success := false |>)) with a1.
  destruct (run_targets ts a1 param s) as [[[a2 s2] [|]]|f].
  - destruct Hloop as [buf ->]. done.
  - destruct Hloop as [Ha2 ->]. cbn [mbind cres_bind]. rewrite skip_line_end. cbn [mbind cres_bind]. apply IH.
    destruct Ha2 as (H1 & H2 & H3). split; [exact H1|]. split; [exact H2|]. cbn.
    destruct l as [|x l']; [done|]. cbn [looked_at]. by destruct (cmd x).
  - by rewrite Hloop.
Qed.
End one_line.

Lemma script_run b l fuel a param s :
  Forall (fun x => line_ok x = true) l -> params_ok l = true -> shaped a -> (length l < fuel)%nat ->
  command_loop fuel (script b l) a param s = run l a param s.
Proof.
  intros Hl. revert fuel a s. induction Hl as [|x l Hx Hl IH]; intros [|fuel] a s Hp Ha Hf; cbn [length] in Hf; try lia.
  - cbn [script command_loop run]. by rewrite scan_command_end.
  - cbn [params_ok] in Hp. apply andb_prop in Hp as [Hlater Hp].
    assert (forall a s, shaped a -> command_loop fuel (script b l) a param s = run l a param s) as IHl.
    { intros a' s' Ha'. apply IH; [done|done|lia]. }
    destruct x as [n c tl]. assert (tail_ok tl = true) as Ht by (unfold line_ok in Hx; apply andb_prop in Hx as [Hx _]; exact Hx).
    destruct c as [nm p|nm|op nm|o op c|o c|c ts|c].
    + apply (instbrick_run b l tl fuel param Hl Ht IHl); [done|done|]. by destruct p.
    + by apply (brick_run b l tl fuel param Hl Ht IHl n _ nm (ch "/")); [left|..].
    + by apply (brick_run b l tl fuel param Hl Ht IHl n _ nm op); [right|..].
    + by apply (conn_run b l tl fuel param Hl Ht IHl n o _ c op); [right|..].
    + by apply (conn_run b l tl fuel param Hl Ht IHl n o _ c (ch "/")); [left|..].
    + by apply (connect_run b l tl fuel param Hl IHl).
    + by apply (disconnect_run b l tl fuel param Hl Ht IHl).
Qed.
End interpretation.

Lemma script_length b l : (length l < length (script b l))%nat.
Proof.
  induction l as [|x l IH]; [cbn; lia|]. rewrite script_cons, !length_app, show_keyword, length_app. cbn [length].
  assert (0 < length (keyword_of (cmd x)))%nat by (destruct (cmd x) as [nm p|nm|op nm|[] op c|[] c|c ts|c]; cbn; lia).
  unfold line_end. rewrite length_app. lia.
Qed.

(** C33: strategy commands mean what they say.  Take any lines of commands in the
    text form of the strategy protocol (bricks, with and without a parameter
    line, inputs and outputs with any operator, connections to any number of
    targets, disconnections; indented or not, with or without an index, with
    trailing text), where no brick without a parameter stands before one with a
    parameter.  On their text [$trans] calls the strategy's operations exactly
    as the commands say, in order, with the names, indices, addresses and
    parameters of the commands, stops at the first operation that fails, and
    has the result that this has; for any strategy that keeps the size of the
    arrays in its arguments.  The fuel that [trans] chooses is enough. *)
Theorem commands_interpreted `{StrategyLaws ST} b l a param (s : ST) :
  Forall (fun x => line_ok x = true) l -> params_ok l = true ->
  length (name a) = 24%nat -> direction a = direct_write ->
  trans (script b l) a param s =
    run l (a <| conn1 := Some (zero_conn <| conn_addr := log_addr a |>) |> <| conn2 := Some zero_conn |>) param s.
Proof.
  intros Hl Hp Ha Hd. unfold trans. rewrite Hd. apply script_run; [done|done|by split|].
  pose proof (script_length b l). lia.
Qed.

(** ** A strategy that records its calls *)

Definition journal : Type := list (op_t * text * conn_info * conn_info * text).

#[export] Instance recorder : Strategy journal := fun op a param j =>
  Ok (a <| success := true |>, j ++ [(op, body (name a), the_conn1 a, the_conn2 a, body param)]).

#[export] Instance recorder_laws : StrategyLaws journal.
Proof. intros op a param s a' s' [= <- <-] H. exact H. Qed.

Definition control_args : args :=
  zero_args <| name := replicate 24 0 |> <| direction := direct_write |> <| log_addr := 0x3000 |>.

(** A brick with a parameter, connected and with an output. *)
Definition example_lines : list line :=
  [ {| indent := 0; cmd := InstBrick (chars "adapt_meta") (Some (chars "size=4 mode=1")); tail := [] |};
    {| indent := 1; cmd := Connect {| cs_name := chars "in"; cs_index := None |}
         [(0x2000, {| cs_name := chars "out"; cs_index := Some 3 |})]; tail := [] |};
    {| indent := 1; cmd := InstConn true (ch ":") {| cs_name := chars "out"; cs_index := None |}; tail := chars "{" |} ].

Definition named_conn (a i : Z) (s : string) : conn_info :=
  {| conn_addr := a; conn_index := i; conn_name := chars s ++ replicate (8 - length (chars s)) 0 |}.

Lemma commands_interpreted_witness :
  exists a, trans (chars "brick:=adapt_meta" ++ NL :: chars "b_param:=size=4 mode=1" ++ NL ::
      chars " connect in:=2000:out[3]" ++ NL :: chars " output:=out{" ++ [NUL]) control_args [NUL] [] =
    Ok (a, [ (opcode_instbrick, chars "adapt_meta", named_conn 0x3000 0 "", named_conn 0 0 "", chars "size=4 mode=1");
             (opcode_connect, chars "adapt_meta", named_conn 0x3000 0 "in", named_conn 0x2000 3 "out", []);
             (opcode_instconn, chars "adapt_meta", named_conn 0x3000 0 "out", named_conn 0x2000 3 "out", []) ]).
Proof.
  eexists. refine (eq_trans (commands_interpreted false example_lines control_args [NUL] [] _ _ _ _) _).
  - repeat constructor.
  - reflexivity.
  - reflexivity.
  - reflexivity.
  - vm_compute. reflexivity.
Defined.

(** ** What the interpreter does to other texts *)

Definition calls (t : text) : option (bool * journal) :=
  match trans t control_args [NUL] [] with Ok (a, j) => Some (success a, j) | Fault _ => None end.

(** A brick without a parameter takes the next one of the text, and everything
    in between is skipped: here the second brick and the output of the first. *)
Lemma b_param_stolen :
  calls (chars "brick:=one" ++ NL :: chars " output:=out" ++ NL :: chars "brick:=two" ++ NL ::
    chars " b_param:=p" ++ [NL; NUL]) =
  Some (true, [(opcode_instbrick, chars "one", named_conn 0x3000 0 "", named_conn 0 0 "", chars "p")]).
Proof. vm_compute. reflexivity. Qed.

(** An operator that bricks do not have is reported as a success, and the
    operator [^] is not one for the scanner. *)
Lemma ignored_operators :
  calls (chars "brick+=cpu" ++ [NL; NUL]) = Some (true, []) /\
  calls (chars "output^=out" ++ [NL; NUL]) = Some (true, []).
Proof. split; vm_compute; reflexivity. Qed.
