(* ===== verification/Cells.v ===== *)
(** * Linked structures in memory

    The strategy brick keeps its bricks, connectors and connections in linked
    lists through members of structures.  A structure is an object, a member
    that points to another structure is a cell of it, and the memory says what
    the cells of all allocated structures hold.  Loops over a list take the
    number of cells as fuel, which a list without repetition never uses up. *)

From S2P Require Import Prelude.

(** ** Structures and members *)

Inductive obj :=
  | Brick (b : nat)                   (* struct brick_header *)
  | Slot (b i : nat)                  (* its connector[i] *)
  | Dyn (n : nat)                     (* a struct connector_header of its own *)
  | Entry (i : nat)                   (* main_dir[i] *)
  | Bucket (i : nat)                  (* brick_hash[i] *)
  | Part (b c : nat) (k : Z)          (* the input or output of connector c[k] in the instance of a brick *)
  | Block (n : nat)                   (* one with an allocation of its own *)
  | Inner (b m : nat).                (* an input of a brick inside the brick *)

Inductive field :=
  | First | Chain | ConnNext | Connect | RevNext | RevChain | HashNext | Connectors | Last.

#[export] Instance obj_eq_dec : EqDecision obj.
Proof. solve_decision. Defined.
#[export] Instance field_eq_dec : EqDecision field.
Proof. solve_decision. Defined.

#[export] Instance obj_countable : Countable obj.
Proof.
  refine (inj_countable'
    (fun o => match o with
      | Brick b => (0, b, 0, 0%Z) | Slot b i => (1, b, i, 0%Z) | Dyn n => (2, n, 0, 0%Z)
      | Entry i => (3, i, 0, 0%Z) | Bucket i => (4, i, 0, 0%Z) | Part b c k => (5, b, c, k)
      | Block n => (6, n, 0, 0%Z) | Inner b m => (7, b, m, 0%Z) end)
    (fun x => match x with
      | (0, b, _, _) => Brick b | (1, b, i, _) => Slot b i | (2, n, _, _) => Dyn n
      | (3, i, _, _) => Entry i | (4, i, _, _) => Bucket i | (5, b, c, k) => Part b c k
      | (6, n, _, _) => Block n | (_, b, m, _) => Inner b m end) _).
  by intros [].
Defined.

#[export] Instance field_countable : Countable field.
Proof.
  refine (inj_countable'
    (fun f => match f with First => 0 | Chain => 1 | ConnNext => 2 | Connect => 3 | RevNext => 4
      | RevChain => 5 | HashNext => 6 | Connectors => 7 | Last => 8 end)
    (fun n => match n with 0 => First | 1 => Chain | 2 => ConnNext | 3 => Connect | 4 => RevNext
      | 5 => RevChain | 6 => HashNext | 7 => Connectors | _ => Last end) _).
  by intros [].
Defined.

Abbreviation cell := (field * obj)%type.
Abbreviation cells := (gmap cell (option obj)).

(** A null pointer is [None]; a cell that is not there belongs to no allocated structure. *)
Definition load (c : cell) (m : cells) : cres (option obj) :=
  match m !! c with Some v => Ok v | None => Fault OutOfBounds end.

Definition store (c : cell) (v : option obj) (m : cells) : cres cells :=
  match m !! c with Some _ => Ok (<[c := v]> m) | None => Fault OutOfBounds end.

(** [memset(space, 0, size)] and [free] *)
Definition alloc (l : list cell) (m : cells) : cells := foldr (fun c => <[c := None]>) m l.
Definition release (l : list cell) (m : cells) : cells := foldr delete m l.

(** ** Loops over a list

    The list starts in the cell [c] and goes on in the member [next]. *)

(** [for(p = *c; p; p = p->next) if(test(p)) return p;] *)
Fixpoint find_loop (fuel : nat) (m : cells) (c : cell) (next : field) (test : obj -> cres bool) : cres (option obj) :=
  match fuel with
  | O => Fault OutOfFuel
  | S fuel' =>
    p ← load c m;
    match p with
    | None => Ok None
    | Some x => b ← test x; if b : bool then Ok (Some x) else find_loop fuel' m (next, x) next test
    end
  end.

Definition find_in (m : cells) := find_loop (S (size m)) m.

(** [for(ptr = &c; *ptr; ptr = &( *ptr)->next) if( *ptr == x) break;]: the cell that holds [x] *)
Fixpoint cell_loop (fuel : nat) (m : cells) (c : cell) (next : field) (x : obj) : cres (option cell) :=
  match fuel with
  | O => Fault OutOfFuel
  | S fuel' =>
    p ← load c m;
    match p with
    | None => Ok None
    | Some y => if decide (y = x) then Ok (Some c) else cell_loop fuel' m (next, y) next x
    end
  end.

Definition find_cell (m : cells) := cell_loop (S (size m)) m.

(** All elements, for loops that visit each *)
Fixpoint elements_loop (fuel : nat) (m : cells) (c : cell) (next : field) : cres (list obj) :=
  match fuel with
  | O => Fault OutOfFuel
  | S fuel' =>
    p ← load c m;
    match p with
    | None => Ok []
    | Some x => l ← elements_loop fuel' m (next, x) next; Ok (x :: l)
    end
  end.

Definition elements_of (m : cells) := elements_loop (S (size m)) m.

(** ** Lists *)

(** From [c] the memory holds the list [l]. *)
Fixpoint seg (m : cells) (c : cell) (next : field) (l : list obj) : Prop :=
  match l with
  | [] => m !! c = Some None
  | x :: l' => m !! c = Some (Some x) /\ seg m (next, x) next l'
  end.

Lemma seg_head m c next l : seg m c next l -> m !! c = Some (head l).
Proof. destruct l; [done|by intros [? _]]. Qed.

Lemma seg_cells m c next l x : seg m c next l -> x ∈ l -> is_Some (m !! (next, x)).
Proof.
  revert c. induction l as [|y l IH]; intros c H Hx; [by apply not_elem_of_nil in Hx|].
  destruct H as [_ H]. apply elem_of_cons in Hx as [->|Hx]; [|eauto].
  apply seg_head in H. eauto.
Qed.

Lemma seg_unique m c next l l' : seg m c next l -> seg m c next l' -> l = l'.
Proof.
  revert c l'. induction l as [|x l IH]; intros c l' H H'.
  - apply seg_head in H'. simpl in H. rewrite H in H'. by destruct l'.
  - apply seg_head in H' as Hh. destruct H as [Hx H]. rewrite Hx in Hh. destruct l' as [|y l']; [done|].
    injection Hh as ->. destruct H' as [_ H']. f_equal. eauto.
Qed.

(** Only the cells of the list matter. *)
Lemma seg_frame m m' c next l :
  seg m c next l -> m' !! c = m !! c -> (forall x, x ∈ l -> m' !! (next, x) = m !! (next, x)) ->
  seg m' c next l.
Proof.
  revert c. induction l as [|x l IH]; intros c H Hc Hl; simpl in *; [by rewrite Hc|].
  destruct H as [Hx H]. rewrite Hc. split; [done|]. apply IH; [done| |].
  - apply Hl. by left.
  - intros y Hy. apply Hl. by right.
Qed.

Lemma seg_insert_ne m c next l c' v :
  seg m c next l -> c' <> c -> (forall x, x ∈ l -> c' <> (next, x)) -> seg (<[c' := v]> m) c next l.
Proof.
  intros H Hc Hl. eapply seg_frame; [exact H| |]; [by rewrite lookup_insert_ne|].
  intros x Hx. rewrite lookup_insert_ne; [done|by apply Hl].
Qed.

Lemma seg_length m c next l : seg m c next l -> NoDup l -> (length l <= size m)%nat.
Proof.
  intros H Hl. assert (list_to_set ((fun x => (next, x)) <$> l) ⊆ dom m) as Hsub.
  { intros k [x [-> Hx]]%elem_of_list_to_set%list_elem_of_fmap.
    apply elem_of_dom. by eapply seg_cells. }
  apply subseteq_size in Hsub. rewrite size_dom, size_list_to_set, length_fmap in Hsub; [done|].
  apply NoDup_fmap_2; [|done]. by intros ?? [= ?].
Qed.

Lemma load_some m c v : m !! c = Some v -> load c m = Ok v.
Proof. intros H. unfold load. by rewrite H. Qed.

Lemma store_some m c v : is_Some (m !! c) -> store c v m = Ok (<[c := v]> m).
Proof. intros [w H]. unfold store. by rewrite H. Qed.

(** The loops compute on the list. *)
Lemma find_loop_seg fuel m c next l test (p : obj -> bool) :
  seg m c next l -> (length l < fuel)%nat -> (forall x, x ∈ l -> test x = Ok (p x)) ->
  find_loop fuel m c next test = Ok (List.find p l).
Proof.
  revert fuel c. induction l as [|x l IH]; intros [|fuel] c H Hf Ht; simpl in Hf; try lia; cbn [find_loop].
  - by rewrite (load_some _ _ _ H).
  - destruct H as [Hx H]. rewrite (load_some _ _ _ Hx). cbn [mbind cres_bind].
    rewrite Ht by by left. cbn [mbind cres_bind List.find]. destruct (p x); [done|].
    apply IH; [done|lia|]. intros y Hy. apply Ht. by right.
Qed.

Lemma find_in_seg m c next l test (p : obj -> bool) :
  seg m c next l -> NoDup l -> (forall x, x ∈ l -> test x = Ok (p x)) ->
  find_in m c next test = Ok (List.find p l).
Proof. intros H Hl. apply find_loop_seg; [done|]. pose proof (seg_length _ _ _ _ H Hl). lia. Qed.

Lemma elements_loop_seg fuel m c next l :
  seg m c next l -> (length l < fuel)%nat -> elements_loop fuel m c next = Ok l.
Proof.
  revert fuel c. induction l as [|x l IH]; intros [|fuel] c H Hf; simpl in Hf; try lia; cbn [elements_loop].
  - by rewrite (load_some _ _ _ H).
  - destruct H as [Hx H]. rewrite (load_some _ _ _ Hx). cbn [mbind cres_bind].
    by rewrite (IH fuel) by (done || lia).
Qed.

Lemma elements_of_seg m c next l : seg m c next l -> NoDup l -> elements_of m c next = Ok l.
Proof. intros H Hl. apply elements_loop_seg; [done|]. pose proof (seg_length _ _ _ _ H Hl). lia. Qed.

(** The cell in front of an element *)
Fixpoint cell_before (c : cell) (next : field) (l : list obj) (x : obj) : cell :=
  match l with
  | [] => c
  | y :: l' => if decide (y = x) then c else cell_before (next, y) next l' x
  end.

Lemma find_cell_seg m c next l x :
  seg m c next l -> NoDup l -> find_cell m c next x = Ok (if decide (x ∈ l) then Some (cell_before c next l x) else None).
Proof.
  intros H Hl. assert (length l < S (size m))%nat as Hf by (pose proof (seg_length _ _ _ _ H Hl); lia).
  unfold find_cell. clear Hl. revert H Hf. generalize (S (size m)) as fuel. revert c.
  induction l as [|y l IH]; intros c [|fuel] H Hf; simpl in Hf; try lia; cbn [cell_loop].
  - rewrite (load_some _ _ _ H). cbn [mbind cres_bind]. by rewrite decide_False by apply not_elem_of_nil.
  - destruct H as [Hy H]. rewrite (load_some _ _ _ Hy). cbn [mbind cres_bind cell_before].
    destruct (decide (y = x)) as [->|Hne].
    + by rewrite decide_True by by left.
    + rewrite (IH _ fuel) by (done || lia). repeat case_decide; try done; exfalso; set_solver.
Qed.

Lemma cell_before_in c next l x : cell_before c next l x = c \/ exists y, y ∈ l /\ y <> x /\ cell_before c next l x = (next, y).
Proof.
  revert c. induction l as [|y l IH]; intros c; simpl; [by left|].
  destruct (decide (y = x)) as [->|Hne]; [by left|].
  destruct (IH (next, y)) as [->|(z & Hz & Hzx & ->)]; right.
  - exists y. split; [by left|done].
  - exists z. split; [by right|done].
Qed.

Lemma cell_before_some m c next l x : seg m c next l -> x ∈ l -> m !! cell_before c next l x = Some (Some x).
Proof.
  revert c. induction l as [|y l IH]; intros c H Hx; [by apply not_elem_of_nil in Hx|].
  destruct H as [Hy H]. simpl. destruct (decide (y = x)) as [->|Hne]; [done|].
  apply IH; [done|]. by apply elem_of_cons in Hx as [->|Hx].
Qed.

Lemma filter_keep {A} (P : A -> Prop) `{forall x, Decision (P x)} (l : list A) : (forall x, x ∈ l -> P x) -> filter P l = l.
Proof.
  induction l as [|x l IH]; intros Hl; [done|]. rewrite filter_cons, decide_True by (apply Hl; by left).
  f_equal. apply IH. intros y Hy. apply Hl. by right.
Qed.

(** Storing the successor into the cell in front takes an element out. *)
Lemma seg_unlink m c next l x v :
  seg m c next l -> NoDup l -> (forall y, y ∈ l -> c <> (next, y)) -> x ∈ l -> m !! (next, x) = Some v ->
  seg (<[cell_before c next l x := v]> m) c next (filter (fun y => y <> x) l).
Proof.
  intros H Hl Hc Hx Hv.
  enough (forall c, (forall y, y ∈ l -> c <> (next, y)) -> seg m c next l ->
    seg (<[cell_before c next l x := v]> m) c next (filter (fun y => y <> x) l)) as Hgen by (apply Hgen; naive_solver).
  clear c H Hc. induction Hl as [|y l Hy Hl IH]; intros c Hc H; [by apply not_elem_of_nil in Hx|].
  destruct H as [Hcy H]. cbn [cell_before]. rewrite filter_cons. destruct (decide (y = x)) as [->|Hne].
  - rewrite decide_False by tauto.
    assert (filter (fun y => y <> x) l = l) as Hfl.
    { apply filter_keep. by intros z Hz ->. }
    rewrite Hfl. destruct l as [|z l]; simpl in H |- *.
    + rewrite lookup_insert. rewrite H in Hv. rewrite decide_True by done. by simplify_eq.
    + destruct H as [Hz H]. rewrite lookup_insert, decide_True by done.
      assert (v = Some z) as -> by congruence. split; [done|].
      apply seg_insert_ne; [done| |]; [|intros w Hw]; apply Hc; set_solver.
  - rewrite decide_True by done. apply elem_of_cons in Hx as [->|Hx]; [done|]. split.
    + rewrite lookup_insert_ne; [done|].
      destruct (cell_before_in (next, y) next l x) as [->|(z & Hz & _ & ->)].
      * intros Heq. symmetry in Heq. revert Heq. apply Hc. by left.
      * intros Heq. symmetry in Heq. revert Heq. apply Hc. by right.
    + apply IH; [done| |done]. intros z Hz [= ->]. done.
Qed.

Lemma seg_cons m c next l x :
  seg m c next l -> c <> (next, x) -> (forall y, y ∈ l -> (next, y) <> c) -> x ∉ l ->
  seg (<[c := Some x]> (<[(next, x) := head l]> m)) c next (x :: l).
Proof.
  intros H Hc Hl Hx. split; [by rewrite lookup_insert, decide_True|].
  apply seg_frame with (m := <[(next, x) := head l]> m).
  - destruct l as [|y l]; simpl; [by rewrite lookup_insert, decide_True|].
    split; [by rewrite lookup_insert, decide_True|]. destruct H as [_ H].
    apply seg_insert_ne; [done|intros [= ->]; set_solver|]. intros z Hz [= ->]. set_solver.
  - by rewrite lookup_insert_ne.
  - intros y Hy. rewrite lookup_insert_ne; [done|]. intros Heq. symmetry in Heq. revert Heq. by apply Hl.
Qed.

Lemma seg_snoc m c next l x :
  seg m c next l -> NoDup l -> (forall y, c <> (next, y)) -> m !! (next, x) = Some None -> x ∉ l ->
  seg (<[match last l with Some y => (next, y) | None => c end := Some x]> m) c next (l ++ [x]).
Proof.
  intros H Hl Hc Hx Hxl.
  enough (forall c, (forall y, y ∈ l ++ [x] -> c <> (next, y)) -> seg m c next l ->
    seg (<[match last l with Some y => (next, y) | None => c end := Some x]> m) c next (l ++ [x])) as Hgen
    by (apply Hgen; naive_solver).
  clear c H Hc. induction Hl as [|y l Hy Hl IH]; intros c Hc H.
  - simpl. rewrite lookup_insert, decide_True by done. split; [done|].
    rewrite lookup_insert_ne; [done|]. apply Hc. set_solver.
  - destruct H as [Hcy H]. specialize (IH ltac:(set_solver) (next, y)).
    assert (last (y :: l) = match last l with Some z => Some z | None => Some y end) as ->.
    { destruct l as [|z l]; [done|]. rewrite last_cons_cons. by destruct (last (z :: l)) eqn:Hlast; [|apply last_None in Hlast]. }
    assert (match match last l with Some z => Some z | None => Some y end with Some z => (next, z) | None => c end
      = match last l with Some z => (next, z) | None => (next, y) end) as -> by by destruct (last l).
    split.
    + rewrite lookup_insert_ne; [done|]. destruct (last l) as [z|] eqn:Hz.
      * apply last_Some_elem_of in Hz. intros Heq. symmetry in Heq. revert Heq. apply Hc. set_solver.
      * intros Heq. symmetry in Heq. revert Heq. apply Hc. set_solver.
    + apply IH; [|done]. intros z Hz [= ->]. apply elem_of_app in Hz as [?|?%list_elem_of_singleton]; [done|]. set_solver.
Qed.

(** ** Allocation *)

Lemma lookup_alloc l m c : alloc l m !! c = if decide (c ∈ l) then Some None else m !! c.
Proof.
  induction l as [|x l IH]; [by rewrite decide_False by apply not_elem_of_nil|].
  cbn [alloc release foldr].
  destruct (decide (x = c)) as [->|Hne].
  - rewrite lookup_insert. by rewrite !decide_True by (done || by left).
  - rewrite lookup_insert_ne by done. unfold alloc in IH. rewrite IH. repeat case_decide; try done; exfalso; set_solver.
Qed.

Lemma lookup_release l m c : release l m !! c = if decide (c ∈ l) then None else m !! c.
Proof.
  induction l as [|x l IH]; [by rewrite decide_False by apply not_elem_of_nil|].
  cbn [alloc release foldr].
  destruct (decide (x = c)) as [->|Hne].
  - rewrite lookup_delete. by rewrite !decide_True by (done || by left).
  - rewrite lookup_delete_ne by done. unfold release in IH. rewrite IH. repeat case_decide; try done; exfalso; set_solver.
Qed.
