(* ===== verification/ControlSimple.v ===== *)
(** * The strategy brick: [control_simple.ath]

    [control_simple] creates bricks and connectors and wires inputs to outputs,
    for all bricks of its address space.  Bricks are found by their address in a
    hash table of lists; the connectors of a brick and the inputs connected to
    an output are lists, too, and so are the inputs behind the output structure
    itself, which bricks use to call back (Cells).

    The code of the bricks is generated from their sources: what it does is a
    parameter, functions on a state [W] of its own, and so are the tables of
    loaders.  It neither calls the strategy brick back nor changes the members
    that connect inputs and outputs.  The stack and [malloc] are parameters:
    what an uninitialised argument record holds, and which requests are
    granted. *)

From S2P Require Import Prelude CLib Common StratScan AdaptStrat Cells.
Open Scope Z_scope.

Definition REPRES_MAX : Z := 4096.
Definition BRICK_HASH_MAX : Z := 1024 * 2.
Definition MAINDIR_MAX : nat := 32.
(** 8, 4 and 8 bytes on 32-bit x86 *)
Definition sizeof_conn_info : Z := 20.

(** ** Tables of the loaders ([common.h]) *)

Record load_conn_t := {
  l_name : text;                       (* sname_t *)
  l_static_info : text;
  l_gen_type : list (text * Z * Z);    (* gen_typename, gen_table, gen_offset; sorted *)
  l_type : bool;                       (* FALSE: input, TRUE: output *)
  l_export : bool;
  l_start_index : nat;
  l_count : Z;                         (* 0: dynamic array *)
  l_sect_count : Z
}.

Record loader_t := {
  ld_name : text;                      (* name_t *)
  ld_static_info : text;
  ld_conns : list load_conn_t;         (* conn_count elements *)
  ld_totalcount : nat;                 (* conn_totalcount *)
  ld_wires : list (nat * Z)            (* outputs to which inner inputs are wired *)
}.

(** The functions of a loader; a brick is identified by its header, a
    connector by its input or output structure. *)
Record brick_code (W : Type) := {
  static_init : nat -> W -> W;
  dynamic_init : nat -> nat -> text -> Z -> W -> Z * W;
  dynamic_exit : nat -> nat -> text -> W -> W;
  init_brick : nat -> nat -> args -> text -> W -> args * W;
  init_code : nat -> nat -> obj -> nat -> W -> W;
  init_conn : nat -> nat -> obj -> args -> text -> W -> args * W;
  uninitialized : obj -> W -> bool     (* ops == uninitialized_input, uninitialized_output *)
}.
Arguments static_init {W}.
Arguments dynamic_init {W}.
Arguments dynamic_exit {W}.
Arguments init_brick {W}.
Arguments init_code {W}.
Arguments init_conn {W}.
Arguments uninitialized {W}.

(** ** State *)

(** [struct connector_header] but for its links; a string is known by its block. *)
Record connector_header := {
  belonging : option nat;
  instance : option obj;
  c_param : option nat;
  load_conn : option (nat * nat);      (* &loaders[i]->conn[j] *)
  c_index : Z
}.
#[export] Instance eta_connector_header : Eta connector_header := fun r =>
  {| belonging := belonging r; instance := instance r; c_param := c_param r; load_conn := load_conn r; c_index := c_index r |}.

Definition zero_header : connector_header :=
  {| belonging := None; instance := None; c_param := None; load_conn := None; c_index := 0 |}.

(** [struct brick_header] but for its links *)
Record brick_header := { addr : Z; b_param : option nat; b_loader : option nat }.
#[export] Instance eta_brick_header : Eta brick_header := fun r =>
  {| addr := addr r; b_param := b_param r; b_loader := b_loader r |}.

Record control_state (W : Type) := {
  mem : cells;
  headers : gmap obj connector_header;
  bricks : gmap nat brick_header;
  strings : gmap nat (bool * text);    (* FALSE: a literal *)
  tables : gmap (nat * Z) Z;           (* generic types of an instance, by offset *)
  main_dir : list text;                (* name of each entry *)
  allocs : nat;                        (* calls of malloc *)
  counter : Z;
  last_addr : Z;
  mand : Z;
  root_sid : option text;
  shown : text;                        (* what was last printed for the caller *)
  world_ : W
}.
Arguments mem {W}.
Arguments headers {W}.
Arguments bricks {W}.
Arguments strings {W}.
Arguments tables {W}.
Arguments main_dir {W}.
Arguments allocs {W}.
Arguments counter {W}.
Arguments last_addr {W}.
Arguments mand {W}.
Arguments root_sid {W}.
Arguments shown {W}.
Arguments world_ {W}.
#[export] Instance eta_state W : Eta (control_state W) := fun r =>
  {| mem := mem r; headers := headers r; bricks := bricks r; strings := strings r; tables := tables r;
     main_dir := main_dir r; allocs := allocs r; counter := counter r; last_addr := last_addr r; mand := mand r;
     root_sid := root_sid r; shown := shown r; world_ := world_ r |}.

(** [strcmp] of the C library *)
Fixpoint strcmp (s t : text) : cres Z :=
  match s, t with
  | x :: s', y :: t' => if x =? y then if x =? 0 then Ok 0 else strcmp s' t' else Ok (wrap 8 x - wrap 8 y)
  | _, _ => Fault OutOfBounds
  end.

Section control.
Context {W : Type} (loaders : list loader_t) (code : brick_code W) (grants : nat -> bool) (junk : args).
Abbreviation state := (control_state W).

(** ** Operations on the state *)

Definition control (A : Type) : Type := state -> cres (A * state).
#[export] Instance control_ret : MRet control := fun A a s => Ok (a, s).
#[export] Instance control_bind : MBind control := fun A B k p s =>
  match p s with Ok (a, s') => k a s' | Fault f => Fault f end.

Definition get {A} (f : state -> A) : control A := fun s => Ok (f s, s).
Definition modify (f : state -> state) : control unit := fun s => Ok (tt, f s).
Definition lift {A} (c : cres A) : control A := fun s => a ← c; Ok (a, s).
Definition fault {A} (f : fault) : control A := fun _ => Fault f.

Definition read (c : cell) : control (option obj) := m ← get mem; lift (load c m).
Definition write (c : cell) (v : option obj) : control unit :=
  m ← get mem; m ← lift (store c v m); modify (fun s => s <| mem := m |>).

(** Reading through a pointer *)
Definition the {A} (v : option A) : control A := match v with Some a => mret a | None => fault OutOfBounds end.
Definition header (o : obj) : control connector_header := l ← get headers; the (l !! o).
Definition set_header (o : obj) (h : connector_header) : control unit :=
  _ ← header o; modify (fun s => s <| headers := <[o := h]> (headers s) |>).
Definition brick_at (b : nat) : control brick_header := l ← get bricks; the (l !! b).
Definition set_brick (b : nat) (h : brick_header) : control unit :=
  _ ← brick_at b; modify (fun s => s <| bricks := <[b := h]> (bricks s) |>).
Definition string_at (p : nat) : control text := l ← get strings; r ← the (l !! p); mret r.2.
Definition conn_entry (ld i : nat) : control load_conn_t := l ← the (loaders !! ld); the (ld_conns l !! i).
(** [brick->loader] *)
Definition loader_of (b : nat) : control nat := h ← brick_at b; the (b_loader h).
(** [conn->load_conn] as a structure *)
Definition load_conn_of (o : obj) : control load_conn_t :=
  h ← header o; r ← the (load_conn h); conn_entry r.1 r.2.

Definition in_code {A} (f : W -> A * W) : control A := fun s =>
  let r := f (world_ s) in Ok (r.1, s <| world_ := r.2 |>).

(** [malloc] yields a block that is not used yet, or NULL. *)
Definition malloc : control (option nat) := fun s =>
  Ok (if grants (allocs s) then Some (allocs s) else None, s <| allocs := S (allocs s) |>).

Definition free_string (p : nat) : control unit :=
  l ← get strings;
  match l !! p with
  | Some (true, _) => modify (fun s => s <| strings := delete p l |>)
  | _ => fault OutOfBounds
  end.

Definition inst_cells (type : bool) (o : obj) : list cell :=
  if type then [(RevChain, o)] else [(Connect, o); (RevNext, o)].
Definition header_cells (o : obj) : list cell := [(First, o); (Chain, o); (ConnNext, o)].

(** [free(conn->instance)] *)
Definition free_instance (type : bool) (o : option obj) : control unit :=
  m ← get mem;
  match o with
  | None => mret tt
  | Some (Block n) =>
    match m !! (if type then RevChain else Connect, Block n) with
    | Some _ => modify (fun s => s <| mem := release (inst_cells type (Block n)) m |>)
    | None => fault OutOfBounds
    end
  | Some _ => fault OutOfBounds
  end.

(** A loop over a list that only reads *)
Definition search (c : cell) (next : field) (test : state -> obj -> cres bool) : control (option obj) :=
  fun s => r ← find_in (mem s) c next (test s); Ok (r, s).

(** ** The main directory *)

Fixpoint new_main_dir_loop (name : text) (l : list text) : cres (option (list text)) :=
  match l with
  | [] => Ok None
  | x :: l' =>
    c ← deref x;
    if negb (c =? 0) then r ← new_main_dir_loop name l'; Ok (match r with Some l => Some (x :: l) | None => None end)
    else y ← strncpy name 8; Ok (Some (y :: l'))
  end.

Definition new_main_dir (name : text) : control bool :=
  l ← get main_dir;
  r ← lift (new_main_dir_loop name l);
  match r with
  | None => mret false
  | Some l' => _ ← modify (fun s => s <| main_dir := l' |>); mret true
  end.

Fixpoint find_main_dir_loop (name : text) (l : list text) (i : nat) : cres (option nat) :=
  match l with
  | [] => Ok None
  | x :: l' => c ← strcmp x name; if c =? 0 then Ok (Some i) else find_main_dir_loop name l' (S i)
  end.

Definition find_main_dir (name : text) : control (option obj) :=
  l ← get main_dir; r ← lift (find_main_dir_loop name l 0); mret (match r with Some i => Some (Entry i) | None => None end).

(** ** Finding *)

Fixpoint find_loader_loop (name : text) (l : list loader_t) (i : nat) : cres (option nat) :=
  match l with
  | [] => Ok None
  | x :: l' => c ← strcmp (ld_name x) name; if c =? 0 then Ok (Some i) else find_loader_loop name l' (S i)
  end.

(** The index, or [None] for -1 *)
Definition find_loader (name : text) : cres (option nat) := find_loader_loop name loaders 0.

(** [unsigned long] has 32 bits. *)
Definition brick_hash_fn (addr : Z) : Z := u32 addr / REPRES_MAX mod BRICK_HASH_MAX.
Definition bucket (addr : Z) : cell := (HashNext, Bucket (Z.to_nat (brick_hash_fn addr))).

Definition insert_brick_hash (b : nat) : control unit :=
  h ← brick_at b;
  p ← read (bucket (addr h));
  _ ← write (HashNext, Brick b) p;
  write (bucket (addr h)) (Some (Brick b)).

(** [try->addr == addr] *)
Definition has_addr (s : state) (a : Z) (o : obj) : cres bool :=
  match o with
  | Brick b => match bricks s !! b with Some h => Ok (addr h =? a) | None => Fault OutOfBounds end
  | _ => Fault OutOfBounds
  end.

Definition to_brick (o : option obj) : option nat := match o with Some (Brick b) => Some b | _ => None end.

Definition find_brick_hash (a : Z) : control (option nat) :=
  r ← search (bucket a) HashNext (fun s => has_addr s a); mret (to_brick r).

Fixpoint find_load_conn_loop (name : text) (l : list load_conn_t) (i : nat) : cres (option nat) :=
  match l with
  | [] => Ok None
  | x :: l' =>
    if negb (l_export x) then find_load_conn_loop name l' (S i) else
    c ← strcmp (l_name x) name; if c =? 0 then Ok (Some i) else find_load_conn_loop name l' (S i)
  end.

Definition find_load_conn (b : nat) (name : text) : control (option nat) :=
  ld ← loader_of b; l ← the (loaders !! ld); lift (find_load_conn_loop name (ld_conns l) 0).

Fixpoint new_conn_loop (b start : nat) (n : nat) (i : Z) : control (option obj) :=
  match n with
  | O => mret None
  | S n' =>
    let o := Slot b (start + Z.to_nat i) in
    h ← header o;
    match c_param h with
    | Some _ => new_conn_loop b start n' (i + 1)
    | None => _ ← set_header o (h <| c_index := i |>); mret (Some o)
    end
  end.

(** For a dynamic array a zeroed header *)
Definition new_conn (b conn : nat) : control (option obj) :=
  ld ← loader_of b;
  lc ← conn_entry ld conn;
  if l_count lc =? 0 then
    p ← malloc; n ← the p;
    _ ← modify (fun s => s <| mem := alloc (header_cells (Dyn n)) (mem s) |>
      <| headers := <[Dyn n := zero_header <| c_index := counter s |>]> (headers s) |>
      <| counter := i32 (counter s + 1) |>);
    mret (Some (Dyn n))
  else new_conn_loop b (l_start_index lc) (Z.to_nat (l_count lc)) 0.

(** [try->c_index == index] *)
Definition has_index (s : state) (index : Z) (o : obj) : cres bool :=
  match headers s !! o with Some h => Ok (c_index h =? index) | None => Fault OutOfBounds end.

Definition get_conn (b conn : nat) (index : Z) : control (option obj) :=
  ld ← loader_of b;
  lc ← conn_entry ld conn;
  if l_count lc =? 0 then search (Connectors, Brick b) ConnNext (fun s => has_index s index)
  else if (index <? 0) || (l_count lc <=? index) then mret None
  else mret (Some (Slot b (l_start_index lc + Z.to_nat index))).

Definition find_conn (b : nat) (name : text) (index : Z) : control (option obj) :=
  conn ← find_load_conn b name;
  match conn with None => mret None | Some conn => get_conn b conn index end.

(** [try->c_param && !strcmp(try->c_param, c_param)] *)
Definition has_param (s : state) (param : text) (o : obj) : cres bool :=
  match headers s !! o with
  | None => Fault OutOfBounds
  | Some h =>
    match c_param h with
    | None => Ok false
    | Some p => match strings s !! p with Some t => c ← strcmp t.2 param; Ok (c =? 0) | None => Fault OutOfBounds end
    end
  end.

Definition find_param (b : nat) (param : text) : control (option obj) :=
  search (Connectors, Brick b) ConnNext (fun s => has_param s param).

(** ** Creation *)

Definition create_conn (b : nat) (o : obj) (ld conn : nat) (index : Z) : control unit :=
  lc ← conn_entry ld conn;
  h ← header o;
  _ ← set_header o (h <| belonging := Some b |> <| load_conn := Some (ld, conn) |> <| c_index := index |>);
  if l_count lc =? 0 then
    p ← malloc; n ← the p;
    _ ← modify (fun s => s <| mem := alloc (inst_cells (l_type lc) (Block n)) (mem s) |>);
    h ← header o;
    _ ← set_header o (h <| instance := Some (Block n) |>);
    in_code (fun w => (tt, init_code code ld conn (Block n) b w))
  else
    h ← header o;
    set_header o (h <| instance := Some (Part b conn index) |>).

Definition insert_conn (b : nat) (o : obj) : control unit :=
  p ← read (Last, Brick b);
  _ ← match p with
      | None => write (Connectors, Brick b) (Some o)
      | Some l => write (ConnNext, l) (Some o)
      end;
  write (Last, Brick b) (Some o).

(** The generated code connects the inputs of inner bricks to outputs of the brick. *)
Fixpoint wire_loop (b : nat) (l : list (nat * Z)) (m : nat) : control unit :=
  match l with
  | [] => mret tt
  | (c, k) :: l' =>
    _ ← write (Connect, Inner b m) (Some (Part b c k));
    p ← read (RevChain, Part b c k);
    _ ← write (RevNext, Inner b m) p;
    _ ← write (RevChain, Part b c k) (Some (Inner b m));
    wire_loop b l' (S m)
  end.

(** [for(k = 0; k < load_conn->count; k++)] *)
Fixpoint elem_loop (b ld i start : nat) (n : nat) (k : Z) : control unit :=
  match n with
  | O => mret tt
  | S n' =>
    let o := Slot b (start + Z.to_nat k) in
    _ ← create_conn b o ld i k;
    _ ← insert_conn b o;
    elem_loop b ld i start n' (k + 1)
  end.

Fixpoint static_loop (b ld : nat) (l : list load_conn_t) (i : nat) : control unit :=
  match l with
  | [] => mret tt
  | lc :: l' =>
    _ ← (if negb (l_type lc) && l_export lc
         then elem_loop b ld i (l_start_index lc) (Z.to_nat (l_count lc)) 0 else mret tt);
    static_loop b ld l' (S i)
  end.

Definition create_brick (b ld : nat) (param : text) (mand : Z) : control Z :=
  h ← brick_at b;
  _ ← set_brick b (h <| b_loader := Some ld |>);
  mand ← in_code (dynamic_init code ld b param mand);
  l ← the (loaders !! ld);
  _ ← wire_loop b (ld_wires l) 0;
  _ ← static_loop b ld (ld_conns l) 0;
  mret mand.

(** The cells of a brick: header, connectors, instance *)
Fixpoint part_cells (b : nat) (l : list load_conn_t) (i : nat) : list cell :=
  match l with
  | [] => []
  | lc :: l' =>
    concat ((fun k => inst_cells (l_type lc) (Part b i k)) <$> indices 0 (Z.to_nat (l_count lc))) ++ part_cells b l' (S i)
  end.

Definition brick_cells (b : nat) (l : loader_t) : list cell :=
  [(HashNext, Brick b); (Connectors, Brick b); (Last, Brick b)] ++
  concat ((fun i => header_cells (Slot b i)) <$> seq 0 (ld_totalcount l)) ++
  part_cells b (ld_conns l) 0 ++
  concat ((fun m => inst_cells false (Inner b m)) <$> seq 0 (length (ld_wires l))).

Definition alloc_brick (b : nat) (l : loader_t) (s : state) : state :=
  s <| mem := alloc (brick_cells b l) (mem s) |>
    <| headers := foldr (fun i => <[Slot b i := zero_header]>) (headers s) (seq 0 (ld_totalcount l)) |>
    <| bricks := <[b := {| addr := 0; b_param := None; b_loader := None |}]> (bricks s) |>.

(** [free(brick)] *)
Definition free_brick (b : nat) (l : loader_t) (s : state) : state :=
  s <| mem := release (brick_cells b l) (mem s) |>
    <| headers := foldr (fun i => delete (Slot b i)) (headers s) (seq 0 (ld_totalcount l)) |>
    <| bricks := delete b (bricks s) |>.

(** The brick and the new value of [*_mand] *)
Definition new_brick (name param : text) (mand : Z) : control (option nat * Z) :=
  index ← lift (find_loader name);
  match index with
  | None => mret (None, mand)
  | Some ld =>
    l ← the (loaders !! ld);
    space ← malloc;
    match space with
    | None => mret (None, mand)
    | Some b =>
      _ ← modify (alloc_brick b l);
      _ ← lift (strlen param);
      sid ← get root_sid;
      p ← malloc;
      match p with
      | None => _ ← modify (free_brick b l); mret (None, mand)
      | Some p =>
        let t := body param ++ (match sid with Some sid => body sid | None => [] end) ++ [NUL] in
        _ ← modify (fun s => s <| strings := <[p := (true, t)]> (strings s) |>);
        h ← brick_at b;
        _ ← set_brick b (h <| b_param := Some p |>);
        mand ← create_brick b ld t mand;
        mret (Some b, mand)
      end
    end
  end.

(** ** Connections *)

(** The inner loop; [None] is the end of the array [out_type]. *)
Fixpoint type_scan (name : text) (out : list (text * Z * Z)) (compare : Z) : cres (Z * list (text * Z * Z)) :=
  match out with
  | [] => Ok (compare, [])
  | x :: out' =>
    compare ← strcmp x.1.1 name;
    if 0 <=? compare then Ok (compare, out) else type_scan name out' compare
  end.

Fixpoint type_loop (b : nat) (ins out : list (text * Z * Z)) : control bool :=
  match ins with
  | [] => mret true
  | x :: ins' =>
    r ← lift (type_scan x.1.1 out (-1));
    let '(compare, out) := r in
    if negb (compare =? 0) then mret false else
    o ← the (head out);
    _ ← modify (fun s => s <| tables := <[(b, x.2) := o.1.2]> (tables s) |>);
    type_loop b ins' out
  end.

Definition type_connect (out_h in_h : obj) : control bool :=
  lo ← load_conn_of out_h;
  li ← load_conn_of in_h;
  if negb (l_type lo) || l_type li then mret false else
  h ← header in_h;
  b ← the (belonging h);
  type_loop b (l_gen_type li) (l_gen_type lo).

Definition inner_connect (out_h in_h : obj) : control bool :=
  lo ← load_conn_of out_h;
  li ← load_conn_of in_h;
  if negb (l_type lo) || l_type li then mret false else
  hi ← header in_h; input ← the (instance hi);
  ho ← header out_h; output ← the (instance ho);
  if l_sect_count lo <? l_sect_count li then mret false else
  _ ← write (Connect, input) (Some output);
  p ← read (RevChain, output);
  _ ← write (RevNext, input) p;
  _ ← write (RevChain, output) (Some input);
  mret true.

Definition outer_connect (out_h in_h : obj) : control bool :=
  _ ← write (First, in_h) (Some out_h);
  p ← read (First, out_h);
  _ ← write (Chain, in_h) p;
  _ ← write (First, out_h) (Some in_h);
  mret true.

(** Taking the input out of the list behind the output it is connected to;
    the list has to contain it. *)
Definition unhook (input : obj) : control unit :=
  p ← read (Connect, input);
  output ← the p;
  m ← get mem;
  c ← lift (find_cell m (RevChain, output) RevNext input);
  other ← the c;
  v ← read (RevNext, input);
  _ ← write other v;
  write (Connect, input) None.

Definition disconnect (in_h : obj) : control bool :=
  out_l ← read (First, in_h);
  match out_l with
  | None => mret false
  | Some out_l =>
    c ← read (Chain, out_l);
    let go input :=
      m ← get mem;
      ptr ← lift (find_cell m (First, out_l) Chain in_h);
      match ptr with
      | None => mret false
      | Some ptr =>
        v ← read (Chain, in_h);
        _ ← write ptr v;
        _ ← write (First, in_h) None;
        _ ← match input with Some input => unhook input | None => mret tt end;
        mret true
      end in
    match c with
    | Some _ => go None
    | None =>
      hi ← header in_h; input ← the (instance hi);
      lo ← load_conn_of out_l;
      li ← load_conn_of in_h;
      if negb (l_type lo) || l_type li then mret false else go (Some input)
    end
  end.

Fixpoint disconnect_all_loop (l : list obj) : control unit :=
  match l with
  | [] => mret tt
  | in_h :: l' =>
    h ← header in_h; input ← the (instance h);
    _ ← write (First, in_h) None;
    _ ← write (Connect, input) None;
    disconnect_all_loop l'
  end.

(** The loop reads no cell that it changes. *)
Definition disconnect_all (out_h : obj) : control unit :=
  m ← get mem;
  l ← lift (elements_of m (First, out_h) Chain);
  _ ← disconnect_all_loop l;
  write (First, out_h) None.

(** ** Deletion *)

(** An output that still has connections *)
Definition in_use (s : state) (o : obj) : cres bool :=
  match headers s !! o with
  | None => Fault OutOfBounds
  | Some h =>
    match load_conn h with
    | None => Fault OutOfBounds
    | Some (ld, i) =>
      match loaders !! ld ≫= (fun l => ld_conns l !! i) with
      | None => Fault OutOfBounds
      | Some lc => if negb (l_type lc) then Ok false else p ← load (First, o) (mem s); Ok (bool_decide (p <> None))
      end
    end
  end.

(** [tmp->c_param && tmp->c_param != brick->b_param] *)
Definition own_param (h : connector_header) (bh : brick_header) : option nat :=
  match c_param h with
  | Some p => if decide (Some p = b_param bh) then None else Some p
  | None => None
  end.

Definition destr_args : args := zero_args <| destr := true |> <| op_code := opcode_output_init |>.

Fixpoint exit_outputs (bh : brick_header) (param : text) (l : list obj) : control unit :=
  match l with
  | [] => mret tt
  | o :: l' =>
    lc ← load_conn_of o;
    _ ← (if negb (l_type lc) then mret tt else
         _ ← disconnect_all o;
         h ← header o;
         match own_param h bh with
         | None => mret tt
         | Some p =>
           r ← the (load_conn h);
           output ← the (instance h);
           _ ← in_code (init_conn code r.1 r.2 output destr_args param);
           _ ← free_string p;
           set_header o (h <| c_param := None |>)
         end);
    exit_outputs bh param l'
  end.

Fixpoint exit_inputs (bh : brick_header) (l : list obj) : control unit :=
  match l with
  | [] => mret tt
  | o :: l' =>
    lc ← load_conn_of o;
    _ ← (if l_type lc then mret tt else
         _ ← disconnect o;
         h ← header o;
         match own_param h bh with None => mret tt | Some p => free_string p end);
    exit_inputs bh l'
  end.

Definition delete_brick (b : nat) (param : text) : control bool :=
  bh ← brick_at b;
  m ← get mem;
  ptr ← lift (find_cell m (bucket (addr bh)) HashNext (Brick b));
  match ptr with
  | None => mret false
  | Some ptr =>
    used ← search (Connectors, Brick b) ConnNext in_use;
    match used with
    | Some _ => mret false
    | None =>
      v ← read (HashNext, Brick b);
      _ ← write ptr v;
      ld ← the (b_loader bh);
      l ← the (loaders !! ld);
      _ ← in_code (fun w => (tt, dynamic_exit code ld b param w));
      m ← get mem;
      conns ← lift (elements_of m (Connectors, Brick b) ConnNext);
      _ ← exit_outputs bh param conns;
      _ ← exit_inputs bh conns;
      p ← the (b_param bh);
      _ ← free_string p;
      _ ← modify (free_brick b l);
      mret true
    end
  end.

(** ** The operations of the control output

    A failed check prints a message and returns. *)

(** [@conn1], [@conn2] *)
Definition conn1_of (a : args) : control conn_info := the (conn1 a).
Definition conn2_of (a : args) : control conn_info := the (conn2 a).

Definition op_instbrick (a : args) (param : text) : control args :=
  if log_addr a =? 0 then mret a else
  brick ← find_brick_hash (log_addr a);
  r ← match brick with
      | Some b => mret (Some b, a)
      | None =>
        m ← get mand;
        r ← new_brick (name a) param m;
        _ ← modify (fun s => s <| mand := r.2 |>);
        match r.1 with
        | None => mret (None, a)
        | Some b =>
          h ← brick_at b;
          _ ← set_brick b (h <| addr := log_addr a |>);
          _ ← insert_brick_hash b;
          mret (Some b, a <| success := true |>)
        end
      end;
  let '(brick, a) := r in
  match brick with
  | None => mret a
  | Some b =>
    if constr a || destr a then
      ld ← loader_of b;
      in_code (init_brick code ld b (a <| success := false |> <| op_code := opcode_brick_init |>) param)
    else mret a
  end.

Definition op_deinstbrick (a : args) (param : text) : control args :=
  if log_addr a =? 0 then mret a else
  brick ← find_brick_hash (log_addr a);
  match brick with
  | None => mret a
  | Some b => r ← delete_brick b param; mret (a <| success := r |>)
  end.

(** [if(!conn->c_param)]: a copy of the parameter string *)
Definition conn_string (o : obj) (h : connector_header) (param : text) : control (option nat) :=
  match c_param h with
  | Some p => mret (Some p)
  | None =>
    _ ← lift (strlen param);
    p ← malloc;
    match p with
    | None => mret None
    | Some p =>
      _ ← modify (fun s => s <| strings := <[p := (true, body param ++ [NUL])]> (strings s) |>);
      _ ← set_header o (h <| c_param := Some p |>);
      mret (Some p)
    end
  end.

(** The part of [$instconn] behind the search for the connector *)
Definition inst_conn (b conn : nat) (o : obj) (a : args) (c1 : conn_info) (param : text) : control args :=
  h ← header o;
  p ← conn_string o h param;
  match p with
  | None => mret a
  | Some p =>
    ld ← loader_of b;
    lc ← conn_entry ld conn;
    let old := belonging h in
    _ ← match old with None => create_conn b o ld conn (c_index h) | Some _ => mret tt end;
    h ← header o;
    inst ← the (instance h);
    a ← in_code (init_conn code ld conn inst (a <| op_code := opcode_output_init |>) param);
    if negb (success a) then
      _ ← (if l_count lc =? 0 then free_instance (l_type lc) (instance h) else mret tt);
      _ ← free_string p;
      mret a
    else
      _ ← match old with None => insert_conn b o | Some _ => mret tt end;
      h ← header o;
      mret (a <| conn1 := Some (c1 <| conn_index := c_index h |>) |> <| success := true |>)
  end.

Definition op_instconn (a : args) (param : text) : control args :=
  c1 ← conn1_of a;
  if conn_addr c1 =? 0 then
    r ← new_main_dir (conn_name c1);
    mret (if r : bool then a <| success := true |> else a)
  else
  brick ← find_brick_hash (conn_addr c1);
  match brick with
  | None => mret a
  | Some b =>
    conn_ix ← find_load_conn b (conn_name c1);
    match conn_ix with
    | None => mret a
    | Some conn =>
      if conn_index c1 <? 0 then
        o ← new_conn b conn;
        match o with None => mret a | Some o => inst_conn b conn o a c1 param end
      else
        o ← get_conn b conn (conn_index c1);
        match o with
        | None => mret a
        | Some o =>
          h ← header o;
          bh ← brick_at b;
          if bool_decide (c_param h <> b_param bh) && bool_decide (c_param h <> None) then mret a
          else inst_conn b conn o a c1 param
        end
    end
  end.

Definition op_deinstconn (a : args) (param : text) : control args :=
  c1 ← conn1_of a;
  if conn_addr c1 =? 0 then mret a else
  brick ← find_brick_hash (conn_addr c1);
  match brick with
  | None => mret a
  | Some b =>
    conn ← find_conn b (conn_name c1) (conn_index c1);
    match conn with
    | None => mret a
    | Some o =>
      h ← header o;
      bh ← brick_at b;
      match load_conn h, c_param h with
      | Some (ld, i), Some p =>
        if decide (Some p = b_param bh) then mret a else
        lc ← conn_entry ld i;
        p1 ← read (First, o);
        match p1 with
        | Some _ => mret a
        | None =>
          inst ← the (instance h);
          _ ← in_code (init_conn code ld i inst
            (zero_args <| destr := true |> <| op_code := if l_type lc then opcode_output_init else opcode_input_init |>) param);
          _ ← free_string p;
          _ ← set_header o (h <| c_param := None |>);
          mret (a <| success := true |>)
        end
      | _, _ => mret a
      end
    end
  end.

(** [@=call :>control$instconn (conn) => (success)]: the arguments that are
    not given have their defaults or are left over on the stack. *)
Definition lazy_instconn (c : conn_info) (a : args) (param : text) : control (bool * conn_info) :=
  r ← op_instconn (junk <| success := false |> <| conn1 := Some c |> <| clear := false |> <| constr := true |>
    <| destr := false |> <| op_code := opcode_instconn |> <| sect_code := sect_code a |> <| mandate := mandate a |>) param;
  c' ← the (conn1 r);
  mret (success r, c').

(** Special case: main directory *)
Definition connect_dir (conn : obj) (c2 : conn_info) (a : args) : control args :=
  entry ← find_main_dir (conn_name c2);
  match entry with
  | None => mret a
  | Some entry =>
    _ ← outer_connect entry conn;
    _ ← write (Chain, entry) (Some entry);
    mret (a <| success := true |>)
  end.

(** [type_connect] to [outer_connect] *)
Definition join (other conn : obj) (a : args) : control args :=
  t ← type_connect other conn;
  if negb t then fault Aborted else
  t ← inner_connect other conn;
  if negb t then fault Aborted else
  _ ← outer_connect other conn;
  mret (a <| success := true |>).

(** From the second brick on *)
Definition connect_other (conn : obj) (c2 : conn_info) (a : args) (param : text) : control args :=
  other_brick ← find_brick_hash (conn_addr c2);
  match other_brick with
  | None => mret a
  | Some b2 =>
    other ← find_conn b2 (conn_name c2) (conn_index c2);
    match other with
    | None => mret a
    | Some other =>
      ho ← header other;
      match load_conn ho with
      | None => mret a
      | Some (ld, i) =>
        lo ← conn_entry ld i;
        if negb (l_type lo) then mret a else
        other_out ← the (instance ho);
        w ← get world_;
        r ← (if uninitialized code other_out w then lazy_instconn c2 a param else mret (true, c2));
        let a := a <| conn2 := Some r.2 |> in
        if negb r.1 then mret a else
        ho ← header other;
        match c_param ho with
        | None => mret a
        | Some _ => join other conn a
        end
      end
    end
  end.

Definition op_connect (a : args) (param : text) : control args :=
  c1 ← conn1_of a;
  c2 ← conn2_of a;
  brick ← find_brick_hash (conn_addr c1);
  match brick with
  | None => mret a
  | Some b =>
    conn ← find_conn b (conn_name c1) (conn_index c1);
    match conn with
    | None => mret a
    | Some conn =>
      lc ← load_conn_of conn;
      if l_type lc then mret a else
      p ← read (First, conn);
      if bool_decide (p <> None) then mret a else
      if conn_addr c2 =? 0 then connect_dir conn c2 a else
      h ← header conn;
      my_in ← the (instance h);
      w ← get world_;
      r ← (if uninitialized code my_in w then lazy_instconn c1 a param else mret (true, c1));
      let a := a <| conn1 := Some r.2 |> in
      if negb r.1 then mret a else connect_other conn c2 a param
    end
  end.

Definition op_disconnect (a : args) (param : text) : control args :=
  c1 ← conn1_of a;
  brick ← find_brick_hash (conn_addr c1);
  match brick with
  | None => mret a
  | Some b =>
    conn ← find_conn b (conn_name c1) (conn_index c1);
    match conn with
    | None => mret a
    | Some conn =>
      h ← header conn;
      match load_conn h with
      | None => mret a
      | Some (ld, i) =>
        lc ← conn_entry ld i;
        if l_type lc then mret a else
        p ← read (First, conn);
        match p with
        | None => mret a
        | Some _ => _ ← disconnect conn; mret (a <| success := true |>)
        end
      end
    end
  end.

(** Name, address and index of connector headers; the loop ends when the
    array is full, with the length as it was. *)
Fixpoint mk_conn_info_loop (fuel : nat) (tmp : option obj) (info : nat) (rest : Z) (a : args) : control args :=
  match fuel with
  | O => fault OutOfFuel
  | S fuel' =>
    match tmp with
    | None => mret (a <| conn_len := i32 (conn_len a - rest) |>)
    | Some tmp =>
      if rest <? sizeof_conn_info then mret a else
      h ← header tmp;
      b ← the (belonging h);
      bh ← brick_at b;
      lc ← load_conn_of tmp;
      nm ← lift (strncpy (l_name lc) 8);
      _ ← the (res_conn a !! info);
      let a := a <| res_conn := <[info := {| conn_addr := addr bh; conn_index := c_index h; conn_name := nm |}]> (res_conn a) |> in
      next ← read (Chain, tmp);
      mk_conn_info_loop fuel' next (S info) (rest - sizeof_conn_info) a
    end
  end.

Definition mk_conn_info (first : option obj) (a : args) : control args := fun s =>
  mk_conn_info_loop (S (size (mem s))) first 0 (u32 (conn_len a)) a s.

Definition op_getconn (a : args) (param : text) : control args :=
  c1 ← conn1_of a;
  if conn_addr c1 =? 0 then
    entry ← find_main_dir (conn_name c1);
    match entry with
    | None => mret a
    | Some entry => p ← read (First, entry); mk_conn_info p (a <| success := true |>)
    end
  else
  brick ← find_brick_hash (conn_addr c1);
  match brick with
  | None => mret a
  | Some b =>
    conn ← find_conn b (conn_name c1) (conn_index c1);
    match conn with
    | None => mret a
    | Some conn => p ← read (First, conn); mk_conn_info p (a <| success := true |>)
    end
  end.

Definition op_findconn (a : args) (param : text) : control args :=
  c1 ← conn1_of a;
  brick ← find_brick_hash (conn_addr c1);
  match brick with
  | None => mret a
  | Some b =>
    conn ← find_param b param;
    match conn with
    | None => mret a
    | Some conn =>
      lc ← load_conn_of conn;
      h ← header conn;
      nm ← lift (strncpy (l_name lc) 8);
      let a := a <| conn1 := Some (c1 <| conn_name := nm |> <| conn_index := c_index h |>) |> <| success := true |> in
      match res_conn a with
      | [] => mret a
      | _ => p ← read (First, conn); mk_conn_info p a
      end
    end
  end.

Definition op_gadr (a : args) : control args :=
  let a := if log_len a =? 0 then a <| log_len := REPRES_MAX |> else a in
  addr ← get last_addr;
  _ ← modify (fun s => s <| last_addr := u64 (addr + log_len a) |>);
  mret (a <| log_addr := addr |> <| success := true |>).

(** ** Information about bricks

    [PR]: a piece of text is printed behind the others, and the function
    returns 0 when the buffer is full. *)

Definition PR (len : Z) (piece res : text) : option text :=
  if Z.of_nat (length res + length piece) <? len then Some (res ++ piece) else None.

(** Printing, or the early return *)
Abbreviation printer A := (control (option A)).
Definition then_ {A B} (p : printer A) (k : A -> printer B) : printer B :=
  r ← p; match r with Some a => k a | None => mret None end.

(** [%llx:%s] for each input connected to an output, separated by commas *)
Fixpoint info_targets (len : Z) (l : list obj) (is_first : bool) (res : text) : printer text :=
  match l with
  | [] => mret (Some res)
  | o :: l' =>
    h ← header o;
    b ← the (belonging h);
    bh ← brick_at b;
    lc ← load_conn_of o;
    then_ (mret (PR len ((if is_first then [] else chars ",") ++ format_x false (addr bh) ++ chars ":" ++ body (l_name lc)) res))
      (info_targets len l' false)
  end.

Fixpoint main_dir_info_loop (len : Z) (l : list text) (i : nat) (res : text) : printer text :=
  match l with
  | [] => mret (Some res)
  | nm :: l' =>
    c ← lift (deref nm);
    if c =? 0 then main_dir_info_loop len l' (S i) res else
    then_ (mret (PR len (chars "  output=" ++ body nm ++ chars " {" ++ NL :: chars "    connect " ++ body nm ++ chars "=") res))
      (fun res =>
        m ← get mem;
        chain ← lift (elements_of m (First, Entry i) Chain);
        then_ (info_targets len chain true res) (fun res =>
        then_ (mret (PR len (NL :: chars "  }" ++ [NL]) res)) (main_dir_info_loop len l' (S i))))
  end.

(** A null [root_sid] is printed as [(null)]. *)
Definition main_dir_info (len : Z) : control (Z * text) :=
  sid ← get root_sid;
  dir ← get main_dir;
  r ← then_ (mret (PR len (chars "brick=ATHOMUX_MAINDIR {" ++ [NL]) [])) (fun res =>
      then_ (mret (PR len (chars "b_param ATHOMUX_MAINDIR=" ++
        match sid with Some t => body t | None => chars "(null)" end ++ [NL]) res)) (fun res =>
      then_ (main_dir_info_loop len dir 0 res) (fun res =>
      mret (PR len (chars "}" ++ [NL]) res))));
  mret (match r with Some t => (Z.of_nat (length t), t) | None => (0, []) end).

(** [PR("    c_param %s=%s\n", ...)] when the string is not empty *)
Definition info_param (len : Z) (nm : text) (p : nat) (res : text) : printer text :=
  t ← string_at p;
  c ← lift (deref t);
  mret (if c =? 0 then Some res else PR len (chars "    c_param " ++ body nm ++ chars "=" ++ body t ++ [NL]) res).

Fixpoint info_inputs (len : Z) (l : list obj) (res : text) : printer text :=
  match l with
  | [] => mret (Some res)
  | o :: l' =>
    lc ← load_conn_of o;
    h ← header o;
    match l_type lc, c_param h with
    | true, _ | _, None => info_inputs len l' res
    | false, Some p =>
      let nm := body (l_name lc) in
      then_ (mret (PR len (chars "  input=" ++ nm ++ chars " {" ++ [NL]) res)) (fun res =>
      then_ (info_param len nm p res) (fun res =>
      then_ (mret (PR len (body (l_static_info lc)) res)) (fun res =>
      then_ (l_conn ← read (First, o);
             match l_conn with
             | None => mret (Some res)
             | Some l_conn =>
               c ← read (Chain, l_conn);
               r ← match c, l_conn with
                   | Some _, Entry i => dir ← get main_dir; t ← the (dir !! i); mret (0, t)
                   | Some _, _ => fault OutOfBounds
                   | None, _ =>
                     h ← header l_conn; b ← the (belonging h); bh ← brick_at b;
                     lc ← load_conn_of l_conn; mret (addr bh, l_name lc)
                   end;
               mret (PR len (chars "    connect " ++ nm ++ chars "==" ++ format_x false r.1 ++ chars ":" ++ body r.2 ++ [NL]) res)
             end) (fun res =>
      then_ (mret (PR len (chars "  }" ++ [NL]) res)) (info_inputs len l')))))
    end
  end.

Fixpoint info_outputs (len : Z) (l : list obj) (add_count : Z) (res : text) : printer text :=
  match l with
  | [] => mret (Some res)
  | o :: l' =>
    lc ← load_conn_of o;
    h ← header o;
    if negb (l_type lc) then info_outputs len l' add_count res else
    let nm := body (l_name lc) in
    let finish := fun add_count res => then_ (mret (PR len (chars "  }" ++ [NL]) res)) (info_outputs len l' add_count) in
    match c_param h with
    | None =>
      if negb (add_count =? 0) then info_outputs len l' (add_count + 1) res else
      then_ (mret (PR len (chars "  output=" ++ nm ++ chars " {" ++ [NL]) res)) (fun res =>
      then_ (mret (PR len (chars "  output==" ++ nm ++ chars " {" ++ [NL]) res)) (finish (add_count + 1)))
    | Some p =>
      then_ (mret (PR len (chars "  output=" ++ nm ++ chars " {" ++ [NL]) res)) (fun res =>
      then_ (mret (PR len (chars "  output=" ++ nm ++ chars " {" ++ [NL]) res)) (fun res =>
      then_ (info_param len nm p res) (fun res =>
      then_ (mret (PR len (body (l_static_info lc) ++ chars "    connect " ++ nm ++ chars "=") res)) (fun res =>
      m ← get mem;
      chain ← lift (elements_of m (First, o) Chain);
      then_ (info_targets len chain true res) (fun res =>
      then_ (mret (PR len [NL] res)) (finish add_count))))))
    end
  end.

(** The length includes the terminator. *)
Definition gen_info (b : nat) (len : Z) : control (Z * text) :=
  ld ← loader_of b;
  l ← the (loaders !! ld);
  bh ← brick_at b;
  m ← get mem;
  conns ← lift (elements_of m (Connectors, Brick b) ConnNext);
  r ← then_ (mret (PR len (chars "brick=" ++ body (ld_name l) ++ chars " {" ++ [NL]) [])) (fun res =>
      then_ (match b_param bh with
             | None => mret (Some res)
             | Some p =>
               t ← string_at p;
               c ← lift (deref t);
               mret (if c =? 0 then Some res
                     else PR len (chars "  b_param " ++ body (ld_name l) ++ chars "=" ++ body t ++ [NL]) res)
             end) (fun res =>
      then_ (mret (PR len (body (ld_static_info l)) res)) (fun res =>
      then_ (info_inputs len conns res) (fun res =>
      then_ (info_outputs len conns 0 res) (fun res =>
      mret (PR len (chars "}" ++ [NL]) res))))));
  mret (match r with Some t => (Z.of_nat (length t) + 1, t) | None => (0, []) end).

(** [$trans] with [direct_read]; the text is what is printed to [@phys_addr]. *)
Definition trans_info (a : args) : control args :=
  let finish (r : Z * text) :=
    _ ← modify (fun s => s <| shown := r.2 |>); mret (a <| phys_len := u32 r.1 |> <| success := true |>) in
  if log_addr a =? 0 then r ← main_dir_info (i32 (log_len a)); finish r
  else
  brick ← find_brick_hash (log_addr a);
  match brick with
  | None => mret a
  | Some b => r ← gen_info b (i32 (log_len a)); finish r
  end.

(** ** The strategy brick as a whole

    [others] are the operations that the brick does not define, for which it has
    the defaults of [lib.c]. *)

Context (others : op_t -> args -> text -> control args).

Definition operation (op : op_t) (a : args) (param : text) : control args :=
  match op with
  | opcode_output_init => mret (a <| success := true |>)
  | opcode_instbrick => op_instbrick a param
  | opcode_deinstbrick => op_deinstbrick a param
  | opcode_instconn => op_instconn a param
  | opcode_deinstconn => op_deinstconn a param
  | opcode_connect => op_connect a param
  | opcode_disconnect => op_disconnect a param
  | opcode_getconn => op_getconn a param
  | opcode_findconn => op_findconn a param
  | opcode_wait | opcode_create | opcode_delete => mret (a <| success := true |>)
  | opcode_get | opcode_createget | opcode_put => fault Aborted
  | opcode_gadr => op_gadr a
  | opcode_trans => trans_info a
  | _ => others op a param
  end.

(** The brick is what the inner [adapt_strat] is wired to. *)
Definition control_strategy : Strategy state := fun op a param => operation op a param.

(** [buf] is the string at [@phys_addr]; the last statement reports a success
    whatever happened. *)
Definition op_trans (buf : text) (a : args) (param : text) : control args :=
  match direction a with
  | direct_read => trans_info a
  | direct_write =>
    r ← (trans (H := control_strategy) buf a param : control args);
    mret (r <| success := true |>)
  | direct_stop => mret (a <| success := true |>)
  end.

(** ** Booting: [static_init] *)

Definition start_cells : list cell :=
  ((fun i => (HashNext, Bucket i)) <$> seq 0 (Z.to_nat BRICK_HASH_MAX)) ++
  concat ((fun i => [(First, Entry i); (Chain, Entry i)]) <$> seq 0 MAINDIR_MAX).

(** The literal of [c_param] is block 0. *)
Definition default_control : nat := 0.

(** Static data, and the data of the instance with its initialiser *)
Definition start_state (w : W) : state :=
  {| mem := alloc start_cells ∅; headers := ∅; bricks := ∅;
     strings := {[ default_control := (false, cstr "default-control") ]};
     tables := ∅; main_dir := replicate MAINDIR_MAX (replicate 8 0);
     allocs := 1; counter := 10000; last_addr := 0; mand := 10; root_sid := None; shown := []; world_ := w |}.

Fixpoint static_init_loop (n : nat) (i : nat) : control unit :=
  match n with
  | O => mret tt
  | S n' => _ ← in_code (fun w => (tt, static_init code i w)); static_init_loop n' (S i)
  end.

Definition boot : control unit :=
  r ← new_brick (cstr "control_simple") (cstr "self-booted-by-default-init") 1;
  match r.1 with
  | None => fault Aborted
  | Some boot =>
    _ ← static_init_loop (length loaders) 0;
    conn_ix ← find_load_conn boot (cstr "control");
    match conn_ix with
    | None => fault Aborted
    | Some conn_ix =>
      ld ← loader_of boot;
      lc ← conn_entry ld conn_ix;
      let o := Slot boot (l_start_index lc) in
      _ ← create_conn boot o ld conn_ix 0;
      h ← header o;
      _ ← set_header o (h <| c_param := Some default_control |>);
      _ ← insert_conn boot o;
      h ← header (Slot boot 1);
      bh ← brick_at boot;
      _ ← set_header (Slot boot 1) (h <| c_param := b_param bh |>);
      _ ← set_brick boot (bh <| addr := REPRES_MAX |>);
      _ ← modify (fun s => s <| last_addr := REPRES_MAX + REPRES_MAX |>);
      _ ← in_code (init_brick code ld boot (zero_args <| constr := true |>) (cstr ""));
      _ ← insert_brick_hash boot;
      let root_conn1 := {| conn_addr := 0; conn_index := 0; conn_name := cstr "control" |} in
      _ ← op_instconn (zero_args <| conn1 := Some root_conn1 |>) (cstr "");
      let root_conn2 := {| conn_addr := REPRES_MAX; conn_index := 0; conn_name := cstr "hook" ++ replicate 3 0 |} in
      _ ← op_connect (zero_args <| conn1 := Some root_conn2 |> <| conn2 := Some root_conn1 |>) (cstr "");
      mret tt
    end
  end.
End control.
