(* ===== verification/ControlWiring.v ===== *)
(** * Wiring inputs to outputs

    The connections of the strategy brick as a list of pairs, newest first,
    and how the lists in memory represent it: behind every output and every
    entry of the main directory the inputs connected to it, in that order, and
    behind every output structure the input structures. *)

From S2P Require Import Prelude CLib Common Cells ControlSimple.
Open Scope Z_scope.

Section wiring.
Context {W : Type} (loaders : list loader_t).
Abbreviation state := (control_state W).
Implicit Types (s : state) (o i p : obj) (D : list obj) (P : obj -> Prop) (L : list (obj * obj)).

(** ** Steps *)

Lemma bind_ok {A B} (p : control (W := W) A) (k : A -> control B) s a s' :
  p s = Ok (a, s') -> (p ≫= k) s = k a s'.
Proof. intros H. unfold mbind, control_bind. by rewrite H. Qed.

Lemma bind_assoc {A B C} (p : control (W := W) A) (k : A -> control B) (k' : B -> control C) s :
  ((p ≫= k) ≫= k') s = (p ≫= (fun a => k a ≫= k')) s.
Proof. unfold mbind, control_bind. by destruct (p s) as [[]|]. Qed.

Lemma read_ok s c v : mem s !! c = Some v -> read c s = Ok (v, s).
Proof. intros H. unfold read, get, lift, mbind, control_bind. by rewrite (load_some _ _ _ H). Qed.

Lemma the_ok {A} (v : option A) (a : A) s : v = Some a -> the v s = Ok (a, s).
Proof. by intros ->. Qed.

Lemma lift_ok {A} (c : cres A) (a : A) s : c = Ok a -> lift c s = Ok (a, s).
Proof. by intros ->. Qed.

Definition put_cell (c : cell) (v : option obj) (s : state) : state := s <| mem := <[c := v]> (mem s) |>.

Lemma write_ok s c v : is_Some (mem s !! c) -> write c v s = Ok (tt, put_cell c v s).
Proof. intros H. unfold write, get, lift, mbind, control_bind. by rewrite (store_some _ _ _ H). Qed.

Lemma header_ok s o h : headers s !! o = Some h -> header o s = Ok (h, s).
Proof. intros H. unfold header, get, mbind, control_bind. by rewrite H. Qed.

Lemma brick_at_ok s b h : bricks s !! b = Some h -> brick_at b s = Ok (h, s).
Proof. intros H. unfold brick_at, get, mbind, control_bind. by rewrite H. Qed.

(** The table entry of a connector, and the structure behind it *)
Definition lc_at (r : nat * nat) : option load_conn_t := loaders !! r.1 ≫= (fun l => ld_conns l !! r.2).
Definition lc_of s o : option load_conn_t := headers s !! o ≫= (fun h => load_conn h ≫= lc_at).
Definition inst_of s o : option obj := headers s !! o ≫= instance.

Lemma conn_entry_ok s ld k lc : lc_at (ld, k) = Some lc -> conn_entry loaders ld k s = Ok (lc, s).
Proof.
  unfold lc_at. simpl. destruct (loaders !! ld) as [l|] eqn:Hl; simpl; [|done]. intros H.
  unfold conn_entry, mbind, control_bind. rewrite Hl. simpl. by rewrite H.
Qed.

Lemma lc_of_inv s o lc : lc_of s o = Some lc -> exists h ld k, headers s !! o = Some h /\ load_conn h = Some (ld, k) /\ lc_at (ld, k) = Some lc.
Proof.
  unfold lc_of. destruct (headers s !! o) as [h|]; simpl; [|done].
  destruct (load_conn h) as [[ld k]|] eqn:Hr; simpl; [|done]. eauto 8.
Qed.

Lemma load_conn_of_ok s o lc : lc_of s o = Some lc -> load_conn_of loaders o s = Ok (lc, s).
Proof.
  intros (h & ld & k & Hh & Hr & Hlc)%lc_of_inv. unfold load_conn_of.
  rewrite (bind_ok _ _ _ _ _ (header_ok _ _ _ Hh)), Hr. by apply conn_entry_ok.
Qed.

Definition is_input s o : Prop := exists lc, lc_of s o = Some lc /\ l_type lc = false.
Definition is_output s o : Prop := exists lc, lc_of s o = Some lc /\ l_type lc = true.

Lemma not_both s o : is_input s o -> is_output s o -> False.
Proof. intros (lc & H & Ht) (lc' & H' & Ht'). congruence. Qed.

(** ** Connections as a list of pairs *)

Definition target L i : option obj := snd <$> List.find (fun x => bool_decide (x.1 = i)) L.
Definition sources L o : list obj := fst <$> filter (fun x => x.2 = o) L.
Definition cut L i : list (obj * obj) := filter (fun x => x.1 <> i) L.

(** The input structures connected to an output structure *)
Definition rev_sources s L p : list obj :=
  omap (fun x => if decide (inst_of s x.2 = Some p) then inst_of s x.1 else None) L.

Lemma target_cons L i o j : target ((i, o) :: L) j = if decide (i = j) then Some o else target L j.
Proof. unfold target. simpl. case_bool_decide; by case_decide. Qed.

Lemma target_Some L i o : NoDup L.*1 -> target L i = Some o <-> (i, o) ∈ L.
Proof.
  induction L as [|[j q] L IH]; intros Hn; simpl in Hn; [split; [done|by intros ?%not_elem_of_nil]|].
  apply NoDup_cons in Hn as [Hj Hn]. rewrite target_cons, elem_of_cons. case_decide as Hd.
  - subst. split; [intros [= ->]; by left|]. intros [[= ->]|Hin]; [done|].
    exfalso. apply Hj. apply list_elem_of_fmap. by exists (i, o).
  - rewrite IH by done. split; [by right|]. intros [[= -> ->]|]; done.
Qed.

Lemma target_None L i : target L i = None <-> i ∉ L.*1.
Proof.
  induction L as [|[j q] L IH]; [split; [intros _; apply not_elem_of_nil|done]|].
  rewrite target_cons. simpl. rewrite not_elem_of_cons, <- IH. case_decide; naive_solver.
Qed.

Lemma sources_cons L i o q : sources ((i, o) :: L) q = if decide (o = q) then i :: sources L q else sources L q.
Proof. unfold sources. rewrite filter_cons. simpl. by repeat case_decide. Qed.

Lemma elem_of_sources L i o : i ∈ sources L o <-> (i, o) ∈ L.
Proof.
  unfold sources. rewrite list_elem_of_fmap. setoid_rewrite list_elem_of_filter. split.
  - intros ([j q] & -> & Hq & Hin). simpl in *. by subst.
  - intros H. by exists (i, o).
Qed.

Lemma sources_sublist L o : sublist (sources L o) L.*1.
Proof. unfold sources. apply fmap_sublist, sublist_filter. Qed.

Lemma sources_NoDup L o : NoDup L.*1 -> NoDup (sources L o).
Proof. intros H. eapply sublist_NoDup; [done|apply sources_sublist]. Qed.

Lemma cut_not_in L i : i ∉ L.*1 -> cut L i = L.
Proof.
  induction L as [|[j q] L IH]; intros H; [done|]. unfold cut in *. simpl in H.
  apply not_elem_of_cons in H as [Hj H]. rewrite filter_cons, decide_True by (simpl; congruence). f_equal. by apply IH.
Qed.

Lemma sources_cut L i o : sources (cut L i) o = filter (fun x => x <> i) (sources L o).
Proof.
  induction L as [|[j q] L IH]; [done|]. unfold cut in *. rewrite filter_cons. simpl. rewrite sources_cons.
  destruct (decide (j = i)) as [->|Hj].
  - rewrite (decide_False (P := i <> i)) by tauto. rewrite IH. case_decide; [|done].
    rewrite filter_cons, decide_False by tauto. done.
  - rewrite (decide_True (P := j <> i)) by done. rewrite sources_cons, IH. case_decide; [|done].
    by rewrite filter_cons, decide_True.
Qed.

Lemma target_cut L i j : target (cut L i) j = if decide (j = i) then None else target L j.
Proof.
  induction L as [|[k q] L IH]; [by case_decide|]. unfold cut in *. rewrite filter_cons. simpl.
  destruct (decide (k = i)) as [->|Hk].
  - rewrite (decide_False (P := i <> i)) by tauto. rewrite IH, target_cons. by repeat case_decide; subst.
  - rewrite (decide_True (P := k <> i)) by done. rewrite !target_cons, IH. repeat case_decide; subst; done.
Qed.

Lemma cut_sublist L i : sublist (cut L i) L.
Proof. apply sublist_filter. Qed.

Lemma cut_fst_NoDup L i : NoDup L.*1 -> NoDup (cut L i).*1.
Proof. intros H. eapply sublist_NoDup; [done|apply fmap_sublist, cut_sublist]. Qed.

Lemma elem_of_cut L i x : x ∈ cut L i <-> x ∈ L /\ x.1 <> i.
Proof. unfold cut. rewrite list_elem_of_filter. tauto. Qed.

Lemma rev_sources_cons s L i o q : rev_sources s ((i, o) :: L) q =
  match (if decide (inst_of s o = Some q) then inst_of s i else None) with Some x => x :: rev_sources s L q | None => rev_sources s L q end.
Proof. done. Qed.

Lemma elem_of_rev_sources s L q x : x ∈ rev_sources s L q <-> exists i o, (i, o) ∈ L /\ inst_of s i = Some x /\ inst_of s o = Some q.
Proof.
  unfold rev_sources. rewrite list_elem_of_omap. split.
  - intros ([i o] & Hin & H). simpl in H. case_decide; [|done]. eauto.
  - intros (i & o & Hin & Hi & Ho). exists (i, o). split; [done|]. simpl. by rewrite decide_True.
Qed.

Lemma rev_sources_ext s s' L q : (forall x, inst_of s' x = inst_of s x) -> rev_sources s' L q = rev_sources s L q.
Proof.
  intros H. induction L as [|[i o] L IH]; [done|]. rewrite !rev_sources_cons, IH, H. by rewrite (H i).
Qed.

(** ** Representation *)

(** The inputs and outputs [D] have been created; [P] are the output structures. *)
Record links_ok s D L : Prop := {
  k_dom e : Entry e ∉ D;
  k_nodup : NoDup L.*1;
  k_link i o : (i, o) ∈ L -> i ∈ D /\ is_input s i /\ (o ∈ D /\ is_output s o \/ exists e, o = Entry e /\ (e < MAINDIR_MAX)%nat);
  k_first i : i ∈ D -> is_input s i -> mem s !! (First, i) = Some (target L i) /\ is_Some (mem s !! (Chain, i));
  k_out o : o ∈ D -> is_output s o -> seg (mem s) (First, o) Chain (sources L o) /\ mem s !! (Chain, o) = Some None;
  k_entry e : (e < MAINDIR_MAX)%nat -> seg (mem s) (First, Entry e) Chain (sources L (Entry e));
  k_mark e : (e < MAINDIR_MAX)%nat -> exists v, mem s !! (Chain, Entry e) = Some v /\ (sources L (Entry e) <> [] -> v <> None)
}.

(** The inputs inside the brick that are connected to an output *)
Definition inner_of (m : cells) (p : obj) (l : list obj) : Prop :=
  NoDup l /\ forall x, x ∈ l -> m !! (Connect, x) = Some (Some p) /\
    match p with Part b _ _ => exists k, x = Inner b k | _ => False end.

Record revs_ok s D P L : Prop := {
  r_in i : i ∈ D -> is_input s i -> exists p, inst_of s i = Some p /\ (forall b k, p <> Inner b k) /\
    mem s !! (Connect, p) = Some (target L i ≫= inst_of s) /\ is_Some (mem s !! (RevNext, p));
  r_inst o : o ∈ D -> is_output s o -> exists p, P p /\ inst_of s o = Some p;
  r_out p : P p -> exists l, inner_of (mem s) p l /\ seg (mem s) (RevChain, p) RevNext (rev_sources s L p ++ l);
  r_inj i j : i ∈ D -> j ∈ D -> is_input s i -> is_input s j -> inst_of s i = inst_of s j -> i = j
}.

(** Only what they mention matters. *)
Definition agree (fs : list field) (s s' : state) : Prop :=
  forall f o, f ∈ fs -> mem s' !! (f, o) = mem s !! (f, o).


Lemma wires_agree_trans fs s1 s2 s3 : agree fs s1 s2 -> agree fs s2 s3 -> agree fs s1 s3.
Proof. intros H1 H2 f o Hf. by rewrite H2, H1. Qed.

Lemma agree_put fs c v s : c.1 ∉ fs -> agree fs s (put_cell c v s).
Proof. intros Hc f o Hf. simpl. rewrite lookup_insert_ne; [done|]. intros ->. done. Qed.

Lemma agree_put_r fs c v s s' : c.1 ∉ fs -> agree fs s s' -> agree fs s (put_cell c v s').
Proof. intros Hc H. eapply wires_agree_trans; [exact H|by apply agree_put]. Qed.


(** Links but for the marks of the main directory's entries *)
Definition agree_links (m m' : cells) : Prop :=
  forall f o, f = First \/ f = Chain -> (forall e, (f, o) <> (Chain, Entry e)) -> m' !! (f, o) = m !! (f, o).

Lemma link_source s D L i o : links_ok s D L -> i ∈ sources L o -> i ∈ D /\ is_input s i.
Proof. intros H Hi%elem_of_sources. by destruct (k_link _ _ _ H _ _ Hi) as (? & ? & _). Qed.

Lemma links_seg_frame s D L m' c l :
  links_ok s D L -> seg (mem s) c Chain l -> (forall i, i ∈ l -> i ∈ D) -> (exists o, c = (First, o)) ->
  agree_links (mem s) m' -> seg m' c Chain l.
Proof.
  intros H Hs Hl (o & ->) Ha. eapply seg_frame; [exact Hs|apply Ha; [by left|done]|].
  intros i Hi. apply Ha; [by right|]. intros e [= ->]. by apply (k_dom _ _ _ H e), Hl.
Qed.

Definition is_target s D o : Prop := o ∈ D /\ is_output s o \/ exists e, o = Entry e /\ (e < MAINDIR_MAX)%nat.

Lemma target_seg s D L o : links_ok s D L -> is_target s D o -> seg (mem s) (First, o) Chain (sources L o).
Proof. intros H [[Hd Ho]|(e & -> & He)]; [by apply (k_out _ _ _ H)|by apply (k_entry _ _ _ H)]. Qed.

Lemma target_not_input s D L i o : links_ok s D L -> i ∈ D -> is_input s i -> is_target s D o -> i <> o.
Proof.
  intros H Hi Hin [[Hd Ho]|(e & -> & He)] ->; [by eapply not_both|by apply (k_dom _ _ _ H e)].
Qed.

(** The stores of [outer_connect] *)
Lemma links_join s s' D L i o :
  links_ok s D L -> i ∈ D -> is_input s i -> target L i = None -> is_target s D o -> headers s' = headers s ->
  agree_links (<[(First, o) := Some i]> (<[(Chain, i) := head (sources L o)]> (<[(First, i) := Some o]> (mem s)))) (mem s') ->
  (forall e, (e < MAINDIR_MAX)%nat -> exists v, mem s' !! (Chain, Entry e) = Some v /\ (sources ((i, o) :: L) (Entry e) <> [] -> v <> None)) ->
  links_ok s' D ((i, o) :: L).
Proof.
  intros H Hd Hi Ht Ho Hh Ha Hmark.
  assert (forall x, is_input s' x <-> is_input s x) as Hin by (intros x; unfold is_input, lc_of; by rewrite Hh).
  assert (forall x, is_output s' x <-> is_output s x) as Hout by (intros x; unfold is_output, lc_of; by rewrite Hh).
  pose proof (target_not_input _ _ _ _ _ H Hd Hi Ho) as Hio. apply target_None in Ht as Hni.
  assert (forall q, is_target s D q -> seg (mem s') (First, q) Chain (sources ((i, o) :: L) q)) as Hseg.
  { intros q Hq. pose proof (target_not_input _ _ _ _ _ H Hd Hi Hq) as Hiq.
    assert (forall j, j ∈ sources L q -> j <> i) as Hj.
    { intros j Hj ->. apply Hni. eapply (sublist_subseteq _ _ (sources_sublist L q)), Hj. }
    eapply seg_frame with (m := <[(First, o) := Some i]> (<[(Chain, i) := head (sources L o)]> (<[(First, i) := Some o]> (mem s)))).
    - rewrite sources_cons. case_decide as Hoq.
      + subst q. apply seg_cons; [|done|done|].
        * apply seg_insert_ne; [by eapply target_seg|congruence|done].
        * intros Hx. by apply (Hj i).
      + repeat apply seg_insert_ne; try by eapply target_seg.
        all: intros; try congruence. intros [= ->]. by eapply Hj.
    - apply Ha; [by left|done].
    - intros j Hjs. apply Ha; [by right|]. intros e [= ->]. apply (k_dom _ _ _ H e).
      rewrite sources_cons in Hjs. case_decide; [apply elem_of_cons in Hjs as [->|Hjs]; [done|]|]; by eapply link_source. }
  split.
  - apply (k_dom _ _ _ H).
  - simpl. apply NoDup_cons. split; [done|apply (k_nodup _ _ _ H)].
  - intros j q Hjq. rewrite Hin, Hout. apply elem_of_cons in Hjq as [[= -> ->]|Hjq]; [done|]. by apply (k_link _ _ _ H).
  - intros j Hj Hji. apply Hin in Hji. destruct (k_first _ _ _ H _ Hj Hji) as [Hf Hc].
    rewrite (Ha First j), (Ha Chain j) by (try tauto; try done; intros e [= ->]; by apply (k_dom _ _ _ H e)).
    pose proof (target_not_input _ _ _ _ _ H Hj Hji Ho) as Hjo. split.
    + rewrite lookup_insert_ne by congruence. rewrite lookup_insert_ne by done. rewrite target_cons.
      case_decide as Hd'; [subst; by rewrite lookup_insert, decide_True|]. by rewrite lookup_insert_ne by congruence.
    + rewrite lookup_insert_ne by done. destruct (decide (i = j)) as [->|Hij].
      * rewrite lookup_insert, decide_True by done. eauto.
      * rewrite !lookup_insert_ne by congruence. done.
  - intros q Hq Hqo. apply Hout in Hqo. split; [apply Hseg; by left|].
    rewrite Ha; [|by right|intros e [= ->]; by apply (k_dom _ _ _ H e)].
    destruct (k_out _ _ _ H _ Hq Hqo) as [_ Hc]. rewrite !lookup_insert_ne; [done|done| |done].
    intros [= ->]. by eapply not_both.
  - intros e He. apply Hseg. right. eauto.
  - done.
Qed.


Lemma cell_before_cases s D L o i : links_ok s D L -> is_target s D o ->
  cell_before (First, o) Chain (sources L o) i = (First, o) \/
  exists j, (j, o) ∈ L /\ j <> i /\ cell_before (First, o) Chain (sources L o) i = (Chain, j).
Proof.
  intros H Ho. destruct (cell_before_in (First, o) Chain (sources L o) i) as [->|(j & Hj & Hji & ->)]; [by left|right].
  exists j. by rewrite <- elem_of_sources.
Qed.

(** The stores of [disconnect] *)
Lemma links_cut s s' D L i o v :
  links_ok s D L -> target L i = Some o -> mem s !! (Chain, i) = Some v -> headers s' = headers s ->
  (forall f x, f = First \/ f = Chain ->
    mem s' !! (f, x) = <[(First, i) := None]> (<[cell_before (First, o) Chain (sources L o) i := v]> (mem s)) !! (f, x)) ->
  links_ok s' D (cut L i).
Proof.
  intros H Ht Hv Hh Ha. apply target_Some in Ht; [|apply (k_nodup _ _ _ H)].
  destruct (k_link _ _ _ H _ _ Ht) as (Hd & Hi & Ho). change (is_target s D o) in Ho.
  assert (forall x, is_input s' x <-> is_input s x) as Hin by (intros x; unfold is_input, lc_of; by rewrite Hh).
  assert (forall x, is_output s' x <-> is_output s x) as Hout by (intros x; unfold is_output, lc_of; by rewrite Hh).
  pose proof (cell_before_cases _ _ _ _ i H Ho) as Hcb.
  assert (forall q, is_target s D q -> seg (mem s') (First, q) Chain (sources (cut L i) q)) as Hseg.
  { intros q Hq. pose proof (target_not_input _ _ _ _ _ H Hd Hi Hq) as Hiq. rewrite sources_cut.
    eapply seg_frame; [|apply Ha; by left|intros; apply Ha; by right].
    apply seg_insert_ne; [|congruence|done]. destruct (decide (q = o)) as [->|Hqo].
    - apply seg_unlink; [by eapply target_seg|apply sources_NoDup, (k_nodup _ _ _ H)|done|by apply elem_of_sources|done].
    - assert (filter (fun x => x <> i) (sources L q) = sources L q) as ->.
      { apply filter_keep. intros j Hj%elem_of_sources ->.
        apply Hqo. apply target_Some in Hj, Ht; try apply (k_nodup _ _ _ H). congruence. }
      apply seg_insert_ne; [by eapply target_seg| |].
      + destruct Hcb as [->|(j & _ & _ & ->)]; congruence.
      + intros j Hj%elem_of_sources. destruct Hcb as [->|(k & Hk & _ & ->)]; [done|]. intros [= ->].
        apply Hqo. apply target_Some in Hj, Hk; try apply (k_nodup _ _ _ H). congruence. }
  split.
  - apply (k_dom _ _ _ H).
  - apply cut_fst_NoDup, (k_nodup _ _ _ H).
  - intros j q [Hjq _]%elem_of_cut. rewrite Hin, Hout. by apply (k_link _ _ _ H).
  - intros j Hj Hji. apply Hin in Hji. destruct (k_first _ _ _ H _ Hj Hji) as [Hf Hc].
    rewrite !Ha by tauto. split.
    + rewrite target_cut. case_decide as Hd'; [subst; by rewrite lookup_insert, decide_True|].
      rewrite lookup_insert_ne by congruence. rewrite lookup_insert_ne; [done|].
      destruct Hcb as [->|(k & _ & _ & ->)]; [|congruence]. intros [= ->].
      by destruct (target_not_input _ _ _ _ _ H Hj Hji Ho).
    + rewrite lookup_insert_ne by congruence. rewrite lookup_insert_is_Some. destruct (decide (cell_before (First, o) Chain (sources L o) i = (Chain, j))); tauto.
  - intros q Hq Hqo. apply Hout in Hqo. split; [apply Hseg; by left|].
    rewrite Ha by tauto. rewrite lookup_insert_ne by congruence.
    destruct (k_out _ _ _ H _ Hq Hqo) as [_ Hc]. rewrite lookup_insert_ne; [done|].
    destruct Hcb as [->|(k & Hk & _ & ->)]; [congruence|]. intros [= ->].
    destruct (k_link _ _ _ H _ _ Hk) as (_ & Hk' & _). by eapply not_both.
  - intros e He. apply Hseg. right. eauto.
  - intros e He. destruct (k_mark _ _ _ H e He) as (w & Hw & Hnw). exists w. split.
    + rewrite Ha by tauto. rewrite lookup_insert_ne by congruence. rewrite lookup_insert_ne; [done|].
      destruct Hcb as [->|(k & Hk & _ & ->)]; [congruence|]. intros [= ->].
      destruct (k_link _ _ _ H _ _ Hk) as (Hk' & _). by apply (k_dom _ _ _ H e).
    + intros Hne. apply Hnw. intros Hs. apply Hne. by rewrite sources_cut, Hs.
Qed.

(** ** Input and output structures *)

Lemma rev_sources_fresh s D P L i p q : links_ok s D L -> revs_ok s D P L -> i ∈ D -> is_input s i -> inst_of s i = Some p ->
  p ∈ rev_sources s L q -> exists o, (i, o) ∈ L /\ inst_of s o = Some q.
Proof.
  intros H Hr Hd Hi Hp (j & o & Hjo & Hj & Ho)%elem_of_rev_sources.
  destruct (k_link _ _ _ H _ _ Hjo) as (Hjd & Hji & _).
  assert (i = j) as -> by (apply (r_inj _ _ _ _ Hr); [done..|congruence]). eauto.
Qed.

Lemma rev_sources_not_inner s D P L q b k : links_ok s D L -> revs_ok s D P L -> Inner b k ∉ rev_sources s L q.
Proof.
  intros H Hr (j & o & Hjo & Hj & Ho)%elem_of_rev_sources. destruct (k_link _ _ _ H _ _ Hjo) as (Hjd & Hji & _).
  destruct (r_in _ _ _ _ Hr _ Hjd Hji) as (p & Hp & Hn & _). rewrite Hp in Hj. injection Hj as ->. by apply (Hn b k).
Qed.

Lemma rev_sources_NoDup s D P L q : links_ok s D L -> revs_ok s D P L -> NoDup (rev_sources s L q).
Proof.
  intros H Hr. assert (forall i o, (i, o) ∈ L -> i ∈ D /\ is_input s i) as HL.
  { intros i o Hio. by destruct (k_link _ _ _ H _ _ Hio) as (? & ? & _). }
  pose proof (k_nodup _ _ _ H) as Hn. pose proof (r_inj _ _ _ _ Hr) as Hinj. clear H Hr. induction L as [|[i o] L IH] in Hn, HL |- *; [apply NoDup_nil_2|].
  simpl in Hn. apply NoDup_cons in Hn as [Hi Hn].
  assert (NoDup (rev_sources s L q)) as HLn by (apply IH; [intros; eapply HL; by right|done]).
  rewrite rev_sources_cons. destruct (if decide _ then _ else _) as [x|] eqn:Hx; [|done].
  case_decide as Ho; [|done]. apply NoDup_cons. split; [|done].
  intros (j & o' & Hjo & Hj & _)%elem_of_rev_sources. destruct (HL i o) as [Hid Hii]; [by left|].
  destruct (HL j o') as [Hjd Hji]; [by right|]. apply Hi.
  assert (i = j) as -> by (apply Hinj; [done..|congruence]). apply list_elem_of_fmap. by exists (j, o').
Qed.

Lemma rev_list_NoDup s D P L p l : links_ok s D L -> revs_ok s D P L -> inner_of (mem s) p l -> NoDup (rev_sources s L p ++ l).
Proof.
  intros H Hr [Hl Hin]. apply NoDup_app. split; [by eapply rev_sources_NoDup|]. split; [|done].
  intros x Hx Hxl. destruct (Hin x Hxl) as [_ Hk]. destruct p; try done. destruct Hk as [k' ->].
  by eapply rev_sources_not_inner.
Qed.

Lemma rev_sources_cut s D P L i p q : links_ok s D L -> revs_ok s D P L -> i ∈ D -> is_input s i -> inst_of s i = Some p ->
  rev_sources s (cut L i) q = filter (fun x => x <> p) (rev_sources s L q).
Proof.
  intros H Hr Hd Hi Hp. assert (forall j o, (j, o) ∈ L -> j ∈ D /\ is_input s j) as HL.
  { intros j o Hjo. by destruct (k_link _ _ _ H _ _ Hjo) as (? & ? & _). }
  pose proof (r_inj _ _ _ _ Hr) as Hinj. clear H Hr. induction L as [|[j o] L IH] in HL |- *; [done|]. specialize (IH ltac:(intros; eapply HL; by right)).
  unfold cut in *. rewrite filter_cons. cbn [fst]. rewrite (rev_sources_cons s L). destruct (HL j o) as [Hjd Hji]; [by left|].
  destruct (decide (j = i)) as [->|Hji'].
  - rewrite (decide_False (P := i <> i)) by tauto. rewrite IH, Hp. case_decide; [|done].
    by rewrite filter_cons, decide_False by tauto.
  - rewrite (decide_True (P := j <> i)) by done. rewrite rev_sources_cons, IH.
    destruct (if decide _ then _ else _) as [x|] eqn:Hx; [|done]. rewrite filter_cons, decide_True; [done|].
    case_decide; [|done]. intros ->. apply Hji'. apply Hinj; [done..|congruence].
Qed.

Lemma inner_of_frame m m' p l : inner_of m p l -> (forall b k, m' !! (Connect, Inner b k) = m !! (Connect, Inner b k)) -> inner_of m' p l.
Proof.
  intros [Hl H] Ha. split; [done|]. intros x Hx. destruct (H x Hx) as [Hc Hk]. split; [|done].
  destruct p; try done. destruct Hk as [k' ->]. by rewrite Ha.
Qed.

(** The stores of [inner_connect] *)
Lemma revs_join s s' D P L i o p q v :
  links_ok s D L -> revs_ok s D P L -> i ∈ D -> is_input s i -> target L i = None -> inst_of s i = Some p ->
  o ∈ D -> is_output s o -> inst_of s o = Some q -> mem s !! (RevChain, q) = Some v -> headers s' = headers s ->
  (forall f x, f ∈ [Connect; RevNext; RevChain] -> mem s' !! (f, x) =
    <[(RevChain, q) := Some p]> (<[(RevNext, p) := v]> (<[(Connect, p) := Some q]> (mem s))) !! (f, x)) ->
  revs_ok s' D P ((i, o) :: L).
Proof.
  intros H Hr Hd Hi Ht Hp Hod Ho Hq Hv Hh Ha. apply target_None in Ht as Hni.
  assert (forall x, is_input s' x <-> is_input s x) as Hin by (intros x; unfold is_input, lc_of; by rewrite Hh).
  assert (forall x, is_output s' x <-> is_output s x) as Hout by (intros x; unfold is_output, lc_of; by rewrite Hh).
  assert (forall x, inst_of s' x = inst_of s x) as Hinst by (intros x; unfold inst_of; by rewrite Hh).
  assert (forall L q, rev_sources s' L q = rev_sources s L q) as Hrs.
  { intros. by apply rev_sources_ext. }
  destruct (r_in _ _ _ _ Hr _ Hd Hi) as (p' & Hp' & Hpn & _). rewrite Hp in Hp'. injection Hp' as <-.
  split.
  - intros j Hj Hji. apply Hin in Hji. destruct (r_in _ _ _ _ Hr _ Hj Hji) as (pj & Hpj & Hn & Hc & Hrn).
    exists pj. rewrite Hinst. split; [done|]. split; [done|]. rewrite !Ha by set_solver. rewrite target_cons.
    split.
    + rewrite !lookup_insert_ne with (i := (RevChain, q)), !lookup_insert_ne with (i := (RevNext, p)) by done.
      case_decide as Hij.
      * subst j. rewrite Hp in Hpj. injection Hpj as <-. rewrite lookup_insert, decide_True by done. simpl. by rewrite Hinst, Hq.
      * rewrite lookup_insert_ne.
        -- rewrite Hc. f_equal. destruct (target L j); simpl; [by rewrite Hinst|done].
        -- intros [= ->]. apply Hij. apply (r_inj _ _ _ _ Hr); [done..|congruence].
    + rewrite lookup_insert_ne by done. rewrite lookup_insert_is_Some.
      destruct (decide ((RevNext, p) = (RevNext, pj))); [tauto|]. rewrite lookup_insert_ne by done. tauto.
  - intros x Hx Hxo. apply Hout in Hxo. rewrite Hinst. by apply (r_inst _ _ _ _ Hr).
  - intros px Hpx. destruct (r_out _ _ _ _ Hr _ Hpx) as (l & Hl & Hs). exists l.
    assert (p ∉ rev_sources s L px ++ l) as Hfresh.
    { intros [Hin'|Hin']%elem_of_app.
      - apply (rev_sources_fresh s D P L i p) in Hin' as (o' & Hio & _); [|done..]. apply Hni. apply list_elem_of_fmap. by exists (i, o').
      - destruct Hl as [_ Hl]. destruct (Hl p Hin') as [_ Hk]. destruct px; try done. destruct Hk as [k' ->]. by eapply Hpn. }
    split.
    { eapply inner_of_frame; [exact Hl|]. intros b k. rewrite Ha by set_solver. rewrite !lookup_insert_ne; try done.
      intros [= ->]. by eapply Hpn. }
    eapply seg_frame with (m := <[(RevChain, q) := Some p]> (<[(RevNext, p) := v]> (<[(Connect, p) := Some q]> (mem s))));
      [|apply Ha; set_solver|intros; apply Ha; set_solver].
    rewrite Hrs, rev_sources_cons, Hq, Hp. destruct (decide (Some q = Some px)) as [[= ->]|Hne].
    + rewrite <- app_comm_cons. apply seg_head in Hs as Hhd. rewrite Hv in Hhd. injection Hhd as ->. apply seg_cons; try done.
      by apply seg_insert_ne.
    + repeat apply seg_insert_ne; try done; congruence.
  - intros j k Hj Hk Hji Hki. apply Hin in Hji, Hki. rewrite !Hinst. by apply (r_inj _ _ _ _ Hr).
Qed.

(** The stores of [unhook] *)
Lemma revs_cut s s' D P L i o p q l v :
  links_ok s D L -> revs_ok s D P L -> target L i = Some o -> inst_of s i = Some p -> inst_of s o = Some q ->
  seg (mem s) (RevChain, q) RevNext (rev_sources s L q ++ l) -> inner_of (mem s) q l ->
  mem s !! (RevNext, p) = Some v -> headers s' = headers s ->
  (forall f x, f ∈ [Connect; RevNext; RevChain] -> mem s' !! (f, x) =
    <[(Connect, p) := None]> (<[cell_before (RevChain, q) RevNext (rev_sources s L q ++ l) p := v]> (mem s)) !! (f, x)) ->
  revs_ok s' D P (cut L i).
Proof.
  intros H Hr Ht Hp Hq Hs Hl Hv Hh Ha. apply target_Some in Ht; [|apply (k_nodup _ _ _ H)].
  destruct (k_link _ _ _ H _ _ Ht) as (Hd & Hi & _).
  assert (forall x, is_input s' x <-> is_input s x) as Hin by (intros x; unfold is_input, lc_of; by rewrite Hh).
  assert (forall x, is_output s' x <-> is_output s x) as Hout by (intros x; unfold is_output, lc_of; by rewrite Hh).
  assert (forall x, inst_of s' x = inst_of s x) as Hinst by (intros x; unfold inst_of; by rewrite Hh).
  assert (forall L q, rev_sources s' L q = rev_sources s L q) as Hrs.
  { intros. by apply rev_sources_ext. }
  destruct (r_in _ _ _ _ Hr _ Hd Hi) as (p' & Hp' & Hpn & _). rewrite Hp in Hp'. injection Hp' as <-.
  pose proof (rev_list_NoDup _ _ _ _ _ _ H Hr Hl) as Hnd.
  assert (p ∈ rev_sources s L q) as Hpin by (apply elem_of_rev_sources; eauto).
  pose proof (cell_before_in (RevChain, q) RevNext (rev_sources s L q ++ l) p) as Hcb.
  split.
  - intros j Hj Hji. apply Hin in Hji. destruct (r_in _ _ _ _ Hr _ Hj Hji) as (pj & Hpj & Hn & Hc & Hrn).
    exists pj. rewrite Hinst. split; [done|]. split; [done|]. rewrite !Ha by set_solver. rewrite target_cut. split.
    + case_decide as Hij.
      * subst j. rewrite Hp in Hpj. injection Hpj as <-. by rewrite lookup_insert, decide_True.
      * rewrite lookup_insert_ne; [|intros [= ->]; apply Hij, (r_inj _ _ _ _ Hr); [done..|congruence]].
        rewrite lookup_insert_ne by (destruct Hcb as [->|(y & _ & _ & ->)]; congruence).
        rewrite Hc. f_equal. destruct (target L j); simpl; [by rewrite Hinst|done].
    + rewrite lookup_insert_ne by congruence. rewrite lookup_insert_is_Some.
      destruct (decide (cell_before (RevChain, q) RevNext (rev_sources s L q ++ l) p = (RevNext, pj))); tauto.
  - intros x Hx Hxo. apply Hout in Hxo. rewrite Hinst. by apply (r_inst _ _ _ _ Hr).
  - intros px Hpx. destruct (r_out _ _ _ _ Hr _ Hpx) as (lx & Hlx & Hsx). exists lx. split.
    { eapply inner_of_frame; [exact Hlx|]. intros b k. rewrite Ha by set_solver.
      rewrite lookup_insert_ne by (intros [= ->]; by eapply Hpn).
      rewrite lookup_insert_ne; [done|]. destruct Hcb as [->|(y & _ & _ & ->)]; congruence. }
    eapply seg_frame with (m := <[(Connect, p) := None]> (<[cell_before (RevChain, q) RevNext (rev_sources s L q ++ l) p := v]> (mem s)));
      [|apply Ha; set_solver|intros; apply Ha; set_solver].
    apply seg_insert_ne; [|done|done].
    rewrite Hrs. erewrite rev_sources_cut by done.
    assert (filter (fun y => y <> p) lx = lx) as Hflx.
    { apply filter_keep. intros y Hy ->. destruct Hlx as [_ Hlx]. destruct (Hlx p Hy) as [_ Hk].
      destruct px; try done. destruct Hk as [k' ->]. by eapply Hpn. }
    rewrite <- Hflx, <- filter_app. destruct (decide (px = q)) as [->|Hne].
    + rewrite (seg_unique _ _ _ _ _ Hsx Hs). apply seg_unlink; try done. apply elem_of_app. by left.
    + assert (filter (fun y => y <> p) (rev_sources s L px ++ lx) = rev_sources s L px ++ lx) as ->.
      { rewrite filter_app, Hflx. f_equal. apply filter_keep. intros y Hy ->.
        apply (rev_sources_fresh s D P L i p) in Hy as (o' & Hio & Ho'); [|done..].
        apply target_Some in Hio, Ht; try apply (k_nodup _ _ _ H). congruence. }
      apply seg_insert_ne; [done| |].
      * destruct Hcb as [->|(y & _ & _ & ->)]; congruence.
      * intros y Hy. destruct Hcb as [->|(z & Hz & _ & ->)]; [done|]. intros [= ->].
        apply elem_of_app in Hy, Hz. destruct Hl as [_ Hl], Hlx as [_ Hlx].
        destruct Hz as [Hz|Hz], Hy as [Hy|Hy].
        -- apply elem_of_rev_sources in Hz as (j & o1 & Hj & Hji & Ho1). destruct (k_link _ _ _ H _ _ Hj) as (Hjd & Hjin & _).
           apply (rev_sources_fresh s D P L j y) in Hy as (o2 & Hio & Ho2); [|done..].
           apply target_Some in Hio, Hj; try apply (k_nodup _ _ _ H). congruence.
        -- destruct (Hlx _ Hy) as [_ Hk]. destruct px; try done. destruct Hk as [k' ->]. by eapply rev_sources_not_inner.
        -- destruct (Hl _ Hz) as [_ Hk]. destruct q; try done. destruct Hk as [k' ->]. by eapply rev_sources_not_inner.
        -- destruct (Hl _ Hz), (Hlx _ Hy). congruence.
  - intros j k Hj Hk Hji Hki. apply Hin in Hji, Hki. rewrite !Hinst. by apply (r_inj _ _ _ _ Hr).
Qed.


(** ** The functions *)

(** What they may change: the cells that wire inputs to outputs *)
Definition wire_cell D (c : cell) : Prop :=
  match c.1 with
  | First | Chain => c.2 ∈ D \/ exists e, c.2 = Entry e
  | Connect | RevNext | RevChain => True
  | _ => False
  end.

Definition rewired D s s' : Prop :=
  (exists m, s' = s <| mem := m |>) /\ dom (mem s') = dom (mem s) /\ (forall c, ~ wire_cell D c -> mem s' !! c = mem s !! c).

Lemma rewired_refl D s : rewired D s s.
Proof. split; [exists (mem s); by destruct s|]. by split. Qed.

Lemma rewired_put D s s' c v : rewired D s s' -> is_Some (mem s' !! c) -> wire_cell D c -> rewired D s (put_cell c v s').
Proof.
  intros ((m & ->) & Hd & Ha) Hc Hf. split; [by eexists|]. split.
  - rewrite <- Hd. simpl. apply dom_insert_lookup_L. done.
  - intros c' Hc'. simpl. rewrite lookup_insert_ne; [by apply Ha|]. intros ->. done.
Qed.

Lemma rewired_headers D s s' : rewired D s s' -> headers s' = headers s.
Proof. by intros ((m & ->) & _). Qed.

Lemma inner_connect_run s i o p q li lo v :
  lc_of s i = Some li -> l_type li = false -> lc_of s o = Some lo -> l_type lo = true ->
  l_sect_count li <= l_sect_count lo -> inst_of s i = Some p -> inst_of s o = Some q ->
  is_Some (mem s !! (Connect, p)) -> is_Some (mem s !! (RevNext, p)) -> mem s !! (RevChain, q) = Some v ->
  inner_connect loaders o i s = Ok (true, put_cell (RevChain, q) (Some p) (put_cell (RevNext, p) v (put_cell (Connect, p) (Some q) s))).
Proof.
  intros Hli Hti Hlo Hto Hsec Hp Hq Hc Hr Hv. unfold inner_connect.
  rewrite (bind_ok _ _ _ _ _ (load_conn_of_ok _ _ _ Hlo)), (bind_ok _ _ _ _ _ (load_conn_of_ok _ _ _ Hli)), Hto, Hti.
  cbn [negb orb]. unfold inst_of in Hp, Hq.
  destruct (headers s !! i) as [hi|] eqn:Hi; [|done]. destruct (headers s !! o) as [ho|] eqn:Ho; [|done].
  simpl in Hp, Hq. rewrite (bind_ok _ _ _ _ _ (header_ok _ _ _ Hi)), (bind_ok _ _ _ _ _ (the_ok _ _ _ Hp)).
  rewrite (bind_ok _ _ _ _ _ (header_ok _ _ _ Ho)), (bind_ok _ _ _ _ _ (the_ok _ _ _ Hq)).
  rewrite (proj2 (Z.ltb_ge _ _)) by lia.
  erewrite bind_ok by by apply write_ok. erewrite bind_ok; [|by apply read_ok; simpl; rewrite lookup_insert_ne].
  erewrite bind_ok; [|apply write_ok; simpl; by rewrite lookup_insert_ne].
  erewrite bind_ok; [done|]. apply write_ok. simpl. rewrite !lookup_insert_ne by done. eauto.
Qed.

Lemma outer_connect_run s i o v :
  i <> o -> is_Some (mem s !! (First, i)) -> is_Some (mem s !! (Chain, i)) -> mem s !! (First, o) = Some v ->
  outer_connect o i s = Ok (true, put_cell (First, o) (Some i) (put_cell (Chain, i) v (put_cell (First, i) (Some o) s))).
Proof.
  intros Hio Hf Hc Hv. unfold outer_connect. erewrite bind_ok by by apply write_ok.
  erewrite bind_ok; [|by apply read_ok; simpl; rewrite lookup_insert_ne by congruence].
  erewrite bind_ok; [|apply write_ok; simpl; by rewrite lookup_insert_ne].
  erewrite bind_ok; [done|]. apply write_ok. simpl. rewrite !lookup_insert_ne by congruence. eauto.
Qed.


(** Entries of the main directory have no structure behind them. *)
Lemma revs_same s s' D P L L' :
  revs_ok s D P L -> headers s' = headers s -> agree [Connect; RevNext; RevChain] s s' ->
  (forall i, i ∈ D -> is_input s i -> target L' i ≫= inst_of s = target L i ≫= inst_of s) ->
  (forall q, rev_sources s L' q = rev_sources s L q) -> revs_ok s' D P L'.
Proof.
  intros Hr Hh Ha Ht Hrs.
  assert (forall x, is_input s' x <-> is_input s x) as Hin by (intros x; unfold is_input, lc_of; by rewrite Hh).
  assert (forall x, is_output s' x <-> is_output s x) as Hout by (intros x; unfold is_output, lc_of; by rewrite Hh).
  assert (forall x, inst_of s' x = inst_of s x) as Hinst by (intros x; unfold inst_of; by rewrite Hh).
  split.
  - intros i Hi Hii. apply Hin in Hii. destruct (r_in _ _ _ _ Hr _ Hi Hii) as (p & Hp & Hn & Hc & Hrn).
    exists p. rewrite Hinst, !Ha by set_solver. split; [done|]. split; [done|]. split; [|done].
    rewrite Hc, <- Ht by done. f_equal. destruct (target L' i); simpl; [by rewrite Hinst|done].
  - intros x Hx Hxo. apply Hout in Hxo. rewrite Hinst. by apply (r_inst _ _ _ _ Hr).
  - intros p Hp. destruct (r_out _ _ _ _ Hr _ Hp) as (l & Hl & Hs). exists l. split.
    + eapply inner_of_frame; [exact Hl|]. intros. apply Ha. set_solver.
    + rewrite (rev_sources_ext s s'), Hrs by done. eapply seg_frame; [exact Hs|apply Ha; set_solver|intros; apply Ha; set_solver].
  - intros i j Hi Hj Hii Hji. apply Hin in Hii, Hji. rewrite !Hinst. by apply (r_inj _ _ _ _ Hr).
Qed.

Lemma rev_sources_drop s L i o q : NoDup L.*1 -> (i, o) ∈ L -> inst_of s o = None -> rev_sources s (cut L i) q = rev_sources s L q.
Proof.
  intros Hn Hio Ho. assert (forall o', (i, o') ∈ L -> inst_of s o' = None) as Hall.
  { intros o' Hio'. apply target_Some in Hio, Hio'; try done. congruence. }
  clear Hio Ho Hn. induction L as [|[j x] L IH]; [done|]. unfold cut in *. rewrite filter_cons. cbn [fst].
  specialize (IH ltac:(intros; apply Hall; by right)). rewrite (rev_sources_cons s L). destruct (decide (j = i)) as [->|Hj].
  - rewrite (decide_False (P := i <> i)) by tauto. rewrite IH, (Hall x) by by left. by rewrite decide_False.
  - rewrite (decide_True (P := j <> i)) by done. by rewrite rev_sources_cons, IH.
Qed.

Lemma unhook_run s p q l v :
  mem s !! (Connect, p) = Some (Some q) -> seg (mem s) (RevChain, q) RevNext l -> NoDup l -> p ∈ l ->
  mem s !! (RevNext, p) = Some v ->
  unhook p s = Ok (tt, put_cell (Connect, p) None (put_cell (cell_before (RevChain, q) RevNext l p) v s)).
Proof.
  intros Hc Hs Hn Hp Hv. unfold unhook.
  rewrite (bind_ok _ _ _ _ _ (read_ok _ _ _ Hc)), (bind_ok _ _ _ _ _ (the_ok _ _ _ eq_refl)).
  erewrite bind_ok by done.
  erewrite bind_ok by (apply lift_ok; by apply find_cell_seg). rewrite decide_True by done.
  rewrite (bind_ok _ _ _ _ _ (the_ok _ _ _ eq_refl)), (bind_ok _ _ _ _ _ (read_ok _ _ _ Hv)).
  erewrite bind_ok by (apply write_ok; eexists; by eapply cell_before_some).
  apply write_ok. simpl. apply lookup_insert_is_Some. destruct (decide (cell_before (RevChain, q) RevNext l p = (Connect, p))); [by left|eauto].
Qed.

(** What the functions rely on: inputs, outputs and their lists *)
Record wiring_ok s D P L : Prop := {
  w_links : links_ok s D L;
  w_revs : revs_ok s D P L;
  w_entry e : headers s !! Entry e = None
}.

Lemma entry_inst s D P L e : wiring_ok s D P L -> inst_of s (Entry e) = None.
Proof. intros H. unfold inst_of. by rewrite (w_entry _ _ _ _ H). Qed.

Lemma disconnect_none s D P L i : wiring_ok s D P L -> i ∈ D -> is_input s i -> target L i = None ->
  disconnect loaders i s = Ok (false, s).
Proof.
  intros [H Hr He] Hd Hi Ht. unfold disconnect. destruct (k_first _ _ _ H _ Hd Hi) as [Hf _]. rewrite Ht in Hf.
  by rewrite (bind_ok _ _ _ _ _ (read_ok _ _ _ Hf)).
Qed.

(** [disconnect] takes the connection of an input away. *)
Lemma wire_disconnect_run s D P L i o : wiring_ok s D P L -> i ∈ D -> is_input s i -> target L i = Some o ->
  exists s', disconnect loaders i s = Ok (true, s') /\ wiring_ok s' D P (cut L i) /\ rewired D s s'.
Proof.
  intros [H Hr He] Hd Hi Ht. destruct (k_first _ _ _ H _ Hd Hi) as [Hf [v Hv]]. rewrite Ht in Hf.
  pose proof (k_nodup _ _ _ H) as Hnd. apply (target_Some L i o Hnd) in Ht as Hio.
  destruct (k_link _ _ _ H _ _ Hio) as (_ & _ & Ho). change (is_target s D o) in Ho.
  pose proof (cell_before_cases _ _ _ _ i H Ho) as Hcb.
  pose proof (target_seg _ _ _ _ H Ho) as Hseg. assert (i ∈ sources L o) as Hsrc by by apply elem_of_sources.
  pose proof (cell_before_some _ _ _ _ _ Hseg Hsrc) as Hcell. set (cb := cell_before (First, o) Chain (sources L o) i) in *.
  unfold disconnect. rewrite (bind_ok _ _ _ _ _ (read_ok _ _ _ Hf)).
  set (s2 := put_cell (First, i) None (put_cell cb v s)).
  assert (forall k, (m ← get mem; ptr ← lift (find_cell m (First, o) Chain i);
      match ptr with
      | None => mret false
      | Some ptr => v ← read (Chain, i); _ ← write ptr v; _ ← write (First, i) None; k
      end) s = k s2) as Hgo.
  { intros k. erewrite bind_ok by done.
    erewrite bind_ok by (apply lift_ok; apply find_cell_seg; [done|by apply sources_NoDup]).
    rewrite decide_True by done. rewrite (bind_ok _ _ _ _ _ (read_ok _ _ _ Hv)). fold cb.
    erewrite bind_ok by (apply write_ok; eauto). erewrite bind_ok; [done|]. apply write_ok.
    simpl. apply lookup_insert_is_Some. destruct (decide (cb = (First, i))); [by left|]. right. eauto. }
  assert (rewired D s s2) as Hrw.
  { apply rewired_put; [apply rewired_put; [apply rewired_refl|eauto|]| |by left].
    - destruct Hcb as [->|(j & Hj & _ & ->)].
      + destruct Ho as [[? _]|(e & -> & _)]; [by left|right; eauto].
      + left. by destruct (k_link _ _ _ H _ _ Hj).
    - simpl. apply lookup_insert_is_Some. destruct (decide (cb = (First, i))); [by left|]. right. eauto. }
  destruct Ho as [[Hod Ho]|(e & -> & Hlt)].
  - destruct (k_out _ _ _ H _ Hod Ho) as [_ Hch]. rewrite (bind_ok _ _ _ _ _ (read_ok _ _ _ Hch)). cbv zeta.
    destruct (r_in _ _ _ _ Hr _ Hd Hi) as (p & Hp & Hpn & Hcon & [vr Hvr]).
    destruct (r_inst _ _ _ _ Hr _ Hod Ho) as (q & Hqp & Hq). destruct (r_out _ _ _ _ Hr _ Hqp) as (l & Hl & Hs). rewrite Ht in Hcon. simpl in Hcon. rewrite Hq in Hcon.
    destruct Hi as (li & Hli & Hti). destruct Ho as (lo & Hlo & Hto).
    unfold inst_of in Hp. destruct (headers s !! i) as [hi|] eqn:Hhi; [|done]. simpl in Hp.
    rewrite (bind_ok _ _ _ _ _ (header_ok _ _ _ Hhi)), (bind_ok _ _ _ _ _ (the_ok _ _ _ Hp)).
    rewrite (bind_ok _ _ _ _ _ (load_conn_of_ok _ _ _ Hlo)), (bind_ok _ _ _ _ _ (load_conn_of_ok _ _ _ Hli)), Hto, Hti.
    cbn [negb orb]. rewrite Hgo.
    assert (forall f x, f ∈ [Connect; RevNext; RevChain] -> mem s2 !! (f, x) = mem s !! (f, x)) as Hs2.
    { intros f x Hfx. unfold s2. simpl. rewrite lookup_insert_ne by set_solver. rewrite lookup_insert_ne; [done|].
      destruct Hcb as [->|(? & _ & _ & ->)]; set_solver. }
    assert (inst_of s i = Some p) as Hpi by (unfold inst_of; by rewrite Hhi).
    pose proof (rev_list_NoDup _ _ _ _ _ _ H Hr Hl) as Hnr.
    assert (p ∈ rev_sources s L q ++ l) as Hpin.
    { apply elem_of_app. left. apply elem_of_rev_sources. eauto. }
    pose proof (cell_before_in (RevChain, q) RevNext (rev_sources s L q ++ l) p) as Hrb.
    set (rb := cell_before (RevChain, q) RevNext (rev_sources s L q ++ l) p) in *.
    exists (put_cell (Connect, p) None (put_cell rb vr s2)).
    assert (is_Some (mem s2 !! rb)) as Hrbs.
    { exists (Some p). destruct (cell_before_some _ _ _ _ _ Hs Hpin). fold rb.
      destruct Hrb as [->|(? & _ & _ & ->)]; apply Hs2; set_solver. }
    split.
    { erewrite bind_ok; [done|]. apply unhook_run; [by rewrite Hs2 by set_solver| |done|done|by rewrite Hs2 by set_solver].
      eapply seg_frame; [exact Hs|apply Hs2; set_solver|intros; apply Hs2; set_solver]. }
    split; [split|].
    + eapply links_cut with (s := s); [done|done|exact Hv|done|]. intros f x Hfx. fold cb. simpl.
      rewrite lookup_insert_ne by (destruct Hfx as [->| ->]; congruence).
      rewrite lookup_insert_ne; [done|]. destruct Hrb as [->|(? & _ & _ & ->)], Hfx as [->| ->]; congruence.
    + eapply revs_cut with (s := s); [done..|]. intros f x Hfx. fold rb.
      change (mem (put_cell (Connect, p) None (put_cell rb vr s2))) with (<[(Connect, p) := None]> (<[rb := vr]> (mem s2))).
      destruct (decide ((Connect, p) = (f, x))) as [->|Hne]; [by rewrite !lookup_insert, !decide_True|].
      rewrite !(lookup_insert_ne _ (Connect, p)) by done.
      destruct (decide (rb = (f, x))) as [->|Hne']; [by rewrite !lookup_insert, !decide_True|].
      rewrite !(lookup_insert_ne _ rb) by done. by apply Hs2.
    + done.
    + apply rewired_put; [apply rewired_put; [done|done|]| |done].
      * by destruct Hrb as [->|(? & _ & _ & ->)].
      * simpl. apply lookup_insert_is_Some. destruct (decide (rb = (Connect, p))); [by left|]. right. split; [done|].
        rewrite Hs2 by set_solver. eauto.
  - destruct (k_mark _ _ _ H e Hlt) as (w & Hw & Hnw). destruct w as [w|]; [|exfalso; apply Hnw; [|done]; by intros Hnil; rewrite Hnil in Hsrc; apply not_elem_of_nil in Hsrc].
    rewrite (bind_ok _ _ _ _ _ (read_ok _ _ _ Hw)). cbv zeta. rewrite Hgo. exists s2. split; [done|].
    split; [split|done].
    + eapply links_cut with (s := s); [done|done|exact Hv|done|]. by intros f x _.
    + eapply revs_same with (s := s); [done|done| | |].
      * intros f x Hfx. unfold s2. simpl. rewrite lookup_insert_ne by set_solver. rewrite lookup_insert_ne; [done|].
        destruct Hcb as [->|(? & _ & _ & ->)]; set_solver.
      * intros j Hj Hji. rewrite target_cut. case_decide; [subst; rewrite Ht; simpl; unfold inst_of; by rewrite He|done].
      * intros. eapply rev_sources_drop; [done|done|]. unfold inst_of. by rewrite He.
    + done.
Qed.


Ltac other_cells := repeat (rewrite lookup_insert_ne by (congruence || set_solver)).

(** [inner_connect] and [outer_connect] add a connection in front. *)
Lemma wire_connect_run s D P L i o li lo : wiring_ok s D P L -> i ∈ D -> o ∈ D -> target L i = None ->
  lc_of s i = Some li -> l_type li = false -> lc_of s o = Some lo -> l_type lo = true -> l_sect_count li <= l_sect_count lo ->
  exists s1 s', inner_connect loaders o i s = Ok (true, s1) /\ outer_connect o i s1 = Ok (true, s') /\
    wiring_ok s' D P ((i, o) :: L) /\ rewired D s s'.
Proof.
  intros [H Hr He] Hd Hod Ht Hli Hti Hlo Hto Hsec.
  assert (is_input s i) as Hi by by exists li. assert (is_output s o) as Ho by by exists lo.
  destruct (r_in _ _ _ _ Hr _ Hd Hi) as (p & Hp & Hpn & Hcon & Hrn).
  destruct (r_inst _ _ _ _ Hr _ Hod Ho) as (q & Hqp & Hq). destruct (r_out _ _ _ _ Hr _ Hqp) as (l & Hl & Hs). pose proof (seg_head _ _ _ _ Hs) as Hv.
  destruct (k_first _ _ _ H _ Hd Hi) as [Hf Hc]. destruct (k_out _ _ _ H _ Hod Ho) as [Hso Hco].
  pose proof (seg_head _ _ _ _ Hso) as Hvo.
  assert (i <> o) as Hio by (intros ->; by eapply not_both).
  eexists _, _. split; [by eapply inner_connect_run|].
  split; [apply outer_connect_run; [done|..]; simpl; other_cells; eauto|].
  split; [split|].
  - eapply links_join with (s := s); [done..|by left|done| |].
    + intros f x Hfx Hm. simpl.
      destruct (decide ((First, o) = (f, x))) as [->|H1]; [by rewrite !lookup_insert, !decide_True|].
      rewrite !(lookup_insert_ne _ (First, o)) by done.
      destruct (decide ((Chain, i) = (f, x))) as [->|H2]; [by rewrite !lookup_insert, !decide_True|].
      rewrite !(lookup_insert_ne _ (Chain, i)) by done.
      destruct (decide ((First, i) = (f, x))) as [->|H3]; [by rewrite !lookup_insert, !decide_True|].
      rewrite !(lookup_insert_ne _ (First, i)) by done.
      by rewrite !lookup_insert_ne by (destruct Hfx as [->| ->]; congruence).
    + intros e Hlt. destruct (k_mark _ _ _ H e Hlt) as (w & Hw & Hnw). exists w. split.
      * simpl. assert (i <> Entry e) by (intros ->; by apply (k_dom _ _ _ H e)). other_cells. done.
      * rewrite sources_cons. rewrite decide_False; [done|]. intros ->. by apply (k_dom _ _ _ H e).
  - eapply revs_join with (s := s); [done..|]. intros f x Hfx. simpl. by rewrite !lookup_insert_ne by set_solver.
  - done.
  - repeat (apply rewired_put; [|simpl; other_cells; eauto|first [exact I|by left|right; eauto]]). apply rewired_refl.
Qed.

(** Connecting to an entry of the main directory *)
Lemma connect_entry_run s D P L i e : wiring_ok s D P L -> i ∈ D -> is_input s i -> target L i = None -> (e < MAINDIR_MAX)%nat ->
  exists s1 s', outer_connect (Entry e) i s = Ok (true, s1) /\ write (Chain, Entry e) (Some (Entry e)) s1 = Ok (tt, s') /\
    wiring_ok s' D P ((i, Entry e) :: L) /\ rewired D s s'.
Proof.
  intros [H Hr He] Hd Hi Ht Hlt. destruct (k_first _ _ _ H _ Hd Hi) as [Hf Hc].
  pose proof (seg_head _ _ _ _ (k_entry _ _ _ H e Hlt)) as Hvo. destruct (k_mark _ _ _ H e Hlt) as (w & Hw & _).
  assert (forall e, i <> Entry e) as Hie by (intros e' ->; by apply (k_dom _ _ _ H e')).
  eexists _, _. split; [by apply outer_connect_run|].
  split; [apply write_ok; simpl; other_cells; eauto|].
  split; [split|].
  - eapply links_join with (s := s); [done..| |done| |].
    + right. eauto.
    + intros f x Hfx Hm. simpl. rewrite (lookup_insert_ne _ (Chain, Entry e)); [done|]. intros Heq. symmetry in Heq. by apply (Hm e).
    + intros e' Hlt'. simpl. destruct (decide (e = e')) as [->|Hne].
      * exists (Some (Entry e')). by rewrite lookup_insert, decide_True.
      * destruct (k_mark _ _ _ H e' Hlt') as (w' & Hw' & Hnw). exists w'. split; [other_cells; done|].
        rewrite sources_cons. rewrite decide_False; [done|congruence].
  - eapply revs_same with (s := s); [done|done| | |].
    + intros f x Hfx. simpl. by rewrite !lookup_insert_ne by set_solver.
    + intros j Hj Hji. rewrite target_cons. case_decide; [subst; rewrite Ht; simpl; unfold inst_of; by rewrite He|done].
    + intros q. rewrite rev_sources_cons. rewrite decide_False; [done|]. unfold inst_of. by rewrite He.
  - done.
  - repeat (apply rewired_put; [|simpl; other_cells; eauto|first [exact I|by left|right; eauto]]). apply rewired_refl.
Qed.

End wiring.
