(* ===== verification/ControlState.v ===== *)
(** * The state of the strategy brick: invariant and searches

    A consistent state has bricks with distinct addresses in the lists of the
    hash table, connectors with their table entries and structures in the lists
    of their bricks, and the connections of [ControlWiring].  In such a state
    the search functions find what is there. *)

From S2P Require Import Prelude CLib Common Cells ControlSimple ControlWiring.
Open Scope Z_scope.

(** ** Strings *)

Lemma terminated_head (c : Z) (t : text) : terminated (c :: t) = true -> 0 <= c < 128.
Proof. simpl. lia. Qed.

Lemma strcmp_equal s t : terminated s = true -> terminated t = true ->
  exists r, strcmp s t = Ok r /\ (r = 0 <-> body s = body t).
Proof.
  revert t. induction s as [|x s IH]; intros [|y t] Hs Ht; try done. cbn [strcmp body].
  destruct (Z.eqb_spec x y) as [->|Hxy].
  - destruct (Z.eqb_spec y 0) as [->|Hy]; [by exists 0|].
    destruct (IH t) as (r & -> & Hr); [by eapply terminated_tail..|]. exists r. split; [done|]. rewrite Hr. split; [by intros ->|by intros [= ?]].
  - eexists. split; [done|]. apply terminated_head in Hs, Ht.
    rewrite !wrap_small by lia. split; [lia|]. destruct (Z.eqb_spec x 0), (Z.eqb_spec y 0); subst; try done. by intros [= ?].
Qed.

Section state.
Context {W : Type} (loaders : list loader_t).
Abbreviation state := (control_state W).
Implicit Types (s : state) (o : obj) (D : list obj) (L : list (obj * obj)) (B : list nat) (C : nat -> list obj).

(** ** The tables are well formed. *)

Record loader_ok (l : loader_t) : Prop := {
  lo_name : terminated (ld_name l) = true;
  lo_conn i lc : ld_conns l !! i = Some lc ->
    terminated (l_name lc) = true /\ 0 <= l_count lc /\ (l_start_index lc + Z.to_nat (l_count lc) <= ld_totalcount l)%nat /\
    Forall (fun x => terminated x.1.1 = true) (l_gen_type lc);
  lo_disjoint i j lc lc' k k' : ld_conns l !! i = Some lc -> ld_conns l !! j = Some lc' ->
    0 <= k < l_count lc -> 0 <= k' < l_count lc' ->
    (l_start_index lc + Z.to_nat k)%nat = (l_start_index lc' + Z.to_nat k')%nat -> i = j /\ k = k';
  lo_wire c k : (c, k) ∈ ld_wires l -> exists lc, ld_conns l !! c = Some lc /\ l_type lc = true /\ 0 <= k < l_count lc
}.

Definition loaders_ok : Prop := Forall loader_ok loaders.

(** ** Invariant *)

Definition loader_of_brick s (b : nat) : option nat := bricks s !! b ≫= b_loader.
Definition table_of s (b : nat) : option loader_t := loader_of_brick s b ≫= (loaders !!.).
Definition addr_of s (b : nat) : option Z := addr <$> bricks s !! b.
Definition bucket_ix (a : Z) : nat := Z.to_nat (brick_hash_fn a).
Definition in_bucket s (k : nat) (b : nat) : Prop := bucket_ix <$> addr_of s b = Some k.
#[export] Instance in_bucket_dec s k b : Decision (in_bucket s k b).
Proof. unfold in_bucket. apply _. Defined.

Record bricks_ok s B : Prop := {
  b_nodup : NoDup B;
  b_table b : b ∈ B -> is_Some (table_of s b)
}.

(** The bricks in the hash table *)
Record hash_ok s B : Prop := {
  b_nonzero b : b ∈ B -> addr_of s b <> Some 0;
  b_addr b1 b2 : b1 ∈ B -> b2 ∈ B -> addr_of s b1 = addr_of s b2 -> b1 = b2;
  b_bucket k : (k < Z.to_nat BRICK_HASH_MAX)%nat -> seg (mem s) (HashNext, Bucket k) HashNext (Brick <$> filter (in_bucket s k) B)
}.

Record conns_ok s B C : Prop := {
  c_nodup b : b ∈ B -> NoDup (C b);
  c_seg b : b ∈ B -> seg (mem s) (Connectors, Brick b) ConnNext (C b);
  c_last b : b ∈ B -> mem s !! (Last, Brick b) = Some (last (C b))
}.

Definition all_conns B C : list obj := concat (C <$> B).

(** The output structures in the instances of bricks, and those of their own *)
Definition outputs s B C : obj -> Prop := fun p =>
  (exists b l i lc k, b ∈ B /\ table_of s b = Some l /\ ld_conns l !! i = Some lc /\ l_type lc = true /\
    0 <= k < l_count lc /\ p = Part b i k) \/
  (exists n o, p = Block n /\ o ∈ all_conns B C /\ is_output loaders s o /\ inst_of s o = Some (Block n)).

(** Where the header of a connector is, and its structure *)
Definition placed (b i : nat) (l : loader_t) (lc : load_conn_t) (o p : obj) : Prop :=
  match o with
  | Slot b' j => b' = b /\ (j < ld_totalcount l)%nat /\ exists k, p = Part b i k /\ 0 <= k < l_count lc /\
      (l_type lc = false -> j = (l_start_index lc + Z.to_nat k)%nat)
  | Dyn _ => exists n, p = Block n
  | _ => False
  end.

(** A connector that has not been created: its index is one of its array. *)
Definition blank_header (h : connector_header) : Prop :=
  belonging h = None /\ instance h = None /\ c_param h = None /\ load_conn h = None.

Record data_ok s B C : Prop := {
  d_slot b l j : b ∈ B -> table_of s b = Some l -> (j < ld_totalcount l)%nat ->
    exists h, headers s !! Slot b j = Some h /\
      (Slot b j ∉ C b -> blank_header h /\
        (forall i lc k, ld_conns l !! i = Some lc -> j = (l_start_index lc + Z.to_nat k)%nat -> 0 <= k < l_count lc -> 0 <= c_index h < l_count lc) /\
        mem s !! (First, Slot b j) = Some None /\ mem s !! (Chain, Slot b j) = Some None /\ mem s !! (ConnNext, Slot b j) = Some None);
  d_conn b o : b ∈ B -> o ∈ C b ->
    exists h ld l i lc p, headers s !! o = Some h /\ belonging h = Some b /\ load_conn h = Some (ld, i) /\
      loader_of_brick s b = Some ld /\ loaders !! ld = Some l /\ ld_conns l !! i = Some lc /\ instance h = Some p /\ placed b i l lc o p
}.

(** The inputs of the static arrays are created with their brick. *)
Definition inputs_ok s B C : Prop := forall b l i lc k,
  b ∈ B -> table_of s b = Some l -> ld_conns l !! i = Some lc -> l_type lc = false -> l_export lc = true ->
  (k < Z.to_nat (l_count lc))%nat -> Slot b (l_start_index lc + k) ∈ C b.

(** Parameter strings of the bricks but for the first, the strategy brick
    itself: each has one of its own. *)
Definition on_heap s (p : nat) : Prop := exists t, strings s !! p = Some (true, t).
Definition param_of s o : option nat := headers s !! o ≫= c_param.
Definition brick_param s (b : nat) : option nat := bricks s !! b ≫= b_param.

Record strings_ok s (root : nat) B C : Prop := {
  s_brick b : b ∈ B -> b <> root -> exists p, brick_param s b = Some p /\ on_heap s p;
  s_conn b o p : b ∈ B -> b <> root -> o ∈ C b -> param_of s o = Some p -> on_heap s p;
  s_bricks b1 b2 : b1 ∈ B -> b2 ∈ B -> b1 <> root -> b2 <> root -> brick_param s b1 = brick_param s b2 -> b1 = b2;
  s_conns b1 b2 o1 o2 p : b1 ∈ B -> b2 ∈ B -> b1 <> root -> b2 <> root -> o1 ∈ C b1 -> o2 ∈ C b2 ->
    param_of s o1 = Some p -> param_of s o2 = Some p -> o1 = o2;
  s_apart b1 b2 o : b1 ∈ B -> b2 ∈ B -> b1 <> root -> b2 <> root -> o ∈ C b1 -> is_Some (param_of s o) -> param_of s o <> brick_param s b2
}.

(** Allocated blocks have numbers below the next one. *)
Definition obj_old (n : nat) (o : obj) : Prop :=
  match o with
  | Brick b | Slot b _ | Part b _ _ | Inner b _ => (b < n)%nat
  | Dyn m | Block m => (m < n)%nat
  | Entry _ | Bucket _ => True
  end.

Record old_ok s : Prop := {
  o_mem c : is_Some (mem s !! c) -> obj_old (allocs s) c.2;
  o_headers o : is_Some (headers s !! o) -> obj_old (allocs s) o /\ (forall e, o <> Entry e);
  o_bricks b : is_Some (bricks s !! b) -> (b < allocs s)%nat;
  o_strings p : is_Some (strings s !! p) -> (p < allocs s)%nat
}.

Record core_ok s (root : nat) B C L : Prop := {
  k_bricks : bricks_ok s B;
  k_conns : conns_ok s B C;
  k_data : data_ok s B C;
  k_wiring : wiring_ok loaders s (all_conns B C) (outputs s B C) L;
  k_strings : strings_ok s root B C;
  k_old : old_ok s;
  k_dir : length (main_dir s) = MAINDIR_MAX /\ Forall (fun t => terminated t = true) (main_dir s)
}.

Record control_ok s (root : nat) B C L : Prop := {
  k_core : core_ok s root B C L;
  k_hash : hash_ok s B;
  k_inputs : inputs_ok s B C
}.

(** What decides where things are: not the parameters of the connectors *)
Definition shape (h : connector_header) := (belonging h, instance h, load_conn h, c_index h).

Record same_shape s s' : Prop := {
  ss_mem : mem s' = mem s;
  ss_bricks : bricks s' = bricks s;
  ss_dir : main_dir s' = main_dir s;
  ss_headers o : shape <$> headers s' !! o = shape <$> headers s !! o
}.

Lemma shape_some s s' o h : same_shape s s' -> headers s !! o = Some h -> exists h', headers s' !! o = Some h' /\ shape h' = shape h.
Proof.
  intros H Ho. pose proof (ss_headers _ _ H o) as Hs. rewrite Ho in Hs. destruct (headers s' !! o) as [h'|]; [|done].
  injection Hs as ????. exists h'. split; [done|]. unfold shape. congruence.
Qed.

Lemma same_inst s s' o : same_shape s s' -> inst_of s' o = inst_of s o.
Proof.
  intros H. pose proof (ss_headers _ _ H o) as Ho. unfold inst_of.
  destruct (headers s' !! o), (headers s !! o); try done. by injection Ho.
Qed.

Lemma same_lc s s' o : same_shape s s' -> lc_of loaders s' o = lc_of loaders s o.
Proof.
  intros H. pose proof (ss_headers _ _ H o) as Ho. unfold lc_of.
  destruct (headers s' !! o), (headers s !! o); try done. injection Ho as _ _ Hlc _. simpl. by rewrite Hlc.
Qed.

Lemma same_table s s' b : same_shape s s' -> table_of s' b = table_of s b.
Proof. intros H. unfold table_of, loader_of_brick. by rewrite (ss_bricks _ _ H). Qed.

Lemma same_addr s s' b : same_shape s s' -> addr_of s' b = addr_of s b.
Proof. intros H. unfold addr_of. by rewrite (ss_bricks _ _ H). Qed.

Lemma elem_of_all_conns B C o : o ∈ all_conns B C <-> exists b, b ∈ B /\ o ∈ C b.
Proof.
  unfold all_conns. rewrite list_elem_of_In, in_concat. setoid_rewrite <- list_elem_of_In. split.
  - intros (l & Hl & Ho). apply list_elem_of_fmap in Hl as (b & -> & Hb). eauto.
  - intros (b & Hb & Ho). exists (C b). split; [|done]. apply list_elem_of_fmap. eauto.
Qed.

Lemma conn_facts s B C b o : data_ok s B C -> b ∈ B -> o ∈ C b ->
  exists lc, lc_of loaders s o = Some lc /\ is_Some (inst_of s o) /\ (forall e, o <> Entry e).
Proof.
  intros H Hb Ho. destruct (d_conn _ _ _ H b o Hb Ho) as (h & ld & l & i & lc & p & Hh & Hbel & Hlc & _ & Hl & Hi & Hp & Hpl).
  exists lc. unfold lc_of, inst_of, lc_at. rewrite Hh. simpl. rewrite Hlc, Hp. simpl. rewrite Hl. split; [done|]. split; [eauto|].
  intros e ->. done.
Qed.

Lemma slot_owner s B C b b' j : data_ok s B C -> b' ∈ B -> Slot b j ∈ C b' -> b' = b.
Proof.
  intros H Hb Hj. destruct (d_conn _ _ _ H b' _ Hb Hj) as (h & ld & l & i & lc & p & _ & _ & _ & _ & _ & _ & _ & Hpl).
  simpl in Hpl. by destruct Hpl as [-> _].
Qed.

Lemma in_or_out s B C o : data_ok s B C -> o ∈ all_conns B C -> is_input loaders s o \/ is_output loaders s o.
Proof.
  intros H (b & Hb & Ho)%elem_of_all_conns. destruct (conn_facts _ _ _ _ _ H Hb Ho) as (lc & Hlc & _).
  destruct (l_type lc) eqn:Ht; [right|left]; by exists lc.
Qed.

(** Changing connections keeps the rest. *)
Lemma parts_rewired s s' B C : conns_ok s B C -> data_ok s B C -> old_ok s -> rewired (all_conns B C) s s' ->
  conns_ok s' B C /\ data_ok s' B C /\ old_ok s'.
Proof.
  intros Hc Hd Ho ((m & ->) & Hdom & Hag). simpl in Hdom, Hag.
  assert (forall f x, f ∈ [HashNext; Connectors; Last; ConnNext] -> m !! (f, x) = mem s !! (f, x)) as Hl.
  { intros f x Hf. apply Hag. unfold wire_cell. simpl. set_solver. }
  split; [|split].
  - destruct Hc as [Hc1 Hc2 Hc3]. split; [done| |]; intros b Hbb; simpl.
    + eapply seg_frame; [by apply Hc2|apply Hl; set_solver|intros; apply Hl; set_solver].
    + rewrite Hl by set_solver. by apply Hc3.
  - destruct Hd as [Hd1 Hd2]. split; [|done]. intros b l j Hbb Hlj Hj.
    destruct (Hd1 b l j Hbb Hlj Hj) as (h & Hh & Hz). exists h. split; [done|]. intros Hout. destruct (Hz Hout) as (Hbl & Hix & H1 & H2 & H3).
    assert (Slot b j ∉ all_conns B C) as Hnot.
    { intros (b' & Hb' & Hin)%elem_of_all_conns. assert (b' = b) as -> by (by eapply slot_owner; [split|..]). done. }
    simpl. rewrite !Hag by (unfold wire_cell; simpl; try tauto; intros [?|[? ?]]; done). done.
  - destruct Ho as [Ho1 Ho2 Ho3 Ho4]. split; [|done..]. intros c Hcc. apply Ho1. simpl in Hcc.
    apply elem_of_dom. rewrite <- Hdom. by apply elem_of_dom.
Qed.

Lemma core_rewired s s' root B C L L' :
  core_ok s root B C L -> rewired (all_conns B C) s s' -> wiring_ok loaders s' (all_conns B C) (outputs s B C) L' ->
  core_ok s' root B C L'.
Proof.
  intros [Hb Hc Hd Hw Hs Ho Hdir] Hr Hw'. destruct (parts_rewired _ _ _ _ Hc Hd Ho Hr) as (Hc' & Hd' & Ho').
  destruct Hr as ((m & ->) & _). split; [by destruct Hb|done|done|exact Hw'|destruct Hs; by split|done|done].
Qed.

Lemma control_rewired s s' root B C L L' :
  control_ok s root B C L -> rewired (all_conns B C) s s' -> wiring_ok loaders s' (all_conns B C) (outputs s B C) L' ->
  control_ok s' root B C L'.
Proof.
  intros [Hc Hh Hi] Hr Hw. split; [by eapply core_rewired| |].
  - destruct Hr as ((m & ->) & _ & Hag). destruct Hh as [Hh0 Hh1 Hh2]. split; [done..|]. intros k Hk. simpl.
    eapply seg_frame; [by apply Hh2|by apply Hag; intros []|]. intros x Hx. by apply Hag; intros [].
  - by destruct Hr as ((m & ->) & _).
Qed.

(** ** Searches *)

Definition brick_with s B (a : Z) : option nat := List.find (fun b => bool_decide (addr_of s b = Some a)) B.

Lemma brick_with_in s B a b : brick_with s B a = Some b -> b ∈ B /\ addr_of s b = Some a.
Proof. intros [H1 H2]%find_some. split; [by apply list_elem_of_In|by apply bool_decide_eq_true in H2]. Qed.

Lemma find_fmap {A A'} (f : A -> A') (q : A' -> bool) l : List.find q (f <$> l) = f <$> List.find (fun x => q (f x)) l.
Proof. induction l as [|x l IH]; [done|]. simpl. by destruct (q (f x)). Qed.

Lemma find_filter {A} (Q : A -> Prop) `{forall x, Decision (Q x)} (q : A -> bool) l :
  (forall x, x ∈ l -> q x = true -> Q x) -> List.find q (filter Q l) = List.find q l.
Proof.
  induction l as [|x l IH]; intros Hl; [done|]. rewrite filter_cons. specialize (IH ltac:(intros; apply Hl; [by right|done])).
  case_decide as Hx; simpl; [by destruct (q x)|]. destruct (q x) eqn:Hq; [|done]. exfalso. apply Hx, Hl; [by left|done].
Qed.

Lemma bucket_lt a : (bucket_ix a < Z.to_nat BRICK_HASH_MAX)%nat.
Proof.
  unfold bucket_ix, brick_hash_fn. pose proof (Z.mod_pos_bound (u32 a / REPRES_MAX) BRICK_HASH_MAX ltac:(done)).
  apply Z2Nat.inj_lt; [lia|done|lia].
Qed.

Lemma brick_present s B b : bricks_ok s B -> b ∈ B -> exists h ld l, bricks s !! b = Some h /\ b_loader h = Some ld /\ loaders !! ld = Some l.
Proof.
  intros H Hb. destruct (b_table _ _ H b Hb) as [l Hl]. unfold table_of, loader_of_brick in Hl.
  destruct (bricks s !! b) as [h|] eqn:Hh; [|done]. simpl in Hl. destruct (b_loader h) as [ld|] eqn:Hld; [|done]. eauto 8.
Qed.

Lemma find_brick_hash_ok s B a : bricks_ok s B -> hash_ok s B -> find_brick_hash a s = Ok (brick_with s B a, s).
Proof.
  intros H Hhash. unfold find_brick_hash. erewrite bind_ok.
  2: { unfold search. erewrite find_in_seg with (p := fun o => match o with Brick b => bool_decide (addr_of s b = Some a) | _ => false end);
    [done|apply (b_bucket _ _ Hhash), bucket_lt| |].
    - apply NoDup_fmap_2; [by intros ?? [= ?]|]. apply NoDup_filter, (b_nodup _ _ H).
    - intros x (b & -> & [_ Hb]%list_elem_of_filter)%list_elem_of_fmap. destruct (brick_present _ _ _ H Hb) as (h & ld & l & Hh & _).
      simpl. rewrite Hh. f_equal. unfold addr_of. rewrite Hh. simpl. apply eq_true_iff_eq. rewrite bool_decide_eq_true, Z.eqb_eq. naive_solver. }
  rewrite find_fmap, find_filter.
  - unfold brick_with, mret, control_ret. by destruct (List.find _ B).
  - intros b Hb Hab%bool_decide_eq_true. unfold in_bucket. rewrite Hab. done.
Qed.


(** The first exported connector of a name *)
Definition named (nm : text) (lc : load_conn_t) : bool := l_export lc && bool_decide (body (l_name lc) = body nm).
Definition conn_named (l : loader_t) (nm : text) : option nat := fst <$> list_find (fun lc => named nm lc = true) (ld_conns l).

Lemma find_load_conn_loop_ok nm l k : terminated nm = true -> Forall (fun lc => terminated (l_name lc) = true) l ->
  find_load_conn_loop nm l k = Ok ((fun x => (x.1 + k)%nat) <$> list_find (fun lc => named nm lc = true) l).
Proof.
  intros Hnm Hl. revert k. induction Hl as [|lc l Hlc Hl IH]; intros k; [done|]. cbn [find_load_conn_loop list_find].
  assert (forall b : bool, b = named nm lc ->
    (if b then Ok (Some k) else find_load_conn_loop nm l (S k)) =
    Ok ((fun x => (x.1 + k)%nat) <$> (if decide (named nm lc = true) then Some (0%nat, lc)
        else prod_map S id <$> list_find (fun lc => named nm lc = true) l))) as Hgo.
  { intros b Hb. case_decide as Hd; subst b; [by rewrite Hd|]. apply not_true_is_false in Hd as ->. rewrite IH. f_equal.
    destruct (list_find _ l) as [[n x]|]; [|done]. simpl. f_equal. lia. }
  destruct (l_export lc) eqn:He; simpl.
  - destruct (strcmp_equal (l_name lc) nm Hlc Hnm) as (r & -> & Hr). cbn [mbind cres_bind]. apply Hgo.
    unfold named. rewrite He. simpl. apply eq_true_iff_eq. by rewrite Z.eqb_eq, bool_decide_eq_true.
  - apply (Hgo false). unfold named. by rewrite He.
Qed.

Lemma table_loader s b l : table_of s b = Some l -> exists h ld, bricks s !! b = Some h /\ b_loader h = Some ld /\ loaders !! ld = Some l.
Proof.
  unfold table_of, loader_of_brick. destruct (bricks s !! b) as [h|]; simpl; [|done].
  destruct (b_loader h) as [ld|] eqn:Hld; simpl; [|done]. eauto 8.
Qed.

Lemma loader_of_ok s b h ld : bricks s !! b = Some h -> b_loader h = Some ld -> loader_of b s = Ok (ld, s).
Proof.
  intros Hh Hld. unfold loader_of. rewrite (bind_ok _ _ _ _ _ (brick_at_ok _ _ _ Hh)). by apply the_ok.
Qed.

Lemma loaders_elem l ld : loaders_ok -> loaders !! ld = Some l -> loader_ok l.
Proof. intros H Hl. eapply Forall_lookup_1; [exact H|exact Hl]. Qed.

Lemma conn_named_some l nm i : conn_named l nm = Some i -> exists lc, ld_conns l !! i = Some lc /\ l_export lc = true /\ body (l_name lc) = body nm.
Proof.
  unfold conn_named. destruct (list_find _ _) as [[n lc]|] eqn:Hf; [|done]. intros [= <-].
  apply list_find_Some in Hf as (Hlc & Hn & _). exists lc. split; [done|]. unfold named in Hn.
  by apply andb_prop in Hn as [? ?%bool_decide_eq_true].
Qed.

Lemma find_load_conn_ok s b l nm : loaders_ok -> table_of s b = Some l -> terminated nm = true ->
  find_load_conn loaders b nm s = Ok (conn_named l nm, s).
Proof.
  intros Hlo (h & ld & Hh & Hld & Hl)%table_loader Hnm. unfold find_load_conn.
  rewrite (bind_ok _ _ _ _ _ (loader_of_ok _ _ _ _ Hh Hld)), (bind_ok _ _ _ _ _ (the_ok _ _ _ Hl)).
  pose proof (loaders_elem _ _ Hlo Hl) as Hok. unfold lift. rewrite find_load_conn_loop_ok; [|done|].
  - unfold conn_named. cbn [mbind cres_bind]. f_equal. f_equal. destruct (list_find _ _) as [[n x]|]; [|done]. simpl. f_equal. lia.
  - apply Forall_lookup. intros i lc Hi. by destruct (lo_conn _ Hok _ _ Hi).
Qed.

Definition conn_at s C b (lc : load_conn_t) (index : Z) : option obj :=
  if l_count lc =? 0 then List.find (fun o => bool_decide (c_index <$> headers s !! o = Some index)) (C b)
  else if (index <? 0) || (l_count lc <=? index) then None else Some (Slot b (l_start_index lc + Z.to_nat index)).

Lemma entry_of_table s b l i lc : table_of s b = Some l -> ld_conns l !! i = Some lc ->
  exists h ld, bricks s !! b = Some h /\ b_loader h = Some ld /\ lc_at loaders (ld, i) = Some lc.
Proof.
  intros (h & ld & Hh & Hld & Hl)%table_loader Hi. exists h, ld. split; [done|]. split; [done|]. unfold lc_at. simpl. by rewrite Hl.
Qed.

Lemma get_conn_ok s B C b l i lc index : conns_ok s B C -> data_ok s B C -> b ∈ B -> table_of s b = Some l -> ld_conns l !! i = Some lc ->
  get_conn loaders b i index s = Ok (conn_at s C b lc index, s).
Proof.
  intros Hc Hd Hb Hl Hi. destruct (entry_of_table _ _ _ _ _ Hl Hi) as (h & ld & Hh & Hld & Hlc). unfold get_conn, conn_at.
  rewrite (bind_ok _ _ _ _ _ (loader_of_ok _ _ _ _ Hh Hld)), (bind_ok _ _ _ _ _ (conn_entry_ok _ _ _ _ _ Hlc)).
  destruct (l_count lc =? 0); [|by destruct ((index <? 0) || (l_count lc <=? index))].
  unfold search. erewrite find_in_seg; [done|by apply (c_seg _ _ _ Hc)|by apply (c_nodup _ _ _ Hc)|].
  intros o Ho. destruct (d_conn _ _ _ Hd b o Hb Ho) as (ho & _ & _ & _ & _ & _ & Hho & _). unfold has_index. rewrite Hho. simpl. f_equal.
  apply eq_true_iff_eq. rewrite bool_decide_eq_true, Z.eqb_eq. naive_solver.
Qed.

(** The connector of a brick with a name and an index *)
Definition resolve s C (b : nat) (nm : text) (index : Z) : option obj :=
  l ← table_of s b; i ← conn_named l nm; lc ← ld_conns l !! i; conn_at s C b lc index.

Lemma find_conn_ok s B C b nm index : loaders_ok -> bricks_ok s B -> conns_ok s B C -> data_ok s B C -> b ∈ B -> terminated nm = true ->
  find_conn loaders b nm index s = Ok (resolve s C b nm index, s).
Proof.
  intros Hlo Hbo Hc Hd Hb Hnm. destruct (b_table _ _ Hbo b Hb) as [l Hl]. unfold find_conn, resolve.
  rewrite (bind_ok _ _ _ _ _ (find_load_conn_ok _ _ _ _ Hlo Hl Hnm)), Hl. simpl.
  destruct (conn_named l nm) as [i|] eqn:Hi; [|done]. simpl. apply conn_named_some in Hi as (lc & Hlc & _). rewrite Hlc. simpl.
  by eapply get_conn_ok.
Qed.

(** A connector that is found has been created, or is still blank. *)
Lemma resolve_cases s B C b nm index o : loaders_ok -> resolve s C b nm index = Some o -> b ∈ B ->
  o ∈ C b \/ exists l j, o = Slot b j /\ table_of s b = Some l /\ (j < ld_totalcount l)%nat /\ Slot b j ∉ C b.
Proof.
  intros Hlo H Hb. unfold resolve in H. destruct (table_of s b) as [l|] eqn:Hl; simpl in H; [|done].
  destruct (conn_named l nm) as [i|] eqn:Hi; simpl in H; [|done]. destruct (ld_conns l !! i) as [lc|] eqn:Hlc; simpl in H; [|done].
  unfold conn_at in H. destruct (l_count lc =? 0) eqn:Hz.
  - apply find_some in H as [Ho _]. left. by apply list_elem_of_In.
  - destruct ((index <? 0) || (l_count lc <=? index)) eqn:Hr; [done|]. injection H as <-.
    destruct (decide (Slot b (l_start_index lc + Z.to_nat index) ∈ C b)); [by left|right].
    destruct (table_loader _ _ _ Hl) as (_ & ld & _ & _ & Hld). pose proof (loaders_elem _ _ Hlo Hld) as Hok.
    destruct (lo_conn _ Hok _ _ Hlc) as (_ & _ & Hrange & _). eexists l, _. split; [done|]. split; [done|]. split; [|done].
    apply orb_false_elim in Hr as [Hr1 Hr2]. lia.
Qed.


(** The connector that an address, a name and an index mean *)
Definition lookup_conn s B C (c : conn_info) : option obj :=
  b ← brick_with s B (conn_addr c); resolve s C b (conn_name c) (conn_index c).

(** The same bricks, and connectors of the same shape *)
Definition same_place s s' : Prop := bricks s' = bricks s /\ forall o, shape <$> headers s' !! o = shape <$> headers s !! o.

Lemma same_shape_place s s' : same_shape s s' -> same_place s s'.
Proof. by intros [_ H1 _ H2]. Qed.

Lemma same_place_trans s1 s2 s3 : same_place s1 s2 -> same_place s2 s3 -> same_place s1 s3.
Proof. intros [H1 H2] [G1 G2]. split; [congruence|]. intros o. by rewrite G2. Qed.

Lemma rewired_place D s s' : rewired D s s' -> same_place s s'.
Proof. by intros ((m & ->) & _). Qed.

Lemma same_brick_with s s' B a : bricks s' = bricks s -> brick_with s' B a = brick_with s B a.
Proof.
  intros H. unfold brick_with. induction B as [|b B IH]; [done|]. simpl.
  assert (addr_of s' b = addr_of s b) as -> by (unfold addr_of; by rewrite H). by rewrite IH.
Qed.

Lemma same_index s s' o : same_place s s' -> c_index <$> headers s' !! o = c_index <$> headers s !! o.
Proof.
  intros [_ H]. specialize (H o). destruct (headers s' !! o), (headers s !! o); try done.
  injection H as _ _ _ H. simpl. by f_equal.
Qed.

Lemma same_conn_at s s' C b lc index : same_place s s' -> conn_at s' C b lc index = conn_at s C b lc index.
Proof.
  intros H. unfold conn_at. destruct (l_count lc =? 0); [|done]. induction (C b) as [|o l IH]; [done|]. simpl.
  by rewrite (same_index _ _ _ H), IH.
Qed.

Lemma same_lookup s s' B C c : same_place s s' -> lookup_conn s' B C c = lookup_conn s B C c.
Proof.
  intros H. unfold lookup_conn. rewrite (same_brick_with _ _ _ _ (proj1 H)). destruct (brick_with s B (conn_addr c)) as [b|]; [|done]. simpl.
  unfold resolve. assert (table_of s' b = table_of s b) as -> by (unfold table_of, loader_of_brick; by rewrite (proj1 H)).
  destruct (table_of s b) as [l|]; [|done]. simpl.
  destruct (conn_named l (conn_name c)) as [i|]; [|done]. simpl. destruct (ld_conns l !! i); [|done]. simpl. by apply same_conn_at.
Qed.

(** The entry of the main directory with a name *)
Definition dir_entry s (nm : text) : option nat := fst <$> list_find (fun t => body t = body nm) (main_dir s).

Lemma find_main_dir_loop_ok nm l k : terminated nm = true -> Forall (fun t => terminated t = true) l ->
  find_main_dir_loop nm l k = Ok ((fun x => (x.1 + k)%nat) <$> list_find (fun t => body t = body nm) l).
Proof.
  intros Hnm Hl. revert k. induction Hl as [|t l Ht Hl IH]; intros k; [done|]. cbn [find_main_dir_loop list_find].
  destruct (strcmp_equal t nm Ht Hnm) as (r & -> & Hr). cbn [mbind cres_bind]. case_decide as Hd.
  - by rewrite (proj2 (Z.eqb_eq _ _) (proj2 Hr Hd)).
  - rewrite (proj2 (Z.eqb_neq _ _)) by tauto. rewrite IH. f_equal. destruct (list_find _ l) as [[n x]|]; [|done]. simpl. f_equal. lia.
Qed.

Lemma find_main_dir_ok s nm : Forall (fun t => terminated t = true) (main_dir s) -> terminated nm = true ->
  find_main_dir nm s = Ok (Entry <$> dir_entry s nm, s).
Proof.
  intros Hd Hnm. unfold find_main_dir. erewrite bind_ok by done. erewrite bind_ok by (apply lift_ok; by apply find_main_dir_loop_ok).
  unfold dir_entry, mret, control_ret. destruct (list_find _ (main_dir s)) as [[n t]|]; [|done]. simpl. by rewrite Nat.add_0_r.
Qed.

Lemma dir_entry_lt s nm e : length (main_dir s) = MAINDIR_MAX -> dir_entry s nm = Some e -> (e < MAINDIR_MAX)%nat.
Proof.
  unfold dir_entry. intros <-. destruct (list_find _ (main_dir s)) as [[n t]|] eqn:Hf; [|done]. intros [= <-].
  apply list_find_Some in Hf as (Hn & _). by eapply lookup_lt_Some.
Qed.

End state.
