(* ===== verification/ControlFrame.v ===== *)
(** * Changes of the strategy brick's state

    What keeps the invariant of [ControlState]: new parameters of connectors,
    and a connector that is created and put into the list of its brick. *)

From S2P Require Import Prelude CLib Common Cells ControlSimple ControlWiring ControlState.
Open Scope Z_scope.

Section frame.
Context {W : Type} (loaders : list loader_t).
Abbreviation state := (control_state W).
Implicit Types (s : state) (o : obj) (D : list obj) (L : list (obj * obj)) (B : list nat) (C : nat -> list obj).

(** A list is kept when the allocated cells of its members are. *)
Lemma seg_keep m m' c next l : seg m c next l ->
  (forall c', c'.1 = c.1 \/ c'.1 = next -> is_Some (m !! c') -> m' !! c' = m !! c') -> seg m' c next l.
Proof.
  intros H Ha. eapply seg_frame; [exact H| |].
  - apply Ha; [by left|]. rewrite (seg_head _ _ _ _ H). eauto.
  - intros x Hx. apply Ha; [by right|]. by eapply seg_cells.
Qed.

Definition keeps (fs : list field) (m m' : cells) : Prop :=
  forall c, c.1 ∈ fs -> is_Some (m !! c) -> m' !! c = m !! c.

Lemma keeps_some fs m m' f o v : keeps fs m m' -> f ∈ fs -> m !! (f, o) = Some v -> m' !! (f, o) = Some v.
Proof. intros H Hf Hv. rewrite (H (f, o)); simpl; eauto. Qed.

(** ** Bricks *)

Lemma same_tables s s' : (forall b, loader_of_brick s' b = loader_of_brick s b) -> forall b, table_of loaders s' b = table_of loaders s b.
Proof. intros H b. unfold table_of. by rewrite H. Qed.

Lemma bricks_keep s s' B : bricks_ok loaders s B -> (forall b, loader_of_brick s' b = loader_of_brick s b) -> bricks_ok loaders s' B.
Proof. intros [H1 H2] Hb. split; [done|]. intros b Hbb. rewrite (same_tables _ _ Hb). by apply H2. Qed.

Lemma hash_keep s s' B : hash_ok s B -> bricks s' = bricks s -> keeps [HashNext] (mem s) (mem s') -> hash_ok s' B.
Proof.
  intros [H2 H3 H4] Hb Hm.
  assert (forall b, addr_of s' b = addr_of s b) as Ha by (intros b; unfold addr_of; by rewrite Hb).
  split.
  - intros b. rewrite Ha. apply H2.
  - intros b1 b2 ??. rewrite !Ha. by apply H3.
  - intros k Hk. eapply seg_keep; [|intros c' Hc'; apply Hm; set_solver].
    rewrite (list_filter_iff _ (in_bucket s k)); [by apply H4|]. intros b. unfold in_bucket. by rewrite Ha.
Qed.

Lemma inputs_keep s s' B C : inputs_ok loaders s B C -> bricks s' = bricks s -> inputs_ok loaders s' B C.
Proof.
  intros H Hb b l i lc k Hbb Hl. apply H; [done|]. unfold table_of, loader_of_brick in *. by rewrite <- Hb.
Qed.

(** ** Wiring *)

Definition wire_fields : list field := [First; Chain; Connect; RevNext; RevChain].

Lemma wire_not_list f : f ∈ wire_fields -> f <> Last /\ f <> ConnNext /\ f <> Connectors /\ f <> HashNext.
Proof. unfold wire_fields. set_solver. Qed.

(** Membership of a field in a list of fields *)
Ltac in_fields := apply (bool_decide_unpack _); exact I.

Lemma typed_same s s' : (forall o, lc_of loaders s' o = lc_of loaders s o) ->
  (forall o, is_input loaders s' o <-> is_input loaders s o) /\ (forall o, is_output loaders s' o <-> is_output loaders s o).
Proof. intros H. split; intros o; unfold is_input, is_output; by rewrite H. Qed.

(** A connector [o] may be new. *)
Lemma wiring_add s s' D D' (P P' : obj -> Prop) L o p :
  wiring_ok loaders s D P L ->
  (forall x, x ∈ D' <-> x ∈ D \/ x = o) -> o ∉ D ->
  (forall x, x <> o -> lc_of loaders s' x = lc_of loaders s x /\ inst_of s' x = inst_of s x) ->
  (forall e, headers s' !! Entry e = None) -> keeps wire_fields (mem s) (mem s') ->
  mem s' !! (First, o) = Some None -> mem s' !! (Chain, o) = Some None -> inst_of s' o = Some p ->
  (is_input loaders s' o -> (forall b k, p <> Inner b k) /\ mem s' !! (Connect, p) = Some None /\ is_Some (mem s' !! (RevNext, p)) /\
    forall x, x ∈ D -> is_input loaders s x -> inst_of s x <> Some p) ->
  (is_output loaders s' o -> P' p) -> (forall q, P q -> P' q) ->
  (forall q, P' q -> P q \/ q = p /\ mem s' !! (RevChain, p) = Some None /\ rev_sources s L p = []) ->
  wiring_ok loaders s' D' P' L.
Proof.
  intros [H Hr He] HD Ho Hsame Hent Hm Hf Hc Hp Hin Hout HP HP'.
  assert (forall e, o <> Entry e) as Hoe.
  { intros e ->. unfold inst_of in Hp. by rewrite Hent in Hp. }
  assert (forall x, x ∈ D -> x <> o) as Hne by (intros x Hx ->; done).
  assert (forall x y, (x, y) ∈ L -> x <> o /\ y <> o) as HL.
  { intros x y Hxy. destruct (k_link _ _ _ _ H _ _ Hxy) as (Hx & _ & [[Hy _]|(e & -> & _)]); split; auto. }
  assert (forall x, x <> o -> (is_input loaders s' x <-> is_input loaders s x) /\ (is_output loaders s' x <-> is_output loaders s x)) as Ht.
  { intros x Hx. destruct (Hsame x Hx) as [Hlc _]. unfold is_input, is_output. by rewrite Hlc. }
  assert (target L o = None) as Hto.
  { apply target_None. intros ((x & y) & -> & Hxy)%list_elem_of_fmap. by destruct (HL _ _ Hxy). }
  assert (sources L o = []) as Hso.
  { destruct (sources L o) as [|x l] eqn:Hs; [done|]. exfalso.
    assert (x ∈ sources L o) as Hx by (rewrite Hs; by left). apply elem_of_sources in Hx. by destruct (HL _ _ Hx). }
  assert (forall q, rev_sources s' L q = rev_sources s L q) as Hrs.
  { intros q. clear -HL Hsame. induction L as [|[x y] L IH]; [done|]. rewrite !rev_sources_cons, IH by (intros; apply (HL x0 y0); by right).
    destruct (HL x y) as [Hx Hy]; [by left|]. by rewrite (proj2 (Hsame _ Hx)), (proj2 (Hsame _ Hy)). }
  split; [split|split|done].
  - intros e. rewrite HD. intros [Hd|Hd]; [by apply (k_dom _ _ _ _ H e)|by symmetry in Hd; apply Hoe in Hd].
  - apply (k_nodup _ _ _ _ H).
  - intros x y Hxy. destruct (HL _ _ Hxy) as [Hx Hy]. destruct (k_link _ _ _ _ H _ _ Hxy) as (Hxd & Hxi & Hyt).
    rewrite !HD. split; [by left|]. split; [by apply (Ht x Hx)|]. destruct Hyt as [[Hyd Hyo]|Hyt]; [left|by right].
    split; [by left|by apply (Ht y Hy)].
  - intros x Hx Hxi. apply HD in Hx as [Hx| ->]; [|by rewrite Hto, Hf, Hc].
    apply (Ht x (Hne x Hx)) in Hxi. destruct (k_first _ _ _ _ H _ Hx Hxi) as [H1 [v H2]]. split.
    + eapply keeps_some; [exact Hm|set_solver|done].
    + exists v. eapply keeps_some; [exact Hm|set_solver|done].
  - intros x Hx Hxo. apply HD in Hx as [Hx| ->]; [|by rewrite Hso].
    apply (Ht x (Hne x Hx)) in Hxo. destruct (k_out _ _ _ _ H _ Hx Hxo) as [H1 H2]. split.
    + eapply seg_keep; [exact H1|]. intros c' Hc'. apply Hm. set_solver.
    + eapply keeps_some; [exact Hm|set_solver|done].
  - intros e Hlt. eapply seg_keep; [by apply (k_entry _ _ _ _ H)|]. intros c' Hc'. apply Hm. set_solver.
  - intros e Hlt. destruct (k_mark _ _ _ _ H e Hlt) as (v & Hv & Hn). exists v. split; [|done].
    eapply keeps_some; [exact Hm|set_solver|done].
  - intros x Hx Hxi. apply HD in Hx as [Hx| ->].
    + apply (Ht x (Hne x Hx)) in Hxi. destruct (r_in _ _ _ _ _ Hr _ Hx Hxi) as (q & Hq & Hqn & Hcon & [v Hv]). exists q.
      rewrite (proj2 (Hsame x (Hne x Hx))). split; [done|]. split; [done|]. split.
      * rewrite (keeps_some wire_fields _ _ Connect q _ Hm ltac:(set_solver) Hcon). f_equal. destruct (target L x) as [y|] eqn:Hty; [|done]. simpl.
        apply target_Some in Hty; [|apply (k_nodup _ _ _ _ H)]. symmetry. apply Hsame. by destruct (HL _ _ Hty).
      * exists v. eapply keeps_some; [exact Hm|set_solver|done].
    + destruct (Hin Hxi) as (H1 & H2 & H3 & _). exists p. rewrite Hto. done.
  - intros x Hx Hxo. apply HD in Hx as [Hx| ->]; [|eauto].
    apply (Ht x (Hne x Hx)) in Hxo. rewrite (proj2 (Hsame x (Hne x Hx))). destruct (r_inst _ _ _ _ _ Hr _ Hx Hxo) as (q & Hq & Hqx). eauto.
  - intros q Hq. rewrite Hrs. destruct (HP' q Hq) as [Hq'|(-> & Hrc & ->)].
    + destruct (r_out _ _ _ _ _ Hr _ Hq') as (l & [Hl1 Hl2] & Hs). exists l. split; [split; [done|]|].
      * intros x Hx. destruct (Hl2 x Hx) as [Hcx Hk]. split; [|done]. eapply keeps_some; [exact Hm|set_solver|done].
      * eapply seg_keep; [exact Hs|]. intros c' Hc'. apply Hm. set_solver.
    + exists []. split; [split; [constructor|intros x Hx; by apply not_elem_of_nil in Hx]|done].
  - intros x y Hx Hy Hxi Hyi Heq. apply HD in Hx as [Hx| ->], Hy as [Hy| ->].
    + apply (Ht x (Hne x Hx)) in Hxi. apply (Ht y (Hne y Hy)) in Hyi.
      rewrite (proj2 (Hsame x (Hne x Hx))), (proj2 (Hsame y (Hne y Hy))) in Heq. by apply (r_inj _ _ _ _ _ Hr).
    + exfalso. apply (Ht x (Hne x Hx)) in Hxi. destruct (Hin Hyi) as (_ & _ & _ & H4). apply (H4 x); [done..|].
      by rewrite <- (proj2 (Hsame x (Hne x Hx))), Heq.
    + exfalso. apply (Ht y (Hne y Hy)) in Hyi. destruct (Hin Hxi) as (_ & _ & _ & H4). apply (H4 y); [done..|].
      by rewrite <- (proj2 (Hsame y (Hne y Hy))), <- Heq.
    + done.
Qed.

(** The connections stay; there may be new output structures. *)
Lemma wiring_grow s s' D D' (P P' : obj -> Prop) L :
  wiring_ok loaders s D P L -> (forall x, x ∈ D' <-> x ∈ D) ->
  (forall x, lc_of loaders s' x = lc_of loaders s x) -> (forall x, inst_of s' x = inst_of s x) ->
  (forall e, headers s' !! Entry e = None) -> keeps wire_fields (mem s) (mem s') -> (forall q, P q -> P' q) ->
  (forall q, P' q -> P q \/ mem s' !! (RevChain, q) = Some None /\ rev_sources s L q = []) ->
  wiring_ok loaders s' D' P' L.
Proof.
  intros [H Hr He] HD Hlc Hinst Hent Hm HP HP'. destruct (typed_same _ _ Hlc) as [Hin Hout].
  split; [split|split|done].
  - intros e. rewrite HD. apply (k_dom _ _ _ _ H).
  - apply (k_nodup _ _ _ _ H).
  - intros x y Hxy. rewrite Hin, Hout, !HD. by apply (k_link _ _ _ _ H).
  - intros x Hx%HD Hxi%Hin. destruct (k_first _ _ _ _ H _ Hx Hxi) as [H1 [v H2]]. split.
    + eapply keeps_some; [exact Hm|in_fields|done].
    + exists v. eapply keeps_some; [exact Hm|in_fields|done].
  - intros x Hx%HD Hxo%Hout. destruct (k_out _ _ _ _ H _ Hx Hxo) as [H1 H2]. split.
    + eapply seg_keep; [exact H1|]. intros c' Hc'. apply Hm. set_solver.
    + eapply keeps_some; [exact Hm|in_fields|done].
  - intros e Hlt. eapply seg_keep; [by apply (k_entry _ _ _ _ H)|]. intros c' Hc'. apply Hm. set_solver.
  - intros e Hlt. destruct (k_mark _ _ _ _ H e Hlt) as (v & Hv & Hn). exists v. split; [|done].
    eapply keeps_some; [exact Hm|in_fields|done].
  - intros x Hx%HD Hxi%Hin. destruct (r_in _ _ _ _ _ Hr _ Hx Hxi) as (q & Hq & Hqn & Hcon & [v Hv]). exists q.
    rewrite Hinst. split; [done|]. split; [done|]. split.
    + rewrite (keeps_some wire_fields _ _ Connect q _ Hm ltac:(in_fields) Hcon). f_equal. destruct (target L x); simpl; [by rewrite Hinst|done].
    + exists v. eapply keeps_some; [exact Hm|in_fields|done].
  - intros x Hx%HD Hxo%Hout. rewrite Hinst. destruct (r_inst _ _ _ _ _ Hr _ Hx Hxo) as (q & Hq & Hqx). eauto.
  - intros q Hq. rewrite (rev_sources_ext s s') by done. destruct (HP' q Hq) as [Hq'|[Hrc ->]].
    + destruct (r_out _ _ _ _ _ Hr _ Hq') as (l & [Hl1 Hl2] & Hs). exists l. split; [split; [done|]|].
      * intros x Hx. destruct (Hl2 x Hx) as [Hcx Hk]. split; [|done]. eapply keeps_some; [exact Hm|in_fields|done].
      * eapply seg_keep; [exact Hs|]. intros c' Hc'. apply Hm. set_solver.
    + exists []. split; [split; [constructor|intros x Hx; by apply not_elem_of_nil in Hx]|done].
  - intros x y Hx%HD Hy%HD Hxi%Hin Hyi%Hin. rewrite !Hinst. by apply (r_inj _ _ _ _ _ Hr).
Qed.

(** ** New parameters *)

Definition list_fields : list field := [Connectors; Last; ConnNext].

Lemma conns_keep s s' B C : conns_ok s B C -> keeps list_fields (mem s) (mem s') -> conns_ok s' B C.
Proof.
  intros [H1 H2 H3] Hk. split; [done| |].
  - intros b Hb. eapply seg_keep; [by apply H2|]. intros c Hc. apply Hk. set_solver.
  - intros b Hb. eapply keeps_some; [exact Hk|set_solver|by apply H3].
Qed.

Definition placing (h : connector_header) := (belonging h, instance h, load_conn h).

(** The blank connectors of a state *)
Definition slots_blank s B C (s' : state) : Prop := forall b l j,
  b ∈ B -> table_of loaders s b = Some l -> (j < ld_totalcount l)%nat -> Slot b j ∉ C b ->
  exists h, headers s' !! Slot b j = Some h /\ blank_header h /\
    (forall i lc k, ld_conns l !! i = Some lc -> j = (l_start_index lc + Z.to_nat k)%nat -> 0 <= k < l_count lc -> 0 <= c_index h < l_count lc).

Definition dir_ok s : Prop := length (main_dir s) = MAINDIR_MAX /\ Forall (fun t => terminated t = true) (main_dir s).

(** Nothing moves but in the hash table; there may be new cells and new blank headers. *)
Record stays s s' : Prop := {
  st_mem c : c.1 <> HashNext -> is_Some (mem s !! c) -> mem s' !! c = mem s !! c;
  st_loader b : loader_of_brick s' b = loader_of_brick s b;
  st_header o h : headers s !! o = Some h -> exists h', headers s' !! o = Some h' /\ placing h' = placing h;
  st_new o h : headers s !! o = None -> headers s' !! o = Some h -> placing h = (None, None, None) /\ forall e, o <> Entry e
}.

(** Nothing moves. *)
Record grows s s' : Prop := {
  g_mem c : is_Some (mem s !! c) -> mem s' !! c = mem s !! c;
  g_bricks : bricks s' = bricks s;
  g_header o h : headers s !! o = Some h -> exists h', headers s' !! o = Some h' /\ placing h' = placing h;
  g_new o h : headers s !! o = None -> headers s' !! o = Some h -> placing h = (None, None, None) /\ forall e, o <> Entry e
}.

Lemma grows_stays s s' : grows s s' -> stays s s'.
Proof. intros [H1 H2 H3 H4]. split; [intros; by apply H1| |done|done]. intros b. unfold loader_of_brick. by rewrite H2. Qed.

Lemma core_weak s s' root B C L : core_ok loaders s root B C L -> stays s s' -> dir_ok s' -> slots_blank s B C s' ->
  strings_ok s' root B C -> old_ok s' -> core_ok loaders s' root B C L.
Proof.
  intros [Hb Hc Hd Hw Hs Ho _] [Hm Hbr Hold Hnew] Hdir Hslot Hs' Ho'.
  assert (forall o h, headers s !! o = Some h -> exists h', headers s' !! o = Some h' /\ belonging h' = belonging h /\ instance h' = instance h /\ load_conn h' = load_conn h) as Hsome.
  { intros o h Hh. destruct (Hold o h Hh) as (h' & Hh' & H). injection H as ???. eauto. }
  assert (forall o, inst_of s' o = inst_of s o /\ lc_of loaders s' o = lc_of loaders s o) as Hsame.
  { intros o. unfold inst_of, lc_of. destruct (headers s !! o) as [h|] eqn:Hh.
    - destruct (Hsome o h Hh) as (h' & -> & _ & E1 & E2). simpl. by rewrite E1, E2.
    - destruct (headers s' !! o) as [h'|] eqn:Hh'; [|done]. destruct (Hnew o h' Hh Hh') as [E _]. injection E as E1 E2 E3. simpl. by rewrite E2, E3. }
  pose proof (same_tables _ _ Hbr) as Htab.
  split; [by eapply bricks_keep| | | |done|done|done].
  - eapply conns_keep; [exact Hc|]. intros c Hcf. apply Hm. intros Hh. rewrite Hh in Hcf. revert Hcf. unfold list_fields. set_solver.
  - destruct Hd as [Hd1 Hd2]. split.
    + intros b l j Hbb Hl Hj. rewrite Htab in Hl. destruct (Hd1 b l j Hbb Hl Hj) as (h & Hh & Hz).
      destruct (decide (Slot b j ∈ C b)) as [Hin|Hout].
      * destruct (Hsome _ _ Hh) as (h' & Hh' & _). exists h'. done.
      * destruct (Hslot b l j Hbb Hl Hj Hout) as (h' & Hh' & Hbl & Hix). exists h'. destruct (Hz Hout) as (_ & _ & H1 & H2 & H3).
        rewrite !Hm by (done || eauto). done.
    + intros b o Hbb Hob. destruct (Hd2 b o Hbb Hob) as (h & ld & l & i & lc & p & Hh & E1 & E2 & E3 & E4 & E5 & E6 & E7).
      destruct (Hsome _ _ Hh) as (h' & Hh' & F1 & F2 & F3).
      exists h', ld, l, i, lc, p. rewrite Hbr, F1, F2, F3. done.
  - eapply wiring_grow; [exact Hw|done|apply Hsame|apply Hsame| | | |].
    + intros e. destruct (headers s' !! Entry e) as [h|] eqn:He; [|done]. exfalso.
      destruct (Hnew (Entry e) h) as [_ Hne]; [by apply (w_entry _ _ _ _ _ Hw)|done|]. by apply (Hne e).
    + intros c Hcf. apply Hm. by apply wire_not_list.
    + assert (forall o, lc_of loaders s' o = lc_of loaders s o) as Hlc by apply Hsame.
      assert (forall o, inst_of s' o = inst_of s o) as Hinst by apply Hsame.
      intros q. unfold outputs, is_output. setoid_rewrite Htab. setoid_rewrite Hlc. setoid_rewrite Hinst. done.
    + assert (forall o, lc_of loaders s' o = lc_of loaders s o) as Hlc by apply Hsame.
      assert (forall o, inst_of s' o = inst_of s o) as Hinst by apply Hsame.
      intros q. unfold outputs, is_output. setoid_rewrite Htab. setoid_rewrite Hlc. setoid_rewrite Hinst. tauto.
Qed.

Lemma control_weak s s' root B C L : control_ok loaders s root B C L -> grows s s' -> dir_ok s' -> slots_blank s B C s' ->
  strings_ok s' root B C -> old_ok s' -> control_ok loaders s' root B C L.
Proof.
  intros [Hc Hh Hi] Hg Hd Hsl Hs Ho. split; [by apply (core_weak s); [|apply grows_stays|..]| |].
  - eapply hash_keep; [exact Hh|apply (g_bricks _ _ Hg)|]. intros c _. apply (g_mem _ _ Hg).
  - eapply inputs_keep; [exact Hi|apply (g_bricks _ _ Hg)].
Qed.

Lemma same_grows s s' : same_shape s s' -> grows s s'.
Proof.
  intros H. split.
  - intros c _. by rewrite (ss_mem _ _ H).
  - apply (ss_bricks _ _ H).
  - intros o h Ho. destruct (shape_some _ _ _ _ H Ho) as (h' & Hh' & E). exists h'. split; [done|]. injection E as E1 E2 E3 _.
    unfold placing. congruence.
  - intros o h Ho Hh. pose proof (ss_headers _ _ H o) as E. rewrite Ho, Hh in E. done.
Qed.

Lemma slots_are_blank s root B C L : control_ok loaders s root B C L -> slots_blank s B C s.
Proof.
  intros H b l j Hb Hl Hj Hn. destruct (d_slot _ _ _ _ (k_data _ _ _ _ _ _ (k_core _ _ _ _ _ _ H)) _ _ _ Hb Hl Hj) as (h & Hh & Hz).
  destruct (Hz Hn) as (? & ? & _). eauto.
Qed.

Lemma control_same s s' root B C L : control_ok loaders s root B C L -> same_shape s s' ->
  (forall o h, headers s' !! o = Some h -> belonging h = None -> c_param h = c_param (default zero_header (headers s !! o))) ->
  strings_ok s' root B C -> old_ok s' -> control_ok loaders s' root B C L.
Proof.
  intros H Hss Hbl Hs Ho. eapply control_weak; [exact H|by apply same_grows| | |done|done].
  - unfold dir_ok. rewrite (ss_dir _ _ Hss). apply (k_dir _ _ _ _ _ _ (k_core _ _ _ _ _ _ H)).
  - intros b l j Hb Hl Hj Hn. destruct (slots_are_blank _ _ _ _ _ H _ _ _ Hb Hl Hj Hn) as (h & Hh & (Hz1 & Hz2 & Hz3 & Hz4) & Hix).
    destruct (shape_some _ _ _ _ Hss Hh) as (h' & Hh' & Hsh). injection Hsh as E1 E2 E3 E4. exists h'. rewrite E4. split; [done|]. split; [|done].
    unfold blank_header. rewrite E1, E2, E3. split; [done|]. split; [done|]. split; [|done].
    rewrite (Hbl _ _ Hh') by congruence. by rewrite Hh.
Qed.

(** ** A new connector *)

Definition add_conn C (b : nat) o : nat -> list obj := fun x => if decide (x = b) then C x ++ [o] else C x.
Definition tail_cell (b : nat) (l : list obj) : cell :=
  match last l with Some y => (ConnNext, y) | None => (Connectors, Brick b) end.

Lemma add_conn_same C b o : add_conn C b o b = C b ++ [o].
Proof. unfold add_conn. by rewrite decide_True. Qed.
Lemma add_conn_other C b o x : x <> b -> add_conn C b o x = C x.
Proof. intros. unfold add_conn. by rewrite decide_False. Qed.

Lemma elem_of_add_conn C b o x y : y ∈ add_conn C b o x <-> y ∈ C x \/ x = b /\ y = o.
Proof.
  unfold add_conn. case_decide; [|naive_solver]. rewrite elem_of_app, list_elem_of_singleton. naive_solver.
Qed.

Lemma elem_of_all_add B C b o x : b ∈ B -> x ∈ all_conns B (add_conn C b o) <-> x ∈ all_conns B C \/ x = o.
Proof.
  intros Hb. rewrite !elem_of_all_conns. setoid_rewrite elem_of_add_conn. naive_solver.
Qed.

Lemma tail_cell_cases b l : tail_cell b l = (Connectors, Brick b) \/ exists y, y ∈ l /\ tail_cell b l = (ConnNext, y).
Proof. unfold tail_cell. destruct (last l) as [y|] eqn:Hl; [right|by left]. exists y. split; [by apply last_Some_elem_of|done]. Qed.

Lemma tail_cell_some s B C b : conns_ok s B C -> b ∈ B -> is_Some (mem s !! tail_cell b (C b)).
Proof.
  intros H Hb. pose proof (c_seg _ _ _ H b Hb) as Hs. destruct (tail_cell_cases b (C b)) as [->|(y & Hy & ->)].
  - rewrite (seg_head _ _ _ _ Hs). eauto.
  - by eapply seg_cells.
Qed.

Lemma insert_conn_run s B C b o : conns_ok s B C -> b ∈ B ->
  insert_conn b o s = Ok (tt, put_cell (Last, Brick b) (Some o) (put_cell (tail_cell b (C b)) (Some o) s)).
Proof.
  intros H Hb. pose proof (c_last _ _ _ H b Hb) as Hl. pose proof (tail_cell_some _ _ _ _ H Hb) as Ht.
  unfold insert_conn. rewrite (bind_ok _ _ _ _ _ (read_ok _ _ _ Hl)).
  assert ((match last (C b) with None => write (Connectors, Brick b) (Some o) | Some l => write (ConnNext, l) (Some o) end) s
    = Ok (tt, put_cell (tail_cell b (C b)) (Some o) s)) as Hw.
  { unfold tail_cell in *. destruct (last (C b)); by apply write_ok. }
  rewrite (bind_ok _ _ _ _ _ Hw). apply write_ok. simpl. rewrite lookup_insert_ne; [eauto|].
  destruct (tail_cell_cases b (C b)) as [->|(y & _ & ->)]; done.
Qed.

Lemma conns_add s s' B C b o m0 : conns_ok s B C -> (forall b1 b2 x, b1 ∈ B -> b2 ∈ B -> x ∈ C b1 -> x ∈ C b2 -> b1 = b2) ->
  b ∈ B -> o ∉ all_conns B C -> keeps list_fields (mem s) m0 -> m0 !! (ConnNext, o) = Some None ->
  mem s' = <[(Last, Brick b) := Some o]> (<[tail_cell b (C b) := Some o]> m0) -> conns_ok s' B (add_conn C b o).
Proof.
  intros [H1 H2 H3] Hdis Hb Ho Hk Hn Hm.
  assert (forall x, x ∈ B -> o ∉ C x) as Hox by (intros x Hx Hin; apply Ho, elem_of_all_conns; eauto).
  assert (forall x, x ∈ B -> seg m0 (Connectors, Brick x) ConnNext (C x)) as Hseg.
  { intros x Hx. eapply seg_keep; [by apply H2|]. intros c' Hc'. apply Hk. set_solver. }
  split.
  - intros x Hx. unfold add_conn. case_decide; [|by apply H1]. subst. apply NoDup_app. split; [by apply H1|].
    split; [|apply NoDup_singleton]. intros y Hy ->%list_elem_of_singleton. by apply (Hox b).
  - intros x Hx. rewrite Hm. apply seg_insert_ne; [|done|done]. destruct (decide (x = b)) as [->|Hxb].
    + rewrite add_conn_same. unfold tail_cell. apply seg_snoc; [by apply Hseg|by apply H1|done|done|by apply Hox].
    + rewrite add_conn_other by done. destruct (tail_cell_cases b (C b)) as [->|(y & Hy & ->)].
      * apply seg_insert_ne; [by apply Hseg|congruence|done].
      * apply seg_insert_ne; [by apply Hseg|done|]. intros z Hz [= ->]. apply Hxb. by eapply Hdis.
  - intros x Hx. rewrite Hm. destruct (decide (x = b)) as [->|Hxb].
    + rewrite lookup_insert, decide_True, add_conn_same by done. by rewrite last_snoc.
    + rewrite lookup_insert_ne by congruence. rewrite lookup_insert_ne by (by destruct (tail_cell_cases b (C b)) as [->|(y & _ & ->)]).
      rewrite add_conn_other by done. eapply keeps_some; [exact Hk|set_solver|by apply H3].
Qed.

Lemma conns_disjoint s B C b1 b2 o : data_ok loaders s B C -> b1 ∈ B -> b2 ∈ B -> o ∈ C b1 -> o ∈ C b2 -> b1 = b2.
Proof.
  intros H Hb1 Hb2 H1 H2. destruct (d_conn _ _ _ _ H _ _ Hb1 H1) as (h & _ & _ & _ & _ & _ & Hh & Hbel & _).
  destruct (d_conn _ _ _ _ H _ _ Hb2 H2) as (h' & _ & _ & _ & _ & _ & Hh' & Hbel' & _). congruence.
Qed.

Lemma inst_live s D (P : obj -> Prop) L x q : wiring_ok loaders s D P L -> x ∈ D -> is_input loaders s x \/ is_output loaders s x ->
  inst_of s x = Some q -> is_Some (mem s !! (Connect, q)) \/ is_Some (mem s !! (RevChain, q)).
Proof.
  intros [H Hr _] Hx [Hi|Ho] Hq.
  - destruct (r_in _ _ _ _ _ Hr _ Hx Hi) as (q' & Hq' & _ & Hc & _). left. assert (q' = q) as -> by congruence. eauto.
  - destruct (r_inst _ _ _ _ _ Hr _ Hx Ho) as (q' & HP & Hq'). destruct (r_out _ _ _ _ _ Hr _ HP) as (l & _ & Hs).
    right. assert (q' = q) as -> by congruence. rewrite (seg_head _ _ _ _ Hs). eauto.
Qed.

Lemma lc_of_eq s s' x : headers s' !! x = headers s !! x -> lc_of loaders s' x = lc_of loaders s x /\ inst_of s' x = inst_of s x.
Proof. intros H. unfold lc_of, inst_of. by rewrite H. Qed.

Lemma core_add s s' root B C L b o h ld l k lc p m0 :
  core_ok loaders s root B C L -> b ∈ B -> o ∉ all_conns B C ->
  (forall x, x <> o -> headers s' !! x = headers s !! x) -> headers s' !! o = Some h ->
  belonging h = Some b -> load_conn h = Some (ld, k) -> instance h = Some p ->
  loader_of_brick s b = Some ld -> loaders !! ld = Some l -> ld_conns l !! k = Some lc -> placed b k l lc o p ->
  bricks s' = bricks s -> main_dir s' = main_dir s ->
  (forall c, is_Some (mem s !! c) -> m0 !! c = mem s !! c) ->
  m0 !! (First, o) = Some None -> m0 !! (Chain, o) = Some None -> m0 !! (ConnNext, o) = Some None ->
  (l_type lc = false -> m0 !! (Connect, p) = Some None /\ is_Some (m0 !! (RevNext, p))) ->
  (forall n, p = Block n -> mem s !! (Connect, p) = None /\ mem s !! (RevChain, p) = None /\
    (l_type lc = true -> m0 !! (RevChain, p) = Some None)) ->
  mem s' = <[(Last, Brick b) := Some o]> (<[tail_cell b (C b) := Some o]> m0) ->
  strings_ok s' root B (add_conn C b o) -> old_ok s' -> core_ok loaders s' root B (add_conn C b o) L.
Proof.
  intros [Hb Hc Hd Hw Hs Ho Hdir] Hbb Hnew Hsame Hh Hbel Hlch Hinst Hld Hl Hk Hpl Hbr Hmd Hm0 Hf Hch Hcn Hin Hblk Hm Hs' Ho'.
  assert (forall f, f ∈ wire_fields -> forall x, mem s' !! (f, x) = m0 !! (f, x)) as Hwf.
  { intros f (? & ? & ? & ?)%wire_not_list x. rewrite Hm. rewrite lookup_insert_ne by congruence. rewrite lookup_insert_ne; [done|].
    destruct (tail_cell_cases b (C b)) as [->|(y & _ & ->)]; congruence. }
  assert (forall x, table_of loaders s' x = table_of loaders s x) as Htab by (intros x; unfold table_of, loader_of_brick; by rewrite Hbr).
  assert (lc_of loaders s' o = Some lc) as Hlco by (unfold lc_of, lc_at; rewrite Hh; simpl; rewrite Hlch; simpl; by rewrite Hl).
  assert (inst_of s' o = Some p) as Hio by (unfold inst_of; by rewrite Hh).
  assert (forall x, x ∈ all_conns B C -> x <> o) as Hne by (intros x Hx ->; done).
  split; [eapply bricks_keep; [done|]; intros b'; unfold loader_of_brick; by rewrite Hbr| | | |done|done|by rewrite Hmd].
  - eapply conns_add; [exact Hc| |done|done| |done|exact Hm]; [intros b1 b2 x; by eapply conns_disjoint|].
    intros c _. apply Hm0.
  - destruct Hd as [Hd1 Hd2]. split.
    + intros b' l' j Hb' Hl' Hj. rewrite Htab in Hl'. destruct (Hd1 b' l' j Hb' Hl' Hj) as (h' & Hh' & Hz).
      destruct (decide (Slot b' j = o)) as [<-|Hno].
      * exists h. split; [done|]. intros Hout. exfalso. apply Hout, elem_of_add_conn. right. split; [|done]. simpl in Hpl. by destruct Hpl.
      * exists h'. rewrite Hsame by done. split; [done|]. intros Hout. rewrite elem_of_add_conn in Hout.
        assert (Slot b' j ∉ C b') as Hout' by tauto. destruct (Hz Hout') as (Hbl & Hix & H1 & H2 & H3).
        split; [done|]. split; [done|]. rewrite !Hwf by in_fields. rewrite Hm.
        rewrite lookup_insert_ne by done. rewrite lookup_insert_ne.
        { split; [|split]; rewrite Hm0; eauto. }
        destruct (tail_cell_cases b (C b)) as [->|(y & Hy & ->)]; [done|]. intros [= ->].
        destruct (Hd2 b _ Hbb Hy) as (_ & _ & l'' & i & lc' & p' & _ & _ & _ & _ & _ & _ & _ & Hpl'). simpl in Hpl'.
        destruct Hpl' as (-> & _). done.
    + intros b' x Hb' Hx. apply elem_of_add_conn in Hx as [Hx|[-> ->]].
      * assert (x <> o) as Hxo by (apply Hne, elem_of_all_conns; eauto). rewrite Hsame by done. unfold loader_of_brick. rewrite Hbr. by apply Hd2.
      * exists h, ld, l, k, lc, p. unfold loader_of_brick. rewrite Hbr. done.
  - assert (forall n, p = Block n -> forall x, x ∈ all_conns B C -> inst_of s x <> Some p) as Hfreshp.
    { intros n Hp x Hx Hq. destruct (Hblk n Hp) as (H1 & H2 & _). pose proof (in_or_out _ _ _ _ _ Hd Hx) as Hio'.
      destruct (inst_live _ _ _ _ _ _ Hw Hx Hio' Hq) as [[? ?]|[? ?]]; congruence. }
    eapply wiring_add with (s := s) (o := o) (p := p); [exact Hw| |done| | | | | |done| | | |].
    + intros x. by apply elem_of_all_add.
    + intros x Hx. by apply lc_of_eq, Hsame.
    + intros e. destruct (decide (Entry e = o)) as [<-|]; [done|]. rewrite Hsame by done. by apply (w_entry _ _ _ _ _ Hw).
    + intros [f x] Hfw Hx. rewrite Hwf by done. by apply Hm0.
    + rewrite Hwf by in_fields. done.
    + rewrite Hwf by in_fields. done.
    + intros (lc' & Hlc' & Ht). assert (lc' = lc) as -> by congruence. destruct (Hin Ht) as [Hcon Hrn].
      assert (forall b' j, p <> Inner b' j) as Hpn.
      { intros b' j ->. destruct o; try done; simpl in Hpl; [by destruct Hpl as (_ & _ & ? & ? & _)|by destruct Hpl as [? ?]]. }
      split; [done|]. rewrite !Hwf by in_fields. split; [done|]. split; [done|].
      intros x Hx Hxi Hxp. pose proof Hx as Hx'. apply elem_of_all_conns in Hx' as (b' & Hb' & Hxb').
      destruct (d_conn _ _ _ _ Hd _ _ Hb' Hxb') as (h' & ld' & l' & k' & lc'' & p' & F1 & F2 & F3 & F4 & F5 & F6 & F7 & F8).
      assert (p' = p) as -> by (unfold inst_of in Hxp; rewrite F1 in Hxp; simpl in Hxp; congruence).
      destruct Hxi as (lx & Hlx & Htx). assert (lx = lc'') as ->.
      { unfold lc_of, lc_at in Hlx. rewrite F1 in Hlx. simpl in Hlx. rewrite F3 in Hlx. simpl in Hlx. rewrite F5 in Hlx. simpl in Hlx. congruence. }
      destruct o as [|bo jo|no| | | | |]; try done; simpl in Hpl.
      * destruct Hpl as (-> & _ & i1 & -> & _ & Hj1). destruct x as [|bx jx|nx| | | | |]; try done; simpl in F8; [|by destruct F8].
        destruct F8 as (-> & _ & i2 & [= <- <- <-] & _ & Hj2).
        assert (ld' = ld) as -> by congruence. assert (l' = l) as -> by congruence. assert (lc'' = lc) as -> by congruence.
        apply (Hne _ Hx). by rewrite Hj1, Hj2.
      * destruct Hpl as [n ->]. by apply (Hfreshp n eq_refl x).
    + intros (lc' & Hlc' & Ht). assert (lc' = lc) as -> by congruence.
      destruct o as [|bo jo|no| | | | |]; try done; simpl in Hpl.
      * destruct Hpl as (-> & _ & i1 & -> & Hi1 & _). left. exists b, l, k, lc, i1. rewrite Htab. split; [done|]. split; [|done].
        unfold table_of. rewrite Hld. done.
      * destruct Hpl as [n ->]. right. exists n, (Dyn no). split; [done|]. split; [apply elem_of_all_add; [done|by right]|]. split; [by exists lc|done].
    + intros q [(b' & l' & i & lc' & i1 & H1 & H2 & H3)|(n & x & -> & Hx & Hxo & Hxn)].
      * left. exists b', l', i, lc', i1. rewrite Htab. done.
      * right. exists n, x. split; [done|]. split; [apply elem_of_all_add; [done|by left]|].
        destruct (lc_of_eq s s' x) as [E1 E2]; [by apply Hsame, Hne|]. unfold is_output. rewrite E1, E2. done.
    + intros q [(b' & l' & i & lc' & i1 & H1 & H2 & H3)|(n & x & -> & Hx & Hxo & Hxn)].
      * left. left. exists b', l', i, lc', i1. rewrite Htab in H2. done.
      * apply elem_of_all_add in Hx as [Hx| ->]; [|right|done].
        -- left. right. exists n, x. split; [done|]. split; [done|]. destruct (lc_of_eq s s' x) as [E1 E2]; [by apply Hsame, Hne|].
           unfold is_output in *. rewrite E1, E2 in *. done.
        -- assert (p = Block n) as -> by congruence. split; [done|]. destruct (Hblk n eq_refl) as (_ & _ & Hrc).
           destruct Hxo as (lc' & Hlc' & Ht). assert (lc' = lc) as -> by congruence. split; [rewrite Hwf by in_fields; by apply Hrc|].
           destruct (rev_sources s L (Block n)) as [|y ys] eqn:Hrs; [done|]. exfalso.
           assert (y ∈ rev_sources s L (Block n)) as Hy by (rewrite Hrs; by left).
           apply elem_of_rev_sources in Hy as (j & o' & Hjo & _ & Ho'').
           destruct (k_link _ _ _ _ (w_links _ _ _ _ _ Hw) _ _ Hjo) as (_ & _ & [[Hod _]|(e & -> & _)]).
           ++ by apply (Hfreshp n eq_refl o').
           ++ by rewrite (entry_inst _ _ _ _ _ e Hw) in Ho''.
Qed.

End frame.
