(* ===== verification/ControlOps.v ===== *)
(** * The operations of the strategy brick

    Creating connectors and connecting them, on consistent states: each
    operation ends, keeps the state consistent and does what it is for. *)

From S2P Require Import Prelude CLib Common Cells ControlSimple ControlWiring ControlState ControlFrame.
Open Scope Z_scope.

Lemma strlen_terminated t : terminated t = true -> exists n, strlen t = Ok n.
Proof.
  induction t as [|c t IH]; intros H; [done|]. cbn [strlen]. destruct (Z.eqb_spec c 0) as [->|Hc]; [eauto|].
  destruct IH as [n ->]; [by eapply terminated_tail|]. cbn [mbind cres_bind]. eauto.
Qed.

Section ops.
Context {W : Type} (loaders : list loader_t) (code : brick_code W) (grants : nat -> bool) (junk : args).
Context (Hloaders : loaders_ok loaders) (Hgrants : forall n, grants n = true)
  (Hinit : forall ld i o a param w, success (init_conn code ld i o a param w).1 = true).
Abbreviation state := (control_state W).
Implicit Types (s : state) (o : obj) (D : list obj) (L : list (obj * obj)) (B : list nat) (C : nat -> list obj).

Lemma malloc_ok s : malloc grants s = Ok (Some (allocs s), s <| allocs := S (allocs s) |>).
Proof. unfold malloc. by rewrite Hgrants. Qed.

Lemma set_header_ok s o h h' : headers s !! o = Some h ->
  set_header o h' s = Ok (tt, s <| headers := <[o := h']> (headers s) |>).
Proof. intros H. unfold set_header. by rewrite (bind_ok _ _ _ _ _ (header_ok _ _ _ H)). Qed.

Lemma obj_old_mono n m o : obj_old n o -> (n <= m)%nat -> obj_old m o.
Proof. destruct o; simpl; lia. Qed.

(** ** Parameter strings *)

Lemma strings_new s s' root B C C' b o p t :
  strings_ok s root B C -> old_ok s -> p = allocs s -> b ∈ B -> (forall x, x ∈ B -> o ∈ C x -> x = b) ->
  (forall x y, y ∈ C' x -> y ∈ C x \/ x = b /\ y = o) ->
  (forall x, x <> o -> param_of s' x = param_of s x) -> param_of s' o = Some p ->
  bricks s' = bricks s -> strings s' = <[p := (true, t)]> (strings s) -> strings_ok s' root B C'.
Proof.
  intros [H1 H2 H3 H4 H5] Ho -> Hb Hown HC Hpar Hp Hbr Hstr.
  assert (strings s !! allocs s = None) as Hfresh.
  { destruct (strings s !! allocs s) eqn:Hs; [|done]. assert (allocs s < allocs s)%nat by (apply (o_strings _ Ho); eauto). lia. }
  assert (forall q, on_heap s q -> on_heap s' q /\ q <> allocs s) as Hheap.
  { intros q [u Hq]. assert (q <> allocs s) by congruence. split; [|done]. exists u. rewrite Hstr. by rewrite lookup_insert_ne. }
  assert (on_heap s' (allocs s)) as Hnew by (exists t; rewrite Hstr; by rewrite lookup_insert, decide_True).
  assert (forall x, brick_param s' x = brick_param s x) as Hbp by (intros x; unfold brick_param; by rewrite Hbr).
  assert (forall x y q, x ∈ B -> x <> root -> y ∈ C' x -> param_of s' y = Some q ->
    y = o /\ x = b /\ q = allocs s \/ y <> o /\ y ∈ C x /\ param_of s y = Some q /\ q <> allocs s) as Hcase.
  { intros x y q Hx Hxr Hy Hq. destruct (decide (y = o)) as [->|Hyo].
    - left. rewrite Hp in Hq. injection Hq as <-. split; [done|]. split; [|done]. destruct (HC _ _ Hy) as [?|[? _]]; [by apply Hown|done].
    - right. rewrite Hpar in Hq by done. destruct (HC _ _ Hy) as [Hy'|[_ ?]]; [|done]. split; [done|]. split; [done|]. split; [done|].
      by eapply Hheap, H2. }
  split.
  - intros x Hx Hxr. rewrite Hbp. destruct (H1 x Hx Hxr) as (q & Hq & Hh). exists q. split; [done|]. by apply Hheap.
  - intros x y q Hx Hxr Hy Hq. destruct (Hcase _ _ _ Hx Hxr Hy Hq) as [(_ & _ & ->)|(_ & Hy' & Hq' & _)]; [done|]. by eapply Hheap, H2.
  - intros x y ????. rewrite !Hbp. by apply H3.
  - intros x1 x2 y1 y2 q Hx1 Hx2 Hr1 Hr2 Hy1 Hy2 Hq1 Hq2.
    destruct (Hcase _ _ _ Hx1 Hr1 Hy1 Hq1) as [(-> & _ & ->)|(_ & Hy1' & Hq1' & Hne1)],
      (Hcase _ _ _ Hx2 Hr2 Hy2 Hq2) as [(-> & _ & ?)|(_ & Hy2' & Hq2' & Hne2)]; try done. by eapply (H4 x1 x2).
  - intros x1 x2 y Hx1 Hx2 Hr1 Hr2 Hy [q Hq]. rewrite Hbp.
    destruct (Hcase _ _ _ Hx1 Hr1 Hy Hq) as [(-> & _ & ->)|(Hne & Hy' & Hq' & _)].
    + rewrite Hq. destruct (H1 x2 Hx2 Hr2) as (q' & Hq' & Hh). destruct (Hheap _ Hh). congruence.
    + rewrite Hpar by done. apply (H5 x1); eauto.
Qed.

Lemma strings_same s s' root B C : strings_ok s root B C -> (forall o, param_of s' o = param_of s o) ->
  bricks s' = bricks s -> strings s' = strings s -> strings_ok s' root B C.
Proof.
  intros [H1 H2 H3 H4 H5] Hpar Hbr Hstr.
  assert (forall x, brick_param s' x = brick_param s x) as Hbp by (intros x; unfold brick_param; by rewrite Hbr).
  assert (forall q, on_heap s' q <-> on_heap s q) as Hh by (intros q; unfold on_heap; by rewrite Hstr).
  split; repeat setoid_rewrite Hbp; repeat setoid_rewrite Hpar; repeat setoid_rewrite Hh; done.
Qed.

(** ** Instantiating a connector that has been created *)

Lemma conn_header s B C b o : data_ok loaders s B C -> b ∈ B -> o ∈ C b ->
  exists h p, headers s !! o = Some h /\ belonging h = Some b /\ instance h = Some p.
Proof.
  intros H Hb Ho. destruct (d_conn _ _ _ _ H _ _ Hb Ho) as (h & ld & l & i & lc & p & H1 & H2 & _ & _ & _ & _ & H7 & _). eauto.
Qed.

Lemma conn_string_run s o h param : headers s !! o = Some h -> terminated param = true ->
  conn_string grants o h param s = Ok (Some (default (allocs s) (c_param h)),
    match c_param h with
    | Some _ => s
    | None => s <| allocs := S (allocs s) |> <| strings := <[allocs s := (true, body param ++ [NUL])]> (strings s) |>
                <| headers := <[o := h <| c_param := Some (allocs s) |>]> (headers s) |>
    end).
Proof.
  intros Hh Hpar. unfold conn_string. destruct (c_param h) as [q|]; [done|]. destruct (strlen_terminated _ Hpar) as [n Hn].
  erewrite bind_ok by (by apply lift_ok). rewrite (bind_ok _ _ _ _ _ (malloc_ok s)). erewrite bind_ok by done.
  erewrite bind_ok by (by apply set_header_ok with (h := h)). done.
Qed.

Lemma inst_conn_old s root B C L b b' l k lc o a c1 param :
  control_ok loaders s root B C L -> b ∈ B -> table_of loaders s b = Some l -> ld_conns l !! k = Some lc ->
  b' ∈ B -> o ∈ C b' -> terminated param = true ->
  exists a' s', inst_conn loaders code grants b k o a c1 param s = Ok (a', s') /\ success a' = true /\
    (exists n, conn1 a' = Some (c1 <| conn_index := n |>)) /\
    control_ok loaders s' root B C L /\ same_shape s s' /\ is_Some (param_of s' o) /\ counter s' = counter s.
Proof.
  intros H Hb Hl Hk Hb' Ho Hpar. pose proof (k_core _ _ _ _ _ _ H) as Hcore. pose proof (k_data _ _ _ _ _ _ Hcore) as Hd.
  destruct (conn_header _ _ _ _ _ Hd Hb' Ho) as (h & p & Hh & Hbel & Hp).
  destruct (entry_of_table _ _ _ _ _ _ Hl Hk) as (bh & ld & Hbh & Hld & Hlc).
  unfold inst_conn. rewrite (bind_ok _ _ _ _ _ (header_ok _ _ _ Hh)).
  set (q := match c_param h with Some q => q | None => allocs s end).
  set (h1 := h <| c_param := Some q |>).
  set (s1 := match c_param h with
    | Some _ => s
    | None => s <| allocs := S (allocs s) |> <| strings := <[allocs s := (true, body param ++ [NUL])]> (strings s) |>
               <| headers := <[o := h1]> (headers s) |> end).
  assert (headers s1 !! o = Some h1 /\ bricks s1 = bricks s /\ (forall x, x <> o -> headers s1 !! x = headers s !! x)) as (Hh1 & Hb1 & Hx1).
  { subst s1 h1 q. destruct (c_param h) as [q|] eqn:Hq.
    - split; [|done]. rewrite Hh. f_equal. destruct h; simpl in *; by subst.
    - simpl. rewrite lookup_insert, decide_True by done. split; [done|]. split; [done|]. intros x Hx. by rewrite lookup_insert_ne. }
  assert (conn_string grants o h param s = Ok (Some q, s1)) as Hstep.
  { subst s1 h1 q. rewrite (conn_string_run _ _ _ _ Hh Hpar). by destruct (c_param h). }
  rewrite (bind_ok _ _ _ _ _ Hstep).
  assert (bricks s1 !! b = Some bh) as Hbh1 by by rewrite Hb1.
  rewrite (bind_ok _ _ _ _ _ (loader_of_ok _ _ _ _ Hbh1 Hld)), (bind_ok _ _ _ _ _ (conn_entry_ok _ _ _ _ _ Hlc)), Hbel. cbv zeta.
  erewrite bind_ok by done. rewrite (bind_ok _ _ _ _ _ (header_ok _ _ _ Hh1)).
  assert (instance h1 = Some p) as Hp1 by done. rewrite (bind_ok _ _ _ _ _ (the_ok _ _ _ Hp1)).
  set (r := init_conn code ld k p (a <| op_code := opcode_output_init |>) param (world_ s1)).
  set (s2 := s1 <| world_ := r.2 |>).
  assert (in_code (init_conn code ld k p (a <| op_code := opcode_output_init |>) param) s1 = Ok (r.1, s2)) as Hr by done.
  assert (success r.1 = true) as Hsr by apply Hinit. rewrite (bind_ok _ _ _ _ _ Hr), Hsr. cbn [negb]. erewrite bind_ok by done.
  assert (headers s2 !! o = Some h1) as Hh2 by done. rewrite (bind_ok _ _ _ _ _ (header_ok _ _ _ Hh2)).
  eexists _, s2. split; [done|]. split; [done|]. split; [by eexists|].
  assert (same_shape s s2) as Hss.
  { split; [subst s2 s1; by destruct (c_param h)|done|subst s2 s1; by destruct (c_param h)|].
    intros x. change (headers s2) with (headers s1). destruct (decide (x = o)) as [->|Hx]; [by rewrite Hh1, Hh|by rewrite Hx1]. }
  assert (strings_ok s2 root B C /\ old_ok s2) as [Hs2 Ho2].
  { pose proof (k_strings _ _ _ _ _ _ Hcore) as Hs. pose proof (k_old _ _ _ _ _ _ Hcore) as Hold. subst s2 s1 h1 q.
    destruct (c_param h) as [q|] eqn:Hq.
    - split; [by eapply strings_same|]. by destruct Hold.
    - split.
      + eapply strings_new with (b := b') (o := o); [exact Hs|done|done|done| |by left| | |done|done].
        * intros x Hx Hxo. by eapply conns_disjoint.
        * intros x Hx. unfold param_of. simpl. by rewrite lookup_insert_ne.
        * unfold param_of. simpl. by rewrite lookup_insert, decide_True.
      + destruct Hold as [H1 H2 H3 H4]. split; simpl.
        * intros c Hc. eapply obj_old_mono; [by apply H1|lia].
        * intros x Hx. destruct (decide (x = o)) as [->|Hne].
          -- destruct (H2 o) as [? ?]; [eauto|]. split; [eapply obj_old_mono; [done|lia]|done].
          -- rewrite lookup_insert_ne in Hx by done. destruct (H2 x Hx). split; [eapply obj_old_mono; [done|lia]|done].
        * intros x Hx. specialize (H3 x Hx). lia.
        * intros x Hx. destruct (decide (x = allocs s)) as [->|Hne]; [lia|]. rewrite lookup_insert_ne in Hx by done. specialize (H4 x Hx). lia. }
  split.
  - eapply control_same; [exact H|exact Hss| |done|done].
    intros x hx Hx Hbx. change (headers s2) with (headers s1) in Hx. destruct (decide (x = o)) as [->|Hne]; [exfalso; subst h1; simplify_eq/=; congruence|].
    rewrite Hx1 in Hx by done. by rewrite Hx.
  - split; [done|]. split.
    + unfold param_of. rewrite Hh2. simpl. eauto.
    + subst s2 s1. by destruct (c_param h).
Qed.


(** ** Disconnecting *)

Definition input_b s o : bool := match lc_of loaders s o with Some lc => negb (l_type lc) | None => false end.

(** The input that [$disconnect] is asked to disconnect, when it is connected *)
Definition connected s B C L (c : conn_info) : option obj :=
  o ← lookup_conn loaders s B C c; if input_b s o && bool_decide (target L o <> None) then Some o else None.

Lemma conn_lc s B C b o : data_ok loaders s B C -> b ∈ B -> o ∈ C b ->
  exists h ld k lc, headers s !! o = Some h /\ load_conn h = Some (ld, k) /\ lc_at loaders (ld, k) = Some lc /\ lc_of loaders s o = Some lc.
Proof.
  intros H Hb Ho. destruct (conn_facts _ _ _ _ _ _ H Hb Ho) as (lc & Hlc & _).
  destruct (lc_of_inv _ _ _ _ Hlc) as (h & ld & k & Hh & Hr & Hl). eauto 10.
Qed.

Lemma blank_lc s B C l b j : data_ok loaders s B C -> b ∈ B -> table_of loaders s b = Some l -> (j < ld_totalcount l)%nat -> Slot b j ∉ C b ->
  exists h, headers s !! Slot b j = Some h /\ load_conn h = None /\ c_param h = None /\ lc_of loaders s (Slot b j) = None.
Proof.
  intros H Hb Hl Hj Hn. destruct (d_slot _ _ _ _ H _ _ _ Hb Hl Hj) as (h & Hh & Hz). destruct (Hz Hn) as ((_ & _ & Hp & Hlc) & _).
  exists h. split; [done|]. split; [done|]. split; [done|]. unfold lc_of. rewrite Hh. simpl. by rewrite Hlc.
Qed.

Lemma disconnect_op s root B C L a c1 param :
  control_ok loaders s root B C L -> conn1 a = Some c1 -> terminated (conn_name c1) = true ->
  match connected s B C L c1 with
  | None => op_disconnect loaders a param s = Ok (a, s)
  | Some i => exists s', op_disconnect loaders a param s = Ok (a <| success := true |>, s') /\
      control_ok loaders s' root B C (cut L i) /\ rewired (all_conns B C) s s'
  end.
Proof.
  intros H Hc1 Hnm. pose proof (k_core _ _ _ _ _ _ H) as Hcore. destruct Hcore as [Hb Hc Hd Hw Hs Ho Hdir].
  unfold op_disconnect, conn1_of. rewrite (bind_ok _ _ _ _ _ (the_ok _ _ _ Hc1)).
  rewrite (bind_ok _ _ _ _ _ (find_brick_hash_ok _ _ _ _ Hb (k_hash _ _ _ _ _ _ H))).
  unfold connected, lookup_conn. destruct (brick_with s B (conn_addr c1)) as [b|] eqn:Hbw; [|done]. cbn [mbind option_bind].
  apply brick_with_in in Hbw as [Hbb _].
  rewrite (bind_ok _ _ _ _ _ (find_conn_ok _ _ _ _ _ _ _ Hloaders Hb Hc Hd Hbb Hnm)).
  destruct (resolve loaders s C b (conn_name c1) (conn_index c1)) as [o|] eqn:Hres; [|done]. cbn [mbind option_bind].
  destruct (resolve_cases _ _ _ _ _ _ _ _ Hloaders Hres Hbb) as [Hin|(l & j & -> & Hl & Hj & Hn)].
  - destruct (conn_lc _ _ _ _ _ Hd Hbb Hin) as (h & ld & k & lc & Hh & Hr & Hlc & Hlo). unfold input_b. rewrite Hlo.
    rewrite (bind_ok _ _ _ _ _ (header_ok _ _ _ Hh)), Hr, (bind_ok _ _ _ _ _ (conn_entry_ok _ _ _ _ _ Hlc)).
    destruct (l_type lc) eqn:Ht; [done|]. cbn [negb andb].
    assert (o ∈ all_conns B C) as Hall by (apply elem_of_all_conns; eauto). assert (is_input loaders s o) as Hi by by exists lc.
    destruct (k_first _ _ _ _ (w_links _ _ _ _ _ Hw) _ Hall Hi) as [Hf _]. rewrite (bind_ok _ _ _ _ _ (read_ok _ _ _ Hf)).
    destruct (target L o) as [q|] eqn:Hq; [|by rewrite bool_decide_false by tauto]. rewrite bool_decide_true by done.
    destruct (wire_disconnect_run _ _ _ _ _ _ _ Hw Hall Hi Hq) as (s' & Hrun & Hw' & Hrw).
    exists s'. rewrite (bind_ok _ _ _ _ _ Hrun). split; [done|]. split; [by eapply control_rewired|done].
  - destruct (blank_lc _ _ _ _ _ _ Hd Hbb Hl Hj Hn) as (h & Hh & Hr & _ & Hlo). unfold input_b. rewrite Hlo.
    by rewrite (bind_ok _ _ _ _ _ (header_ok _ _ _ Hh)), Hr.
Qed.

(** ** Lazy instantiation *)

Lemma same_shape_refl s : same_shape s s.
Proof. done. Qed.

Lemma lazy_run s root B C L b o c a param :
  control_ok loaders s root B C L -> brick_with s B (conn_addr c) = Some b ->
  resolve loaders s C b (conn_name c) (conn_index c) = Some o -> o ∈ C b ->
  0 <= conn_index c -> terminated (conn_name c) = true -> terminated param = true ->
  exists r n s', lazy_instconn loaders code grants junk c a param s = Ok ((r, c <| conn_index := n |>), s') /\
    control_ok loaders s' root B C L /\ same_shape s s'.
Proof.
  intros H Hbw Hres Ho Hix Hnm Hpar. pose proof (k_core _ _ _ _ _ _ H) as Hcore. destruct Hcore as [Hb Hc Hd Hw Hs Hold Hdir].
  destruct (brick_with_in _ _ _ _ Hbw) as [Hbb Haddr].
  unfold lazy_instconn. set (a0 := junk <| success := false |> <| conn1 := Some c |> <| clear := false |> <| constr := true |>
    <| destr := false |> <| op_code := opcode_instconn |> <| sect_code := sect_code a |> <| mandate := mandate a |>).
  enough (exists a' n s', op_instconn loaders code grants a0 param s = Ok (a', s') /\ conn1 a' = Some (c <| conn_index := n |>) /\
    control_ok loaders s' root B C L /\ same_shape s s') as (a' & n & s' & Hrun & Hc1 & Hok & Hss).
  { rewrite (bind_ok _ _ _ _ _ Hrun), (bind_ok _ _ _ _ _ (the_ok _ _ _ Hc1)). eauto 8. }
  unfold op_instconn, conn1_of. erewrite bind_ok by (by apply the_ok).
  destruct (Z.eqb_spec (conn_addr c) 0) as [Hz|_]; [exfalso; rewrite Hz in Haddr; by eapply (b_nonzero _ _ (k_hash _ _ _ _ _ _ H))|].
  rewrite (bind_ok _ _ _ _ _ (find_brick_hash_ok _ _ _ _ Hb (k_hash _ _ _ _ _ _ H))), Hbw.
  unfold resolve in Hres. destruct (table_of loaders s b) as [l|] eqn:Hl; [|done]. cbn [mbind option_bind] in Hres.
  rewrite (bind_ok _ _ _ _ _ (find_load_conn_ok _ _ _ _ _ Hloaders Hl Hnm)).
  destruct (conn_named l (conn_name c)) as [k|]; [|done]. cbn [mbind option_bind] in Hres.
  destruct (ld_conns l !! k) as [lc|] eqn:Hk; [|done]. cbn [mbind option_bind] in Hres.
  rewrite (proj2 (Z.ltb_ge _ _)) by done.
  rewrite (bind_ok _ _ _ _ _ (get_conn_ok _ _ _ _ _ _ _ _ (conn_index c) Hc Hd Hbb Hl Hk)), Hres.
  destruct (conn_header _ _ _ _ _ Hd Hbb Ho) as (h & p & Hh & Hbel & Hp).
  destruct (table_loader _ _ _ _ Hl) as (bh & ld & Hbh & Hld & _).
  rewrite (bind_ok _ _ _ _ _ (header_ok _ _ _ Hh)), (bind_ok _ _ _ _ _ (brick_at_ok _ _ _ Hbh)).
  destruct (bool_decide (c_param h <> b_param bh) && bool_decide (c_param h <> None)).
  - exists a0, (conn_index c), s. split; [done|]. split; [by destruct c|]. split; [done|apply same_shape_refl].
  - destruct (inst_conn_old s root B C L b b l k lc o a0 c param H Hbb Hl Hk Hbb Ho Hpar) as (a' & s' & Hrun & _ & (n & Hn) & Hok & Hss & _).
    exists a', n, s'. done.
Qed.


(** ** Types *)

(** Every type of the input is one of the output's; both are sorted. *)
Fixpoint types_match (ins out : list (text * Z * Z)) : bool :=
  match ins with
  | [] => true
  | x :: ins' =>
    match type_scan x.1.1 out (-1) with
    | Ok (c, out') => (c =? 0) && types_match ins' out'
    | Fault _ => false
    end
  end.

Lemma type_scan_total nm out c : terminated nm = true -> Forall (fun x => terminated x.1.1 = true) out ->
  exists c' out', type_scan nm out c = Ok (c', out') /\ Forall (fun x => terminated x.1.1 = true) out' /\
    (c' = 0 -> c <> 0 -> exists y l, out' = y :: l /\ body y.1.1 = body nm) /\ (forall y, y ∈ out' -> y ∈ out).
Proof.
  intros Hnm Ho. revert c. induction Ho as [|x out Hx Ho IH]; intros c; cbn [type_scan].
  - exists c, []. done.
  - destruct (strcmp_equal x.1.1 nm Hx Hnm) as (r & -> & Heq). cbn [mbind cres_bind]. destruct (Z.leb_spec 0 r).
    + exists r, (x :: out). split; [done|]. split; [by constructor|]. split; [|done]. intros -> _. exists x, out. split; [done|]. by apply Heq.
    + destruct (IH r) as (c' & out' & -> & Ht & Hn & Hin). exists c', out'. split; [done|]. split; [done|]. split.
      * intros Hc _. apply Hn; [done|lia].
      * intros y Hy. right. by apply Hin.
Qed.

(** What a connection writes for the types of an input of [b]: where the types
    are stored at different offsets, the entry of the output's type of that name *)
Definition typed_with (m : gmap (nat * Z) Z) (b : nat) (ins out : list (text * Z * Z)) : Prop :=
  NoDup (ins.*2) -> forall x, x ∈ ins -> exists y, y ∈ out /\ body y.1.1 = body x.1.1 /\ m !! (b, x.2) = Some y.1.2.

Definition same_but_tables s s' : Prop := exists m, s' = s <| tables := m |>.

Lemma type_loop_run b ins out s : Forall (fun x => terminated x.1.1 = true) ins -> Forall (fun x => terminated x.1.1 = true) out ->
  exists s', type_loop b ins out s = Ok (types_match ins out, s') /\ same_but_tables s s' /\
    (forall k, k ∉ ins.*2 -> tables s' !! (b, k) = tables s !! (b, k)) /\ (types_match ins out = true -> typed_with (tables s') b ins out).
Proof.
  intros Hi. revert out s. induction Hi as [|x ins Hx Hi IH]; intros out s Ho; cbn [type_loop types_match].
  - exists s. split; [done|]. split; [exists (tables s); by destruct s|]. split; [done|]. intros _ _ x Hx. by apply not_elem_of_nil in Hx.
  - destruct (type_scan_total x.1.1 out (-1) Hx Ho) as (c & out' & Hsc & Ho' & Hne & Hsub).
    erewrite bind_ok by (by apply lift_ok). rewrite Hsc. destruct (Z.eqb_spec c 0) as [->|Hc]; cbn [negb andb].
    + destruct (Hne eq_refl) as (y & l & -> & Hy); [done|]. erewrite bind_ok by (by apply the_ok). erewrite bind_ok by done.
      destruct (IH (y :: l) (s <| tables := <[(b, x.2) := y.1.2]> (tables s) |>)) as (s' & Hrun & (m & ->) & Hk & Ht); [done|].
      exists (s <| tables := m |>). split; [done|]. split; [by exists m|]. simpl in *. split.
      * intros k [Hkx Hki]%not_elem_of_cons. rewrite Hk by done. apply lookup_insert_ne. congruence.
      * intros Hm Hnd z Hz. rewrite fmap_cons in Hnd. apply NoDup_cons in Hnd as [Hnx Hnd]. apply elem_of_cons in Hz as [->|Hz].
        -- exists y. split; [by apply Hsub; left|]. split; [done|]. rewrite Hk by done. apply lookup_insert_eq.
        -- destruct (Ht Hm Hnd z Hz) as (y' & Hy' & ? & ?). exists y'. split; [by apply Hsub|done].
    + exists s. split; [done|]. split; [exists (tables s); by destruct s|]. done.
Qed.

Lemma type_connect_run s B C b1 b2 i o li lo : data_ok loaders s B C -> b1 ∈ B -> i ∈ C b1 -> b2 ∈ B -> o ∈ C b2 ->
  lc_of loaders s i = Some li -> l_type li = false -> lc_of loaders s o = Some lo -> l_type lo = true ->
  exists s', type_connect loaders o i s = Ok (types_match (l_gen_type li) (l_gen_type lo), s') /\ same_but_tables s s' /\
    (types_match (l_gen_type li) (l_gen_type lo) = true -> typed_with (tables s') b1 (l_gen_type li) (l_gen_type lo)).
Proof.
  intros H Hb1 Hi Hb2 Ho Hli Hti Hlo Hto. unfold type_connect.
  rewrite (bind_ok _ _ _ _ _ (load_conn_of_ok _ _ _ _ Hlo)), (bind_ok _ _ _ _ _ (load_conn_of_ok _ _ _ _ Hli)), Hto, Hti. cbn [negb orb].
  destruct (conn_header _ _ _ _ _ H Hb1 Hi) as (h & p & Hh & Hbel & _).
  rewrite (bind_ok _ _ _ _ _ (header_ok _ _ _ Hh)), (bind_ok _ _ _ _ _ (the_ok _ _ _ Hbel)).
  assert (forall x lx, lc_of loaders s x = Some lx -> Forall (fun x => terminated x.1.1 = true) (l_gen_type lx)) as Hg.
  { intros x lx (hx & ld & k & _ & _ & Hl)%lc_of_inv. unfold lc_at in Hl. simpl in Hl. destruct (loaders !! ld) as [l|] eqn:Hld; [|done].
    pose proof (loaders_elem _ _ _ Hloaders Hld) as Hok. by destruct (lo_conn _ Hok _ _ Hl) as (_ & _ & _ & ?). }
  destruct (type_loop_run b1 (l_gen_type li) (l_gen_type lo) s) as (s' & Hrun & Hs & _ & Ht); [eauto..|]. by exists s'.
Qed.

(** ** Connecting *)

(** The input and what it is to be connected to *)
Definition link_asked s B C (c1 c2 : conn_info) (i t : obj) : Prop :=
  lookup_conn loaders s B C c1 = Some i /\ is_input loaders s i /\
  if conn_addr c2 =? 0 then exists e, dir_entry s (conn_name c2) = Some e /\ t = Entry e
  else lookup_conn loaders s B C c2 = Some t /\ is_output loaders s t.

(** They can be connected without being instantiated before. *)
Definition ready s B C L (c1 c2 : conn_info) (i t : obj) : Prop :=
  link_asked s B C c1 c2 i t /\ target L i = None /\
  (conn_addr c2 <> 0 -> (forall p, inst_of s i = Some p -> uninitialized code p (world_ s) = false) /\
    (forall p, inst_of s t = Some p -> uninitialized code p (world_ s) = false) /\ is_Some (param_of s t)).

Definition compatible s i t : Prop :=
  forall li lo, lc_of loaders s i = Some li -> lc_of loaders s t = Some lo ->
    types_match (l_gen_type li) (l_gen_type lo) = true /\ l_sect_count li <= l_sect_count lo.

(** The tables of the brick of [i] are those of [t]'s types. *)
Definition typed s i t : Prop := forall h b li lo, headers s !! i = Some h -> belonging h = Some b ->
  lc_of loaders s i = Some li -> lc_of loaders s t = Some lo -> typed_with (tables s) b (l_gen_type li) (l_gen_type lo).

Lemma control_tables s s' root B C L : control_ok loaders s root B C L -> same_but_tables s s' -> control_ok loaders s' root B C L.
Proof.
  intros H [m ->]. eapply control_same; [exact H|done| | |].
  - intros o h Ho _. simpl in Ho. by rewrite Ho.
  - by destruct (k_strings _ _ _ _ _ _ (k_core _ _ _ _ _ _ H)).
  - by destruct (k_old _ _ _ _ _ _ (k_core _ _ _ _ _ _ H)).
Qed.

Lemma join_run s root B C L i o a li lo : control_ok loaders s root B C L -> i ∈ all_conns B C -> o ∈ all_conns B C -> target L i = None ->
  lc_of loaders s i = Some li -> l_type li = false -> lc_of loaders s o = Some lo -> l_type lo = true ->
  (exists s', join loaders o i a s = Ok (a <| success := true |>, s') /\ compatible s i o /\ control_ok loaders s' root B C ((i, o) :: L) /\ same_place s s' /\ typed s' i o) \/
  (join loaders o i a s = Fault Aborted /\ ~ compatible s i o).
Proof.
  intros H Hi Ho Ht Hli Hti Hlo Hto. pose proof (k_data _ _ _ _ _ _ (k_core _ _ _ _ _ _ H)) as Hd.
  pose proof Hi as Hi'. pose proof Ho as Ho'. apply elem_of_all_conns in Hi' as (b1 & Hb1 & Hi'), Ho' as (b2 & Hb2 & Ho').
  destruct (type_connect_run _ _ _ _ _ _ _ _ _ Hd Hb1 Hi' Hb2 Ho' Hli Hti Hlo Hto) as (s1 & Hrun & Hst & Htw). unfold join.
  rewrite (bind_ok _ _ _ _ _ Hrun). destruct (types_match (l_gen_type li) (l_gen_type lo)) eqn:Htm; cbn [negb].
  2: { right. split; [done|]. intros Hcomp. destruct (Hcomp _ _ Hli Hlo). congruence. }
  pose proof (control_tables _ _ _ _ _ _ H Hst) as H1. assert (lc_of loaders s1 i = Some li /\ lc_of loaders s1 o = Some lo) as [Hli1 Hlo1] by by destruct Hst as [m ->].
  pose proof (k_wiring _ _ _ _ _ _ (k_core _ _ _ _ _ _ H1)) as Hw.
  destruct (decide (l_sect_count li <= l_sect_count lo)) as [Hsec|Hsec].
  - left. destruct (wire_connect_run _ _ _ _ _ _ _ _ _ Hw Hi Ho Ht Hli1 Hti Hlo1 Hto Hsec) as (s2 & s3 & Hr2 & Hr3 & Hw3 & Hrw).
    rewrite (bind_ok _ _ _ _ _ Hr2). cbn [negb]. rewrite (bind_ok _ _ _ _ _ Hr3). exists s3. split; [done|]. split.
    + intros li' lo' E1 E2. assert (li' = li) as -> by congruence. by assert (lo' = lo) as -> by congruence.
    + split; [by eapply control_rewired|]. split; [apply (same_place_trans _ s1); [by destruct Hst as [m ->]|by eapply rewired_place]|].
      destruct (conn_header _ _ _ _ _ Hd Hb1 Hi') as (h1 & p1 & Hh1 & Hbel1 & _). destruct Hrw as ((m & ->) & _), Hst as [m' ->].
      intros h b li' lo' Hh Hbel E1 E2. simpl in Hh. rewrite Hh1 in Hh. injection Hh as <-. rewrite Hbel1 in Hbel. injection Hbel as <-.
      change (lc_of loaders s i = Some li') in E1. change (lc_of loaders s o = Some lo') in E2.
      assert (li' = li) as -> by congruence. assert (lo' = lo) as -> by congruence. by apply Htw.
  - right. assert (inner_connect loaders o i s1 = Ok (false, s1)) as Hr2.
    { unfold inner_connect. rewrite (bind_ok _ _ _ _ _ (load_conn_of_ok _ _ _ _ Hlo1)), (bind_ok _ _ _ _ _ (load_conn_of_ok _ _ _ _ Hli1)), Hto, Hti.
      cbn [negb orb]. pose proof (k_data _ _ _ _ _ _ (k_core _ _ _ _ _ _ H1)) as Hd1.
      destruct (conn_header _ _ _ _ _ Hd1 Hb1 Hi') as (h1 & p1 & Hh1 & _ & Hp1). destruct (conn_header _ _ _ _ _ Hd1 Hb2 Ho') as (h2 & p2 & Hh2 & _ & Hp2).
      rewrite (bind_ok _ _ _ _ _ (header_ok _ _ _ Hh1)), (bind_ok _ _ _ _ _ (the_ok _ _ _ Hp1)).
      rewrite (bind_ok _ _ _ _ _ (header_ok _ _ _ Hh2)), (bind_ok _ _ _ _ _ (the_ok _ _ _ Hp2)). by rewrite (proj2 (Z.ltb_lt _ _)) by lia. }
    rewrite (bind_ok _ _ _ _ _ Hr2). split; [done|]. intros Hcomp. destruct (Hcomp _ _ Hli Hlo). lia.
Qed.


Lemma connect_dir_run s root B C L i c2 a : control_ok loaders s root B C L -> i ∈ all_conns B C -> is_input loaders s i -> target L i = None ->
  terminated (conn_name c2) = true ->
  match dir_entry s (conn_name c2) with
  | None => connect_dir i c2 a s = Ok (a, s)
  | Some e => exists s', connect_dir i c2 a s = Ok (a <| success := true |>, s') /\ control_ok loaders s' root B C ((i, Entry e) :: L) /\ same_place s s'
  end.
Proof.
  intros H Hi Hin Ht Hnm. destruct (k_dir _ _ _ _ _ _ (k_core _ _ _ _ _ _ H)) as [Hlen Hdir]. unfold connect_dir.
  rewrite (bind_ok _ _ _ _ _ (find_main_dir_ok _ _ Hdir Hnm)). destruct (dir_entry s (conn_name c2)) as [e|] eqn:He; [|done].
  cbn [fmap option_fmap option_map]. apply dir_entry_lt in He; [|done].
  destruct (connect_entry_run _ _ _ _ _ _ _ (k_wiring _ _ _ _ _ _ (k_core _ _ _ _ _ _ H)) Hi Hin Ht He) as (s1 & s2 & H1 & H2 & Hw & Hrw).
  rewrite (bind_ok _ _ _ _ _ H1), (bind_ok _ _ _ _ _ H2). exists s2. split; [done|]. split; [by eapply control_rewired|by eapply rewired_place].
Qed.

Definition other_ready s B C c2 t : Prop := lookup_conn loaders s B C c2 = Some t /\ is_output loaders s t /\
  (forall p, inst_of s t = Some p -> uninitialized code p (world_ s) = false) /\ is_Some (param_of s t).

(** An operation that leaves the connections alone and does not report a success *)
Definition refused s root B C L (a : args) (r : cres (args * state)) : Prop :=
  exists a' s', r = Ok (a', s') /\ control_ok loaders s' root B C L /\ success a' = success a.

Definition linked s root B C L i t (r : cres (args * state)) : Prop :=
  exists a' s', r = Ok (a', s') /\ success a' = true /\ control_ok loaders s' root B C ((i, t) :: L) /\ compatible s i t /\ same_place s s' /\ typed s' i t.

Lemma compatible_same s s' i t : same_shape s s' -> compatible s' i t <-> compatible s i t.
Proof. intros H. unfold compatible. by rewrite !(same_lc _ _ _ _ H). Qed.

Lemma refuse s root B C L a : control_ok loaders s root B C L -> refused s root B C L a (Ok (a, s)).
Proof. intros H. exists a, s. done. Qed.

Lemma connect_other_run s root B C L i c2 a param :
  control_ok loaders s root B C L -> i ∈ all_conns B C -> is_input loaders s i -> target L i = None ->
  terminated (conn_name c2) = true -> terminated param = true -> 0 <= conn_index c2 ->
  let r := connect_other loaders code grants junk i c2 a param s in
  refused s root B C L a r /\ (forall t, ~ other_ready s B C c2 t) \/
  exists t, lookup_conn loaders s B C c2 = Some t /\ is_output loaders s t /\
    (linked s root B C L i t r \/ r = Fault Aborted /\ ~ compatible s i t).
Proof.
  intros H Hi Hin Ht Hnm Hpar Hix r. destruct (k_core _ _ _ _ _ _ H) as [Hb Hc Hd Hw Hs Hold Hdir].
  subst r. unfold connect_other, other_ready, lookup_conn.
  rewrite (bind_ok _ _ _ _ _ (find_brick_hash_ok _ _ _ _ Hb (k_hash _ _ _ _ _ _ H))).
  destruct (brick_with s B (conn_addr c2)) as [b|] eqn:Hbw; [|left; split; [by apply refuse|by intros t [? _]]].
  cbn [mbind option_bind]. destruct (brick_with_in _ _ _ _ Hbw) as [Hbb _].
  rewrite (bind_ok _ _ _ _ _ (find_conn_ok _ _ _ _ _ _ _ Hloaders Hb Hc Hd Hbb Hnm)).
  destruct (resolve loaders s C b (conn_name c2) (conn_index c2)) as [o|] eqn:Hres; [|left; split; [by apply refuse|by intros t [? _]]].
  destruct (resolve_cases _ _ _ _ _ _ _ _ Hloaders Hres Hbb) as [Hob|(l & j & -> & Hl & Hj & Hn)].
  2: { destruct (blank_lc _ _ _ _ _ _ Hd Hbb Hl Hj Hn) as (h & Hh & Hr & _ & Hlo).
    rewrite (bind_ok _ _ _ _ _ (header_ok _ _ _ Hh)), Hr. left. split; [by apply refuse|].
    intros t ([= <-] & (lc & Hlc & _) & _). congruence. }
  destruct (conn_lc _ _ _ _ _ Hd Hbb Hob) as (h & ld & k & lo & Hh & Hr & Hlc & Hlo).
  rewrite (bind_ok _ _ _ _ _ (header_ok _ _ _ Hh)), Hr, (bind_ok _ _ _ _ _ (conn_entry_ok _ _ _ _ _ Hlc)).
  destruct (l_type lo) eqn:Hto; cbn [negb].
  2: { left. split; [by apply refuse|]. intros t ([= <-] & (lc & Hlc' & Htc) & _). congruence. }
  destruct (conn_header _ _ _ _ _ Hd Hbb Hob) as (h' & p & Hh' & _ & Hp). assert (h' = h) as -> by congruence.
  rewrite (bind_ok _ _ _ _ _ (the_ok _ _ _ Hp)). erewrite bind_ok by done.
  assert (is_output loaders s o) as Hout by by exists lo.
  assert (o ∈ all_conns B C) as Hoa by (apply elem_of_all_conns; eauto).
  assert (inst_of s o = Some p) as Hpo by (unfold inst_of; by rewrite Hh).
  assert (exists (ok : bool) n s1, (if uninitialized code p (world_ s) then lazy_instconn loaders code grants junk c2 a param else mret (true, c2)) s =
      Ok ((ok, c2 <| conn_index := n |>), s1) /\ control_ok loaders s1 root B C L /\ same_shape s s1 /\
      (uninitialized code p (world_ s) = false -> ok = true /\ s1 = s)) as (ok & n & s1 & Hrun & H1 & Hss & Hlazy).
  { destruct (uninitialized code p (world_ s)).
    - destruct (lazy_run _ _ _ _ _ _ _ _ a param H Hbw Hres Hob Hix Hnm Hpar) as (ok & n & s1 & Hrun & H1 & Hss).
      exists ok, n, s1. split; [done|]. split; [done|]. done.
    - exists true, (conn_index c2), s. split; [by destruct c2|]. done. }
  rewrite (bind_ok _ _ _ _ _ Hrun). cbn [fst snd].
  destruct ok; cbn [negb].
  2: { left. split; [eexists _, s1; split; [done|]; split; [done|]; done|]. intros t ([= <-] & _ & Hu & _).
    destruct (Hlazy (Hu p Hpo)). done. }
  destruct (shape_some _ _ _ _ Hss Hh) as (h1 & Hh1 & _). rewrite (bind_ok _ _ _ _ _ (header_ok _ _ _ Hh1)).
  destruct (c_param h1) as [q|] eqn:Hq.
  2: { left. split; [eexists _, s1; split; [done|]; split; [done|]; done|]. intros t ([= <-] & _ & Hu & [v Hv]).
    destruct (Hlazy (Hu p Hpo)) as [_ ->]. unfold param_of in Hv. rewrite Hh1 in Hv. simpl in Hv. congruence. }
  right. exists o. split; [done|]. split; [done|]. destruct Hin as (li & Hli & Hti).
  destruct (join_run s1 root B C L i o (a <| conn2 := Some (c2 <| conn_index := n |>) |>) li lo H1 Hi Hoa Ht) as [(s2 & Hrun2 & Hcomp & H2 & Hpl & Hty)|[Hrun2 Hcomp]];
    [by rewrite (same_lc _ _ _ _ Hss)|done|by rewrite (same_lc _ _ _ _ Hss)|done| |].
  - left. rewrite Hrun2. eexists _, s2. split; [done|]. split; [done|]. split; [done|]. split; [by apply (compatible_same s s1)|].
    split; [apply (same_place_trans _ s1); [by apply same_shape_place|done]|done].
  - right. split; [done|]. intros Hcs. apply Hcomp. by apply (compatible_same s s1).
Qed.

(** [$connect] on a connector that has been created *)
Lemma connect_op s root B C L a c1 c2 param :
  control_ok loaders s root B C L -> conn1 a = Some c1 -> conn2 a = Some c2 ->
  terminated (conn_name c1) = true -> terminated (conn_name c2) = true -> terminated param = true ->
  0 <= conn_index c1 -> 0 <= conn_index c2 ->
  (forall i, lookup_conn loaders s B C c1 = Some i -> i ∈ all_conns B C) ->
  let r := op_connect loaders code grants junk a param s in
  refused s root B C L a r /\ (forall i t, ~ ready s B C L c1 c2 i t) \/
  exists i t, link_asked s B C c1 c2 i t /\ target L i = None /\
    (linked s root B C L i t r \/ r = Fault Aborted /\ ~ compatible s i t).
Proof.
  intros H Hc1 Hc2 Hn1 Hn2 Hpar Hi1 Hi2 Hcreated r. destruct (k_core _ _ _ _ _ _ H) as [Hb Hc Hd Hw Hs Hold Hdir].
  subst r. unfold op_connect, conn1_of, conn2_of, ready, link_asked.
  rewrite (bind_ok _ _ _ _ _ (the_ok _ _ _ Hc1)), (bind_ok _ _ _ _ _ (the_ok _ _ _ Hc2)).
  rewrite (bind_ok _ _ _ _ _ (find_brick_hash_ok _ _ _ _ Hb (k_hash _ _ _ _ _ _ H))). unfold lookup_conn in Hcreated |- *.
  destruct (brick_with s B (conn_addr c1)) as [b|] eqn:Hbw; [|left; split; [by apply refuse|by intros i t [[? _] _]]].
  cbn [mbind option_bind] in Hcreated |- *. destruct (brick_with_in _ _ _ _ Hbw) as [Hbb _].
  rewrite (bind_ok _ _ _ _ _ (find_conn_ok _ _ _ _ _ _ _ Hloaders Hb Hc Hd Hbb Hn1)).
  destruct (resolve loaders s C b (conn_name c1) (conn_index c1)) as [i|] eqn:Hres; [|left; split; [by apply refuse|by intros i t [[? _] _]]].
  assert (i ∈ C b) as Hib.
  { destruct (resolve_cases _ _ _ _ _ _ _ _ Hloaders Hres Hbb) as [Hib|(l & j & -> & Hl & Hj & Hn)]; [done|exfalso].
    specialize (Hcreated _ eq_refl). apply elem_of_all_conns in Hcreated as (b' & Hb' & Hin).
    assert (b' = b) as -> by by eapply slot_owner. done. }
  destruct (conn_lc _ _ _ _ _ Hd Hbb Hib) as (h & ld & k & li & Hh & Hr & Hlc & Hli).
  rewrite (bind_ok _ _ _ _ _ (load_conn_of_ok _ _ _ _ Hli)).
  destruct (l_type li) eqn:Hti.
  { left. split; [by apply refuse|]. intros i' t ([[= <-] [(lc & Hlc' & Htc) _]] & _). congruence. }
  assert (is_input loaders s i) as Hin by by exists li. assert (i ∈ all_conns B C) as Hia by by apply Hcreated.
  destruct (k_first _ _ _ _ (w_links _ _ _ _ _ Hw) _ Hia Hin) as [Hf _]. rewrite (bind_ok _ _ _ _ _ (read_ok _ _ _ Hf)).
  destruct (target L i) as [q|] eqn:Ht.
  { rewrite bool_decide_true by done. left. split; [by apply refuse|]. intros i' t ([[= <-] _] & Ht' & _). congruence. }
  rewrite bool_decide_false by tauto. destruct (Z.eqb_spec (conn_addr c2) 0) as [Hz|Hz].
  - pose proof (connect_dir_run _ _ _ _ _ _ c2 a H Hia Hin Ht Hn2) as Hdr. destruct (dir_entry s (conn_name c2)) as [e|] eqn:He.
    + destruct Hdr as (s' & -> & H' & Hpl). right. exists i, (Entry e). split; [split; [done|]; split; [done|by exists e]|]. split; [done|]. left.
      eexists _, s'. split; [done|]. split; [done|]. split; [done|]. split; [|split; [done|]].
      * intros li' lo _ Hlo. unfold lc_of in Hlo. by rewrite (w_entry _ _ _ _ _ Hw) in Hlo.
      * intros h1 b1 li' lo _ _ _ Hlo. unfold lc_of in Hlo. by rewrite (w_entry _ _ _ _ _ (k_wiring _ _ _ _ _ _ (k_core _ _ _ _ _ _ H'))) in Hlo.
    + rewrite Hdr. left. split; [by apply refuse|]. by intros i' t ([[= <-] [_ (e & ? & _)]] & _).
  - destruct (conn_header _ _ _ _ _ Hd Hbb Hib) as (h' & p & Hh' & _ & Hp). assert (h' = h) as -> by congruence.
    rewrite (bind_ok _ _ _ _ _ (header_ok _ _ _ Hh)), (bind_ok _ _ _ _ _ (the_ok _ _ _ Hp)). erewrite bind_ok by done.
    assert (inst_of s i = Some p) as Hpi by (unfold inst_of; by rewrite Hh).
    assert (exists (ok : bool) n s1, (if uninitialized code p (world_ s) then lazy_instconn loaders code grants junk c1 a param else mret (true, c1)) s =
        Ok ((ok, c1 <| conn_index := n |>), s1) /\ control_ok loaders s1 root B C L /\ same_shape s s1 /\
        (uninitialized code p (world_ s) = false -> ok = true /\ s1 = s)) as (ok & n & s1 & Hrun & H1 & Hss & Hlazy).
    { destruct (uninitialized code p (world_ s)).
      - destruct (lazy_run _ _ _ _ _ _ _ _ a param H Hbw Hres Hib Hi1 Hn1 Hpar) as (ok & n & s1 & Hrun & H1 & Hss).
        exists ok, n, s1. split; [done|]. split; [done|]. done.
      - exists true, (conn_index c1), s. split; [by destruct c1|]. done. }
    rewrite (bind_ok _ _ _ _ _ Hrun). cbn [fst snd]. destruct ok; cbn [negb].
    2: { left. split; [eexists _, s1; split; [done|]; split; [done|]; done|]. intros i' t ([[= <-] _] & _ & Hready).
      destruct (Hready Hz) as (Hu & _). destruct (Hlazy (Hu p Hpi)). done. }
    assert (is_input loaders s1 i) as Hin1 by (exists li; by rewrite (same_lc _ _ _ _ Hss)).
    destruct (connect_other_run s1 root B C L i c2 (a <| conn1 := Some (c1 <| conn_index := n |>) |>) param H1 Hia Hin1 Ht Hn2 Hpar Hi2)
      as [[(a' & s' & Hr' & Hok & Hsuc) Hnot]|(t & Hlt & Hout & Hcase)].
    + left. split; [exists a', s'; done|]. intros i' t ([[= <-] [_ [Hl2 Ho2]]] & _ & Hready). destruct (Hready Hz) as (Hu1 & Hu2 & Hpt).
      destruct (Hlazy (Hu1 p Hpi)) as [_ ->]. by apply (Hnot t).
    + right. exists i, t. rewrite (same_lookup _ _ _ _ _ _ (same_shape_place _ _ Hss)) in Hlt. split.
      { split; [done|]. split; [done|]. split; [done|]. destruct Hout as (lo & Hlo & Hto). exists lo. by rewrite <- (same_lc _ _ _ _ Hss). }
      split; [done|]. destruct Hcase as [(a' & s' & Hr' & Hsuc & Hok & Hcomp & Hpl & Hty)|[Hr' Hcomp]].
      * left. exists a', s'. split; [done|]. split; [done|]. split; [done|]. split; [by apply (compatible_same s s1)|].
        split; [apply (same_place_trans _ s1); [by apply same_shape_place|done]|done].
      * right. split; [done|]. intros Hcs. apply Hcomp. by apply (compatible_same s s1).
Qed.

End ops.
