(* ===== verification/ControlCreate.v ===== *)
(** * Creating connectors

    [$instconn] and [$deinstconn]: a connector of a static array is created
    the first time it is instantiated, one of a dynamic array each time. *)

From S2P Require Import Prelude CLib Common Cells ControlSimple ControlWiring ControlState ControlFrame ControlOps.
Open Scope Z_scope.

Section create.
Context {W : Type} (loaders : list loader_t) (code : brick_code W) (grants : nat -> bool) (junk : args).
Context (Hloaders : loaders_ok loaders) (Hgrants : forall n, grants n = true)
  (Hinit : forall ld i o a param w, success (init_conn code ld i o a param w).1 = true).
Abbreviation state := (control_state W).
Implicit Types (s : state) (o : obj) (D : list obj) (L : list (obj * obj)) (B : list nat) (C : nat -> list obj).

Lemma old_keep s s' : old_ok s -> (allocs s <= allocs s')%nat ->
  (forall c, is_Some (mem s' !! c) -> is_Some (mem s !! c) \/ obj_old (allocs s') c.2) ->
  (forall o, is_Some (headers s' !! o) -> is_Some (headers s !! o) \/ obj_old (allocs s') o /\ forall e, o <> Entry e) ->
  (forall b, is_Some (bricks s' !! b) -> is_Some (bricks s !! b) \/ (b < allocs s')%nat) ->
  (forall p, is_Some (strings s' !! p) -> is_Some (strings s !! p) \/ (p < allocs s')%nat) -> old_ok s'.
Proof.
  intros [H1 H2 H3 H4] Hle G1 G2 G3 G4. split.
  - intros c Hc. destruct (G1 c Hc) as [Hc'|]; [|done]. eapply obj_old_mono; [by apply H1|done].
  - intros o Ho. destruct (G2 o Ho) as [Ho'|]; [|done]. destruct (H2 o Ho'). split; [by eapply obj_old_mono|done].
  - intros b Hb. destruct (G3 b Hb) as [Hb'|]; [|done]. specialize (H3 b Hb'). lia.
  - intros p Hp. destruct (G4 p Hp) as [Hp'|]; [|done]. specialize (H4 p Hp'). lia.
Qed.

(** ** The steps *)

Definition new_inst (lc : load_conn_t) (b k : nat) (n : nat) (index : Z) : obj :=
  if l_count lc =? 0 then Block n else Part b k index.

Record created s s' (b : nat) o (ld k : nat) (lc : load_conn_t) (h h' : connector_header) : Prop := {
  cr_header : headers s' !! o = Some h';
  cr_belonging : belonging h' = Some b;
  cr_load : load_conn h' = Some (ld, k);
  cr_param : c_param h' = c_param h;
  cr_inst : instance h' = Some (new_inst lc b k (allocs s) (c_index h'));
  cr_other x : x <> o -> headers s' !! x = headers s !! x;
  cr_bricks : bricks s' = bricks s;
  cr_strings : strings s' = strings s;
  cr_dir : main_dir s' = main_dir s;
  cr_counter : counter s' = counter s;
  cr_mem : mem s' = if l_count lc =? 0 then alloc (inst_cells (l_type lc) (Block (allocs s))) (mem s) else mem s;
  cr_allocs : allocs s' = if l_count lc =? 0 then S (allocs s) else allocs s
}.

Lemma create_conn_run s b o ld k lc index h : headers s !! o = Some h -> lc_at loaders (ld, k) = Some lc ->
  exists s' h', create_conn loaders code grants b o ld k index s = Ok (tt, s') /\ created s s' b o ld k lc h h' /\ c_index h' = index.
Proof.
  intros Hh Hlc. unfold create_conn. rewrite (bind_ok _ _ _ _ _ (conn_entry_ok _ _ _ _ _ Hlc)), (bind_ok _ _ _ _ _ (header_ok _ _ _ Hh)).
  set (h1 := h <| belonging := Some b |> <| load_conn := Some (ld, k) |> <| c_index := index |>).
  rewrite (bind_ok _ _ _ _ _ (set_header_ok _ _ _ h1 Hh)). set (s1 := s <| headers := <[o := h1]> (headers s) |>).
  assert (headers s1 !! o = Some h1) as Hh1 by (simpl; by rewrite lookup_insert, decide_True).
  destruct (l_count lc =? 0) eqn:Hz.
  - rewrite (bind_ok _ _ _ _ _ (malloc_ok _ Hgrants s1)), (bind_ok _ _ _ _ _ (the_ok _ _ _ eq_refl)). erewrite bind_ok by done.
    erewrite bind_ok by (apply header_ok; exact Hh1).
    erewrite bind_ok by (apply set_header_ok with (h := h1); exact Hh1).
    eexists _, (h1 <| instance := Some (Block (allocs s)) |>). split; [done|]. split; [|done].
    split; simpl; try done.
    + by rewrite lookup_insert, decide_True.
    + unfold new_inst. by rewrite Hz.
    + intros x Hx. by rewrite !lookup_insert_ne.
    + by rewrite Hz.
    + by rewrite Hz.
  - rewrite (bind_ok _ _ _ _ _ (header_ok _ _ _ Hh1)), (set_header_ok _ _ _ _ Hh1).
    eexists _, (h1 <| instance := Some (Part b k index) |>). split; [done|]. split; [|done].
    split; simpl; try done.
    + by rewrite lookup_insert, decide_True.
    + unfold new_inst. by rewrite Hz.
    + intros x Hx. by rewrite !lookup_insert_ne.
    + by rewrite Hz.
    + by rewrite Hz.
Qed.

(** A connector that is still blank *)
Definition blank s B C (b : nat) (l : loader_t) (lc : load_conn_t) o (index : Z) : Prop :=
  o ∉ all_conns B C /\ mem s !! (First, o) = Some None /\ mem s !! (Chain, o) = Some None /\ mem s !! (ConnNext, o) = Some None /\
  match o with
  | Slot b' j => b' = b /\ l_count lc <> 0 /\ 0 <= index < l_count lc /\ (j < ld_totalcount l)%nat /\
      (l_type lc = false -> j = (l_start_index lc + Z.to_nat index)%nat)
  | Dyn _ => l_count lc = 0
  | _ => False
  end.

Lemma tail_keeps s C b o m : keeps wire_fields m (<[(Last, Brick b) := Some o]> (<[tail_cell b (C b) := Some o]> m)).
Proof.
  intros [f x] Hf%wire_not_list _. simpl in Hf. rewrite lookup_insert_ne by naive_solver. rewrite lookup_insert_ne; [done|].
  destruct (tail_cell_cases b (C b)) as [->|(y & _ & ->)]; naive_solver.
Qed.

Lemma fresh_block s n f : old_ok s -> (allocs s <= n)%nat -> mem s !! (f, Block n) = None.
Proof.
  intros H Hn. destruct (mem s !! (f, Block n)) eqn:Hm; [|done]. exfalso.
  assert (n < allocs s)%nat by (apply (o_mem _ H (f, Block n)); eauto). lia.
Qed.

Lemma core_created s0 s s1 s' root B C L b o ld k l lc h h' :
  core_ok loaders s0 root B C L -> b ∈ B -> loader_of_brick s0 b = Some ld -> loaders !! ld = Some l -> ld_conns l !! k = Some lc ->
  blank s0 B C b l lc o (c_index h') ->
  (l_type lc = false -> l_count lc <> 0 ->
    mem s0 !! (Connect, Part b k (c_index h')) = Some None /\ is_Some (mem s0 !! (RevNext, Part b k (c_index h')))) ->
  (forall x, x <> o -> headers s !! x = headers s0 !! x) -> mem s = mem s0 -> bricks s = bricks s0 -> main_dir s = main_dir s0 ->
  (allocs s0 <= allocs s)%nat -> created s s1 b o ld k lc h h' ->
  headers s' = headers s1 -> bricks s' = bricks s1 -> main_dir s' = main_dir s1 ->
  mem s' = <[(Last, Brick b) := Some o]> (<[tail_cell b (C b) := Some o]> (mem s1)) ->
  strings_ok s' root B (add_conn C b o) -> old_ok s' -> core_ok loaders s' root B (add_conn C b o) L.
Proof.
  intros H Hb Hld Hl Hk (Hnew & Hf & Hc & Hn & Hpl) Hin Hx Hm Hbr Hd Hle Hcr Hh1 Hb1 Hd1 Hm1 Hs' Ho'.
  pose proof (k_old _ _ _ _ _ _ H) as Hold. destruct Hcr as [C1 C2 C3 C4 C5 C6 C7 C8 C9 C10 C11 C12].
  assert (forall c, is_Some (mem s0 !! c) -> mem s1 !! c = mem s0 !! c) as Hkeep.
  { intros [f x] Hs. rewrite C11. destruct (l_count lc =? 0); [|by rewrite Hm]. rewrite lookup_alloc, Hm. case_decide as Hin'; [|done].
    exfalso. assert (x = Block (allocs s)) as -> by (unfold inst_cells in Hin'; destruct (l_type lc); set_solver).
    rewrite fresh_block in Hs by done. by destruct Hs. }
  assert (forall f, mem s0 !! (f, o) = Some None -> mem s1 !! (f, o) = Some None) as Hkeep' by (intros f Hfo; rewrite Hkeep; eauto).
  eapply core_add with (s := s0) (h := h') (ld := ld) (l := l) (k := k) (lc := lc) (m0 := mem s1)
    (p := new_inst lc b k (allocs s) (c_index h')); [exact H|done|done| | |done|done|done|done|done|done| | |congruence|exact Hkeep| | | | | |exact Hm1|done|done].
  - intros x Hxo. rewrite Hh1, C6 by done. by apply Hx.
  - by rewrite Hh1.
  - unfold new_inst. destruct o as [|b' j|n| | | | |]; simpl in Hpl |- *; try done.
    + destruct Hpl as (-> & Hz & Hi & Hj & Hji). split; [done|]. split; [done|]. exists (c_index h').
      rewrite (proj2 (Z.eqb_neq _ _)) by done. done.
    + rewrite (proj2 (Z.eqb_eq _ _)) by done. eauto.
  - congruence.
  - by apply Hkeep'.
  - by apply Hkeep'.
  - by apply Hkeep'.
  - intros Ht. unfold new_inst. destruct (Z.eqb_spec (l_count lc) 0) as [Hz|Hz].
    + rewrite C11, Ht. rewrite !lookup_alloc. rewrite !decide_True by (simpl; set_solver). eauto.
    + destruct (Hin Ht Hz) as [H1 H2]. split; [rewrite Hkeep; eauto|]. rewrite Hkeep; done.
  - intros n. unfold new_inst. destruct (Z.eqb_spec (l_count lc) 0) as [Hz|Hz]; [|done]. intros [= <-].
    split; [by apply fresh_block|]. split; [by apply fresh_block|]. intros Ht. rewrite C11, Ht. rewrite lookup_alloc.
    by rewrite decide_True by (simpl; set_solver).
Qed.


Lemma created_keeps s0 s s1 b o ld k lc h h' fs : old_ok s0 -> mem s = mem s0 -> (allocs s0 <= allocs s)%nat ->
  created s s1 b o ld k lc h h' -> keeps fs (mem s0) (mem s1).
Proof.
  intros Hold Hm Hle Hcr [f x] _ Hs. rewrite (cr_mem _ _ _ _ _ _ _ _ _ Hcr). destruct (l_count lc =? 0); [|by rewrite Hm].
  rewrite lookup_alloc, Hm. case_decide as Hin; [|done]. exfalso.
  assert (x = Block (allocs s)) as -> by (unfold inst_cells in Hin; destruct (l_type lc); set_solver).
  rewrite fresh_block in Hs by done. by destruct Hs.
Qed.

Lemma insert_old s0 s (m : cells) b o C : old_ok s0 -> (forall c, is_Some (m !! c) -> is_Some (mem s0 !! c) \/ obj_old (allocs s) c.2) ->
  is_Some (m !! (Last, Brick b)) -> is_Some (m !! tail_cell b (C b)) ->
  forall c, is_Some (<[(Last, Brick b) := Some o]> (<[tail_cell b (C b) := Some o]> m) !! c) -> is_Some (mem s0 !! c) \/ obj_old (allocs s) c.2.
Proof.
  intros H Hm Hl Ht c Hc. apply Hm. destruct (decide ((Last, Brick b) = c)) as [<-|]; [done|]. rewrite lookup_insert_ne in Hc by done.
  destruct (decide (tail_cell b (C b) = c)) as [<-|]; [done|]. by rewrite lookup_insert_ne in Hc.
Qed.

Lemma inst_conn_new s root B C L b o l k lc h a c1 param :
  control_ok loaders s root B C L -> b ∈ B -> table_of loaders s b = Some l -> ld_conns l !! k = Some lc ->
  headers s !! o = Some h -> blank_header h -> blank s B C b l lc o (c_index h) -> terminated param = true ->
  (l_type lc = false -> l_count lc = 0) ->
  exists a' s', inst_conn loaders code grants b k o a c1 param s = Ok (a', s') /\ success a' = true /\
    conn1 a' = Some (c1 <| conn_index := c_index h |>) /\ control_ok loaders s' root B (add_conn C b o) L /\ is_Some (param_of s' o).
Proof.
  intros H Hb Hl Hk Hh (Hbel & _ & Hcp & _) Hbl Hpar Hty. destruct H as [Hcore Hhash Hinp].
  destruct (table_loader _ _ _ _ Hl) as (bh & ld & Hbh & Hld & Hll).
  assert (lc_at loaders (ld, k) = Some lc) as Hlc by (unfold lc_at; simpl; by rewrite Hll).
  pose proof (k_old _ _ _ _ _ _ Hcore) as Hold. pose proof Hbl as (Hnew & _).
  unfold inst_conn. rewrite (bind_ok _ _ _ _ _ (header_ok _ _ _ Hh)).
  pose proof (conn_string_run _ Hgrants _ _ _ _ Hh Hpar) as Hstep. rewrite Hcp in Hstep. cbn [default from_option id] in Hstep.
  set (q := allocs s) in *. set (h1 := h <| c_param := Some q |>) in *.
  set (s1 := s <| allocs := S q |> <| strings := <[q := (true, body param ++ [NUL])]> (strings s) |>
               <| headers := <[o := h1]> (headers s) |>) in *.
  rewrite (bind_ok _ _ _ _ _ Hstep).
  erewrite bind_ok by (apply loader_of_ok with (h := bh); [exact Hbh|exact Hld]).
  rewrite (bind_ok _ _ _ _ _ (conn_entry_ok _ _ _ _ _ Hlc)), Hbel.
  assert (headers s1 !! o = Some h1) as Hh1 by (simpl; by rewrite lookup_insert, decide_True).
  destruct (create_conn_run s1 b o ld k lc (c_index h) h1 Hh1 Hlc) as (s2 & h2 & Hrun & Hcr & Hix).
  rewrite (bind_ok _ _ _ _ _ Hrun). pose proof Hcr as [C1 C2 C3 C4 C5 C6 C7 C8 C9 C10 C11 C12].
  rewrite (bind_ok _ _ _ _ _ (header_ok _ _ _ C1)), (bind_ok _ _ _ _ _ (the_ok _ _ _ C5)).
  set (p := new_inst lc b k (allocs s1) (c_index h2)).
  set (r := init_conn code ld k p (a <| op_code := opcode_output_init |>) param (world_ s2)).
  set (s3 := s2 <| world_ := r.2 |>).
  assert (in_code (init_conn code ld k p (a <| op_code := opcode_output_init |>) param) s2 = Ok (r.1, s3)) as Hr by done.
  assert (success r.1 = true) as Hsr by apply Hinit. rewrite (bind_ok _ _ _ _ _ Hr), Hsr. cbn [negb].
  assert (conns_ok s3 B C) as Hconns.
  { eapply conns_keep; [apply (k_conns _ _ _ _ _ _ Hcore)|]. change (mem s3) with (mem s2).
    eapply created_keeps with (s := s1); [done|done| |exact Hcr]. simpl. lia. }
  pose proof (insert_conn_run _ _ _ _ o Hconns Hb) as Hins. rewrite (bind_ok _ _ _ _ _ Hins).
  set (s4 := put_cell (Last, Brick b) (Some o) (put_cell (tail_cell b (C b)) (Some o) s3)) in *.
  assert (headers s4 !! o = Some h2) as Hh4 by exact C1. rewrite (bind_ok _ _ _ _ _ (header_ok _ _ _ Hh4)).
  eexists _, s4. split; [done|]. split; [done|]. split; [by rewrite Hix|].
  enough (control_ok loaders s4 root B (add_conn C b o) L) as Hgoal.
  { split; [done|]. unfold param_of. rewrite Hh4. simpl. rewrite C4. simpl. eauto. }
  assert (keeps [HashNext] (mem s) (mem s2)) as Hkh.
  { eapply created_keeps with (s := s1); [done|done| |exact Hcr]. simpl. lia. }
  assert (old_ok s4) as Ho4.
  { eapply old_keep; [exact Hold| | | | |].
    - change (allocs s4) with (allocs s2). rewrite C12. simpl. destruct (l_count lc =? 0); lia.
    - change (mem s4) with (<[(Last, Brick b) := Some o]> (<[tail_cell b (C b) := Some o]> (mem s2))).
      change (allocs s4) with (allocs s2). apply insert_old; [done| | |].
      + intros [f x] Hx. rewrite C11 in Hx. destruct (l_count lc =? 0) eqn:Hz; [|by left]. rewrite lookup_alloc in Hx.
        case_decide as Hin; [|by left]. right. assert (x = Block (allocs s1)) as -> by (unfold inst_cells in Hin; destruct (l_type lc); set_solver).
        simpl. rewrite C12. simpl. lia.
      + eexists. exact (c_last _ _ _ Hconns b Hb).
      + exact (tail_cell_some _ _ _ _ Hconns Hb).
    - intros x Hx. change (headers s4) with (headers s2) in Hx. left. destruct (decide (x = o)) as [->|Hxo]; [eauto|].
      rewrite C6 in Hx by done. simpl in Hx. by rewrite lookup_insert_ne in Hx.
    - intros x Hx. change (bricks s4) with (bricks s2) in Hx. rewrite C7 in Hx. by left.
    - intros x Hx. change (strings s4) with (strings s2) in Hx. change (allocs s4) with (allocs s2). rewrite C8, C12 in *. simpl in *.
      destruct (decide (x = q)) as [->|Hxq]; [right; unfold q; destruct (l_count lc =? 0); lia|]. left. by rewrite lookup_insert_ne in Hx. }
  split.
  - eapply core_created with (s0 := s) (s := s1) (s1 := s2); [exact Hcore|done|by unfold loader_of_brick; rewrite Hbh|exact Hll|exact Hk| | | |done|done|done| |exact Hcr|done|done|done|done| |done].
    + by rewrite Hix.
    + intros Ht Hz. by destruct Hz, (Hty Ht).
    + intros x Hx. simpl. by rewrite lookup_insert_ne.
    + simpl. lia.
    + eapply strings_new with (s := s) (b := b) (o := o) (p := q); [apply (k_strings _ _ _ _ _ _ Hcore)|done|done|done| | | | |done|exact C8].
      * intros x Hx Hin. exfalso. apply Hnew, elem_of_all_conns. eauto.
      * intros x y. apply elem_of_add_conn.
      * intros x Hx. unfold param_of. change (headers s4) with (headers s2). rewrite C6 by done. simpl. by rewrite lookup_insert_ne.
      * unfold param_of. rewrite Hh4. simpl. by rewrite C4.
  - eapply hash_keep; [exact Hhash|done|]. intros [f x] Hf Hx.
    change (mem s4) with (<[(Last, Brick b) := Some o]> (<[tail_cell b (C b) := Some o]> (mem s2))).
    assert (f = HashNext) as -> by (simpl in Hf; set_solver). rewrite lookup_insert_ne by done.
    rewrite lookup_insert_ne by (by destruct (tail_cell_cases b (C b)) as [->|(y & _ & ->)]). by apply Hkh.
  - intros b' l' i lc' j Hb' Hl' Hi' Ht' He' Hj. apply elem_of_add_conn. left. eapply Hinp; [done| |done..].
    rewrite <- Hl'. unfold table_of, loader_of_brick. change (bricks s4) with (bricks s2). by rewrite C7.
Qed.


(** ** Choosing a connector *)

Lemma strings_keep s s' root B C : strings_ok s root B C -> (forall b o, b ∈ B -> o ∈ C b -> param_of s' o = param_of s o) ->
  bricks s' = bricks s -> strings s' = strings s -> strings_ok s' root B C.
Proof.
  intros [H1 H2 H3 H4 H5] Hpar Hbr Hstr.
  assert (forall x, brick_param s' x = brick_param s x) as Hbp by (intros x; unfold brick_param; by rewrite Hbr).
  assert (forall q, on_heap s' q <-> on_heap s q) as Hh by (intros q; unfold on_heap; by rewrite Hstr).
  split.
  - intros b Hb Hr. rewrite Hbp. setoid_rewrite Hh. by apply H1.
  - intros b o p Hb Hr Ho. rewrite (Hpar b o), Hh by done. by apply (H2 b o).
  - intros b1 b2 ????. rewrite !Hbp. by apply H3.
  - intros b1 b2 o1 o2 p Hb1 Hb2 Hr1 Hr2 Ho1 Ho2. rewrite (Hpar b1 o1), (Hpar b2 o2) by done. by apply (H4 b1 b2).
  - intros b1 b2 o Hb1 Hb2 Hr1 Hr2 Ho. rewrite (Hpar b1 o), Hbp by done. by apply (H5 b1 b2).
Qed.

(** A new index of a connector without parameter *)
Lemma control_index s root B C L b l k lc i h : control_ok loaders s root B C L -> b ∈ B -> table_of loaders s b = Some l ->
  ld_conns l !! k = Some lc -> 0 <= i < l_count lc -> headers s !! Slot b (l_start_index lc + Z.to_nat i) = Some h ->
  control_ok loaders (s <| headers := <[Slot b (l_start_index lc + Z.to_nat i) := h <| c_index := i |>]> (headers s) |>) root B C L.
Proof.
  intros H Hb Hl Hk Hi Hh. set (o := Slot b (l_start_index lc + Z.to_nat i)) in *. pose proof (k_core _ _ _ _ _ _ H) as Hc.
  destruct (table_loader _ _ _ _ Hl) as (_ & ld & _ & _ & Hll). pose proof (loaders_elem _ _ _ Hloaders Hll) as Hok.
  eapply control_weak; [exact H| |apply (k_dir _ _ _ _ _ _ Hc)| | |].
  - split; simpl; [done|done| |].
    + intros x hx Hx. destruct (decide (x = o)) as [->|Hne]; [|rewrite lookup_insert_ne by done; eauto].
      rewrite lookup_insert, decide_True by done. assert (hx = h) as -> by congruence. eauto.
    + intros x hx Hx. rewrite lookup_insert_ne by congruence. congruence.
  - intros b' l' j Hb' Hl' Hj Hn. destruct (slots_are_blank _ _ _ _ _ _ H _ _ _ Hb' Hl' Hj Hn) as (h' & Hh' & Hbl & Hix).
    destruct (decide (Slot b' j = o)) as [Heq|Hne].
    + injection Heq as -> ->. fold o in Hh', Hn |- *. assert (h' = h) as -> by congruence. assert (l' = l) as -> by congruence. exists (h <| c_index := i |>). simpl. rewrite lookup_insert, decide_True by done. split; [done|]. split; [done|].
      intros i' lc' k' Hi' Heq Hk'. destruct (lo_disjoint _ Hok _ _ _ _ i k' Hk Hi' Hi Hk' Heq) as [-> _].
      by assert (lc' = lc) as -> by congruence.
    + exists h'. simpl. rewrite lookup_insert_ne by done. done.
  - eapply strings_keep; [apply (k_strings _ _ _ _ _ _ Hc)| |done|done]. intros b' x _ _. unfold param_of. simpl.
    destruct (decide (x = o)) as [->|Hne]; [|by rewrite lookup_insert_ne]. rewrite lookup_insert, decide_True, Hh by done. done.
  - destruct (k_old _ _ _ _ _ _ Hc) as [H1 H2 H3 H4]. split; [done| |done|done]. intros x Hx. simpl in *. apply H2.
    destruct (decide (x = o)) as [->|Hne]; [eauto|]. by rewrite lookup_insert_ne in Hx.
Qed.

Lemma new_conn_loop_run s b start n i :
  (forall k, i <= k < i + Z.of_nat n -> is_Some (headers s !! Slot b (start + Z.to_nat k))) ->
  new_conn_loop b start n i s = Ok (None, s) \/
  exists k h, i <= k < i + Z.of_nat n /\ headers s !! Slot b (start + Z.to_nat k) = Some h /\ c_param h = None /\
    new_conn_loop b start n i s = Ok (Some (Slot b (start + Z.to_nat k)),
      s <| headers := <[Slot b (start + Z.to_nat k) := h <| c_index := k |>]> (headers s) |>).
Proof.
  revert i. induction n as [|n IH]; intros i Hall; [by left|]. cbn [new_conn_loop]. cbv zeta.
  destruct (Hall i) as [h Hh]; [lia|]. rewrite (bind_ok _ _ _ _ _ (header_ok _ _ _ Hh)). destruct (c_param h) as [q|] eqn:Hq.
  - destruct (IH (i + 1)) as [->|(k & h' & Hk & Hh' & Hq' & Hrun)]; [intros; apply Hall; lia|by left|].
    right. exists k, h'. split; [lia|]. done.
  - right. exists i, h. split; [lia|]. split; [done|]. split; [done|]. erewrite bind_ok by (by apply set_header_ok with (h := h)). done.
Qed.

(** A header of its own for a connector of a dynamic array *)
Lemma control_dyn s root B C L : control_ok loaders s root B C L ->
  let n := allocs s in
  let s' := s <| allocs := S n |> <| mem := alloc (header_cells (Dyn n)) (mem s) |>
      <| headers := <[Dyn n := zero_header <| c_index := counter s |>]> (headers s) |> <| counter := i32 (counter s + 1) |> in
  control_ok loaders s' root B C L /\ Dyn n ∉ all_conns B C.
Proof.
  intros H n s'. pose proof (k_core _ _ _ _ _ _ H) as Hc. pose proof (k_old _ _ _ _ _ _ Hc) as Hold.
  assert (headers s !! Dyn n = None) as Hfree.
  { destruct (headers s !! Dyn n) eqn:Hh; [|done]. exfalso. destruct (o_headers _ Hold (Dyn n)) as [Hlt _]; [eauto|]. simpl in Hlt. lia. }
  assert (Dyn n ∉ all_conns B C) as Hnew.
  { intros (b & Hb & Hin)%elem_of_all_conns. destruct (conn_header _ _ _ _ _ _ (k_data _ _ _ _ _ _ Hc) Hb Hin) as (h & _ & Hh & _). congruence. }
  split; [|done]. eapply control_weak; [exact H| |apply (k_dir _ _ _ _ _ _ Hc)| | |].
  - split; [|done|simpl|simpl].
    + intros [f x] Hx. change (alloc (header_cells (Dyn n)) (mem s) !! (f, x) = mem s !! (f, x)). rewrite lookup_alloc.
      case_decide as Hin; [|done]. exfalso. assert (x = Dyn n) as -> by (unfold header_cells in Hin; set_solver).
      assert (n < allocs s)%nat by by apply (o_mem _ Hold (f, Dyn n)). subst n. lia.
    + intros x h Hx. rewrite lookup_insert_ne by congruence. eauto.
    + intros x h Hx. destruct (decide (x = Dyn n)) as [->|Hne]; [|rewrite lookup_insert_ne by done; congruence].
      rewrite lookup_insert, decide_True by done. intros [= <-]. done.
  - intros b l j Hb Hl Hj Hn. destruct (slots_are_blank _ _ _ _ _ _ H _ _ _ Hb Hl Hj Hn) as (h & Hh & ?). exists h. simpl.
    by rewrite lookup_insert_ne.
  - eapply strings_keep; [apply (k_strings _ _ _ _ _ _ Hc)| |done|done]. intros b x Hb Hx. unfold param_of. simpl.
    rewrite lookup_insert_ne; [done|]. intros <-. apply Hnew, elem_of_all_conns. eauto.
  - eapply old_keep; [exact Hold|simpl; lia| | |by left|by left].
    + intros [f x] Hx. simpl in Hx. rewrite !lookup_insert_is_Some in Hx. simpl.
      destruct Hx as [[= <- <-]|[_ [[= <- <-]|[_ [[= <- <-]|[_ Hx]]]]]]; [right; simpl; lia..|by left].
    + intros x Hx. simpl in Hx. apply lookup_insert_is_Some in Hx as [<-|[_ Hx]]; [right|by left]. split; [simpl; lia|done].
Qed.

(** ** [$instconn] *)

Lemma strncpy_pad t n : terminated t = true -> (length (body t) < n)%nat -> strncpy t n = Ok (body t ++ replicate (n - length (body t)) 0).
Proof.
  revert n. induction t as [|c t IH]; intros n H Hn; [done|]. cbn [body] in *. destruct n as [|n]; [lia|]. cbn [strncpy].
  destruct (Z.eqb_spec c 0) as [->|Hc]; [done|]. cbn [length] in Hn. rewrite IH; [done|by eapply terminated_tail|lia].
Qed.

Lemma body_chars t : terminated t = true -> Forall (fun c => 0 < c < 128) (body t) /\ (length (body t) < length t)%nat.
Proof.
  induction t as [|c t IH]; intros H; [done|]. cbn [body]. destruct (Z.eqb_spec c 0) as [->|Hc]; [simpl; split; [constructor|lia]|].
  apply terminated_cons in H as [Hr H]; [|done]. destruct (IH H). simpl. split; [by constructor|lia].
Qed.

Lemma padded_terminated t n : terminated t = true -> (length (body t) < n)%nat -> terminated (body t ++ replicate (n - length (body t)) 0) = true.
Proof.
  intros H Hn. apply terminated_app; [by apply body_chars|]. destruct (n - length (body t))%nat eqn:E; [lia|done].
Qed.

Lemma new_main_dir_run s nm : length nm = 8%nat -> terminated nm = true -> Forall (fun t => terminated t = true) (main_dir s) ->
  exists (ok : bool) l, new_main_dir nm s = Ok (ok, s <| main_dir := l |>) /\ length l = length (main_dir s) /\ Forall (fun t => terminated t = true) l.
Proof.
  intros Hlen Hnm Hd. destruct (body_chars _ Hnm) as [_ Hbl]. rewrite Hlen in Hbl. unfold new_main_dir. erewrite bind_ok by done.
  enough (exists r, new_main_dir_loop nm (main_dir s) = Ok r /\
    (forall l, r = Some l -> length l = length (main_dir s) /\ Forall (fun t => terminated t = true) l)) as (r & Hr & Hl).
  { erewrite bind_ok by (by apply lift_ok). destruct r as [l|].
    - exists true, l. destruct (Hl l eq_refl). erewrite bind_ok by done. done.
    - exists false, (main_dir s). split; [by destruct s|done]. }
  induction Hd as [|t l Ht Hd IH]; [by exists None|]. cbn [new_main_dir_loop].
  destruct t as [|c t]; [done|]. cbn [deref mbind cres_bind]. destruct (Z.eqb_spec c 0) as [->|Hc]; cbn [negb].
  - rewrite strncpy_pad by done. cbn [mbind cres_bind]. eexists. split; [done|]. intros l' [= <-]. split; [done|].
    constructor; [by apply padded_terminated|done].
  - destruct IH as ([l1|] & -> & Hl1); cbn [mbind cres_bind]; eexists; (split; [done|]); intros l' [= <-].
    destruct (Hl1 l1 eq_refl). split; [simpl; by f_equal|by constructor].
Qed.

Lemma control_dir s root B C L l : control_ok loaders s root B C L -> length l = MAINDIR_MAX -> Forall (fun t => terminated t = true) l ->
  control_ok loaders (s <| main_dir := l |>) root B C L.
Proof.
  intros H Hlen Hl. pose proof (k_core _ _ _ _ _ _ H) as Hc. eapply control_weak; [exact H| |done| | |].
  - split; simpl; [done|done|eauto|congruence].
  - exact (slots_are_blank _ _ _ _ _ _ H).
  - by destruct (k_strings _ _ _ _ _ _ Hc).
  - by destruct (k_old _ _ _ _ _ _ Hc).
Qed.


(** What a success of [$instconn] means *)
Definition instantiated s root B C L (c1 : conn_info) (r : cres (args * state)) : Prop :=
  exists a' s', r = Ok (a', s') /\ success a' = true /\
    (conn_addr c1 = 0 /\ control_ok loaders s' root B C L \/
     exists b o, b ∈ B /\ addr_of s b = Some (conn_addr c1) /\ is_Some (param_of s' o) /\
       (o ∈ C b /\ control_ok loaders s' root B C L \/ o ∉ C b /\ control_ok loaders s' root B (add_conn C b o) L)).

(** A connector of a static array, created or not *)
Lemma inst_slot s root B C L b l k lc i a c1 param :
  control_ok loaders s root B C L -> b ∈ B -> addr_of s b = Some (conn_addr c1) -> table_of loaders s b = Some l ->
  ld_conns l !! k = Some lc -> l_export lc = true -> 0 <= i < l_count lc -> terminated param = true ->
  instantiated s root B C L c1 (inst_conn loaders code grants b k (Slot b (l_start_index lc + Z.to_nat i)) a c1 param s).
Proof.
  intros H Hb Ha Hl Hk Hex Hi Hpar. set (o := Slot b (l_start_index lc + Z.to_nat i)).
  pose proof (k_core _ _ _ _ _ _ H) as Hc. destruct (table_loader _ _ _ _ Hl) as (_ & ld & _ & _ & Hll).
  pose proof (loaders_elem _ _ _ Hloaders Hll) as Hok. destruct (lo_conn _ Hok _ _ Hk) as (_ & _ & Hrange & _).
  destruct (decide (o ∈ C b)) as [Hin|Hout].
  - destruct (inst_conn_old loaders code grants Hgrants Hinit s root B C L b b l k lc o a c1 param H Hb Hl Hk Hb Hin Hpar)
      as (a' & s' & Hrun & Hs & _ & Hok' & _ & Hp & _).
    exists a', s'. split; [done|]. split; [done|]. right. exists b, o. auto 10.
  - assert (l_type lc = true) as Hty.
    { apply not_false_is_true. intros Ht. apply Hout. eapply (k_inputs _ _ _ _ _ _ H); [done..|]. lia. }
    destruct (d_slot _ _ _ _ (k_data _ _ _ _ _ _ Hc) b l (l_start_index lc + Z.to_nat i) Hb Hl) as (h & Hh & Hz); [lia|].
    destruct (Hz Hout) as (Hbl & Hix & Hf & Hch & Hn).
    destruct (inst_conn_new s root B C L b o l k lc h a c1 param H Hb Hl Hk Hh Hbl) as (a' & s' & Hrun & Hs & _ & Hok' & Hp); [|done|congruence|].
    + split; [|split; [done|split; [done|split; [done|]]]].
      * intros (b' & Hb' & Hin)%elem_of_all_conns. apply Hout. assert (b' = b) as -> by by eapply slot_owner; [apply (k_data _ _ _ _ _ _ Hc)|..]. done.
      * simpl. split; [done|]. split; [lia|]. split; [by eapply Hix|]. split; [lia|congruence].
    + exists a', s'. split; [done|]. split; [done|]. right. exists b, o. auto 10.
Qed.

Lemma instconn_op s root B C L a c1 param :
  control_ok loaders s root B C L -> conn1 a = Some c1 -> length (conn_name c1) = 8%nat -> terminated (conn_name c1) = true -> terminated param = true ->
  let r := op_instconn loaders code grants a param s in
  refused loaders s root B C L a r \/ instantiated s root B C L c1 r.
Proof.
  intros H Hc1 Hlen Hnm Hpar r. destruct (k_core _ _ _ _ _ _ H) as [Hb Hc Hd Hw Hs Hold Hdir]. subst r.
  unfold op_instconn, conn1_of. rewrite (bind_ok _ _ _ _ _ (the_ok _ _ _ Hc1)). destruct (Z.eqb_spec (conn_addr c1) 0) as [Hz|Hz].
  { destruct Hdir as [Hdl Hdt]. destruct (new_main_dir_run s _ Hlen Hnm Hdt) as (ok & l & Hrun & Hl & Ht). rewrite (bind_ok _ _ _ _ _ Hrun).
    assert (control_ok loaders (s <| main_dir := l |>) root B C L) as H' by (apply control_dir; [done|congruence|done]).
    destruct ok; [right|left].
    - eexists _, _. split; [done|]. split; [done|]. by left.
    - eexists _, _. split; [done|]. done. }
  rewrite (bind_ok _ _ _ _ _ (find_brick_hash_ok _ _ _ _ Hb (k_hash _ _ _ _ _ _ H))).
  destruct (brick_with s B (conn_addr c1)) as [b|] eqn:Hbw; [|left; by apply refuse]. destruct (brick_with_in _ _ _ _ Hbw) as [Hbb Haddr].
  destruct (b_table _ _ _ Hb b Hbb) as [l Hl]. rewrite (bind_ok _ _ _ _ _ (find_load_conn_ok _ _ _ _ _ Hloaders Hl Hnm)).
  destruct (conn_named l (conn_name c1)) as [k|] eqn:Hk; [|left; by apply refuse]. apply conn_named_some in Hk as (lc & Hk & Hex & _).
  destruct (table_loader _ _ _ _ Hl) as (bh & ld & Hbh & Hld & Hll). pose proof (loaders_elem _ _ _ Hloaders Hll) as Hok.
  destruct (lo_conn _ Hok _ _ Hk) as (_ & Hcnt & Hrange & _).
  destruct (Z.ltb_spec (conn_index c1) 0) as [Hneg|Hpos].
  - destruct (entry_of_table _ _ _ _ _ _ Hl Hk) as (bh' & ld' & Hbh' & Hld' & Hlc). unfold new_conn. rewrite bind_assoc.
    rewrite (bind_ok _ _ _ _ _ (loader_of_ok _ _ _ _ Hbh' Hld')). rewrite bind_assoc, (bind_ok _ _ _ _ _ (conn_entry_ok _ _ _ _ _ Hlc)).
    destruct (l_count lc =? 0) eqn:Hz0.
    + rewrite bind_assoc, (bind_ok _ _ _ _ _ (malloc_ok _ Hgrants s)). rewrite bind_assoc, (bind_ok _ _ _ _ _ (the_ok _ _ _ eq_refl)).
      rewrite bind_assoc. erewrite bind_ok by done. erewrite bind_ok by done.
      destruct (control_dyn _ _ _ _ _ H) as [H' Hnew]. cbv zeta in H'. right.
      set (s' := s <| allocs := S (allocs s) |> <| mem := alloc (header_cells (Dyn (allocs s))) (mem s) |>
        <| headers := <[Dyn (allocs s) := zero_header <| c_index := counter s |>]> (headers s) |> <| counter := i32 (counter s + 1) |>) in *.
      destruct (inst_conn_new s' root B C L b (Dyn (allocs s)) l k lc (zero_header <| c_index := counter s |>) a c1 param H' Hbb Hl Hk)
        as (a' & s2 & Hrun & Hsuc & _ & Hok2 & Hp).
      * simpl. by rewrite lookup_insert, decide_True.
      * done.
      * split; [done|]. change (mem s') with (alloc (header_cells (Dyn (allocs s))) (mem s)). rewrite !lookup_alloc.
        rewrite !decide_True by (unfold header_cells; set_solver). split; [done|]. split; [done|]. split; [done|]. simpl. lia.
      * done.
      * lia.
      * exists a', s2. split; [exact Hrun|]. split; [done|]. right. exists b, (Dyn (allocs s)). split; [done|]. split; [done|]. split; [done|].
        right. split; [|done]. intros Hin. apply Hnew, elem_of_all_conns. eauto.
    + destruct (new_conn_loop_run s b (l_start_index lc) (Z.to_nat (l_count lc)) 0) as [Hrun|(i & h & Hi & Hh & Hq & Hrun)].
      * intros i Hi. destruct (d_slot _ _ _ _ Hd b l (l_start_index lc + Z.to_nat i) Hbb Hl) as (h & Hh & _); [lia|eauto].
      * rewrite (bind_ok _ _ _ _ _ Hrun). left. by apply refuse.
      * rewrite (bind_ok _ _ _ _ _ Hrun). assert (0 <= i < l_count lc) as Hi' by lia.
        pose proof (control_index _ _ _ _ _ _ _ _ _ i h H Hbb Hl Hk Hi' Hh) as H'. right.
        destruct (inst_slot _ root B C L b l k lc i a c1 param H' Hbb Haddr Hl Hk Hex Hi' Hpar) as (a' & s2 & Hrun2 & Hsuc & Hcase).
        exists a', s2. done.
  - rewrite (bind_ok _ _ _ _ _ (get_conn_ok _ _ _ _ _ _ _ _ (conn_index c1) Hc Hd Hbb Hl Hk)).
    destruct (conn_at s C b lc (conn_index c1)) as [o|] eqn:Ho; [|left; by apply refuse].
    unfold conn_at in Ho. destruct (l_count lc =? 0) eqn:Hz0.
    + apply find_some in Ho as [Hin _]. apply list_elem_of_In in Hin.
      destruct (conn_header _ _ _ _ _ _ Hd Hbb Hin) as (h & p & Hh & _). rewrite (bind_ok _ _ _ _ _ (header_ok _ _ _ Hh)), (bind_ok _ _ _ _ _ (brick_at_ok _ _ _ Hbh)).
      destruct (bool_decide (c_param h <> b_param bh) && bool_decide (c_param h <> None)); [left; by apply refuse|]. right.
      destruct (inst_conn_old loaders code grants Hgrants Hinit s root B C L b b l k lc o a c1 param H Hbb Hl Hk Hbb Hin Hpar)
        as (a' & s' & Hrun & Hsuc & _ & Hok' & _ & Hp & _).
      exists a', s'. split; [done|]. split; [done|]. right. exists b, o. auto 10.
    + destruct ((conn_index c1 <? 0) || (l_count lc <=? conn_index c1)) eqn:Hr; [done|]. injection Ho as <-.
      destruct (d_slot _ _ _ _ Hd b l (l_start_index lc + Z.to_nat (conn_index c1)) Hbb Hl) as (h & Hh & _); [lia|].
      rewrite (bind_ok _ _ _ _ _ (header_ok _ _ _ Hh)), (bind_ok _ _ _ _ _ (brick_at_ok _ _ _ Hbh)).
      destruct (bool_decide (c_param h <> b_param bh) && bool_decide (c_param h <> None)); [left; by apply refuse|]. right.
      eapply inst_slot; eauto; lia.
Qed.


(** ** [$deinstconn] *)

Lemma free_string_ok s p : on_heap s p -> free_string p s = Ok (tt, s <| strings := delete p (strings s) |>).
Proof. intros [t Ht]. unfold free_string. erewrite bind_ok by done. by rewrite Ht. Qed.

Lemma strings_drop s s' root B C b o p : strings_ok s root B C -> b ∈ B -> b <> root -> o ∈ C b -> param_of s o = Some p ->
  (forall x, x <> o -> param_of s' x = param_of s x) -> param_of s' o = None -> bricks s' = bricks s ->
  strings s' = delete p (strings s) -> strings_ok s' root B C.
Proof.
  intros [H1 H2 H3 H4 H5] Hb Hr Ho Hp Hpar Hnone Hbr Hstr.
  assert (forall x, brick_param s' x = brick_param s x) as Hbp by (intros x; unfold brick_param; by rewrite Hbr).
  assert (forall q, on_heap s q -> q <> p -> on_heap s' q) as Hh.
  { intros q [t Ht] Hq. exists t. rewrite Hstr. by rewrite lookup_delete_ne. }
  assert (forall x q, param_of s' x = Some q -> x <> o /\ param_of s x = Some q) as Hsome.
  { intros x q Hq. destruct (decide (x = o)) as [->|Hx]; [congruence|]. split; [done|]. by rewrite <- Hpar. }
  split.
  - intros x Hx Hxr. rewrite Hbp. destruct (H1 x Hx Hxr) as (q & Hq & Hqh). exists q. split; [done|]. apply Hh; [done|].
    intros ->. apply (H5 b x o); [done..|by rewrite Hp|congruence].
  - intros x y q Hx Hxr Hy Hq. destruct (Hsome _ _ Hq) as [Hyo Hq']. apply Hh; [by apply (H2 x y)|].
    intros ->. apply Hyo. by apply (H4 x b y o p).
  - intros x y ????. rewrite !Hbp. by apply H3.
  - intros x1 x2 y1 y2 q Hx1 Hx2 Hr1 Hr2 Hy1 Hy2 Hq1 Hq2. destruct (Hsome _ _ Hq1), (Hsome _ _ Hq2). by apply (H4 x1 x2 y1 y2 q).
  - intros x1 x2 y Hx1 Hx2 Hr1 Hr2 Hy [q Hq]. destruct (Hsome _ _ Hq) as [Hyo Hq']. rewrite Hq, Hbp, <- Hq'. apply (H5 x1 x2); [done..|by eexists].
Qed.

Lemma control_drop s root B C L b o h p w : control_ok loaders s root B C L -> b ∈ B -> b <> root -> o ∈ C b ->
  headers s !! o = Some h -> c_param h = Some p ->
  control_ok loaders (s <| world_ := w |> <| strings := delete p (strings s) |> <| headers := <[o := h <| c_param := None |>]> (headers s) |>) root B C L.
Proof.
  intros H Hb Hr Ho Hh Hp. pose proof (k_core _ _ _ _ _ _ H) as Hc. pose proof (k_data _ _ _ _ _ _ Hc) as Hd.
  destruct (conn_header _ _ _ _ _ _ Hd Hb Ho) as (h' & q & Hh' & Hbel & _). assert (h' = h) as -> by congruence.
  eapply control_weak; [exact H| |exact (k_dir _ _ _ _ _ _ Hc)| | |].
  - split; simpl; [done|done| |].
    + intros x hx Hx. destruct (decide (x = o)) as [->|Hne]; [|rewrite lookup_insert_ne by done; eauto].
      rewrite lookup_insert, decide_True by done. assert (hx = h) as -> by congruence. eauto.
    + intros x hx Hx. rewrite lookup_insert_ne by congruence. congruence.
  - intros b' l' j Hb' Hl' Hj Hn. destruct (slots_are_blank _ _ _ _ _ _ H _ _ _ Hb' Hl' Hj Hn) as (hx & Hhx & Hbl). exists hx. simpl.
    rewrite lookup_insert_ne; [done|]. intros ->. assert (b = b') as -> by by eapply slot_owner. done.
  - eapply strings_drop with (s := s) (b := b) (o := o) (p := p); [apply (k_strings _ _ _ _ _ _ Hc)|done|done|done| | | |done|done].
    + unfold param_of. by rewrite Hh.
    + intros x Hx. unfold param_of. simpl. by rewrite lookup_insert_ne.
    + unfold param_of. simpl. by rewrite lookup_insert, decide_True.
  - destruct (k_old _ _ _ _ _ _ Hc) as [H1 H2 H3 H4]. split; [done| |done|]; simpl.
    + intros x Hx. apply H2. apply lookup_insert_is_Some in Hx as [<-|[_ Hx]]; [eauto|done].
    + intros x Hx. apply H4. by apply lookup_delete_is_Some in Hx as [_ Hx].
Qed.

Lemma deinstconn_op s root B C L a c1 param :
  control_ok loaders s root B C L -> conn1 a = Some c1 -> terminated (conn_name c1) = true ->
  brick_with s B (conn_addr c1) <> Some root ->
  let r := op_deinstconn loaders code a param s in
  refused loaders s root B C L a r \/
  exists s' o, r = Ok (a <| success := true |>, s') /\ control_ok loaders s' root B C L /\
    lookup_conn loaders s B C c1 = Some o /\ param_of s' o = None /\ target L o = None /\ sources L o = [].
Proof.
  intros H Hc1 Hnm Hroot r. destruct (k_core _ _ _ _ _ _ H) as [Hb Hc Hd Hw Hs Hold Hdir]. subst r.
  unfold op_deinstconn, conn1_of. rewrite (bind_ok _ _ _ _ _ (the_ok _ _ _ Hc1)).
  destruct (Z.eqb_spec (conn_addr c1) 0) as [Hz|Hz]; [left; by apply refuse|].
  rewrite (bind_ok _ _ _ _ _ (find_brick_hash_ok _ _ _ _ Hb (k_hash _ _ _ _ _ _ H))). unfold lookup_conn.
  destruct (brick_with s B (conn_addr c1)) as [b|] eqn:Hbw; [|left; by apply refuse]. destruct (brick_with_in _ _ _ _ Hbw) as [Hbb _]. cbn [mbind option_bind].
  rewrite (bind_ok _ _ _ _ _ (find_conn_ok _ _ _ _ _ _ _ Hloaders Hb Hc Hd Hbb Hnm)).
  destruct (resolve loaders s C b (conn_name c1) (conn_index c1)) as [o|] eqn:Hres; [|left; by apply refuse].
  destruct (brick_present _ _ _ _ Hb Hbb) as (bh & ld & l & Hbh & Hld & Hll).
  destruct (resolve_cases _ _ _ _ _ _ _ _ Hloaders Hres Hbb) as [Hin|(l' & j & -> & Hl & Hj & Hn)].
  2: { destruct (blank_lc _ _ _ _ _ _ _ Hd Hbb Hl Hj Hn) as (h & Hh & Hr & _).
    rewrite (bind_ok _ _ _ _ _ (header_ok _ _ _ Hh)), (bind_ok _ _ _ _ _ (brick_at_ok _ _ _ Hbh)), Hr. left. by apply refuse. }
  destruct (conn_lc _ _ _ _ _ _ Hd Hbb Hin) as (h & ld' & k & lc & Hh & Hr & Hlc & Hlo).
  destruct (conn_header _ _ _ _ _ _ Hd Hbb Hin) as (h' & p & Hh' & _ & Hp). assert (h' = h) as -> by congruence.
  rewrite (bind_ok _ _ _ _ _ (header_ok _ _ _ Hh)), (bind_ok _ _ _ _ _ (brick_at_ok _ _ _ Hbh)), Hr.
  destruct (c_param h) as [q|] eqn:Hq; [|left; by apply refuse]. case_decide as Hbp; [left; by apply refuse|].
  rewrite (bind_ok _ _ _ _ _ (conn_entry_ok _ _ _ _ _ Hlc)).
  assert (o ∈ all_conns B C) as Hall by (apply elem_of_all_conns; eauto).
  assert (exists v, mem s !! (First, o) = Some v /\ (v = None -> target L o = None /\ sources L o = [])) as (v & Hv & Hnone).
  { assert (is_input loaders s o \/ is_output loaders s o) as [Hi|Ho] by by eapply in_or_out.
    - destruct (k_first _ _ _ _ (w_links _ _ _ _ _ Hw) _ Hall Hi) as [Hf _]. exists (target L o). split; [done|]. intros Ht. split; [done|].
      destruct (sources L o) as [|x xs] eqn:Hsr; [done|]. exfalso. assert (x ∈ sources L o) as Hx by (rewrite Hsr; by left).
      apply elem_of_sources in Hx. destruct (k_link _ _ _ _ (w_links _ _ _ _ _ Hw) _ _ Hx) as (_ & _ & [[_ Ho]|(e & -> & _)]).
      + by eapply not_both.
      + by apply (k_dom _ _ _ _ (w_links _ _ _ _ _ Hw) e).
    - destruct (k_out _ _ _ _ (w_links _ _ _ _ _ Hw) _ Hall Ho) as [Hsg _]. apply seg_head in Hsg. exists (head (sources L o)). split; [done|].
      intros Hhd. split; [|by destruct (sources L o)]. destruct (target L o) as [q'|] eqn:Ht; [|done]. exfalso.
      apply target_Some in Ht; [|apply (k_nodup _ _ _ _ (w_links _ _ _ _ _ Hw))].
      destruct (k_link _ _ _ _ (w_links _ _ _ _ _ Hw) _ _ Ht) as (_ & Hi & _). by eapply not_both. }
  rewrite (bind_ok _ _ _ _ _ (read_ok _ _ _ Hv)). destruct v as [v|]; [left; by apply refuse|]. destruct (Hnone eq_refl) as [Ht Hsr].
  rewrite (bind_ok _ _ _ _ _ (the_ok _ _ _ Hp)). assert (b <> root) as Hbr by congruence.
  assert (on_heap s q) as Hheap.
  { eapply (s_conn _ _ _ _ Hs b o); [done..|]. unfold param_of. by rewrite Hh. }
  erewrite bind_ok by done. set (s1 := s <| world_ := _ |>). assert (on_heap s1 q) as Hheap1 by exact Hheap.
  rewrite (bind_ok _ _ _ _ _ (free_string_ok _ _ Hheap1)).
  erewrite bind_ok by (apply set_header_ok with (h := h); exact Hh). right. eexists _, o. split; [done|].
  split; [exact (control_drop s root B C L b o h q _ H Hbb Hbr Hin Hh Hq)|]. split; [done|]. split; [|done]. unfold param_of. simpl. by rewrite lookup_insert, decide_True.
Qed.

End create.
