(* ===== verification/ControlBricks.v ===== *)
(** * Creating bricks

    [new_brick], [create_brick] and [$instbrick]: a brick with the connectors
    of its static inputs, its inner wires, and its place in the hash table. *)

From S2P Require Import Prelude CLib Common Cells ControlSimple ControlWiring ControlState ControlFrame ControlOps ControlCreate.
Open Scope Z_scope.

(** ** The cells of a brick *)

Definition of_brick (b : nat) (o : obj) : Prop :=
  match o with Brick x | Slot x _ | Part x _ _ | Inner x _ => x = b | _ => False end.
#[export] Instance of_brick_dec b o : Decision (of_brick b o).
Proof. destruct o; simpl; apply _. Defined.

Lemma elem_of_indices k a n : k ∈ indices a n <-> a <= k < a + Z.of_nat n.
Proof.
  revert a. induction n as [|n IH]; intros a; cbn [indices]; [split; [by intros ?%not_elem_of_nil|lia]|].
  rewrite elem_of_cons, IH. lia.
Qed.

Lemma elem_of_part_cells b l i c : c ∈ part_cells b l i <->
  exists j lc k, l !! j = Some lc /\ 0 <= k < l_count lc /\ c ∈ inst_cells (l_type lc) (Part b (i + j) k).
Proof.
  revert i. induction l as [|lc l IH]; intros i; cbn [part_cells].
  - split; [by intros ?%not_elem_of_nil|by intros (j & lc & k & ? & _)].
  - rewrite elem_of_app, IH, list_elem_of_In, in_concat. setoid_rewrite <- list_elem_of_In. split.
    + intros [(x & Hx & Hc)|(j & lc' & k & Hj & Hk & Hc)].
      * apply list_elem_of_fmap in Hx as (k & -> & Hk%elem_of_indices). exists 0%nat, lc, k. rewrite Nat.add_0_r. split; [done|]. split; [lia|done].
      * exists (S j), lc', k. by rewrite <- Nat.add_succ_comm.
    + intros ([|j] & lc' & k & Hj & Hk & Hc).
      * injection Hj as <-. left. rewrite Nat.add_0_r in Hc. eexists. split; [|exact Hc]. apply list_elem_of_fmap. exists k.
        split; [done|]. apply elem_of_indices. lia.
      * right. exists j, lc', k. by rewrite <- Nat.add_succ_comm in Hc.
Qed.

Lemma inst_cells_obj type p c : c ∈ inst_cells type p -> c.2 = p.
Proof. unfold inst_cells. destruct type; set_solver. Qed.

Lemma elem_of_brick_cells b l c : c ∈ brick_cells b l <->
  c ∈ [(HashNext, Brick b); (Connectors, Brick b); (Last, Brick b)] \/
  (exists j, (j < ld_totalcount l)%nat /\ c ∈ header_cells (Slot b j)) \/
  (exists j lc k, ld_conns l !! j = Some lc /\ 0 <= k < l_count lc /\ c ∈ inst_cells (l_type lc) (Part b j k)) \/
  (exists m, (m < length (ld_wires l))%nat /\ c ∈ inst_cells false (Inner b m)).
Proof.
  unfold brick_cells. rewrite !elem_of_app, elem_of_part_cells.
  assert (forall (f : nat -> list cell) n, c ∈ concat (f <$> seq 0 n) <-> exists j, (j < n)%nat /\ c ∈ f j) as Hseq.
  { intros f n. rewrite list_elem_of_In, in_concat. setoid_rewrite <- list_elem_of_In. split.
    - intros (x & (j & -> & Hj%elem_of_seq)%list_elem_of_fmap & Hc). exists j. split; [lia|done].
    - intros (j & Hj & Hc). exists (f j). split; [|done]. apply list_elem_of_fmap. exists j. split; [done|]. apply elem_of_seq. lia. }
  rewrite !Hseq. done.
Qed.

Lemma brick_cells_of b l c : c ∈ brick_cells b l -> of_brick b c.2.
Proof.
  intros [H|[(j & _ & H)|[(j & lc & k & _ & _ & H%inst_cells_obj)|(m & _ & H%inst_cells_obj)]]]%elem_of_brick_cells.
  - by repeat (apply elem_of_cons in H as [->|H]; [done|]); apply not_elem_of_nil in H.
  - by repeat (apply elem_of_cons in H as [->|H]; [done|]); apply not_elem_of_nil in H.
  - by rewrite H.
  - by rewrite H.
Qed.

Section bricks.
Context {W : Type} (loaders : list loader_t) (code : brick_code W) (grants : nat -> bool) (junk : args).
Context (Hloaders : loaders_ok loaders) (Hgrants : forall n, grants n = true)
  (Hinit : forall ld i o a param w, success (init_conn code ld i o a param w).1 = true).
Abbreviation state := (control_state W).
Implicit Types (s : state) (o : obj) (D : list obj) (L : list (obj * obj)) (B : list nat) (C : nat -> list obj).

(** ** A new brick *)

Definition no_conns C (b : nat) : nat -> list obj := fun x => if decide (x = b) then [] else C x.

Record brick_made s s1 (b p ld : nat) (l : loader_t) : Prop := {
  bm_mem : mem s1 = alloc (brick_cells b l) (mem s);
  bm_slot j : (j < ld_totalcount l)%nat -> headers s1 !! Slot b j = Some zero_header;
  bm_header o : (forall j, o = Slot b j -> (ld_totalcount l <= j)%nat) -> headers s1 !! o = headers s !! o;
  bm_brick : bricks s1 !! b = Some {| addr := 0; b_param := Some p; b_loader := Some ld |};
  bm_other x : x <> b -> bricks s1 !! x = bricks s !! x;
  bm_strings : exists t, strings s1 = <[p := (true, t)]> (strings s);
  bm_dir : main_dir s1 = main_dir s;
  bm_b : b = allocs s;
  bm_p : p = S b;
  bm_allocs : allocs s1 = S p
}.

Lemma all_no_conns B C b o : b ∉ B -> o ∈ all_conns (b :: B) (no_conns C b) <-> o ∈ all_conns B C.
Proof.
  intros Hb. rewrite !elem_of_all_conns. unfold no_conns. split.
  - intros (x & Hx & Ho). case_decide; [by apply not_elem_of_nil in Ho|]. apply elem_of_cons in Hx as [->|Hx]; [done|eauto].
  - intros (x & Hx & Ho). exists x. split; [by right|]. rewrite decide_False; [done|]. by intros ->.
Qed.

Lemma no_conns_other C b x : x <> b -> no_conns C b x = C x.
Proof. intros Hx. unfold no_conns. by rewrite decide_False. Qed.

Lemma no_conns_same C b : no_conns C b b = [].
Proof. unfold no_conns. by rewrite decide_True. Qed.

Lemma old_fresh s o : old_ok s -> of_brick (allocs s) o -> (forall f, mem s !! (f, o) = None) /\ headers s !! o = None.
Proof.
  intros H Ho. split.
  - intros f. destruct (mem s !! (f, o)) eqn:Hm; [|done]. exfalso.
    assert (obj_old (allocs s) o) as Hlt by (apply (o_mem _ H (f, o)); eauto). destruct o; simpl in *; subst; lia || done.
  - destruct (headers s !! o) eqn:Hm; [|done]. exfalso. destruct (o_headers _ H o) as [Hlt _]; [eauto|].
    destruct o; simpl in *; subst; lia || done.
Qed.

Lemma fresh_brick s B : bricks_ok loaders s B -> old_ok s -> allocs s ∉ B.
Proof.
  intros H Ho Hb. destruct (brick_present _ _ _ _ H Hb) as (h & ld & l & Hh & _).
  assert (allocs s < allocs s)%nat by (apply (o_bricks _ Ho); eauto). lia.
Qed.

Lemma made_strings s s1 root B C b p ld l : strings_ok s root B C -> old_ok s -> b ∉ B -> brick_made s s1 b p ld l ->
  (forall x o, x ∈ B -> o ∈ C x -> param_of s1 o = param_of s o) -> strings_ok s1 root (b :: B) (no_conns C b).
Proof.
  intros [H1 H2 H3 H4 H5] Hold Hb [_ _ _ M4 M5 [t M6] _ M8 M9 _] Hpar.
  assert (strings s !! p = None) as Hfresh.
  { destruct (strings s !! p) eqn:Hs; [|done]. assert (p < allocs s)%nat by (apply (o_strings _ Hold); eauto). lia. }
  assert (forall q, on_heap s q -> on_heap s1 q /\ q <> p) as Hheap.
  { intros q [u Hq]. assert (q <> p) by congruence. split; [|done]. exists u. rewrite M6. by rewrite lookup_insert_ne. }
  assert (on_heap s1 p) as Hp by (exists t; rewrite M6; by rewrite lookup_insert, decide_True).
  assert (brick_param s1 b = Some p) as Hbp by (unfold brick_param; by rewrite M4).
  assert (forall x, x ∈ B -> brick_param s1 x = brick_param s x) as Hbs.
  { intros x Hx. unfold brick_param. rewrite M5; [done|]. by intros ->. }
  assert (forall x o, x ∈ b :: B -> o ∈ no_conns C b x -> x ∈ B /\ o ∈ C x) as Hin.
  { intros x o Hx Ho. unfold no_conns in Ho. case_decide; [by apply not_elem_of_nil in Ho|]. by apply elem_of_cons in Hx as [->|Hx]. }
  assert (forall x, x ∈ B -> x <> root -> brick_param s x <> Some p) as Hbne.
  { intros x Hx Hr Heq. destruct (H1 x Hx Hr) as (q & Hq & Hh). destruct (Hheap _ Hh). congruence. }
  split.
  - intros x Hx Hr. apply elem_of_cons in Hx as [->|Hx]; [eauto|]. rewrite Hbs by done. destruct (H1 x Hx Hr) as (q & Hq & Hh).
    exists q. split; [done|]. by apply Hheap.
  - intros x o q Hx Hr Ho Hq. destruct (Hin _ _ Hx Ho) as [Hx' Ho']. rewrite (Hpar x) in Hq by done. by eapply Hheap, H2.
  - intros x y Hx Hy Hrx Hry Heq. apply elem_of_cons in Hx as [->|Hx], Hy as [->|Hy]; [done| | |].
    + rewrite Hbp, Hbs in Heq by done. by destruct (Hbne y).
    + rewrite Hbp, Hbs in Heq by done. by destruct (Hbne x).
    + rewrite !Hbs in Heq by done. by apply H3.
  - intros x1 x2 o1 o2 q Hx1 Hx2 Hr1 Hr2 Ho1 Ho2. destruct (Hin _ _ Hx1 Ho1), (Hin _ _ Hx2 Ho2).
    rewrite (Hpar x1), (Hpar x2) by done. by apply (H4 x1 x2).
  - intros x1 x2 o Hx1 Hx2 Hr1 Hr2 Ho [q Hq]. destruct (Hin _ _ Hx1 Ho) as [Hx1' Ho']. rewrite (Hpar x1) in * by done.
    apply elem_of_cons in Hx2 as [->|Hx2]; [|rewrite Hbs by done; apply (H5 x1); eauto].
    rewrite Hbp, Hq. destruct (Hheap q) as [_ Hne]; [by eapply H2|congruence].
Qed.

Lemma made_old s s1 b p ld l : old_ok s -> brick_made s s1 b p ld l -> old_ok s1.
Proof.
  intros Hold [M1 M2 M3 M4 M5 [t M6] _ M8 M9 M10]. eapply old_keep; [exact Hold|lia| | | |].
  - intros [f o] Hc. rewrite M1, lookup_alloc in Hc. case_decide as Hin; [right|by left]. apply brick_cells_of in Hin.
    destruct o; simpl in *; subst; lia || done.
  - intros o Ho. destruct (decide (of_brick b o)) as [Hof|Hof].
    + right. split; [destruct o; simpl in *; subst; lia || done|]. by intros e ->.
    + left. rewrite M3 in Ho; [done|]. by intros j ->.
  - intros x Hx. destruct (decide (x = b)) as [->|Hxb]; [right; lia|]. left. by rewrite M5 in Hx.
  - intros x Hx. rewrite M6 in Hx. destruct (decide (x = p)) as [->|Hxp]; [right; lia|]. left. by rewrite lookup_insert_ne in Hx.
Qed.

Lemma made_core s s1 root B C L b p ld l : core_ok loaders s root B C L -> loaders !! ld = Some l -> brick_made s s1 b p ld l ->
  core_ok loaders s1 root (b :: B) (no_conns C b) L.
Proof.
  intros [Hb Hc Hd Hw Hs Hold [Hdir1 Hdir2]] Hl Hmade. pose proof Hmade as [M1 M2 M3 M4 M5 _ M7 M8 M9 M10].
  assert (b ∉ B) as HbB by (subst b; by apply fresh_brick).
  assert (forall o, of_brick b o -> (forall f, mem s !! (f, o) = None) /\ headers s !! o = None) as Hfresh by (intros; apply old_fresh; subst; done).
  assert (forall c, is_Some (mem s !! c) -> mem s1 !! c = mem s !! c) as Hkeep.
  { intros [f o] Hc'. rewrite M1, lookup_alloc. case_decide as Hin; [|done]. apply brick_cells_of in Hin.
    destruct (Hfresh _ Hin) as [Hm _]. rewrite Hm in Hc'. by destruct Hc'. }
  assert (forall c, c ∈ brick_cells b l -> mem s1 !! c = Some None) as Hnew by (intros c Hin; rewrite M1, lookup_alloc; by rewrite decide_True).
  assert (forall o, headers s1 !! o = headers s !! o \/ headers s !! o = None /\ headers s1 !! o = Some zero_header) as Hhead.
  { intros o. destruct o as [|x j| | | | | |]; try (left; by apply M3). destruct (decide (x = b /\ (j < ld_totalcount l)%nat)) as [[-> Hj]|Hn].
    - right. split; [by apply Hfresh|by apply M2].
    - left. apply M3. intros j' [= -> <-]. destruct (decide (j < ld_totalcount l)%nat); [tauto|lia]. }
  assert (forall o, is_Some (headers s !! o) -> headers s1 !! o = headers s !! o) as Hhs.
  { intros o Ho. destruct (Hhead o) as [|[Hn _]]; [done|]. rewrite Hn in Ho. by destruct Ho. }
  assert (forall o, inst_of s1 o = inst_of s o) as Hinst.
  { intros o. unfold inst_of. by destruct (Hhead o) as [->|[-> ->]]. }
  assert (forall o, lc_of loaders s1 o = lc_of loaders s o) as Hlc.
  { intros o. unfold lc_of. by destruct (Hhead o) as [->|[-> ->]]. }
  assert (forall x, x ∈ B -> loader_of_brick s1 x = loader_of_brick s x) as Hload.
  { intros x Hx. unfold loader_of_brick. rewrite M5; [done|]. by intros ->. }
  assert (table_of loaders s1 b = Some l) as Htb by (unfold table_of, loader_of_brick; rewrite M4; done).
  assert (forall x, x ∈ B -> table_of loaders s1 x = table_of loaders s x) as Htab.
  { intros x Hx. unfold table_of. by rewrite Hload. }
  assert (forall x, x ∈ B -> no_conns C b x = C x) as Hcs by (intros x Hx; apply no_conns_other; by intros ->).
  split; [| | | | | |by rewrite M7].
  - split; [apply NoDup_cons; split; [done|apply (b_nodup _ _ _ Hb)]|].
    intros x [->|Hx]%elem_of_cons; [by rewrite Htb|]. rewrite Htab by done. by apply (b_table _ _ _ Hb).
  - destruct Hc as [C1 C2 C3]. split; intros x [->|Hx]%elem_of_cons; rewrite ?no_conns_same, ?Hcs by done; try by apply C1.
    + constructor.
    + apply Hnew, elem_of_brick_cells. left. set_solver.
    + eapply seg_keep; [by apply C2|]. intros c' _. apply Hkeep.
    + apply Hnew, elem_of_brick_cells. left. set_solver.
    + rewrite Hkeep; [by apply C3|]. rewrite C3; eauto.
  - destruct Hd as [D1 D2]. split.
    + intros x l' j [->|Hx]%elem_of_cons Hl' Hj.
      * assert (l' = l) as -> by congruence. exists zero_header. split; [by apply M2|]. intros _. split; [done|].
        split; [intros i lc k Hi _ Hk; simpl; lia|]. split_and!; apply Hnew, elem_of_brick_cells; right; left; exists j; split; try done; unfold header_cells; set_solver.
      * rewrite Htab in Hl' by done. destruct (D1 x l' j Hx Hl' Hj) as (h & Hh & Hz). exists h. rewrite Hhs by eauto. rewrite Hcs by done.
        split; [done|]. intros Hout. destruct (Hz Hout) as (Z1 & Z2 & Z3 & Z4 & Z5). rewrite !Hkeep by eauto. done.
    + intros x o Hx Ho. unfold no_conns in Ho. case_decide; [by apply not_elem_of_nil in Ho|]. apply elem_of_cons in Hx as [->|Hx]; [done|].
      destruct (D2 x o Hx Ho) as (h & ld' & l' & i & lc & q & E1 & E2). exists h, ld', l', i, lc, q. rewrite Hhs by eauto.
      by rewrite Hload.
  - eapply wiring_grow; [exact Hw|intros; by apply all_no_conns|done|done| | | |].
    + intros e. rewrite M3 by done. apply (w_entry _ _ _ _ _ Hw).
    + intros c _. apply Hkeep.
    + intros q [(x & l' & i & lc & k & H1 & H2 & H3)|(n & o & -> & H1 & H2 & H3)].
      * left. exists x, l', i, lc, k. split; [by right|]. by rewrite Htab.
      * right. exists n, o. split; [done|]. split; [by apply all_no_conns|]. unfold is_output. by rewrite Hlc, Hinst.
    + intros q [(x & l' & i & lc & k & H1 & H2 & H3 & H4 & H5 & ->)|(n & o & -> & H1 & H2 & H3)].
      * apply elem_of_cons in H1 as [->|H1].
        -- right. assert (l' = l) as -> by congruence. split.
           ++ apply Hnew, elem_of_brick_cells. right. right. left. exists i, lc, k. rewrite H4. split; [done|]. split; [done|]. by left.
           ++ destruct (rev_sources s L (Part b i k)) as [|y ys] eqn:Hrs; [done|]. exfalso.
              assert (y ∈ rev_sources s L (Part b i k)) as Hy by (rewrite Hrs; by left).
              apply elem_of_rev_sources in Hy as (j & o' & Hjo & _ & Ho').
              destruct (k_link _ _ _ _ (w_links _ _ _ _ _ Hw) _ _ Hjo) as (_ & _ & [[Hod Hoo]|(e & -> & _)]).
              ** destruct (Hfresh (Part b i k)) as [Hno _]; [done|].
                 destruct (inst_live _ _ _ _ _ _ _ Hw Hod ltac:(by right) Ho') as [[? Hm]|[? Hm]]; by rewrite Hno in Hm.
              ** by rewrite (entry_inst _ _ _ _ _ e Hw) in Ho'.
        -- left. left. exists x, l', i, lc, k. by rewrite Htab in H2.
      * left. right. exists n, o. split; [done|]. split; [by apply (all_no_conns B C b)|]. unfold is_output. by rewrite <- Hlc, <- Hinst.
  - eapply made_strings; [done..|]. intros x o Hx Ho. unfold param_of. rewrite Hhs; [done|].
    destruct (conn_header _ _ _ _ _ _ Hd Hx Ho) as (h & _ & Hh & _). eauto.
  - by eapply made_old.
Qed.

(** ** Wires inside the brick *)

Lemma links_same s s' D L : links_ok loaders s D L -> headers s' = headers s ->
  (forall f o, f = First \/ f = Chain -> mem s' !! (f, o) = mem s !! (f, o)) -> links_ok loaders s' D L.
Proof.
  intros [H1 H2 H3 H4 H5 H6 H7] Hh Hm.
  assert (forall o l, seg (mem s) (First, o) Chain l -> seg (mem s') (First, o) Chain l) as Hseg.
  { intros o l Hs. eapply seg_frame; [exact Hs|apply Hm; by left|intros; apply Hm; by right]. }
  assert (forall x, is_input loaders s' x <-> is_input loaders s x) as Hin by (intros x; unfold is_input, lc_of; by rewrite Hh).
  assert (forall x, is_output loaders s' x <-> is_output loaders s x) as Hout by (intros x; unfold is_output, lc_of; by rewrite Hh).
  split; [done|done| | | | |].
  - intros i o. rewrite Hin, Hout. apply H3.
  - intros i Hi Hii%Hin. rewrite !Hm by tauto. by apply H4.
  - intros o Ho Hoo%Hout. rewrite Hm by tauto. destruct (H5 o Ho Hoo). auto.
  - intros e He. by apply Hseg, H6.
  - intros e He. rewrite Hm by tauto. by apply H7.
Qed.

Definition wired s (b c : nat) (k : Z) (m : nat) (v : option obj) : state :=
  put_cell (RevChain, Part b c k) (Some (Inner b m)) (put_cell (RevNext, Inner b m) v (put_cell (Connect, Inner b m) (Some (Part b c k)) s)).

(** An output structure of a brick without connectors is not connected. *)
Lemma no_sources s root B C L b c k : core_ok loaders s root B C L -> C b = [] -> rev_sources s L (Part b c k) = [].
Proof.
  intros H Hnil. destruct (rev_sources s L (Part b c k)) as [|y ys] eqn:Hrs; [done|]. exfalso.
  assert (y ∈ rev_sources s L (Part b c k)) as Hy by (rewrite Hrs; by left).
  apply elem_of_rev_sources in Hy as (j & o & Hjo & _ & Ho). pose proof (k_wiring _ _ _ _ _ _ H) as Hw.
  destruct (k_link _ _ _ _ (w_links _ _ _ _ _ Hw) _ _ Hjo) as (_ & _ & [[Hod _]|(e & -> & _)]);
    [|by rewrite (entry_inst _ _ _ _ _ e Hw) in Ho].
  apply elem_of_all_conns in Hod as (b' & Hb' & Hob).
  destruct (d_conn _ _ _ _ (k_data _ _ _ _ _ _ H) _ _ Hb' Hob) as (h & ld & l & i & lc & p & Hh & _ & _ & _ & _ & _ & Hp & Hpl).
  assert (p = Part b c k) as -> by (unfold inst_of in Ho; rewrite Hh in Ho; simpl in Ho; congruence).
  destruct o as [|bo jo|no| | | | |]; try done; simpl in Hpl; [|by destruct Hpl].
  destruct Hpl as (-> & _ & i1 & [= -> _ _] & _). rewrite Hnil in Hob. by apply not_elem_of_nil in Hob.
Qed.

Lemma wire_step s root B C L b l c k m lc v : core_ok loaders s root B C L -> b ∈ B -> C b = [] -> table_of loaders s b = Some l ->
  ld_conns l !! c = Some lc -> l_type lc = true -> 0 <= k < l_count lc ->
  mem s !! (Connect, Inner b m) = Some None -> is_Some (mem s !! (RevNext, Inner b m)) -> mem s !! (RevChain, Part b c k) = Some v ->
  core_ok loaders (wired s b c k m v) root B C L.
Proof.
  intros H Hb Hnil Hl Hc Ht Hk Hcon Hrn Hv. set (q := Part b c k) in *. pose proof (no_sources _ _ _ _ _ _ c k H Hnil) as Hno. fold q in Hno.
  destruct (k_wiring _ _ _ _ _ _ H) as [Hw Hr He]. assert (outputs loaders s B C q) as Hq.
  { left. exists b, l, c, lc, k. done. }
  assert (forall x l, inner_of (mem s) x l -> Inner b m ∉ l) as Hfresh.
  { intros x lx [_ Hx] Hin. destruct (Hx _ Hin) as [Hcx _]. congruence. }
  assert (forall f o, f = First \/ f = Chain -> mem (wired s b c k m v) !! (f, o) = mem s !! (f, o)) as Hfc.
  { intros f o [-> | ->]; unfold wired; simpl; by rewrite !lookup_insert_ne. }
  eapply core_rewired; [exact H| |split; [by eapply links_same| |exact He]].
  { unfold wired. repeat (apply rewired_put; [|simpl; rewrite ?lookup_insert_ne by done; eauto|exact I]). apply rewired_refl. }
  assert (forall x, rev_sources (wired s b c k m v) L x = rev_sources s L x) as Hrs by (intros; by apply rev_sources_ext).
  split.
  - intros i Hi Hii. destruct (r_in _ _ _ _ _ Hr i Hi Hii) as (p & Hp & Hpn & Hpc & Hpr). exists p. split; [done|]. split; [done|].
    assert (p <> Inner b m) by apply Hpn. split.
    + unfold wired. simpl. rewrite !lookup_insert_ne by congruence. exact Hpc.
    + unfold wired. simpl. rewrite !lookup_insert_ne by congruence. done.
  - apply (r_inst _ _ _ _ _ Hr).
  - intros x Hx. destruct (r_out _ _ _ _ _ Hr x Hx) as (lx & Hlx & Hs). rewrite Hrs. pose proof (Hfresh _ _ Hlx) as Hnin.
    pose proof (rev_sources_not_inner _ _ _ _ _ x b m Hw Hr) as Hni.
    destruct (decide (x = q)) as [->|Hxq].
    + exists (Inner b m :: lx). rewrite Hno in Hs |- *. simpl in Hs. destruct Hlx as [Hl1 Hl2]. split.
      * split; [by apply NoDup_cons|]. intros y [->|Hy]%elem_of_cons.
        -- unfold wired. simpl. rewrite !lookup_insert_ne by done. rewrite lookup_insert, decide_True by done. split; [done|]. by exists m.
        -- destruct (Hl2 y Hy) as [Hyc Hyk]. split; [|done]. unfold wired. simpl. rewrite !lookup_insert_ne; [done| |done|done].
           intros [= <-]. done.
      * unfold wired. pose proof (seg_head _ _ _ _ Hs) as Hhd. fold q in Hhd. rewrite Hv in Hhd. injection Hhd as ->.
        apply seg_cons; [|done|done|done]. simpl. apply seg_insert_ne; [exact Hs|done|done].
    + exists lx. destruct Hlx as [Hl1 Hl2]. split.
      * split; [done|]. intros y Hy. destruct (Hl2 y Hy) as [Hyc Hyk]. split; [|done]. unfold wired. simpl.
        rewrite !lookup_insert_ne; [done| |done|done]. intros [= <-]. done.
      * unfold wired. fold q. simpl. apply seg_insert_ne; [|intros [= E]; by rewrite E in Hxq|done]. apply seg_insert_ne; [|done|].
        -- by apply seg_insert_ne.
        -- intros y Hy [= <-]. apply elem_of_app in Hy as [Hy|Hy]; done.
  - apply (r_inj _ _ _ _ _ Hr).
Qed.

(** Only wires have changed. *)
Definition wires_only s s' (b : nat) : Prop :=
  (exists m, s' = s <| mem := m |>) /\
  forall c, c.1 <> RevChain -> (forall k, c.2 <> Inner b k) -> mem s' !! c = mem s !! c.

Lemma wire_loop_run s root B C L b l ws m : core_ok loaders s root B C L -> b ∈ B -> C b = [] -> table_of loaders s b = Some l ->
  (forall c k, (c, k) ∈ ws -> (c, k) ∈ ld_wires l) ->
  (forall j, (j < length ws)%nat -> mem s !! (Connect, Inner b (m + j)) = Some None /\ is_Some (mem s !! (RevNext, Inner b (m + j)))) ->
  exists s', wire_loop b ws m s = Ok (tt, s') /\ core_ok loaders s' root B C L /\ wires_only s s' b.
Proof.
  revert s m. induction ws as [|[c k] ws IH]; intros s m H Hb Hnil Hl Hws Hm.
  - exists s. split; [done|]. split; [done|]. split; [by exists (mem s); destruct s|done].
  - cbn [wire_loop]. destruct (table_loader _ _ _ _ Hl) as (_ & ld & _ & _ & Hll). pose proof (loaders_elem _ _ _ Hloaders Hll) as Hok.
    destruct (lo_wire _ Hok c k) as (lc & Hc & Ht & Hk); [apply Hws; by left|].
    destruct (Hm 0%nat) as [Hcon [w Hrn]]; [simpl; lia|]. rewrite Nat.add_0_r in Hcon, Hrn.
    assert (outputs loaders s B C (Part b c k)) as Hq by (left; exists b, l, c, lc, k; done).
    destruct (r_out _ _ _ _ _ (w_revs _ _ _ _ _ (k_wiring _ _ _ _ _ _ H)) _ Hq) as (lx & _ & Hs). apply seg_head in Hs.
    set (v := head (rev_sources s L (Part b c k) ++ lx)) in *.
    erewrite bind_ok by (apply write_ok; eauto). erewrite bind_ok by (apply read_ok; simpl; rewrite lookup_insert_ne by done; exact Hs).
    erewrite bind_ok by (apply write_ok; simpl; rewrite lookup_insert_ne by done; eauto).
    erewrite bind_ok by (apply write_ok; simpl; rewrite !lookup_insert_ne by done; eauto).
    fold (wired s b c k m v).
    destruct (IH (wired s b c k m v) (S m)) as (s' & Hrun & H' & Ho1 & Ho2); [by eapply wire_step|done|done|done| | |].
    + intros c' k' Hin. apply Hws. by right.
    + intros j Hj. destruct (Hm (S j)) as [H1 H2]; [simpl; lia|]. rewrite Nat.add_succ_comm. unfold wired. simpl.
      rewrite !lookup_insert_ne by (done || intros [= ?]; lia). done.
    + exists s'. split; [exact Hrun|]. split; [done|]. split.
      * destruct Ho1 as [m' ->]. by exists m'.
      * intros c' Hc1 Hc2. rewrite Ho2 by done. unfold wired. simpl. specialize (Hc2 m). destruct c' as [f x]. simpl in *.
        rewrite !lookup_insert_ne by congruence. done.
Qed.

(** ** Connectors of the static arrays *)

Lemma strings_blank s s' root B C b o : strings_ok s root B C -> (forall x, x <> o -> param_of s' x = param_of s x) ->
  param_of s' o = None -> bricks s' = bricks s -> strings s' = strings s -> strings_ok s' root B (add_conn C b o).
Proof.
  intros [H1 H2 H3 H4 H5] Hpar Hnone Hbr Hstr.
  assert (forall x, brick_param s' x = brick_param s x) as Hbp by (intros x; unfold brick_param; by rewrite Hbr).
  assert (forall q, on_heap s' q <-> on_heap s q) as Hh by (intros q; unfold on_heap; by rewrite Hstr).
  assert (forall x y q, y ∈ add_conn C b o x -> param_of s' y = Some q -> y ∈ C x /\ param_of s y = Some q) as Hin.
  { intros x y q Hy Hq. destruct (decide (y = o)) as [->|Hyo]; [congruence|]. rewrite Hpar in Hq by done.
    apply elem_of_add_conn in Hy as [Hy|[_ ?]]; done. }
  split.
  - intros x Hx Hr. rewrite Hbp. setoid_rewrite Hh. by apply H1.
  - intros x y q Hx Hr Hy Hq. destruct (Hin _ _ _ Hy Hq). apply Hh. by apply (H2 x y).
  - intros x y ????. rewrite !Hbp. by apply H3.
  - intros x1 x2 y1 y2 q Hx1 Hx2 Hr1 Hr2 Hy1 Hy2 Hq1 Hq2. destruct (Hin _ _ _ Hy1 Hq1), (Hin _ _ _ Hy2 Hq2). by apply (H4 x1 x2 y1 y2 q).
  - intros x1 x2 y Hx1 Hx2 Hr1 Hr2 Hy [q Hq]. destruct (Hin _ _ _ Hy Hq) as [Hy' Hq']. rewrite Hq, Hbp, <- Hq'. apply (H5 x1 x2); eauto.
Qed.

(** Only the lists of connectors have changed. *)
Record slid s s' : Prop := {
  sl_bricks : bricks s' = bricks s;
  sl_dir : main_dir s' = main_dir s;
  sl_mem c : c.1 ∉ list_fields -> mem s' !! c = mem s !! c
}.

Lemma slid_trans s1 s2 s3 : slid s1 s2 -> slid s2 s3 -> slid s1 s3.
Proof. intros [H1 H2 H3] [G1 G2 G3]. split; [congruence..|]. intros c Hc. by rewrite G3, H3. Qed.

(** [create_conn] and [insert_conn] for a connector of a static array *)
Lemma static_conn s root B C L b l ld i lc k : core_ok loaders s root B C L -> b ∈ B -> loader_of_brick s b = Some ld ->
  loaders !! ld = Some l -> ld_conns l !! i = Some lc -> 0 <= k < l_count lc ->
  let o := Slot b (l_start_index lc + Z.to_nat k) in
  o ∉ C b ->
  (l_type lc = false -> mem s !! (Connect, Part b i k) = Some None /\ is_Some (mem s !! (RevNext, Part b i k))) ->
  exists s1 h, create_conn loaders code grants b o ld i k s = Ok (tt, s1) /\ headers s1 !! o = Some h /\ c_param h = None /\
    conns_ok s1 B C /\
    let s' := put_cell (Last, Brick b) (Some o) (put_cell (tail_cell b (C b)) (Some o) s1) in
    core_ok loaders s' root B (add_conn C b o) L /\ slid s s'.
Proof.
  intros H Hb Hld Hl Hi Hk o Hno Hin. pose proof (loaders_elem _ _ _ Hloaders Hl) as Hok. destruct (lo_conn _ Hok _ _ Hi) as (_ & _ & Hrange & _).
  assert (table_of loaders s b = Some l) as Htab by (unfold table_of; by rewrite Hld).
  assert (lc_at loaders (ld, i) = Some lc) as Hlc by (unfold lc_at; simpl; by rewrite Hl).
  destruct (d_slot _ _ _ _ (k_data _ _ _ _ _ _ H) b l (l_start_index lc + Z.to_nat k) Hb Htab) as (h & Hh & Hz); [lia|].
  destruct (Hz Hno) as ((Hbel & Hinst & Hcp & Hlch) & _ & Hf & Hc & Hn). fold o in Hh, Hf, Hc, Hn.
  destruct (create_conn_run loaders code grants Hgrants s b o ld i lc k h Hh Hlc) as (s1 & h' & Hrun & Hcr & Hix).
  pose proof Hcr as [C1 C2 C3 C4 C5 C6 C7 C8 C9 C10 C11 C12].
  assert ((l_count lc =? 0) = false) as Hz0 by lia. rewrite Hz0 in C11, C12.
  assert (conns_ok s1 B C) as Hconns by (eapply conns_keep; [apply (k_conns _ _ _ _ _ _ H)|]; intros c _; by rewrite C11).
  exists s1, h'. split; [done|]. split; [done|]. split; [congruence|]. split; [done|]. intros s'.
  pose proof (k_old _ _ _ _ _ _ H) as Hold. split.
  - eapply (core_created loaders code grants Hloaders Hgrants Hinit) with (s0 := s) (s := s) (s1 := s1); [exact H|done|done|exact Hl|exact Hi| | |done|done|done|done|done|exact Hcr|done|done|done|done| |].
    + rewrite Hix. split; [|split; [done|]; split; [done|]; split; [done|]].
      * intros (b' & Hb' & Hob)%elem_of_all_conns. apply Hno.
        assert (b' = b) as -> by (by eapply slot_owner; [apply (k_data _ _ _ _ _ _ H)|..]). done.
      * split; [done|]. split; [lia|]. split; [done|]. split; [lia|done].
    + rewrite Hix. intros Ht _. by apply Hin.
    + eapply strings_blank with (s := s) (o := o); [apply (k_strings _ _ _ _ _ _ H)| | |done|done].
      * intros x Hx. unfold param_of. change (headers s') with (headers s1). by rewrite C6.
      * unfold param_of. change (headers s') with (headers s1). rewrite C1. simpl. congruence.
    + eapply old_keep; [exact Hold|change (allocs s') with (allocs s1); rewrite C12; lia| | | |].
      * change (mem s') with (<[(Last, Brick b) := Some o]> (<[tail_cell b (C b) := Some o]> (mem s1))).
        change (allocs s') with (allocs s1). apply insert_old; [done| | |].
        -- intros x Hx. left. by rewrite C11 in Hx.
        -- eexists. exact (c_last _ _ _ Hconns b Hb).
        -- exact (tail_cell_some _ _ _ _ Hconns Hb).
      * intros x Hx. change (headers s') with (headers s1) in Hx. left. destruct (decide (x = o)) as [->|Hxo]; [eauto|]. by rewrite C6 in Hx.
      * intros x Hx. change (bricks s') with (bricks s1) in Hx. rewrite C7 in Hx. by left.
      * intros x Hx. change (strings s') with (strings s1) in Hx. rewrite C8 in Hx. by left.
  - split; [exact C7|exact C9|]. intros [f x] Hfx. simpl in Hfx.
    change (mem s') with (<[(Last, Brick b) := Some o]> (<[tail_cell b (C b) := Some o]> (mem s1))). rewrite C11.
    assert (f <> Last /\ f <> ConnNext /\ f <> Connectors) as (? & ? & ?) by (clear -Hfx; unfold list_fields in Hfx; set_solver).
    rewrite lookup_insert_ne by congruence. rewrite lookup_insert_ne; [done|].
    destruct (tail_cell_cases b (C b)) as [->|(y & _ & ->)]; congruence.
Qed.

(** The connectors made before connector [k] of array [i] *)
Definition made b (l : loader_t) (i : nat) (k : Z) (o : obj) : Prop :=
  exists j lc k', ld_conns l !! j = Some lc /\ l_type lc = false /\ l_export lc = true /\ 0 <= k' < l_count lc /\
    ((j < i)%nat \/ j = i /\ k' < k) /\ o = Slot b (l_start_index lc + Z.to_nat k').

Definition inputs_blank s (b : nat) (l : loader_t) : Prop := forall j lc k, ld_conns l !! j = Some lc -> l_type lc = false -> 0 <= k < l_count lc ->
  mem s !! (Connect, Part b j k) = Some None /\ is_Some (mem s !! (RevNext, Part b j k)).

(** In the middle of creating the connectors of a brick *)
Record making s root B C L (b ld : nat) (l : loader_t) (i : nat) (k : Z) : Prop := {
  mk_core : core_ok loaders s root B C L;
  mk_brick : b ∈ B;
  mk_loader : loader_of_brick s b = Some ld;
  mk_table : loaders !! ld = Some l;
  mk_made o : o ∈ C b <-> made b l i k o;
  mk_blank : inputs_blank s b l
}.

Lemma made_fresh b l i k lc : loader_ok l -> ld_conns l !! i = Some lc -> 0 <= k < l_count lc ->
  ~ made b l i k (Slot b (l_start_index lc + Z.to_nat k)).
Proof.
  intros Hok Hi Hk (j & lc' & k' & Hj & _ & _ & Hk' & Hlt & [= Heq]).
  destruct (lo_disjoint _ Hok _ _ _ _ _ _ Hi Hj Hk Hk' Heq). lia.
Qed.

Lemma elem_loop_run s root B C L b ld l i lc n k : making s root B C L b ld l i k -> ld_conns l !! i = Some lc ->
  l_type lc = false -> l_export lc = true -> 0 <= k -> k + Z.of_nat n <= l_count lc ->
  exists s' C', elem_loop loaders code grants b ld i (l_start_index lc) n k s = Ok (tt, s') /\
    making s' root B C' L b ld l i (k + Z.of_nat n) /\ slid s s' /\ forall x, x <> b -> C' x = C x.
Proof.
  intros H Hi Ht He. revert s C k H. induction n as [|n IH]; intros s C k H Hk Hn.
  - exists s, C. rewrite Z.add_0_r. done.
  - cbn [elem_loop]. destruct H as [Hcore Hb Hld Hl Hmade Hblank]. pose proof (loaders_elem _ _ _ Hloaders Hl) as Hok.
    assert (0 <= k < l_count lc) as Hk' by lia. set (o := Slot b (l_start_index lc + Z.to_nat k)).
    destruct (static_conn s root B C L b l ld i lc k Hcore Hb Hld Hl Hi Hk') as (s1 & h & Hrun & Hh & _ & Hconns & Hcore' & Hslid).
    { rewrite Hmade. by apply made_fresh. }
    { intros _. by apply (Hblank i lc). }
    fold o in Hrun, Hcore', Hslid. rewrite (bind_ok _ _ _ _ _ Hrun), (bind_ok _ _ _ _ _ (insert_conn_run _ _ _ _ o Hconns Hb)).
    set (s2 := put_cell (Last, Brick b) (Some o) (put_cell (tail_cell b (C b)) (Some o) s1)) in *.
    destruct (IH s2 (add_conn C b o) (k + 1)) as (s' & C' & Hrun' & Hmk & Hsl & HC'); [|lia..|].
    + split; [done|done| |done| |].
      * unfold loader_of_brick. by rewrite (sl_bricks _ _ Hslid).
      * intros x. rewrite elem_of_add_conn, Hmade. split.
        -- intros [(j & lc' & k' & E1 & E2 & E3 & E4 & E5 & E6)|[_ ->]].
           ++ exists j, lc', k'. split_and!; (done || lia).
           ++ exists i, lc, k. split_and!; (done || lia).
        -- intros (j & lc' & k' & E1 & E2 & E3 & E4 & E5 & ->). destruct (decide (j = i /\ k' = k)) as [[-> ->]|Hne].
           ++ right. assert (lc' = lc) as -> by congruence. done.
           ++ left. exists j, lc', k'. assert (j = i -> k' <> k) by (intros -> ->; by apply Hne). split_and!; (done || lia).
      * intros j lc' k' E1 E2 E3. rewrite !(sl_mem _ _ Hslid) by (apply (bool_decide_unpack _); exact I). by apply (Hblank j lc').
    + exists s', C'. replace (k + Z.of_nat (S n)) with (k + 1 + Z.of_nat n) by lia. split; [exact Hrun'|]. split; [done|]. split; [by eapply slid_trans|].
      intros x Hx. rewrite HC' by done. by apply add_conn_other.
Qed.

Lemma static_loop_run s root B C L b ld l lcs i : making s root B C L b ld l i 0 -> ld_conns l = take i (ld_conns l) ++ lcs -> (i <= length (ld_conns l))%nat ->
  exists s' C', static_loop loaders code grants b ld lcs i s = Ok (tt, s') /\
    making s' root B C' L b ld l (length (ld_conns l)) 0 /\ slid s s' /\ forall x, x <> b -> C' x = C x.
Proof.
  revert s C i. induction lcs as [|lc lcs IH]; intros s C i H Hl Hi.
  - exists s, C. split; [done|]. split; [|done]. rewrite app_nil_r in Hl. assert (i = length (ld_conns l)) as <-; [|done].
    apply (f_equal length) in Hl. rewrite length_take in Hl. lia.
  - cbn [static_loop]. assert (ld_conns l !! i = Some lc) as Hlc.
    { rewrite Hl. rewrite lookup_app_r by (rewrite length_take; lia). rewrite length_take. by replace (i - i `min` length (ld_conns l))%nat with 0%nat by lia. }
    assert (ld_conns l = take (S i) (ld_conns l) ++ lcs) as Hl'.
    { rewrite (take_S_r _ _ _ Hlc), <- app_assoc. done. }
    assert (S i <= length (ld_conns l))%nat as Hi' by (by apply lookup_lt_Some in Hlc).
    pose proof (loaders_elem _ _ _ Hloaders (mk_table _ _ _ _ _ _ _ _ _ _ H)) as Hok. destruct (lo_conn _ Hok _ _ Hlc) as (_ & Hcnt & _).
    assert (exists s1 C1, (if negb (l_type lc) && l_export lc
        then elem_loop loaders code grants b ld i (l_start_index lc) (Z.to_nat (l_count lc)) 0 else mret tt) s = Ok (tt, s1) /\
        making s1 root B C1 L b ld l (S i) 0 /\ slid s s1 /\ forall x, x <> b -> C1 x = C x) as (s1 & C1 & Hrun & Hmk & Hsl & HC).
    { destruct (negb (l_type lc) && l_export lc) eqn:Hte.
      - apply andb_prop in Hte as [Ht%negb_true_iff He].
        destruct (elem_loop_run s root B C L b ld l i lc (Z.to_nat (l_count lc)) 0 H Hlc Ht He) as (s1 & C1 & Hrun & [M1 M2 M3 M4 M5 M6] & Hsl & HC); [lia..|].
        exists s1, C1. split; [done|]. split; [|done]. split; try done. intros x. rewrite M5. split.
        + intros (j & lc' & k' & E1 & E2 & E3 & E4 & E5 & E6). exists j, lc', k'. split_and!; (done || lia).
        + intros (j & lc' & k' & E1 & E2 & E3 & E4 & E5 & E6). exists j, lc', k'. assert (j = i -> lc' = lc) by (intros ->; congruence).
          destruct (decide (j = i)) as [->|]; [assert (lc' = lc) as -> by auto|]; split_and!; (done || lia).
      - exists s, C. split; [done|]. split; [|done]. destruct H as [M1 M2 M3 M4 M5 M6]. split; try done. intros x. rewrite M5. split.
        + intros (j & lc' & k' & E1 & E2 & E3 & E4 & E5 & E6). exists j, lc', k'. split_and!; (done || lia).
        + intros (j & lc' & k' & E1 & E2 & E3 & E4 & E5 & E6). exists j, lc', k'. destruct (decide (j = i)) as [->|]; [|split_and!; (done || lia)].
          exfalso. assert (lc' = lc) as -> by congruence. by rewrite E2, E3 in Hte. }
    rewrite (bind_ok _ _ _ _ _ Hrun). destruct (IH s1 C1 (S i) Hmk Hl' Hi') as (s' & C' & Hrun' & Hmk' & Hsl' & HC').
    exists s', C'. split; [done|]. split; [done|]. split; [by eapply slid_trans|]. intros x Hx. by rewrite HC', HC.
Qed.

(** ** [new_brick] *)

Lemma slots_in b l (m : gmap obj connector_header) j : j ∈ l -> foldr (fun i => <[Slot b i := zero_header]>) m l !! Slot b j = Some zero_header.
Proof.
  induction l as [|x l IH]; intros Hj; [by apply not_elem_of_nil in Hj|]. cbn [foldr].
  destruct (decide (x = j)) as [->|Hne]; [by rewrite lookup_insert, decide_True|]. rewrite lookup_insert_ne by congruence.
  apply IH. by apply elem_of_cons in Hj as [->|Hj].
Qed.

Lemma slots_out b l (m : gmap obj connector_header) o : (forall j, o = Slot b j -> j ∉ l) ->
  foldr (fun i => <[Slot b i := zero_header]>) m l !! o = m !! o.
Proof.
  induction l as [|x l IH]; intros Hj; [done|]. cbn [foldr]. rewrite lookup_insert_ne.
  - apply IH. intros j ->. specialize (Hj j eq_refl). by apply not_elem_of_cons in Hj as [_ Hj].
  - intros <-. specialize (Hj x eq_refl). apply Hj. by left.
Qed.

Definition loader_named (nm : text) : option nat := fst <$> list_find (fun l => body (ld_name l) = body nm) loaders.

Lemma find_loader_loop_ok nm ls k : terminated nm = true -> Forall loader_ok ls ->
  find_loader_loop nm ls k = Ok ((fun x => (x.1 + k)%nat) <$> list_find (fun l => body (ld_name l) = body nm) ls).
Proof.
  intros Hnm Hls. revert k. induction Hls as [|l ls Hl Hls IH]; intros k; [done|]. cbn [find_loader_loop list_find].
  destruct (strcmp_equal (ld_name l) nm (lo_name _ Hl) Hnm) as (r & -> & Hr). cbn [mbind cres_bind]. case_decide as Hd.
  - by rewrite (proj2 (Z.eqb_eq _ _) (proj2 Hr Hd)).
  - rewrite (proj2 (Z.eqb_neq _ _)) by tauto. rewrite IH. f_equal. destruct (list_find _ ls) as [[n x]|]; [|done]. simpl. f_equal. lia.
Qed.

Lemma find_loader_ok nm : terminated nm = true -> find_loader loaders nm = Ok (loader_named nm).
Proof.
  intros Hnm. unfold find_loader, loader_named. rewrite find_loader_loop_ok by done. f_equal.
  destruct (list_find _ loaders) as [[n l]|]; [|done]. simpl. f_equal. lia.
Qed.

Lemma loader_named_some nm ld : loader_named nm = Some ld -> is_Some (loaders !! ld).
Proof.
  unfold loader_named. destruct (list_find _ loaders) as [[n l]|] eqn:Hf; [|done]. intros [= <-].
  apply list_find_Some in Hf as (Hl & _). eauto.
Qed.

Lemma set_brick_ok s b h h' : bricks s !! b = Some h -> set_brick b h' s = Ok (tt, s <| bricks := <[b := h']> (bricks s) |>).
Proof. intros H. unfold set_brick. by rewrite (bind_ok _ _ _ _ _ (brick_at_ok _ _ _ H)). Qed.

Lemma alloc_made s b p ld l t w : b = allocs s -> p = S b ->
  let s1 := alloc_brick b l (s <| allocs := S b |>) <| allocs := S p |> in
  brick_made s (s1 <| strings := <[p := (true, t)]> (strings s1) |>
    <| bricks := <[b := {| addr := 0; b_param := Some p; b_loader := Some ld |}]> (<[b := {| addr := 0; b_param := Some p; b_loader := None |}]> (bricks s1)) |>
    <| world_ := w |>) b p ld l.
Proof.
  intros Hb Hp s1. split; simpl; try done.
  - intros j Hj. apply slots_in, elem_of_seq. lia.
  - intros o Ho. apply slots_out. intros j -> Hj%elem_of_seq. specialize (Ho j eq_refl). lia.
  - by rewrite lookup_insert, decide_True.
  - intros x Hx. by rewrite !lookup_insert_ne.
  - by exists t.
Qed.

(** What [new_brick] leaves behind: a brick that is not in the hash table yet *)
Record brick_new s s' root B C L (b ld : nat) C' : Prop := {
  bn_table : exists l, loaders !! ld = Some l /\ making s' root (b :: B) C' L b ld l (length (ld_conns l)) 0;
  bn_conns x : x <> b -> C' x = C x;
  bn_brick : bricks s' !! b = Some {| addr := 0; b_param := Some (S b); b_loader := Some ld |};
  bn_other x : x <> b -> bricks s' !! x = bricks s !! x;
  bn_hash : keeps [HashNext] (mem s) (mem s') /\ mem s' !! (HashNext, Brick b) = Some None;
  bn_old : b = allocs s;
  bn_dir : main_dir s' = main_dir s
}.

Lemma create_brick_run s s1 root B C L b p ld l t mand : core_ok loaders s root B C L -> loaders !! ld = Some l ->
  (forall w, brick_made s (s1 <| bricks := <[b := {| addr := 0; b_param := Some p; b_loader := Some ld |}]> (bricks s1) |> <| world_ := w |>) b p ld l) ->
  bricks s1 !! b = Some {| addr := 0; b_param := Some p; b_loader := None |} ->
  exists mand' s' C', create_brick loaders code grants b ld t mand s1 = Ok (mand', s') /\ brick_new s s' root B C L b ld C'.
Proof.
  intros H Hl Hmade Hbr. unfold create_brick. rewrite (bind_ok _ _ _ _ _ (brick_at_ok _ _ _ Hbr)), (bind_ok _ _ _ _ _ (set_brick_ok _ _ _ _ Hbr)).
  erewrite bind_ok by done. rewrite (bind_ok _ _ _ _ _ (the_ok _ _ _ Hl)). simpl.
  set (w := (dynamic_init code ld b t mand (world_ s1)).2) in *. set (s2 := s1 <| bricks := _ |> <| world_ := w |>).
  specialize (Hmade w). change (brick_made s s2 b p ld l) in Hmade. pose proof (made_core _ _ _ _ _ _ _ _ _ _ H Hl Hmade) as H2.
  destruct Hmade as [M1 M2 M3 M4 M5 M6 M7 M8 M9 M10].
  assert (forall c, c ∈ brick_cells b l -> mem s2 !! c = Some None) as Hnew by (intros c Hin; rewrite M1, lookup_alloc; by rewrite decide_True).
  assert (loader_of_brick s2 b = Some ld) as Hld by (unfold loader_of_brick; by rewrite M4).
  assert (table_of loaders s2 b = Some l) as Htab by (unfold table_of; by rewrite Hld).
  destruct (wire_loop_run s2 root (b :: B) (no_conns C b) L b l (ld_wires l) 0 H2) as (s3 & Hrun3 & H3 & Hw1 & Hw2);
    [by left|by apply no_conns_same|done|done| |].
  { intros j Hj. split; [|eexists]; apply Hnew, elem_of_brick_cells; right; right; right; exists j; split; try done; simpl; set_solver. }
  rewrite (bind_ok _ _ _ _ _ Hrun3). assert (bricks s3 = bricks s2 /\ main_dir s3 = main_dir s2) as [Hb3 Hd3] by by destruct Hw1 as [m ->].
  destruct (static_loop_run s3 root (b :: B) (no_conns C b) L b ld l (ld_conns l) 0) as (s4 & C' & Hrun4 & Hmk & Hsl & HC'); [|done|lia|].
  { split; [done|by left|by unfold loader_of_brick; rewrite Hb3|done| |].
    - intros o. rewrite no_conns_same. split; [by intros ?%not_elem_of_nil|]. intros (j & lc & k & _ & _ & _ & Hk & [?|[_ ?]] & _); lia.
    - intros j lc k Hj Ht Hk. rewrite !Hw2 by done. split; [|eexists]; apply Hnew, elem_of_brick_cells; right; right; left; exists j, lc, k;
        rewrite Ht; split_and!; try done; simpl; set_solver. }
  rewrite (bind_ok _ _ _ _ _ Hrun4). eexists _, s4, C'. split; [done|].
  assert (bricks s4 = bricks s2) as Hb4 by by rewrite (sl_bricks _ _ Hsl).
  assert (forall c, c.1 = HashNext -> (forall k, c.2 <> Inner b k) -> mem s4 !! c = mem s2 !! c) as Hm4.
  { intros [f x] Hf Hx. simpl in Hf. subst f. rewrite (sl_mem _ _ Hsl) by (apply (bool_decide_unpack _); exact I). by apply Hw2. }
  split.
  - by exists l.
  - intros x Hx. rewrite HC' by done. by apply no_conns_other.
  - rewrite Hb4, M4, M9. done.
  - intros x Hx. by rewrite Hb4, M5.
  - split.
    + intros [f x] Hf Hs. simpl in Hf. apply list_elem_of_singleton in Hf as ->.
      assert (~ of_brick b x) as Hno.
      { intros Hx. destruct (old_fresh _ x (k_old _ _ _ _ _ _ H)) as [Hm _]; [by rewrite <- M8|]. rewrite Hm in Hs. by destruct Hs. }
      rewrite Hm4; [|done|by intros k Hk; simpl in Hk; subst x; apply Hno]. rewrite M1, lookup_alloc. rewrite decide_False; [done|]. intros Hin. apply Hno. by apply brick_cells_of in Hin.
    + rewrite Hm4 by done. apply Hnew, elem_of_brick_cells. left. by left.
  - done.
  - rewrite (sl_dir _ _ Hsl). congruence.
Qed.

Lemma new_brick_run s root B C L nm param mand : core_ok loaders s root B C L -> terminated nm = true -> terminated param = true ->
  match loader_named nm with
  | None => new_brick loaders code grants nm param mand s = Ok ((None, mand), s)
  | Some ld => exists mand' s' C', new_brick loaders code grants nm param mand s = Ok ((Some (allocs s), mand'), s') /\
      brick_new s s' root B C L (allocs s) ld C'
  end.
Proof.
  intros H Hnm Hpar. unfold new_brick. erewrite bind_ok by (apply lift_ok; by apply find_loader_ok).
  destruct (loader_named nm) as [ld|] eqn:Hld; [|done]. apply loader_named_some in Hld as [l Hl].
  rewrite (bind_ok _ _ _ _ _ (the_ok _ _ _ Hl)), (bind_ok _ _ _ _ _ (malloc_ok _ Hgrants s)). cbv iota. erewrite bind_ok by done.
  destruct (strlen_terminated _ Hpar) as [n Hn]. erewrite bind_ok by (by apply lift_ok). erewrite bind_ok by done.
  rewrite (bind_ok _ _ _ _ _ (malloc_ok _ Hgrants _)). cbv iota zeta. erewrite bind_ok by done.
  set (b := allocs s). set (t := body param ++ _). set (p := allocs _).
  erewrite bind_ok by (apply brick_at_ok; simpl; by rewrite lookup_insert, decide_True).
  erewrite bind_ok by (eapply set_brick_ok; simpl; by rewrite lookup_insert, decide_True).
  set (s1 := _ <| bricks := _ |>).
  destruct (create_brick_run s s1 root B C L b p ld l t mand H Hl) as (mand' & s' & C' & Hrun & Hnew).
  - intros w. apply (alloc_made s b p ld l t w); done.
  - simpl. by rewrite lookup_insert, decide_True.
  - rewrite (bind_ok _ _ _ _ _ Hrun). exists mand', s', C'. done.
Qed.

(** ** The hash table *)

(** What the invariant is about *)
Record same_data s s' : Prop := {
  sd_mem : mem s' = mem s;
  sd_headers : headers s' = headers s;
  sd_bricks : bricks s' = bricks s;
  sd_strings : strings s' = strings s;
  sd_dir : main_dir s' = main_dir s;
  sd_allocs : allocs s' = allocs s
}.

Lemma old_same s s' : old_ok s -> same_data s s' -> old_ok s'.
Proof. intros [H1 H2 H3 H4] [G1 G2 G3 G4 G5 G6]. split; rewrite ?G1, ?G2, ?G3, ?G4, ?G6; done. Qed.

Lemma control_world s s' root B C L : control_ok loaders s root B C L -> same_data s s' -> control_ok loaders s' root B C L.
Proof.
  intros H Hsd. pose proof Hsd as [G1 G2 G3 G4 G5 G6]. pose proof (k_core _ _ _ _ _ _ H) as Hc. eapply control_weak; [exact H| | | | |].
  - split; rewrite ?G1, ?G2; [done|done|eauto|congruence].
  - unfold dir_ok. rewrite G5. apply (k_dir _ _ _ _ _ _ Hc).
  - intros b l j Hb Hl Hj Hn. rewrite G2. by eapply slots_are_blank.
  - eapply strings_same; [apply (k_strings _ _ _ _ _ _ Hc)| |done|done]. intros o. unfold param_of. by rewrite G2.
  - by eapply old_same; [apply (k_old _ _ _ _ _ _ Hc)|].
Qed.

Lemma hash_insert s s' B b a m0 v : hash_ok s B -> b ∉ B -> NoDup B -> a <> 0 -> (forall x, x ∈ B -> addr_of s x <> Some a) ->
  (forall x, x ∈ B -> addr_of s' x = addr_of s x) -> addr_of s' b = Some a ->
  keeps [HashNext] (mem s) m0 -> mem s !! bucket a = Some v ->
  mem s' = <[bucket a := Some (Brick b)]> (<[(HashNext, Brick b) := v]> m0) -> hash_ok s' (b :: B).
Proof.
  intros [H1 H2 H3] Hb Hnd Ha Hfree Hsame Hba Hkeep Hv Hm.
  assert (forall k, filter (in_bucket s' k) B = filter (in_bucket s k) B) as Hfil.
  { intros k. clear -Hsame. induction B as [|x B IH]; [done|]. rewrite !filter_cons, IH by (intros; apply Hsame; by right).
    assert (in_bucket s' k x <-> in_bucket s k x) as Hx by (unfold in_bucket; by rewrite Hsame by by left).
    repeat case_decide; tauto || done. }
  assert (forall k, (k < Z.to_nat BRICK_HASH_MAX)%nat -> seg m0 (HashNext, Bucket k) HashNext (Brick <$> filter (in_bucket s k) B)) as Hseg.
  { intros k Hk. eapply seg_keep; [by apply H3|]. intros [f x] Hf. apply Hkeep. simpl in *. destruct Hf as [->| ->]; by left. }
  assert (forall k, Brick b ∉ Brick <$> filter (in_bucket s k) B) as Hnb.
  { intros k (x & [= <-] & [_ Hx]%list_elem_of_filter)%list_elem_of_fmap. done. }
  split.
  - intros x [->|Hx]%elem_of_cons; [rewrite Hba; congruence|]. rewrite Hsame by done. by apply H1.
  - intros x y [->|Hx]%elem_of_cons [->|Hy]%elem_of_cons; [done| | |].
    + rewrite Hba, Hsame by done. intros Heq. by destruct (Hfree y).
    + rewrite Hba, Hsame by done. intros Heq. by destruct (Hfree x).
    + rewrite !Hsame by done. by apply H2.
  - intros k Hk. rewrite Hm, filter_cons, Hfil. unfold bucket. fold (bucket_ix a). destruct (decide (in_bucket s' k b)) as [Hin|Hout].
    + assert (bucket_ix a = k) as -> by (unfold in_bucket in Hin; rewrite Hba in Hin; by injection Hin).
      pose proof (seg_head _ _ _ _ (H3 k Hk)) as Hhd.
      assert (v = head (Brick <$> filter (in_bucket s k) B)) as ->.
      { assert (bucket a = (HashNext, Bucket (bucket_ix a))) as E by done. unfold in_bucket in Hin. rewrite Hba in Hin. injection Hin as Hin.
        rewrite E, Hin in Hv. congruence. }
      rewrite fmap_cons. apply seg_cons; [by apply Hseg|done| |by apply Hnb].
      intros y (x & -> & _)%list_elem_of_fmap. done.
    + assert (bucket_ix a <> k) as Hne.
      { intros Heq. apply Hout. unfold in_bucket. rewrite Hba. simpl. by rewrite Heq. }
      apply seg_insert_ne; [apply seg_insert_ne; [by apply Hseg|done|]| |].
      * intros x Hx [= <-]. by eapply Hnb.
      * intros [= E]. done.
      * intros x (y & -> & _)%list_elem_of_fmap. done.
Qed.

(** A new address, and the cells of the hash table *)
Lemma core_hashed s s' root B C L : core_ok loaders s root B C L -> headers s' = headers s -> main_dir s' = main_dir s -> strings s' = strings s ->
  allocs s' = allocs s -> (forall c, c.1 <> HashNext -> mem s' !! c = mem s !! c) -> (forall c, is_Some (mem s' !! c) -> is_Some (mem s !! c)) ->
  (forall x, b_loader <$> bricks s' !! x = b_loader <$> bricks s !! x) -> (forall x, b_param <$> bricks s' !! x = b_param <$> bricks s !! x) ->
  core_ok loaders s' root B C L.
Proof.
  intros H Hh Hd Hs Ha Hm Hdom Hld Hp.
  assert (forall x, loader_of_brick s' x = loader_of_brick s x) as Hl.
  { intros x. unfold loader_of_brick. specialize (Hld x). destruct (bricks s' !! x), (bricks s !! x); try done. by injection Hld. }
  assert (forall x, brick_param s' x = brick_param s x) as Hbp.
  { intros x. unfold brick_param. specialize (Hp x). destruct (bricks s' !! x), (bricks s !! x); try done. by injection Hp. }
  eapply core_weak; [exact H| | | | |].
  - split; [intros; by apply Hm|done| |]; rewrite Hh; [eauto|congruence].
  - unfold dir_ok. rewrite Hd. apply (k_dir _ _ _ _ _ _ H).
  - intros b l j Hb Hlj Hj Hn. rewrite Hh. destruct (d_slot _ _ _ _ (k_data _ _ _ _ _ _ H) _ _ _ Hb Hlj Hj) as (h & Hhd & Hz).
    destruct (Hz Hn) as (? & ? & _). eauto.
  - destruct (k_strings _ _ _ _ _ _ H) as [H1 H2 H3 H4 H5].
    assert (forall o, param_of s' o = param_of s o) as Hpar by (intros o; unfold param_of; by rewrite Hh).
    assert (forall q, on_heap s' q <-> on_heap s q) as Hoh by (intros q; unfold on_heap; by rewrite Hs).
    split; repeat setoid_rewrite Hbp; repeat setoid_rewrite Hpar; repeat setoid_rewrite Hoh; done.
  - destruct (k_old _ _ _ _ _ _ H) as [H1 H2 H3 H4]. split; rewrite ?Ha, ?Hh, ?Hs; [intros; by apply H1, Hdom|done| |done].
    intros b Hb. apply H3. specialize (Hld b). by destruct (bricks s' !! b), (bricks s !! b).
Qed.

(** Everything but the place in the hash table *)
Record brick_ready s s' root B C L (b ld : nat) (l : loader_t) C' : Prop := {
  br_core : core_ok loaders s' root (b :: B) C' L;
  br_table : loaders !! ld = Some l;
  br_inputs o : made b l (length (ld_conns l)) 0 o -> o ∈ C' b;
  br_conns x : x <> b -> C' x = C x;
  br_brick : loader_of_brick s' b = Some ld;
  br_other x : x <> b -> bricks s' !! x = bricks s !! x;
  br_hash : keeps [HashNext] (mem s) (mem s') /\ mem s' !! (HashNext, Brick b) = Some None
}.

Lemma new_ready s s' root B C L b ld C' : brick_new s s' root B C L b ld C' -> exists l, brick_ready s s' root B C L b ld l C'.
Proof.
  intros [(l & Hl & [M1 M2 M3 M4 M5 M6]) H2 H3 H4 H5 H6 H7]. exists l. split; try done. intros o Ho. by apply M5.
Qed.

Lemma ready_same s s1 s2 root B C L b ld l C' : brick_ready s s1 root B C L b ld l C' -> same_data s1 s2 -> brick_ready s s2 root B C L b ld l C'.
Proof.
  intros [H1 H2 H3 H4 H5 H6 H7] [G1 G2 G3 G4 G5 G6]. split; rewrite ?G1, ?G3; try done.
  - eapply core_hashed; [exact H1|done..| | | |]; rewrite ?G1, ?G3; done.
  - unfold loader_of_brick in *. by rewrite G3.
Qed.

(** [brick->addr = a] *)
Lemma ready_addr s s1 root B C L b ld l C' bh a : brick_ready s s1 root B C L b ld l C' -> bricks s1 !! b = Some bh ->
  brick_ready s (s1 <| bricks := <[b := bh <| addr := a |>]> (bricks s1) |>) root B C L b ld l C'.
Proof.
  intros [H1 H2 H3 H4 H5 H6 H7] Hb. split; try done.
  - eapply core_hashed; [exact H1|done..| |]; intros x; simpl; (destruct (decide (x = b)) as [->|Hx];
      [rewrite lookup_insert, decide_True, Hb by done|rewrite lookup_insert_ne by done]); done.
  - unfold loader_of_brick in *. simpl. rewrite lookup_insert, decide_True by done. rewrite Hb in H5. done.
  - intros x Hx. simpl. rewrite lookup_insert_ne by done. by apply H6.
Qed.

(** [_insert_brick_hash(brick)] *)
Lemma insert_hash_run s s1 root B C L b ld l C' a : bricks_ok loaders s B -> b ∉ B -> hash_ok s B -> inputs_ok loaders s B C ->
  brick_ready s s1 root B C L b ld l C' -> addr_of s1 b = Some a -> a <> 0 -> brick_with s B a = None ->
  exists s2, insert_brick_hash b s1 = Ok (tt, s2) /\ control_ok loaders s2 root (b :: B) C' L /\ bricks s2 = bricks s1 /\ headers s2 = headers s1 /\
    world_ s2 = world_ s1.
Proof.
  intros Hbo HbB Hhash Hinp [M1 M3 M5 Hconns Hlb Hbo2 [Hk Hnx]] Hab Ha Hfree.
  destruct (bricks s1 !! b) as [bh|] eqn:Hbr; [|unfold addr_of in Hab; by rewrite Hbr in Hab].
  assert (addr bh = a) as Hbha by (unfold addr_of in Hab; rewrite Hbr in Hab; by injection Hab).
  assert (exists v, mem s !! bucket a = Some v) as [v Hv].
  { pose proof (seg_head _ _ _ _ (b_bucket _ _ Hhash _ (bucket_lt a))) as Hhd. eauto. }
  assert (mem s1 !! bucket a = Some v) as Hv1 by (rewrite Hk; [done|by left|eauto]).
  unfold insert_brick_hash. rewrite (bind_ok _ _ _ _ _ (brick_at_ok _ _ _ Hbr)), Hbha.
  rewrite (bind_ok _ _ _ _ _ (read_ok _ _ _ Hv1)). erewrite bind_ok by (apply write_ok; eauto).
  rewrite write_ok by (simpl; rewrite lookup_insert_ne by done; eauto).
  set (s2 := put_cell (bucket a) _ _). exists s2. split; [done|].
  assert (forall x, x ∈ B -> x <> b) as Hne by (by intros x Hx ->).
  split; [|done]. split.
  - eapply core_hashed; [exact M1|done..| | |done|done].
    + intros c Hc. change (mem s2) with (<[bucket a := Some (Brick b)]> (<[(HashNext, Brick b) := v]> (mem s1))).
      unfold bucket. rewrite !lookup_insert_ne by (intros <-; done). done.
    + intros c Hc. change (mem s2) with (<[bucket a := Some (Brick b)]> (<[(HashNext, Brick b) := v]> (mem s1))) in Hc.
      apply lookup_insert_is_Some in Hc as [<-|[_ Hc]]; [eauto|]. apply lookup_insert_is_Some in Hc as [<-|[_ Hc]]; eauto.
  - eapply hash_insert with (s := s) (a := a) (v := v) (m0 := mem s1); [done|done|apply (b_nodup _ _ _ Hbo)|done| | |done|done|done|done].
    + intros x Hx Hxa. unfold brick_with in Hfree. assert (bool_decide (addr_of s x = Some a) = true) as Hxt by by apply bool_decide_eq_true.
      apply list_elem_of_In in Hx. apply (find_none _ _ Hfree) in Hx. simpl in Hx. congruence.
    + intros x Hx. unfold addr_of. change (bricks s2) with (bricks s1). rewrite Hbo2; [done|by apply Hne].
  - intros x l' i lc k [->|Hx]%elem_of_cons Hl' Hi Ht He Hk'.
    + assert (l' = l) as -> by (unfold table_of in Hl'; change (loader_of_brick s2 b) with (loader_of_brick s1 b) in Hl'; rewrite Hlb in Hl'; simpl in Hl'; congruence).
      apply M5. exists i, lc, (Z.of_nat k). split_and!; try done; try lia. { left. by apply lookup_lt_Some in Hi. } by rewrite Nat2Z.id.
    + rewrite Hconns by by apply Hne. eapply Hinp; [done| |done..]. rewrite <- Hl'. unfold table_of, loader_of_brick.
      change (bricks s2) with (bricks s1). rewrite Hbo2; [done|by apply Hne].
Qed.

End bricks.
