(* ===== verification/ControlBoot.v ===== *)
(** * Instantiating bricks, and the start of the system

    [$instbrick] on consistent states, and [static_init], which creates the
    strategy brick itself in an empty state. *)

From S2P Require Import Prelude CLib Common Cells ControlSimple ControlWiring ControlState ControlFrame ControlOps ControlCreate ControlBricks.
Open Scope Z_scope.

Section boot.
Context {W : Type} (loaders : list loader_t) (code : brick_code W) (grants : nat -> bool) (junk : args).
Context (Hloaders : loaders_ok loaders) (Hgrants : forall n, grants n = true)
  (Hinit : forall ld i o a param w, success (init_conn code ld i o a param w).1 = true).
Abbreviation state := (control_state W).
Implicit Types (s : state) (o : obj) (D : list obj) (L : list (obj * obj)) (B : list nat) (C : nat -> list obj).

(** ** [$instbrick] *)

(** A brick has been created at an address that was free. *)
Definition brick_added s root B C L (nm : text) (a : Z) s' : Prop :=
  exists ld C', loader_named loaders nm = Some ld /\ loader_of_brick s' (allocs s) = Some ld /\ addr_of s' (allocs s) = Some a /\
    brick_with s B a = None /\ control_ok loaders s' root (allocs s :: B) C' L /\ allocs s ∉ B /\ forall x, x ∈ B -> C' x = C x.

Lemma added_world s root B C L nm a s1 s2 : brick_added s root B C L nm a s1 -> same_data s1 s2 -> brick_added s root B C L nm a s2.
Proof.
  intros (ld & C' & H1 & H2 & H3 & H4 & H5 & H6) Hsd. exists ld, C'. split; [done|].
  unfold loader_of_brick, addr_of in *. rewrite (sd_bricks _ _ Hsd). split; [done|]. split; [done|]. split; [done|]. split; [|done].
  by eapply control_world.
Qed.

(** The part of [$instbrick] that creates the brick *)
Lemma create_run s root B C L a param : control_ok loaders s root B C L -> terminated (name a) = true -> terminated param = true ->
  log_addr a <> 0 -> brick_with s B (log_addr a) = None ->
  let run := (m ← get mand;
    r ← new_brick loaders code grants (name a) param m;
    _ ← modify (fun s => s <| mand := r.2 |>);
    match r.1 with
    | None => mret (None, a)
    | Some b =>
      h ← brick_at b;
      _ ← set_brick b (h <| addr := log_addr a |>);
      _ ← insert_brick_hash b;
      mret (Some b, a <| success := true |>)
    end : control (W := W) (option nat * args)) s in
  (loader_named loaders (name a) = None /\ exists s', run = Ok ((None, a), s') /\ same_data s s') \/
  exists s', run = Ok ((Some (allocs s), a <| success := true |>), s') /\ brick_added s root B C L (name a) (log_addr a) s'.
Proof.
  intros H Hnm Hpar Ha Hfree run. subst run. pose proof (k_core _ _ _ _ _ _ H) as Hc. erewrite bind_ok by done.
  pose proof (new_brick_run loaders code grants Hloaders Hgrants Hinit s root B C L (name a) param (mand s) Hc Hnm Hpar) as Hnew.
  destruct (loader_named loaders (name a)) as [ld|] eqn:Hld.
  - right. destruct Hnew as (mand' & s1 & C' & Hrun & Hnew). rewrite (bind_ok _ _ _ _ _ Hrun). erewrite bind_ok by done. cbn [fst snd].
    destruct (new_ready _ _ _ _ _ _ _ _ _ _ Hnew) as [l Hready]. set (s1' := s1 <| mand := mand' |>).
    assert (brick_ready loaders s s1' root B C L (allocs s) ld l C') as Hready' by by eapply ready_same.
    pose proof (fresh_brick _ _ _ (k_bricks _ _ _ _ _ _ Hc) (k_old _ _ _ _ _ _ Hc)) as Hb.
    assert (exists bh, bricks s1' !! allocs s = Some bh) as [bh Hbh] by (eexists; apply (bn_brick _ _ _ _ _ _ _ _ _ _ Hnew)).
    pose proof (ready_addr _ _ _ _ _ _ _ _ _ _ _ bh (log_addr a) Hready' Hbh) as Hready2.
    rewrite (bind_ok _ _ _ _ _ (brick_at_ok _ _ _ Hbh)), (bind_ok _ _ _ _ _ (set_brick_ok _ _ _ _ Hbh)).
    set (s2 := s1' <| bricks := _ |>) in *.
    assert (addr_of s2 (allocs s) = Some (log_addr a)) as Hab by (unfold addr_of; simpl; by rewrite lookup_insert, decide_True).
    destruct (insert_hash_run loaders s s2 root B C L (allocs s) ld l C' (log_addr a) (k_bricks _ _ _ _ _ _ Hc) Hb (k_hash _ _ _ _ _ _ H)
      (k_inputs _ _ _ _ _ _ H) Hready2 Hab Ha Hfree) as (s3 & Hrun3 & Hok & Hb3 & _).
    rewrite (bind_ok _ _ _ _ _ Hrun3). exists s3. split; [done|].
    exists ld, C'. unfold loader_of_brick, addr_of in *. rewrite Hb3. split; [done|]. split; [apply (br_brick _ _ _ _ _ _ _ _ _ _ _ Hready2)|].
    split; [done|]. split; [done|]. split; [done|]. split; [done|].
    intros x Hx. apply (br_conns _ _ _ _ _ _ _ _ _ _ _ Hready2). by intros ->.
  - left. rewrite (bind_ok _ _ _ _ _ Hnew). erewrite bind_ok by done. split; [done|]. eexists. split; [done|]. done.
Qed.

Lemma instbrick_op s root B C L a param : control_ok loaders s root B C L -> terminated (name a) = true -> terminated param = true ->
  exists a' s', op_instbrick loaders code grants a param s = Ok (a', s') /\
    ((log_addr a = 0 \/ is_Some (brick_with s B (log_addr a)) \/ loader_named loaders (name a) = None) /\ control_ok loaders s' root B C L \/
     log_addr a <> 0 /\ brick_added s root B C L (name a) (log_addr a) s').
Proof.
  intros H Hnm Hpar. pose proof (k_core _ _ _ _ _ _ H) as Hc. unfold op_instbrick.
  destruct (Z.eqb_spec (log_addr a) 0) as [Hz|Hz]; [exists a, s; auto 10|].
  rewrite (bind_ok _ _ _ _ _ (find_brick_hash_ok _ _ _ _ (k_bricks _ _ _ _ _ _ Hc) (k_hash _ _ _ _ _ _ H))).
  assert (forall s1 b a1, is_Some (loader_of_brick s1 b) -> exists a' s', (if constr a1 || destr a1 then
      ld ← loader_of b; in_code (init_brick code ld b (a1 <| success := false |> <| op_code := opcode_brick_init |>) param) else mret a1) s1 = Ok (a', s') /\ same_data s1 s') as Htail.
  { intros s1 b a1 [ld Hld]. destruct (constr a1 || destr a1); [|exists a1, s1; done]. unfold loader_of_brick in Hld.
    destruct (bricks s1 !! b) as [h|] eqn:Hh; [|done]. rewrite (bind_ok _ _ _ _ _ (loader_of_ok _ _ _ _ Hh Hld)). eexists _, _. done. }
  destruct (brick_with s B (log_addr a)) as [b|] eqn:Hbw.
  - destruct (brick_with_in _ _ _ _ Hbw) as [Hbb _]. erewrite bind_ok by done.
    destruct (Htail s b a) as (a' & s' & Hrun & Hsd).
    { destruct (b_table _ _ _ (k_bricks _ _ _ _ _ _ Hc) b Hbb) as [l Hl]. destruct (table_loader _ _ _ _ Hl) as (h & ld & Hh & Hld & _).
      unfold loader_of_brick. rewrite Hh. simpl. eauto. }
    exists a', s'. split; [done|]. left. split; [eauto|]. by eapply control_world.
  - destruct (create_run s root B C L a param H Hnm Hpar Hz Hbw) as [(Hnone & s1 & Hrun & Hsd)|(s1 & Hrun & Hadd)].
    + rewrite (bind_ok _ _ _ _ _ Hrun). exists a, s1. split; [done|]. left. split; [auto|]. by eapply control_world.
    + rewrite (bind_ok _ _ _ _ _ Hrun). destruct (Htail s1 (allocs s) (a <| success := true |>)) as (a' & s' & Hrun' & Hsd).
      { destruct Hadd as (ld & C' & _ & Hl & _). eauto. }
      exists a', s'. split; [done|]. right. split; [done|]. by eapply added_world.
Qed.

(** ** Booting *)

Lemma in_start_cells c : c ∈ start_cells -> match c.2 with Entry _ | Bucket _ => True | _ => False end.
Proof.
  unfold start_cells. rewrite elem_of_app. intros [(i & -> & _)%list_elem_of_fmap|Hc]; [done|].
  apply list_elem_of_In, in_concat in Hc as (l & Hl & Hc). apply list_elem_of_In in Hl, Hc.
  apply list_elem_of_fmap in Hl as (i & -> & _). by repeat (apply elem_of_cons in Hc as [->|Hc]; [done|]); apply not_elem_of_nil in Hc.
Qed.

Lemma start_entry e f : (e < MAINDIR_MAX)%nat -> f = First \/ f = Chain -> (f, Entry e) ∈ start_cells.
Proof.
  intros He Hf. unfold start_cells. apply elem_of_app. right. apply list_elem_of_In, in_concat. exists [(First, Entry e); (Chain, Entry e)].
  split; apply list_elem_of_In.
  - apply list_elem_of_fmap. exists e. split; [done|]. apply elem_of_seq. lia.
  - destruct Hf as [-> | ->]; [by left|right; by left].
Qed.

Lemma start_bucket k : (k < Z.to_nat BRICK_HASH_MAX)%nat -> (HashNext, Bucket k) ∈ start_cells.
Proof.
  intros Hk. unfold start_cells. apply elem_of_app. left. apply list_elem_of_fmap. exists k. split; [done|]. apply elem_of_seq. lia.
Qed.

Lemma start_mem (w : W) c : mem (start_state w) !! c = if decide (c ∈ start_cells) then Some None else None.
Proof. change (mem (start_state w)) with (alloc start_cells ∅). by rewrite lookup_alloc. Qed.

Lemma start_core (w : W) root C : core_ok loaders (start_state w) root [] C [].
Proof.
  assert (forall e f, (e < MAINDIR_MAX)%nat -> f = First \/ f = Chain -> mem (start_state w) !! (f, Entry e) = Some None) as Hentry.
  { intros e f He Hf. rewrite start_mem. rewrite decide_True; [done|by apply start_entry]. }
  assert (forall (b : nat), b ∉ ([] : list nat)) as Hnil by (intros b; apply not_elem_of_nil).
  assert (forall o : obj, o ∉ ([] : list obj)) as Hnil' by (intros o; apply not_elem_of_nil).
  split; [..|split; [done|]].
  - split; [constructor|]. intros b Hb. by destruct (Hnil b).
  - split; intros b Hb; by destruct (Hnil b).
  - split; intros b ? ?; [intros Hb|]; by destruct (Hnil b).
  - split; [split|split|done].
    + intros e. apply Hnil'.
    + constructor.
    + intros i o Hio. by apply not_elem_of_nil in Hio.
    + intros i Hi. by destruct (Hnil' i).
    + intros i Hi. by destruct (Hnil' i).
    + intros e He. apply Hentry; [done|by left].
    + intros e He. exists None. split; [apply Hentry; [done|by right]|done].
    + intros i Hi. by destruct (Hnil' i).
    + intros i Hi. by destruct (Hnil' i).
    + intros p [(b & ? & ? & ? & ? & Hb & _)|(? & o & _ & Ho & _)]; [by destruct (Hnil b)|by destruct (Hnil' o)].
    + intros i j Hi. by destruct (Hnil' i).
  - split; intros b; intros; by destruct (Hnil b).
  - split.
    + intros c Hc. rewrite start_mem in Hc. case_decide as Hin; [|by destruct Hc]. apply in_start_cells in Hin. by destruct c.2.
    + intros o [h Hh]. done.
    + intros b [h Hh]. done.
    + intros p [t Ht]. unfold start_state in Ht. simpl in Ht. destruct (decide (p = default_control)) as [->|Hne].
      * unfold default_control. simpl. lia.
      * by rewrite lookup_singleton_ne in Ht.
  - apply Forall_replicate. done.
Qed.

Lemma start_hash (w : W) : hash_ok (start_state w) [].
Proof.
  split; [intros b Hb; by apply not_elem_of_nil in Hb|intros b1 b2 Hb; by apply not_elem_of_nil in Hb|]. intros k Hk.
  change (mem (start_state w) !! (HashNext, Bucket k) = Some None). rewrite start_mem. rewrite decide_True; [done|by apply start_bucket].
Qed.

(** A parameter of the strategy brick's own connectors *)
Lemma core_root_param s root B C L o h p : core_ok loaders s root B C L -> root ∈ B -> o ∈ C root -> headers s !! o = Some h ->
  core_ok loaders (s <| headers := <[o := h <| c_param := p |>]> (headers s) |>) root B C L.
Proof.
  intros H Hroot Ho Hh. pose proof (k_data _ _ _ _ _ _ H) as Hd.
  assert (forall b x, b ∈ B -> b <> root -> x ∈ C b -> x <> o) as Hne.
  { intros b x Hb Hbr Hx ->. apply Hbr. by eapply conns_disjoint. }
  eapply core_weak; [exact H| |apply (k_dir _ _ _ _ _ _ H)| | |].
  - split; simpl; [done|done| |].
    + intros x hx Hx. destruct (decide (x = o)) as [->|Hxo]; [|rewrite lookup_insert_ne by done; eauto].
      rewrite lookup_insert, decide_True by done. assert (hx = h) as -> by congruence. eauto.
    + intros x hx Hx. rewrite lookup_insert_ne by congruence. congruence.
  - intros b l j Hb Hl Hj Hn. destruct (d_slot _ _ _ _ Hd _ _ _ Hb Hl Hj) as (hx & Hhx & Hz). destruct (Hz Hn) as (? & ? & _). exists hx. simpl.
    rewrite lookup_insert_ne; [done|]. intros ->. assert (root = b) as -> by (by eapply slot_owner). done.
  - destruct (k_strings _ _ _ _ _ _ H) as [H1 H2 H3 H4 H5].
    assert (forall b x, b ∈ B -> b <> root -> x ∈ C b -> param_of (s <| headers := <[o := h <| c_param := p |>]> (headers s) |>) x = param_of s x) as Hpar.
    { intros b x Hb Hbr Hx. unfold param_of. simpl. rewrite lookup_insert_ne; [done|]. intros <-. by eapply Hne. }
    split; [done| |done| |].
    + intros b x q Hb Hbr Hx. rewrite (Hpar b) by done. by apply (H2 b).
    + intros b1 b2 x1 x2 q Hb1 Hb2 Hr1 Hr2 Hx1 Hx2. rewrite (Hpar b1), (Hpar b2) by done. by apply (H4 b1 b2).
    + intros b1 b2 x Hb1 Hb2 Hr1 Hr2 Hx. rewrite (Hpar b1) by done. by apply (H5 b1 b2).
  - destruct (k_old _ _ _ _ _ _ H) as [H1 H2 H3 H4]. split; [done| |done|done]. intros x Hx. simpl in *. apply H2.
    destruct (decide (x = o)) as [->|Hxo]; [eauto|]. by rewrite lookup_insert_ne in Hx.
Qed.

Lemma ready_root_param s s1 root B C L ld l C' o h p : brick_ready loaders s s1 root B C L root ld l C' -> o ∈ C' root -> headers s1 !! o = Some h ->
  brick_ready loaders s (s1 <| headers := <[o := h <| c_param := p |>]> (headers s1) |>) root B C L root ld l C'.
Proof.
  intros [H1 H2 H3 H4 H5 H6 H7] Ho Hh. split; try done. apply core_root_param; [done|by left|done|done].
Qed.

Lemma static_init_run n i s : exists s', static_init_loop code n i s = Ok (tt, s') /\ same_data s s'.
Proof.
  revert i s. induction n as [|n IH]; intros i s; [by exists s|]. cbn [static_init_loop]. erewrite bind_ok by done.
  match goal with |- context [static_init_loop code n (S i) ?s1] => destruct (IH (S i) s1) as (s' & Hrun & Hsd) end.
  exists s'. split; [done|]. destruct Hsd as [G1 G2 G3 G4 G5 G6]. by split.
Qed.

(** The table of the strategy brick: an output [control] and an input [hook],
    whose header is the second. *)
Record boot_table (ld : nat) (l : loader_t) : Prop := {
  bt_name : loader_named loaders (cstr "control_simple") = Some ld;
  bt_loader : loaders !! ld = Some l;
  bt_control : exists k lc, conn_named l (cstr "control") = Some k /\ ld_conns l !! k = Some lc /\ l_type lc = true /\ 0 < l_count lc;
  bt_hook : exists k lc, conn_named l (cstr "hook") = Some k /\ ld_conns l !! k = Some lc /\ l_type lc = false /\ 0 < l_count lc /\ l_start_index lc = 1%nat
}.

(** The end of [static_init]: an entry [control] of the main directory, to
    which the hook is connected *)
Lemma boot_wiring s b C ld l kh lch : control_ok loaders s b [b] C [] -> table_of loaders s b = Some l -> loaders !! ld = Some l ->
  conn_named l (cstr "hook") = Some kh -> ld_conns l !! kh = Some lch -> 0 < l_count lch -> l_start_index lch = 1%nat -> Slot b 1 ∈ C b ->
  exists s' C' L, (_ ← op_instconn loaders code grants (zero_args <| conn1 := Some {| conn_addr := 0; conn_index := 0; conn_name := cstr "control" |} |>) (cstr "");
    _ ← op_connect loaders code grants junk (zero_args
      <| conn1 := Some {| conn_addr := REPRES_MAX; conn_index := 0; conn_name := cstr "hook" ++ replicate 3 0 |} |>
      <| conn2 := Some {| conn_addr := 0; conn_index := 0; conn_name := cstr "control" |} |>) (cstr "");
    mret tt) s = Ok (tt, s') /\ control_ok loaders s' b [b] C' L.
Proof.
  intros H Htab Hl Hn Hk Hcnt Hst Hin. set (c := {| conn_addr := 0; conn_index := 0; conn_name := cstr "control" |}).
  pose proof (k_dir _ _ _ _ _ _ (k_core _ _ _ _ _ _ H)) as [Hdl Hdt].
  destruct (new_main_dir_run s (cstr "control") eq_refl eq_refl Hdt) as (ok & dir & Hrun & Hlen & Hdir).
  set (s1 := s <| main_dir := dir |>) in Hrun.
  assert (control_ok loaders s1 b [b] C []) as H1 by (apply control_dir; [done|congruence|done]).
  assert (exists a1, op_instconn loaders code grants (zero_args <| conn1 := Some c |>) (cstr "") s = Ok (a1, s1)) as [a1 Hrun1].
  { unfold op_instconn, conn1_of. erewrite bind_ok by (by apply the_ok). cbn [conn_addr]. rewrite Z.eqb_refl.
    change (conn_name c) with (cstr "control"). rewrite (bind_ok _ _ _ _ _ Hrun). eauto. }
  rewrite (bind_ok _ _ _ _ _ Hrun1).
  set (c1 := {| conn_addr := REPRES_MAX; conn_index := 0; conn_name := cstr "hook" ++ replicate 3 0 |}).
  assert (forall i, lookup_conn loaders s1 [b] C c1 = Some i -> i ∈ all_conns [b] C) as Hhook.
  { intros i Hi. unfold lookup_conn in Hi. destruct (brick_with s1 [b] (conn_addr c1)) as [b'|] eqn:Hb; [|done].
    destruct (brick_with_in _ _ _ _ Hb) as [Hbb _]. apply list_elem_of_singleton in Hbb as ->. cbn [mbind option_bind] in Hi.
    unfold resolve in Hi. change (table_of loaders s1 b) with (table_of loaders s b) in Hi. rewrite Htab in Hi. cbn [mbind option_bind] in Hi.
    change (conn_named l (conn_name c1)) with (conn_named l (cstr "hook")) in Hi. rewrite Hn in Hi. cbn [mbind option_bind] in Hi.
    rewrite Hk in Hi. cbn [mbind option_bind] in Hi. unfold conn_at in Hi. rewrite (proj2 (Z.eqb_neq _ _)) in Hi by lia. cbn [c1 conn_index] in Hi.
    destruct ((0 <? 0) || (l_count lch <=? 0)) eqn:Hr; [done|]. injection Hi as <-. rewrite Hst. apply elem_of_all_conns. exists b. split; [by left|done]. }
  assert (forall a s2 C' L, op_connect loaders code grants junk (zero_args <| conn1 := Some c1 |> <| conn2 := Some c |>) (cstr "") s1 = Ok (a, s2) ->
    control_ok loaders s2 b [b] C' L -> exists s' C' L, (_ ← op_connect loaders code grants junk (zero_args <| conn1 := Some c1 |> <| conn2 := Some c |>) (cstr "");
    mret tt) s1 = Ok (tt, s') /\ control_ok loaders s' b [b] C' L) as Hdone.
  { intros a s2 C' L Hr2 H2. exists s2, C', L. by rewrite (bind_ok _ _ _ _ _ Hr2). }
  destruct (connect_op loaders code grants junk Hloaders Hgrants Hinit s1 b [b] C [] (zero_args <| conn1 := Some c1 |> <| conn2 := Some c |>) c1 c (cstr "") H1
    ltac:(done) ltac:(done) eq_refl eq_refl eq_refl ltac:(done) ltac:(done) Hhook) as [[(a2 & s2 & Hr2 & H2 & _) _]|(i & t & Hask & _ & [(a2 & s2 & Hr2 & _ & H2 & _)|[_ Hno]])].
  - by eapply Hdone.
  - by eapply Hdone.
  - exfalso. apply Hno. destruct Hask as (_ & _ & e & _ & ->). intros li lo _ Hlo. unfold lc_of in Hlo.
    by rewrite (w_entry _ _ _ _ _ (k_wiring _ _ _ _ _ _ (k_core _ _ _ _ _ _ H1))) in Hlo.
Qed.

Lemma boot_from ld l s0 : boot_table ld l -> core_ok loaders s0 (allocs s0) [] (fun _ => []) [] -> hash_ok s0 [] ->
  exists s C L, boot loaders code grants junk s0 = Ok (tt, s) /\ control_ok loaders s (allocs s0) [allocs s0] C L.
Proof.
  intros [Hname Hl (kc & lcc & Hcn & Hcl & Hct & Hcc) (kh & lch & Hhn & Hhl & Hht & Hhc & Hhs)] H0 Hhash0.
  set (b := allocs s0) in *.
  pose proof (loaders_elem _ _ _ Hloaders Hl) as Hok. pose proof (conn_named_some _ _ _ Hhn) as (lch' & Hhl' & Hhe & _).
  assert (lch' = lch) as -> by congruence. unfold boot.
  pose proof (new_brick_run loaders code grants Hloaders Hgrants Hinit s0 b [] (fun _ => []) [] (cstr "control_simple") (cstr "self-booted-by-default-init") 1 H0 eq_refl eq_refl) as Hnew.
  rewrite Hname in Hnew. destruct Hnew as (mand' & s1 & C1 & Hrun1 & Hnew). fold b in Hrun1, Hnew. rewrite (bind_ok _ _ _ _ _ Hrun1). cbn [fst].
  destruct (static_init_run (length loaders) 0 s1) as (s2 & Hrun2 & Hsd2). rewrite (bind_ok _ _ _ _ _ Hrun2).
  destruct (new_ready _ _ _ _ _ _ _ _ _ _ Hnew) as [l' Hr1]. assert (l' = l) as -> by (pose proof (br_table _ _ _ _ _ _ _ _ _ _ _ Hr1); congruence).
  pose proof (ready_same _ _ _ _ _ _ _ _ _ _ _ _ Hr1 Hsd2) as Hr2.
  assert (forall o, o ∈ C1 b <-> made b l (length (ld_conns l)) 0 o) as Hmade.
  { destruct (bn_table _ _ _ _ _ _ _ _ _ _ Hnew) as (l' & Hl' & Hmk). assert (l' = l) as -> by congruence. apply (mk_made _ _ _ _ _ _ _ _ _ _ _ Hmk). }
  set (bh := {| addr := 0; b_param := Some (S b); b_loader := Some ld |}).
  assert (bricks s2 !! b = Some bh) as Hbh2 by (rewrite (sd_bricks _ _ Hsd2); apply (bn_brick _ _ _ _ _ _ _ _ _ _ Hnew)).
  pose proof (br_core _ _ _ _ _ _ _ _ _ _ _ Hr2) as Hc2. pose proof (br_brick _ _ _ _ _ _ _ _ _ _ _ Hr2) as Hlb2.
  assert (table_of loaders s2 b = Some l) as Htab2 by (unfold table_of; by rewrite Hlb2).
  rewrite (bind_ok _ _ _ _ _ (find_load_conn_ok _ _ _ _ (cstr "control") Hloaders Htab2 eq_refl)), Hcn.
  rewrite (bind_ok _ _ _ _ _ (loader_of_ok _ _ _ _ Hbh2 eq_refl)).
  assert (lc_at loaders (ld, kc) = Some lcc) as Hlcc by (unfold lc_at; simpl; by rewrite Hl).
  rewrite (bind_ok _ _ _ _ _ (conn_entry_ok _ _ _ _ _ Hlcc)). cbv zeta.
  destruct (static_conn loaders code grants Hloaders Hgrants Hinit s2 b [b] C1 [] b l ld kc lcc 0 Hc2) as (s3 & h & Hrun3 & Hh3 & _ & Hconns3 & Hc4 & Hsl4);
    [by left|done|done|done|lia| |congruence|].
  { rewrite Hmade. intros (j & lc' & k' & E1 & E2 & _ & E4 & _ & [= E6]).
    destruct (lo_disjoint _ Hok kc j lcc lc' 0 k' Hcl E1) as [-> _]; [lia|done|simpl; lia|congruence]. }
  rewrite Nat.add_0_r in Hrun3, Hh3, Hc4, Hsl4. set (o := Slot b (l_start_index lcc)) in *.
  rewrite (bind_ok _ _ _ _ _ Hrun3), (bind_ok _ _ _ _ _ (header_ok _ _ _ Hh3)), (bind_ok _ _ _ _ _ (set_header_ok _ _ _ _ Hh3)).
  set (C2 := add_conn C1 b o) in *. set (s4 := put_cell (Last, Brick b) (Some o) (put_cell (tail_cell b (C1 b)) (Some o) s3)) in *.
  set (s3p := s3 <| headers := _ |>). assert (conns_ok s3p [b] C1) as Hconns3p by by destruct Hconns3.
  rewrite (bind_ok _ _ _ _ _ (insert_conn_run _ _ _ _ o Hconns3p (list_elem_of_here b []))).
  assert (brick_ready loaders s0 s4 b [] (fun _ => []) [] b ld l C2) as Hr4.
  { destruct Hr2 as [R1 R2 R3 R4 R5 R6 [R7 R8]]. split; [done|done| | | | |split].
    - intros x Hx. apply elem_of_add_conn. left. by apply R3.
    - intros x Hx. unfold C2. rewrite add_conn_other by done. by apply R4.
    - unfold loader_of_brick. by rewrite (sl_bricks _ _ Hsl4).
    - intros x Hx. rewrite (sl_bricks _ _ Hsl4). by apply R6.
    - intros [f x] Hf Hx. pose proof Hf as Hf'. apply list_elem_of_singleton in Hf'. simpl in Hf'. subst f.
      rewrite (sl_mem _ _ Hsl4) by (apply (bool_decide_unpack _); exact I). by apply R7.
    - rewrite (sl_mem _ _ Hsl4) by (apply (bool_decide_unpack _); exact I). done. }
  assert (o ∈ C2 b) as Ho by (apply elem_of_add_conn; by right).
  assert (headers s4 !! o = Some h) as Hh4 by exact Hh3.
  pose proof (ready_root_param _ _ _ _ _ _ _ _ _ _ _ (Some default_control) Hr4 Ho Hh4) as Hr4'.
  change (put_cell (Last, Brick b) (Some o) (put_cell (tail_cell b (C1 b)) (Some o) s3p)) with
    (s4 <| headers := <[o := h <| c_param := Some default_control |>]> (headers s4) |>).
  set (s4' := s4 <| headers := _ |>) in *.
  assert (Slot b 1 ∈ C2 b) as Hhook.
  { apply elem_of_add_conn. left. apply Hmade. exists kh, lch, 0. split_and!; try done; try lia.
    - left. by apply lookup_lt_Some in Hhl.
    - by rewrite Hhs. }
  destruct (conn_header _ _ _ _ _ _ (k_data _ _ _ _ _ _ (br_core _ _ _ _ _ _ _ _ _ _ _ Hr4')) (list_elem_of_here b []) Hhook) as (h1 & p1 & Hh1 & _).
  rewrite (bind_ok _ _ _ _ _ (header_ok _ _ _ Hh1)).
  assert (bricks s4' !! b = Some bh) as Hbh4 by (change (bricks s4') with (bricks s4); by rewrite (sl_bricks _ _ Hsl4)).
  rewrite (bind_ok _ _ _ _ _ (brick_at_ok _ _ _ Hbh4)), (bind_ok _ _ _ _ _ (set_header_ok _ _ _ _ Hh1)).
  pose proof (ready_root_param _ _ _ _ _ _ _ _ _ _ _ (b_param bh) Hr4' Hhook Hh1) as Hr5. set (s5 := s4' <| headers := _ |>) in *.
  assert (bricks s5 !! b = Some bh) as Hbh5 by exact Hbh4.
  rewrite (bind_ok _ _ _ _ _ (set_brick_ok _ _ _ _ Hbh5)). pose proof (ready_addr _ _ _ _ _ _ _ _ _ _ _ bh REPRES_MAX Hr5 Hbh5) as Hr6.
  set (s6 := s5 <| bricks := _ |>) in *. erewrite bind_ok by done. erewrite bind_ok by done.
  match goal with |- context [(insert_brick_hash b ≫= _) ?s] => set (s7 := s) end.
  assert (brick_ready loaders s0 s7 b [] (fun _ => []) [] b ld l C2) as Hr7 by by eapply ready_same.
  assert (addr_of s7 b = Some REPRES_MAX) as Hab by (unfold addr_of; simpl; by rewrite lookup_insert, decide_True).
  destruct (insert_hash_run loaders s0 s7 b [] (fun _ => []) [] b ld l C2 REPRES_MAX) as (s8 & Hrun8 & H8 & Hb8 & _); [|by apply not_elem_of_nil|done| |done..|].
  { apply (k_bricks _ _ _ _ _ _ H0). }
  { intros x ???? Hx. by apply not_elem_of_nil in Hx. }
  rewrite (bind_ok _ _ _ _ _ Hrun8).
  destruct (boot_wiring s8 b C2 ld l kh lch) as (s9 & C9 & L9 & Hrun9 & H9); [done| |done..|].
  { pose proof (br_brick _ _ _ _ _ _ _ _ _ _ _ Hr7) as Hlb7. unfold loader_of_brick in Hlb7. unfold table_of, loader_of_brick. by rewrite Hb8, Hlb7. }
  exists s9, C9, L9. done.
Qed.

Lemma boot_run ld l w : boot_table ld l ->
  exists s C L, boot loaders code grants junk (start_state w) = Ok (tt, s) /\ control_ok loaders s 1 [1%nat] C L.
Proof.
  intros Hl. destruct (boot_from ld l (start_state w) Hl) as (s & C & L & Hrun & H); [apply start_core|apply start_hash|].
  exists s, C, L. done.
Qed.

End boot.
