(* ===== verification/ControlDelete.v ===== *)
(** * Deleting bricks

    [$deinstbrick] on consistent states: a brick none of whose outputs is in
    use is taken out of the hash table, its inputs are disconnected, its
    parameter strings are freed, and the brick is. *)

From S2P Require Import Prelude CLib Common Cells ControlSimple ControlWiring ControlState ControlFrame ControlOps ControlCreate ControlBricks.
Open Scope Z_scope.

Section delete.
Context {W : Type} (loaders : list loader_t) (code : brick_code W).
Context (Hloaders : loaders_ok loaders).
Abbreviation state := (control_state W).
Implicit Types (s : state) (o : obj) (D : list obj) (L : list (obj * obj)) (B : list nat) (C : nat -> list obj).

(** ** A brick that is being deleted *)

Definition rem (b : nat) B : list nat := filter (fun x => x <> b) B.

Lemma elem_of_rem b B x : x ∈ rem b B <-> x ∈ B /\ x <> b.
Proof. unfold rem. rewrite list_elem_of_filter. tauto. Qed.

(** No other brick uses a string. *)
Definition unused s (root : nat) B C (p : nat) : Prop :=
  forall x, x ∈ B -> x <> root -> brick_param s x <> Some p /\ forall o, o ∈ C x -> param_of s o <> Some p.

(** [ps] are the strings of the brick that are still to be freed. *)
Record dying s (root : nat) B C L (b : nat) (ps : list nat) : Prop := {
  dy_bricks : bricks_ok loaders s B;
  dy_conns : conns_ok s B C;
  dy_data : data_ok loaders s B C;
  dy_wiring : wiring_ok loaders s (all_conns B C) (outputs loaders s B C) L;
  dy_old : old_ok s;
  dy_dir : dir_ok s;
  dy_strings : strings_ok s root (rem b B) C;
  dy_nodup : NoDup ps;
  dy_own p : p ∈ ps -> on_heap s p /\ unused s root (rem b B) C p
}.

Lemma strings_free s s' root B C p : strings_ok s root B C -> unused s root B C p ->
  (forall x o, x ∈ B -> o ∈ C x -> param_of s' o = param_of s o) -> (forall x, x ∈ B -> brick_param s' x = brick_param s x) ->
  strings s' = delete p (strings s) -> strings_ok s' root B C.
Proof.
  intros [H1 H2 H3 H4 H5] Hu Hpar Hbp Hstr.
  assert (forall q, on_heap s q -> q <> p -> on_heap s' q) as Hh.
  { intros q [t Ht] Hq. exists t. rewrite Hstr. by rewrite lookup_delete_ne. }
  split.
  - intros x Hx Hr. rewrite Hbp by done. destruct (H1 x Hx Hr) as (q & Hq & Hqh). exists q. split; [done|]. apply Hh; [done|].
    intros ->. by destruct (Hu x Hx Hr).
  - intros x o q Hx Hr Ho. rewrite (Hpar x) by done. intros Hq. apply Hh; [by apply (H2 x o)|].
    intros ->. destruct (Hu x Hx Hr) as [_ Hu']. by apply (Hu' o).
  - intros x y Hx Hy. rewrite !Hbp by done. by apply H3.
  - intros x1 x2 o1 o2 q Hx1 Hx2 Hr1 Hr2 Ho1 Ho2. rewrite (Hpar x1), (Hpar x2) by done. by apply (H4 x1 x2).
  - intros x1 x2 o Hx1 Hx2 Hr1 Hr2 Ho. rewrite (Hpar x1), Hbp by done. by apply (H5 x1 x2).
Qed.

(** The parts of the invariant that are not about strings *)
Lemma parts_same s s' B C L : mem s' = mem s -> headers s' = headers s -> bricks s' = bricks s ->
  bricks_ok loaders s B -> conns_ok s B C -> data_ok loaders s B C -> wiring_ok loaders s (all_conns B C) (outputs loaders s B C) L ->
  bricks_ok loaders s' B /\ conns_ok s' B C /\ data_ok loaders s' B C /\ wiring_ok loaders s' (all_conns B C) (outputs loaders s' B C) L.
Proof.
  intros G1 G2 G3 H1 H2 H3 H4.
  assert (forall x, loader_of_brick s' x = loader_of_brick s x) as Hl by (intros x; unfold loader_of_brick; by rewrite G3).
  pose proof (same_tables loaders _ _ Hl) as Htab.
  assert (forall x, lc_of loaders s' x = lc_of loaders s x) as Hlc by (intros x; unfold lc_of; by rewrite G2).
  assert (forall x, inst_of s' x = inst_of s x) as Hi by (intros x; unfold inst_of; by rewrite G2).
  split; [by eapply bricks_keep|split; [|split]].
  - eapply conns_keep; [done|]. intros c _ _. by rewrite G1.
  - destruct H3 as [D1 D2]. split.
    + intros x l j Hx Hlx Hj. rewrite Htab in Hlx. rewrite G1, G2. by apply D1.
    + intros x o Hx Ho. rewrite G2. setoid_rewrite Hl. by apply D2.
  - eapply wiring_grow; [exact H4|done|done|done| | | |].
    + intros e. rewrite G2. apply (w_entry _ _ _ _ _ H4).
    + intros c _ _. by rewrite G1.
    + intros q. unfold outputs, is_output. setoid_rewrite Htab. setoid_rewrite Hlc. setoid_rewrite Hi. done.
    + intros q. unfold outputs, is_output. setoid_rewrite Htab. setoid_rewrite Hlc. setoid_rewrite Hi. tauto.
Qed.

Lemma dying_free s root B C L b p ps : dying s root B C L b (p :: ps) ->
  exists s', free_string p s = Ok (tt, s') /\ dying s' root B C L b ps /\ headers s' = headers s /\ bricks s' = bricks s /\ mem s' = mem s.
Proof.
  intros [H1 H2 H3 H4 H5 H6 H7 H8 H9]. destruct (H9 p) as [Hp Hu]; [by left|]. rewrite (free_string_ok _ _ Hp).
  set (s' := s <| strings := _ |>). exists s'. split; [done|]. split; [|done]. apply NoDup_cons in H8 as [Hps Hnd].
  destruct (parts_same s s' B C L) as (P1 & P2 & P3 & P4); [done..|]. split; try done.
  - destruct H5 as [O1 O2 O3 O4]. split; try done. intros q Hq. apply O4. simpl in Hq. by apply lookup_delete_is_Some in Hq as [_ Hq].
  - by eapply strings_free.
  - intros q Hq. destruct (H9 q) as [[t Ht] Hqu]; [by right|]. split; [|done]. exists t. simpl. rewrite lookup_delete_ne; [done|]. by intros ->.
Qed.

(** Nothing that the invariant is about changes. *)
Lemma dying_world s s' root B C L b ps : dying s root B C L b ps -> same_data s s' -> dying s' root B C L b ps.
Proof.
  intros [H1 H2 H3 H4 H5 H6 H7 H8 H9] Hsd. pose proof Hsd as [G1 G2 G3 G4 G5 G6].
  destruct (parts_same s s' B C L G1 G2 G3 H1 H2 H3 H4) as (P1 & P2 & P3 & P4).
  assert (forall x, param_of s' x = param_of s x) as Hp by (intros x; unfold param_of; by rewrite G2).
  assert (forall x, brick_param s' x = brick_param s x) as Hbp by (intros x; unfold brick_param; by rewrite G3).
  split; [done|done|done|done|by eapply old_same|by unfold dir_ok; rewrite G5| |done|].
  - by eapply strings_same.
  - intros q Hq. destruct (H9 q Hq) as [[t Ht] Hu]. split; [exists t; by rewrite G4|]. intros x Hx Hr. rewrite Hbp. setoid_rewrite Hp. by apply Hu.
Qed.

Lemma dying_lc s root B C L b ps o : dying s root B C L b ps -> b ∈ B -> o ∈ C b -> exists lc, lc_of loaders s o = Some lc.
Proof.
  intros H Hb Ho. destruct (conn_facts _ _ _ _ _ _ (dy_data _ _ _ _ _ _ _ H) Hb Ho) as (lc & Hlc & _). eauto.
Qed.

(** [tmp->c_param = NULL] *)
Lemma dying_clear s root B C L b ps o h : dying s root B C L b ps -> b ∈ B -> o ∈ C b -> headers s !! o = Some h ->
  dying (s <| headers := <[o := h <| c_param := None |>]> (headers s) |>) root B C L b ps.
Proof.
  intros [H1 H2 H3 H4 H5 H6 H7 H8 H9] Hb Ho Hh. set (s' := s <| headers := _ |>).
  assert (forall x, x <> o -> headers s' !! x = headers s !! x) as Hx by (intros x Hx; simpl; by rewrite lookup_insert_ne).
  assert (headers s' !! o = Some (h <| c_param := None |>)) as Ho' by (simpl; by rewrite lookup_insert, decide_True).
  assert (forall x, lc_of loaders s' x = lc_of loaders s x /\ inst_of s' x = inst_of s x) as Hlc.
  { intros x. unfold lc_of, inst_of. destruct (decide (x = o)) as [->|Hne]; [by rewrite Ho', Hh|by rewrite Hx]. }
  assert (forall x y, x ∈ rem b B -> y ∈ C x -> param_of s' y = param_of s y) as Hpar.
  { intros x y [Hxb Hxn]%elem_of_rem Hy. unfold param_of. rewrite Hx; [done|]. intros ->. apply Hxn. by eapply conns_disjoint. }
  split; [by eapply bricks_keep|by eapply conns_keep| | | |done| |done|].
  - destruct H3 as [D1 D2]. split.
    + intros x l j Hxb Hl Hj. destruct (D1 x l j Hxb Hl Hj) as (hx & Hhx & Hz). destruct (decide (Slot x j = o)) as [E|Hne].
      * exists (h <| c_param := None |>). rewrite E. split; [done|]. intros Hn. exfalso. apply Hn.
        assert (x = b) as -> by (symmetry; eapply (slot_owner loaders s B C x b j); [by split|done|by rewrite E]). done.
      * exists hx. rewrite Hx by done. done.
    + intros x y Hxb Hy. destruct (D2 x y Hxb Hy) as (hy & ld & l & i & lc & p & E1 & E2). destruct (decide (y = o)) as [->|Hne].
      * assert (hy = h) as -> by congruence. exists (h <| c_param := None |>), ld, l, i, lc, p. done.
      * exists hy, ld, l, i, lc, p. rewrite Hx by done. done.
  - eapply wiring_grow; [exact H4|done|apply Hlc|apply Hlc| | | |].
    + intros e. rewrite Hx; [apply (w_entry _ _ _ _ _ H4)|]. intros <-. rewrite (w_entry _ _ _ _ _ H4) in Hh. done.
    + intros c _. done.
    + intros q [Hq|(n & x & -> & Hxa & Hxo & Hxi)]; [by left|right]. exists n, x. destruct (Hlc x) as [E1 E2].
      unfold is_output. by rewrite E1, E2.
    + intros q [Hq|(n & x & -> & Hxa & Hxo & Hxi)]; [by left; left|left; right]. exists n, x. destruct (Hlc x) as [E1 E2].
      unfold is_output in *. by rewrite <- E1, <- E2.
  - destruct H5 as [O1 O2 O3 O4]. split; [done| |done|done]. intros x Hxs. apply O2. simpl in Hxs.
    apply lookup_insert_is_Some in Hxs as [<-|[_ Hxs]]; [eauto|done].
  - by eapply strings_keep.
  - intros q Hq. destruct (H9 q Hq) as [Hqh Hu]. split; [done|]. intros x Hxb Hr. destruct (Hu x Hxb Hr) as [U1 U2]. split; [done|].
    intros y Hy. rewrite (Hpar x) by done. by apply U2.
Qed.

(** Disconnecting one of its inputs *)
Lemma dying_disconnect s root B C L b ps i : dying s root B C L b ps -> b ∈ B -> i ∈ C b -> is_input loaders s i ->
  exists r s', disconnect loaders i s = Ok (r, s') /\ dying s' root B C (cut L i) b ps /\ rewired (all_conns B C) s s'.
Proof.
  intros H Hb Hi Hin. pose proof H as [H1 H2 H3 H4 H5 H6 H7 H8 H9]. assert (i ∈ all_conns B C) as Hall by (apply elem_of_all_conns; eauto).
  destruct (target L i) as [o|] eqn:Ht.
  - destruct (wire_disconnect_run _ _ _ _ _ _ _ H4 Hall Hin Ht) as (s' & Hrun & Hw & Hrw). exists true, s'. split; [done|]. split; [|done].
    destruct (parts_rewired _ _ _ _ _ H2 H3 H5 Hrw) as (P2 & P3 & P5). destruct Hrw as ((m & ->) & _).
    split; try done; [by destruct H1|by destruct H7].
  - exists false, s. rewrite (disconnect_none _ _ _ _ _ _ H4 Hall Hin Ht). split; [done|]. split; [|apply rewired_refl].
    apply target_None in Ht. by rewrite cut_not_in.
Qed.

(** ** The loops *)

Definition out_param s o : option nat :=
  match lc_of loaders s o with Some lc => if l_type lc then param_of s o else None | None => None end.
Definition in_param s o : option nat :=
  match lc_of loaders s o with Some lc => if l_type lc then None else param_of s o | None => None end.

Lemma omap_same {A A'} (f g : A -> option A') (l : list A) : (forall x, x ∈ l -> f x = g x) -> omap f l = omap g l.
Proof.
  induction l as [|x l IH]; intros Hl; [done|]. cbn [omap list_omap]. rewrite (Hl x) by by left.
  by rewrite (IH ltac:(intros; apply Hl; by right)).
Qed.

Lemma disconnect_all_none s o : mem s !! (First, o) = Some None -> disconnect_all o s = Ok (tt, s).
Proof.
  intros Hf. unfold disconnect_all. erewrite bind_ok by done.
  erewrite bind_ok by (apply lift_ok; apply elements_of_seg with (l := []); [exact Hf|constructor]). erewrite bind_ok by done.
  rewrite write_ok by eauto. unfold put_cell. rewrite (insert_id _ _ _ Hf). by destruct s.
Qed.

(** What [exit_outputs] leaves alone *)
Definition inputs_left s s' : Prop :=
  (forall o, lc_of loaders s' o = lc_of loaders s o) /\ (forall o, is_input loaders s o -> headers s' !! o = headers s !! o) /\
  bricks s' = bricks s /\ mem s' = mem s.

Lemma own_param_some s o h p bh : headers s !! o = Some h -> param_of s o = Some p -> Some p <> b_param bh -> own_param h bh = Some p.
Proof.
  intros Hh Hp Hne. unfold param_of in Hp. rewrite Hh in Hp. simpl in Hp. unfold own_param. rewrite Hp. by rewrite decide_False.
Qed.

Lemma own_param_none s o h bh : headers s !! o = Some h -> param_of s o = None -> own_param h bh = None.
Proof. intros Hh Hp. unfold param_of in Hp. rewrite Hh in Hp. simpl in Hp. unfold own_param. by rewrite Hp. Qed.

Lemma exit_outputs_run s root B C L b bh param l ps : dying s root B C L b (omap (out_param s) l ++ ps) -> b ∈ B -> NoDup l ->
  (forall o, o ∈ l -> o ∈ C b) -> (forall o, o ∈ l -> is_output loaders s o -> sources L o = []) ->
  (forall o, o ∈ l -> is_Some (param_of s o) -> param_of s o <> b_param bh) ->
  exists s', exit_outputs loaders code bh param l s = Ok (tt, s') /\ dying s' root B C L b ps /\ inputs_left s s'.
Proof.
  revert s. induction l as [|o l IH]; intros s H Hb Hnd Hl Hsrc Hbp; [by exists s|]. cbn [exit_outputs].
  apply NoDup_cons in Hnd as [Hol Hnd]. assert (o ∈ C b) as Ho by (apply Hl; by left).
  destruct (dying_lc _ _ _ _ _ _ _ _ H Hb Ho) as [lc Hlc]. rewrite (bind_ok _ _ _ _ _ (load_conn_of_ok _ _ _ _ Hlc)).
  assert (forall s1, dying s1 root B C L b (omap (out_param s1) l ++ ps) -> inputs_left s s1 -> (forall x, x ∈ l -> param_of s1 x = param_of s x) ->
    exists s', exit_outputs loaders code bh param l s1 = Ok (tt, s') /\ dying s' root B C L b ps /\ inputs_left s s') as Hgo.
  { intros s1 H1 (L1 & L2 & L3 & L4) Hp1. destruct (IH s1 H1 Hb Hnd) as (s' & Hrun & Hd & (K1 & K2 & K3 & K4)).
    - intros x Hx. apply Hl. by right.
    - intros x Hx Hout. apply Hsrc; [by right|]. unfold is_output in *. by rewrite <- L1.
    - intros x Hx. rewrite Hp1 by done. apply Hbp. by right.
    - exists s'. split; [done|]. split; [done|]. split; [intros x; by rewrite K1|]. split; [|split; congruence].
      intros x Hx. rewrite K2; [by apply L2|]. unfold is_input in *. by rewrite L1. }
  destruct (conn_header _ _ _ _ _ _ (dy_data _ _ _ _ _ _ _ H) Hb Ho) as (h & inst & Hh & _ & Hinst).
  cbn [omap list_omap] in H. unfold out_param at 1 in H. rewrite Hlc in H. destruct (l_type lc) eqn:Ht; cbn [negb].
  2: { erewrite bind_ok by done. by apply Hgo. }
  assert (mem s !! (First, o) = Some None) as Hf.
  { assert (o ∈ all_conns B C) as Hall by (apply elem_of_all_conns; eauto). assert (is_output loaders s o) as Hout by by exists lc.
    destruct (k_out _ _ _ _ (w_links _ _ _ _ _ (dy_wiring _ _ _ _ _ _ _ H)) _ Hall Hout) as [Hsg _].
    rewrite Hsrc in Hsg; [done|by left|done]. }
  rewrite bind_assoc, (bind_ok _ _ _ _ _ (disconnect_all_none _ _ Hf)), bind_assoc, (bind_ok _ _ _ _ _ (header_ok _ _ _ Hh)).
  destruct (param_of s o) as [p|] eqn:Hp.
  2: { rewrite (own_param_none _ _ _ _ Hh Hp). erewrite bind_ok by done. by apply Hgo. }
  rewrite (own_param_some _ _ _ _ bh Hh Hp) by (rewrite <- Hp; apply Hbp; [by left|eauto]).
  destruct (lc_of_inv _ _ _ _ Hlc) as (h' & ld & k & Hh' & Hr & _). assert (h' = h) as -> by congruence.
  rewrite bind_assoc, (bind_ok _ _ _ _ _ (the_ok _ _ _ Hr)), bind_assoc, (bind_ok _ _ _ _ _ (the_ok _ _ _ Hinst)), bind_assoc.
  erewrite bind_ok by done. set (s1 := s <| world_ := _ |>).
  assert (dying s1 root B C L b (p :: (omap (out_param s) l ++ ps))) as H1 by by eapply dying_world.
  destruct (dying_free _ _ _ _ _ _ _ _ H1) as (s2 & Hrun2 & H2 & E1 & E2 & E3). rewrite bind_assoc, (bind_ok _ _ _ _ _ Hrun2).
  assert (headers s2 !! o = Some h) as Hh2 by by rewrite E1.
  rewrite (bind_ok _ _ _ _ _ (set_header_ok _ _ _ _ Hh2)). pose proof (dying_clear _ _ _ _ _ _ _ _ _ H2 Hb Ho Hh2) as H3.
  set (s3 := s2 <| headers := _ |>) in *.
  assert (forall x, x <> o -> headers s3 !! x = headers s !! x) as Hx.
  { intros x Hx. simpl. rewrite lookup_insert_ne by done. by rewrite E1. }
  assert (forall x, lc_of loaders s3 x = lc_of loaders s x) as Hlc3.
  { intros x. unfold lc_of. destruct (decide (x = o)) as [->|Hne]; [|by rewrite Hx]. simpl. rewrite lookup_insert, decide_True by done. by rewrite Hh. }
  assert (forall x, x ∈ l -> param_of s3 x = param_of s x) as Hp3.
  { intros x Hxl. unfold param_of. rewrite Hx; [done|]. by intros ->. }
  apply Hgo; [|split; [done|split; [|done]]|done].
  - rewrite (omap_same (out_param s3) (out_param s)); [done|]. intros x Hxl. unfold out_param. by rewrite Hlc3, Hp3.
  - intros x (lc' & Hlc' & Ht'). apply Hx. intros ->. congruence.
Qed.

Lemma filter_cut L o l : filter (fun x => x.1 ∉ o :: l) L = filter (fun x => x.1 ∉ l) (cut L o).
Proof.
  unfold cut. rewrite list_filter_filter. apply list_filter_iff. intros x. rewrite not_elem_of_cons. tauto.
Qed.

Lemma exit_inputs_run s root B C L b bh l ps : dying s root B C L b (omap (in_param s) l ++ ps) -> b ∈ B -> NoDup l ->
  (forall o, o ∈ l -> o ∈ C b) -> (forall o, o ∈ l -> is_Some (param_of s o) -> is_input loaders s o -> param_of s o <> b_param bh) ->
  exists s', exit_inputs loaders bh l s = Ok (tt, s') /\ dying s' root B C (filter (fun x => x.1 ∉ l) L) b ps /\
    headers s' = headers s /\ bricks s' = bricks s /\ (forall x, mem s' !! (HashNext, x) = mem s !! (HashNext, x)).
Proof.
  revert s L. induction l as [|o l IH]; intros s L H Hb Hnd Hl Hbp.
  { exists s. split; [done|]. split; [|done]. rewrite filter_keep; [done|]. intros x _. apply not_elem_of_nil. }
  cbn [exit_inputs]. apply NoDup_cons in Hnd as [Hol Hnd]. assert (o ∈ C b) as Ho by (apply Hl; by left).
  destruct (dying_lc _ _ _ _ _ _ _ _ H Hb Ho) as [lc Hlc]. rewrite (bind_ok _ _ _ _ _ (load_conn_of_ok _ _ _ _ Hlc)). rewrite filter_cut.
  assert (forall s1, dying s1 root B C (cut L o) b (omap (in_param s) l ++ ps) -> headers s1 = headers s -> bricks s1 = bricks s ->
    (forall x, mem s1 !! (HashNext, x) = mem s !! (HashNext, x)) ->
    exists s', exit_inputs loaders bh l s1 = Ok (tt, s') /\ dying s' root B C (filter (fun x => x.1 ∉ l) (cut L o)) b ps /\
      headers s' = headers s /\ bricks s' = bricks s /\ (forall x, mem s' !! (HashNext, x) = mem s !! (HashNext, x))) as Hgo.
  { intros s1 H1 L1 L2 L3. assert (forall x, param_of s1 x = param_of s x) as Hpar by (intros x; unfold param_of; by rewrite L1).
    assert (forall x, lc_of loaders s1 x = lc_of loaders s x) as Hlc1 by (intros x; unfold lc_of; by rewrite L1).
    destruct (IH s1 (cut L o)) as (s' & Hrun & Hd & K1 & K2 & K3); [|done|done| | |].
    - rewrite (omap_same (in_param s1) (in_param s)); [done|]. intros x _. unfold in_param. by rewrite Hlc1, Hpar.
    - intros x Hx. apply Hl. by right.
    - intros x Hx. unfold is_input. rewrite Hpar, Hlc1. apply Hbp. by right.
    - exists s'. split; [done|]. split; [done|]. split; [congruence|]. split; [congruence|]. intros x. by rewrite K3. }
  destruct (conn_header _ _ _ _ _ _ (dy_data _ _ _ _ _ _ _ H) Hb Ho) as (h & inst & Hh & _ & _).
  cbn [omap list_omap] in H. unfold in_param at 1 in H. rewrite Hlc in H. destruct (l_type lc) eqn:Ht.
  - erewrite bind_ok by done. apply Hgo; try done. rewrite cut_not_in; [done|].
    intros ((x & y) & -> & Hxy)%list_elem_of_fmap. destruct (k_link _ _ _ _ (w_links _ _ _ _ _ (dy_wiring _ _ _ _ _ _ _ H)) _ _ Hxy) as (_ & (lc' & Hlc' & Ht') & _).
    simpl in Hlc. congruence.
  - assert (is_input loaders s o) as Hin by by exists lc.
    destruct (dying_disconnect _ _ _ _ _ _ _ _ H Hb Ho Hin) as (r & s1 & Hrun & H1 & Hrw).
    rewrite bind_assoc, (bind_ok _ _ _ _ _ Hrun). destruct Hrw as ((m & ->) & _ & Hag).
    assert (forall x, m !! (HashNext, x) = mem s !! (HashNext, x)) as Hhn by (intros x; apply Hag; intros []).
    rewrite bind_assoc. erewrite bind_ok by (apply header_ok; exact Hh).
    destruct (param_of s o) as [p|] eqn:Hp.
    + rewrite (own_param_some s _ _ _ bh Hh Hp) by (rewrite <- Hp; apply Hbp; [by left|eauto|done]).
      destruct (dying_free _ _ _ _ _ _ _ _ H1) as (s2 & Hrun2 & H2 & E1 & E2 & E3). rewrite (bind_ok _ _ _ _ _ Hrun2).
      apply Hgo; [done|done|done|]. intros x. rewrite E3. apply Hhn.
    + rewrite (own_param_none s _ _ _ Hh Hp). erewrite bind_ok by done. by apply Hgo.
Qed.

(** ** [free(brick)] *)

Lemma slots_gone b l (m : gmap obj connector_header) o : ~ of_brick b o ->
  foldr (fun i => delete (Slot b i)) m l !! o = m !! o.
Proof.
  intros Ho. induction l as [|x l IH]; [done|]. cbn [foldr]. rewrite lookup_delete_ne; [done|]. intros <-. by apply Ho.
Qed.

Lemma slots_fewer b l (m : gmap obj connector_header) o : is_Some (foldr (fun i => delete (Slot b i)) m l !! o) -> is_Some (m !! o).
Proof. induction l as [|x l IH]; [done|]. cbn [foldr]. intros [_ Hx]%lookup_delete_is_Some. by apply IH. Qed.

(** The connectors of other bricks and their structures are not in the brick. *)
Lemma conn_outside s B C x b o : data_ok loaders s B C -> x ∈ B -> x <> b -> o ∈ C x ->
  ~ of_brick b o /\ exists p, inst_of s o = Some p /\ ~ of_brick b p /\ (is_output loaders s o -> outputs loaders s (rem b B) C p).
Proof.
  intros Hd Hx Hxb Ho. destruct (d_conn _ _ _ _ Hd _ _ Hx Ho) as (h & ld & l & i & lc & p & Hh & _ & Hr & Hld & Hl & Hi & Hp & Hpl).
  assert (inst_of s o = Some p) as Hpo by (unfold inst_of; by rewrite Hh).
  assert (lc_of loaders s o = Some lc) as Hlc by (unfold lc_of, lc_at; rewrite Hh; simpl; rewrite Hr; simpl; by rewrite Hl).
  assert (x ∈ rem b B) as Hxr by by apply elem_of_rem.
  destruct o as [|bo jo|no| | | | |]; try done; simpl in Hpl.
  - destruct Hpl as (-> & _ & k & -> & Hk & _). split; [simpl; congruence|]. eexists. split; [done|]. split; [simpl; congruence|].
    intros (lc' & Hlc' & Ht). assert (lc' = lc) as -> by congruence. left. exists x, l, i, lc, k. split; [done|]. split; [|done].
    unfold table_of. rewrite Hld. done.
  - destruct Hpl as [n ->]. split; [simpl; tauto|]. eexists. split; [done|]. split; [simpl; tauto|]. intros Hout. right. exists n, (Dyn no).
    split; [done|]. split; [apply elem_of_all_conns; eauto|]. done.
Qed.

Section gone.
Context (s : state) (root : nat) (B : list nat) (C : nat -> list obj) (L : list (obj * obj)) (b : nat) (l : loader_t).
Context (H : dying s root B C L b []) (Hb : b ∈ B) (HL : forall i o, (i, o) ∈ L -> i ∉ C b /\ o ∉ C b).
Let s' := free_brick b l s.

Lemma gone_mem c : ~ of_brick b c.2 -> mem s' !! c = mem s !! c.
Proof using H Hb HL.
  intros Hc. change (release (brick_cells b l) (mem s) !! c = mem s !! c). rewrite lookup_release.
  rewrite decide_False; [done|]. intros Hin. apply Hc. by eapply brick_cells_of.
Qed.

Lemma gone_header o : ~ of_brick b o -> headers s' !! o = headers s !! o.
Proof using H Hb HL. intros Ho. by apply slots_gone. Qed.

Lemma gone_brick x : x <> b -> bricks s' !! x = bricks s !! x.
Proof using H Hb HL. intros Hx. simpl. by rewrite lookup_delete_ne. Qed.

Lemma gone_facts o : ~ of_brick b o -> lc_of loaders s' o = lc_of loaders s o /\ inst_of s' o = inst_of s o /\ param_of s' o = param_of s o.
Proof using H Hb HL. intros Ho. unfold lc_of, inst_of, param_of. by rewrite !gone_header. Qed.

Lemma gone_loader x : x <> b -> loader_of_brick s' x = loader_of_brick s x /\ table_of loaders s' x = table_of loaders s x /\
  addr_of s' x = addr_of s x /\ brick_param s' x = brick_param s x.
Proof using H Hb HL. intros Hx. unfold table_of, loader_of_brick, addr_of, brick_param. by rewrite !gone_brick. Qed.

Lemma rest_conn o : o ∈ all_conns (rem b B) C <-> o ∈ all_conns B C /\ o ∉ C b.
Proof using H Hb HL.
  rewrite !elem_of_all_conns. setoid_rewrite elem_of_rem. split.
  - intros (x & [Hx Hxb] & Ho). split; [eauto|]. intros Hob. apply Hxb. eapply conns_disjoint; [apply (dy_data _ _ _ _ _ _ _ H)|done..].
  - intros ((x & Hx & Ho) & Hob). exists x. split; [|done]. split; [done|]. by intros ->.
Qed.

Lemma rest_outside o : o ∈ all_conns (rem b B) C -> ~ of_brick b o /\ exists p, inst_of s o = Some p /\ ~ of_brick b p /\
  (is_output loaders s o -> outputs loaders s (rem b B) C p).
Proof using H Hb HL.
  intros (x & [Hx Hxb]%elem_of_rem & Ho)%elem_of_all_conns. by eapply conn_outside; [apply (dy_data _ _ _ _ _ _ _ H)|..].
Qed.

Lemma rest_link i o : (i, o) ∈ L -> i ∈ all_conns (rem b B) C /\ is_input loaders s i /\
  (o ∈ all_conns (rem b B) C /\ is_output loaders s o \/ exists e, o = Entry e /\ (e < MAINDIR_MAX)%nat).
Proof using H Hb HL.
  intros Hio. destruct (k_link _ _ _ _ (w_links _ _ _ _ _ (dy_wiring _ _ _ _ _ _ _ H)) _ _ Hio) as (Hi & Hin & Ho).
  destruct (HL _ _ Hio) as [Hib Hob]. rewrite !rest_conn. split; [done|]. split; [done|].
  destruct Ho as [[Ho Hout]|Ho]; [left|right]; done.
Qed.

Lemma gone_links : links_ok loaders s' (all_conns (rem b B) C) L.
Proof using H Hb HL.
  pose proof (w_links _ _ _ _ _ (dy_wiring _ _ _ _ _ _ _ H)) as [K1 K2 K3 K4 K5 K6 K7].
  assert (forall o, o ∈ all_conns (rem b B) C -> (is_input loaders s' o <-> is_input loaders s o) /\ (is_output loaders s' o <-> is_output loaders s o)) as Hty.
  { intros o Ho. destruct (rest_outside o Ho) as [Hno _]. unfold is_input, is_output. by rewrite (proj1 (gone_facts o Hno)). }
  assert (forall o l', ~ of_brick b o -> (forall i, i ∈ l' -> (i, o) ∈ L) -> seg (mem s) (First, o) Chain l' -> seg (mem s') (First, o) Chain l') as Hseg.
  { intros o l' Ho Hl Hs. eapply seg_frame; [exact Hs|by apply gone_mem|]. intros i Hi. apply gone_mem.
    destruct (rest_link _ _ (Hl i Hi)) as [Hir _]. by apply rest_outside. }
  split.
  - intros e [He _]%rest_conn. by apply (K1 e).
  - done.
  - intros i o Hio. destruct (rest_link _ _ Hio) as (Hi & Hin & Ho). split; [done|]. split; [by apply Hty|].
    destruct Ho as [[Ho Hout]|Ho]; [left|by right]. split; [done|]. by apply Hty.
  - intros i Hi Hin. apply Hty in Hin; [|done]. pose proof (rest_outside i Hi) as [Hni _]. apply rest_conn in Hi as [Hi _].
    rewrite !gone_mem by done. by apply K4.
  - intros o Ho Hout. apply Hty in Hout; [|done]. pose proof (rest_outside o Ho) as [Hno _]. apply rest_conn in Ho as [Ho _].
    destruct (K5 o Ho Hout) as [K51 K52]. rewrite gone_mem by done. split; [|done]. apply Hseg; [done| |done]. intros i. apply elem_of_sources.
  - intros e He. apply Hseg; [simpl; tauto| |by apply K6]. intros i. apply elem_of_sources.
  - intros e He. rewrite gone_mem by (simpl; tauto). by apply K7.
Qed.

Lemma gone_inst o : o ∈ all_conns (rem b B) C \/ (exists e, o = Entry e) -> inst_of s' o = inst_of s o.
Proof using H Hb HL.
  intros [Ho|[e ->]]; apply gone_facts; [by apply rest_outside|simpl; tauto].
Qed.

Lemma gone_rev q : rev_sources s' L q = rev_sources s L q.
Proof using H Hb HL.
  assert (forall i o, (i, o) ∈ L -> inst_of s' i = inst_of s i /\ inst_of s' o = inst_of s o) as Hinst.
  { intros i o Hio. destruct (rest_link _ _ Hio) as (Hi & _ & Ho). split; apply gone_inst; [by left|].
    destruct Ho as [[Ho _]|(e & -> & _)]; [by left|right; eauto]. }
  unfold rev_sources. apply omap_same. intros [i o] Hio. destruct (Hinst i o Hio) as [E1 E2]. simpl. by rewrite E1, E2.
Qed.

Lemma gone_outputs q : outputs loaders s' (rem b B) C q -> outputs loaders s B C q /\ ~ of_brick b q.
Proof using H Hb HL.
  intros [(x & l' & i & lc & k & [Hx Hxb]%elem_of_rem & H2 & H3)|(n & o & -> & H1 & H2 & H3)].
  - rewrite (proj1 (proj2 (gone_loader x Hxb))) in H2. split; [left; exists x, l', i, lc, k; done|].
    destruct H3 as (_ & _ & _ & ->). simpl. congruence.
  - split; [|simpl; tauto]. right. exists n, o. pose proof (rest_outside o H1) as [Hno _]. split; [done|].
    split; [by apply rest_conn in H1 as [? _]|]. destruct (gone_facts o Hno) as (E1 & E2 & _). unfold is_output in *. by rewrite <- E1, <- E2.
Qed.

Lemma gone_outputs_back q : outputs loaders s (rem b B) C q -> outputs loaders s' (rem b B) C q.
Proof using H Hb HL.
  intros [(x & l' & i & lc & k & Hx & H2 & H3)|(n & o & -> & H1 & H2 & H3)].
  - left. exists x, l', i, lc, k. pose proof Hx as [_ Hxb]%elem_of_rem. by rewrite (proj1 (proj2 (gone_loader x Hxb))).
  - right. exists n, o. pose proof (rest_outside o H1) as [Hno _]. destruct (gone_facts o Hno) as (E1 & E2 & _). unfold is_output in *.
    by rewrite E1, E2.
Qed.

Lemma gone_revs : revs_ok loaders s' (all_conns (rem b B) C) (outputs loaders s' (rem b B) C) L.
Proof using H Hb HL.
  pose proof (dy_wiring _ _ _ _ _ _ _ H) as Hw. pose proof (w_revs _ _ _ _ _ Hw) as Hr.
  assert (forall o, o ∈ all_conns (rem b B) C -> o ∈ all_conns B C /\ inst_of s' o = inst_of s o /\
    (is_input loaders s' o <-> is_input loaders s o) /\ (is_output loaders s' o <-> is_output loaders s o)) as Hty.
  { intros o Ho. destruct (rest_outside o Ho) as [Hno _]. destruct (gone_facts o Hno) as (E1 & E2 & _). apply rest_conn in Ho as [Ho _].
    unfold is_input, is_output. by rewrite E1, E2. }
  split.
  - intros i Hi Hin. destruct (Hty i Hi) as (Hi' & Ei & Tin & _). apply Tin in Hin. destruct (r_in _ _ _ _ _ Hr i Hi' Hin) as (p & Hp & Hpn & Hpc & Hpr).
    destruct (rest_outside i Hi) as (_ & p' & Hp' & Hno & _). assert (p' = p) as -> by congruence.
    exists p. rewrite Ei, !gone_mem by done. split; [done|]. split; [done|]. split; [|done]. rewrite Hpc. f_equal.
    destruct (target L i) as [o|] eqn:Ht; [|done]. simpl. symmetry. apply gone_inst.
    apply target_Some in Ht; [|apply (k_nodup _ _ _ _ (w_links _ _ _ _ _ Hw))].
    destruct (rest_link _ _ Ht) as (_ & _ & [[Ho _]|(e & -> & _)]); [by left|right; eauto].
  - intros o Ho Hout. destruct (Hty o Ho) as (_ & Eo & _ & Tout). apply Tout in Hout.
    destruct (rest_outside o Ho) as (_ & p & Hp & _ & HP). exists p. rewrite Eo. split; [|done]. by apply gone_outputs_back, HP.
  - intros q Hq. destruct (gone_outputs q Hq) as [Hq' Hno]. destruct (r_out _ _ _ _ _ Hr q Hq') as (lx & [Hl1 Hl2] & Hs). exists lx. rewrite gone_rev.
    assert (forall y, y ∈ lx -> ~ of_brick b y) as Hlx.
    { intros y Hy. destruct (Hl2 y Hy) as [_ Hk]. destruct q; try done. destruct Hk as [k' ->]. done. }
    split; [split; [done|]|].
    + intros y Hy. destruct (Hl2 y Hy) as [Hyc Hk]. split; [|done]. rewrite gone_mem; [done|]. by apply Hlx.
    + eapply seg_frame; [exact Hs|by apply gone_mem|]. intros y [Hy|Hy]%elem_of_app; apply gone_mem; [|by apply Hlx].
      apply elem_of_rev_sources in Hy as (i & o & Hio & Hi & _). destruct (rest_link _ _ Hio) as (Hir & _).
      destruct (rest_outside i Hir) as (_ & p & Hp & Hpn & _). simpl. congruence.
  - intros i j Hi Hj Hin Hjn. destruct (Hty i Hi) as (Hi' & Ei & Ti & _), (Hty j Hj) as (Hj' & Ej & Tj & _).
    apply Ti in Hin. apply Tj in Hjn. rewrite Ei, Ej. by apply (r_inj _ _ _ _ _ Hr).
Qed.

Lemma gone_core : core_ok loaders s' root (rem b B) C L.
Proof using H Hb HL.
  pose proof H as [[B1 B2] [C1 C2 C3] [D1 D2] Hw [O1 O2 O3 O4] Hdir Hs _ _].
  assert (forall x, x ∈ rem b B -> x ∈ B /\ x <> b) as Hrem by (intros x; apply elem_of_rem).
  assert (forall x o, x ∈ rem b B -> o ∈ C x -> ~ of_brick b o) as Hout.
  { intros x o Hx Ho. apply rest_outside, elem_of_all_conns. eauto. }
  split.
  - split; [by apply NoDup_filter|]. intros x [Hx Hxb]%Hrem. rewrite (proj1 (proj2 (gone_loader x Hxb))). by apply B2.
  - split; intros x Hx; pose proof (Hrem x Hx) as [Hx' Hxb].
    + by apply C1.
    + eapply seg_frame; [by apply C2|apply gone_mem; simpl; congruence|]. intros o Ho. apply gone_mem. by eapply Hout.
    + rewrite gone_mem by (simpl; congruence). by apply C3.
  - split.
    + intros x l' j Hx Hl' Hj. pose proof (Hrem x Hx) as [Hx' Hxb]. rewrite (proj1 (proj2 (gone_loader x Hxb))) in Hl'.
      rewrite gone_header by (simpl; congruence). rewrite !gone_mem by (simpl; congruence). by apply D1.
    + intros x o Hx Ho. pose proof (Hrem x Hx) as [Hx' Hxb]. rewrite gone_header by by eapply Hout. rewrite (proj1 (gone_loader x Hxb)). by apply D2.
  - split; [apply gone_links|apply gone_revs|]. intros e. rewrite gone_header by (simpl; tauto). apply (w_entry _ _ _ _ _ Hw).
  - eapply strings_free with (s := s) (p := allocs s); [exact Hs| | | |].
    + intros x Hx Hr. split.
      * intros Hp. destruct (s_brick _ _ _ _ Hs x Hx Hr) as (q & Hq & [t Ht]). assert (q = allocs s) as -> by congruence.
        assert (allocs s < allocs s)%nat by (apply O4; eauto). lia.
      * intros o Ho Hp. destruct (s_conn _ _ _ _ Hs x o _ Hx Hr Ho Hp) as [t Ht]. assert (allocs s < allocs s)%nat by (apply O4; eauto). lia.
    + intros x o Hx Ho. apply gone_facts. by eapply Hout.
    + intros x [Hx Hxb]%Hrem. by apply gone_loader.
    + simpl. rewrite delete_id; [done|]. destruct (strings s !! allocs s) eqn:E; [|done].
      assert (allocs s < allocs s)%nat by (apply O4; eauto). lia.
  - split.
    + intros c Hc. apply O1. change (is_Some (release (brick_cells b l) (mem s) !! c)) in Hc. rewrite lookup_release in Hc. case_decide; [by destruct Hc|done].
    + intros o Ho. apply O2. exact (slots_fewer _ _ _ _ Ho).
    + intros x Hx. apply O3. simpl in Hx. by apply lookup_delete_is_Some in Hx as [_ Hx].
    + done.
  - done.
Qed.

Lemma gone_hash : hash_ok s (rem b B) -> hash_ok s' (rem b B).
Proof using H Hb HL.
  intros [H1 H2 H3].
  assert (forall x, x ∈ rem b B -> addr_of s' x = addr_of s x) as Ha by (intros x [_ Hx]%elem_of_rem; by apply gone_loader).
  split.
  - intros x Hx. rewrite Ha by done. by apply H1.
  - intros x y Hx Hy. rewrite !Ha by done. by apply H2.
  - intros k Hk. assert (filter (in_bucket s' k) (rem b B) = filter (in_bucket s k) (rem b B)) as ->.
    { clear -Ha. induction (rem b B) as [|x l' IH]; [done|]. rewrite !filter_cons, IH by (intros; apply Ha; by right).
      assert (in_bucket s' k x <-> in_bucket s k x) as Hx by (unfold in_bucket; by rewrite Ha by by left). repeat case_decide; tauto || done. }
    eapply seg_frame; [by apply H3|apply gone_mem; simpl; tauto|]. intros o (x & -> & [_ Hx]%list_elem_of_filter)%list_elem_of_fmap.
    apply elem_of_rem in Hx as [_ Hx]. apply gone_mem. simpl. congruence.
Qed.

Lemma gone_control : hash_ok s (rem b B) -> inputs_ok loaders s B C -> control_ok loaders s' root (rem b B) C L.
Proof using H Hb HL.
  intros Hh Hi. split; [apply gone_core|by apply gone_hash|]. intros x l' i lc k [Hx Hxb]%elem_of_rem Hl'. rewrite (proj1 (proj2 (gone_loader x Hxb))) in Hl'. by apply Hi.
Qed.
End gone.

(** ** [_delete_brick] *)

(** The first output of the brick that is in use *)
Definition output_used s L o : bool := match lc_of loaders s o with Some lc => l_type lc && bool_decide (sources L o <> []) | None => false end.
Definition used_output s C L (b : nat) : option obj := List.find (output_used s L) (C b).

Lemma in_use_ok s root B C L b o : core_ok loaders s root B C L -> b ∈ B -> o ∈ C b -> in_use loaders s o = Ok (output_used s L o).
Proof.
  intros H Hb Ho. destruct (conn_lc loaders _ _ _ _ _ (k_data _ _ _ _ _ _ H) Hb Ho) as (h & ld & k & lc & Hh & Hr & Hat & Hlc).
  unfold in_use, output_used. rewrite Hh, Hr, Hlc. change (loaders !! ld ≫= (fun l => ld_conns l !! k)) with (lc_at loaders (ld, k)). rewrite Hat.
  destruct (l_type lc) eqn:Ht; cbn [negb andb]; [|done]. assert (o ∈ all_conns B C) as Hall by (apply elem_of_all_conns; eauto).
  destruct (k_out _ _ _ _ (w_links _ _ _ _ _ (k_wiring _ _ _ _ _ _ H)) _ Hall (ex_intro _ lc (conj Hlc Ht))) as [Hs _].
  apply seg_head in Hs. rewrite (load_some _ _ _ Hs). cbn [mbind cres_bind]. f_equal. apply bool_decide_ext. by destruct (sources L o).
Qed.

Lemma hash_unlink s B b bh v : hash_ok s B -> NoDup B -> b ∈ B -> bricks s !! b = Some bh -> mem s !! (HashNext, Brick b) = Some v ->
  let c := cell_before (bucket (addr bh)) HashNext (Brick <$> filter (in_bucket s (bucket_ix (addr bh))) B) (Brick b) in
  c.1 = HashNext /\ is_Some (mem s !! c) /\ find_cell (mem s) (bucket (addr bh)) HashNext (Brick b) = Ok (Some c) /\
  hash_ok (put_cell c v s) (rem b B).
Proof.
  intros [H1 H2 H3] Hnd Hb Hbh Hv c. set (k := bucket_ix (addr bh)) in *. set (l := Brick <$> filter (in_bucket s k) B) in *.
  pose proof (H3 k (bucket_lt _)) as Hs. fold l in Hs. change (HashNext, Bucket k) with (bucket (addr bh)) in Hs.
  assert (forall k', NoDup (Brick <$> filter (in_bucket s k') B)) as Hnds.
  { intros k'. apply NoDup_fmap_2; [by intros ?? [= ?]|]. by apply NoDup_filter. }
  assert (in_bucket s k b) as Hin by (unfold in_bucket, addr_of; by rewrite Hbh).
  assert (Brick b ∈ l) as Hbl.
  { apply list_elem_of_fmap. exists b. split; [done|]. by apply list_elem_of_filter. }
  pose proof (cell_before_in (bucket (addr bh)) HashNext l (Brick b)) as Hcb. fold c in Hcb.
  assert (c.1 = HashNext) as Hc1 by by destruct Hcb as [->|(y & _ & _ & ->)].
  split; [done|]. split; [eexists; by eapply cell_before_some|]. split.
  { rewrite (find_cell_seg _ _ _ _ _ Hs (Hnds k)). by rewrite decide_True. }
  split.
  - intros x [Hx _]%elem_of_rem. by apply H1.
  - intros x y [Hx _]%elem_of_rem [Hy _]%elem_of_rem. by apply H2.
  - intros k' Hk'. change (filter (in_bucket (put_cell c v s) k') (rem b B)) with (filter (in_bucket s k') (rem b B)).
    assert (Brick <$> filter (in_bucket s k') (rem b B) = filter (fun y => y <> Brick b) (Brick <$> filter (in_bucket s k') B)) as ->.
    { unfold rem. clear. induction B as [|x B IH]; [done|]. rewrite !filter_cons. destruct (decide (x = b)) as [->|Hx].
      - rewrite (decide_False (P := b <> b)) by tauto. rewrite IH. case_decide; [|done]. rewrite fmap_cons, filter_cons. by rewrite decide_False by tauto.
      - rewrite (decide_True (P := x <> b)) by done. rewrite filter_cons. case_decide; [|done].
        rewrite !fmap_cons, filter_cons. rewrite decide_True by congruence. by rewrite IH. }
    destruct (decide (k' = k)) as [->|Hkk].
    + apply seg_unlink; [exact Hs|apply Hnds|by intros y (x & -> & _)%list_elem_of_fmap|done|done].
    + assert (Brick b ∉ Brick <$> filter (in_bucket s k') B) as Hnot.
      { intros (x & [= <-] & [Hx _]%list_elem_of_filter)%list_elem_of_fmap. unfold in_bucket in Hx, Hin. congruence. }
      rewrite filter_keep by (by intros y Hy ->). apply seg_insert_ne; [by apply H3| |].
      * destruct Hcb as [->|(y & (x & -> & _)%list_elem_of_fmap & _ & ->)]; [|done]. unfold bucket. intros [= E]. by apply Hkk.
      * intros y Hy. destruct Hcb as [->|(z & Hz & _ & ->)]; [by apply list_elem_of_fmap in Hy as (x & -> & _)|]. intros [= ->].
        apply list_elem_of_fmap in Hz as (x & -> & [Hx1 _]%list_elem_of_filter), Hy as (y & [= <-] & [Hy1 _]%list_elem_of_filter).
        unfold in_bucket in Hx1, Hy1. congruence.
Qed.

Lemma strings_sub s root B B' C : strings_ok s root B C -> (forall x, x ∈ B' -> x ∈ B) -> strings_ok s root B' C.
Proof.
  intros [H1 H2 H3 H4 H5] Hs. split; [eauto..| |].
  - intros b1 b2 o1 o2 p Hb1 Hb2. apply (H4 b1 b2); auto.
  - intros b1 b2 o Hb1 Hb2. apply (H5 b1 b2); auto.
Qed.

Lemma NoDup_omap {A A'} (f : A -> option A') (l : list A) : NoDup l ->
  (forall x y z, x ∈ l -> y ∈ l -> f x = Some z -> f y = Some z -> x = y) -> NoDup (omap f l).
Proof.
  induction 1 as [|x l Hx Hl IH]; intros Hf; [constructor|]. cbn [omap list_omap].
  assert (NoDup (omap f l)) as Hn by (apply IH; intros y1 y2 z ??; apply Hf; by right).
  destruct (f x) as [z|] eqn:Hz; [|done]. apply NoDup_cons. split; [|done]. intros (y & Hy & Hfy)%list_elem_of_omap.
  apply Hx. assert (x = y) as ->; [|done]. apply (Hf x y z); [by left|by right|done|done].
Qed.

(** All strings of the brick, in the order in which they are freed *)
Lemma dying_start s root B C L b p : core_ok loaders s root B C L -> b ∈ B -> b <> root -> brick_param s b = Some p ->
  dying s root B C L b (omap (out_param s) (C b) ++ (omap (in_param s) (C b) ++ [p])).
Proof.
  intros [H1 H2 H3 H4 H5 H6 H7] Hb Hr Hp.
  assert (forall o q, out_param s o = Some q -> param_of s o = Some q /\ exists lc, lc_of loaders s o = Some lc /\ l_type lc = true) as Hout.
  { intros o q. unfold out_param. destruct (lc_of loaders s o) as [lc|]; [|done]. destruct (l_type lc) eqn:Ht; [|done]. eauto. }
  assert (forall o q, in_param s o = Some q -> param_of s o = Some q /\ exists lc, lc_of loaders s o = Some lc /\ l_type lc = false) as Hin.
  { intros o q. unfold in_param. destruct (lc_of loaders s o) as [lc|]; [|done]. destruct (l_type lc) eqn:Ht; [done|]. eauto. }
  assert (forall x y q, x ∈ C b -> y ∈ C b -> param_of s x = Some q -> param_of s y = Some q -> x = y) as Hinj.
  { intros x y q Hx Hy. by apply (s_conns _ _ _ _ H5 b b). }
  assert (forall o, o ∈ C b -> param_of s o = Some p -> False) as Hnp.
  { intros o Ho Hop. apply (s_apart _ _ _ _ H5 b b o Hb Hb Hr Hr Ho); [eauto|congruence]. }
  split; try done.
  - eapply strings_sub; [exact H5|]. intros x. rewrite elem_of_rem. tauto.
  - apply NoDup_app. split; [|split].
    + apply NoDup_omap; [by apply H2|]. intros x y q Hx Hy [Hxq _]%Hout [Hyq _]%Hout. by eapply Hinj.
    + intros q (x & Hx & Hxq)%list_elem_of_omap [(y & Hy & Hyq)%list_elem_of_omap| ->%list_elem_of_singleton]%elem_of_app.
      * apply Hout in Hxq as (Hxq & lc & Hlc & Ht). apply Hin in Hyq as (Hyq & lc' & Hlc' & Ht').
        assert (x = y) as -> by by eapply Hinj. congruence.
      * apply Hout in Hxq as (Hxq & _). by eapply Hnp.
    + apply NoDup_app. split; [|split; [|apply NoDup_singleton]].
      * apply NoDup_omap; [by apply H2|]. intros x y q Hx Hy [Hxq _]%Hin [Hyq _]%Hin. by eapply Hinj.
      * intros q (x & Hx & [Hxq _]%Hin)%list_elem_of_omap ->%list_elem_of_singleton. by eapply Hnp.
  - assert (forall o q, o ∈ C b -> param_of s o = Some q -> on_heap s q /\ unused s root (rem b B) C q) as Hconn.
    { intros o q Ho Hq. split; [by apply (s_conn _ _ _ _ H5 b o)|]. intros x [Hx Hxb]%elem_of_rem Hxr. split.
      - rewrite <- Hq. intros E. apply (s_apart _ _ _ _ H5 b x o Hb Hx Hr Hxr Ho); [eauto|congruence].
      - intros y Hy Hyq. assert (o = y) as -> by by eapply (s_conns _ _ _ _ H5 b x). apply Hxb. by eapply conns_disjoint. }
    intros q [(x & Hx & [Hxq _]%Hout)%list_elem_of_omap|[(x & Hx & [Hxq _]%Hin)%list_elem_of_omap| ->%list_elem_of_singleton]%elem_of_app]%elem_of_app;
      [by eapply Hconn|by eapply Hconn|].
    split.
    + destruct (s_brick _ _ _ _ H5 b Hb Hr) as (q & Hq & Hqh). assert (q = p) as -> by congruence. done.
    + intros x [Hx Hxb]%elem_of_rem Hxr. split.
      * intros E. apply Hxb. apply (s_bricks _ _ _ _ H5); try done. congruence.
      * intros o Ho E. apply (s_apart _ _ _ _ H5 x b o Hx Hb Hxr Hr Ho); [eauto|congruence].
Qed.

Lemma delete_brick_run s root B C L b param : control_ok loaders s root B C L -> b ∈ B -> b <> root ->
  match used_output s C L b with
  | Some _ => delete_brick loaders code b param s = Ok (false, s)
  | None => exists s', delete_brick loaders code b param s = Ok (true, s') /\
      control_ok loaders s' root (rem b B) C (filter (fun x => x.1 ∉ C b) L) /\
      (forall o, ~ of_brick b o -> lc_of loaders s' o = lc_of loaders s o) /\ (forall x, x <> b -> bricks s' !! x = bricks s !! x)
  end.
Proof.
  intros H Hb Hr. pose proof H as [Hc Hh Hi]. pose proof Hc as [H1 H2 H3 H4 H5 H6 H7].
  destruct (brick_present _ _ _ _ H1 Hb) as (bh & ld & l & Hbh & Hld & Hl).
  assert (exists v, mem s !! (HashNext, Brick b) = Some v) as [v Hv].
  { eapply seg_cells; [apply (b_bucket _ _ Hh (bucket_ix (addr bh)) (bucket_lt _))|]. apply list_elem_of_fmap. exists b. split; [done|].
    apply list_elem_of_filter. split; [|done]. unfold in_bucket, addr_of. by rewrite Hbh. }
  destruct (hash_unlink s B b bh v Hh (b_nodup _ _ _ H1) Hb Hbh Hv) as (Hcf & Hcs & Hfind & Hh1). set (c := cell_before _ _ _ _) in *.
  unfold delete_brick. rewrite (bind_ok _ _ _ _ _ (brick_at_ok _ _ _ Hbh)). erewrite bind_ok by done.
  erewrite bind_ok by (by apply lift_ok). cbv iota.
  assert (search (Connectors, Brick b) ConnNext (in_use loaders) s = Ok (used_output s C L b, s)) as Hsearch.
  { unfold search. erewrite find_in_seg; [done|by apply (c_seg _ _ _ H2)|by apply (c_nodup _ _ _ H2)|]. intros o Ho. by eapply in_use_ok. }
  rewrite (bind_ok _ _ _ _ _ Hsearch). destruct (used_output s C L b) as [u|] eqn:Hu; [done|].
  rewrite (bind_ok _ _ _ _ _ (read_ok _ _ _ Hv)). erewrite bind_ok by (by apply write_ok). set (s1 := put_cell c v s) in *.
  rewrite (bind_ok _ _ _ _ _ (the_ok _ _ _ Hld)), (bind_ok _ _ _ _ _ (the_ok _ _ _ Hl)). erewrite bind_ok by done. erewrite bind_ok by done.
  match goal with |- context [lift (elements_of (mem ?x) _ _)] => set (s2 := x) in * end.
  assert (core_ok loaders s1 root B C L) as Hc1.
  { eapply core_hashed; [exact Hc|done..| | |done|done].
    - intros c' Hc'. change (mem s1) with (<[c := v]> (mem s)). rewrite lookup_insert_ne; [done|]. intros <-. done.
    - intros c' Hc'. change (mem s1) with (<[c := v]> (mem s)) in Hc'. apply lookup_insert_is_Some in Hc' as [<-|[_ Hc']]; done. }
  assert (same_data s1 s2) as Hsd by done.
  destruct (s_brick _ _ _ _ H5 b Hb Hr) as (p & Hp & _). assert (b_param bh = Some p) as Hbp by (unfold brick_param in Hp; by rewrite Hbh in Hp).
  pose proof (dying_world _ _ _ _ _ _ _ _ (dying_start s1 root B C L b p Hc1 Hb Hr Hp) Hsd) as Hd2.
  pose proof (c_nodup _ _ _ H2 b Hb) as Hnd.
  erewrite bind_ok by (apply lift_ok, elements_of_seg; [apply (c_seg _ _ _ (dy_conns _ _ _ _ _ _ _ Hd2)); done|done]).
  assert (forall o, o ∈ C b -> is_Some (param_of s o) -> param_of s o <> b_param bh) as Hap.
  { intros o Ho Hpo E. apply (s_apart _ _ _ _ H5 b b o Hb Hb Hr Hr Ho Hpo). unfold brick_param. by rewrite Hbh. }
  assert (forall o, o ∈ C b -> is_output loaders s o -> sources L o = []) as Hsrc.
  { intros o Ho (lc & Hlc & Ht). unfold used_output in Hu. apply list_elem_of_In in Ho. apply (find_none _ _ Hu) in Ho.
    unfold output_used in Ho. rewrite Hlc, Ht in Ho. simpl in Ho. apply bool_decide_eq_false in Ho. destruct (sources L o); [done|]. exfalso. by apply Ho. }
  change (omap (out_param s1) (C b)) with (omap (out_param s2) (C b)) in Hd2. change (omap (in_param s1) (C b)) with (omap (in_param s2) (C b)) in Hd2.
  destruct (exit_outputs_run s2 root B C L b bh param (C b) _ Hd2 Hb Hnd) as (s3 & Hrun3 & Hd3 & (E1 & E2 & E3 & E4)); [done|exact Hsrc|exact Hap|].
  rewrite (bind_ok _ _ _ _ _ Hrun3).
  assert (omap (in_param s2) (C b) = omap (in_param s3) (C b)) as Heq.
  { apply omap_same. intros o Ho. unfold in_param. rewrite E1. destruct (lc_of loaders s2 o) as [lc|] eqn:Hlc; [|done].
    destruct (l_type lc) eqn:Ht; [done|]. unfold param_of. rewrite E2; [done|]. by exists lc. }
  rewrite Heq in Hd3.
  destruct (exit_inputs_run s3 root B C L b bh (C b) [p] Hd3 Hb Hnd) as (s4 & Hrun4 & Hd4 & F1 & F2 & F3); [done| |].
  { intros o Ho Hpo Hin. assert (is_input loaders s2 o) as Hin2 by (unfold is_input in *; by rewrite <- E1).
    unfold param_of in *. rewrite E2 in * by done. by apply (Hap o). }
  rewrite (bind_ok _ _ _ _ _ Hrun4), (bind_ok _ _ _ _ _ (the_ok _ _ _ Hbp)).
  destruct (dying_free _ _ _ _ _ _ _ _ Hd4) as (s5 & Hrun5 & Hd5 & G1 & G2 & G3). rewrite (bind_ok _ _ _ _ _ Hrun5). erewrite bind_ok by done.
  assert (bricks s5 = bricks s) as Hb5 by (rewrite G2, F2, E3; done).
  assert (forall i o, (i, o) ∈ filter (fun x => x.1 ∉ C b) L -> i ∉ C b /\ o ∉ C b) as Hends.
  { intros i o [Hib Hio]%list_elem_of_filter. split; [done|]. intros Hob. simpl in Hib.
    assert (i ∈ sources L o) as Hsi by by apply elem_of_sources. rewrite Hsrc in Hsi; [by apply not_elem_of_nil in Hsi|done|].
    destruct (k_link _ _ _ _ (w_links _ _ _ _ _ H4) _ _ Hio) as (_ & _ & [[_ Hout]|(e & -> & _)]); [done|].
    exfalso. destruct (conn_facts _ _ _ _ _ _ H3 Hb Hob) as (_ & _ & _ & Hne). by apply (Hne e). }
  exists (free_brick b l s5). split; [done|]. split.
  - apply (gone_control s5 root B C _ b l Hd5 Hb Hends).
    + eapply hash_keep; [exact Hh1|exact Hb5|]. intros [f x] Hf _. apply list_elem_of_singleton in Hf. simpl in Hf. subst f. rewrite G3, F3, E4. done.
    + eapply inputs_keep; [exact Hi|exact Hb5].
  - split; [|intros x Hx; simpl; rewrite lookup_delete_ne by done; by rewrite Hb5].
    intros o Ho. rewrite (proj1 (gone_facts s5 root B C _ b l Hd5 Hb Hends o Ho)). unfold lc_of at 1. rewrite G1, F1. exact (E1 o).
Qed.

(** [$deinstbrick] *)
Lemma deinstbrick_op s root B C L a param : control_ok loaders s root B C L -> brick_with s B (log_addr a) <> Some root ->
  (exists a', op_deinstbrick loaders code a param s = Ok (a', s) /\
    (log_addr a = 0 \/ brick_with s B (log_addr a) = None \/
     exists b o, brick_with s B (log_addr a) = Some b /\ used_output s C L b = Some o)) \/
  exists b s', brick_with s B (log_addr a) = Some b /\ used_output s C L b = None /\
    op_deinstbrick loaders code a param s = Ok (a <| success := true |>, s') /\
    control_ok loaders s' root (rem b B) C (filter (fun x => x.1 ∉ C b) L).
Proof.
  intros H Hr. pose proof (k_core _ _ _ _ _ _ H) as Hc. unfold op_deinstbrick.
  destruct (Z.eqb_spec (log_addr a) 0) as [Hz|Hz]; [left; exists a; auto|].
  rewrite (bind_ok _ _ _ _ _ (find_brick_hash_ok _ _ _ _ (k_bricks _ _ _ _ _ _ Hc) (k_hash _ _ _ _ _ _ H))).
  destruct (brick_with s B (log_addr a)) as [b|] eqn:Hbw; [|left; exists a; auto]. destruct (brick_with_in _ _ _ _ Hbw) as [Hb _].
  assert (b <> root) as Hbr by congruence. pose proof (delete_brick_run s root B C L b param H Hb Hbr) as Hrun.
  destruct (used_output s C L b) as [o|] eqn:Hu.
  - rewrite (bind_ok _ _ _ _ _ Hrun). left. eexists. split; [done|]. right. right. eauto.
  - destruct Hrun as (s' & Hrun & Hok & _). rewrite (bind_ok _ _ _ _ _ Hrun). right. exists b, s'. done.
Qed.

End delete.
