(* ===== verification/ControlSafe.v ===== *)
(** * The strategy brick in operation

    The states that the strategy brick reaches from the start of the system by
    requests its callers may make, and what holds in them: they are consistent,
    requests do not fail half-way, connections and bricks that are made can be
    taken back. *)

From S2P Require Import Prelude CLib Common Cells ControlSimple ControlWiring ControlState ControlFrame ControlOps ControlCreate ControlBricks ControlBoot ControlDelete.
Open Scope Z_scope.

Section safe.
Context {W : Type} (loaders : list loader_t) (code : brick_code W) (grants : nat -> bool) (junk : args) (others : op_t -> args -> text -> control (W := W) args).
Abbreviation state := (control_state W).
Implicit Types (s : state) (o : obj) (L : list (obj * obj)) (B : list nat) (C : nat -> list obj).

(** ** Requests *)

(** The strategy brick is the first block that is allocated. *)
Definition root_brick : nat := 1.

Definition at_root s (a : Z) : bool := bool_decide (addr_of s root_brick = Some a).

(** What [find_conn] finds has been created, if it finds anything. *)
Definition created_conn s (c : conn_info) : bool :=
  match (brick ← find_brick_hash (conn_addr c);
         match brick with
         | None => mret true
         | Some b =>
           conn ← find_conn loaders b (conn_name c) (conn_index c);
           match conn with
           | None => mret true
           | Some o => h ← header o; mret (bool_decide (belonging h <> None))
           end
         end : control (W := W) bool) s with
  | Ok (r, _) => r
  | Fault _ => false
  end.

Definition good_name (c : conn_info) : bool := terminated (conn_name c) && bool_decide (length (conn_name c) = 8%nat).

(** Names end in their arrays, the strategy brick is not asked to take itself
    away, and [$connect] is not asked for an input that is not there yet. *)
Definition allowed s (op : op_t) (a : args) (param : text) : bool :=
  terminated param &&
  match op with
  | opcode_instbrick => terminated (name a)
  | opcode_deinstbrick => negb (at_root s (log_addr a))
  | opcode_instconn => match conn1 a with Some c => good_name c | None => false end
  | opcode_deinstconn => match conn1 a with Some c => good_name c && negb (at_root s (conn_addr c)) | None => false end
  | opcode_connect =>
    match conn1 a, conn2 a with
    | Some c1, Some c2 => good_name c1 && good_name c2 && (0 <=? conn_index c1) && (0 <=? conn_index c2) && created_conn s c1
    | _, _ => false
    end
  | opcode_disconnect => match conn1 a with Some c => good_name c | None => false end
  | opcode_gadr | opcode_wait | opcode_create | opcode_delete | opcode_output_init => true
  | _ => false
  end.

(** One request *)
Definition request (op : op_t) (a : args) (param : text) : control (W := W) args :=
  operation loaders code grants junk others op a param.

Inductive reachable (w : W) : state -> Prop :=
  | reach_boot s : boot loaders code grants junk (start_state w) = Ok (tt, s) -> reachable w s
  | reach_step s op a param a' s' : reachable w s -> allowed s op a param = true ->
      request op a param s = Ok (a', s') -> reachable w s'.

(** A sequence of allowed requests that all end *)
Fixpoint serve (l : list (op_t * args * text)) s : option state :=
  match l with
  | [] => Some s
  | (op, a, param) :: l' =>
    if allowed s op a param then
      match request op a param s with Ok (_, s') => serve l' s' | Fault _ => None end
    else None
  end.

Lemma serve_reachable w l s s' : reachable w s -> serve l s = Some s' -> reachable w s'.
Proof.
  revert s. induction l as [|[[op a] param] l IH]; intros s Hs Hl; [by injection Hl as <-|]. cbn [serve] in Hl.
  destruct (allowed s op a param) eqn:Ha; [|done]. destruct (request op a param s) as [[a' s1]|] eqn:Hrun; [|done].
  apply (IH s1); [by eapply reach_step|done].
Qed.

(** ** Every request keeps the state consistent. *)

Definition consistent s : Prop := exists B C L, control_ok loaders s root_brick B C L.

Context (Hloaders : loaders_ok loaders) (Hgrants : forall n, grants n = true)
  (Hinit : forall ld i o a param w, success (init_conn code ld i o a param w).1 = true).

Lemma not_root s B a : at_root s a = false -> brick_with s B a <> Some root_brick.
Proof. intros H Hb. apply brick_with_in in Hb as [_ Ha]. unfold at_root in H. by apply bool_decide_eq_false in H. Qed.

Lemma good_name_spec c : good_name c = true -> terminated (conn_name c) = true /\ length (conn_name c) = 8%nat.
Proof. intros [H1 H2]%andb_prop. by apply bool_decide_eq_true in H2. Qed.

Lemma created_found s root B C L c i : control_ok loaders s root B C L -> terminated (conn_name c) = true -> created_conn s c = true ->
  lookup_conn loaders s B C c = Some i -> i ∈ all_conns B C.
Proof.
  intros H Hn Hcr Hi. destruct (k_core _ _ _ _ _ _ H) as [Hb Hc Hd _ _ _ _]. unfold created_conn, lookup_conn in *.
  rewrite (bind_ok _ _ _ _ _ (find_brick_hash_ok _ _ _ _ Hb (k_hash _ _ _ _ _ _ H))) in Hcr.
  destruct (brick_with s B (conn_addr c)) as [b|] eqn:Hbw; [|done]. destruct (brick_with_in _ _ _ _ Hbw) as [Hbb _]. cbn [mbind option_bind] in Hi.
  rewrite (bind_ok _ _ _ _ _ (find_conn_ok _ _ _ _ _ _ _ Hloaders Hb Hc Hd Hbb Hn)), Hi in Hcr.
  destruct (resolve_cases _ _ _ _ _ _ _ _ Hloaders Hi Hbb) as [Hin|(l & j & -> & Hl & Hj & Hno)]; [apply elem_of_all_conns; eauto|].
  destruct (d_slot _ _ _ _ Hd _ _ _ Hbb Hl Hj) as (h & Hh & Hz). destruct (Hz Hno) as ((Hbel & _) & _).
  rewrite (bind_ok _ _ _ _ _ (header_ok _ _ _ Hh)), Hbel in Hcr. done.
Qed.

(** A request succeeds or fails as a whole; only [$connect] may stop the system. *)
Lemma request_keeps s op a param : consistent s -> allowed s op a param = true ->
  (exists a' s', request op a param s = Ok (a', s') /\ consistent s') \/ (op = opcode_connect /\ request op a param s = Fault Aborted).
Proof.
  intros (B & C & L & H) [Hpar Ha]%andb_prop. unfold consistent.
  destruct op; try done; unfold request, operation.
  - left. eexists _, s. eauto 6.
  - left. eexists _, s. eauto 6.
  - left. unfold op_gadr. cbv zeta. erewrite bind_ok by done. erewrite bind_ok by done. eexists _, _. split; [done|].
    exists B, C, L. by eapply control_world.
  - left. eexists _, s. eauto 6.
  - left. eexists _, s. eauto 6.
  - left. destruct (instbrick_op loaders code grants Hloaders Hgrants Hinit s root_brick B C L a param H Ha Hpar)
      as (a' & s' & Hrun & [[_ H']|[_ (ld & C' & _ & _ & _ & _ & H' & _)]]); exists a', s'; eauto 6.
  - left. apply negb_true_iff in Ha. destruct (deinstbrick_op loaders code s root_brick B C L a param H (not_root _ _ _ Ha))
      as [(a' & Hrun & _)|(b & s' & _ & _ & Hrun & H')]; [exists a', s; eauto 6|eexists _, s'; eauto 6].
  - left. destruct (conn1 a) as [c|] eqn:Hc; [|done]. apply good_name_spec in Ha as [Hn Hlen].
    destruct (instconn_op loaders code grants Hloaders Hgrants Hinit s root_brick B C L a c param H Hc Hlen Hn Hpar)
      as [(a' & s' & Hrun & H' & _)|(a' & s' & Hrun & _ & [[_ H']|(b & o & _ & _ & _ & [[_ H']|[_ H']])])]; exists a', s'; eauto 6.
  - left. destruct (conn1 a) as [c|] eqn:Hc; [|done]. apply andb_prop in Ha as [[Hn _]%good_name_spec Hr%negb_true_iff].
    destruct (deinstconn_op loaders code Hloaders s root_brick B C L a c param H Hc Hn (not_root _ _ _ Hr))
      as [(a' & s' & Hrun & H' & _)|(s' & o & Hrun & H' & _)]; eexists _, s'; eauto 6.
  - destruct (conn1 a) as [c1|] eqn:Hc1; [|done]. destruct (conn2 a) as [c2|] eqn:Hc2; [|done].
    apply andb_prop in Ha as [Ha Hcr]. apply andb_prop in Ha as [Ha Hi2%Z.leb_le]. apply andb_prop in Ha as [Ha Hi1%Z.leb_le].
    apply andb_prop in Ha as [[Hn1 _]%good_name_spec [Hn2 _]%good_name_spec].
    assert (forall i, lookup_conn loaders s B C c1 = Some i -> i ∈ all_conns B C) as Hcreated by (intros i; by eapply created_found).
    destruct (connect_op loaders code grants junk Hloaders Hgrants Hinit s root_brick B C L a c1 c2 param H Hc1 Hc2 Hn1 Hn2 Hpar Hi1 Hi2 Hcreated)
      as [[(a' & s' & Hrun & H' & _) _]|(i & t & _ & _ & [(a' & s' & Hrun & _ & H' & _)|[Hrun _]])]; [left; exists a', s'; eauto 6..|by right].
  - left. destruct (conn1 a) as [c|] eqn:Hc; [|done]. apply good_name_spec in Ha as [Hn _].
    pose proof (disconnect_op loaders Hloaders s root_brick B C L a c param H Hc Hn) as Hd.
    destruct (connected loaders s B C L c) as [i|]; [destruct Hd as (s' & Hrun & H' & _); eexists _, s'|eexists _, s]; eauto 6.
Qed.

Lemma reachable_consistent w ld l s : boot_table loaders ld l -> reachable w s -> consistent s.
Proof.
  intros Hl. induction 1 as [s Hboot|s op a param a' s' _ IH Ha Hrun].
  - destruct (boot_run loaders code grants junk Hloaders Hgrants Hinit ld l w Hl) as (s0 & C & L & Hrun & H).
    rewrite Hrun in Hboot. injection Hboot as ->. by exists [root_brick], C, L.
  - destruct (request_keeps s op a param IH Ha) as [(a1 & s1 & Hrun1 & H1)|[_ Hrun1]]; rewrite Hrun1 in Hrun; [|done]. by injection Hrun as _ ->.
Qed.

(** C5: The strategy brick starts: with tables that contain it, [static_init]
    ends.  In every state that requests have led to from there the lists and
    pointers in memory represent bricks, connectors and connections, and every
    request that its callers may make ends in such a state again; nothing is
    read or freed that is not allocated, and no loop runs for ever.  Only
    [$connect] may stop the system instead, when types do not match. *)
Theorem control_safe w ld l : boot_table loaders ld l ->
  (exists s, boot loaders code grants junk (start_state w) = Ok (tt, s)) /\
  forall s, reachable w s -> consistent s /\
    forall op a param, allowed s op a param = true ->
      (exists a' s', request op a param s = Ok (a', s') /\ reachable w s') \/
      op = opcode_connect /\ request op a param s = Fault Aborted.
Proof.
  intros Hl. split.
  - destruct (boot_run loaders code grants junk Hloaders Hgrants Hinit ld l w Hl) as (s & C & L & Hrun & _). eauto.
  - intros s Hs. pose proof (reachable_consistent _ _ _ _ Hl Hs) as H. split; [done|]. intros op a param Ha.
    destruct (request_keeps s op a param H Ha) as [(a' & s' & Hrun & _)|Hrun]; [left|by right].
    exists a', s'. split; [done|]. by eapply reach_step.
Qed.

(** ** What a connection looks like *)

Lemma found_created s root B C L a b nm ix i h : control_ok loaders s root B C L -> terminated nm = true ->
  find_brick_hash a s = Ok (Some b, s) -> find_conn loaders b nm ix s = Ok (Some i, s) -> headers s !! i = Some h -> belonging h <> None ->
  b ∈ B /\ i ∈ C b.
Proof.
  intros H Hn Hb Hi Hh Hbel. destruct (k_core _ _ _ _ _ _ H) as [Hbo Hc Hd _ _ _ _].
  rewrite (find_brick_hash_ok _ _ _ _ Hbo (k_hash _ _ _ _ _ _ H)) in Hb. injection Hb as Hb. destruct (brick_with_in _ _ _ _ Hb) as [Hbb _].
  split; [done|]. rewrite (find_conn_ok _ _ _ _ _ _ _ Hloaders Hbo Hc Hd Hbb Hn) in Hi. injection Hi as Hi.
  destruct (resolve_cases _ _ _ _ _ _ _ _ Hloaders Hi Hbb) as [Hin|(l & j & -> & Hl & Hj & Hno)]; [done|].
  destruct (d_slot _ _ _ _ Hd _ _ _ Hbb Hl Hj) as (h' & Hh' & Hz). destruct (Hz Hno) as ((Hbel' & _) & _). congruence.
Qed.

(** What the code finds for a connector of the invariant *)
Lemma lookup_found s root B C L c o : control_ok loaders s root B C L -> terminated (conn_name c) = true -> lookup_conn loaders s B C c = Some o ->
  o ∈ all_conns B C -> exists b h p, find_brick_hash (conn_addr c) s = Ok (Some b, s) /\ find_conn loaders b (conn_name c) (conn_index c) s = Ok (Some o, s) /\
    headers s !! o = Some h /\ belonging h = Some b /\ instance h = Some p.
Proof.
  intros H Hn Ho Hin. destruct (k_core _ _ _ _ _ _ H) as [Hbo Hc Hd _ _ _ _]. unfold lookup_conn in Ho.
  destruct (brick_with s B (conn_addr c)) as [b|] eqn:Hb; [|done]. cbn [mbind option_bind] in Ho. destruct (brick_with_in _ _ _ _ Hb) as [Hbb _].
  assert (o ∈ C b) as Hob.
  { destruct (resolve_cases _ _ _ _ _ _ _ _ Hloaders Ho Hbb) as [?|(l & j & -> & Hl & Hj & Hno)]; [done|].
    apply elem_of_all_conns in Hin as (b' & Hb' & Hob'). by assert (b' = b) as -> by by eapply slot_owner. }
  destruct (conn_header _ _ _ _ _ _ Hd Hbb Hob) as (h & p & Hh & Hbel & Hp). exists b, h, p.
  rewrite (find_brick_hash_ok _ _ _ _ Hbo (k_hash _ _ _ _ _ _ H)), Hb, (find_conn_ok _ _ _ _ _ _ _ Hloaders Hbo Hc Hd Hbb Hn), Ho. done.
Qed.

Lemma place_lc s s' o : same_place s s' -> lc_of loaders s' o = lc_of loaders s o.
Proof.
  intros [_ Hh]. specialize (Hh o). unfold lc_of. destruct (headers s' !! o), (headers s !! o); try done. simpl. by injection Hh as _ _ -> _.
Qed.

(** A new connection: where the input points, and the list behind the target *)
Lemma new_link s s' root B C L i t : control_ok loaders s root B C L -> control_ok loaders s' root B C ((i, t) :: L) -> same_place s s' ->
  i ∈ all_conns B C -> is_input loaders s i -> target L i = None ->
  mem s !! (First, i) = Some None /\ mem s' !! (First, i) = Some (Some t) /\
  exists l, elements_of (mem s) (First, t) Chain = Ok l /\ elements_of (mem s') (First, t) Chain = Ok (i :: l).
Proof.
  intros H H1 Hpl Hi Hin Ht. pose proof (w_links _ _ _ _ _ (k_wiring _ _ _ _ _ _ (k_core _ _ _ _ _ _ H))) as Hk.
  pose proof (w_links _ _ _ _ _ (k_wiring _ _ _ _ _ _ (k_core _ _ _ _ _ _ H1))) as Hk1.
  destruct (k_first _ _ _ _ Hk i Hi Hin) as [Hf _]. rewrite Ht in Hf. split; [done|].
  destruct (k_link _ _ _ _ Hk1 i t ltac:(by left)) as (_ & Hin1 & Hto1).
  destruct (k_first _ _ _ _ Hk1 i Hi Hin1) as [Hf1 _]. rewrite target_cons, decide_True in Hf1 by done. split; [done|].
  assert (is_target loaders s (all_conns B C) t) as Hto.
  { destruct Hto1 as [[Hta (lo & Hlo & Hty)]|Hto1]; [left|by right]. split; [done|]. exists lo. by rewrite <- (place_lc _ _ _ Hpl). }
  pose proof (target_seg _ _ _ _ _ Hk1 Hto1) as Hs1. rewrite sources_cons, decide_True in Hs1 by done.
  pose proof (sources_NoDup _ t (k_nodup _ _ _ _ Hk1)) as Hnd. rewrite sources_cons, decide_True in Hnd by done. exists (sources L t).
  apply NoDup_cons in Hnd as Hnd'. destruct Hnd' as [_ Hnd']. split; apply elements_of_seg; try done. by apply (target_seg _ _ _ _ _ Hk).
Qed.

(** The structures of a connection in front of the others *)
Lemma new_structs s root B C L i t p : control_ok loaders s root B C ((i, t) :: L) -> inst_of s i = Some p ->
  (exists e, t = Entry e) /\ mem s !! (Connect, p) = Some None \/
  exists q r, inst_of s t = Some q /\ mem s !! (Connect, p) = Some (Some q) /\ elements_of (mem s) (RevChain, q) RevNext = Ok (p :: r).
Proof.
  intros H Hp. pose proof (k_wiring _ _ _ _ _ _ (k_core _ _ _ _ _ _ H)) as Hw. pose proof Hw as [Hk Hr _].
  destruct (k_link _ _ _ _ Hk i t ltac:(by left)) as (Hi & Hin & Hto). destruct (r_in _ _ _ _ _ Hr i Hi Hin) as (p' & Hp' & _ & Hcon & _).
  assert (p' = p) as -> by congruence. rewrite target_cons, decide_True in Hcon by done. cbn [mbind option_bind] in Hcon.
  destruct Hto as [[Hta Hout]|(e & -> & _)]; [right|left].
  - destruct (r_inst _ _ _ _ _ Hr t Hta Hout) as (q & HPq & Hq). destruct (r_out _ _ _ _ _ Hr q HPq) as (l & Hl & Hs).
    pose proof (rev_list_NoDup _ _ _ _ _ _ _ Hk Hr Hl) as Hnd. rewrite rev_sources_cons, decide_True, Hp in Hs, Hnd by done.
    exists q, (rev_sources s L q ++ l). rewrite <- Hq. split; [done|]. split; [done|]. by apply elements_of_seg.
  - rewrite (entry_inst _ _ _ _ _ _ Hw) in Hcon. eauto.
Qed.

(** C6: a connection that [$connect] makes is well typed.  When it reports a
    success, in a consistent state, the first connector is an input that was not
    connected; it now points to the second one and is the first in the list
    behind it, before those that were there.  That is an entry of the main
    directory, or an output with as many sections and all generic types of the
    input: where these are stored at different offsets, each has got the table
    that the output has for the type of this name.  The input structure then
    points to the output structure and is the first in the list behind that,
    along which bricks call back. *)
Theorem connections_typed s a c1 c2 param a' s' :
  consistent s -> conn1 a = Some c1 -> conn2 a = Some c2 -> success a = false -> allowed s opcode_connect a param = true ->
  request opcode_connect a param s = Ok (a', s') -> success a' = true ->
  exists b i h li p t l,
    find_brick_hash (conn_addr c1) s' = Ok (Some b, s') /\ find_conn loaders b (conn_name c1) (conn_index c1) s' = Ok (Some i, s') /\
    headers s' !! i = Some h /\ belonging h = Some b /\ instance h = Some p /\ lc_of loaders s' i = Some li /\ l_type li = false /\
    mem s !! (First, i) = Some None /\ mem s' !! (First, i) = Some (Some t) /\
    elements_of (mem s) (First, t) Chain = Ok l /\ elements_of (mem s') (First, t) Chain = Ok (i :: l) /\
    if conn_addr c2 =? 0 then exists e, dir_entry s (conn_name c2) = Some e /\ t = Entry e /\ mem s' !! (Connect, p) = Some None
    else exists b2 lo q r,
      find_brick_hash (conn_addr c2) s' = Ok (Some b2, s') /\ find_conn loaders b2 (conn_name c2) (conn_index c2) s' = Ok (Some t, s') /\
      lc_of loaders s' t = Some lo /\ l_type lo = true /\ l_sect_count li <= l_sect_count lo /\
      typed_with (tables s') b (l_gen_type li) (l_gen_type lo) /\
      inst_of s' t = Some q /\ mem s' !! (Connect, p) = Some (Some q) /\ elements_of (mem s') (RevChain, q) RevNext = Ok (p :: r).
Proof.
  intros (B & C & L & H) Hc1 Hc2 Hsuc [Hpar Ha]%andb_prop Hrun Hok. rewrite Hc1, Hc2 in Ha.
  apply andb_prop in Ha as [[[[[Hn1 _]%good_name_spec [Hn2 _]%good_name_spec]%andb_prop Hi1%Z.leb_le]%andb_prop Hi2%Z.leb_le]%andb_prop Hcr].
  assert (forall i, lookup_conn loaders s B C c1 = Some i -> i ∈ all_conns B C) as Hcreated by (intros i; by eapply created_found).
  destruct (connect_op loaders code grants junk Hloaders Hgrants Hinit s root_brick B C L a c1 c2 param H Hc1 Hc2 Hn1 Hn2 Hpar Hi1 Hi2 Hcreated)
    as [[(a1 & s1 & Hrun1 & _ & Hs1) _]|(i & t & (Hl1 & Hin & Hask) & Ht & [(a1 & s1 & Hrun1 & _ & H1 & Hcomp & Hpl & Hty)|[Hrun1 _]])];
    unfold request, operation in Hrun; rewrite Hrun1 in Hrun; [|injection Hrun as -> ->|done].
  { injection Hrun as -> ->. congruence. }
  assert (Hia : i ∈ all_conns B C) by auto.
  pose proof (lookup_found s' root_brick B C _ c1 i H1 Hn1) as Hf1. rewrite (same_lookup loaders _ _ _ _ _ Hpl) in Hf1.
  destruct (Hf1 Hl1 Hia) as (b & h & p & Hb & Hi & Hh & Hbel & Hp).
  destruct (new_link s s' root_brick B C L i t H H1 Hpl Hia Hin Ht) as (Hf & Hf' & l & Hs & Hs'). destruct Hin as (li & Hli & Htl).
  assert (inst_of s' i = Some p) as Hpi by (unfold inst_of; by rewrite Hh). rewrite <- (place_lc s s' i Hpl) in Hli.
  exists b, i, h, li, p, t, l. do 11 (split; [done|]). pose proof (new_structs s' root_brick B C L i t p H1 Hpi) as Hst.
  destruct (conn_addr c2 =? 0) eqn:Hz.
  - destruct Hask as (e & He & ->). exists e. destruct Hst as [[_ ?]|(q & r & Hq & _)]; [done|].
    by rewrite (entry_inst _ _ _ _ _ _ (k_wiring _ _ _ _ _ _ (k_core _ _ _ _ _ _ H1))) in Hq.
  - destruct Hask as (Hl2 & lo & Hlo & Hto). destruct Hst as [[(e & ->) _]|(q & r & Hq & Hcon & Hrev)].
    { unfold lc_of in Hlo. by rewrite (w_entry _ _ _ _ _ (k_wiring _ _ _ _ _ _ (k_core _ _ _ _ _ _ H))) in Hlo. }
    destruct (k_link _ _ _ _ (w_links _ _ _ _ _ (k_wiring _ _ _ _ _ _ (k_core _ _ _ _ _ _ H1))) i t ltac:(by left)) as (_ & _ & [[Hta _]|(e & -> & _)]);
      [|unfold lc_of in Hlo; by rewrite (w_entry _ _ _ _ _ (k_wiring _ _ _ _ _ _ (k_core _ _ _ _ _ _ H))) in Hlo].
    pose proof (lookup_found s' root_brick B C _ c2 t H1 Hn2) as Hf2. rewrite (same_lookup loaders _ _ _ _ _ Hpl) in Hf2.
    destruct (Hf2 Hl2 Hta) as (b2 & _ & _ & Hb2 & Ht2 & _). destruct (Hcomp li lo) as [_ Hsec]; [by rewrite <- (place_lc s s' i Hpl)|done|].
    rewrite <- (place_lc s s' t Hpl) in Hlo. exists b2, lo, q, r. split_and!; try done. by apply (Hty h b li lo).
Qed.

(** ** Taking back *)

Lemma cut_new L i t : target L i = None -> cut ((i, t) :: L) i = L.
Proof.
  intros Ht. unfold cut. rewrite filter_cons, decide_False by (simpl; tauto). apply target_None in Ht. by apply cut_not_in.
Qed.

(** C9: [$connect] makes exactly the connection it is asked for, and
    [$disconnect] takes exactly it back: when an input that is not connected and
    an output (or an entry of the main directory) are ready and their types and
    sections match, [$connect] succeeds and puts the pair in front of the
    connections; a [$disconnect] of the input then restores all of them, in
    their order. *)
Theorem connect_then_disconnect s root B C L a c1 c2 param i t :
  control_ok loaders s root B C L -> conn1 a = Some c1 -> conn2 a = Some c2 -> success a = false ->
  terminated (conn_name c1) = true -> terminated (conn_name c2) = true -> terminated param = true ->
  0 <= conn_index c1 -> 0 <= conn_index c2 -> i ∈ all_conns B C ->
  ready loaders code s B C L c1 c2 i t -> compatible loaders s i t ->
  exists a1 s1 s2, request opcode_connect a param s = Ok (a1, s1) /\ success a1 = true /\
    control_ok loaders s1 root B C ((i, t) :: L) /\
    request opcode_disconnect (zero_args <| conn1 := Some c1 |>) param s1 = Ok (zero_args <| conn1 := Some c1 |> <| success := true |>, s2) /\
    control_ok loaders s2 root B C L.
Proof.
  intros H Hc1 Hc2 Hsuc Hn1 Hn2 Hpar Hi1 Hi2 Hall Hready Hcomp. pose proof Hready as ((Hl1 & Hin & _) & Ht & _).
  assert (forall j, lookup_conn loaders s B C c1 = Some j -> j ∈ all_conns B C) as Hcreated by (intros j Hj; congruence).
  destruct (connect_op loaders code grants junk Hloaders Hgrants Hinit s root B C L a c1 c2 param H Hc1 Hc2 Hn1 Hn2 Hpar Hi1 Hi2 Hcreated)
    as [[_ Hno]|(i' & t' & ((Hl1' & _ & Hask') & Ht' & Hcase))]; [by destruct (Hno i t)|]. assert (i' = i) as -> by congruence.
  assert (t' = t) as ->.
  { destruct Hready as ((_ & _ & Hask) & _). destruct (conn_addr c2 =? 0); [|by destruct Hask, Hask'; congruence].
    destruct Hask as (e & He & ->), Hask' as (e' & He' & ->). congruence. }
  destruct Hcase as [(a1 & s1 & Hrun & Hs1 & H1 & _ & Hpl & _)|[_ Hno]]; [|done].
  pose proof (disconnect_op loaders Hloaders s1 root B C ((i, t) :: L) (zero_args <| conn1 := Some c1 |>) c1 param H1 ltac:(done) Hn1) as Hd.
  assert (connected loaders s1 B C ((i, t) :: L) c1 = Some i) as Hcon.
  { unfold connected. rewrite (same_lookup loaders _ _ _ _ _ Hpl), Hl1. cbn [mbind option_bind]. rewrite target_cons, decide_True by done.
    destruct Hin as (lc & Hlc & Hty). unfold input_b. by rewrite (place_lc _ _ _ Hpl), Hlc, Hty. }
  rewrite Hcon, (cut_new _ _ _ Ht) in Hd. destruct Hd as (s2 & Hrun2 & H2 & _). exists a1, s1, s2. done.
Qed.

Lemma brick_with_head s b B a : addr_of s b = Some a -> brick_with s (b :: B) a = Some b.
Proof. intros Ha. unfold brick_with. simpl. by rewrite bool_decide_true. Qed.

Lemma brick_with_none s B a : (forall x, x ∈ B -> addr_of s x <> Some a) -> brick_with s B a = None.
Proof.
  intros H. destruct (brick_with s B a) as [b|] eqn:Hb; [|done]. apply brick_with_in in Hb as [Hb Ha]. by destruct (H b).
Qed.

Lemma find_no_conns A (f : A -> bool) (l : list A) : (forall x, x ∈ l -> f x = false) -> List.find f l = None.
Proof.
  intros H. destruct (List.find f l) as [x|] eqn:Hf; [|done]. apply find_some in Hf as [Hx Hfx]. apply list_elem_of_In in Hx. by rewrite H in Hfx.
Qed.

(** What the output [first] of a connector says, in terms of the connections *)
Lemma output_first s root B C L b o : control_ok loaders s root B C L -> b ∈ B -> o ∈ C b -> is_output loaders s o ->
  mem s !! (First, o) = Some (head (sources L o)).
Proof.
  intros H Hb Ho Hout. pose proof (k_wiring _ _ _ _ _ _ (k_core _ _ _ _ _ _ H)) as [Hk _ _].
  destruct (k_out _ _ _ _ Hk o) as [Hs _]; [apply elem_of_all_conns; eauto|done|]. by apply seg_head in Hs.
Qed.

Lemma used_first s root B C L b o : control_ok loaders s root B C L -> b ∈ B -> used_output loaders s C L b = Some o ->
  o ∈ C b /\ is_output loaders s o /\ mem s !! (First, o) <> Some None.
Proof.
  intros H Hb Hu. unfold used_output in Hu. apply find_some in Hu as [Ho Huo]. apply list_elem_of_In in Ho. unfold output_used in Huo.
  destruct (lc_of loaders s o) as [lc|] eqn:Hlc; [|done]. apply andb_prop in Huo as [Ht Hne%bool_decide_eq_true].
  assert (is_output loaders s o) as Hout by by exists lc. rewrite (output_first _ _ _ _ _ _ _ H Hb Ho Hout). split_and!; try done. by destruct (sources L o).
Qed.

Lemma unused_first s root B C L b o : control_ok loaders s root B C L -> b ∈ B -> used_output loaders s C L b = None ->
  o ∈ C b -> is_output loaders s o -> mem s !! (First, o) = Some None.
Proof.
  intros H Hb Hu Ho Hout. rewrite (output_first _ _ _ _ _ _ _ H Hb Ho Hout). destruct Hout as (lc & Hlc & Ht). unfold used_output in Hu.
  apply list_elem_of_In in Ho. apply (find_none _ _ Hu) in Ho. unfold output_used in Ho. rewrite Hlc, Ht in Ho. simpl in Ho.
  apply bool_decide_eq_false in Ho. destruct (sources L o) as [|y l]; [done|]. by destruct Ho.
Qed.

(** Connections of which some inputs have been taken out *)
Lemma sources_without L (l : list obj) o : sources (filter (fun x => x.1 ∉ l) L) o = filter (fun i => i ∉ l) (sources L o).
Proof.
  induction L as [|[i q] L IH]; [done|]. rewrite filter_cons, sources_cons. simpl. destruct (decide (i ∉ l)) as [Hi|Hi].
  - rewrite sources_cons. case_decide; [|done]. rewrite filter_cons, decide_True by done. by rewrite IH.
  - case_decide; [|done]. rewrite filter_cons, decide_False by done. done.
Qed.

Lemma target_without L (l : list obj) o : NoDup L.*1 -> NoDup (filter (fun x => x.1 ∉ l) L).*1 -> o ∉ l ->
  target (filter (fun x => x.1 ∉ l) L) o = target L o.
Proof.
  intros Hnd Hnd' Ho. destruct (target L o) as [q|] eqn:Hq.
  - apply target_Some; [done|]. apply list_elem_of_filter. split; [done|]. by apply target_Some in Hq.
  - apply target_None. apply target_None in Hq. intros ((o' & q) & -> & [_ Hin]%list_elem_of_filter)%list_elem_of_fmap. apply Hq.
    apply list_elem_of_fmap. by exists (o', q).
Qed.

(** The connectors of the other bricks, when the brick [b] has gone *)
Lemma others_without s s' root B C L b x o : control_ok loaders s root B C L -> x ∈ B -> x <> b -> b ∈ B -> o ∈ C x ->
  control_ok loaders s' root (rem b B) C (filter (fun x => x.1 ∉ C b) L) -> lc_of loaders s' o = lc_of loaders s o ->
  (is_input loaders s o -> mem s' !! (First, o) = mem s !! (First, o)) /\
  (is_output loaders s o -> exists l, elements_of (mem s) (First, o) Chain = Ok l /\
     elements_of (mem s') (First, o) Chain = Ok (filter (fun i => i ∉ C b) l)).
Proof.
  intros H Hx Hxb Hb Ho H' Hlc. pose proof (k_data _ _ _ _ _ _ (k_core _ _ _ _ _ _ H)) as Hd.
  pose proof (k_wiring _ _ _ _ _ _ (k_core _ _ _ _ _ _ H)) as [Hk _ _]. pose proof (k_wiring _ _ _ _ _ _ (k_core _ _ _ _ _ _ H')) as [Hk' _ _].
  assert (o ∈ all_conns B C) as Hall by (apply elem_of_all_conns; eauto).
  assert (o ∈ all_conns (rem b B) C) as Hall' by (apply elem_of_all_conns; exists x; split; [by apply elem_of_rem|done]).
  assert (o ∉ C b) as Hob by (intros Hob; apply Hxb; by eapply conns_disjoint).
  pose proof (k_nodup _ _ _ _ Hk) as Hnd. pose proof (k_nodup _ _ _ _ Hk') as Hnd'. split; intros (lc & Ho' & Ht).
  - destruct (k_first _ _ _ _ Hk o Hall) as [-> _]; [by exists lc|]. destruct (k_first _ _ _ _ Hk' o Hall') as [-> _]; [exists lc; by rewrite Hlc|].
    by rewrite target_without.
  - destruct (k_out _ _ _ _ Hk o Hall) as [Hs _]; [by exists lc|]. destruct (k_out _ _ _ _ Hk' o Hall') as [Hs' _]; [exists lc; by rewrite Hlc|].
    exists (sources L o). split; [by apply elements_of_seg, sources_NoDup|]. rewrite <- sources_without. by apply elements_of_seg, sources_NoDup.
Qed.

(** [$deinstbrick] on a brick that is found *)
Lemma deinstbrick_request s root B C L a param b r s' : control_ok loaders s root B C L -> brick_with s B (log_addr a) = Some b ->
  delete_brick loaders code b param s = Ok (r, s') -> request opcode_deinstbrick a param s = Ok (a <| success := r |>, s').
Proof.
  intros H Hbw Hrun. destruct (brick_with_in _ _ _ _ Hbw) as [Hb Hba].
  assert (log_addr a <> 0) as Hz by (intros Hz; rewrite Hz in Hba; by apply (b_nonzero _ _ (k_hash _ _ _ _ _ _ H) b)).
  unfold request, operation, op_deinstbrick. rewrite (proj2 (Z.eqb_neq _ _)) by done.
  rewrite (bind_ok _ _ _ _ _ (find_brick_hash_ok _ _ _ (log_addr a) (k_bricks _ _ _ _ _ _ (k_core _ _ _ _ _ _ H)) (k_hash _ _ _ _ _ _ H))), Hbw.
  by rewrite (bind_ok _ _ _ _ _ Hrun).
Qed.

(** The brick is gone from the list of its bucket. *)
Lemma removed_free s s' root B C L C' L' b a : control_ok loaders s root B C L -> b ∈ B -> addr_of s b = Some a ->
  control_ok loaders s' root (rem b B) C' L' -> (forall x, x <> b -> bricks s' !! x = bricks s !! x) -> find_brick_hash a s' = Ok (None, s').
Proof.
  intros H Hb Hba H' Hbo. rewrite (find_brick_hash_ok _ _ _ _ (k_bricks _ _ _ _ _ _ (k_core _ _ _ _ _ _ H')) (k_hash _ _ _ _ _ _ H')).
  rewrite brick_with_none; [done|]. intros x [Hx Hxb]%elem_of_rem Hxa. apply Hxb, (b_addr _ _ (k_hash _ _ _ _ _ _ H)); [done..|].
  rewrite Hba. unfold addr_of in *. by rewrite <- Hbo by done.
Qed.

(** Nothing is connected to a brick that has just been added. *)
Lemma added_apart s s1 root B C C' L b : control_ok loaders s root B C L -> control_ok loaders s1 root (b :: B) C' L -> b ∉ B ->
  (forall x, x ∈ B -> C' x = C x) -> used_output loaders s1 C' L b = None /\ filter (fun x => x.1 ∉ C' b) L = L.
Proof.
  intros H H1 HbB HC. pose proof (k_wiring _ _ _ _ _ _ (k_core _ _ _ _ _ _ H)) as Hw. pose proof (k_data _ _ _ _ _ _ (k_core _ _ _ _ _ _ H1)) as Hd1.
  assert (forall o, o ∈ all_conns B C -> o ∉ C' b) as Hapart.
  { intros o (x & Hx & Hox)%elem_of_all_conns Hob. rewrite <- HC in Hox by done. apply HbB.
    rewrite (conns_disjoint loaders _ _ _ b x o Hd1); [done|by left|by right|done|done]. }
  split.
  - unfold used_output. apply find_no_conns. intros o Ho. unfold output_used. destruct (lc_of loaders s1 o) as [lc|]; [|done].
    destruct (l_type lc); [|done]. simpl. apply bool_decide_eq_false. intros Hne. destruct (sources L o) as [|i l] eqn:Hs; [done|].
    assert (i ∈ sources L o) as Hi%elem_of_sources by (rewrite Hs; by left).
    destruct (k_link _ _ _ _ (w_links _ _ _ _ _ Hw) _ _ Hi) as (_ & _ & [[Hoa _]|(e & -> & _)]); [by apply (Hapart o)|].
    destruct (conn_facts loaders _ _ _ b (Entry e) Hd1 ltac:(by left) Ho) as (_ & _ & _ & Hne'). by apply (Hne' e).
  - apply filter_keep. intros [i o] Hio. apply Hapart. by destruct (k_link _ _ _ _ (w_links _ _ _ _ _ Hw) _ _ Hio).
Qed.

(** C10: [$instbrick] at a free address, with the name of a loader, creates a
    brick that is found there, and touches no other brick, connector or
    connection; [$deinstbrick] takes it away again, and what was there before
    is what remains. *)
Theorem instbrick_then_deinstbrick s root B C L a param ld :
  control_ok loaders s root B C L -> root ∈ B -> terminated (name a) = true -> terminated param = true ->
  log_addr a <> 0 -> find_brick_hash (log_addr a) s = Ok (None, s) -> loader_named loaders (name a) = Some ld ->
  let b := allocs s in
  exists a1 s1 s2 C', request opcode_instbrick a param s = Ok (a1, s1) /\
    find_brick_hash (log_addr a) s1 = Ok (Some b, s1) /\ loader_of_brick s1 b = Some ld /\ control_ok loaders s1 root (b :: B) C' L /\
    request opcode_deinstbrick (zero_args <| log_addr := log_addr a |>) param s1 = Ok (zero_args <| log_addr := log_addr a |> <| success := true |>, s2) /\
    find_brick_hash (log_addr a) s2 = Ok (None, s2) /\ control_ok loaders s2 root B C' L /\ forall x, x ∈ B -> C' x = C x.
Proof.
  intros H Hroot Hnm Hpar Ha Hfree Hld b. pose proof (k_core _ _ _ _ _ _ H) as Hc.
  rewrite (find_brick_hash_ok _ _ _ _ (k_bricks _ _ _ _ _ _ Hc) (k_hash _ _ _ _ _ _ H)) in Hfree. injection Hfree as Hfree.
  destruct (instbrick_op loaders code grants Hloaders Hgrants Hinit s root B C L a param H Hnm Hpar) as (a1 & s1 & Hrun & [[Hbad _]|[_ Hadd]]).
  { exfalso. rewrite Hfree, Hld in Hbad. by destruct Hbad as [?|[[? ?]|?]]. }
  destruct Hadd as (ld' & C' & Hld' & Hlb & Hab & _ & H1 & HbB & HC). assert (ld' = ld) as -> by congruence. fold b in Hlb, Hab, H1, HbB.
  destruct (added_apart _ _ _ _ _ _ _ _ H H1 HbB HC) as [Hun HL].
  assert (b <> root) as Hbr by (intros ->; by apply HbB). pose proof (brick_with_head s1 b B _ Hab) as Hbw.
  pose proof (delete_brick_run loaders code s1 root (b :: B) C' L b param H1 ltac:(by left) Hbr) as Hdel. rewrite Hun in Hdel.
  destruct Hdel as (s2 & Hrun2 & H2 & _ & Hbo). rewrite HL in H2.
  assert (find_brick_hash (log_addr a) s2 = Ok (None, s2)) as Hgone by (eapply (removed_free s1 s2); [exact H1|by left|done|exact H2|done]).
  assert (rem b (b :: B) = B) as Hrem.
  { unfold rem. rewrite filter_cons, decide_False by tauto. apply filter_keep. intros x Hx ->. done. }
  rewrite Hrem in H2. exists a1, s1, s2, C'. split; [done|].
  rewrite (find_brick_hash_ok _ _ _ _ (k_bricks _ _ _ _ _ _ (k_core _ _ _ _ _ _ H1)) (k_hash _ _ _ _ _ _ H1)), Hbw.
  split_and!; try done. by eapply deinstbrick_request.
Qed.

(** C11: [$deinstbrick] refuses a brick while an input is connected to one of
    its outputs, and changes nothing then.  Otherwise the brick is gone, and of
    the connections of the other bricks exactly those of its inputs are: the
    inputs of other bricks stay connected as they were, and from the list
    behind an output the brick's inputs have been taken out. *)
Theorem deinstbrick_exact s root B C L a param b :
  control_ok loaders s root B C L -> brick_with s B (log_addr a) = Some b -> b <> root ->
  (exists o, o ∈ C b /\ is_output loaders s o /\ mem s !! (First, o) <> Some None /\
     request opcode_deinstbrick a param s = Ok (a <| success := false |>, s)) \/
  (forall o, o ∈ C b -> is_output loaders s o -> mem s !! (First, o) = Some None) /\
  exists s', request opcode_deinstbrick a param s = Ok (a <| success := true |>, s') /\
    find_brick_hash (log_addr a) s' = Ok (None, s') /\
    forall x o, x ∈ B -> x <> b -> o ∈ C x ->
      (is_input loaders s o -> mem s' !! (First, o) = mem s !! (First, o)) /\
      (is_output loaders s o -> exists l, elements_of (mem s) (First, o) Chain = Ok l /\
         elements_of (mem s') (First, o) Chain = Ok (filter (fun i => i ∉ C b) l)).
Proof.
  intros H Hbw Hbr. destruct (brick_with_in _ _ _ _ Hbw) as [Hb Hba].
  pose proof (delete_brick_run loaders code s root B C L b param H Hb Hbr) as Hdel.
  pose proof (fun r s' => deinstbrick_request s root B C L a param b r s' H Hbw) as Hreq.
  destruct (used_output loaders s C L b) as [o|] eqn:Hu.
  - left. exists o. destruct (used_first _ _ _ _ _ _ _ H Hb Hu) as (Ho & Hout & Hf). split_and!; try done. by apply Hreq.
  - right. destruct Hdel as (s' & Hrun & H' & Hlc' & Hbo). split; [intros o; by eapply unused_first|].
    exists s'. split; [by apply Hreq|]. split; [eapply (removed_free s s'); done|].
    intros x o Hx Hxb Ho. eapply others_without; try done. apply Hlc'.
    by destruct (conn_outside loaders _ _ _ x b o (k_data _ _ _ _ _ _ (k_core _ _ _ _ _ _ H)) Hx Hxb Ho).
Qed.

(** What the code finds, in terms of the invariant *)
Lemma found_brick s root B C L a r s' : control_ok loaders s root B C L -> find_brick_hash a s = Ok (r, s') -> brick_with s B a = r /\ s' = s.
Proof.
  intros H. rewrite (find_brick_hash_ok _ _ _ _ (k_bricks _ _ _ _ _ _ (k_core _ _ _ _ _ _ H)) (k_hash _ _ _ _ _ _ H)). by intros [= <- <-].
Qed.

Lemma found_conn s root B C L c b i s1 s2 : control_ok loaders s root B C L -> terminated (conn_name c) = true ->
  find_brick_hash (conn_addr c) s = Ok (Some b, s1) -> find_conn loaders b (conn_name c) (conn_index c) s = Ok (Some i, s2) ->
  lookup_conn loaders s B C c = Some i.
Proof.
  intros H Hn Hb Hi. destruct (found_brick _ _ _ _ _ _ _ _ H Hb) as [Hbw _]. unfold lookup_conn. rewrite Hbw. cbn [mbind option_bind].
  destruct (brick_with_in _ _ _ _ Hbw) as [Hbb _]. destruct (k_core _ _ _ _ _ _ H) as [Hbo Hc Hd _ _ _ _].
  rewrite (find_conn_ok _ _ _ _ _ _ _ Hloaders Hbo Hc Hd Hbb Hn) in Hi. by injection Hi.
Qed.

End safe.

(** ** An example: the strategy brick, and a brick with two inputs, two outputs
    and a dynamic array *)

Definition demo_conn (nm : string) (type : bool) (start : nat) (count : Z) : load_conn_t :=
  {| l_name := cstr nm; l_static_info := [NUL]; l_gen_type := [(cstr "any", if type then 5 else 0, 12)]; l_type := type; l_export := true; l_start_index := start;
     l_count := count; l_sect_count := 1 |}.

Definition demo_control : loader_t :=
  {| ld_name := cstr "control_simple"; ld_static_info := [NUL]; ld_conns := [demo_conn "control" true 0 1; demo_conn "hook" false 1 1];
     ld_totalcount := 2; ld_wires := [(0%nat, 0)] |}.
Definition demo_pipe : loader_t :=
  {| ld_name := cstr "pipe"; ld_static_info := [NUL];
     ld_conns := [demo_conn "in" false 0 2; demo_conn "out" true 2 2; demo_conn "dyn" true 4 0]; ld_totalcount := 4; ld_wires := [] |}.
Definition demo_loaders : list loader_t := [demo_control; demo_pipe].

Definition demo_code : brick_code unit :=
  {| static_init := fun _ w => w; dynamic_init := fun _ _ _ m w => (m, w); dynamic_exit := fun _ _ _ w => w;
     init_brick := fun _ _ a _ w => (a <| success := true |>, w); init_code := fun _ _ _ _ w => w;
     init_conn := fun _ _ _ a _ w => (a <| success := true |>, w); uninitialized := fun _ _ => false |}.

Definition demo_grants (n : nat) : bool := true.
Definition demo_others (op : op_t) (a : args) (param : text) : control (W := unit) args := mret a.
Abbreviation demo_boot := (boot demo_loaders demo_code demo_grants zero_args (start_state tt)).
Definition demo_start : control_state unit := match demo_boot with Ok (_, s) => s | Fault _ => start_state tt end.

(** Names in arrays, filled up with zeros *)
Definition demo_pad (n : nat) (t : text) : text := t ++ replicate (n - length t) 0.

Definition at_addr (nm : string) (index : Z) : conn_info := {| conn_addr := 0x3000; conn_index := index; conn_name := demo_pad 8 (chars nm) |}.
Definition demo_connect : args := zero_args <| conn1 := Some (at_addr "in" 0) |> <| conn2 := Some (at_addr "out" 1) |>.
Definition demo_inst : args := zero_args <| log_addr := 0x3000 |> <| name := demo_pad 24 (chars "pipe") |>.
Definition demo_made : list (op_t * args * text) :=
  [ (opcode_instbrick, demo_inst, [NUL]);
    (opcode_instconn, zero_args <| conn1 := Some (at_addr "out" 1) |>, [NUL]) ].
Abbreviation demo_serve := (serve demo_loaders demo_code demo_grants zero_args demo_others).
Definition demo_ready : control_state unit := default demo_start (demo_serve demo_made demo_start).
Definition demo_linked : control_state unit := default demo_start (demo_serve (demo_made ++ [(opcode_connect, demo_connect, [NUL])]) demo_start).

Ltac case_index i := destruct i as [|[|[|[|i]]]]; try done.

Lemma demo_loaders_ok : loaders_ok demo_loaders.
Proof.
  apply Forall_lookup. intros n l Hl. case_index n; injection Hl as <-; split; try done.
  - intros i lc Hi. case_index i; injection Hi as <-; simpl; repeat split; try lia; try done; repeat constructor.
  - intros i j lc lc' k k' Hi Hj. case_index i; case_index j; injection Hi as <-; injection Hj as <-; simpl; lia.
  - intros c k Hck. apply list_elem_of_singleton in Hck as [= -> ->]. by eexists.
  - intros i lc Hi. case_index i; injection Hi as <-; simpl; repeat split; try lia; try done; repeat constructor.
  - intros i j lc lc' k k' Hi Hj. case_index i; case_index j; injection Hi as <-; injection Hj as <-; simpl; lia.
  - intros c k Hck. by apply not_elem_of_nil in Hck.
Qed.

Lemma demo_boot_table : boot_table demo_loaders 0 demo_control.
Proof. split; [done..|exists 0%nat, (demo_conn "control" true 0 1); done|exists 1%nat, (demo_conn "hook" false 1 1); done]. Qed.

Lemma demo_granted n : demo_grants n = true.
Proof. done. Qed.

Lemma demo_init ld i o a param w : success (init_conn demo_code ld i o a param w).1 = true.
Proof. done. Qed.

Definition is_ok {A} (r : cres A) : bool := match r with Ok _ => true | Fault _ => false end.

Lemma demo_booted : demo_boot = Ok (tt, demo_start).
Proof.
  assert (is_ok demo_boot = true) as H by by vm_compute. unfold demo_start. by destruct demo_boot as [[[] s]|].
Qed.

Lemma demo_start_reachable : reachable demo_loaders demo_code demo_grants zero_args demo_others tt demo_start.
Proof. apply reach_boot, demo_booted. Qed.

Lemma demo_served l : bool_decide (is_Some (demo_serve l demo_start)) = true ->
  reachable demo_loaders demo_code demo_grants zero_args demo_others tt (default demo_start (demo_serve l demo_start)).
Proof.
  intros [s Hs]%bool_decide_eq_true. rewrite Hs. eapply serve_reachable; [apply demo_start_reachable|exact Hs].
Qed.

Lemma demo_ready_reachable : reachable demo_loaders demo_code demo_grants zero_args demo_others tt demo_ready.
Proof. apply demo_served. by vm_compute. Qed.

Lemma demo_linked_reachable : reachable demo_loaders demo_code demo_grants zero_args demo_others tt demo_linked.
Proof. apply demo_served. by vm_compute. Qed.

Lemma demo_consistent s : reachable demo_loaders demo_code demo_grants zero_args demo_others tt s -> consistent demo_loaders s.
Proof.
  apply (reachable_consistent _ _ _ _ _ demo_loaders_ok demo_granted demo_init _ _ _ _ demo_boot_table).
Qed.

Lemma control_safe_witness :
  (exists s, demo_boot = Ok (tt, s)) /\
  forall s, reachable demo_loaders demo_code demo_grants zero_args demo_others tt s -> consistent demo_loaders s /\
    forall op a param, allowed demo_loaders s op a param = true ->
      (exists a' s', request demo_loaders demo_code demo_grants zero_args demo_others op a param s = Ok (a', s') /\
         reachable demo_loaders demo_code demo_grants zero_args demo_others tt s') \/
      op = opcode_connect /\ request demo_loaders demo_code demo_grants zero_args demo_others op a param s = Fault Aborted.
Proof.
  exact (control_safe demo_loaders demo_code demo_grants zero_args demo_others demo_loaders_ok demo_granted demo_init tt 0 demo_control demo_boot_table).
Defined.

(** What the searches find there, computed *)
Definition found_at (s : control_state unit) (c : conn_info) : option (nat * obj) :=
  match (brick ← find_brick_hash (conn_addr c);
         match brick with
         | None => mret None
         | Some b => o ← find_conn demo_loaders b (conn_name c) (conn_index c); mret ((fun o => (b, o)) <$> o)
         end : control (W := unit) (option (nat * obj))) s with
  | Ok (r, _) => r
  | Fault _ => None
  end.

Lemma found_at_run s c b o : consistent demo_loaders s -> terminated (conn_name c) = true -> found_at s c = Some (b, o) ->
  find_brick_hash (conn_addr c) s = Ok (Some b, s) /\ find_conn demo_loaders b (conn_name c) (conn_index c) s = Ok (Some o, s).
Proof.
  intros (B & C & L & H) Hn. unfold found_at. destruct (k_core _ _ _ _ _ _ H) as [Hb Hc Hd _ _ _ _].
  rewrite (bind_ok _ _ _ _ _ (find_brick_hash_ok _ _ _ (conn_addr c) Hb (k_hash _ _ _ _ _ _ H))).
  rewrite (find_brick_hash_ok _ _ _ _ Hb (k_hash _ _ _ _ _ _ H)).
  destruct (brick_with s B (conn_addr c)) as [b'|] eqn:Hbw; [|done]. destruct (brick_with_in _ _ _ _ Hbw) as [Hbb _].
  pose proof (find_conn_ok _ _ _ _ _ _ (conn_index c) demo_loaders_ok Hb Hc Hd Hbb Hn) as Hf. rewrite (bind_ok _ _ _ _ _ Hf).
  destruct (resolve demo_loaders s C b' (conn_name c) (conn_index c)) as [o'|] eqn:Ho; [|done]. intros [= -> ->]. by rewrite Hf.
Qed.

Definition demo_connected : cres (args * control_state unit) :=
  request demo_loaders demo_code demo_grants zero_args demo_others opcode_connect demo_connect [NUL] demo_ready.

(** The input gets the table of the output's type. *)
Lemma connections_typed_witness : exists a' s' i t b li lo p q l r,
  demo_connected = Ok (a', s') /\ tables s' !! (3%nat, 12) = Some 5 /\
  lc_of demo_loaders s' i = Some li /\ l_type li = false /\ lc_of demo_loaders s' t = Some lo /\ l_type lo = true /\
  typed_with (tables s') b (l_gen_type li) (l_gen_type lo) /\ elements_of (mem s') (First, t) Chain = Ok (i :: l) /\
  mem s' !! (Connect, p) = Some (Some q) /\ elements_of (mem s') (RevChain, q) RevNext = Ok (p :: r).
Proof.
  assert (match demo_connected with Ok (a, s) => (success a, tables s !! (3%nat, 12)) | Fault _ => (false, None) end = (true, Some 5)) as Hc
    by (vm_compute; reflexivity).
  destruct demo_connected as [[a' s']|] eqn:Hrun; [|discriminate Hc]. injection Hc as Hok Htab.
  destruct (connections_typed demo_loaders demo_code demo_grants zero_args demo_others demo_loaders_ok demo_granted demo_init
    demo_ready demo_connect (at_addr "in" 0) (at_addr "out" 1) [NUL] a' s' (demo_consistent _ demo_ready_reachable) eq_refl eq_refl eq_refl)
    as (b & i & h & li & p & t & l & _ & _ & _ & _ & _ & Hli & Htl & _ & _ & _ & Hl & Hother); [vm_compute; reflexivity|exact Hrun|exact Hok|].
  destruct Hother as (b2 & lo & q & r & _ & _ & Hlo & Hto & _ & Hty & _ & Hcon & Hrev).
  exists a', s', i, t, b, li, lo, p, q, l, r. exact (conj eq_refl (conj Htab (conj Hli (conj Htl (conj Hlo (conj Hto (conj Hty (conj Hl (conj Hcon Hrev))))))))).
Defined.

Lemma demo_asked : exists B C L, control_ok demo_loaders demo_ready root_brick B C L /\ Slot 3 0 ∈ all_conns B C /\
  ready demo_loaders demo_code demo_ready B C L (at_addr "in" 0) (at_addr "out" 1) (Slot 3 0) (Slot 3 3).
Proof.
  pose proof (demo_consistent _ demo_ready_reachable) as Hcon. pose proof Hcon as (B & C & L & H). exists B, C, L. split; [done|].
  assert (is_input demo_loaders demo_ready (Slot 3 0)) as Hin by (exists (demo_conn "in" false 0 2); split; [vm_compute; reflexivity|done]).
  assert (is_output demo_loaders demo_ready (Slot 3 3)) as Hout by (exists (demo_conn "out" true 2 2); split; [vm_compute; reflexivity|done]).
  destruct (found_at_run demo_ready (at_addr "in" 0) 3 (Slot 3 0) Hcon) as [Hb1 Hf1]; [vm_compute; reflexivity..|].
  destruct (found_at_run demo_ready (at_addr "out" 1) 3 (Slot 3 3) Hcon) as [Hb2 Hf2]; [vm_compute; reflexivity..|].
  pose proof (found_conn _ demo_loaders_ok _ _ _ _ _ (at_addr "in" 0) 3 _ _ _ H eq_refl Hb1 Hf1) as Hl1.
  pose proof (found_conn _ demo_loaders_ok _ _ _ _ _ (at_addr "out" 1) 3 _ _ _ H eq_refl Hb2 Hf2) as Hl2.
  assert (Slot 3 0 ∈ all_conns B C) as Hall by (apply (created_found _ demo_loaders_ok _ _ _ _ _ (at_addr "in" 0) _ H); [done|vm_compute; reflexivity|done]).
  split; [done|]. split; [by repeat split|]. split.
  - destruct (k_first _ _ _ _ (w_links _ _ _ _ _ (k_wiring _ _ _ _ _ _ (k_core _ _ _ _ _ _ H))) _ Hall Hin) as [Hf _].
    assert (mem demo_ready !! (First, Slot 3 0) = Some None) as Hm by (vm_compute; reflexivity). congruence.
  - intros _. split; [done|]. split; [done|]. exists 5%nat. vm_compute. reflexivity.
Qed.

Lemma connect_then_disconnect_witness : exists B C L a1 s1 s2,
  request demo_loaders demo_code demo_grants zero_args demo_others opcode_connect demo_connect [NUL] demo_ready = Ok (a1, s1) /\ success a1 = true /\
  control_ok demo_loaders s1 root_brick B C ((Slot 3 0, Slot 3 3) :: L) /\
  request demo_loaders demo_code demo_grants zero_args demo_others opcode_disconnect (zero_args <| conn1 := Some (at_addr "in" 0) |>) [NUL] s1 =
    Ok (zero_args <| conn1 := Some (at_addr "in" 0) |> <| success := true |>, s2) /\
  control_ok demo_loaders s2 root_brick B C L.
Proof.
  destruct demo_asked as (B & C & L & H & Hall & Hready). exists B, C, L.
  refine (connect_then_disconnect demo_loaders demo_code demo_grants zero_args demo_others demo_loaders_ok demo_granted demo_init
    demo_ready root_brick B C L demo_connect (at_addr "in" 0) (at_addr "out" 1) [NUL] (Slot 3 0) (Slot 3 3) H
    eq_refl eq_refl eq_refl eq_refl eq_refl eq_refl _ _ Hall Hready _); [vm_compute; congruence..|].
  intros li lo Hli Hlo. vm_compute in Hli, Hlo. injection Hli as <-. injection Hlo as <-. split; [done|]. vm_compute. congruence.
Defined.

Lemma ok_inj (r : cres (unit * control_state unit)) s s' : r = Ok (tt, s) -> r = Ok (tt, s') -> s' = s.
Proof. intros -> [= <-]. done. Qed.

Lemma demo_start_ok : exists C L, control_ok demo_loaders demo_start 1 [1%nat] C L.
Proof.
  destruct (boot_run demo_loaders demo_code demo_grants zero_args demo_loaders_ok demo_granted demo_init 0 demo_control tt demo_boot_table)
    as (s & C & L & Hrun & H). exists C, L. by rewrite <- (ok_inj _ _ _ demo_booted Hrun).
Qed.

Definition free_at (s : control_state unit) (a : Z) : bool :=
  match find_brick_hash a s with Ok (r, _) => bool_decide (r = None) | Fault _ => false end.

Lemma free_at_run s root B C L a : control_ok demo_loaders s root B C L -> free_at s a = true -> find_brick_hash a s = Ok (None, s).
Proof.
  intros H. unfold free_at. rewrite (find_brick_hash_ok _ _ _ a (k_bricks _ _ _ _ _ _ (k_core _ _ _ _ _ _ H)) (k_hash _ _ _ _ _ _ H)).
  by intros ->%bool_decide_eq_true.
Qed.

Lemma instbrick_then_deinstbrick_witness : exists a1 s1 s2 C L C',
  request demo_loaders demo_code demo_grants zero_args demo_others opcode_instbrick demo_inst [NUL] demo_start = Ok (a1, s1) /\
  find_brick_hash 0x3000 s1 = Ok (Some (allocs demo_start), s1) /\ loader_of_brick s1 (allocs demo_start) = Some 1%nat /\
  control_ok demo_loaders s1 1 [allocs demo_start; 1%nat] C' L /\
  request demo_loaders demo_code demo_grants zero_args demo_others opcode_deinstbrick (zero_args <| log_addr := 0x3000 |>) [NUL] s1 =
    Ok (zero_args <| log_addr := 0x3000 |> <| success := true |>, s2) /\
  find_brick_hash 0x3000 s2 = Ok (None, s2) /\ control_ok demo_loaders s2 1 [1%nat] C' L /\ forall x, x ∈ [1%nat] -> C' x = C x.
Proof.
  destruct demo_start_ok as (C & L & H).
  assert (find_brick_hash 0x3000 demo_start = Ok (None, demo_start)) as Hfree.
  { apply (free_at_run _ _ _ _ _ _ H). vm_compute. reflexivity. }
  destruct (instbrick_then_deinstbrick demo_loaders demo_code demo_grants zero_args demo_others demo_loaders_ok demo_granted demo_init
    demo_start 1 [1%nat] C L demo_inst [NUL] 1 H ltac:(by left) eq_refl eq_refl ltac:(done) Hfree eq_refl) as (a1 & s1 & s2 & C' & Hall).
  by exists a1, s1, s2, C, L, C'.
Defined.

Lemma deinstbrick_exact_witness : exists (l : list obj) (o : obj),
  o ∈ l /\ is_output demo_loaders demo_linked o /\ mem demo_linked !! (First, o) <> Some None /\
  request demo_loaders demo_code demo_grants zero_args demo_others opcode_deinstbrick demo_inst [NUL] demo_linked =
    Ok (demo_inst <| success := false |>, demo_linked).
Proof.
  pose proof (demo_consistent _ demo_linked_reachable) as Hcon. pose proof Hcon as (B & C & L & H). exists (C 3%nat).
  destruct (found_at_run demo_linked (at_addr "out" 1) 3 (Slot 3 3) Hcon) as [Hb Hf]; [vm_compute; reflexivity..|].
  destruct (found_brick _ _ _ _ _ _ _ _ _ H Hb) as [Hbw _].
  destruct (deinstbrick_exact demo_loaders demo_code demo_grants zero_args demo_others
    demo_linked root_brick B C L demo_inst [NUL] 3 H Hbw ltac:(done)) as [Ho|[Ho _]]; [exact Ho|exfalso].
  assert (exists h, headers demo_linked !! Slot 3 3 = Some h /\ belonging h <> None) as (h & Hh & Hbel).
  { eexists. split; [vm_compute; reflexivity|done]. }
  destruct (found_created _ demo_loaders_ok _ _ _ _ _ _ _ _ _ _ _ H (eq_refl : terminated (conn_name (at_addr "out" 1)) = true) Hb Hf Hh Hbel) as [_ Hin].
  assert (mem demo_linked !! (First, Slot 3 3) <> Some None) as Hne by (vm_compute; congruence).
  apply Hne, Ho; [done|]. exists (demo_conn "out" true 2 2). split; [vm_compute; reflexivity|done].
Defined.
