(* ===== verification/ControlText.v ===== *)
(** * Strategy texts on the strategy brick

    [$trans] of [control_simple.ath] hands a text to the interpreter of
    [adapt_strat.ath], whose output is wired to the strategy brick itself
    ([wire :<strat as :>control]).  The two models are put together here: the
    operations of the strategy brick keep the sizes that the interpreter relies
    on, the strategy brick itself stays at its address, and so a text leads
    from a consistent state to a consistent one.  The file ends with what
    [$getconn] lists. *)

From S2P Require Import Prelude CLib Common StratScan AdaptStrat Cells ControlSimple ControlWiring ControlState ControlFrame ControlOps ControlCreate ControlBricks ControlBoot ControlDelete ControlSafe.
Open Scope Z_scope.

Section text.
Context {W : Type} (loaders : list loader_t) (code : brick_code W) (grants : nat -> bool) (junk : args) (others : op_t -> args -> text -> control (W := W) args).
Abbreviation state := (control_state W).
Implicit Types (s : state) (o : obj).

(** ** What operations leave alone

    [runs lo n p Q]: the run [p] leaves the headers of the bricks below [lo]
    and the next free address alone, never takes the number of allocations
    below [n], and its result satisfies [Q]. *)

Definition left_alone (lo : nat) s s' : Prop := last_addr s' = last_addr s /\ forall x, (x < lo)%nat -> bricks s' !! x = bricks s !! x.

Definition runs (lo n : nat) {A} (p : control (W := W) A) (Q : A -> Prop) : Prop :=
  forall s r s', p s = Ok (r, s') -> (n <= allocs s)%nat ->
    (n <= allocs s')%nat /\ left_alone lo s s' /\ Q r.

Section runs.
Context (lo n : nat) (Hlo : (lo <= n)%nat).

Lemma runs_ret A (a : A) (Q : A -> Prop) : Q a -> runs lo n (mret a) Q.
Proof. intros HQ s r s' [= <- <-]. done. Qed.

Lemma runs_fault A f (Q : A -> Prop) : runs lo n (fault f) Q.
Proof. intros s r s' H. done. Qed.

Lemma runs_seq A A' (p : control A) (k : A -> control A') (P : A -> Prop) (Q : A' -> Prop) :
  runs lo n p P -> (forall a, P a -> runs lo n (k a) Q) -> runs lo n (p ≫= k) Q.
Proof.
  intros Hp Hk s r s' Hrun Hs. unfold mbind, control_bind in Hrun. destruct (p s) as [[a s1]|] eqn:Hps; [|done].
  destruct (Hp s a s1 Hps Hs) as (Hn1 & [Hl1 Hb1] & HP). destruct (Hk a HP s1 r s' Hrun Hn1) as (Hn2 & [Hl2 Hb2] & HQ).
  split; [done|]. split; [|done]. split; [congruence|]. intros x Hx. by rewrite Hb2, Hb1.
Qed.

Lemma runs_weaken A (p : control A) (P Q : A -> Prop) : runs lo n p P -> (forall a, P a -> Q a) -> runs lo n p Q.
Proof. intros Hp HPQ s r s' Hrun Hs. destruct (Hp s r s' Hrun Hs) as (? & ? & ?). auto. Qed.

Lemma runs_get A (f : state -> A) : runs lo n (get f) (fun _ => True).
Proof. by intros s r s' [= <- <-]. Qed.

Lemma runs_lift A (c : cres A) : runs lo n (lift c) (fun r => c = Ok r).
Proof. intros s r s'. unfold lift. destruct c; [|done]. by intros [= <- <-]. Qed.

Lemma runs_the A (v : option A) : runs lo n (the v) (fun r => v = Some r).
Proof. destruct v; [by apply runs_ret|apply runs_fault]. Qed.

Lemma runs_modify f : (forall s, allocs (f s) = allocs s) -> (forall s, left_alone lo s (f s)) ->
  runs lo n (modify f) (fun _ => True).
Proof. intros H1 H2 s r s' [= <- <-] Hs. rewrite H1. auto. Qed.

Lemma runs_code A (f : W -> A * W) (Q : A -> Prop) : (forall w, Q (f w).1) -> runs lo n (in_code f) Q.
Proof. intros HQ s r s' [= <- <-] Hs. split; [done|]. split; [done|apply HQ]. Qed.

Lemma runs_malloc : runs lo n (malloc grants) (fun r => forall p, r = Some p -> (n <= p)%nat).
Proof.
  intros s r s' [= <- <-] Hs. simpl. split; [lia|]. split; [done|]. intros p. destruct (grants (allocs s)); [|done]. by intros [= <-].
Qed.

Lemma runs_search c next test : runs lo n (search c next test) (fun _ => True).
Proof. intros s r s'. unfold search. destruct (find_in _ _ _ _); [|done]. by intros [= <- <-]. Qed.
Lemma runs_then A A' (p : control (option A)) (k : A -> control (option A')) :
  runs lo n p (fun _ => True) -> (forall a, runs lo n (k a) (fun _ => True)) -> runs lo n (then_ p k) (fun _ => True).
Proof. intros Hp Hk. unfold then_. eapply runs_seq; [exact Hp|]. intros [a|] _; [apply Hk|by apply runs_ret]. Qed.
End runs.

(** ** Arguments

    The parts of an argument record that have to stay: the sizes of its arrays
    and its addresses. *)

Definition key (a : args) :=
  (length (name a), log_addr a, conn_addr (the_conn1 a), length (conn_name (the_conn1 a)), conn_addr (the_conn2 a), length (conn_name (the_conn2 a))).
Definition kept (a a' : args) : Prop := key a' = key a.

(** The code of the bricks leaves them alone. *)
Context (Hbrick : forall ld b a param w, kept a (init_brick code ld b a param w).1)
  (Hconn : forall ld i o a param w, kept a (init_conn code ld i o a param w).1).

Definition alike (c c' : conn_info) : Prop := conn_addr c' = conn_addr c /\ length (conn_name c') = length (conn_name c).

(** One step at a time; what a step yields is looked up in the database. *)
Ltac runs_step :=
  lazymatch goal with
  | |- runs _ _ (mret _) _ => apply runs_ret
  | |- runs _ _ (fault _) _ => apply runs_fault
  | |- runs _ _ (then_ _ _) _ => apply runs_then; [|intros ?]
  | |- runs _ _ (match ?x with _ => _ end) _ => destruct x eqn:?
  | |- runs _ _ (_ ≫= _) _ => eapply runs_seq; [solve [eauto with runs | runs_any]|intros ? ?; cbv beta in *]
  | |- runs _ _ _ _ => solve [eauto with runs]
  end
with runs_any := eapply (runs_weaken _ _ _ _ (fun _ => True)); [repeat (cbv zeta; runs_step); exact I|intros ? ?; exact I].
Ltac runs := repeat (cbv zeta; runs_step).

Create HintDb runs.
#[local] Hint Resolve runs_get runs_lift runs_the runs_search runs_malloc : runs.
#[local] Hint Extern 1 (runs _ _ (modify _) _) => apply runs_modify; done : runs.
#[local] Hint Extern 1 (runs _ _ (in_code _) _) => apply runs_code; done : runs.

Section frames.
Context (lo n : nat) (Hlo : (lo <= n)%nat).

Lemma runs_read c : runs lo n (read c) (fun _ => True).
Proof. unfold read. runs. eapply runs_weaken; [apply runs_lift|done]. Qed.
#[local] Hint Resolve runs_read : runs.

Lemma runs_write c v : runs lo n (write c v) (fun _ => True).
Proof. unfold write. by runs. Qed.
#[local] Hint Resolve runs_write : runs.

Lemma runs_header o : runs lo n (header o) (fun _ => True).
Proof. unfold header. runs. eapply runs_weaken; [apply runs_the|done]. Qed.
#[local] Hint Resolve runs_header : runs.

Lemma runs_set_header o h : runs lo n (set_header o h) (fun _ => True).
Proof. unfold set_header. by runs. Qed.
#[local] Hint Resolve runs_set_header : runs.

Lemma runs_brick_at b : runs lo n (brick_at b) (fun _ => True).
Proof. unfold brick_at. runs. eapply runs_weaken; [apply runs_the|done]. Qed.
#[local] Hint Resolve runs_brick_at : runs.

Lemma runs_set_brick b h : (lo <= b)%nat -> runs lo n (set_brick b h) (fun _ => True).
Proof.
  intros Hb. unfold set_brick. runs. apply runs_modify; [done|]. intros s. split; [done|]. intros x Hx. simpl. rewrite lookup_insert_ne by lia. done.
Qed.
#[local] Hint Resolve runs_set_brick : runs.

Lemma runs_conn_entry ld i : runs lo n (conn_entry loaders ld i) (fun _ => True).
Proof. unfold conn_entry. runs. eapply runs_weaken; [apply runs_the|done]. Qed.
#[local] Hint Resolve runs_conn_entry : runs.

Lemma runs_loader_of b : runs lo n (loader_of b) (fun _ => True).
Proof. unfold loader_of. runs. eapply runs_weaken; [apply runs_the|done]. Qed.
#[local] Hint Resolve runs_loader_of : runs.

Lemma runs_load_conn_of o : runs lo n (load_conn_of loaders o) (fun _ => True).
Proof. unfold load_conn_of. runs. Qed.
#[local] Hint Resolve runs_load_conn_of : runs.

Lemma runs_free_string p : runs lo n (free_string p) (fun _ => True).
Proof. unfold free_string. by runs. Qed.
#[local] Hint Resolve runs_free_string : runs.

Lemma runs_free_instance ty x : runs lo n (free_instance ty x) (fun _ => True).
Proof. unfold free_instance. by runs. Qed.
#[local] Hint Resolve runs_free_instance : runs.

Lemma runs_find_brick_hash a : runs lo n (find_brick_hash a) (fun _ => True).
Proof. unfold find_brick_hash. by runs. Qed.
#[local] Hint Resolve runs_find_brick_hash : runs.

Lemma runs_find_load_conn b nm : runs lo n (find_load_conn loaders b nm) (fun _ => True).
Proof. unfold find_load_conn. runs. eapply runs_weaken; [apply runs_lift|done]. Qed.
#[local] Hint Resolve runs_find_load_conn : runs.

Lemma runs_get_conn b c i : runs lo n (get_conn loaders b c i) (fun _ => True).
Proof. unfold get_conn. by runs. Qed.
#[local] Hint Resolve runs_get_conn : runs.

Lemma runs_find_conn b nm i : runs lo n (find_conn loaders b nm i) (fun _ => True).
Proof. unfold find_conn. by runs. Qed.
#[local] Hint Resolve runs_find_conn : runs.

Lemma runs_new_conn_loop b start m i : runs lo n (new_conn_loop b start m i) (fun _ => True).
Proof. revert i. induction m; intros i; cbn [new_conn_loop]; by runs. Qed.
#[local] Hint Resolve runs_new_conn_loop : runs.

Lemma runs_new_conn b c : runs lo n (new_conn loaders grants b c) (fun _ => True).
Proof. unfold new_conn. by runs. Qed.
#[local] Hint Resolve runs_new_conn : runs.

Lemma runs_create_conn b o ld c i : runs lo n (create_conn loaders code grants b o ld c i) (fun _ => True).
Proof. unfold create_conn. by runs. Qed.
#[local] Hint Resolve runs_create_conn : runs.

Lemma runs_insert_conn b o : runs lo n (insert_conn b o) (fun _ => True).
Proof. unfold insert_conn. runs. Qed.
#[local] Hint Resolve runs_insert_conn : runs.

Lemma runs_conn_string o h param : runs lo n (conn_string grants o h param) (fun _ => True).
Proof. unfold conn_string. by runs. Qed.
#[local] Hint Resolve runs_conn_string : runs.

Lemma runs_new_main_dir nm : runs lo n (new_main_dir nm) (fun _ => True).
Proof. unfold new_main_dir. by runs. Qed.
#[local] Hint Resolve runs_new_main_dir : runs.

Lemma runs_find_main_dir nm : runs lo n (find_main_dir nm) (fun _ => True).
Proof. unfold find_main_dir. by runs. Qed.
#[local] Hint Resolve runs_find_main_dir : runs.

Lemma conn1_the a c : conn1 a = Some c -> the_conn1 a = c.
Proof. unfold the_conn1. by intros ->. Qed.

Lemma conn2_the a c : conn2 a = Some c -> the_conn2 a = c.
Proof. unfold the_conn2. by intros ->. Qed.

Lemma runs_conn1_of a : runs lo n (conn1_of a) (fun c => conn1 a = Some c).
Proof. apply runs_the. Qed.
Lemma runs_conn2_of a : runs lo n (conn2_of a) (fun c => conn2 a = Some c).
Proof. apply runs_the. Qed.
#[local] Hint Resolve runs_conn1_of runs_conn2_of conn1_the conn2_the : runs.

Lemma runs_init_conn ld i o a param : runs lo n (in_code (init_conn code ld i o a param)) (kept a).
Proof. apply runs_code. intros w. apply Hconn. Qed.
#[local] Hint Resolve runs_init_conn : runs.

(** The part of the arguments that [conn1] has may change in its index. *)
Lemma kept_conn1 a0 a c i : kept a0 a -> the_conn1 a0 = c -> kept a0 (a <| conn1 := Some (c <| conn_index := i |>) |> <| success := true |>).
Proof.
  unfold kept. intros H <-. transitivity
    (length (name a), log_addr a, conn_addr (the_conn1 a0), length (conn_name (the_conn1 a0)), conn_addr (the_conn2 a), length (conn_name (the_conn2 a))); [done|].
  unfold key in *. congruence.
Qed.

Lemma runs_inst_conn b c o a c1 param : the_conn1 a = c1 -> runs lo n (inst_conn loaders code grants b c o a c1 param) (kept a).
Proof.
  intros Hc1. unfold inst_conn. runs; try done. apply kept_conn1; [|done]. done.
Qed.
#[local] Hint Resolve runs_inst_conn : runs.

Lemma runs_op_instconn a param : runs lo n (op_instconn loaders code grants a param) (kept a).
Proof. unfold op_instconn. runs; try done. by destruct a1. Qed.
#[local] Hint Resolve runs_op_instconn : runs.

Lemma runs_op_deinstconn a param : runs lo n (op_deinstconn loaders code a param) (kept a).
Proof. unfold op_deinstconn. by runs. Qed.
#[local] Hint Resolve runs_op_deinstconn : runs.

Lemma runs_unhook i : runs lo n (unhook i) (fun _ => True).
Proof. unfold unhook. runs. Qed.
#[local] Hint Resolve runs_unhook : runs.

Lemma runs_disconnect o : runs lo n (disconnect loaders o) (fun _ => True).
Proof. unfold disconnect. by runs. Qed.
#[local] Hint Resolve runs_disconnect : runs.

Lemma runs_op_disconnect a param : runs lo n (op_disconnect loaders a param) (kept a).
Proof. unfold op_disconnect. by runs. Qed.
#[local] Hint Resolve runs_op_disconnect : runs.

Lemma runs_type_loop b l1 l2 : runs lo n (type_loop b l1 l2) (fun _ => True).
Proof. revert l2. induction l1; intros l2; cbn [type_loop]; by runs. Qed.
#[local] Hint Resolve runs_type_loop : runs.

Lemma runs_join t i a : runs lo n (join loaders t i a) (kept a).
Proof. unfold join, type_connect, inner_connect, outer_connect. by runs. Qed.
#[local] Hint Resolve runs_join : runs.

(** What the connector description is after a lazy instantiation *)
Lemma runs_lazy_instconn c a param :
  runs lo n (lazy_instconn loaders code grants junk c a param) (fun r => conn_addr r.2 = conn_addr c /\ length (conn_name r.2) = length (conn_name c)).
Proof.
  unfold lazy_instconn. eapply runs_seq; [apply runs_op_instconn|]. intros r Hr. cbv beta in Hr.
  eapply runs_seq; [apply runs_the|]. intros c' Hc'. apply runs_ret. cbn [snd]. unfold kept, key in Hr.
  rewrite (conn1_the _ _ Hc') in Hr. change (the_conn1 (_ <| mandate := _ |>)) with c in Hr. by injection Hr.
Qed.
#[local] Hint Resolve runs_lazy_instconn : runs.

(** Instantiated before it is connected, if need be *)
Lemma runs_lazily (b : bool) c a param :
  runs lo n (if b then lazy_instconn loaders code grants junk c a param else mret (true, c)) (fun r => alike c r.2).
Proof. destruct b; [apply runs_lazy_instconn|by apply runs_ret]. Qed.

Lemma kept_the1 a c : alike (the_conn1 a) c -> kept a (a <| conn1 := Some c |>).
Proof.
  intros [H1 H2]. unfold kept. transitivity (length (name a), log_addr a, conn_addr c, length (conn_name c), conn_addr (the_conn2 a), length (conn_name (the_conn2 a))); [done|].
  unfold key. congruence.
Qed.

Lemma kept_the2 a c : alike (the_conn2 a) c -> kept a (a <| conn2 := Some c |>).
Proof.
  intros [H1 H2]. unfold kept. transitivity (length (name a), log_addr a, conn_addr (the_conn1 a), length (conn_name (the_conn1 a)), conn_addr c, length (conn_name c)); [done|].
  unfold key. congruence.
Qed.

Lemma runs_kept p a a' : kept a a' -> runs lo n p (kept a') -> runs lo n p (kept a).
Proof. intros H Hp. eapply runs_weaken; [exact Hp|]. intros r Hr. unfold kept in *. congruence. Qed.

Lemma runs_connect_other i c2 a param : the_conn2 a = c2 -> runs lo n (connect_other loaders code grants junk i c2 a param) (kept a).
Proof.
  intros <-. unfold connect_other. runs; try done. eapply runs_seq; [apply runs_lazily|]. intros r Hr. cbv beta zeta in *.
  apply (runs_kept _ _ (a <| conn2 := Some r.2 |>)); [by apply kept_the2|]. by runs.
Qed.
#[local] Hint Resolve runs_connect_other : runs.

Lemma runs_connect_dir i c2 a : runs lo n (connect_dir i c2 a) (kept a).
Proof. unfold connect_dir, outer_connect. by runs. Qed.
#[local] Hint Resolve runs_connect_dir : runs.

Lemma runs_op_connect a param : runs lo n (op_connect loaders code grants junk a param) (kept a).
Proof.
  unfold op_connect. runs; try done. eapply runs_seq; [apply runs_lazily|]. intros r Hr. cbv beta zeta in *.
  apply (runs_kept _ _ (a <| conn1 := Some r.2 |>)); [apply kept_the1; by erewrite conn1_the|]. by runs.
Qed.
#[local] Hint Resolve runs_op_connect : runs.

Lemma runs_wire_loop b l m : runs lo n (wire_loop b l m) (fun _ => True).
Proof. revert m. induction l as [|[c k] l IH]; intros m; cbn [wire_loop]; by runs. Qed.
#[local] Hint Resolve runs_wire_loop : runs.

Lemma runs_elem_loop b ld i start m k : runs lo n (elem_loop loaders code grants b ld i start m k) (fun _ => True).
Proof. revert k. induction m; intros k; cbn [elem_loop]; by runs. Qed.
#[local] Hint Resolve runs_elem_loop : runs.

Lemma runs_static_loop b ld l i : runs lo n (static_loop loaders code grants b ld l i) (fun _ => True).
Proof. revert i. induction l; intros i; cbn [static_loop]; by runs. Qed.
#[local] Hint Resolve runs_static_loop : runs.

Lemma runs_create_brick b ld param m : (lo <= b)%nat -> runs lo n (create_brick loaders code grants b ld param m) (fun _ => True).
Proof. intros Hb. unfold create_brick. by runs. Qed.
#[local] Hint Resolve runs_create_brick : runs.

Lemma runs_alloc_brick b l : (lo <= b)%nat -> runs lo n (modify (alloc_brick b l)) (fun _ => True).
Proof. intros Hb. apply runs_modify; [done|]. intros s. split; [done|]. intros x Hx. simpl. by rewrite lookup_insert_ne by lia. Qed.

Lemma runs_free_brick b l : (lo <= b)%nat -> runs lo n (modify (free_brick b l)) (fun _ => True).
Proof. intros Hb. apply runs_modify; [done|]. intros s. split; [done|]. intros x Hx. simpl. by rewrite lookup_delete_ne by lia. Qed.
#[local] Hint Resolve runs_alloc_brick runs_free_brick : runs.

#[local] Hint Extern 1 (_ <= _)%nat =>
  match goal with H : forall p, ?v = Some p -> (n <= p)%nat |- (_ <= ?b)%nat => pose proof (H b ltac:(done)); lia end : runs.

Lemma runs_new_brick nm param m : runs lo n (new_brick loaders code grants nm param m) (fun r => forall b, r.1 = Some b -> (n <= b)%nat).
Proof. unfold new_brick. by runs. Qed.
#[local] Hint Resolve runs_new_brick : runs.

Lemma runs_insert_brick_hash b : runs lo n (insert_brick_hash b) (fun _ => True).
Proof. unfold insert_brick_hash. runs. Qed.
#[local] Hint Resolve runs_insert_brick_hash : runs.

Lemma runs_op_instbrick a param : runs lo n (op_instbrick loaders code grants a param) (kept a).
Proof.
  unfold op_instbrick. destruct (log_addr a =? 0); [by apply runs_ret|]. eapply runs_seq; [apply runs_find_brick_hash|].
  intros brick _. eapply (runs_seq _ _ _ _ _ _ (fun r => kept a r.2)).
  - by runs.
  - intros [b a'] Ha. cbn [snd] in Ha. cbv beta iota zeta. destruct b as [b|]; [|by apply runs_ret]. runs; [|done].
    apply runs_code. intros w. unfold kept in *. rewrite Hbrick. exact Ha.
Qed.
#[local] Hint Resolve runs_op_instbrick : runs.

Lemma runs_disconnect_all_loop l : runs lo n (disconnect_all_loop l) (fun _ => True).
Proof. induction l; cbn [disconnect_all_loop]; by runs. Qed.
#[local] Hint Resolve runs_disconnect_all_loop : runs.

Lemma runs_disconnect_all o : runs lo n (disconnect_all o) (fun _ => True).
Proof. unfold disconnect_all. runs. Qed.
#[local] Hint Resolve runs_disconnect_all : runs.

Lemma runs_exit_outputs bh param l : runs lo n (exit_outputs loaders code bh param l) (fun _ => True).
Proof. induction l; cbn [exit_outputs]; [by apply runs_ret|]. by runs. Qed.
#[local] Hint Resolve runs_exit_outputs : runs.

Lemma runs_exit_inputs bh l : runs lo n (exit_inputs loaders bh l) (fun _ => True).
Proof. induction l; cbn [exit_inputs]; [by apply runs_ret|]. by runs. Qed.
#[local] Hint Resolve runs_exit_inputs : runs.

Lemma runs_op_deinstbrick a param : lo = 0%nat -> runs lo n (op_deinstbrick loaders code a param) (kept a).
Proof. intros Hz. assert (forall b, lo <= b)%nat by lia. unfold op_deinstbrick, delete_brick. by runs. Qed.

Lemma runs_string_at p : runs lo n (string_at p) (fun _ => True).
Proof. unfold string_at. by runs. Qed.
#[local] Hint Resolve runs_string_at : runs.

(** ** The operations that show what is there *)

Lemma runs_mk_conn_info_loop fuel tmp info rest a : runs lo n (mk_conn_info_loop loaders fuel tmp info rest a) (kept a).
Proof.
  revert tmp info rest a. induction fuel as [|fuel IH]; intros tmp info rest a; cbn [mk_conn_info_loop]; [apply runs_fault|]. runs; try done.
  eapply runs_kept; [|apply IH]. done.
Qed.

Lemma runs_mk_conn_info first a : runs lo n (mk_conn_info loaders first a) (kept a).
Proof. intros s r s' Hrun. eapply runs_mk_conn_info_loop. exact Hrun. Qed.

Lemma runs_mk_conn_info_from first a a' : kept a a' -> runs lo n (mk_conn_info loaders first a') (kept a).
Proof. intros H. eapply runs_kept; [exact H|apply runs_mk_conn_info]. Qed.
#[local] Hint Resolve runs_mk_conn_info_from : runs.

Lemma runs_op_getconn a param : runs lo n (op_getconn loaders a param) (kept a).
Proof. unfold op_getconn. runs; try done; by apply runs_mk_conn_info_from. Qed.

Lemma runs_info_targets len l f res : runs lo n (info_targets loaders len l f res) (fun _ => True).
Proof. revert f res. induction l; intros f res; cbn [info_targets]; by runs. Qed.
#[local] Hint Resolve runs_info_targets : runs.

Lemma runs_main_dir_info len : runs lo n (main_dir_info loaders len) (fun _ => True).
Proof.
  assert (forall l i res, runs lo n (main_dir_info_loop loaders len l i res) (fun _ => True)) as Hloop.
  { induction l; intros i res; cbn [main_dir_info_loop]; by runs. }
  unfold main_dir_info. by runs.
Qed.
#[local] Hint Resolve runs_main_dir_info : runs.

Lemma runs_info_param len nm p res : runs lo n (info_param len nm p res) (fun _ => True).
Proof. unfold info_param. by runs. Qed.
#[local] Hint Resolve runs_info_param : runs.

Lemma runs_info_inputs len l res : runs lo n (info_inputs loaders len l res) (fun _ => True).
Proof. revert res. induction l; intros res; cbn [info_inputs]; by runs. Qed.
#[local] Hint Resolve runs_info_inputs : runs.

Lemma runs_info_outputs len l k res : runs lo n (info_outputs loaders len l k res) (fun _ => True).
Proof. revert k res. induction l; intros k res; cbn [info_outputs]; by runs. Qed.
#[local] Hint Resolve runs_info_outputs : runs.

Lemma runs_trans_info a : runs lo n (trans_info loaders a) (kept a).
Proof.
  assert (forall b len, runs lo n (gen_info loaders b len) (fun _ => True)) as Hgen.
  { intros b len. unfold gen_info. by runs. }
  unfold trans_info. by runs.
Qed.

Lemma strncpy_length t m r : strncpy t m = Ok r -> length r = m.
Proof.
  revert t r. induction m as [|m IH]; intros t r; [destruct t; by intros [= <-]|]. destruct t as [|c t]; [done|]. cbn [strncpy].
  destruct (c =? 0).
  - intros [= <-]. cbn. by rewrite length_replicate.
  - destruct (strncpy t m) as [r'|] eqn:Hr; [|done]. intros [= <-]. cbn. f_equal. by eapply IH.
Qed.

Lemma kept_shaped a a' : kept a a' -> shaped a -> shaped a'.
Proof. unfold kept, key, shaped. intros H. injection H as -> _ _ -> _ ->. done. Qed.

Lemma renamed_shaped a c nm i : shaped a -> length nm = 8%nat ->
  shaped (a <| conn1 := Some (c <| conn_name := nm |> <| conn_index := i |>) |> <| success := true |>).
Proof. intros (Hn & _ & H2) Hnm. by split. Qed.

Lemma runs_op_findconn a param : shaped a -> runs lo n (op_findconn loaders a param) shaped.
Proof.
  intros Ha. unfold op_findconn, find_param. runs; try done.
  all: match goal with H : strncpy _ 8 = Ok _ |- _ => apply strncpy_length in H end.
  - by apply renamed_shaped.
  - eapply runs_weaken; [apply runs_mk_conn_info|]. intros r Hr. eapply kept_shaped; [exact Hr|]. by apply renamed_shaped.
Qed.

End frames.

(** ** The strategy brick as the interpreter sees it *)

Context (Hothers : forall op a param s a' s', others op a param s = Ok (a', s') -> shaped a -> shaped a').

#[local] Instance strategy_ : Strategy state := control_strategy loaders code grants junk others.

Lemma runs_kept_shaped p a s a' s' : runs 0 0 p (kept a) -> p s = Ok (a', s') -> shaped a -> shaped a'.
Proof. intros Hp Hrun. destruct (Hp s a' s' Hrun ltac:(lia)) as (_ & _ & Hk). by apply kept_shaped. Qed.

Lemma runs_shaped p s a' s' : runs 0 0 p shaped -> p s = Ok (a', s') -> shaped a'.
Proof. intros Hp Hrun. by destruct (Hp s a' s' Hrun ltac:(lia)) as (_ & _ & Hk). Qed.

#[local] Instance strategy_laws : StrategyLaws state.
Proof.
  intros op a param s a' s' Hrun. change (operation loaders code grants junk others op a param s = Ok (a', s')) in Hrun.
  destruct op; cbn [operation] in Hrun; try (by injection Hrun as <- _); try done; try by eapply Hothers.
  all: try (revert Hrun; apply runs_kept_shaped; auto using runs_op_instbrick, runs_op_deinstbrick, runs_op_instconn,
    runs_op_deinstconn, runs_op_connect, runs_op_disconnect, runs_op_getconn, runs_trans_info; fail).
  - unfold op_gadr in Hrun. cbv zeta in Hrun. injection Hrun as <- _. by destruct (log_len a =? 0).
  - intros Ha. eapply runs_shaped; [|exact Hrun]. by apply runs_op_findconn.
Qed.

(** ** The strategy brick stays where it is. *)

#[local] Hint Resolve runs_get runs_lift runs_the runs_search runs_read runs_write runs_header runs_set_header runs_brick_at runs_set_brick
  runs_conn_entry runs_loader_of runs_find_load_conn runs_create_conn runs_insert_conn runs_insert_brick_hash runs_create_brick
  runs_alloc_brick runs_free_brick runs_op_instconn runs_op_connect : runs.
#[local] Hint Extern 1 (runs _ _ (modify _) _) => apply runs_modify; done : runs.
#[local] Hint Extern 1 (runs _ _ (in_code _) _) => apply runs_code; done : runs.
#[local] Hint Extern 1 (_ <= _)%nat => lia : runs.

Definition root_ok s : Prop := addr_of s root_brick = Some REPRES_MAX.

Lemma bind_inv A A' (p : control (W := W) A) (k : A -> control A') s b s2 : (p ≫= k) s = Ok (b, s2) ->
  exists a s1, p s = Ok (a, s1) /\ k a s1 = Ok (b, s2).
Proof. unfold mbind, control_bind. destruct (p s) as [[a s1]|]; [eauto|done]. Qed.

Lemma runs_root A (p : control A) Q s r s' : runs 2 2 p Q -> p s = Ok (r, s') -> (2 <= allocs s)%nat -> root_ok s -> root_ok s'.
Proof. intros Hp Hrun Hs. destruct (Hp s r s' Hrun Hs) as (_ & [_ Hb] & _). unfold root_ok, addr_of. rewrite Hb; [done|unfold root_brick; lia]. Qed.

Lemma root_allocs s B C L : control_ok loaders s root_brick B C L -> root_ok s -> (2 <= allocs s)%nat.
Proof.
  intros H Hr. unfold root_ok, addr_of in Hr. destruct (bricks s !! root_brick) eqn:Hb; [|done].
  pose proof (o_bricks _ (k_old _ _ _ _ _ _ (k_core _ _ _ _ _ _ H)) root_brick) as Ho. unfold root_brick in *. rewrite Hb in Ho.
  specialize (Ho ltac:(by eexists)). lia.
Qed.

(** [boot] creates it as the first block. *)
Lemma new_brick_number nm param m s r s' b : new_brick loaders code grants nm param m s = Ok (r, s') -> r.1 = Some b ->
  b = allocs s /\ (S (allocs s) <= allocs s')%nat.
Proof.
  intros Hrun Hr. unfold new_brick in Hrun. apply bind_inv in Hrun as (ix & s0 & Hf & Hrun). unfold lift in Hf.
  destruct (find_loader loaders nm) as [ix'|]; [|done]. injection Hf as -> <-. destruct ix as [ld|]; [|by injection Hrun as <- _].
  apply bind_inv in Hrun as (l & s0 & Hl & Hrun). assert (s0 = s) as -> by (by destruct (loaders !! ld); [injection Hl as _ <-|]).
  apply bind_inv in Hrun as (sp & s1 & Hm & Hrun). injection Hm as <- <-. destruct (grants (allocs s)); [|by injection Hrun as <- _].
  set (s1 := s <| allocs := _ |>) in *. change (allocs s) with (allocs s) in Hrun.
  assert (forall p, runs 0 (S (allocs s)) p (fun r : option nat * Z => forall b', r.1 = Some b' -> b' = allocs s) -> p s1 = Ok (r, s') ->
    b = allocs s /\ (S (allocs s) <= allocs s')%nat) as Hruns.
  { intros p Hp Hps. destruct (Hp s1 r s' Hps) as (Hn & _ & HQ); [done|]. auto. }
  eapply Hruns; [|exact Hrun]. runs; try done. by intros b' [= <-].
Qed.

Lemma runs_static_init lo n m i : runs lo n (static_init_loop code m i) (fun _ => True).
Proof. revert i. induction m; intros i; cbn [static_init_loop]; by runs. Qed.
#[local] Hint Resolve runs_static_init : runs.

Lemma the_inv A (v : option A) s a s' : the v s = Ok (a, s') -> v = Some a /\ s' = s.
Proof. destruct v; [|done]. by intros [= <- <-]. Qed.

Lemma boot_root w s : boot loaders code grants junk (start_state w) = Ok (tt, s) -> root_ok s /\ last_addr s = 2 * REPRES_MAX.
Proof.
  intros Hrun. unfold boot in Hrun. apply bind_inv in Hrun as (r & s1 & Hnew & Hrun). destruct r.1 as [b|] eqn:Hr; [|done].
  destruct (new_brick_number _ _ _ _ _ _ _ Hnew Hr) as [Hb Hn1]. change (allocs (start_state w)) with 1%nat in Hb, Hn1. subst b.
  assert (forall A (p : control (W := W) A) s1 r s2, runs 0 2 p (fun _ => True) -> (2 <= allocs s1)%nat -> p s1 = Ok (r, s2) -> (2 <= allocs s2)%nat) as Hn.
  { intros A p x y z Hp Hx Hps. by destruct (Hp x y z Hps Hx). }
  repeat match type of Hrun with
  | (set_brick _ _ ≫= _) _ = _ => fail 1
  | (_ ≫= _) ?s = _ => let s' := fresh "s" in let H := fresh "H" in apply bind_inv in Hrun as (? & s' & H & Hrun);
      apply Hn in H; [|by runs|done]; clear dependent s
  | (match ?x with _ => _ end) _ = _ => destruct x; [|done]
  end.
  apply bind_inv in Hrun as (u & s1 & Hset & Hrun). apply bind_inv in Hset as (h & s2 & Hh & Hset).
  assert (s2 = s0) as -> by (apply bind_inv in Hh as (bs & s3 & Hget & [_ ->]%the_inv); by injection Hget as _ <-).
  injection Hset as _ <-. apply bind_inv in Hrun as (u' & s3 & Hm & Hrun). injection Hm as _ <-.
  match type of Hrun with ?p ?s1 = _ => assert (runs 2 2 p (fun _ => True)) as Hp by by runs end.
  destruct (Hp _ _ _ Hrun H) as (Hs & [Hl Hb] & _). split; [|by rewrite Hl]. unfold root_ok, addr_of, root_brick. rewrite Hb by lia.
  simpl. by rewrite lookup_insert, decide_True.
Qed.

Context (Hloaders : loaders_ok loaders) (Hgrants : forall n, grants n = true)
  (Hinit : forall ld i o a param w, success (init_conn code ld i o a param w).1 = true).

Lemma delete_root s B C L b param r s' : control_ok loaders s root_brick B C L -> b ∈ B -> b <> root_brick ->
  delete_brick loaders code b param s = Ok (r, s') -> root_ok s -> root_ok s'.
Proof.
  intros H Hb Hr Hrun Hs. pose proof (delete_brick_run loaders code s root_brick B C L b param H Hb Hr) as Hd.
  destruct (used_output loaders s C L b); [congruence|]. destruct Hd as (s1 & Hrun1 & _ & _ & Hbo).
  assert (s1 = s') as -> by congruence. unfold root_ok, addr_of. by rewrite Hbo.
Qed.

Lemma request_root s op a param a' s' : consistent loaders s -> root_ok s -> allowed loaders s op a param = true ->
  request loaders code grants junk others op a param s = Ok (a', s') -> root_ok s'.
Proof.
  intros (B & C & L & H) Hs [_ Ha]%andb_prop Hrun. pose proof (root_allocs _ _ _ _ H Hs) as Hn. unfold request, operation in Hrun.
  destruct op; try done; try (by injection Hrun as _ <-).
  - eapply runs_root; [|exact Hrun|done|done]. by apply runs_op_instbrick.
  - apply negb_true_iff in Ha. unfold op_deinstbrick in Hrun. destruct (log_addr a =? 0); [by injection Hrun as _ <-|].
    rewrite (bind_ok _ _ _ _ _ (find_brick_hash_ok _ _ _ (log_addr a) (k_bricks _ _ _ _ _ _ (k_core _ _ _ _ _ _ H)) (k_hash _ _ _ _ _ _ H))) in Hrun.
    destruct (brick_with s B (log_addr a)) as [b|] eqn:Hbw; [|by injection Hrun as _ <-].
    apply bind_inv in Hrun as (r & s1 & Hd & Hrun). injection Hrun as _ <-. destruct (brick_with_in _ _ _ _ Hbw) as [Hb _].
    eapply delete_root; [exact H|exact Hb| |exact Hd|done]. intros ->. by apply (not_root s B (log_addr a)).
  - eapply runs_root; [|exact Hrun|done|done]. by apply runs_op_instconn.
  - eapply runs_root; [|exact Hrun|done|done]. by apply runs_op_deinstconn.
  - eapply runs_root; [|exact Hrun|done|done]. by apply runs_op_connect.
  - eapply runs_root; [|exact Hrun|done|done]. by apply runs_op_disconnect.
Qed.

Lemma reachable_root w ld l s : boot_table loaders ld l -> reachable loaders code grants junk others w s -> root_ok s.
Proof.
  intros Hl. induction 1 as [s Hboot|s op a param a' s' Hr IH Ha Hrun]; [by apply boot_root in Hboot as [? _]|].
  eapply request_root; [|exact IH|exact Ha|exact Hrun]. by eapply reachable_consistent.
Qed.

(** ** Texts *)

(** An input that is not there yet makes [$connect] fail. *)
Lemma connect_created s a c param r : consistent loaders s -> conn1 a = Some c -> terminated (conn_name c) = true ->
  op_connect loaders code grants junk a param s = Ok r -> created_conn loaders s c = true.
Proof.
  intros (B & C & L & H) Hc Hn Hrun. destruct r as [r s0], (k_core _ _ _ _ _ _ H) as [Hb Hco Hd _ _ _ _]. unfold op_connect, conn1_of in Hrun.
  rewrite (bind_ok _ _ _ _ _ (the_ok _ _ _ Hc)) in Hrun. apply bind_inv in Hrun as (c2 & s1 & [_ ->]%the_inv & Hrun).
  pose proof (find_brick_hash_ok _ _ _ (conn_addr c) Hb (k_hash _ _ _ _ _ _ H)) as Hf. rewrite (bind_ok _ _ _ _ _ Hf) in Hrun.
  unfold created_conn. rewrite (bind_ok _ _ _ _ _ Hf). destruct (brick_with s B (conn_addr c)) as [b|] eqn:Hbw; [|done].
  destruct (brick_with_in _ _ _ _ Hbw) as [Hbb _]. pose proof (find_conn_ok _ _ _ _ _ _ (conn_index c) Hloaders Hb Hco Hd Hbb Hn) as Hfc.
  rewrite (bind_ok _ _ _ _ _ Hfc) in Hrun. rewrite (bind_ok _ _ _ _ _ Hfc).
  destruct (resolve loaders s C b (conn_name c) (conn_index c)) as [o|] eqn:Hres; [|done].
  apply bind_inv in Hrun as (lc & s1 & Hlc & _). unfold load_conn_of in Hlc. apply bind_inv in Hlc as (h & s2 & Hh & Hlc).
  rewrite (bind_ok _ _ _ _ _ Hh). apply bool_decide_eq_true. intros Hbel.
  assert (headers s !! o = Some h /\ s2 = s) as [Ho ->] by (apply bind_inv in Hh as (hs & s3 & Hget & Hh); injection Hget as <- <-; by apply the_inv in Hh).
  destruct (resolve_cases _ _ _ _ _ _ _ _ Hloaders Hres Hbb) as [Hin|(l & j & -> & Hl & Hj & Hno)].
  - destruct (d_conn _ _ _ _ Hd _ _ Hbb Hin) as (h' & ld & l & i & lc' & p & Hh' & Hbel' & _). congruence.
  - destruct (d_slot _ _ _ _ Hd _ _ _ Hbb Hl Hj) as (h' & Hh' & Hz). destruct (Hz Hno) as ((_ & _ & _ & Hlz) & _).
    assert (h' = h) as -> by congruence. by rewrite Hlz in Hlc.
Qed.

Context (w : W) (ld : nat) (l0 : loader_t) (Hboot : boot_table loaders ld l0).
Abbreviation reached := (reachable loaders code grants junk others w).
Abbreviation asked := (request loaders code grants junk others).

(** Where a run ends: in a state that requests lead to, or at a [$connect] *)
Definition stops (r : cres (args * state)) : Prop :=
  exists f a s param, r = Fault f /\ reached s /\ asked opcode_connect a param s = Fault f.
Definition ends_well s (a : args) (r : cres (args * state)) : Prop :=
  (exists a' s', r = Ok (a', s') /\ reached s' /\ last_addr s' = last_addr s /\ kept a a') \/ stops r.

(** The operations that texts name keep sizes and addresses. *)
Lemma asked_kept op a param s a' s' : op ∈ [opcode_instbrick; opcode_deinstbrick; opcode_instconn; opcode_deinstconn; opcode_connect; opcode_disconnect] ->
  asked op a param s = Ok (a', s') -> last_addr s' = last_addr s /\ kept a a'.
Proof.
  intros Hop Hrun. assert (runs 0 0 (asked op a param) (kept a)) as Hk.
  { repeat (apply elem_of_cons in Hop as [->|Hop];
      [unfold request, operation; auto using runs_op_instbrick, runs_op_deinstbrick, runs_op_instconn, runs_op_deinstconn, runs_op_connect, runs_op_disconnect|]).
    by apply not_elem_of_nil in Hop. }
  by destruct (Hk s a' s' Hrun ltac:(lia)) as (_ & [? _] & ?).
Qed.

Lemma call_ends op a param s : reached s -> allowed loaders s op a param = true ->
  op ∈ [opcode_instbrick; opcode_deinstbrick; opcode_instconn; opcode_deinstconn; opcode_connect; opcode_disconnect] ->
  ends_well s a (call_strat op a param s).
Proof.
  intros Hs Ha Hop. pose proof (reachable_consistent _ _ _ _ _ Hloaders Hgrants Hinit _ _ _ _ Hboot Hs) as Hcon.
  set (a1 := a <| op_code := op |>).
  assert (allowed loaders s op a1 param = true) as Ha1 by exact Ha. assert (forall r, asked op a1 param s = r -> call_strat op a param s = (r ← r; Ok (r.1 <| op_code := op_code a |>, r.2))) as Hcall
    by (by intros r <-).
  destruct (request_keeps loaders code grants junk others Hloaders Hgrants Hinit s op a1 param Hcon Ha1) as [(a' & s' & Hrun & _)|[-> Hrun]].
  - left. rewrite (Hcall _ Hrun). eexists _, _. split; [done|]. split; [eapply reach_step; [exact Hs|exact Ha1|exact Hrun]|].
    apply asked_kept in Hrun; [exact Hrun|exact Hop].
  - right. rewrite (Hcall _ Hrun). eexists _, _, s, _. split; [done|]. split; [done|exact Hrun].
Qed.

Lemma connect_ends a c1 c2 param s : reached s -> terminated param = true -> conn1 a = Some c1 -> conn2 a = Some c2 ->
  good_name c1 = true -> good_name c2 = true -> 0 <= conn_index c1 -> 0 <= conn_index c2 ->
  ends_well s a (call_strat opcode_connect a param s).
Proof.
  intros Hs Hpar Hc1 Hc2 Hn1 Hn2 Hi1 Hi2. pose proof (reachable_consistent _ _ _ _ _ Hloaders Hgrants Hinit _ _ _ _ Hboot Hs) as Hcon.
  destruct (asked opcode_connect (a <| op_code := opcode_connect |>) param s) as [r|f] eqn:Hrun.
  - apply call_ends; [done| |by repeat (apply elem_of_cons; first [by left|right])].
    pose proof Hn1 as [Ht1 _]%good_name_spec. unfold allowed. rewrite Hpar, Hc1, Hc2, Hn1, Hn2, !(proj2 (Z.leb_le _ _)) by done.
    rewrite (connect_created s (a <| op_code := opcode_connect |>) c1 param r Hcon); [done|exact Hc1|exact Ht1|exact Hrun].
  - right. exists f, (a <| op_code := opcode_connect |>), s, param. split; [|done].
    unfold call_strat. assert (strategy_op opcode_connect (a <| op_code := opcode_connect |>) param s = Fault f) as -> by exact Hrun. done.
Qed.

(** The names that commands write into the arrays *)
Lemma set_name_good old nm size : name_ok size nm = true -> terminated (set_name old nm) = true.
Proof. intros (_ & _ & Hp)%name_chars. unfold set_name. apply terminated_app; [by apply plain_ascii|done]. Qed.

Lemma fill_good c cs : conn_ok cs = true -> length (conn_name c) = 8%nat -> good_name (fill c cs) = true /\ 0 <= conn_index (fill c cs).
Proof.
  intros Hc Hl. pose proof (fill_length c cs Hc Hl) as Hf. unfold conn_ok in Hc. apply andb_prop in Hc as [Hn Hi]. split.
  - unfold good_name. rewrite Hf. cbn [fill conn_name]. by rewrite (set_name_good _ _ _ Hn).
  - cbn [fill conn_index]. destruct (cs_index cs); cbn; lia.
Qed.

Definition removes (x : line) : bool := match cmd x with DeinstBrick _ | DeinstConn _ _ => true | _ => false end.

(** An input has one connection at most. *)
Definition one_target (x : line) : bool := match cmd x with AdaptStrat.Connect _ (_ :: _ :: _) => false | _ => true end.

(** The brick that the text is about, and the arrays *)
Definition about (A : Z) (a : args) : Prop := shaped a /\ log_addr a = A /\ conn_addr (the_conn1 a) = A.

Lemma about_kept A a a' : about A a -> kept a a' -> about A a'.
Proof.
  intros (Hs & Hl & Hc) Hk. split; [by eapply kept_shaped|]. unfold kept, key in Hk. injection Hk as _ H2 H3 _ _ _. by rewrite H2, H3.
Qed.

Lemma root_elsewhere A s : reached s -> A <> REPRES_MAX -> at_root s A = false.
Proof.
  intros Hs HA. apply bool_decide_eq_false. pose proof (reachable_root _ _ _ _ Hboot Hs) as Hr. unfold root_ok in Hr. congruence.
Qed.

Definition run_ends A s (r : cres (args * state)) : Prop :=
  (exists a' s', r = Ok (a', s') /\ reached s' /\ last_addr s' = last_addr s /\ about A a') \/ stops r.

Lemma ends_later A s s' r : last_addr s' = last_addr s -> run_ends A s' r -> run_ends A s r.
Proof. intros Hl [(a1 & s1 & H1 & H2 & H3 & H4)|H]; [left; exists a1, s1; by rewrite <- Hl|by right]. Qed.

Lemma ends_run A s a r : about A a -> ends_well s a r -> run_ends A s r.
Proof. intros Ha [(a' & s' & H1 & H2 & H3 & H4)|H]; [left; exists a', s'; by split_and!; try eapply about_kept|by right]. Qed.

Lemma ends_then A s a r (k : args -> state -> cres (args * state)) : about A a -> ends_well s a r ->
  (forall a' s', reached s' -> about A a' -> run_ends A s' (k a' s')) ->
  run_ends A s (r ← r; if success r.1 then k r.1 r.2 else Ok r).
Proof.
  intros Ha [(a' & s' & -> & Hs & Hl & Hk)|(f & a1 & s1 & p1 & -> & Hs & Hrun)] Hall.
  - cbn. destruct (success a').
    + apply (ends_later _ _ s'); [done|]. apply Hall; [done|by eapply about_kept].
    + left. exists a', s'. by split_and!; try eapply about_kept.
  - right. exists f, a1, s1, p1. done.
Qed.

Lemma about_conn1 A a c : about A a -> conn_ok c = true -> about A (a <| conn1 := Some (fill (the_conn1 a) c) |>).
Proof. intros (Hs & Hl & Hc) Hok. split; [by apply fill_conn1|]. done. Qed.

Definition line_allowed (A : Z) (x : line) : Prop := line_ok x = true /\ one_target x = true /\ (removes x = true -> A <> REPRES_MAX).

Ltac in_ops := by repeat (apply elem_of_cons; first [by left|right]).

(** A line with at most one connection; [k] is what follows. *)
Lemma targets_reached A c1 ts a k param s : reached s -> about A a -> terminated param = true -> conn1 a = Some c1 -> good_name c1 = true ->
  0 <= conn_index c1 -> forallb (fun t => (0 <=? t.1) && (t.1 <? 2 ^ 64) && conn_ok t.2) ts = true -> (length ts <= 1)%nat ->
  (forall a' s', reached s' -> about A a' -> run_ends A s' (k a' s')) ->
  run_ends A s (r ← run_targets ts a param s; let '(a, s, failed) := r in if failed : bool then Ok (a, s) else k a s).
Proof.
  intros Hs Ha Hpar Hc1 Hg Hi Hts Hlen Hk. destruct ts as [|t [|? ?]]; [by apply Hk| |simpl in Hlen; lia]. cbn [run_targets forallb] in *.
  apply andb_prop in Hts as [Hts _]. apply andb_prop in Hts as [_ Ht]. pose proof Ha as ((H1 & H2 & H3) & H4).
  assert (length (conn_name ((the_conn2 a) <| conn_addr := t.1 |>)) = 8%nat) as Hl2 by exact H3.
  destruct (fill_good _ _ Ht Hl2) as [Hg2 Hi2]. set (c2 := fill _ t.2) in *.
  set (a2 := a <| conn2 := Some c2 |> <| success := false |>). assert (about A a2) as Ha2.
  { split; [|exact H4]. split; [exact H1|]. split; [exact H2|]. by apply fill_length. }
  destruct (connect_ends a2 c1 c2 param s Hs Hpar Hc1 eq_refl Hg Hg2 Hi Hi2)
    as [(a' & s' & -> & Hs' & Hla & Hkp)|(f & a' & s' & p' & -> & Hs' & Hrun)]; [|right; by exists f, a', s', p'].
  pose proof (about_kept _ _ _ Ha2 Hkp) as Ha'. cbn. destruct (success a'); [|left; by exists a', s'].
  apply (ends_later _ _ s'); [done|]. by apply Hk.
Qed.

Lemma run_reached A l a param s : reached s -> about A a -> terminated param = true -> Forall (line_allowed A) l -> run_ends A s (run l a param s).
Proof.
  intros Hs Ha Hpar Hl. revert a s Hs Ha. induction Hl as [|x l (Hok & Hone & Hrem) _ IH]; intros a s Hs Ha; [left; by eexists _, s|].
  unfold line_ok in Hok. apply andb_prop in Hok as [_ Hok]. cbn [run]. set (a0 := a <| success := false |>).
  assert (about A a0) as Ha0 by exact Ha. pose proof Ha0 as ((_ & Hlen1 & Hlen2) & _).
  unfold removes, one_target in *. destruct (cmd x) as [nm p|nm|op nm|out op c|out c|c ts|c].
  - apply andb_prop in Hok as [Hnm Hp].
    set (a1 := _ <| destr := false |>). assert (about A a1) as Ha1 by (destruct Ha0 as (H1 & H2); split; [by apply AdaptStrat.named|exact H2]).
    refine (ends_then A s a1 _ (fun a s => run l a param s) _ _ _); [done| |intros a' s' Hs' Ha'; by apply IH]. apply call_ends; [done| |in_ops].
    unfold allowed. change (name a1) with (set_name (name a0) nm). rewrite (set_name_good _ _ _ Hnm), andb_true_r.
    destruct p as [p|]; [|done]. cbn [default]. apply andb_prop in Hp as [Hp _]. apply terminated_app; [|done]. by apply plain_ascii, line_chars_plain.
  - set (a1 := _ <| destr := true |>). assert (about A a1) as Ha1 by (destruct Ha0 as (H1 & H2); split; [by apply AdaptStrat.named|exact H2]).
    apply (ends_run A s a1); [done|]. apply call_ends; [done| |in_ops]. unfold allowed. rewrite Hpar. change (log_addr a1) with (log_addr a0).
    destruct Ha0 as (_ & -> & _). by rewrite (root_elsewhere _ _ Hs (Hrem eq_refl)).
  - apply IH; [done|]. apply andb_prop in Hok as [Hnm _]. destruct Ha0 as (H1 & H2). split; [by apply AdaptStrat.named|exact H2].
  - apply andb_prop in Hok as [Hc _]. destruct (fill_good (the_conn1 a0) c Hc Hlen1) as [Hg _].
    set (a1 := _ <| destr := _ |>). assert (about A a1) as Ha1 by exact (about_conn1 _ _ _ Ha0 Hc).
    refine (ends_then A s a1 _ (fun a s => run l a param s) _ _ _); [done| |intros a' s' Hs' Ha'; by apply IH]. apply call_ends; [done| |in_ops].
    unfold allowed. change (conn1 a1) with (Some (fill (the_conn1 a0) c)). by rewrite Hpar, Hg.
  - destruct (fill_good (the_conn1 a0) c Hok Hlen1) as [Hg _].
    set (a1 := _ <| destr := _ |>). assert (about A a1) as Ha1 by exact (about_conn1 _ _ _ Ha0 Hok).
    refine (ends_then A s a1 _ (fun a s => run l a param s) _ _ _); [done| |intros a' s' Hs' Ha'; by apply IH]. apply call_ends; [done| |in_ops].
    unfold allowed. change (conn1 a1) with (Some (fill (the_conn1 a0) c)). rewrite Hpar, Hg. cbn [fill conn_addr].
    destruct Ha0 as (_ & _ & ->). by rewrite (root_elsewhere _ _ Hs (Hrem eq_refl)).
  - apply andb_prop in Hok as [Hok _]. apply andb_prop in Hok as [Hc Hts]. destruct (fill_good (the_conn1 a0) c Hc Hlen1) as [Hg Hi].
    set (a1 := _ <| conn1 := _ |>). assert (about A a1) as Ha1 by exact (about_conn1 _ _ _ Ha0 Hc).
    assert (length ts <= 1)%nat as Hlts by (destruct ts as [|? [|? ?]]; simpl; [lia..|done]).
    apply (targets_reached A (fill (the_conn1 a0) c) ts a1 (fun a s => run l (a <| conn2 := Some (looked_at l (the_conn2 a)) |>) param s)); try done.
    intros a' s' Hs' ((H1 & H2 & H3) & H4). apply IH; [done|]. split; [|exact H4]. split; [exact H1|]. split; [exact H2|].
    change (the_conn2 _) with (looked_at l (the_conn2 a')). unfold looked_at. destruct l as [|y l']; [done|]. by destruct (cmd y).
  - destruct (fill_good (the_conn1 a0) c Hok Hlen1) as [Hg _].
    set (a1 := _ <| conn1 := _ |>). assert (about A a1) as Ha1 by exact (about_conn1 _ _ _ Ha0 Hok).
    refine (ends_then A s a1 _ (fun a s => run l a param s) _ _ _); [done| |intros a' s' Hs' Ha'; by apply IH]. apply call_ends; [done| |in_ops].
    unfold allowed. change (conn1 a1) with (Some (fill (the_conn1 a0) c)). by rewrite Hpar, Hg.
Qed.

(** Writing a text *)
Lemma text_run b l a param s :
  reached s -> length (name a) = 24%nat -> direction a = direct_write -> terminated param = true ->
  Forall (line_allowed (log_addr a)) l -> params_ok l = true ->
  let a0 := a <| conn1 := Some (zero_conn <| conn_addr := log_addr a |>) |> <| conn2 := Some zero_conn |> in
  let r := op_trans loaders code grants junk others (script b l) a param s in
  r = (r ← run l a0 param s; Ok (r.1 <| success := true |>, r.2)) /\
  ((exists a' s', r = Ok (a', s') /\ success a' = true /\ reached s' /\ last_addr s' = last_addr s /\ log_addr a' = log_addr a) \/ stops r).
Proof.
  intros Hs Hn Hdir Hpar Hl Hp a0 r. assert (about (log_addr a) a0) as Ha by done.
  assert (r = (r ← run l a0 param s; Ok (r.1 <| success := true |>, r.2))) as Hr.
  { subst r. unfold op_trans. rewrite Hdir. unfold mbind at 1, control_bind at 1. unfold trans. rewrite Hdir. fold a0.
    pose proof (script_length b l) as Hlen. rewrite script_run; [by destruct (run l a0 param s) as [[a1 s1]|]| |done|apply Ha|lia].
    eapply Forall_impl; [exact Hl|by intros x (? & _)]. }
  split; [done|]. rewrite Hr.
  destruct (run_reached _ l a0 param s Hs Ha Hpar Hl) as [(a' & s' & -> & Hs' & Hla & _ & Hlog & _)|(f & a' & s' & p' & -> & Hs' & Hrun)]; [left|right; by exists f, a', s', p'].
  eexists _, s'. by split_and!.
Qed.

(** C7: a strategy text on the strategy brick itself.  In every state that
    requests have led to, take a text of any number of commands about one brick
    (bricks created and removed, inputs and outputs instantiated and
    deinstantiated, connections, with one target each, and disconnections),
    which does not remove the strategy brick.  Writing it with [$trans] makes
    exactly the requests that the commands stand for, in order, up to the first
    that fails, and leads to a state that requests lead to, where all lists and
    pointers are consistent; a success is reported in either case.  It can stop
    on the way only in a [$connect], in such a state. *)
Theorem texts_are_requests b l a param s :
  reached s -> length (name a) = 24%nat -> direction a = direct_write -> terminated param = true ->
  Forall (line_allowed (log_addr a)) l -> params_ok l = true ->
  let a0 := a <| conn1 := Some (zero_conn <| conn_addr := log_addr a |>) |> <| conn2 := Some zero_conn |> in
  let r := op_trans loaders code grants junk others (script b l) a param s in
  r = (r ← run l a0 param s; Ok (r.1 <| success := true |>, r.2)) /\
  ((exists a' s', r = Ok (a', s') /\ success a' = true /\ reached s' /\ consistent loaders s') \/ stops r).
Proof.
  intros Hs Hn Hdir Hpar Hl Hp a0 r. destruct (text_run b l a param s Hs Hn Hdir Hpar Hl Hp) as [Hr Hends]. split; [exact Hr|].
  destruct Hends as [(a' & s' & Hrun & Hsuc & Hs' & _)|Hstop]; [left|by right]. exists a', s'. split_and!; try done. by eapply reachable_consistent.
Qed.

End text.

(** ** What [$getconn] lists *)

Section lists.
Context {W : Type} (loaders : list loader_t) (Hloaders : loaders_ok loaders).
Implicit Types (s : control_state W) (o : obj).

(** Address, index and name of a connector *)
Definition describes s o (d : conn_info) : Prop :=
  exists h b bh lc nm, headers s !! o = Some h /\ belonging h = Some b /\ bricks s !! b = Some bh /\ lc_of loaders s o = Some lc /\
    strncpy (l_name lc) 8 = Ok nm /\ d = {| conn_addr := addr bh; conn_index := c_index h; conn_name := nm |}.

Lemma strncpy_total t n : terminated t = true -> exists r, strncpy t n = Ok r.
Proof.
  revert n. induction t as [|c t IH]; intros [|n] Ht; try done; [by eexists|]. cbn [strncpy]. destruct (Z.eqb_spec c 0) as [->|Hc]; [by eexists|].
  destruct (IH n) as [r ->]; [by eapply terminated_tail|]. by eexists.
Qed.

Lemma created_described s root B C L i : control_ok loaders s root B C L -> i ∈ all_conns B C -> exists d, describes s i d.
Proof.
  intros H (b & Hb & Hi)%elem_of_all_conns. pose proof (k_core _ _ _ _ _ _ H) as Hc.
  destruct (d_conn _ _ _ _ (k_data _ _ _ _ _ _ Hc) _ _ Hb Hi) as (h & ld & l & k & lc & p & Hh & Hbel & Hlc & Hld & Hl & Hk & _).
  destruct (b_table _ _ _ (k_bricks _ _ _ _ _ _ Hc) b Hb) as [l' Hl']. destruct (table_loader _ _ _ _ Hl') as (bh & _ & Hbh & _).
  destruct (lo_conn _ (loaders_elem _ _ _ Hloaders Hl) _ _ Hk) as (Ht & _). destruct (strncpy_total _ 8 Ht) as [nm Hnm].
  eexists. exists h, b, bh, lc, nm. split_and!; try done. unfold lc_of. rewrite Hh. simpl. rewrite Hlc. simpl. unfold lc_at. simpl. by rewrite Hl.
Qed.

(** Entries stored from the [n]th on *)
Fixpoint stored (n : nat) (l : list conn_info) (r : list conn_info) : list conn_info :=
  match l with [] => r | d :: l' => stored (S n) l' (<[n := d]> r) end.

Lemma stored_split n l r : (n + length l <= length r)%nat -> stored n l r = take n r ++ l ++ drop (n + length l) r.
Proof.
  revert n r. induction l as [|d l IH]; intros n r Hlen; cbn [stored length] in *.
  - rewrite Nat.add_0_r. symmetry. apply take_drop.
  - rewrite IH by (rewrite length_insert; lia). rewrite (take_S_r _ _ d) by (by apply list_lookup_insert_eq; lia).
    rewrite take_insert_ge by lia. rewrite drop_insert_lt by lia. by rewrite <- app_assoc, Nat.add_succ_r.
Qed.

Lemma info_loop_run s l ds : Forall2 (describes s) l ds -> forall fuel c n rest a,
  seg (mem s) c Chain l -> (length l < fuel)%nat -> 20 * Z.of_nat (length l) <= rest -> (n + length l <= length (res_conn a))%nat ->
  mk_conn_info_loop loaders fuel (head l) n rest a s =
    Ok (a <| res_conn := stored n ds (res_conn a) |> <| conn_len := i32 (conn_len a - (rest - 20 * Z.of_nat (length l))) |>, s).
Proof.
  induction 1 as [|i d l ds (h & b & bh & lc & nm & Hh & Hbel & Hbh & Hlc & Hnm & ->) _ IH]; intros [|fuel] c n rest a Hseg Hfuel Hrest Hlen;
    cbn [length] in *; try lia; cbn [mk_conn_info_loop head].
  - rewrite Z.mul_0_r, Z.sub_0_r. by destruct a.
  - unfold sizeof_conn_info. rewrite (proj2 (Z.ltb_ge _ _)) by lia.
    rewrite (bind_ok _ _ _ _ _ (header_ok _ _ _ Hh)), (bind_ok _ _ _ _ _ (the_ok _ _ _ Hbel)), (bind_ok _ _ _ _ _ (brick_at_ok _ _ _ Hbh)).
    rewrite (bind_ok _ _ _ _ _ (load_conn_of_ok _ _ _ _ Hlc)). erewrite bind_ok by (unfold lift; by rewrite Hnm).
    destruct (lookup_lt_is_Some_2 (res_conn a) n) as [x Hx]; [lia|]. rewrite (bind_ok _ _ _ _ _ (the_ok _ _ _ Hx)).
    destruct Hseg as [_ Hseg]. cbv zeta.
    rewrite (bind_ok _ _ _ _ _ (read_ok _ _ _ (seg_head _ _ _ _ Hseg))).
    rewrite (IH _ (Chain, i) (S n)); [|done|lia|lia|].
    + replace (rest - 20 - 20 * Z.of_nat (length l)) with (rest - 20 * Z.of_nat (S (length l))) by lia. done.
    + cbn. rewrite length_insert. lia.
Qed.

(** C12: [$getconn] on an output lists the inputs that are connected to it, each
    with the address of its brick, its index and its name, in the order of the
    list behind the output, and says how many bytes they take; when the array
    has room for them. *)
Theorem getconn_lists s a c1 b o l param : consistent loaders s -> conn1 a = Some c1 -> conn_addr c1 <> 0 -> terminated (conn_name c1) = true ->
  find_brick_hash (conn_addr c1) s = Ok (Some b, s) -> find_conn loaders b (conn_name c1) (conn_index c1) s = Ok (Some o, s) ->
  is_output loaders s o -> elements_of (mem s) (First, o) Chain = Ok l ->
  20 * Z.of_nat (length l) <= conn_len a < 2 ^ 31 -> (length l <= length (res_conn a))%nat ->
  exists ds, Forall2 (describes s) l ds /\
    op_getconn loaders a param s =
      Ok (a <| success := true |> <| res_conn := ds ++ drop (length ds) (res_conn a) |> <| conn_len := 20 * Z.of_nat (length l) |>, s).
Proof.
  intros (B & C & L & H) Hc1 Hadr Hn Hb Ho Hout Hl Hlen Hres. destruct (k_core _ _ _ _ _ _ H) as [Hbo Hco Hd Hw _ _ _].
  assert (o ∈ all_conns B C) as Hall.
  { destruct Hout as (lo & Hlo & _). unfold lc_of in Hlo. destruct (headers s !! o) as [h|] eqn:Hh; [|done]. simpl in Hlo.
    assert (load_conn h <> None) as Hne by by destruct (load_conn h).
    rewrite (find_brick_hash_ok _ _ _ _ Hbo (k_hash _ _ _ _ _ _ H)) in Hb. injection Hb as Hb. destruct (brick_with_in _ _ _ _ Hb) as [Hbb _].
    rewrite (find_conn_ok _ _ _ _ _ _ _ Hloaders Hbo Hco Hd Hbb Hn) in Ho. injection Ho as Ho.
    destruct (resolve_cases _ _ _ _ _ _ _ _ Hloaders Ho Hbb) as [Hin|(t & j & -> & Ht & Hj & Hno)]; [apply elem_of_all_conns; eauto|].
    destruct (d_slot _ _ _ _ Hd _ _ _ Hbb Ht Hj) as (h' & Hh' & Hz). destruct (Hz Hno) as ((_ & _ & _ & Hlz) & _). congruence. }
  pose proof (w_links _ _ _ _ _ Hw) as Hk. destruct (k_out _ _ _ _ Hk _ Hall Hout) as [Hseg _].
  rewrite (elements_of_seg _ _ _ _ Hseg (sources_NoDup _ _ (k_nodup _ _ _ _ Hk))) in Hl. injection Hl as <-.
  assert (exists ds, Forall2 (describes s) (sources L o) ds) as [ds Hds].
  { apply Forall_exists_Forall2_l. apply Forall_forall. intros i Hi%elem_of_sources. destruct (k_link _ _ _ _ Hk _ _ Hi) as (Hia & _). by eapply created_described. }
  exists ds. split; [done|]. pose proof (Forall2_length _ _ _ Hds) as Hlds.
  unfold op_getconn, conn1_of. rewrite (bind_ok _ _ _ _ _ (the_ok _ _ _ Hc1)), (proj2 (Z.eqb_neq _ _)) by done.
  rewrite (bind_ok _ _ _ _ _ Hb), (bind_ok _ _ _ _ _ Ho), (bind_ok _ _ _ _ _ (read_ok _ _ _ (seg_head _ _ _ _ Hseg))).
  unfold mk_conn_info. rewrite (info_loop_run s _ ds Hds _ (First, o)); [|done| | |].
  - change (conn_len (a <| success := true |>)) with (conn_len a). change (res_conn (a <| success := true |>)) with (res_conn a).
    rewrite stored_split by lia. rewrite take_0. cbn [app]. rewrite Nat.add_0_l.
    rewrite wrap_small by lia. set (n := 20 * Z.of_nat _) in *. assert (0 <= n) by lia. replace (conn_len a - (conn_len a - n)) with n by lia.
    by rewrite (swrap_small 32) by (change (32 - 1) with 31; lia).
  - pose proof (seg_length _ _ _ _ Hseg (sources_NoDup _ _ (k_nodup _ _ _ _ Hk))). lia.
  - change (conn_len (a <| success := true |>)) with (conn_len a). rewrite wrap_small by lia. lia.
  - exact Hres.
Qed.
End lists.

(** ** An example: a brick is created and connected to itself *)

Definition demo_spec (nm : string) (i : Z) : conn_spec := {| cs_name := chars nm; cs_index := Some i |}.
Definition demo_lines : list line :=
  [ {| indent := 0; cmd := InstBrick (chars "pipe") None; tail := [] |};
    {| indent := 1; cmd := InstConn true (ch ":") (demo_spec "out" 1); tail := chars " {" |};
    {| indent := 1; cmd := AdaptStrat.Connect (demo_spec "in" 0) [(0x3000, demo_spec "out" 1)]; tail := [] |} ].

Lemma texts_are_requests_witness : exists a s,
  op_trans demo_loaders demo_code demo_grants zero_args demo_others
    (chars "brick:=pipe" ++ NL :: chars " output:=out[1] {" ++ NL :: chars " connect in[0]:=3000:out[1]" ++ [NUL]) control_args [NUL] demo_start =
    Ok (a, s) /\ reachable demo_loaders demo_code demo_grants zero_args demo_others tt s /\
  mem s !! (First, Slot 3 0) = Some (Some (Slot 3 3)).
Proof.
  destruct (texts_are_requests demo_loaders demo_code demo_grants zero_args demo_others
    (fun _ _ _ _ _ => eq_refl) (fun _ _ _ _ _ _ => eq_refl) ltac:(by intros ?????? [= <- _]) demo_loaders_ok demo_granted demo_init
    tt 0 demo_control demo_boot_table false demo_lines control_args [NUL] demo_start demo_start_reachable eq_refl eq_refl eq_refl) as [_ H].
  - repeat constructor; done.
  - done.
  - set (r := op_trans _ _ _ _ _ _ _ _ _) in H. change (chars "brick:=pipe" ++ _) with (script false demo_lines). fold r.
    assert (match r with Ok (_, s) => bool_decide (mem s !! (First, Slot 3 0) = Some (Some (Slot 3 3))) | Fault _ => false end = true) as Hr
      by (vm_compute; reflexivity).
    destruct H as [(a & s & Hrun & _ & Hs & _)|(f & a & s & p & Hrun & _)]; rewrite Hrun in Hr |- *; [|done].
    exists a, s. split; [done|]. split; [done|]. by apply bool_decide_eq_true in Hr.
Defined.

Definition demo_getconn : args :=
  zero_args <| conn1 := Some (at_addr "out" 1) |> <| conn_len := 40 |> <| res_conn := [zero_conn; zero_conn] |>.

Lemma getconn_lists_witness : exists ds,
  Forall2 (describes demo_loaders demo_linked) [Slot 3 0] ds /\
  op_getconn demo_loaders demo_getconn [NUL] demo_linked =
    Ok (demo_getconn <| success := true |> <| res_conn := ds ++ drop (length ds) [zero_conn; zero_conn] |> <| conn_len := 20 |>, demo_linked).
Proof.
  pose proof (demo_consistent _ demo_linked_reachable) as Hcon.
  destruct (found_at_run demo_linked (at_addr "out" 1) 3 (Slot 3 3) Hcon) as [Hb Ho]; [vm_compute; reflexivity..|].
  refine (getconn_lists demo_loaders demo_loaders_ok demo_linked demo_getconn (at_addr "out" 1) 3 (Slot 3 3) [Slot 3 0] [NUL] Hcon eq_refl _ eq_refl Hb Ho _ _ _ _).
  - done.
  - exists (demo_conn "out" true 2 2). split; [vm_compute; reflexivity|done].
  - vm_compute. reflexivity.
  - vm_compute. split; [discriminate|reflexivity].
  - vm_compute. lia.
Defined.

(** Output 1 of the array has the index and the structure of output 0: the
    index of a header that has not been used yet is 0. *)
Lemma output_index_lost : (fun h => (c_index h, instance h)) <$> headers demo_ready !! Slot 3 3 = Some (0, Some (Part 3 1 0)).
Proof. vm_compute. reflexivity. Qed.

(** The first connector of [$connect] is an output that has not been created:
    the pointer to its entry is null. *)
Lemma connect_null_pointer :
  match request demo_loaders demo_code demo_grants zero_args demo_others opcode_connect
    (zero_args <| conn1 := Some (at_addr "out" 0) |> <| conn2 := Some (at_addr "out" 1) |>) [NUL] demo_ready with
  | Ok _ => None | Fault f => Some f end = Some OutOfBounds.
Proof. vm_compute. reflexivity. Qed.
