(* ===== verification/AthStdio.v ===== *)
(** * Formatted output to buffers and connectors: [ath_stdio.c]

    [athvsnprintf] with its own conversion letters, and the two functions
    that send the result to a nest or a pipe.  The variable arguments are a
    typed list; taking one of another type than the caller passed is
    undefined in C and faults here.  A store past the end of the buffer
    object faults. *)

From S2P Require Import Prelude CLib Common.
Open Scope Z_scope.

(** ** Arguments *)

Inductive vararg :=
  | VInt (n : Z)      (* int, index_t, mand_t and the promoted enumerations *)
  | VStr (s : text)
  | VAddr (a : Z)     (* addr_t, len_t *)
  | VPaddr (p : Z).   (* paddr_t, plen_t *)

Definition va_int (l : list vararg) : cres (Z * list vararg) :=
  match l with VInt n :: l' => Ok (n, l') | _ => Fault OutOfBounds end.
Definition va_str (l : list vararg) : cres (text * list vararg) :=
  match l with VStr s :: l' => Ok (s, l') | _ => Fault OutOfBounds end.
Definition va_addr (l : list vararg) : cres (Z * list vararg) :=
  match l with VAddr n :: l' => Ok (n, l') | _ => Fault OutOfBounds end.
Definition va_paddr (l : list vararg) : cres (Z * list vararg) :=
  match l with VPaddr n :: l' => Ok (n, l') | _ => Fault OutOfBounds end.

(** ** Tables *)

Definition ch_bool_types := chars "ft".
Definition ch_bool_types_upper := chars "FT".
Definition ch_bool_types_noyes := chars "ny".
Definition ch_bool_types_noyes_upper := chars "NY".
Definition ch_success_types : list text := [cstr "fail"; cstr "succ"].
Definition ch_success_types_upper : list text := [cstr "FAIL"; cstr "SUCC"].
Definition ch_lock_types := chars "-rw?".
Definition ch_lock_types_upper := chars "-RW?".
Definition ch_action_types := chars "atw".
Definition ch_action_types_upper := chars "ATW".
Definition ch_direction_types := chars "rw".
Definition ch_direction_types_upper := chars "RW".
Definition ch_prio_types := chars "-bnu".
Definition ch_prio_types_upper := chars "-BNU".
Definition ch_version_types := chars "?on".
Definition ch_version_types_upper := chars "?ON".

(** The one-letter conversions, with the table of each. *)
Definition enum_table (k : Z) : option text :=
  if k =? ch "b" then Some ch_bool_types
  else if k =? ch "B" then Some ch_bool_types_upper
  else if k =? ch "y" then Some ch_bool_types_noyes
  else if k =? ch "Y" then Some ch_bool_types_noyes_upper
  else if k =? ch "k" then Some ch_lock_types
  else if k =? ch "K" then Some ch_lock_types_upper
  else if k =? ch "a" then Some ch_action_types
  else if k =? ch "A" then Some ch_action_types_upper
  else if k =? ch "d" then Some ch_direction_types
  else if k =? ch "D" then Some ch_direction_types_upper
  else if k =? ch "r" then Some ch_prio_types
  else if k =? ch "R" then Some ch_prio_types_upper
  else if k =? ch "v" then Some ch_version_types
  else if k =? ch "V" then Some ch_version_types_upper
  else None.

(** The numeric conversions and what [snprintf] is asked to print. *)
Definition is_number (k : Z) : bool :=
  (k =? ch "i") || (k =? ch "x") || (k =? ch "X") || (k =? ch "l") || (k =? ch "L")
  || (k =? ch "p") || (k =? ch "P") || (k =? ch "m").

Definition number (k : Z) (l : list vararg) : cres (text * list vararg) :=
  if (k =? ch "i") || (k =? ch "m") then r ← va_int l; Ok (format_d (i32 r.1), r.2)
  else if k =? ch "x" then r ← va_int l; Ok (format_x false (u32 r.1), r.2)
  else if k =? ch "X" then r ← va_int l; Ok (format_x true (u32 r.1), r.2)
  else if k =? ch "l" then r ← va_addr l; Ok (format_x false (u64 r.1), r.2)
  else if k =? ch "L" then r ← va_addr l; Ok (format_x true (u64 r.1), r.2)
  else if k =? ch "p" then r ← va_paddr l; Ok (format_x false (u64 r.1), r.2)
  else r ← va_paddr l; Ok (format_x true (u64 r.1), r.2).

(** ** The formatter *)

(** What [wtbuf] has passed since [buf], and the space left, less one for the
    terminator. *)
Record output_pos := { written : list Z; bufsize : Z }.

Section formatter.
Context (cap : nat).   (* the size of the buffer object *)

Definition put (c : Z) (o : output_pos) : cres output_pos :=
  if decide (length (written o) < cap)%nat
  then Ok {| written := written o ++ [c]; bufsize := bufsize o - 1 |}
  else Fault OutOfBounds.

(** [while( *fmtiter && *fmtiter != '%' && bufsize > 0)] *)
Fixpoint literal (fmt : text) (o : output_pos) : cres (text * output_pos) :=
  match fmt with
  | [] => Fault OutOfBounds
  | c :: fmt' =>
    if (c =? NUL) || (c =? ch "%") || (bufsize o <=? 0) then Ok (fmt, o)
    else o ← put c o; literal fmt' o
  end.

(** [while( *s && paddr_plen-- > 0 && bufsize-- > 1)] *)
Fixpoint put_limited (s : text) (plen : Z) (o : output_pos) : cres output_pos :=
  match s with
  | [] => Fault OutOfBounds
  | c :: s' =>
    if c =? NUL then Ok o
    else if plen <=? 0 then Ok o
    else if 1 <? bufsize o then o ← put c o; put_limited s' (plen - 1) o
    else Ok {| written := written o; bufsize := bufsize o - 1 |}
  end.

(** [while( *s && bufsize > 0)] *)
Fixpoint put_string (s : text) (o : output_pos) : cres output_pos :=
  match s with
  | [] => Fault OutOfBounds
  | c :: s' =>
    if c =? NUL then Ok o
    else if bufsize o <=? 0 then Ok o
    else o ← put c o; put_string s' o
  end.

(** [snprintf(wtbuf, bufsize, ...)] and the advance by its clipped result:
    the library stores at most [bufsize - 1] characters and a NUL. *)
Definition put_number (t : text) (o : output_pos) : cres output_pos :=
  let n := length t in
  let size := Z.to_nat (bufsize o) in
  let stored := if decide (n < size)%nat then t ++ [NUL] else take (size - 1) t ++ [NUL] in
  if decide (length (written o) + length stored <= cap)%nat then
    let n := if decide (size < n)%nat then size else n in
    Ok {| written := written o ++ take n stored; bufsize := bufsize o - Z.of_nat n |}
  else Fault OutOfBounds.

(** [if(n < 0 || n > sizeof table) n = sizeof table; table[n]] *)
Definition enum_char (table : text) (n : Z) : cres Z :=
  let size := Z.of_nat (length table) in
  let n := if (n <? 0) || (size <? n) then size else n in
  match table !! Z.to_nat n with Some c => Ok c | None => Fault OutOfBounds end.

(** The [switch] on the conversion letter, from the position behind [%]. *)
Definition conversion (fmt : text) (o : output_pos) (l : list vararg)
  : cres (text * output_pos * list vararg) :=
  k ← deref fmt;
  if k =? ch "c" then
    r ← va_int l;
    o ← put (swrap 8 r.1) o; Ok (drop 1 fmt, o, r.2)
  else if k =? ch "S" then
    p ← va_paddr l;
    r ← va_str p.2;
    o ← put_limited r.1 (u64 p.1) o; Ok (drop 1 fmt, o, r.2)
  else if k =? ch "s" then
    r ← va_str l;
    o ← put_limited r.1 (u64 (-1)) o; Ok (drop 1 fmt, o, r.2)
  else if (k =? ch "o") || (k =? ch "O") then
    r ← va_int l;
    let n := if (r.1 <? 0) || (1 <? r.1) then 1 else r.1 in
    let s := if k =? ch "o" then ch_success_types else ch_success_types_upper in
    o ← put_string (default [] (s !! Z.to_nat n)) o; Ok (drop 1 fmt, o, r.2)
  else if is_number k then
    r ← number k l;
    o ← put_number r.1 o; Ok (drop 1 fmt, o, r.2)
  else match enum_table k with
  | Some table =>
    r ← va_int l;
    c ← enum_char table r.1;
    o ← put c o; Ok (drop 1 fmt, o, r.2)
  | None =>
    if k =? ch "%" then o ← put k o; Ok (drop 1 fmt, o, l)
    else o ← put (ch "%") o; Ok (fmt, o, l)
  end.

Fixpoint format_loop (fuel : nat) (fmt : text) (o : output_pos) (l : list vararg)
  : cres output_pos :=
  match fuel with
  | O => Fault OutOfFuel
  | S fuel' =>
    c ← deref fmt;
    if (c =? NUL) || (bufsize o <=? 0) then Ok o else
    r ← literal fmt o;
    let '(fmt, o) := r in
    c ← deref fmt;
    if (c =? ch "%") && (0 <? bufsize o) then
      r ← conversion (drop 1 fmt) o l;
      let '(fmt, o, l) := r in
      format_loop fuel' fmt o l
    else format_loop fuel' fmt o l
  end.
End formatter.

(** The contents of [buf] and the offset of the returned pointer.  Every round
    of the loop passes at least one character of the format. *)
Definition athvsnprintf (buf : list Z) (bufsize : Z) (fmt : text) (l : list vararg)
  : cres (list Z * Z) :=
  o ← format_loop (length buf) (S (length fmt)) fmt
        {| written := []; bufsize := bufsize - 1 |} l;
  buf ← write_front (written o ++ [NUL]) buf;
  Ok (buf, Z.of_nat (length (written o))).

Definition athsnprintf := athvsnprintf.

(** ** Printing to connectors

    The local buffer lives in the memory of the world at [strbuf_addr];
    [junk] is what an uninitialised argument record holds. *)
Section connectors.
Context {W : Type} (ops : optable W).
Context (store : Z -> list Z -> W -> W) (strbuf_addr : Z) (junk : args) (junk_buf : list Z).

Definition athnestprintf (addr mand : Z) (fmt : text) (l : list vararg) (w : world W)
  : cres (Z * world W) :=
  r ← athvsnprintf junk_buf 0x400 fmt l;
  let a := junk <| success := false |> <| log_addr := addr |> <| log_len := u64 r.2 |>
             <| phys_addr := strbuf_addr |> <| mandate := u32 mand |>
             <| direction := direct_write |> <| prio := prio_normal |>
             <| op_code := opcode_transwait |> <| sect_code := 0 |> in
  let '(a, w) := ops 0 opcode_transwait a [NUL]
                   (World (console w) (store strbuf_addr r.1 (brick w))) in
  Ok (if success a then phys_len a else 0, w).

Definition athpipeprintf (mand : Z) (fmt : text) (l : list vararg) (w : world W)
  : cres (Z * world W) :=
  r ← athvsnprintf junk_buf 0x400 fmt l;
  let a := junk <| success := false |> <| phys_addr := strbuf_addr |>
             <| phys_len := u64 r.2 |> <| mandate := u32 mand |>
             <| action := action_wait |> <| melt := true |>
             <| op_code := opcode_gadrcreatetranswaitpadr |> <| sect_code := 0 |> in
  let '(a, w) := ops 0 opcode_gadrcreatetranswaitpadr a [NUL]
                   (World (console w) (store strbuf_addr r.1 (brick w))) in
  Ok (if success a then phys_len a else 0, w).
End connectors.

(** * Reference formatter *)

(** The text of a conversion and the arguments it leaves, for a letter that
    takes arguments; [None] where the arguments do not fit the letter. *)
Definition conv_text (k : Z) (l : list vararg) : option (text * list vararg) :=
  if k =? ch "c" then
    match l with VInt n :: l => Some ([swrap 8 n], l) | _ => None end
  else if k =? ch "S" then
    match l with
    | VPaddr p :: VStr s :: l =>
      if terminated s then Some (take (Z.to_nat (u64 p)) (body s), l) else None
    | _ => None
    end
  else if k =? ch "s" then
    match l with
    | VStr s :: l =>
      if terminated s && (Z.of_nat (length s) <? 2 ^ 63) then Some (body s, l) else None
    | _ => None
    end
  else if (k =? ch "o") || (k =? ch "O") then
    match l with
    | VInt n :: l =>
      Some (if k =? ch "o" then if n =? 0 then chars "fail" else chars "succ"
            else if n =? 0 then chars "FAIL" else chars "SUCC", l)
    | _ => None
    end
  else if is_number k then
    match number k l with Ok r => Some r | Fault _ => None end
  else match enum_table k, l with
  | Some table, VInt n :: l =>
    if 0 <=? n then match table !! Z.to_nat n with Some c => Some ([c], l) | None => None end
    else None
  | _, _ => None
  end.

Definition takes_argument (k : Z) : bool :=
  (k =? ch "c") || (k =? ch "S") || (k =? ch "s") || (k =? ch "o") || (k =? ch "O")
  || is_number k || match enum_table k with Some _ => true | None => false end.

(** The text a format stands for, however long. *)
Fixpoint expected (fmt : text) (l : list vararg) : option text :=
  match fmt with
  | [] => None
  | c :: fmt' =>
    if c =? NUL then Some []
    else if c =? ch "%" then
      match fmt' with
      | [] => None
      | k :: fmt'' =>
        if takes_argument k then
          match conv_text k l with
          | Some (t, l') => app t <$> expected fmt'' l'
          | None => None
          end
        else if k =? ch "%" then cons k <$> expected fmt'' l
        else cons (ch "%") <$> expected fmt' l
      end
    else cons c <$> expected fmt' l
  end.

Lemma expected_percent k fmt l :
  expected (ch "%" :: k :: fmt) l =
  if takes_argument k then
    match conv_text k l with Some (t, l') => app t <$> expected fmt l' | None => None end
  else if k =? ch "%" then cons k <$> expected fmt l
  else cons (ch "%") <$> expected (k :: fmt) l.
Proof. done. Qed.

(** * Correctness *)

Lemma body_length t : (length (body t) <= length t)%nat.
Proof. induction t as [|c t IH]; simpl; [done|]. destruct (c =? 0); simpl; lia. Qed.

Section formatter_facts.
Context (cap : nat) (limit : Z) (Hlimit : limit <= Z.of_nat cap).

(** The space accounted for never exceeds the buffer. *)
Definition pos_ok (o : output_pos) : Prop :=
  0 <= bufsize o /\ Z.of_nat (length (written o)) + bufsize o + 1 <= limit.

(** [o'] has room left if [o] had more than the length of [t], and then [t]
    was appended. *)
Definition appended (o o' : output_pos) (t : text) : Prop :=
  pos_ok o' /\
  (Z.of_nat (length t) < bufsize o ->
   written o' = written o ++ t /\ bufsize o' = bufsize o - Z.of_nat (length t)).

Lemma appended_trans o o1 o2 t1 t2 :
  appended o o1 t1 -> appended o1 o2 t2 -> appended o o2 (t1 ++ t2).
Proof.
  intros [_ H1] [Hok H2]. split; [done|]. rewrite length_app, Nat2Z.inj_add. intros Hlen.
  destruct H1 as [Hw1 Hb1]; [lia|]. destruct H2 as [Hw2 Hb2]; [lia|].
  rewrite Hw2, Hw1, <- app_assoc. split; [done|lia].
Qed.

Lemma put_ok c o : pos_ok o -> 0 < bufsize o ->
  put cap c o = Ok {| written := written o ++ [c]; bufsize := bufsize o - 1 |} /\
  appended o {| written := written o ++ [c]; bufsize := bufsize o - 1 |} [c].
Proof.
  intros [H0 Hok] Hb. unfold put. rewrite decide_True by lia. split; [done|].
  split; [split; simpl; [lia|rewrite length_app; simpl; lia]|]. simpl. intros. split; [done|lia].
Qed.

Lemma put_limited_ok s plen o :
  terminated s = true -> pos_ok o -> 0 < bufsize o -> 0 <= plen ->
  exists o', put_limited cap s plen o = Ok o' /\
    appended o o' (take (Z.to_nat plen) (body s)).
Proof.
  revert plen o. induction s as [|c s IH]; intros plen o Hs Hok Hb Hp; [done|].
  cbn [put_limited body]. change NUL with 0.
  assert (appended o o []) as Hnil
    by (split; [done|]; intros _; rewrite app_nil_r; simpl; split; [done|lia]).
  destruct (Z.eqb_spec c 0) as [->|Hc]; [exists o; by rewrite take_nil|].
  apply terminated_tail in Hs; [|done].
  destruct (Z.leb_spec plen 0); [exists o; by replace plen with 0 by lia|].
  assert (Z.to_nat plen = S (Z.to_nat (plen - 1))) as -> by lia. cbn [take].
  destruct (Z.ltb_spec 1 (bufsize o)) as [H1|H1].
  - destruct (put_ok c o Hok Hb) as [-> Ha]. cbn [mbind cres_bind].
    destruct (IH (plen - 1) {| written := written o ++ [c]; bufsize := bufsize o - 1 |})
      as (o' & Ho' & Ha'); [done|apply Ha|simpl; lia|lia|].
    exists o'. split; [done|]. apply (appended_trans _ _ _ [c] _ Ha Ha').
  - eexists. split; [done|]. split; [|simpl; lia]. destruct Hok. split; simpl; lia.
Qed.

Lemma put_string_ok s o :
  terminated s = true -> pos_ok o ->
  exists o', put_string cap s o = Ok o' /\ appended o o' (body s).
Proof.
  revert o. induction s as [|c s IH]; intros o Hs Hok; [done|].
  cbn [put_string body]. change NUL with 0.
  destruct (Z.eqb_spec c 0) as [->|Hc].
  { exists o. split; [done|]. split; [done|]. intros _. rewrite app_nil_r. split; [done|simpl; lia]. }
  apply terminated_tail in Hs; [|done].
  destruct (Z.leb_spec (bufsize o) 0).
  { exists o. split; [done|]. split; [done|]. simpl. lia. }
  destruct (put_ok c o Hok ltac:(lia)) as [-> Ha]. cbn [mbind cres_bind].
  destruct (IH _ Hs (proj1 Ha)) as (o' & Ho' & Ha'). exists o'. split; [done|].
  apply (appended_trans _ _ _ [c] _ Ha Ha').
Qed.

Lemma put_number_ok t o :
  pos_ok o -> 0 < bufsize o ->
  exists o', put_number cap t o = Ok o' /\ appended o o' t.
Proof.
  intros [H0 Hok] Hb. unfold put_number.
  set (size := Z.to_nat (bufsize o)).
  destruct (decide (length t < size)%nat) as [Hlt|Hge].
  - rewrite decide_True by (rewrite length_app; simpl; lia).
    rewrite decide_False by lia. eexists. split; [done|].
    rewrite take_app_length. split; [split; simpl; [lia|rewrite length_app; lia]|]. done.
  - assert (length (take (size - 1) t ++ [NUL]) = size) as Hl
      by (rewrite length_app, length_take; simpl; lia).
    rewrite decide_True by (rewrite Hl; lia). eexists. split; [done|].
    split; [|lia]. split; simpl; [case_decide; lia|].
    rewrite length_app, length_take, Hl. case_decide; lia.
Qed.

Lemma enum_char_ok table n c :
  0 <= n -> table !! Z.to_nat n = Some c -> enum_char table n = Ok c.
Proof.
  intros Hn Hc. pose proof (lookup_lt_Some _ _ _ Hc). unfold enum_char.
  rewrite (proj2 (Z.ltb_ge n 0)), (proj2 (Z.ltb_ge _ n)) by lia. simpl. by rewrite Hc.
Qed.

Lemma conversion_ok k fmt o l t l' :
  takes_argument k = true -> conv_text k l = Some (t, l') -> pos_ok o -> 0 < bufsize o ->
  exists o', conversion cap (k :: fmt) o l = Ok (fmt, o', l') /\ appended o o' t.
Proof.
  intros Hk Ht Hok Hb. unfold conversion, conv_text in *. cbn [deref mbind cres_bind drop].
  rewrite drop_0. unfold takes_argument in Hk.
  destruct (k =? ch "c").
  { destruct l as [|[n| | |] l]; simplify_eq. cbn [va_int mbind cres_bind fst snd].
    destruct (put_ok (swrap 8 n) o Hok Hb) as [-> Ha]. by eexists. }
  destruct (k =? ch "S").
  { destruct l as [|[| | |p] [|[|s| |] l]]; simplify_eq.
    destruct (terminated s) eqn:Hs; simplify_eq. cbn [va_paddr va_str mbind cres_bind fst snd].
    destruct (put_limited_ok s (u64 p) o Hs Hok Hb) as (o' & -> & Ha);
      [by apply wrap_range|]. by eexists. }
  destruct (k =? ch "s").
  { destruct l as [|[|s| |] l]; simplify_eq.
    destruct (terminated s) eqn:Hs; simplify_eq/=. case_match; simplify_eq.
    destruct (put_limited_ok s (u64 (-1)) o Hs Hok Hb) as (o' & -> & Ha); [done|].
    eexists. split; [done|]. rewrite take_ge in Ha; [done|].
    pose proof (body_length s). change (u64 (-1)) with 18446744073709551615. lia. }
  destruct ((k =? ch "o") || (k =? ch "O")) eqn:Ho.
  { destruct l as [|[n| | |] l]; simplify_eq. cbn [va_int mbind cres_bind fst snd].
    assert ((if (n <? 0) || (1 <? n) then 1 else n) = if n =? 0 then 0 else 1) as ->
      by (destruct (Z.eqb_spec n 0); [by subst|];
          destruct ((n <? 0) || (1 <? n)) eqn:?; [done|lia]).
    set (s := default [] _).
    destruct (put_string_ok s o) as (o' & -> & Ha); [|done|].
    - subst s. by destruct (n =? 0), (k =? ch "o").
    - eexists. split; [done|]. subst s. by destruct (n =? 0), (k =? ch "o"). }
  destruct (is_number k) eqn:Hnum.
  { destruct (number k l) as [[t0 l0]|]; simplify_eq. cbn [mbind cres_bind fst snd].
    destruct (put_number_ok t o Hok Hb) as (o' & -> & Ha). by eexists. }
  destruct (enum_table k) as [table|]; [|by rewrite ?orb_false_r in *].
  destruct l as [|[n| | |] l]; simplify_eq. destruct (Z.leb_spec 0 n); simplify_eq.
  destruct (table !! Z.to_nat n) as [c|] eqn:Hc; simplify_eq. cbn [va_int mbind cres_bind fst snd].
  rewrite (enum_char_ok table n c) by done. cbn [mbind cres_bind].
  destruct (put_ok c o Hok Hb) as [-> Ha]. by eexists.
Qed.

(** An unknown letter and a percent sign. *)
Lemma conversion_other k fmt o l :
  takes_argument k = false -> pos_ok o -> 0 < bufsize o ->
  exists o', conversion cap (k :: fmt) o l =
    Ok (if k =? ch "%" then fmt else k :: fmt, o', l) /\ appended o o' [ch "%"].
Proof.
  intros Hk Hok Hb. destruct (put_ok (ch "%") o Hok Hb) as [Hput Ha].
  unfold takes_argument in Hk. rewrite !orb_false_iff in Hk.
  destruct Hk as ((((((H1 & H2) & H3) & H4) & H5) & H6) & H7).
  unfold conversion. cbn [deref mbind cres_bind drop]. rewrite drop_0.
  rewrite H1, H2, H3, H4, H5, H6. cbn [orb]. destruct (enum_table k); [done|].
  destruct (Z.eqb_spec k (ch "%")) as [->|]; rewrite Hput; cbn [mbind cres_bind]; by eexists.
Qed.

Lemma literal_ok fmt o l t :
  terminated fmt = true -> pos_ok o -> expected fmt l = Some t ->
  exists fmt' o' t1 t2,
    literal cap fmt o = Ok (fmt', o') /\ t = t1 ++ t2 /\ expected fmt' l = Some t2 /\
    terminated fmt' = true /\ (length fmt' <= length fmt)%nat /\ appended o o' t1 /\
    (head fmt' = Some NUL \/ head fmt' = Some (ch "%") \/ bufsize o' = 0) /\
    (fmt' = fmt \/ (length fmt' < length fmt)%nat).
Proof.
  revert o t. induction fmt as [|c fmt IH]; intros o t Hf Hok Ht; [done|].
  cbn [literal].
  assert (appended o o []) as Hnil
    by (split; [done|]; intros _; rewrite app_nil_r; simpl; split; [done|lia]).
  destruct ((c =? NUL) || (c =? ch "%") || (bufsize o <=? 0)) eqn:Hstop.
  { exists (c :: fmt), o, [], t. split_and!; try done; [|by left].
    simpl. destruct Hok. rewrite !orb_true_iff, !Z.eqb_eq in Hstop.
    destruct Hstop as [[->| ->]|?]; [by left|by right; left|right; right; lia]. }
  rewrite !orb_false_iff in Hstop. destruct Hstop as [[Hc Hp] Hb].
  cbn [expected] in Ht. rewrite Hc, Hp in Ht.
  destruct (expected fmt l) as [t'|] eqn:He; simplify_eq/=.
  apply Z.eqb_neq in Hc. apply terminated_tail in Hf; [|done].
  destruct (put_ok c o Hok ltac:(lia)) as [-> Ha]. cbn [mbind cres_bind].
  destruct (IH _ t' Hf (proj1 Ha) eq_refl) as (fmt' & o' & t1 & t2 & -> & -> & H3 & H4 & H5 & H6 & H7 & _).
  exists fmt', o', (c :: t1), t2. split_and!; try done; [simpl; lia| |right; simpl; lia].
  apply (appended_trans _ _ _ [c] t1 Ha H6).
Qed.

Lemma format_loop_stop fuel c fmt o l :
  (0 < fuel)%nat -> c = NUL \/ bufsize o = 0 -> format_loop cap fuel (c :: fmt) o l = Ok o.
Proof.
  intros Hf Hc. destruct fuel as [|fuel]; [lia|]. cbn [format_loop deref mbind cres_bind].
  destruct Hc as [->| ->]; [done|]. by rewrite orb_true_r.
Qed.

Lemma format_loop_ok fuel fmt o l t :
  terminated fmt = true -> (length fmt < fuel)%nat -> pos_ok o -> expected fmt l = Some t ->
  exists o', format_loop cap fuel fmt o l = Ok o' /\ appended o o' t.
Proof.
  revert fmt o l t. induction fuel as [|fuel IH]; intros fmt o l t Hf Hfuel Hok Ht; [lia|].
  cbn [format_loop]. destruct (terminated_nonempty fmt Hf) as (c & fmt0 & ->).
  cbn [deref mbind cres_bind].
  destruct ((c =? NUL) || (bufsize o <=? 0)) eqn:Hstop.
  { exists o. split; [done|]. split; [done|]. apply orb_true_iff in Hstop as [Hc|Hb]; [|lia].
    cbn [expected] in Ht. rewrite Hc in Ht. simplify_eq. simpl. rewrite app_nil_r.
    split; [done|lia]. }
  destruct (literal_ok (c :: fmt0) o l t Hf Hok Ht)
    as (fmt1 & o1 & t1 & t2 & Hl & -> & H2 & H3 & H4 & Ha & H5 & _).
  rewrite Hl. cbn [mbind cres_bind]. simpl in Hfuel, H4.
  destruct (terminated_nonempty fmt1 H3) as (c1 & fmt2 & ->). cbn [deref mbind cres_bind].
  destruct ((c1 =? ch "%") && (0 <? bufsize o1)) eqn:Hconv.
  - apply andb_true_iff in Hconv as [->%Z.eqb_eq Hb1%Z.ltb_lt].
    apply terminated_tail in H3; [|done].
    destruct (terminated_nonempty fmt2 H3) as (k & fmt3 & ->).
    pose proof (terminated_tail k fmt3 H3) as Htail.
    cbn [drop]. rewrite ?drop_0. rewrite expected_percent in H2.
    simpl in H4. destruct (takes_argument k) eqn:Hk.
    + destruct (conv_text k l) as [[tk lk]|] eqn:Hck; [|done].
      destruct (expected fmt3 lk) as [t3|] eqn:He; simplify_eq/=.
      specialize (Htail ltac:(by intros ->)).
      destruct (conversion_ok k fmt3 o1 l tk lk Hk Hck (proj1 Ha) Hb1) as (o2 & -> & Ha2).
      cbn [mbind cres_bind].
      destruct (IH fmt3 o2 lk t3 Htail ltac:(lia) (proj1 Ha2) He) as (o3 & -> & Ha3).
      exists o3. split; [done|]. eauto using appended_trans.
    + destruct (conversion_other k fmt3 o1 l Hk (proj1 Ha) Hb1) as (o2 & -> & Ha2).
      cbn [mbind cres_bind]. destruct (Z.eqb_spec k (ch "%")) as [->|Hne].
      * destruct (expected fmt3 l) as [t3|] eqn:He; simplify_eq/=.
        destruct (IH fmt3 o2 l t3 (Htail ltac:(done)) ltac:(lia) (proj1 Ha2) He) as (o3 & -> & Ha3).
        exists o3. split; [done|]. apply (appended_trans o o2 o3 (t1 ++ [ch "%"]) t3) in Ha3;
          [by rewrite <- app_assoc in Ha3|exact (appended_trans o o1 o2 t1 _ Ha Ha2)].
      * destruct (expected (k :: fmt3) l) as [t3|] eqn:He; [|done].
        injection H2 as <-.
        destruct (IH (k :: fmt3) o2 l t3 H3 ltac:(simpl; lia) (proj1 Ha2) He) as (o3 & -> & Ha3).
        exists o3. split; [done|]. apply (appended_trans o o2 o3 (t1 ++ [ch "%"]) t3) in Ha3;
          [by rewrite <- app_assoc in Ha3|exact (appended_trans o o1 o2 t1 _ Ha Ha2)].
  - assert (c1 = NUL \/ bufsize o1 = 0) as Hend.
    { destruct Ha as [[Hpos _] _]. destruct H5 as [[= ->]|[[= ->]|?]]; [by left| |by right].
      rewrite Z.eqb_refl in Hconv. right. simpl in Hconv. lia. }
    exists o1. rewrite format_loop_stop by (done || lia). split; [done|].
    destruct Hend as [->|Hb1].
    + cbn [expected] in H2. rewrite Z.eqb_refl in H2. simplify_eq. by rewrite app_nil_r.
    + split; [apply Ha|]. rewrite length_app. intros Hlen. destruct Ha as [_ Ha].
      destruct Ha as [_ ?]; lia.
Qed.
End formatter_facts.

Lemma athvsnprintf_run buf size fmt l t :
  terminated fmt = true -> expected fmt l = Some t ->
  1 <= size <= Z.of_nat (length buf) ->
  exists w, athvsnprintf buf size fmt l =
    Ok (w ++ NUL :: drop (S (length w)) buf, Z.of_nat (length w)) /\
    Z.of_nat (length w) < size /\ (Z.of_nat (length t) + 1 < size -> w = t).
Proof.
  intros Hf Ht Hsize. unfold athvsnprintf.
  destruct (format_loop_ok (length buf) size ltac:(lia) (S (length fmt)) fmt
    {| written := []; bufsize := size - 1 |} l t) as (o & -> & [Hb Hw] & Ha);
    [done|lia|split; simpl; lia|done|].
  cbn [mbind cres_bind]. exists (written o).
  rewrite write_front_ok by (rewrite length_app; simpl; lia). cbn [mbind cres_bind].
  rewrite length_app, <- app_assoc, Nat.add_1_r. cbn [app].
  split; [done|]. split; [lia|]. intros Hlen. apply Ha. simpl. lia.
Qed.

(** C28: whatever the output's length, the formatter stays inside its buffer
    and terminates what it wrote.  For every format and matching arguments
    and every size from one byte up, it completes, stores nothing behind the
    returned terminator, and returns a position inside the size it was
    given. *)
Theorem athvsnprintf_bounded buf size fmt l t :
  terminated fmt = true -> expected fmt l = Some t ->
  1 <= size <= Z.of_nat (length buf) ->
  exists buf' n, athvsnprintf buf size fmt l = Ok (buf', Z.of_nat n) /\
    Z.of_nat n < size /\ length buf' = length buf /\ buf' !! n = Some NUL /\
    drop (S n) buf' = drop (S n) buf.
Proof.
  intros Hf Ht Hsize.
  destruct (athvsnprintf_run buf size fmt l t Hf Ht Hsize) as (w & Hrun & Hlen & _).
  do 2 eexists. split; [exact Hrun|]. split_and!.
  - done.
  - rewrite length_app, length_cons, length_drop. lia.
  - by rewrite lookup_app_r, Nat.sub_diag by lia.
  - rewrite drop_app_ge by lia. by replace (S (length w) - length w)%nat with 1%nat by lia.
Qed.

(** Output that leaves room is complete.  If the text a format stands
    for is shorter than the space before the terminator, the buffer holds
    exactly this text, NUL-terminated, and the returned pointer is at its
    end. *)
Lemma athvsnprintf_fits buf size fmt l t :
  terminated fmt = true -> expected fmt l = Some t ->
  Z.of_nat (length t) + 1 < size <= Z.of_nat (length buf) ->
  athvsnprintf buf size fmt l =
  Ok (t ++ NUL :: drop (S (length t)) buf, Z.of_nat (length t)).
Proof.
  intros Hf Ht Hsize.
  destruct (athvsnprintf_run buf size fmt l t Hf Ht ltac:(lia)) as (w & Hrun & _ & Hw).
  by rewrite <- Hw by lia.
Qed.

(** A format of one conversion. *)
Lemma format_one cap fuel k o l :
  0 < bufsize o ->
  format_loop cap (S (S fuel)) [ch "%"; k; NUL] o l =
  (r ← conversion cap [k; NUL] o l;
   let '(fmt, o, l) := r in format_loop cap (S fuel) fmt o l).
Proof.
  intros Hb. cbn [format_loop]. cbn [deref mbind cres_bind literal].
  rewrite (proj2 (Z.leb_gt _ _)) by lia. cbn [orb]. rewrite Z.eqb_refl.
  change (ch "%" =? NUL) with false. cbn [orb mbind cres_bind].
  rewrite (proj2 (Z.ltb_lt _ _)) by lia. done.
Qed.

Lemma number_exact_fill k buf n :
  k = ch "i" \/ k = ch "m" ->
  let t := format_d (i32 n) in
  (S (length t) <= length buf)%nat ->
  athvsnprintf buf (Z.of_nat (S (length t))) [ch "%"; k; NUL] [VInt n] =
  Ok (take (length t - 1) t ++ [NUL] ++ NUL :: drop (S (length t)) buf, Z.of_nat (length t)).
Proof.
  intros Hk t Hlen. unfold athvsnprintf.
  assert (0 < length t)%nat as Hpos.
  { subst t. unfold format_d. destruct (_ <? _); [simpl; lia|].
    destruct (digits false 10 (i32 n)) eqn:Hd; [by apply digits_nonempty in Hd|simpl; lia]. }
  cbn [length]. rewrite format_one by (simpl; lia).
  assert (forall o, conversion (length buf) [k; NUL] o [VInt n] =
    (o' ← put_number (length buf) t o; Ok ([NUL], o', []))) as Hconv
    by (intros o; by destruct Hk as [->| ->]).
  rewrite Hconv. clearbody t. clear Hconv. unfold put_number. cbn [bufsize written].
  replace (Z.to_nat (Z.of_nat (S (length t)) - 1)) with (length t) by lia.
  rewrite (decide_False (P := (length t < length t)%nat)) by lia.
  set (w := take _ t ++ [NUL]).
  assert (length w = length t) as Hw
    by (subst w; rewrite length_app, length_take; simpl; lia).
  rewrite decide_True by (simpl; lia). cbn [mbind cres_bind].
  rewrite (decide_False (P := (length t < length t)%nat)) by lia.
  rewrite format_loop_stop by (by left || lia).
  cbn [mbind cres_bind written app]. rewrite take_ge by lia.
  rewrite write_front_ok by (rewrite length_app; simpl; lia). cbn [mbind cres_bind].
  rewrite length_app, Hw, <- app_assoc. cbn [length app]. rewrite Nat.add_1_r. subst w.
  by rewrite <- app_assoc.
Qed.

Lemma put_limited_run cap s r plen o :
  Forall (fun c => 0 < c < 128) s -> Z.of_nat (length s) <= plen ->
  Z.of_nat (length s) < bufsize o -> Z.of_nat (length (written o)) + bufsize o <= Z.of_nat cap ->
  put_limited cap (s ++ r) plen o =
  put_limited cap r (plen - Z.of_nat (length s))
    {| written := written o ++ s; bufsize := bufsize o - Z.of_nat (length s) |}.
Proof.
  intros Hs. revert plen o. induction Hs as [|c s Hc Hs IH]; intros plen [w b] Hp Hb Hcap.
  { simpl. by rewrite app_nil_r, !Z.sub_0_r. }
  cbn [app put_limited]. change NUL with 0. rewrite (proj2 (Z.eqb_neq c 0)) by lia.
  simpl in *. rewrite (proj2 (Z.leb_gt _ _)), (proj2 (Z.ltb_lt _ _)) by lia.
  unfold put. cbn [written bufsize]. rewrite decide_True by lia. cbn [mbind cres_bind].
  rewrite IH by (simpl; rewrite ?length_app; simpl; lia). cbn [written bufsize].
  rewrite <- app_assoc. f_equal; [lia|]. f_equal. lia.
Qed.

Lemma string_exact_fill s buf :
  Forall (fun c => 0 < c < 128) s -> s <> [] ->
  (S (length s) <= length buf)%nat -> Z.of_nat (length buf) < 2 ^ 31 ->
  athvsnprintf buf (Z.of_nat (S (length s))) (cstr "%s") [VStr (s ++ [NUL])] =
  Ok (take (length s - 1) s ++ NUL :: drop (length s) buf, Z.of_nat (length s) - 1).
Proof.
  intros Hs Hne Hlen Hbuf. unfold athvsnprintf. change (cstr "%s") with [ch "%"; ch "s"; NUL].
  cbn [length]. rewrite format_one by (destruct s; [done|simpl; lia]). unfold conversion.
  cbn [deref mbind cres_bind va_str fst snd].
  change (ch "s" =? ch "c") with false. change (ch "s" =? ch "S") with false.
  rewrite Z.eqb_refl. cbn [drop].
  destruct (exists_last Hne) as (s' & c & ->). rewrite length_app in *. cbn [length] in *.
  apply Forall_app in Hs as [Hs Hc]. apply Forall_cons in Hc as [Hc _].
  change (u64 (-1)) with 18446744073709551615.
  rewrite <- app_assoc, put_limited_run by (done || cbn [bufsize written length]; lia).
  cbn [app put_limited bufsize written]. change NUL with 0.
  rewrite (proj2 (Z.eqb_neq c 0)), (proj2 (Z.leb_gt _ _)) by lia.
  rewrite (proj2 (Z.ltb_ge 1 _)) by lia. cbn [mbind cres_bind].
  rewrite ?drop_0, format_loop_stop by (by left || lia). cbn [mbind cres_bind written].
  rewrite write_front_ok by (rewrite length_app; simpl; lia). cbn [mbind cres_bind].
  rewrite length_app, Nat.add_sub, take_app_length, <- app_assoc. cbn [length app].
  repeat f_equal; lia.
Qed.

Lemma limited_overread s buf :
  Forall (fun c => 0 < c < 128) s ->
  (S (S (length s)) <= length buf)%nat -> Z.of_nat (length buf) < 2 ^ 31 ->
  athvsnprintf buf (Z.of_nat (S (S (length s)))) (cstr "%S")
    [VPaddr (Z.of_nat (length s)); VStr s] = Fault OutOfBounds.
Proof.
  intros Hs Hlen Hbuf. unfold athvsnprintf. change (cstr "%S") with [ch "%"; ch "S"; NUL].
  cbn [length]. rewrite format_one by (simpl; lia). unfold conversion.
  cbn [deref mbind cres_bind va_str va_paddr fst snd].
  change (ch "S" =? ch "c") with false. rewrite Z.eqb_refl.
  rewrite wrap_small by (change (2 ^ 64) with 18446744073709551616; lia).
  pose proof (put_limited_run (length buf) s [] (Z.of_nat (length s))
    {| written := []; bufsize := Z.of_nat (S (S (length s))) - 1 |} Hs) as Hrun.
  rewrite app_nil_r in Hrun. by rewrite Hrun by (cbn [bufsize written length]; lia).
Qed.

(** The edges of the formatter.  A number that exactly fills the space
    loses its last digit to an embedded NUL, so that the returned position is
    not the terminator of the string; a string that exactly fills it loses
    its last character; the legal direction value direct_stop (2) has no
    letter, and printing it reads outside the table; and a limited string
    that is not NUL-terminated is read one character past its limit. *)
Lemma athvsnprintf_edges s buf n :
  (let t := format_d (i32 n) in (S (length t) <= length buf)%nat ->
   athvsnprintf buf (Z.of_nat (S (length t))) (cstr "%i") [VInt n] =
   Ok (take (length t - 1) t ++ [NUL] ++ NUL :: drop (S (length t)) buf, Z.of_nat (length t))) /\
  (Forall (fun c => 0 < c < 128) s -> Z.of_nat (length buf) < 2 ^ 31 ->
   (S (S (length s)) <= length buf)%nat ->
   (s <> [] -> athvsnprintf buf (Z.of_nat (S (length s))) (cstr "%s") [VStr (s ++ [NUL])] =
    Ok (take (length s - 1) s ++ NUL :: drop (length s) buf, Z.of_nat (length s) - 1)) /\
   athvsnprintf buf (Z.of_nat (S (S (length s)))) (cstr "%S")
     [VPaddr (Z.of_nat (length s)); VStr s] = Fault OutOfBounds) /\
  (forall size, 2 <= size ->
   athvsnprintf buf size (cstr "%d") [VInt 2] = Fault OutOfBounds).
Proof.
  split; [|split].
  - intros t. apply (number_exact_fill (ch "i")). by left.
  - intros Hs Hb Hl. split; [intros Hne; apply string_exact_fill; (done || lia)|].
    by apply limited_overread.
  - intros size Hsize. unfold athvsnprintf. change (cstr "%d") with [ch "%"; ch "d"; NUL].
    cbn [length]. by rewrite format_one by (simpl; lia).
Qed.

(** * Concrete runs *)

Lemma athvsnprintf_bounded_witness :
  exists buf' n, athvsnprintf (replicate 8 1) 8 (cstr "%k%s:%i")
      [VInt 2; VStr (cstr "lock"); VInt 77] = Ok (buf', Z.of_nat n) /\
    buf' !! n = Some NUL /\ drop (S n) buf' = drop (S n) (replicate 8 1).
Proof.
  destruct (athvsnprintf_bounded (replicate 8 1) 8 (cstr "%k%s:%i")
    [VInt 2; VStr (cstr "lock"); VInt 77] (chars "wlock:77"))
    as (buf' & n & H1 & _ & _ & H2 & H3); [reflexivity|reflexivity|simpl; lia|].
  exists buf', n. split; [exact H1|]. split; [exact H2|exact H3].
Defined.

Lemma athvsnprintf_fits_witness :
  athvsnprintf (replicate 12 1) 12 (cstr "%Y at %L%%") [VInt 1; VAddr 0x1f00] =
  Ok (chars "Y at 1F00%" ++ [0; 1], 10).
Proof.
  apply (athvsnprintf_fits (replicate 12 1) 12 (cstr "%Y at %L%%") [VInt 1; VAddr 0x1f00]
    (chars "Y at 1F00%")); [reflexivity|reflexivity|simpl; lia].
Defined.

Lemma athvsnprintf_edges_witness :
  athvsnprintf (replicate 6 1) 4 (cstr "%i") [VInt 789] = Ok ([55; 56; 0; 0; 1; 1], 3) /\
  athvsnprintf (replicate 6 1) 4 (cstr "%s") [VStr (cstr "abc")] = Ok ([97; 98; 0; 1; 1; 1], 2).
Proof.
  destruct (athvsnprintf_edges (chars "abc") (replicate 6 1) 789) as (H1 & H2 & _).
  split; [apply H1; simpl; lia|].
  apply (proj1 (H2 ltac:(repeat constructor) ltac:(simpl; lia) ltac:(simpl; lia))).
  discriminate.
Defined.
