(* ===== verification/Doprnt.v ===== *)
(** * The kernel's printf: [libc/doprnt.c], [libc/sprintf.c]

    [_doprnt] gives the characters of its output one by one to a function of
    the caller, which cannot influence it: here it yields them as a list.
    [DOPRNT_FLOATS] is not defined, so the floating-point conversions are not
    there.  The variable arguments are a typed list of what i386 passes: one
    word, two words or a pointer to a string; taking one of another type than
    the caller passed is undefined in C and faults. *)

From S2P Require Import Prelude CLib.
Open Scope Z_scope.

Inductive argument :=
  | Word (n : Z)           (* int, long and their unsigned types *)
  | DWord (n : Z)          (* long long and unsigned long long *)
  | Ptr (s : option text). (* char *; [None] is NULL *)

Definition va_int (l : list argument) : cres (Z * list argument) :=
  match l with Word n :: l' => Ok (i32 n, l') | _ => Fault OutOfBounds end.
Definition va_long_long (l : list argument) : cres (Z * list argument) :=
  match l with DWord n :: l' => Ok (i64 n, l') | _ => Fault OutOfBounds end.
Definition va_ptr (l : list argument) : cres (option text * list argument) :=
  match l with Ptr s :: l' => Ok (s, l') | _ => Fault OutOfBounds end.

(** ** Conversion specifications *)

Record spec := {
  altfmt : bool; ladjust : bool; plus_sign : Z; padc : Z; length_ : Z; prec : Z;
  is_longlong : bool
}.
#[export] Instance eta_spec : Eta spec := fun r =>
  Build_spec (altfmt r) (ladjust r) (plus_sign r) (padc r) (length_ r) (prec r) (is_longlong r).

Definition spec0 : spec :=
  {| altfmt := false; ladjust := false; plus_sign := 0; padc := SP; length_ := 0; prec := -1;
     is_longlong := false |}.

Definition isdigit (d : Z) : bool := (ch "0" <=? d) && (d <=? ch "9").

(** The loop over [#], [-], [+] and blank. *)
Fixpoint flags_loop (fmt : text) (s : spec) : cres (text * spec) :=
  match fmt with
  | [] => Fault OutOfBounds
  | c :: fmt' =>
    if c =? ch "#" then flags_loop fmt' (s <| altfmt := true |>)
    else if c =? ch "-" then flags_loop fmt' (s <| ladjust := true |>)
    else if c =? ch "+" then flags_loop fmt' (s <| plus_sign := ch "+" |>)
    else if c =? ch " " then
      flags_loop fmt' (if plus_sign s =? 0 then s <| plus_sign := ch " " |> else s)
    else Ok (fmt, s)
  end.

(** [while(isdigit( *fmt)) n = 10 * n + Ctod( *fmt++);] *)
Fixpoint number_loop (fmt : text) (n : Z) : cres (text * Z) :=
  match fmt with
  | [] => Fault OutOfBounds
  | c :: fmt' =>
    if isdigit c then n ← int_range (10 * n + (c - ch "0")); number_loop fmt' n
    else Ok (fmt, n)
  end.

Definition zero_flag (fmt : text) (s : spec) : cres (text * spec) :=
  c ← deref fmt;
  if c =? ch "0" then Ok (drop 1 fmt, s <| padc := ch "0" |>) else Ok (fmt, s).

Definition field_width (fmt : text) (s : spec) (args : list argument)
  : cres (text * spec * list argument) :=
  c ← deref fmt;
  if isdigit c then
    r ← number_loop fmt 0; Ok (r.1, s <| length_ := r.2 |>, args)
  else if c =? ch "*" then
    r ← va_int args;
    if r.1 <? 0 then
      n ← int_range (- r.1);
      Ok (drop 1 fmt, s <| ladjust := negb (ladjust s) |> <| length_ := n |>, r.2)
    else Ok (drop 1 fmt, s <| length_ := r.1 |>, r.2)
  else Ok (fmt, s, args).

Definition precision (fmt : text) (s : spec) (args : list argument)
  : cres (text * spec * list argument) :=
  c ← deref fmt;
  if c =? ch "." then
    let fmt := drop 1 fmt in
    c ← deref fmt;
    if isdigit c then
      r ← number_loop fmt 0; Ok (r.1, s <| prec := r.2 |>, args)
    else if c =? ch "*" then
      r ← va_int args; Ok (drop 1 fmt, s <| prec := r.1 |>, r.2)
    else Ok (fmt, s, args)
  else Ok (fmt, s, args).

Definition length_modifier (fmt : text) (s : spec) : cres (text * spec) :=
  c ← deref fmt;
  if c =? ch "l" then
    let fmt := drop 1 fmt in
    c ← deref fmt;
    if c =? ch "l" then Ok (drop 1 fmt, s <| is_longlong := true |>) else Ok (fmt, s)
  else Ok (fmt, s).

(** ** Numbers *)

Definition digits_ : text := cstr "0123456789abcdef".
Definition MAXBUF : nat := 64.

(** [do { *p-- = digits[u % base]; u /= base; } while(u != 0);] with [room]
    places left in the buffer: the digits in front of [acc]. *)
Fixpoint digit_loop (room : nat) (base u : Z) (acc : text) : cres text :=
  match room with
  | O => Fault OutOfBounds
  | S room' =>
    if base =? 0 then Fault DivideError else
    match digits_ !! Z.to_nat (u mod base) with
    | None => Fault OutOfBounds
    | Some c => if u / base =? 0 then Ok (c :: acc) else digit_loop room' base (u / base) (c :: acc)
    end
  end.

(** [while(--n >= 0) putc(c)], and [n] behind it *)
Definition pad (n c : Z) : text * Z :=
  (replicate (Z.to_nat n) c, if 0 <=? n then -1 else n - 1).

Definition _doprnt_truncates : bool := false.

(** The end of every numeric conversion; [truncate] is set for those in lower
    case. *)
Definition print_num (s : spec) (truncate : bool) (base u sign_char : Z) : cres text :=
  let u := if truncate then u64 (i32 u) else u in
  let prefix := if negb (u =? 0) && altfmt s then
                  if base =? 8 then chars "0" else if base =? 16 then chars "0x" else []
                else [] in
  buf ← digit_loop MAXBUF (u64 base) u [];
  let prec := prec s - Z.of_nat (length buf) in
  let len := length_ s - Z.of_nat (length buf) in
  let len := if sign_char =? 0 then len else len - 1 in
  let len := len - Z.of_nat (length prefix) in
  let len := if 0 <? prec then len - prec else len in
  let '(blanks, len) :=
    if (padc s =? SP) && negb (ladjust s) then pad len SP else ([], len) in
  let sign := if sign_char =? 0 then [] else [swrap 8 sign_char] in
  let zeros := replicate (Z.to_nat prec) (ch "0") in
  let '(fill, len) := if padc s =? ch "0" then pad len (ch "0") else ([], len) in
  let '(trailing, _) := if ladjust s then pad len SP else ([], len) in
  Ok (blanks ++ sign ++ prefix ++ zeros ++ fill ++ buf ++ trailing).

(** [va_arg(args, long)] or [long long]; the negative of the least
    [long long] has no representation. *)
Definition print_signed (s : spec) (truncate : bool) (base : Z) (args : list argument)
  : cres (text * list argument) :=
  r ← (if is_longlong s then va_long_long args else va_int args);
  t ← (if 0 <=? r.1 then print_num s truncate base r.1 (plus_sign s)
       else if r.1 =? - 2 ^ 63 then Fault Overflow
       else print_num s truncate base (- r.1) (ch "-"));
  Ok (t, r.2).

Definition print_unsigned (s : spec) (truncate : bool) (base : Z) (args : list argument)
  : cres (text * list argument) :=
  r ← (if is_longlong s then va_long_long args else va_int args);
  let u := if is_longlong s then u64 r.1 else u32 r.1 in
  t ← print_num s truncate base u 0;
  Ok (t, r.2).

(** ** Strings *)

(** [for(; *p != '\0' && n < prec; p++) n++;] *)
Fixpoint count_chars (p : text) (prec n : Z) : cres Z :=
  match p with
  | [] => Fault OutOfBounds
  | c :: p' => if c =? 0 then Ok n else if prec <=? n then Ok n else count_chars p' prec (n + 1)
  end.

(** [while( *p) { if(++n > prec) break; putc( *p++); }]: the characters, and
    [n] behind the loop *)
Fixpoint put_chars (p : text) (prec n : Z) : cres (text * Z) :=
  match p with
  | [] => Fault OutOfBounds
  | c :: p' =>
    if c =? 0 then Ok ([], n)
    else if prec <? n + 1 then Ok ([], n + 1)
    else r ← put_chars p' prec (n + 1); Ok (c :: r.1, r.2)
  end.

Definition print_string (s : spec) (args : list argument) : cres (text * list argument) :=
  let prec := if prec s =? -1 then 0x7fffffff else prec s in
  r ← va_ptr args;
  let p := default (cstr "") r.1 in
  leading ← (if (0 <? length_ s) && negb (ladjust s) then
               n ← count_chars p prec 0; Ok (replicate (Z.to_nat (length_ s - n)) SP)
             else Ok []);
  t ← put_chars p prec 0;
  let trailing := if (t.2 <? length_ s) && ladjust s
                  then replicate (Z.to_nat (length_ s - t.2)) SP else [] in
  Ok (leading ++ t.1 ++ trailing, r.2).

Definition print_char (args : list argument) : cres (text * list argument) :=
  r ← va_int args; Ok ([swrap 8 r.1], r.2).

(** [printnum] is defined in the old style, so that its call passes [u], an
    [unsigned long long], in the places of its parameters [u] and [base]: the
    value is divided by its own upper half, and the characters go to the
    function at the address [base]. *)
Definition print_bits (s : spec) (args : list argument) : cres (text * list argument) :=
  r ← (if is_longlong s then va_long_long args else va_int args);
  let u := if is_longlong s then u64 r.1 else u32 r.1 in
  p ← va_ptr r.2;
  base ← (match p.1 with Some p => deref p | None => Fault OutOfBounds end);
  if u / 2 ^ 32 =? 0 then Fault DivideError else Fault OutOfBounds.

(** ** The switch *)

Definition one_of (c : Z) (l : text) : bool := existsb (Z.eqb c) l.

Definition switch_ (radix c : Z) (s : spec) (args : list argument)
  : cres (text * list argument) :=
  if one_of c (chars "bB") then print_bits s args
  else if c =? ch "c" then print_char args
  else if c =? ch "s" then print_string s args
  else if one_of c (chars "oO") then
    print_unsigned s (if c =? ch "o" then _doprnt_truncates else false) 8 args
  else if one_of c (chars "diD") then
    print_signed s (if c =? ch "D" then false else _doprnt_truncates) 10 args
  else if one_of c (chars "uU") then
    print_unsigned s (if c =? ch "u" then _doprnt_truncates else false) 10 args
  else if c =? ch "p" then
    r ← print_unsigned (s <| padc := ch "0" |> <| length_ := 8 |>) _doprnt_truncates 16 args;
    Ok (chars "0x" ++ r.1, r.2)
  else if one_of c (chars "xX") then
    print_unsigned s (if c =? ch "x" then _doprnt_truncates else false) 16 args
  else if one_of c (chars "zZ") then
    print_signed s (if c =? ch "z" then _doprnt_truncates else false) 16 args
  else if one_of c (chars "rR") then
    print_signed s (if c =? ch "r" then _doprnt_truncates else false) radix args
  else if one_of c (chars "nN") then
    print_unsigned s (if c =? ch "n" then _doprnt_truncates else false) radix args
  else Ok ([c], args).

(** What follows a percent sign; a format that ends in the conversion ends
    the loop. *)
Definition conversion (radix : Z) (fmt : text) (args : list argument)
  : cres (text * text * list argument) :=
  r ← flags_loop fmt spec0;
  r ← zero_flag r.1 r.2;
  r ← field_width r.1 r.2 args;
  r ← precision r.1.1 r.1.2 r.2;
  let args := r.2 in
  r ← length_modifier r.1.1 r.1.2;
  c ← deref r.1;
  if c =? 0 then Ok ([], r.1, args) else
  o ← switch_ radix c r.2 args;
  Ok (o.1, drop 1 r.1, o.2).

Fixpoint doprnt_loop (fuel : nat) (radix : Z) (fmt : text) (args : list argument) : cres text :=
  match fuel with
  | O => Fault OutOfFuel
  | S fuel' =>
    c ← deref fmt;
    if c =? 0 then Ok []
    else if negb (c =? ch "%") then
      t ← doprnt_loop fuel' radix (drop 1 fmt) args; Ok (c :: t)
    else
      r ← conversion radix (drop 1 fmt) args;
      t ← doprnt_loop fuel' radix r.1.2 r.2; Ok (r.1.1 ++ t)
  end.

Definition _doprnt (fmt : text) (args : list argument) (radix : Z) : cres text :=
  doprnt_loop (S (length fmt)) radix fmt args.

(** ** [sprintf.c] *)

(** [sp_target] is the object that [buf] points into, from its beginning; [buf]
    is always [len] characters behind that. *)
Record sprintf_state := { sp_target : list Z; len : Z; max : Z }.

Definition SPRINTF_UNLIMITED : Z := u32 (-1).

Definition savechar (s : sprintf_state) (c : Z) : cres sprintf_state :=
  if negb (max s =? SPRINTF_UNLIMITED) && (len s =? max s) then Ok s
  else if decide (Z.to_nat (len s) < length (sp_target s))%nat then
    Ok {| sp_target := <[Z.to_nat (len s) := c]> (sp_target s); len := u32 (len s + 1); max := max s |}
  else Fault OutOfBounds.

Fixpoint savechars (s : sprintf_state) (l : text) : cres sprintf_state :=
  match l with [] => Ok s | c :: l' => s ← savechar s c; savechars s l' end.

(** The object after the call, and the result. *)
Definition vsprintf_max (max : Z) (target : list Z) (fmt : text) (args : list argument)
  : cres (list Z * Z) :=
  out ← _doprnt fmt args 0;
  s ← savechars {| sp_target := target; len := 0; max := max |} out;
  if decide (Z.to_nat (len s) < length target)%nat then
    Ok (<[Z.to_nat (len s) := 0]> (sp_target s), i32 (len s))
  else Fault OutOfBounds.

Definition vsprintf (s : list Z) := vsprintf_max SPRINTF_UNLIMITED s.
Definition vsnprintf (s : list Z) (size : Z) := vsprintf_max (u32 size) s.
