(* ===== verification/DoprntSpec.v ===== *)
(** * What the kernel's printf prints

    [_doprnt] against a reference: a format is a list of directives, each with
    its argument, whose text is given by a few equations; and the bounds of the
    functions that print to a buffer. *)

From S2P Require Import Prelude CLib Doprnt.
Open Scope Z_scope.

(** ** Digits *)

Lemma digit_at d : 0 <= d < 16 -> digits_ !! Z.to_nat d = Some (digit_char false d).
Proof.
  intros Hd. assert (Z.to_nat d < 16)%nat as Hn by lia. rewrite <- (Z2Nat.id d) at 2 by lia.
  revert Hn. generalize (Z.to_nat d) as n. intros n Hn.
  do 16 (destruct n as [|n]; [by vm_compute|]). lia.
Qed.

Lemma digit_loop_render room fuel base u acc :
  2 <= base <= 16 -> 0 <= u < 2 ^ Z.of_nat room -> u < 2 ^ Z.of_nat fuel -> (0 < room)%nat ->
  (0 < fuel)%nat -> digit_loop room base u acc = Ok (render fuel false base u [] ++ acc).
Proof.
  intros Hb. revert fuel u acc. induction room as [|room IH]; intros fuel u acc Hu Hf Hr Hp; [lia|].
  destruct fuel as [|fuel]; [lia|]. cbn [digit_loop render].
  rewrite (proj2 (Z.eqb_neq base 0)) by lia.
  pose proof (Z.mod_pos_bound u base ltac:(lia)). rewrite digit_at by lia.
  destruct (Z.eqb_spec (u / base) 0) as [|Hz]; [done|].
  rewrite Nat2Z.inj_succ, Z.pow_succ_r in Hu, Hf by lia.
  assert (0 <= u / base) by (apply Z.div_pos; lia).
  assert (forall x, u < 2 * x -> u / base < x) as Hdiv.
  { intros x Hx. apply Z.div_lt_upper_bound; [lia|]. nia. }
  assert (0 < u / base) as Hpos by lia.
  assert (forall n : nat, u / base < 2 ^ Z.of_nat n -> (0 < n)%nat) as Hn
    by (intros [|n] Hx; [cbn in Hx|]; lia).
  rewrite (IH fuel); [|split; [lia|apply Hdiv; lia]|apply Hdiv; lia|apply Hn, Hdiv; lia|apply Hn, Hdiv; lia].
  rewrite (render_app fuel _ _ _ [_]), <- app_assoc. done.
Qed.

Lemma digit_loop_digits base u : 2 <= base <= 16 -> 0 <= u < 2 ^ 64 ->
  digit_loop MAXBUF base u [] = Ok (digits false base u).
Proof.
  intros Hb Hu. rewrite (digit_loop_render MAXBUF (S (Z.to_nat (Z.log2 u))));
    [by rewrite app_nil_r|done|exact Hu|apply log2_fuel; lia|unfold MAXBUF; lia|lia].
Qed.

(** ** Fields *)

(** The text of a number. *)
Definition number_text (s : spec) (base u sign : Z) : text :=
  let d := digits false base u in
  let prefix := if negb (u =? 0) && altfmt s then
      if base =? 8 then chars "0" else if base =? 16 then chars "0x" else [] else [] in
  let front := (if sign =? 0 then [] else [sign]) ++ prefix in
  let zeros := replicate (Z.to_nat (prec s) - length d)%nat (ch "0") in
  let fill := (Z.to_nat (length_ s) - length (front ++ zeros ++ d))%nat in
  if padc s =? ch "0" then front ++ zeros ++ replicate fill (ch "0") ++ d
  else if ladjust s then front ++ zeros ++ d ++ replicate fill SP
  else replicate fill SP ++ front ++ zeros ++ d.

Lemma pad_off n c : snd (pad n c) < 0.
Proof. unfold pad. cbn. destruct (Z.leb_spec 0 n); lia. Qed.

Lemma pad_nothing n c : n < 0 -> fst (pad n c) = [].
Proof. intros Hn. unfold pad. cbn. by rewrite Z2Nat.nonpos by lia. Qed.

Lemma print_num_text s base u sign :
  2 <= base <= 16 -> 0 <= u < 2 ^ 64 -> - 128 <= sign < 128 -> padc s = SP \/ padc s = ch "0" ->
  print_num s false base u sign = Ok (number_text s base u sign).
Proof.
  intros Hb Hu Hs Hpad. unfold print_num. cbv zeta. rewrite wrap_small by lia.
  rewrite digit_loop_digits by done. cbn [mbind cres_bind].
  set (d := digits false base u). unfold number_text. fold d.
  set (prefix := if negb (u =? 0) && altfmt s then _ else _). clearbody prefix d.
  set (pr := prec s - Z.of_nat (length d)).
  replace (Z.to_nat (prec s) - length d)%nat with (Z.to_nat pr) by (unfold pr; lia).
  set (signs := if sign =? 0 then [] else [sign]).
  assert ((if sign =? 0 then [] else [swrap 8 sign]) = signs) as ->
    by (unfold signs; destruct (sign =? 0); [done|by rewrite swrap_small by lia]).
  set (len0 := if 0 <? pr then _ else _).
  replace (Z.to_nat (length_ s) - length ((signs ++ prefix) ++ replicate (Z.to_nat pr) (ch "0") ++ d))%nat
    with (Z.to_nat len0).
  2:{ rewrite !length_app, length_replicate. unfold len0, signs.
      destruct (sign =? 0), (Z.ltb_spec 0 pr); cbn [length]; lia. }
  destruct Hpad as [-> | ->].
  - change (SP =? SP) with true. change (SP =? ch "0") with false. cbn [andb].
    destruct (ladjust s); cbn [negb].
    + unfold pad. cbn [app]. by rewrite <- !app_assoc.
    + unfold pad. cbn [app]. by rewrite !app_nil_r, <- !app_assoc.
  - change (ch "0" =? SP) with false. change (ch "0" =? ch "0") with true. cbn [andb].
    unfold pad at 1. destruct (ladjust s).
    + rewrite (surjective_pairing (pad (if 0 <=? len0 then -1 else len0 - 1) SP)), pad_nothing.
      * by rewrite app_nil_r, <- !app_assoc.
      * destruct (Z.leb_spec 0 len0); lia.
    + by rewrite app_nil_r, <- !app_assoc.
Qed.

(** ** Reading a specification *)

Inductive flag := Alternate | Left | Plus | Blank.

Definition flag_char (f : flag) : Z :=
  match f with Alternate => ch "#" | Left => ch "-" | Plus => ch "+" | Blank => ch " " end.

Definition set_flag (s : spec) (f : flag) : spec :=
  match f with
  | Alternate => s <| altfmt := true |>
  | Left => s <| ladjust := true |>
  | Plus => s <| plus_sign := ch "+" |>
  | Blank => if plus_sign s =? 0 then s <| plus_sign := ch " " |> else s
  end.

(** What stands between the percent sign and the letter; a width of 0 is none. *)
Record field := { flags : list flag; zero : bool; width : Z; precision_ : option Z; long_long : bool }.

Definition show_field (f : field) : text :=
  (flag_char <$> flags f) ++ (if zero f then chars "0" else []) ++
  (if width f =? 0 then [] else digits false 10 (width f)) ++
  match precision_ f with Some p => ch "." :: digits false 10 p | None => [] end ++
  (if long_long f then chars "ll" else []).

Definition field_spec (f : field) : spec :=
  (foldl set_flag spec0 (flags f)) <| padc := if zero f then ch "0" else SP |>
    <| length_ := width f |> <| prec := default (-1) (precision_ f) |> <| is_longlong := long_long f |>.

(** Leading zeros are asked for only where C gives them a meaning: without left
    adjustment and without a precision. *)
Definition field_ok (f : field) : bool :=
  (0 <=? width f) && (width f <? 2 ^ 31) &&
  match precision_ f with
  | Some p => (0 <=? p) && (p <? 2 ^ 31) && negb (zero f)
  | None => negb (zero f && ladjust (field_spec f))
  end.

(** Letters that end a specification. *)
Definition ends (c : Z) : bool :=
  negb (one_of c (chars "#-+ 0*.l")) && negb (isdigit c) && negb (c =? 0).

Lemma isdigit_digit c : isdigit c = is_digit 10 c.
Proof.
  unfold isdigit, is_digit, digit_value. change (ch "0") with 48. change (ch "9") with 57.
  repeat (case_match; simplify_eq; try lia).
Qed.

Lemma digit_value_nonneg c : 0 <= default 0 (digit_value c).
Proof.
  unfold digit_value. repeat (case_match; [cbn; lia|]). done.
Qed.

Lemma decimal_value c : is_digit 10 c = true -> c - ch "0" = default 0 (digit_value c).
Proof.
  unfold is_digit, digit_value. change (ch "0") with 48.
  repeat (case_match; [cbn; try lia|]; simplify_eq); try done; cbn in *; lia.
Qed.

Lemma digits_value_grows base d v :
  1 <= base -> Forall (fun c => is_digit base c = true) d -> 0 <= v -> v <= digits_value base d v.
Proof.
  intros Hb Hd. revert v. induction Hd as [|c d Hc Hd IH]; intros v Hv; [done|].
  unfold digits_value in *. cbn [foldl]. unfold is_digit in Hc.
  pose proof (digit_value_nonneg c).
  transitivity (v * base + default 0 (digit_value c)); [nia|]. apply IH. nia.
Qed.

Lemma number_loop_digits d c t v :
  Forall (fun c => is_digit 10 c = true) d -> 0 <= v -> digits_value 10 d v < 2 ^ 31 ->
  isdigit c = false -> number_loop (d ++ c :: t) v = Ok (c :: t, digits_value 10 d v).
Proof.
  intros Hd. revert v. induction Hd as [|x d Hx Hd IH]; intros v Hv Hlim Hc; cbn [number_loop app].
  - by rewrite Hc.
  - rewrite isdigit_digit, Hx. assert (x - ch "0" = default 0 (digit_value x) /\ 0 <= x - ch "0") as [Hval Hx0].
    { rewrite decimal_value by done. split; [done|apply digit_value_nonneg]. }
    assert (digits_value 10 (x :: d) v = digits_value 10 d (10 * v + (x - ch "0"))) as Heq.
    { unfold digits_value. cbn [foldl]. rewrite <- Hval. f_equal. lia. }
    rewrite Heq in *. pose proof (digits_value_grows 10 d (10 * v + (x - ch "0")) ltac:(lia) Hd ltac:(lia)).
    rewrite int_range_ok by lia.
    cbn [andb mbind cres_bind]. by apply IH; [lia| |].
Qed.

Lemma render_head fuel base n : 2 <= base <= 16 -> 0 < n -> n < 2 ^ Z.of_nat fuel ->
  exists c t, render fuel false base n [] = c :: t /\ c <> ch "0" /\ is_digit base c = true.
Proof.
  intros Hb. revert n. induction fuel as [|fuel IH]; intros n Hn Hf; [cbn in Hf; lia|].
  cbn [render]. pose proof (Z.mod_pos_bound n base ltac:(lia)). pose proof (Z.div_mod n base ltac:(lia)).
  destruct (Z.eqb_spec (n / base) 0) as [Hz|Hz].
  - exists (digit_char false (n mod base)), []. split; [done|]. split.
    + unfold digit_char. change (ch "0") with 48. destruct (Z.ltb_spec (n mod base) 10); lia.
    + unfold is_digit. rewrite digit_char_value by lia. apply Z.ltb_lt. lia.
  - rewrite Nat2Z.inj_succ, Z.pow_succ_r in Hf by lia.
    assert (0 <= n / base) by (apply Z.div_pos; lia).
    assert (n / base < 2 ^ Z.of_nat fuel) by (apply Z.div_lt_upper_bound; [lia|nia]).
    destruct (IH (n / base) ltac:(lia) ltac:(lia)) as (c & t & Hc & Hc0 & Hcd).
    rewrite render_app, Hc. by exists c, (t ++ [digit_char false (n mod base)]).
Qed.

Lemma digits_head base n : 2 <= base <= 16 -> 0 < n ->
  exists c t, digits false base n = c :: t /\ c <> ch "0" /\ is_digit base c = true.
Proof. intros Hb Hn. apply render_head; [done|done|apply log2_fuel; lia]. Qed.

(** ** Directives *)

Lemma one_of_false c l : one_of c l = false <-> Forall (fun x => c <> x) l.
Proof.
  unfold one_of. induction l as [|x l IH]; cbn; [by split|].
  rewrite orb_false_iff, IH, Forall_cons, Z.eqb_neq. done.
Qed.

Lemma flags_loop_show fl c t s :
  negb (one_of c (chars "#-+ ")) = true ->
  flags_loop ((flag_char <$> fl) ++ c :: t) s = Ok (c :: t, foldl set_flag s fl).
Proof.
  intros Hc. apply negb_true_iff, one_of_false in Hc. revert s.
  induction fl as [|f fl IH]; intros s; cbn [fmap list_fmap app flags_loop foldl].
  - repeat (apply Forall_cons in Hc as [? Hc]; rewrite (proj2 (Z.eqb_neq c _)) by done). done.
  - destruct f; apply IH.
Qed.

Definition width_text (f : field) : text :=
  if width f =? 0 then [] else digits false 10 (width f).
Definition precision_text (f : field) : text :=
  match precision_ f with Some p => ch "." :: digits false 10 p | None => [] end.
Definition length_text (f : field) : text := if long_long f then chars "ll" else [].

Lemma precision_show f c t s args :
  ends c = true -> field_ok f = true ->
  precision (precision_text f ++ length_text f ++ c :: t) s args =
    Ok (length_text f ++ c :: t,
        match precision_ f with Some p => s <| prec := p |> | None => s end, args).
Proof.
  intros Hc Hf. unfold ends in Hc. apply andb_prop in Hc as [[Hc Hd]%andb_prop _].
  apply negb_true_iff, one_of_false in Hc. apply negb_true_iff in Hd.
  do 6 (apply Forall_cons in Hc as [? Hc]). apply Forall_cons in Hc as [Hdot Hc].
  unfold precision, precision_text. unfold field_ok in Hf. apply andb_prop in Hf as [_ Hf].
  destruct (precision_ f) as [p|].
  - cbn [app deref mbind cres_bind]. change (ch "." =? ch ".") with true. cbv iota zeta. cbn [drop].
    rewrite !drop_0.
    assert (exists x y, length_text f ++ c :: t = x :: y /\ isdigit x = false) as (x & y & Hxy & Hx).
    { unfold length_text. destruct (long_long f); [by exists (ch "l"), (ch "l" :: c :: t)|by exists c, t]. }
    destruct (digits false 10 p) as [|z r] eqn:Hz; [by destruct (digits_nonempty false 10 p)|].
    rewrite <- Hz.
    pose proof (digits_all false 10 ltac:(lia) p ltac:(lia)) as Hall. pose proof Hall as Hall'.
    rewrite Hz in Hall'. apply Forall_cons in Hall' as [Hz' _].
    rewrite Hz at 1. cbn [app deref mbind cres_bind]. rewrite isdigit_digit, Hz'.
    rewrite Hxy, number_loop_digits; [|done|lia| |done].
    + cbn [mbind cres_bind fst snd]. rewrite digits_value_eq by lia. done.
    + rewrite digits_value_eq; lia.
  - cbn [app]. unfold length_text. destruct (long_long f); cbn [app deref mbind cres_bind chars]; [done|].
    by rewrite (proj2 (Z.eqb_neq c _)).
Qed.

(** The first character behind a width. *)
Lemma after_width f c t : ends c = true ->
  exists x y, precision_text f ++ length_text f ++ c :: t = x :: y /\ isdigit x = false /\
    x <> ch "0" /\ x <> ch "*" /\ negb (one_of x (chars "#-+ ")) = true.
Proof.
  intros Hc. unfold precision_text. destruct (precision_ f) as [p|].
  { cbn [app]. do 2 eexists. split; [reflexivity|]. by split_and!. }
  unfold length_text. destruct (long_long f); cbn [app].
  { exists (ch "l"), (ch "l" :: c :: t). by split_and!. }
  exists c, t. split; [done|]. unfold ends in Hc. apply andb_prop in Hc as [[Hc Hd]%andb_prop _].
  apply negb_true_iff in Hc, Hd. apply one_of_false in Hc. split; [done|].
  repeat (apply Forall_cons in Hc as [? Hc]). split; [done|]. split; [done|].
  apply negb_true_iff, one_of_false. by repeat constructor.
Qed.

Lemma width_show f x y s args :
  field_ok f = true -> isdigit x = false -> x <> ch "*" ->
  field_width (width_text f ++ x :: y) s args =
    Ok (x :: y, if width f =? 0 then s else s <| length_ := width f |>, args).
Proof.
  intros Hf Hx Hstar. unfold field_ok in Hf. apply andb_prop in Hf as [[H0 H1]%andb_prop _].
  unfold field_width, width_text. destruct (Z.eqb_spec (width f) 0) as [Hz|Hz].
  - cbn [app deref mbind cres_bind]. by rewrite Hx, (proj2 (Z.eqb_neq x _)).
  - destruct (digits_head 10 (width f) ltac:(lia) ltac:(lia)) as (c & t & Hct & _ & Hc).
    rewrite Hct at 1. cbn [app deref mbind cres_bind]. rewrite isdigit_digit, Hc.
    rewrite number_loop_digits; [|by apply digits_all; lia|lia| |done].
    + cbn [mbind cres_bind fst snd]. by rewrite digits_value_eq by lia.
    + rewrite digits_value_eq; lia.
Qed.

Lemma zero_show f x y s : field_ok f = true -> x <> ch "0" ->
  zero_flag ((if zero f then chars "0" else []) ++ width_text f ++ x :: y) s =
    Ok (width_text f ++ x :: y, if zero f then s <| padc := ch "0" |> else s).
Proof.
  intros Hf Hx. unfold field_ok in Hf. apply andb_prop in Hf as [[H0 H1]%andb_prop _].
  unfold zero_flag. destruct (zero f); [done|]. cbn [app]. unfold width_text.
  destruct (Z.eqb_spec (width f) 0) as [Hz|Hz]; cbn [app].
  - cbn [deref mbind cres_bind]. by rewrite (proj2 (Z.eqb_neq x _)).
  - destruct (digits_head 10 (width f) ltac:(lia) ltac:(lia)) as (c & t & -> & Hc & _).
    cbn [app deref mbind cres_bind]. by rewrite (proj2 (Z.eqb_neq c _)).
Qed.

Lemma before_width f x y : field_ok f = true -> negb (one_of x (chars "#-+ ")) = true ->
  exists c t, (if zero f then chars "0" else []) ++ width_text f ++ x :: y = c :: t /\
    negb (one_of c (chars "#-+ ")) = true.
Proof.
  intros Hf Hx. unfold field_ok in Hf. apply andb_prop in Hf as [[H0 H1]%andb_prop _].
  destruct (zero f); [by do 2 eexists|]. unfold width_text.
  destruct (Z.eqb_spec (width f) 0) as [Hz|Hz]; [by exists x, y|].
  destruct (digits_head 10 (width f) ltac:(lia) ltac:(lia)) as (c & t & -> & _ & Hc).
  exists c, (t ++ x :: y). split; [done|]. apply negb_true_iff, one_of_false.
  rewrite <- isdigit_digit in Hc. repeat constructor; intros ->; discriminate Hc.
Qed.

Lemma flags_fields fl s : let s' := foldl set_flag s fl in
  padc s' = padc s /\ length_ s' = length_ s /\ prec s' = prec s /\ is_longlong s' = is_longlong s.
Proof.
  revert s. induction fl as [|f fl IH]; intros s; [done|]. cbn [foldl]. cbv zeta.
  destruct (IH (set_flag s f)) as (-> & -> & -> & ->). destruct f; try done. cbn.
  by destruct (plus_sign s =? 0).
Qed.

(** The specification that has been read when the letter is reached. *)
Lemma conversion_show radix f c t args :
  field_ok f = true -> ends c = true ->
  conversion radix (show_field f ++ c :: t) args =
    (o ← switch_ radix c (field_spec f) args; Ok (o.1, t, o.2)).
Proof.
  intros Hf Hc. unfold conversion, show_field.
  change (if width f =? 0 then [] else digits false 10 (width f)) with (width_text f).
  change (match precision_ f with Some p => ch "." :: digits false 10 p | None => [] end)
    with (precision_text f).
  change (if long_long f then chars "ll" else []) with (length_text f). rewrite <- !app_assoc.
  destruct (after_width f c t Hc) as (x & y & Hxy & Hd & Hx0 & Hxs & Hxf).
  destruct (before_width f x y Hf Hxf) as (x1 & y1 & Hxy1 & Hx1).
  rewrite Hxy, Hxy1, flags_loop_show by done. rewrite <- Hxy1. cbn [mbind cres_bind fst snd].
  rewrite zero_show by done. cbn [mbind cres_bind fst snd].
  rewrite width_show by done. cbn [mbind cres_bind fst snd]. rewrite <- Hxy.
  rewrite precision_show by done. cbn [mbind cres_bind fst snd].
  set (s := match precision_ f with Some p => _ | None => _ end).
  assert (length_modifier (length_text f ++ c :: t) s = Ok (c :: t, field_spec f)) as ->.
  2:{ cbn [mbind cres_bind fst snd deref drop]. unfold ends in Hc. apply andb_prop in Hc as [_ Hc].
      apply negb_true_iff in Hc. by rewrite Hc. }
  assert (s <| is_longlong := long_long f |> = field_spec f) as <-.
  { unfold s, field_spec. destruct (flags_fields (flags f) spec0) as (Hp & Hl & Hpr & _).
    destruct (foldl set_flag spec0 (flags f)) as [al lj ps pc le pr ll]. unfold upd; cbn in *. subst.
    destruct (precision_ f), (zero f), (Z.eqb_spec (width f) 0) as [->|]; done. }
  unfold length_modifier, length_text. destruct (long_long f); [done|]. cbn [app deref mbind cres_bind].
  unfold ends in Hc. apply andb_prop in Hc as [[Hc _]%andb_prop _]. apply negb_true_iff, one_of_false in Hc.
  do 7 (apply Forall_cons in Hc as [? Hc]). apply Forall_cons in Hc as [Hl _].
  rewrite (proj2 (Z.eqb_neq c _)) by done. do 2 f_equal.
  unfold s. destruct (flags_fields (flags f) spec0) as (_ & _ & _ & Hll).
  destruct (foldl set_flag spec0 (flags f)) as [al lj ps pc le pr ll]. unfold upd; cbn in *. subst.
  by destruct (precision_ f), (zero f), (width f =? 0).
Qed.

(** A directive with its argument.  Left out is what the code does differently
    from its description or from C (below): capital digits, filling on the
    right behind a string that was cut, and the width of a character. *)
Inductive directive :=
  | Literal (c : Z)
  | Percent
  | Signed (f : field) (n : Z)                         (* %d *)
  | Unsigned (f : field) (letter : Z) (n : Z)          (* %u, %o, %x *)
  | Chars (f : field) (s : text)                       (* %s *)
  | Character (f : field) (c : Z).                     (* %c *)

Definition base_of (letter : Z) : Z :=
  if letter =? ch "o" then 8 else if letter =? ch "u" then 10 else 16.

Definition directive_ok (d : directive) : bool :=
  match d with
  | Literal c => negb (c =? 0) && negb (c =? ch "%")
  | Percent => true
  | Signed f n => field_ok f &&
      (if long_long f then (- 2 ^ 63 <? n) && (n <? 2 ^ 63) else (- 2 ^ 31 <=? n) && (n <? 2 ^ 31))
  | Unsigned f letter n => field_ok f && one_of letter (chars "uox") &&
      (if long_long f then (0 <=? n) && (n <? 2 ^ 64) else (0 <=? n) && (n <? 2 ^ 32))
  | Chars f s => field_ok f && terminated s && (Z.of_nat (length (body s)) <? 2 ^ 31) &&
      match precision_ f with
      | Some p => negb (ladjust (field_spec f)) || (Z.of_nat (length (body s)) <=? p) || (width f <=? p)
      | None => true
      end
  | Character f c => field_ok f && (width f =? 0) && (- 128 <=? c) && (c <? 128)
  end.

Definition show (d : directive) : text :=
  match d with
  | Literal c => [c]
  | Percent => chars "%%"
  | Signed f _ => ch "%" :: show_field f ++ chars "d"
  | Unsigned f letter _ => ch "%" :: show_field f ++ [letter]
  | Chars f _ => ch "%" :: show_field f ++ chars "s"
  | Character f _ => ch "%" :: show_field f ++ chars "c"
  end.

Definition arguments (d : directive) : list argument :=
  match d with
  | Literal _ | Percent => []
  | Signed f n | Unsigned f _ n => [if long_long f then DWord n else Word n]
  | Chars _ s => [Ptr (Some s)]
  | Character _ c => [Word c]
  end.

(** The text of a string: at most [prec] characters, filled up to the width *)
Definition string_text (f : field) (s : text) : text :=
  let b := body s in
  let shown := match precision_ f with Some p => take (Z.to_nat p) b | None => b end in
  let room := (Z.to_nat (width f) - length shown)%nat in
  if ladjust (field_spec f) then shown ++ replicate room SP else replicate room SP ++ shown.

Definition meaning (d : directive) : text :=
  match d with
  | Literal c => [c]
  | Percent => chars "%"
  | Signed f n =>
      number_text (field_spec f) 10 (Z.abs n) (if n <? 0 then ch "-" else plus_sign (field_spec f))
  | Unsigned f letter n => number_text (field_spec f) (base_of letter) n 0
  | Chars f s => string_text f s
  | Character _ c => [c]
  end.

Lemma sign_range f : - 128 <= plus_sign (field_spec f) < 128 /\
  (padc (field_spec f) = SP \/ padc (field_spec f) = ch "0").
Proof.
  split; [|unfold field_spec; cbn; destruct (zero f); by (right + left)].
  unfold field_spec. cbn. assert (forall s, - 128 <= plus_sign s < 128 ->
    - 128 <= plus_sign (foldl set_flag s (flags f)) < 128) as H; [|by apply H].
  induction (flags f) as [|x l IH]; intros s Hs; [done|]. cbn [foldl]. apply IH.
  destruct x; cbn; try done. by destruct (plus_sign s =? 0).
Qed.

Lemma signed_text f n args : directive_ok (Signed f n) = true ->
  switch_ 0 (ch "d") (field_spec f) (arguments (Signed f n) ++ args) = Ok (meaning (Signed f n), args).
Proof.
  cbn [directive_ok arguments app meaning]. intros [Hf Hn]%andb_prop.
  destruct (sign_range f) as [Hs Hp].
  change (switch_ 0 (ch "d") (field_spec f)) with (print_signed (field_spec f) false 10).
  unfold print_signed. change (is_longlong (field_spec f)) with (long_long f).
  assert (exists args', (if long_long f then va_long_long args' else va_int args') = Ok (n, args) /\
    args' = (if long_long f then DWord n else Word n) :: args) as (args' & Hr & <-).
  { eexists. split; [|reflexivity]. destruct (long_long f); cbn; by rewrite swrap_small by lia. }
  rewrite Hr. cbn [mbind cres_bind fst snd]. assert (- 2 ^ 63 < n < 2 ^ 63) by (destruct (long_long f); lia).
  destruct (Z.leb_spec 0 n), (Z.ltb_spec n 0); try lia.
  - rewrite print_num_text by (done || lia). cbn [mbind cres_bind]. by rewrite Z.abs_eq by lia.
  - rewrite (proj2 (Z.eqb_neq n _)) by lia. rewrite print_num_text by (done || lia).
    cbn [mbind cres_bind]. by rewrite Z.abs_neq by lia.
Qed.

Lemma unsigned_text f letter n args : directive_ok (Unsigned f letter n) = true ->
  switch_ 0 letter (field_spec f) (arguments (Unsigned f letter n) ++ args) =
    Ok (meaning (Unsigned f letter n), args).
Proof.
  cbn [directive_ok arguments app meaning]. intros [[Hf Hl]%andb_prop Hn]%andb_prop.
  destruct (sign_range f) as [_ Hp].
  transitivity (print_unsigned (field_spec f) false (base_of letter)
    ((if long_long f then DWord n else Word n) :: args)).
  { unfold one_of in Hl. cbn in Hl. rewrite !orb_true_iff, !Z.eqb_eq in Hl.
    destruct Hl as [->|[->|[->|[=]]]]; reflexivity. }
  unfold print_unsigned. change (is_longlong (field_spec f)) with (long_long f).
  assert (2 <= base_of letter <= 16) by (unfold base_of; repeat case_match; lia).
  destruct (long_long f); cbn [va_long_long va_int mbind cres_bind fst snd].
  - assert (u64 (i64 n) = n) as -> by (unfold swrap, wrap; rewrite Zminus_mod_idemp_l; 
      replace (n + 2 ^ (64 - 1) - 2 ^ (64 - 1)) with n by lia; apply Z.mod_small; lia).
    rewrite print_num_text by (done || lia). done.
  - assert (u32 (i32 n) = n) as -> by (unfold swrap, wrap; rewrite Zminus_mod_idemp_l; 
      replace (n + 2 ^ (32 - 1) - 2 ^ (32 - 1)) with n by lia; apply Z.mod_small; lia).
    rewrite print_num_text by (done || lia). done.
Qed.

Lemma count_chars_run s p n : terminated s = true -> n <= p ->
  count_chars s p n = Ok (Z.min (n + Z.of_nat (length (body s))) p).
Proof.
  revert n. induction s as [|c s IH]; intros n Hs Hn; [done|]. cbn [count_chars body].
  destruct (Z.eqb_spec c 0) as [->|Hc]; [cbn [length]; f_equal; lia|]. cbn [length].
  destruct (Z.leb_spec p n); [f_equal; lia|].
  rewrite IH by (by eapply terminated_tail) || lia. f_equal. lia.
Qed.

Lemma put_chars_run s p n : terminated s = true -> n <= p ->
  put_chars s p n = Ok (take (Z.to_nat (p - n)) (body s),
    if p - n <? Z.of_nat (length (body s)) then p + 1 else n + Z.of_nat (length (body s))).
Proof.
  revert n. induction s as [|c s IH]; intros n Hs Hn; [done|]. cbn [put_chars body].
  destruct (Z.eqb_spec c 0) as [->|Hc].
  { cbn [length]. rewrite take_nil, (proj2 (Z.ltb_ge _ _)) by lia. do 2 f_equal. lia. }
  cbn [length]. destruct (Z.ltb_spec p (n + 1)).
  - replace (p - n) with 0 by lia. rewrite (proj2 (Z.ltb_lt _ _)) by lia. cbn. do 2 f_equal. lia.
  - rewrite IH by (by eapply terminated_tail) || lia. cbn [mbind cres_bind fst snd].
    replace (Z.to_nat (p - n)) with (S (Z.to_nat (p - (n + 1)))) by lia. cbn [take].
    do 2 f_equal. destruct (Z.ltb_spec (p - (n + 1)) (Z.of_nat (length (body s)))),
      (Z.ltb_spec (p - n) (Z.of_nat (S (length (body s))))); lia.
Qed.

Lemma chars_text f s args : directive_ok (Chars f s) = true ->
  switch_ 0 (ch "s") (field_spec f) (arguments (Chars f s) ++ args) = Ok (meaning (Chars f s), args).
Proof.
  cbn [directive_ok arguments app meaning]. intros [[[Hf Hs]%andb_prop Hlen]%andb_prop Hcut]%andb_prop.
  apply Z.ltb_lt in Hlen. unfold field_ok in Hf. apply andb_prop in Hf as [[H0 H1]%andb_prop Hprec].
  change (switch_ 0 (ch "s") (field_spec f)) with (print_string (field_spec f)).
  unfold print_string. change (prec (field_spec f)) with (default (-1) (precision_ f)).
  change (length_ (field_spec f)) with (width f).
  set (p := if default (-1) (precision_ f) =? -1 then 0x7fffffff else default (-1) (precision_ f)).
  set (b := body s) in *. assert (0 <= p) as Hp.
  { unfold p. destruct (precision_ f); cbn; [|done]. by rewrite (proj2 (Z.eqb_neq _ (-1))) by lia; lia. }
  assert (ladjust (field_spec f) = true -> p < Z.of_nat (length b) -> width f <= p) as Hroom.
  { intros Hlj. unfold p. destruct (precision_ f) as [q|]; cbn [default]; [|change (-1 =? -1) with true; cbv iota; lia].
    unfold id. rewrite (proj2 (Z.eqb_neq _ (-1))) by lia. rewrite Hlj in Hcut. subst b. intros Hq.
    rewrite (proj2 (Z.leb_gt _ _)) in Hcut by done. cbn in Hcut. lia. }
  assert (take (Z.to_nat p) b =
    match precision_ f with Some p => take (Z.to_nat p) b | None => b end) as Hshown.
  { unfold p. destruct (precision_ f) as [q|]; cbn [default].
    - unfold id. by rewrite (proj2 (Z.eqb_neq _ (-1))) by lia.
    - change (-1 =? -1) with true. cbv iota. apply take_ge. lia. }
  unfold string_text. fold b. rewrite <- Hshown. cbn [va_ptr mbind cres_bind fst snd default]. unfold id.
  rewrite count_chars_run, put_chars_run by done. fold b. rewrite Z.sub_0_r. cbn [mbind cres_bind fst snd].
  rewrite length_take. set (lj := ladjust (field_spec f)) in *.
  destruct lj; rewrite ?andb_false_r, ?andb_true_r; cbn [negb andb mbind cres_bind fst snd app].
  - do 2 f_equal. f_equal. destruct (Z.ltb_spec p (Z.of_nat (length b))).
    + rewrite (proj2 (Z.ltb_ge (p + 1) (width f))).
      * by replace (Z.to_nat (width f) - Z.to_nat p `min` length b)%nat with 0%nat by lia.
      * lia.
    + destruct (Z.ltb_spec (0 + Z.of_nat (length b)) (width f)).
      * f_equal. lia.
      * by replace (Z.to_nat (width f) - Z.to_nat p `min` length b)%nat with 0%nat by lia.
  - rewrite app_nil_r. destruct (Z.ltb_spec 0 (width f)); cbn [mbind cres_bind app].
    + do 2 f_equal. f_equal. f_equal. lia.
    + by replace (Z.to_nat (width f) - Z.to_nat p `min` length b)%nat with 0%nat by lia.
Qed.

(** ** Whole formats *)

Lemma letters_end : Forall (fun c => ends c = true) (chars "duoxsc%").
Proof. by repeat constructor. Qed.

Lemma conversion_directive f c o args args' t :
  field_ok f = true -> ends c = true -> switch_ 0 c (field_spec f) args = Ok (o, args') ->
  conversion 0 (show_field f ++ c :: t) args = Ok (o, t, args').
Proof. intros Hf Hc Hs. by rewrite conversion_show, Hs. Qed.

(** One directive is taken off the format and its argument off the list. *)
Lemma directive_run d fuel t args : directive_ok d = true ->
  doprnt_loop (S fuel) 0 (show d ++ t) (arguments d ++ args) =
    (r ← doprnt_loop fuel 0 t args; Ok (meaning d ++ r)).
Proof.
  intros Hok. assert (forall f c, field_ok f = true -> ends c = true ->
    switch_ 0 c (field_spec f) (arguments d ++ args) = Ok (meaning d, args) ->
    show d = ch "%" :: show_field f ++ [c] ->
    doprnt_loop (S fuel) 0 (show d ++ t) (arguments d ++ args) =
      (r ← doprnt_loop fuel 0 t args; Ok (meaning d ++ r))) as Hconv.
  { intros f c Hf Hc Hs ->. cbn [doprnt_loop app deref mbind cres_bind]. change (ch "%" =? 0) with false.
    change (ch "%" =? ch "%") with true. cbn [negb drop]. rewrite ?drop_0, <- app_assoc. cbn [app].
    by rewrite (conversion_directive f c (meaning d) _ args). }
  destruct d as [c| |f n|f letter n|f s|f c]; cbn [directive_ok] in Hok.
  - apply andb_prop in Hok as [H0 Hp]. apply negb_true_iff in H0, Hp.
    cbn [doprnt_loop show arguments app deref mbind cres_bind]. by rewrite H0, Hp.
  - apply (Hconv (Build_field [] false 0 None false) (ch "%")); reflexivity.
  - pose proof Hok as [Hf _]%andb_prop. apply (Hconv f (ch "d")); [done|done|by apply signed_text|done].
  - pose proof Hok as [[Hf Hl]%andb_prop _]%andb_prop. apply (Hconv f letter); [done| |by apply unsigned_text|done].
    unfold one_of in Hl. cbn in Hl. rewrite !orb_true_iff, !Z.eqb_eq in Hl.
    by destruct Hl as [->|[->|[->|[=]]]].
  - pose proof Hok as [[[Hf _]%andb_prop _]%andb_prop _]%andb_prop. apply (Hconv f (ch "s")); [done|done|by apply chars_text|done].
  - pose proof Hok as [[[Hf _]%andb_prop H0]%andb_prop H1]%andb_prop. apply (Hconv f (ch "c")); [done|done| |done].
    change (switch_ 0 (ch "c") (field_spec f)) with print_char. cbn [arguments meaning app].
    unfold print_char, va_int. cbn [mbind cres_bind fst snd]. do 3 f_equal.
    rewrite (swrap_small 32), (swrap_small 8) by lia. done.
Qed.

Lemma show_nonempty d : (0 < length (show d))%nat.
Proof. destruct d; cbn; lia. Qed.

Lemma directives_run ds rest args :
  Forall (fun d => directive_ok d = true) ds ->
  _doprnt (concat (show <$> ds) ++ NUL :: rest) (concat (arguments <$> ds) ++ args) 0 =
    Ok (concat (meaning <$> ds)).
Proof.
  unfold _doprnt. intros Hds.
  assert (length ds < S (length (concat (show <$> ds) ++ NUL :: rest)))%nat as Hfuel.
  { rewrite length_app. cbn [length]. assert (length ds <= length (concat (show <$> ds)))%nat; [|lia].
    clear Hds. induction ds as [|d ds IH]; [done|]. cbn. rewrite length_app. pose proof (show_nonempty d). lia. }
  revert Hfuel. generalize (S (length (concat (show <$> ds) ++ NUL :: rest))) as fuel.
  induction Hds as [|d ds Hd Hds IH]; intros [|fuel] Hf; cbn [length] in Hf; try lia; [done|].
  cbn [fmap list_fmap concat]. rewrite <- !app_assoc, directive_run by done.
  by rewrite IH by lia.
Qed.



(** ** What differs

    Both hexadecimal conversions share one table of digits. *)
Lemma capital_digits : _doprnt (cstr "%X") [Word 0xc0ffee] 0 = Ok (chars "c0ffee").
Proof. by vm_compute. Qed.

(** A string that is cut is taken for one character longer on the left of its
    field, and filled up with one blank less. *)
Lemma cut_string_short : _doprnt (cstr "%-5.2s|") [Ptr (Some (cstr "xyz"))] 0 = Ok (chars "xy  |") /\
  _doprnt (cstr "%5.2s|") [Ptr (Some (cstr "xyz"))] 0 = Ok (chars "   xy|").
Proof. split; by vm_compute. Qed.

(** Leading zeros stay with a precision, which C ignores them for. *)
Lemma zeros_stay : _doprnt (cstr "%05.3d") [Word 7] 0 = Ok (chars "00007").
Proof. by vm_compute. Qed.

Lemma width_of_character : _doprnt (cstr "%5c") [Word (ch "x")] 0 = Ok (chars "x").
Proof. by vm_compute. Qed.

(** ** Buffers *)

Lemma savechars_app s l1 l2 : savechars s (l1 ++ l2) = (s ← savechars s l1; savechars s l2).
Proof.
  revert s. induction l1 as [|c l1 IH]; intros s; [done|]. cbn [app savechars].
  destruct (savechar s c) as [s'|]; cbn [mbind cres_bind]; [apply IH|done].
Qed.

(** A full buffer takes no more. *)
Lemma savechars_full s l : max s <> SPRINTF_UNLIMITED -> len s = max s -> savechars s l = Ok s.
Proof.
  intros Hm Hl. induction l as [|c l IH]; [done|]. cbn [savechars]. unfold savechar.
  by rewrite (proj2 (Z.eqb_neq _ _) Hm), (proj2 (Z.eqb_eq _ _) Hl).
Qed.

Lemma savechars_room s l : 0 <= len s ->
  (max s = SPRINTF_UNLIMITED \/ len s + Z.of_nat (length l) <= max s) ->
  len s + Z.of_nat (length l) < 2 ^ 32 - 1 -> len s <= Z.of_nat (length (sp_target s)) ->
  savechars s l =
    if decide (len s + Z.of_nat (length l) <= Z.of_nat (length (sp_target s))) then
      Ok {| sp_target := take (Z.to_nat (len s)) (sp_target s) ++ l ++
              drop (Z.to_nat (len s) + length l) (sp_target s);
            len := len s + Z.of_nat (length l); max := max s |}
    else Fault OutOfBounds.
Proof.
  revert s. induction l as [|c l IH]; intros s H0 Hm Hlim Hin; cbn [length] in *.
  - rewrite decide_True by lia. cbn [savechars app]. rewrite Nat.add_0_r, Z.add_0_r, take_drop. by destruct s.
  - cbn [savechars]. unfold savechar.
    assert (negb (max s =? SPRINTF_UNLIMITED) && (len s =? max s) = false) as ->.
    { destruct (Z.eqb_spec (max s) SPRINTF_UNLIMITED), (Z.eqb_spec (len s) (max s)); done || lia. }
    destruct (decide (len s < Z.of_nat (length (sp_target s)))) as [Hlt|Hge].
    + rewrite decide_True by lia. cbn [mbind cres_bind]. rewrite wrap_small by lia.
      rewrite IH; cbn [len sp_target max]; rewrite ?length_insert; try lia.
      replace (len s + 1 + Z.of_nat (length l)) with (len s + Z.of_nat (S (length l))) by lia.
      destruct (decide _); [|done]. do 2 f_equal.
      replace (Z.to_nat (len s + 1)) with (S (Z.to_nat (len s))) by lia.
      rewrite (take_S_r _ _ c) by (apply list_lookup_insert_eq; lia).
      rewrite take_insert_ge by lia. rewrite drop_insert_lt by lia. rewrite <- app_assoc. cbn [app].
      do 3 f_equal. f_equal. lia.
    + rewrite !decide_False by lia. done.
Qed.

(** C29: printing to a buffer of the kernel's C library.  [vsnprintf] stores as
    many characters of the output as [size] says and a terminator behind them:
    one byte more than [size] when the output does not fit, so that a buffer of
    [size] bytes is overrun exactly then; the result is the number of
    characters stored and never tells that output was lost. *)
Theorem vsnprintf_stores obj size fmt args out :
  _doprnt fmt args 0 = Ok out -> Z.of_nat (length out) < 2 ^ 31 -> 0 <= size < 2 ^ 31 ->
  let n := Nat.min (length out) (Z.to_nat size) in
  vsnprintf obj size fmt args =
    if decide (n < length obj)%nat
    then Ok (take n out ++ NUL :: drop (S n) obj, Z.of_nat n) else Fault OutOfBounds.
Proof.
  intros Hout Hlen Hsize n. unfold vsnprintf, vsprintf_max. rewrite Hout, wrap_small by lia.
  cbn [mbind cres_bind]. set (s0 := {| sp_target := obj; len := 0; max := size |}).
  assert (max s0 <> SPRINTF_UNLIMITED) as Hmax by (cbn; change SPRINTF_UNLIMITED with 4294967295; lia).
  assert (savechars s0 out = if decide (n <= length obj)%nat then
    Ok {| sp_target := take n out ++ drop n obj; len := Z.of_nat n; max := size |} else Fault OutOfBounds) as ->.
  { rewrite <- (take_drop n out) at 1. rewrite savechars_app, savechars_room; cbn [s0 len sp_target max];
      rewrite ?length_take; try lia. 
    rewrite Z.add_0_l, (Nat.min_l n (length out)) by lia.
    destruct (decide (Z.of_nat n <= Z.of_nat (length obj))), (decide (n <= length obj)%nat); try lia; [|done].
    cbn [mbind cres_bind]. destruct (decide (n = length out)) as [->|Hn].
    - rewrite drop_all. by cbn [savechars].
    - apply savechars_full; [done|]. cbn [len max]. lia. }
  destruct (decide (n <= length obj)%nat) as [Hle|Hle]; cbn [mbind cres_bind len sp_target].
  - rewrite Nat2Z.id. destruct (decide (n < length obj)%nat) as [Hlt|Hge]; [|done].
    rewrite swrap_small by lia. do 2 f_equal.
    rewrite insert_app_r_alt by (rewrite length_take; lia). rewrite length_take, Nat.min_l, Nat.sub_diag by lia.
    destruct (drop n obj) as [|x r] eqn:Hd; [apply (f_equal length) in Hd; rewrite length_drop in Hd; cbn in Hd; lia|].
    cbn. do 2 f_equal. by rewrite <- Nat.add_1_r, <- drop_drop, Hd.
  - rewrite decide_False by lia. done.
Qed.

(** Six characters for a size of three: four bytes, and too much for three. *)
Lemma vsnprintf_stores_witness :
  vsnprintf [1; 1; 1; 1; 1] 3 (cstr "%d-%d") [Word 123; Word 45] = Ok (chars "123" ++ [NUL; 1], 3) /\
  vsnprintf [1; 1; 1] 3 (cstr "%d-%d") [Word 123; Word 45] = Fault OutOfBounds.
Proof.
  assert (_doprnt (cstr "%d-%d") [Word 123; Word 45] 0 = Ok (chars "123-45")) as H by (vm_compute; reflexivity).
  split.
  - rewrite (vsnprintf_stores [1; 1; 1; 1; 1] 3 _ _ _ H); [reflexivity|done|lia].
  - rewrite (vsnprintf_stores [1; 1; 1] 3 _ _ _ H); [reflexivity|done|lia].
Defined.
