(* ===== verification/Doscan.v ===== *)
(** * The kernel's scanf: [libc/doscan.c], [libc/sscanf.c]

    [_doscan] takes characters from a function of the caller and gives back the
    one it looked ahead to; for [sscanf] these step through a string.  What is
    stored through the pointers of the variable arguments is yielded as a list,
    in their order. *)

From S2P Require Import Prelude CLib Doprnt DoprntSpec.
Open Scope Z_scope.

Inductive stored :=
  | SInt (n : Z)        (* int * *)
  | SLongLong (n : Z)   (* long long * *)
  | SChars (s : text).  (* char *, with its NUL *)

(** [n = n * base + d] on a [long long] *)
Definition accumulate (base n d : Z) : cres Z :=
  let v := n * base + d in if v <? 2 ^ 63 then Ok v else Fault Overflow.

(** [digit_value] with the tests of the source. *)
Definition hex_digit (c : Z) : option Z :=
  if (ch "0" <=? c) && (c <=? ch "9") then Some (c - ch "0")
  else if (ch "a" <=? c) && (c <=? ch "f") then Some (c - ch "a" + 10)
  else if (ch "A" <=? c) && (c <=? ch "F") then Some (c - ch "A" + 10)
  else None.
Definition decimal_digit (c : Z) : option Z :=
  if (ch "0" <=? c) && (c <=? ch "9") then Some (c - ch "0") else None.

(** The loop over digits: the number, and what [ungetc] leaves. *)
Fixpoint digits_loop (digit : Z -> option Z) (base : Z) (s : text) (n : Z) : cres (Z * text) :=
  match s with
  | [] => Fault OutOfBounds
  | c :: s' =>
    match digit (u8 c) with
    | Some d => n ← accumulate base n d; digits_loop digit base s' n
    | None => Ok (n, s)
    end
  end.

Definition scan_number (digit : Z -> option Z) (base : Z) (s : text) : cres (Z * text) :=
  c ← deref s;
  let neg := u8 c =? ch "-" in
  r ← digits_loop digit base (if neg then drop 1 s else s) 0;
  Ok (if neg then - r.1 else r.1, r.2).

Definition store_number (is_longlong : bool) (n : Z) : stored :=
  if is_longlong then SLongLong n else SInt (i32 n).

(** [while(c && !isspace(c))] *)
Fixpoint word_loop (s : text) : cres (text * text) :=
  match s with
  | [] => Fault OutOfBounds
  | c :: s' =>
    if (u8 c =? 0) || isspace (u8 c) then Ok ([], s)
    else r ← word_loop s'; Ok (c :: r.1, r.2)
  end.

(** [while(isspace(c = getc(arg))); ungetc(c, arg);] *)
Fixpoint space_loop (s : text) : cres text :=
  match s with
  | [] => Fault OutOfBounds
  | c :: s' => if isspace (u8 c) then space_loop s' else Ok s
  end.

(** The letter behind the modifiers, which are [l] and [*]. *)
Fixpoint more_fmt (fmt : text) (is_longlong discard : bool) : cres (Z * text * bool * bool) :=
  match fmt with
  | [] => Fault OutOfBounds
  | c :: fmt' =>
    if u8 c =? ch "l" then more_fmt fmt' true discard
    else if u8 c =? ch "*" then more_fmt fmt' is_longlong true
    else Ok (u8 c, fmt', is_longlong, discard)
  end.

(** The conversion [c]: what it would store, and the input behind it. *)
Definition scan_conversion (c : Z) (is_longlong : bool) (s : text) : cres (list stored * text) :=
  if c =? ch "d" then
    r ← scan_number decimal_digit 10 s; Ok ([store_number is_longlong r.1], r.2)
  else if (c =? ch "x") || (c =? ch "X") then
    r ← scan_number hex_digit 16 s; Ok ([store_number is_longlong r.1], r.2)
  else if c =? ch "s" then
    r ← word_loop s; Ok ([SChars (r.1 ++ [NUL])], r.2)
  else Ok ([], s).

(** The number of conversions, and what they stored. *)
Fixpoint doscan_loop (fuel : nat) (fmt s : text) (vals : Z) : cres (Z * list stored) :=
  match fuel with
  | O => Fault OutOfFuel
  | S fuel' =>
    c ← deref fmt;
    if u8 c =? 0 then Ok (vals, []) else
    let fmt := drop 1 fmt in
    if negb (u8 c =? ch "%") then
      if isspace (u8 c) then s ← space_loop s; doscan_loop fuel' fmt s vals
      else
        d ← deref s;
        if u8 c =? u8 d then doscan_loop fuel' fmt (drop 1 s) vals else Ok (vals, [])
    else
      m ← more_fmt fmt false false;
      let '(c, fmt, is_longlong, discard) := m in
      r ← scan_conversion c is_longlong s;
      t ← doscan_loop fuel' fmt r.2 (if discard : bool then vals else vals + 1);
      Ok (t.1, (if discard : bool then [] else r.1) ++ t.2)
  end.

Definition _doscan (fmt s : text) : cres (Z * list stored) :=
  doscan_loop (S (length fmt)) fmt s 0.

Definition sscanf (s fmt : text) : cres (Z * list stored) := _doscan fmt s.

(** ** Numbers *)

Lemma u8_char c : 0 <= c < 128 -> u8 c = c.
Proof. intros. apply wrap_small. lia. Qed.

Lemma digit_char_range base c : is_digit base c = true -> 48 <= c < 128.
Proof. unfold is_digit, digit_value. intros H. repeat (case_match; simplify_eq; try lia). Qed.

Lemma hex_digit_value c : hex_digit c = digit_value c.
Proof.
  unfold hex_digit, digit_value.
  change (ch "0") with 48; change (ch "9") with 57; change (ch "a") with 97; change (ch "f") with 102;
    change (ch "A") with 65; change (ch "F") with 70.
  repeat case_match; try done; f_equal; lia.
Qed.

Lemma decimal_digit_value c : decimal_digit c = if is_digit 10 c then digit_value c else None.
Proof.
  unfold decimal_digit. change ((ch "0" <=? c) && (c <=? ch "9")) with (isdigit c).
  rewrite isdigit_digit. destruct (is_digit 10 c) eqn:Hd; [|done].
  unfold is_digit in Hd. pose proof (decimal_value c) as Hv. unfold is_digit in Hv.
  destruct (digit_value c); [|done]. by rewrite Hv.
Qed.

(** What the digits of a base are to the loop. *)
Definition reads (digit : Z -> option Z) (base : Z) : Prop := forall c,
  (is_digit base c = true -> digit (u8 c) = Some (default 0 (digit_value c))) /\
  (is_digit base (u8 c) = false -> digit (u8 c) = None).

Lemma digit_value_small c d : digit_value c = Some d -> 0 <= d < 16.
Proof. unfold digit_value. intros H. repeat (case_match; simplify_eq; try lia). Qed.

Lemma hex_reads : reads hex_digit 16.
Proof.
  intros c. rewrite hex_digit_value. unfold is_digit. split.
  - intros H. rewrite u8_char by (pose proof (digit_char_range 16 c H); lia).
    by destruct (digit_value c).
  - intros H. destruct (digit_value (u8 c)) as [d|] eqn:Hd; [|done].
    pose proof (digit_value_small _ _ Hd). destruct (Z.ltb_spec d 16); [done|lia].
Qed.

Lemma decimal_reads : reads decimal_digit 10.
Proof.
  intros c. split.
  - intros H. rewrite u8_char by (pose proof (digit_char_range 10 c H); lia).
    rewrite decimal_digit_value, H. unfold is_digit in H. by destruct (digit_value c).
  - intros H. by rewrite decimal_digit_value, H.
Qed.

Lemma digits_loop_run digit base l c t v :
  reads digit base -> 1 <= base -> Forall (fun c => is_digit base c = true) l ->
  is_digit base (u8 c) = false -> 0 <= v -> digits_value base l v < 2 ^ 63 ->
  digits_loop digit base (l ++ c :: t) v = Ok (digits_value base l v, c :: t).
Proof.
  intros Hr Hb Hl Hc. revert v. induction Hl as [|x l Hx Hl IH]; intros v Hv Hlim; cbn [app digits_loop].
  - by rewrite (proj2 (Hr c) Hc).
  - rewrite (proj1 (Hr x) Hx). change (digits_value base (x :: l) v) with
      (digits_value base l (v * base + default 0 (digit_value x))) in *.
    pose proof (digit_value_nonneg x). assert (0 <= v * base + default 0 (digit_value x)) by nia.
    unfold accumulate. rewrite (proj2 (Z.ltb_lt _ _)).
    + cbn [mbind cres_bind]. by apply IH.
    + pose proof (digits_value_grows base l (v * base + default 0 (digit_value x)) Hb Hl ltac:(done)). lia.
Qed.

(** The text of a number without width, precision and flags. *)
Definition plain_number (base n : Z) : text :=
  (if n <? 0 then chars "-" else []) ++ digits false base (Z.abs n).

Lemma scan_number_run digit base n c t :
  reads digit base -> 2 <= base <= 16 -> - 2 ^ 63 < n < 2 ^ 63 -> is_digit base (u8 c) = false ->
  scan_number digit base (plain_number base n ++ c :: t) = Ok (n, c :: t).
Proof.
  intros Hr Hb Hn Hc. unfold scan_number, plain_number.
  assert (digits_loop digit base (digits false base (Z.abs n) ++ c :: t) 0 = Ok (Z.abs n, c :: t)) as Hloop.
  { rewrite (digits_loop_run digit base); rewrite ?digits_value_eq by lia;
      [done|done|lia|by apply digits_all; lia|done|lia|lia]. }
  destruct (Z.ltb_spec n 0); cbn [app chars].
  - change (chars "-") with [ch "-"]. cbn [app deref mbind cres_bind].
    change (u8 (ch "-") =? ch "-") with true. cbn [drop]. rewrite ?drop_0, Hloop.
    cbn [mbind cres_bind fst snd]. do 2 f_equal. lia.
  - destruct (digits false base (Z.abs n)) as [|x l] eqn:Hd; [by destruct (digits_nonempty false base (Z.abs n))|].
    cbn [app deref mbind cres_bind].
    pose proof (digits_all false base ltac:(lia) (Z.abs n) ltac:(lia)) as Hall. rewrite Hd in Hall.
    apply Forall_cons in Hall as [Hx _]. pose proof (digit_char_range _ _ Hx).
    rewrite u8_char by lia. change (ch "-") with 45. rewrite (proj2 (Z.eqb_neq x 45)) by lia.
    cbv iota. cbn [app] in Hloop. rewrite Hloop. cbn [mbind cres_bind fst snd].
    do 2 f_equal. lia.
Qed.

(** ** What printf prints, sscanf reads *)

Definition plain (longlong : bool) : field := Build_field [] false 0 None longlong.

Inductive item :=
  | Plain (c : Z)
  | Decimal (longlong : bool) (n : Z)
  | Hexadecimal (longlong : bool) (n : Z).

Definition directive_of (i : item) : directive :=
  match i with
  | Plain c => Literal c
  | Decimal ll n => Signed (plain ll) n
  | Hexadecimal ll n => Unsigned (plain ll) (ch "x") n
  end.

(** A [long long] of the scanner is signed. *)
Definition item_ok (i : item) : bool :=
  directive_ok (directive_of i) &&
  match i with
  | Plain c => negb (u8 c =? 0) && negb (u8 c =? ch "%")
  | Decimal _ _ => true
  | Hexadecimal _ n => n <? 2 ^ 63
  end.

(** The next character of the text does not continue the item. *)
Definition follows (i : item) (c : Z) : bool :=
  match i with
  | Plain x => negb (isspace (u8 x) && isspace (u8 c))
  | Decimal _ _ => negb (is_digit 10 (u8 c))
  | Hexadecimal _ _ => negb (is_digit 16 (u8 c))
  end.

Definition printed (l : list item) : text := concat (meaning ∘ directive_of <$> l).
Definition shown (l : list item) : text := concat (show ∘ directive_of <$> l).

Fixpoint separated (l : list item) : bool :=
  match l with
  | [] => true
  | i :: l' => follows i (hd NUL (printed l')) && separated l'
  end.

Definition value (i : item) : list stored :=
  match i with
  | Plain _ => []
  | Decimal ll n | Hexadecimal ll n => [store_number ll n]
  end.

Definition matched (i : item) : Z := match i with Plain _ => 0 | _ => 1 end.

Lemma number_text_plain ll base u sign :
  number_text (field_spec (plain ll)) base u sign =
    (if sign =? 0 then [] else [sign]) ++ digits false base u.
Proof.
  unfold number_text. cbn [field_spec plain padc altfmt prec length_ ladjust flags foldl zero width precision_].
  change (altfmt _) with false. change (ladjust _) with false. rewrite andb_false_r. cbn [default].
  change (prec _) with (-1). change (length_ _) with 0. change (padc _ =? ch "0") with false.
  change (Z.to_nat (-1)) with 0%nat. change (Z.to_nat 0) with 0%nat. cbn [replicate Nat.sub app].
  by rewrite app_nil_r.
Qed.

Lemma decimal_text ll n : meaning (Signed (plain ll) n) = plain_number 10 n.
Proof.
  cbn [meaning]. rewrite number_text_plain. unfold plain_number. by destruct (n <? 0).
Qed.

Lemma hexadecimal_text ll n : 0 <= n -> meaning (Unsigned (plain ll) (ch "x") n) = plain_number 16 n.
Proof.
  intros Hn. cbn [meaning]. rewrite number_text_plain. unfold plain_number.
  by rewrite (proj2 (Z.ltb_ge n 0)), Z.abs_eq by lia.
Qed.

Lemma space_once x c t : isspace (u8 x) = true -> isspace (u8 c) = false ->
  space_loop (x :: c :: t) = Ok (c :: t).
Proof. intros Hx Hc. cbn [space_loop]. by rewrite Hx, Hc. Qed.

(** A number conversion in the format. *)
Lemma number_conversion fuel ll letter fmt s vals :
  letter = ch "d" \/ letter = ch "x" ->
  doscan_loop (S fuel) (ch "%" :: show_field (plain ll) ++ letter :: fmt) s vals =
    (r ← scan_conversion letter ll s;
     t ← doscan_loop fuel fmt r.2 (vals + 1); Ok (t.1, r.1 ++ t.2)).
Proof. by intros [-> | ->]; destruct ll. Qed.

Lemma item_run i fuel c t fmt vals :
  item_ok i = true -> follows i c = true ->
  doscan_loop (S fuel) (show (directive_of i) ++ fmt) (meaning (directive_of i) ++ c :: t) vals =
    (r ← doscan_loop fuel fmt (c :: t) (vals + matched i); Ok (r.1, value i ++ r.2)).
Proof.
  destruct i as [x|ll n|ll n]; unfold item_ok; cbn [directive_of]; intros Hok Hc.
  - apply andb_prop in Hok as [_ [H0 Hp]%andb_prop]. apply negb_true_iff in H0, Hp.
    cbn [show meaning app doscan_loop deref mbind cres_bind]. rewrite H0, Hp. cbn [negb drop].
    rewrite ?drop_0. unfold follows in Hc. cbn [matched value app]. rewrite Z.add_0_r.
    assert (forall m : cres (Z * list stored), (r ← m; Ok (r.1, r.2)) = m) as Heta
      by (intros [[]|]; reflexivity).
    rewrite Heta. destruct (isspace (u8 x)) eqn:Hx.
    + apply negb_true_iff in Hc. rewrite space_once by done. done.
    + by rewrite Z.eqb_refl.
  - rewrite andb_true_r in Hok. cbn [directive_ok] in Hok. apply andb_prop in Hok as [_ Hn].
    change (long_long (plain ll)) with ll in Hn. rewrite decimal_text. cbn [show app]. rewrite <- app_assoc. cbn [app].
    change (chars "d" ++ fmt) with (ch "d" :: fmt). rewrite number_conversion by (by left).
    apply negb_true_iff in Hc. change (scan_conversion (ch "d") ll ?s) with
      (r ← scan_number decimal_digit 10 s; Ok ([store_number ll r.1], r.2)).
    rewrite (scan_number_run decimal_digit 10); [done|apply decimal_reads|lia|destruct ll; lia|done].
  - apply andb_prop in Hok as [Hok Hlim]. cbn [directive_ok] in Hok. apply andb_prop in Hok as [_ Hn].
    change (long_long (plain ll)) with ll in Hn. rewrite hexadecimal_text by (destruct ll; lia). cbn [show app]. rewrite <- app_assoc. cbn [app].
    rewrite number_conversion by (by right). apply negb_true_iff in Hc.
    change (scan_conversion (ch "x") ll ?s) with
      (r ← scan_number hex_digit 16 s; Ok ([store_number ll r.1], r.2)).
    rewrite (scan_number_run hex_digit 16); [done|apply hex_reads|lia|destruct ll; lia|done].
Qed.

Lemma items_run l rest rest' fuel vals :
  Forall (fun i => item_ok i = true) l -> separated l = true -> (length l < fuel)%nat ->
  doscan_loop fuel (shown l ++ NUL :: rest') (printed l ++ NUL :: rest) vals =
    Ok (vals + Z.of_nat (length (concat (value <$> l))), concat (value <$> l)).
Proof.
  intros Hl. revert fuel vals. induction Hl as [|i l Hi Hl IH]; intros [|fuel] vals Hsep Hf;
    cbn [length] in Hf; try lia.
  - cbn. by rewrite Z.add_0_r.
  - cbn [separated] in Hsep. apply andb_prop in Hsep as [Hc Hsep].
    assert (exists c t, printed l ++ NUL :: rest = c :: t /\ follows i c = true) as (c & t & Heq & Hfol).
    { destruct (printed l) as [|c t]; [by exists NUL, rest|by exists c, (t ++ NUL :: rest)]. }
    change (shown (i :: l)) with (show (directive_of i) ++ shown l).
    change (printed (i :: l)) with (meaning (directive_of i) ++ printed l).
    change (value <$> i :: l) with (value i :: (value <$> l)). cbn [concat].
    rewrite <- !app_assoc, Heq, item_run by done.
    rewrite <- Heq, IH by (done || lia). cbn [mbind cres_bind fst snd]. do 2 f_equal.
    rewrite length_app. destruct i; cbn [matched value length]; lia.
Qed.

(** C15: what the kernel's [printf] prints, its [sscanf] reads back with the
    same format.  For a format of characters and [%d], [%lld], [%x] and [%llx]
    conversions without flags, width or precision, whose output keeps the
    numbers apart (the character behind a number is not one that the conversion
    would take for a digit) and has no white space behind white space, [sscanf]
    on the output returns the number of conversions and stores every number that
    was printed, in order; one of 32 bits as the signed value of these bits.
    Numbers of 64 bits are above the least one, and below [2 ^ 63] for [%llx]. *)
Theorem sscanf_reads_printf l rest rest' :
  Forall (fun i => item_ok i = true) l -> separated l = true ->
  _doprnt (shown l ++ NUL :: rest') (concat (arguments ∘ directive_of <$> l)) 0 = Ok (printed l) /\
  sscanf (printed l ++ NUL :: rest) (shown l ++ NUL :: rest') =
    Ok (Z.of_nat (length (concat (value <$> l))), concat (value <$> l)).
Proof.
  intros Hl Hsep. split.
  - pose proof (directives_run (directive_of <$> l) rest' []) as Hrun.
    rewrite app_nil_r in Hrun. unfold shown, printed. rewrite !list_fmap_compose. apply Hrun.
    apply Forall_fmap. eapply Forall_impl; [exact Hl|]. intros i [Hi _]%andb_prop. exact Hi.
  - unfold sscanf, _doscan. rewrite items_run; [by rewrite Z.add_0_l|done|done|].
    rewrite length_app. cbn [length]. clear. induction l as [|i l IH]; [cbn; lia|].
    unfold shown in *. cbn [fmap list_fmap concat length compose]. rewrite length_app.
    pose proof (show_nonempty (directive_of i)). lia.
Qed.

(** The text of a device number, an address and a size. *)
Lemma sscanf_reads_printf_witness :
  sscanf (cstr "disk -3 at c0ffee12:7fffffffffffffff")
    (cstr "disk %d at %x:%llx") = Ok (3, [SInt (-3); SInt (-1056969198); SLongLong (2 ^ 63 - 1)]).
Proof.
  refine (proj2 (sscanf_reads_printf
    ((Plain <$> chars "disk ") ++ Decimal false (-3) :: (Plain <$> chars " at ") ++
     [Hexadecimal false 0xc0ffee12; Plain (ch ":"); Hexadecimal true (2 ^ 63 - 1)]) [] [] _ _)).
  - repeat constructor.
  - reflexivity.
Defined.

(** A conversion that finds no digit stores 0 and counts, and blanks in front
    of a number are not skipped. *)
Lemma sscanf_counts_nothing :
  sscanf (cstr "none") (cstr "%d%x") = Ok (2, [SInt 0; SInt 0]) /\
  sscanf (cstr " 7") (cstr "%d") = Ok (1, [SInt 0]).
Proof. split; vm_compute; reflexivity. Qed.
