(* ===== verification/Random.v ===== *)
(** * The kernel's random numbers: [libc/random.c]

    The table of the generator is a cyclic buffer with two pointers; seen from
    the front pointer it is the list of the last words of a linear feedback
    sequence.  A [long] has 32 bits and is one cell of memory; pointers to
    [long]s count cells.  [USE_WEAK_SEEDING] is not defined. *)

From S2P Require Import Prelude.
Open Scope Z_scope.

Definition TYPE_0 : Z := 0.
Definition TYPE_3 : Z := 3.
Definition MAX_TYPES : Z := 5.
Definition BREAK_0 : Z := 8.
Definition BREAK_1 : Z := 32.
Definition BREAK_2 : Z := 64.
Definition BREAK_3 : Z := 128.
Definition BREAK_4 : Z := 256.
Definition degrees : list Z := [0; 7; 15; 31; 63].
Definition seps : list Z := [0; 3; 1; 3; 1].

(** [static long randtbl[DEG_3 + 1]]: the words are given unsigned. *)
Definition randtbl : list Z := i32 <$>
  [TYPE_3;
   0x991539b1; 0x16a5bce3; 0x6774a4cd; 0x3e01511e; 0x4e508aaa; 0x61048c05;
   0xf5500617; 0x846b7115; 0x6a19892c; 0x896a97af; 0xdb48f936; 0x14898454;
   0x37ffd106; 0xb58bff9c; 0x59e17104; 0xcf918a49; 0x09378c83; 0x52c7a471;
   0x8d293ea9; 0x1f4fc301; 0xc3db71be; 0x39b44e1c; 0xf8a44ef9; 0x4c8b80b1;
   0x19edc328; 0x87bf4bdd; 0xc9b240e5; 0xe9ee4b1b; 0x4382aee7; 0x535b6b41;
   0xf3bec5da].

Record rng := {
  longs : gmap Z Z;                       (* the [long]s of the memory *)
  fptr : Z; rptr : Z;
  state : Z; rand_type : Z; rand_deg : Z; rand_sep : Z; end_ptr : Z
}.
#[export] Instance eta_rng : Eta rng := fun r =>
  Build_rng (longs r) (fptr r) (rptr r) (state r) (rand_type r) (rand_deg r) (rand_sep r) (end_ptr r).

(** The static variables, with the table at [tbl]. *)
Definition initial (tbl : Z) : rng :=
  {| longs := list_to_map (zip (seqZ tbl 32) randtbl);
     fptr := tbl + 4; rptr := tbl + 1; state := tbl + 1; rand_type := TYPE_3; rand_deg := 31;
     rand_sep := 3; end_ptr := tbl + 32 |}.

Definition load (g : rng) (p : Z) : cres Z :=
  match longs g !! p with Some v => Ok v | None => Fault OutOfBounds end.
Definition store (g : rng) (p v : Z) : cres rng :=
  match longs g !! p with
  | Some _ => Ok (g <| longs := <[p := v]> (longs g) |>)
  | None => Fault OutOfBounds
  end.

Definition good_rand (x : Z) : cres Z :=
  let hi := Z.quot x 127773 in
  let lo := Z.rem x 127773 in
  a ← int_range (16807 * lo);
  b ← int_range (2836 * hi);
  x ← int_range (a - b);
  if x <=? 0 then int_range (x + 0x7fffffff) else Ok x.

(** The sum of the two words overflows a [long]; it is taken to wrap around, as
    it does on the machine and as the generator needs. *)
Definition random (g : rng) : cres (Z * rng) :=
  if rand_type g =? TYPE_0 then
    i ← load g (state g);
    i ← good_rand i;
    let i := Z.land i 0x7fffffff in
    g ← store g (state g) i;
    Ok (i, g)
  else
    let f := fptr g in
    let r := rptr g in
    a ← load g f;
    b ← load g r;
    g ← store g f (i32 (a + b));
    v ← load g f;
    let i := Z.land (Z.shiftr v 1) 0x7fffffff in
    let f := f + 1 in
    let '(f, r) :=
      if end_ptr g <=? f then (state g, r + 1)
      else let r := r + 1 in
           if end_ptr g <=? r then (f, state g) else (f, r) in
    Ok (i, g <| fptr := f |> <| rptr := r |>).

(** [n] numbers, one behind the other *)
Fixpoint randoms (n : nat) (g : rng) : cres (list Z * rng) :=
  match n with
  | O => Ok ([], g)
  | S n' => r ← random g; t ← randoms n' r.2; Ok (r.1 :: t.1, t.2)
  end.

Fixpoint seed_loop (n : nat) (i : Z) (g : rng) : cres rng :=
  match n with
  | O => Ok g
  | S n' =>
    x ← load g (state g + (i - 1));
    y ← good_rand x;
    g ← store g (state g + i) y;
    seed_loop n' (i + 1) g
  end.

Definition srandom (x : Z) (g : rng) : cres rng :=
  g ← store g (state g) (i32 x);
  if rand_type g =? TYPE_0 then Ok g else
  g ← seed_loop (Z.to_nat (rand_deg g - 1)) 1 g;
  r ← randoms (Z.to_nat (10 * rand_deg g)) (g <| fptr := state g + rand_sep g |> <| rptr := state g |>);
  Ok r.2.

(** Type and position of the generator in front of its table. *)
Definition mark (g : rng) : Z :=
  if rand_type g =? TYPE_0 then rand_type g else MAX_TYPES * (rptr g - state g) + rand_type g.

Definition type_of_size (n : Z) : Z :=
  if n <? BREAK_1 then 0 else if n <? BREAK_2 then 1 else if n <? BREAK_3 then 2
  else if n <? BREAK_4 then 3 else 4.

Definition set_type (t : Z) (g : rng) : rng :=
  g <| rand_type := t |> <| rand_deg := nth (Z.to_nat t) degrees 0 |>
    <| rand_sep := nth (Z.to_nat t) seps 0 |>.

(** The result is the old table; a message about too little memory is dropped. *)
Definition initstate (seed arg_state n : Z) (g : rng) : cres (option Z * rng) :=
  let ostate := state g - 1 in
  g ← store g (state g - 1) (mark g);
  if n <? BREAK_0 then Ok (None, g) else
  let g := set_type (type_of_size n) g in
  let g := g <| state := arg_state + 1 |> in
  let g := g <| end_ptr := state g + rand_deg g |> in
  g ← srandom seed g;
  g ← store g arg_state (mark g);
  Ok (Some ostate, g).

(** For a type that is none, only a message is printed. *)
Definition setstate (arg_state : Z) (g : rng) : cres (Z * rng) :=
  w ← load g arg_state;
  let type := Z.rem w MAX_TYPES in
  let rear := Z.quot w MAX_TYPES in
  let ostate := state g - 1 in
  g ← store g (state g - 1) (mark g);
  let g := if (0 <=? type) && (type <=? 4) then set_type type g else g in
  let g := g <| state := arg_state + 1 |> in
  let g := if rand_type g =? TYPE_0 then g
           else g <| rptr := state g + rear |>
                  <| fptr := state g + Z.rem (rear + rand_sep g) (rand_deg g) |> in
  let g := g <| end_ptr := state g + rand_deg g |> in
  Ok (ostate, g).

(** ** The multiplicative generator *)

(** [7^5 * x] modulo the prime [2^31 - 1], from 1 to that prime. *)
Definition park_miller (x : Z) : Z :=
  let r := (16807 * x) mod (2 ^ 31 - 1) in if r =? 0 then 2 ^ 31 - 1 else r.

Definition is_long (x : Z) : Prop := - 2 ^ 31 <= x < 2 ^ 31.

Lemma good_rand_run x : is_long x -> good_rand x = Ok (park_miller x).
Proof.
  intros Hx. unfold is_long in Hx. unfold good_rand.
  pose proof (Z.quot_rem' x 127773) as Hqr.
  assert (-127773 < Z.rem x 127773 < 127773 /\ -16807 <= Z.quot x 127773 <= 16807 /\
    (0 <= x -> 0 <= Z.rem x 127773 /\ 0 <= Z.quot x 127773) /\
    (x <= 0 -> Z.rem x 127773 <= 0 /\ Z.quot x 127773 <= 0)) as (Hlo & Hhi & Hp & Hn).
  { destruct (Z.le_gt_cases 0 x).
    - pose proof (Z.rem_bound_pos x 127773 ltac:(lia) ltac:(lia)). lia.
    - pose proof (Z.rem_bound_pos_neg x 127773 ltac:(lia) ltac:(lia)). lia. }
  set (lo := Z.rem x 127773) in *. set (hi := Z.quot x 127773) in *. clearbody lo hi.
  cbv zeta. rewrite !int_range_ok by lia. cbn [mbind cres_bind]. rewrite int_range_ok by lia.
  cbn [mbind cres_bind]. unfold park_miller. change (2 ^ 31 - 1) with 2147483647.
  change 0x7fffffff with 2147483647. subst x.
  pose proof (Z.div_mod (16807 * (127773 * hi + lo)) 2147483647 ltac:(lia)) as Hdm.
  pose proof (Z.mod_pos_bound (16807 * (127773 * hi + lo)) 2147483647 ltac:(lia)) as Hb.
  set (m := (16807 * (127773 * hi + lo)) mod 2147483647) in *.
  set (q := (16807 * (127773 * hi + lo)) / 2147483647) in *. clearbody m q.
  destruct (Z.leb_spec (16807 * lo - 2836 * hi) 0); [rewrite int_range_ok by lia|]; f_equal;
    destruct (Z.eqb_spec m 0); lia.
Qed.

Lemma park_miller_range x : 0 < park_miller x < 2 ^ 31.
Proof.
  unfold park_miller. pose proof (Z.mod_pos_bound (16807 * x) (2 ^ 31 - 1) ltac:(lia)).
  destruct (Z.eqb_spec ((16807 * x) mod (2 ^ 31 - 1)) 0); lia.
Qed.

(** ** Well-formed generators and what they contain *)

Definition word (g : rng) (i : Z) : Z := default 0 (longs g !! (state g + i)).

(** The number of words behind the mark. *)
Definition size (g : rng) : Z := Z.max 1 (rand_deg g).

Record good (g : rng) : Prop := {
  g_type : 0 <= rand_type g <= 4;
  g_deg : rand_deg g = nth (Z.to_nat (rand_type g)) degrees 0;
  g_sep : rand_sep g = nth (Z.to_nat (rand_type g)) seps 0;
  g_end : end_ptr g = state g + rand_deg g;
  g_words : forall i, -1 <= i < size g -> exists v, longs g !! (state g + i) = Some v /\ is_long v;
  g_ptrs : rand_type g <> 0 -> 0 <= rptr g - state g < rand_deg g /\
    fptr g - state g = (rptr g - state g + rand_sep g) mod rand_deg g
}.

Lemma deg_sep t : 0 <= t <= 4 -> t <> 0 ->
  0 < nth (Z.to_nat t) seps 0 < nth (Z.to_nat t) degrees 0 /\ nth (Z.to_nat t) degrees 0 <= 63.
Proof.
  intros Ht H0. assert (t = 1 \/ t = 2 \/ t = 3 \/ t = 4) as [->|[->|[-> | ->]]] by lia; by vm_compute.
Qed.

Lemma good_deg g : good g -> rand_type g <> 0 ->
  0 < rand_sep g < rand_deg g /\ rand_deg g <= 63 /\ size g = rand_deg g.
Proof.
  intros Hg H0. pose proof (deg_sep _ (g_type _ Hg) H0). rewrite <- (g_deg _ Hg), <- (g_sep _ Hg) in *.
  unfold size. lia.
Qed.

(** The words from the front pointer on, around the table: the oldest first. *)
Definition contents (g : rng) : list Z :=
  if rand_type g =? 0 then [word g 0]
  else (fun k => word g ((fptr g - state g + k) mod rand_deg g)) <$> seqZ 0 (rand_deg g).

(** ** The abstract generators *)

(** From the last [deg] words of the sequence: the number, and the last words
    with the new one, which is [x(n) = x(n - deg) + x(n - sep)]. *)
Definition next (t : Z) (h : list Z) : Z * list Z :=
  if t =? 0 then let i := park_miller (nth 0 h 0) in (i, [i])
  else
    let deg := nth (Z.to_nat t) degrees 0 in
    let sep := nth (Z.to_nat t) seps 0 in
    let v := i32 (nth 0 h 0 + nth (Z.to_nat (deg - sep)) h 0) in
    (u32 v / 2, drop 1 h ++ [v]).

Fixpoint numbers (t : Z) (n : nat) (h : list Z) : list Z * list Z :=
  match n with
  | O => ([], h)
  | S n' => let r := next t h in let s := numbers t n' r.2 in (r.1 :: s.1, s.2)
  end.

(** What a step leaves alone. *)
Definition same_table (g g' : rng) : Prop :=
  state g' = state g /\ rand_type g' = rand_type g /\ rand_deg g' = rand_deg g /\
  rand_sep g' = rand_sep g /\ end_ptr g' = end_ptr g /\
  forall p, ~ (state g <= p < state g + size g) -> longs g' !! p = longs g !! p.

Lemma same_table_refl g : same_table g g.
Proof. by repeat split. Qed.

Lemma same_table_trans g1 g2 g3 : same_table g1 g2 -> same_table g2 g3 -> same_table g1 g3.
Proof.
  intros (A1 & A2 & A3 & A4 & A5 & A6) (B1 & B2 & B3 & B4 & B5 & B6). unfold size in *.
  repeat split; try congruence. intros p Hp. rewrite B6, A6; [done|done|by rewrite A1, A3].
Qed.

(** ** Memory *)

Lemma load_run g p v : longs g !! p = Some v -> load g p = Ok v.
Proof. unfold load. by intros ->. Qed.

Lemma store_run g p v w : longs g !! p = Some w ->
  store g p v = Ok (g <| longs := <[p := v]> (longs g) |>).
Proof. unfold store. by intros ->. Qed.

Lemma good_word g i : good g -> -1 <= i < size g ->
  longs g !! (state g + i) = Some (word g i) /\ is_long (word g i).
Proof. intros Hg Hi. destruct (g_words _ Hg i Hi) as (v & Hv & Hr). unfold word. by rewrite Hv. Qed.

(** A word of a good table may be replaced. *)
Lemma good_store g i v : good g -> -1 <= i < size g -> is_long v ->
  good (g <| longs := <[state g + i := v]> (longs g) |>).
Proof.
  intros [Ht Hd Hs He Hw Hp] Hi Hv. split; try done. intros j Hj. unfold upd. cbn.
  destruct (decide (j = i)) as [->|Hne].
  - exists v. by rewrite lookup_insert_eq.
  - rewrite lookup_insert_ne by lia. by apply Hw.
Qed.

Lemma nth_seqZ {A} (f : Z -> A) n k d : 0 <= k < n -> nth (Z.to_nat k) (f <$> seqZ 0 n) d = f k.
Proof.
  intros Hk. rewrite nth_lookup, list_lookup_fmap, lookup_seqZ_lt by lia. cbn. f_equal. lia.
Qed.

Lemma is_long_i32 x : is_long (i32 x).
Proof. unfold is_long. pose proof (swrap_range 32 x ltac:(lia)). done. Qed.

(** Dropping the lowest of 32 bits. *)
Lemma half v : Z.land (Z.shiftr v 1) 0x7fffffff = u32 v / 2.
Proof.
  change 0x7fffffff with (2 ^ 31 - 1). rewrite land_mask, Z.shiftr_div_pow2 by lia.
  change (2 ^ 1) with 2. unfold wrap. change (2 ^ 32) with (2 ^ 31 * 2).
  pose proof (Z.div_mod v (2 ^ 31 * 2) ltac:(lia)) as Hdm.
  pose proof (Z.mod_pos_bound v (2 ^ 31 * 2) ltac:(lia)) as Hb.
  set (m := v mod (2 ^ 31 * 2)) in *. set (q := v / (2 ^ 31 * 2)) in *. clearbody m q. subst v.
  replace (2 ^ 31 * 2 * q + m) with (m + (q * 2 ^ 31) * 2) by lia. rewrite Z.div_add by lia.
  rewrite Z.mod_add by lia. apply Z.mod_small. split; [apply Z.div_pos; lia|].
  apply Z.div_lt_upper_bound; lia.
Qed.

(** The front pointer moves on and the word it leaves becomes the youngest. *)
Lemma cyclic_move (w : Z -> Z) d o v : 0 < d -> 0 <= o < d ->
  ((fun k => (if decide ((o + 1 + k) mod d = o) then v else w ((o + 1 + k) mod d))) <$> seqZ 0 d)
    = drop 1 ((fun k => w ((o + k) mod d)) <$> seqZ 0 d) ++ [v].
Proof.
  intros Hd Ho. rewrite <- fmap_drop.
  replace (drop 1 (seqZ 0 d)) with (seqZ 1 (d - 1)) by (rewrite (seqZ_cons 0) by lia; done).
  assert (seqZ 0 d = seqZ 0 (d - 1) ++ [d - 1]) as ->.
  { replace d with (d - 1 + 1) at 1 by lia. rewrite seqZ_app by lia. f_equal. }
  rewrite fmap_app. f_equal.
  - replace (seqZ 1 (d - 1)) with (Z.add 1 <$> seqZ 0 (d - 1)) by (by rewrite fmap_add_seqZ).
    rewrite <- list_fmap_compose. apply list_fmap_ext. intros i k Hk. apply lookup_seqZ in Hk as [-> Hk].
    cbn. rewrite decide_False; [do 2 f_equal; lia|].
    rewrite Z.add_0_l. intros Heq. pose proof (Z.div_mod (o + 1 + Z.of_nat i) d ltac:(lia)) as Hdm. rewrite Heq in Hdm.
    assert (d * ((o + 1 + Z.of_nat i) / d) = Z.of_nat i + 1) as Hm by lia.
    assert (0 < (o + 1 + Z.of_nat i) / d < 1); [|lia]. nia.
  - cbn. f_equal. rewrite decide_True; [done|].
    replace (o + 1 + (d - 1)) with (o + 1 * d) by lia. rewrite Z.mod_add by lia. by apply Z.mod_small.
Qed.

(** ** One number *)

Lemma mod_once x d : 0 <= x < 2 * d -> x mod d = if x <? d then x else x - d.
Proof.
  intros Hx. destruct (Z.ltb_spec x d); [apply Z.mod_small; lia|].
  replace x with ((x - d) + 1 * d) at 1 by lia. rewrite Z.mod_add by lia. apply Z.mod_small. lia.
Qed.

(** The pointers as the code moves them. *)
Definition moved (g : rng) : Z * Z :=
  if end_ptr g <=? fptr g + 1 then (state g, rptr g + 1)
  else if end_ptr g <=? rptr g + 1 then (fptr g + 1, state g) else (fptr g + 1, rptr g + 1).

Lemma moved_ptrs g : good g -> rand_type g <> 0 ->
  0 <= (moved g).2 - state g < rand_deg g /\
  (moved g).1 - state g = (fptr g - state g + 1) mod rand_deg g /\
  (moved g).1 - state g = ((moved g).2 - state g + rand_sep g) mod rand_deg g.
Proof.
  intros Hg H0. destruct (good_deg g Hg H0) as (Hs & Hd & _). destruct (g_ptrs _ Hg H0) as [Hr Hf].
  pose proof (g_end _ Hg) as He. unfold moved. rewrite He.
  rewrite mod_once in Hf by lia. destruct (Z.ltb_spec (rptr g - state g + rand_sep g) (rand_deg g));
    destruct (Z.leb_spec (state g + rand_deg g) (fptr g + 1)); cbn [fst snd];
    [| destruct (Z.leb_spec (state g + rand_deg g) (rptr g + 1)) | | destruct (Z.leb_spec (state g + rand_deg g) (rptr g + 1))];
    cbn [fst snd]; rewrite !mod_once by lia; repeat (split; [lia|]); repeat case_match; lia.
Qed.

Lemma contents_words g : good g -> rand_type g <> 0 ->
  let deg := nth (Z.to_nat (rand_type g)) degrees 0 in
  let sep := nth (Z.to_nat (rand_type g)) seps 0 in
  nth 0 (contents g) 0 = word g (fptr g - state g) /\
  nth (Z.to_nat (deg - sep)) (contents g) 0 = word g (rptr g - state g).
Proof.
  intros Hg H0 deg sep. destruct (good_deg g Hg H0) as (Hs & Hd & _). destruct (g_ptrs _ Hg H0) as [Hr Hf].
  subst deg sep. rewrite <- (g_deg _ Hg), <- (g_sep _ Hg). unfold contents. rewrite (proj2 (Z.eqb_neq _ _) H0).
  pose proof (Z.mod_pos_bound (rptr g - state g + rand_sep g) (rand_deg g) ltac:(lia)).
  split.
  - change 0%nat with (Z.to_nat 0). rewrite nth_seqZ by lia. rewrite Z.add_0_r, Z.mod_small by lia. done.
  - rewrite nth_seqZ by lia. f_equal. rewrite mod_once in Hf by lia.
    rewrite mod_once by (destruct (_ <? _); lia). repeat case_match; lia.
Qed.

Lemma random_step g : good g -> exists g',
  random g = Ok ((next (rand_type g) (contents g)).1, g') /\
  contents g' = (next (rand_type g) (contents g)).2 /\ good g' /\ same_table g g'.
Proof.
  intros Hg. unfold random, next. change TYPE_0 with 0. destruct (Z.eqb_spec (rand_type g) 0) as [H0|H0].
  - destruct (good_word g 0 Hg ltac:(unfold size; lia)) as [Hw Hl]. rewrite Z.add_0_r in Hw.
    rewrite (load_run _ _ _ Hw). cbn [mbind cres_bind]. rewrite good_rand_run by done.
    cbn [mbind cres_bind]. pose proof (park_miller_range (word g 0)).
    change 0x7fffffff with (2 ^ 31 - 1). rewrite land_mask, Z.mod_small by lia.
    rewrite (store_run _ _ _ _ Hw). cbn [mbind cres_bind fst snd].
    assert (contents g = [word g 0]) as Hc by (unfold contents; by rewrite H0). rewrite Hc. cbn [nth].
    eexists. split; [reflexivity|]. split; [|split].
    + unfold contents, upd. cbn. rewrite H0. cbn. unfold word. cbn. by rewrite Z.add_0_r, lookup_insert_eq.
    + pose proof (good_store g 0 (park_miller (word g 0)) Hg) as Hgood. rewrite Z.add_0_r in Hgood.
      apply Hgood; unfold size, is_long; lia.
    + repeat split. intros p Hp. unfold upd. cbn. apply lookup_insert_ne. unfold size in Hp. lia.
  - destruct (good_deg g Hg H0) as (Hs & Hd & Hsize). destruct (g_ptrs _ Hg H0) as [Hr Hf].
    pose proof (Z.mod_pos_bound (rptr g - state g + rand_sep g) (rand_deg g) ltac:(lia)) as Hfb.
    destruct (contents_words g Hg H0) as [-> ->].
    destruct (good_word g (fptr g - state g) Hg ltac:(lia)) as [Hwf _].
    destruct (good_word g (rptr g - state g) Hg ltac:(lia)) as [Hwr _].
    rewrite Zplus_minus in Hwf, Hwr.
    rewrite (load_run _ _ _ Hwf), (load_run _ _ _ Hwr). cbn [mbind cres_bind].
    rewrite (store_run _ _ _ _ Hwf). cbn [mbind cres_bind]. set (v := i32 (word g (fptr g - state g) + word g (rptr g - state g))).
    set (g1 := g <| longs := <[fptr g := v]> (longs g) |>).
    rewrite (load_run g1 (fptr g) v) by apply lookup_insert_eq. cbn [mbind cres_bind fst snd].
    rewrite half. change (if end_ptr g1 <=? fptr g + 1 then (state g1, rptr g + 1) else _) with (moved g).
    destruct (moved_ptrs g Hg H0) as (M1 & M2 & M3). destruct (moved g) as [f' r'] eqn:Hm. cbn [fst snd] in *.
    eexists. split; [reflexivity|]. split; [|split].
    + unfold contents. rewrite (proj2 (Z.eqb_neq _ _) H0).
      set (g2 := g1 <| fptr := f' |> <| rptr := r' |>). change (rand_type g2) with (rand_type g).
      rewrite (proj2 (Z.eqb_neq _ _) H0). change (rand_deg g2) with (rand_deg g).
      change (fptr g2) with f'. change (state g2) with (state g). rewrite M2.
      rewrite <- (cyclic_move (word g) (rand_deg g) (fptr g - state g) v) by lia.
      apply list_fmap_ext. intros i k _. rewrite Zplus_mod_idemp_l. unfold word.
      change (longs g2) with (<[fptr g := v]> (longs g)). change (state g2) with (state g).
      destruct (decide _) as [Heq|Hne].
      * rewrite Heq, Zplus_minus. by rewrite lookup_insert_eq.
      * rewrite lookup_insert_ne by lia. done.
    + pose proof (good_store g (fptr g - state g) v Hg ltac:(lia) (is_long_i32 _)) as Hgood.
      rewrite Zplus_minus in Hgood. destruct Hgood as [Ht Hdd Hss He Hw _]. by split.
    + repeat split. intros p Hp. unfold upd. cbn. apply lookup_insert_ne. lia.
Qed.

Lemma randoms_run n g : good g -> exists g',
  randoms n g = Ok ((numbers (rand_type g) n (contents g)).1, g') /\
  contents g' = (numbers (rand_type g) n (contents g)).2 /\ good g' /\ same_table g g'.
Proof.
  revert g. induction n as [|n IH]; intros g Hg; cbn [randoms numbers].
  { exists g. split; [done|]. split; [done|]. split; [done|apply same_table_refl]. }
  destruct (random_step g Hg) as (g1 & -> & Hc1 & Hg1 & Hs1). cbn [mbind cres_bind fst snd].
  destruct (IH g1 Hg1) as (g2 & -> & Hc2 & Hg2 & Hs2). cbn [mbind cres_bind fst snd].
  destruct Hs1 as (? & Ht & Hrest). rewrite Ht, Hc1 in *. exists g2. split; [done|]. split; [done|].
  split; [done|]. by apply (same_table_trans _ g1).
Qed.

(** ** Seeding *)

(** A generator before its pointers are set. *)
Definition reset (g : rng) : rng := g <| fptr := state g + rand_sep g |> <| rptr := state g |>.

Fixpoint seeds (n : nat) (x : Z) : list Z :=
  match n with O => [] | S n' => x :: seeds n' (park_miller x) end.

Lemma length_seeds n x : length (seeds n x) = n.
Proof. revert x. induction n; intros x; cbn; [done|by rewrite IHn]. Qed.

Lemma is_long_park_miller x : is_long (park_miller x).
Proof. pose proof (park_miller_range x). unfold is_long. lia. Qed.

(** The words that [seed_loop] leaves from index [i - 1] on. *)
Lemma seed_loop_run n i g : good (reset g) -> 1 <= i -> i + Z.of_nat n <= size g ->
  exists l, let g' := g <| longs := l |> in
    seed_loop n i g = Ok g' /\ good (reset g') /\
    (forall p, ~ (state g + i <= p < state g + i + Z.of_nat n) -> l !! p = longs g !! p) /\
    word g' (i - 1) = word g (i - 1) /\
    (fun k => word g' (i - 1 + k)) <$> seqZ 0 (Z.of_nat n + 1) = seeds (S n) (word g (i - 1)).
Proof.
  revert i g. induction n as [|n IH]; intros i g Hg Hi Hn.
  - exists (longs g). cbn. assert (g <| longs := longs g |> = g) as -> by (by destruct g).
    do 4 (split; [done|]). change (Z.of_nat 0 + 1) with 1.
    rewrite seqZ_cons, seqZ_nil by lia. cbn. by rewrite Z.add_0_r.
  - cbn [seed_loop]. destruct (good_word (reset g) (i - 1) Hg) as [Hw Hl].
    { change (size (reset g)) with (size g). lia. }
    change (longs (reset g)) with (longs g) in Hw. change (state (reset g)) with (state g) in Hw.
    change (word (reset g) (i - 1)) with (word g (i - 1)) in *.
    rewrite (load_run _ _ _ Hw). cbn [mbind cres_bind]. rewrite good_rand_run by done. cbn [mbind cres_bind].
    destruct (good_word (reset g) i Hg) as [Hwi _]. { change (size (reset g)) with (size g). lia. }
    change (longs (reset g)) with (longs g) in Hwi. change (state (reset g)) with (state g) in Hwi.
    rewrite (store_run _ _ _ _ Hwi). cbn [mbind cres_bind].
    set (v := park_miller (word g (i - 1))). set (g1 := g <| longs := <[state g + i := v]> (longs g) |>).
    assert (good (reset g1)) as Hg1.
    { apply (good_store (reset g) i v); [done| |apply is_long_park_miller].
      change (size (reset g)) with (size g). lia. }
    destruct (IH (i + 1) g1 Hg1) as (l & Hrun & Hgood & Hframe & Hfirst & Hseeds); [lia| |].
    { change (size g1) with (size g). lia. }
    replace (i + 1 - 1) with i in * by lia. change (state g1) with (state g) in *.
    assert (word g1 i = v) as Hv by (unfold word, g1, upd; cbn; by rewrite lookup_insert_eq).
    exists l. split; [exact Hrun|]. split; [exact Hgood|]. split; [|split].
    + intros p Hp. rewrite Hframe by lia. apply lookup_insert_ne. lia.
    + unfold word, upd. cbn. rewrite Hframe by lia. unfold g1, upd. cbn. by rewrite lookup_insert_ne by lia.
    + rewrite seqZ_cons by lia. cbn [fmap list_fmap seeds]. rewrite Z.add_0_r. f_equal.
      * unfold word, upd. cbn. rewrite Hframe by lia. unfold g1, upd. cbn. by rewrite lookup_insert_ne by lia.
      * rewrite Hv in Hseeds. fold v. cbn [seeds] in Hseeds. rewrite <- Hseeds.
        replace (Z.pred (Z.of_nat (S n) + 1)) with (Z.of_nat n + 1) by lia.
        change (Z.succ 0) with (1 + 0). rewrite <- fmap_add_seqZ, <- list_fmap_compose.
        apply list_fmap_ext. intros j k _. cbn. f_equal. lia.
Qed.

Lemma rotate (w : Z -> Z) d s : 0 <= s < d ->
  (fun k => w ((s + k) mod d)) <$> seqZ 0 d =
    let l := w <$> seqZ 0 d in drop (Z.to_nat s) l ++ take (Z.to_nat s) l.
Proof.
  intros Hs. cbv zeta. rewrite <- fmap_drop, <- fmap_take.
  assert (seqZ 0 d = seqZ 0 s ++ seqZ s (d - s)) as Hsplit.
  { replace d with (s + (d - s)) at 1 by lia. by rewrite seqZ_app by lia. }
  rewrite Hsplit, drop_app_length', take_app_length' by (rewrite length_seqZ; lia).
  rewrite <- Hsplit. assert (seqZ 0 d = seqZ 0 (d - s) ++ seqZ (d - s) s) as ->.
  { replace d with ((d - s) + s) at 1 by lia. by rewrite seqZ_app by lia. }
  rewrite fmap_app. f_equal.
  - rewrite <- (Z.add_0_r s) at 2. rewrite <- fmap_add_seqZ, <- list_fmap_compose.
    apply list_fmap_ext. intros i k Hk. apply lookup_seqZ in Hk as [-> Hk]. cbn. f_equal.
    apply Z.mod_small. lia.
  - replace (seqZ (d - s) s) with (Z.add (d - s) <$> seqZ 0 s) by (by rewrite fmap_add_seqZ, Z.add_0_r).
    rewrite <- list_fmap_compose. apply list_fmap_ext. intros i k Hk. apply lookup_seqZ in Hk as [-> Hk]. cbn.
    f_equal. replace (s + (d - s + (0 + Z.of_nat i))) with (Z.of_nat i + 1 * d) by lia.
    rewrite Z.mod_add by lia. apply Z.mod_small. lia.
Qed.

(** What a seed makes of a table: the numbers of the multiplicative generator,
    then ten rounds without use. *)
Definition seeded (t x : Z) : list Z :=
  if t =? 0 then [i32 x] else
  let deg := nth (Z.to_nat t) degrees 0 in
  let sep := Z.to_nat (nth (Z.to_nat t) seps 0) in
  let l := seeds (Z.to_nat deg) (i32 x) in
  (numbers t (Z.to_nat (10 * deg)) (drop sep l ++ take sep l)).2.

Lemma srandom_run g x : good (reset g) -> exists g',
  srandom x g = Ok g' /\ contents g' = seeded (rand_type g) x /\ good g' /\ same_table g g'.
Proof.
  intros Hg. unfold srandom, seeded. change TYPE_0 with 0.
  destruct (good_word (reset g) 0 Hg ltac:(unfold size; lia)) as [Hw _]. rewrite Z.add_0_r in Hw.
  change (longs (reset g)) with (longs g) in Hw. change (state (reset g)) with (state g) in Hw.
  rewrite (store_run _ _ _ _ Hw). cbn [mbind cres_bind]. set (g1 := g <| longs := _ |>).
  assert (good (reset g1)) as Hg1.
  { pose proof (good_store (reset g) 0 (i32 x) Hg) as H. change (state (reset g)) with (state g) in H.
    rewrite Z.add_0_r in H. apply H; [unfold size; lia|apply is_long_i32]. }
  assert (same_table g g1) as Hs1.
  { repeat split. intros p Hp. apply lookup_insert_ne. unfold size in Hp. lia. }
  assert (word g1 0 = i32 x) as Hw0 by (unfold word, g1, upd; cbn; by rewrite Z.add_0_r, lookup_insert_eq).
  change (rand_type g1) with (rand_type g). destruct (Z.eqb_spec (rand_type g) 0) as [H0|H0].
  - exists g1. split; [done|]. split; [|split; [|done]].
    + unfold contents. change (rand_type g1) with (rand_type g). by rewrite H0, Hw0.
    + destruct Hg1. by split.
  - destruct (good_deg (reset g) Hg H0) as (Hs & Hd & Hsize). change (rand_sep (reset g)) with (rand_sep g) in *.
    change (rand_deg (reset g)) with (rand_deg g) in *. change (size (reset g)) with (size g) in *.
    change (rand_deg g1) with (rand_deg g).
    destruct (seed_loop_run (Z.to_nat (rand_deg g - 1)) 1 g1 Hg1) as (l & -> & Hg2 & Hframe & Hfirst & Hseeds);
      [lia|change (size g1) with (size g); lia|]. cbn [mbind cres_bind].
    set (g2 := g1 <| longs := l |>) in *. fold (reset g2). change (rand_deg g2) with (rand_deg g).
    destruct (randoms_run (Z.to_nat (10 * rand_deg g)) (reset g2) Hg2) as (g3 & -> & Hc & Hg3 & Hs3).
    cbn [mbind cres_bind snd]. exists g3. split; [done|]. split; [|split; [done|]].
    + change (rand_type (reset g2)) with (rand_type g) in Hc.
      pose proof (g_deg _ Hg) as Hdeg. pose proof (g_sep _ Hg) as Hsep.
      change (rand_deg (reset g)) with (rand_deg g) in Hdeg. change (rand_sep (reset g)) with (rand_sep g) in Hsep.
      change (rand_type (reset g)) with (rand_type g) in *. rewrite <- Hdeg, <- Hsep, Hc. f_equal. f_equal.
      unfold contents. change (rand_type (reset g2)) with (rand_type g).
      rewrite (proj2 (Z.eqb_neq _ _) H0). change (rand_deg (reset g2)) with (rand_deg g).
      change (fptr (reset g2) - state (reset g2)) with (state g + rand_sep g - state g).
      rewrite Z.add_simpl_l, rotate by lia. change (1 - 1) with 0 in Hseeds. rewrite Hw0 in Hseeds.
      replace (Z.of_nat (Z.to_nat (rand_deg g - 1)) + 1) with (rand_deg g) in Hseeds by lia.
      replace (S (Z.to_nat (rand_deg g - 1))) with (Z.to_nat (rand_deg g)) in Hseeds by lia.
      rewrite <- Hseeds. done.
    + apply (same_table_trans _ (reset g2)); [|done]. repeat split. intros p Hp.
      change (longs (reset g2)) with l. rewrite Hframe by (change (state g1) with (state g); lia).
      apply Hs1. done.
Qed.

(** ** Switching tables *)

Lemma mark_decodes g : good g ->
  Z.rem (mark g) MAX_TYPES = rand_type g /\
  (rand_type g <> 0 -> Z.quot (mark g) MAX_TYPES = rptr g - state g) /\ is_long (mark g).
Proof.
  intros Hg. pose proof (g_type _ Hg). unfold mark, is_long. change TYPE_0 with 0. change MAX_TYPES with 5.
  destruct (Z.eqb_spec (rand_type g) 0) as [H0|H0]; [rewrite H0; by vm_compute|].
  destruct (g_ptrs _ Hg H0) as [Hr _]. destruct (good_deg g Hg H0) as (_ & Hd & _).
  rewrite Z.rem_mod_nonneg, Z.quot_div_nonneg by lia.
  rewrite (Z.add_comm _ (rand_type g)), Z.mul_comm, Z.mod_add, Z.div_add by lia.
  rewrite Z.mod_small, Z.div_small by lia. lia.
Qed.

(** The bytes of the new table suffice for its type. *)
Lemma type_fits n : BREAK_0 <= n ->
  0 <= type_of_size n <= 4 /\ 4 * (1 + Z.max 1 (nth (Z.to_nat (type_of_size n)) degrees 0)) <= n.
Proof.
  unfold type_of_size, BREAK_0, BREAK_1, BREAK_2, BREAK_3, BREAK_4. intros Hn.
  repeat (match goal with |- context [?a <? ?b] => destruct (Z.ltb_spec a b) end); cbv [nth degrees Z.to_nat Pos.to_nat Pos.iter_op Nat.add]; lia.
Qed.

Lemma initstate_run seed arr n g :
  good g -> BREAK_0 <= n ->
  (forall i, 0 <= i < n / 4 -> exists v, longs g !! (arr + i) = Some v /\ is_long v) ->
  (forall i, 0 <= i < n / 4 -> ~ (state g - 1 <= arr + i < state g + size g)) ->
  exists g', initstate seed arr n g = Ok (Some (state g - 1), g') /\ good g' /\
    rand_type g' = type_of_size n /\ contents g' = seeded (type_of_size n) seed /\ state g' = arr + 1 /\
    size g' + 1 <= n / 4 /\ longs g' !! (state g - 1) = Some (mark g) /\
    (forall i, 0 <= i < size g -> longs g' !! (state g + i) = longs g !! (state g + i)) /\
    forall p, p <> state g - 1 -> ~ (arr <= p < arr + 1 + size g') -> longs g' !! p = longs g !! p.
Proof.
  intros Hg Hn Hmap Hdis. destruct (type_fits n Hn) as [Ht Hfit].
  destruct (mark_decodes g Hg) as (_ & _ & Hml).
  destruct (good_word g (-1) Hg ltac:(unfold size; lia)) as [Hw _].
  unfold initstate. change (state g - 1) with (state g + -1). rewrite (store_run _ _ _ _ Hw).
  cbn [mbind cres_bind]. rewrite (proj2 (Z.ltb_ge n BREAK_0)) by done. cbv zeta.
  set (t := type_of_size n) in *. set (deg := nth (Z.to_nat t) degrees 0) in *.
  assert (1 + Z.max 1 deg <= n / 4) as Hfit4 by (apply Z.div_le_lower_bound; lia).
  set (g1 := g <| longs := _ |>). set (g2 := set_type t g1 <| state := arr + 1 |>).
  set (g3 := g2 <| end_ptr := state g2 + rand_deg g2 |>).
  assert (rand_deg g3 = deg) as Hdeg by done. assert (size g3 = Z.max 1 deg) as Hsize by (by unfold size; rewrite Hdeg).
  assert (good (reset g3)) as Hg3.
  { split; try done.
    - intros i Hi. change (size (reset g3)) with (size g3) in Hi. rewrite Hsize in Hi.
      change (longs (reset g3)) with (longs g1). change (state (reset g3)) with (arr + 1).
      destruct (Hmap (1 + i)) as (v & Hv & Hl); [lia|]. exists v. split; [|done].
      rewrite <- Z.add_assoc. unfold g1, upd. cbn. rewrite lookup_insert_ne; [done|].
      specialize (Hdis (1 + i) ltac:(lia)). unfold size in Hdis. lia.
    - intros H0. change (rand_type (reset g3)) with t in H0. pose proof (deg_sep t Ht H0) as [Hs _].
      change (rand_deg (reset g3)) with deg. change (rptr (reset g3) - state (reset g3)) with (arr + 1 - (arr + 1)).
      change (fptr (reset g3)) with (state g3 + rand_sep g3). change (state (reset g3)) with (state g3).
      change (rand_sep (reset g3)) with (rand_sep g3). change (rand_sep g3) with (nth (Z.to_nat t) seps 0).
      rewrite Z.sub_diag, Z.add_simpl_l. split; [lia|]. symmetry. apply Z.mod_small. lia. }
  change (srandom seed ?x) with (srandom seed g3).
  destruct (srandom_run g3 seed Hg3) as (g4 & -> & Hc & Hg4 & Hs4). cbn [mbind cres_bind].
  destruct Hs4 as (Hst & Hty & Hdg & Hsp & Hen & Hfr).
  assert (state g4 = arr + 1) as Hst' by done. assert (size g4 = size g3) as Hsz by (unfold size; by rewrite Hdg).
  destruct (good_word g4 (-1) Hg4 ltac:(unfold size; lia)) as [Hw4 _]. rewrite Hst' in Hw4.
  replace (arr + 1 + -1) with arr in Hw4 by lia. rewrite (store_run _ _ _ _ Hw4). cbn [mbind cres_bind].
  destruct (mark_decodes g4 Hg4) as (_ & _ & Hml4).
  pose proof (good_store g4 (-1) (mark g4) Hg4 ltac:(unfold size; lia) Hml4) as Hg5.
  rewrite Hst' in Hg5. replace (arr + 1 + -1) with arr in Hg5 by lia.
  set (g5 := g4 <| longs := _ |>) in *.
  assert (forall p, state g - 1 <= p < state g + size g -> longs g5 !! p = longs g1 !! p) as Hold.
  { intros p Hp. assert (forall i, 0 <= i < n / 4 -> p <> arr + i) as Hne by (intros i Hi ->; by apply (Hdis i)).
    change (longs g5) with (<[arr := mark g4]> (longs g4)).
    rewrite lookup_insert_ne by (specialize (Hne 0); lia). change (longs g1) with (longs g3). apply Hfr.
    change (state g3) with (arr + 1). rewrite Hsize. intros Hin.
    apply (Hne (p - arr)); lia. }
  exists g5. split; [done|]. split; [done|]. split; [done|]. split; [|split; [done|split; [|split; [|split]]]].
  - change (rand_type g3) with t in Hc. rewrite <- Hc. unfold contents. change (rand_type g5) with (rand_type g4). change (rand_deg g5) with (rand_deg g4).
    change (fptr g5 - state g5) with (fptr g4 - state g4).
    assert (forall i, 0 <= i -> word g5 i = word g4 i) as Hwd.
    { intros i Hi. unfold word. change (longs g5) with (<[arr := mark g4]> (longs g4)).
      change (state g5) with (state g4). rewrite Hst', lookup_insert_ne by lia. done. }
    destruct (Z.eqb_spec (rand_type g4) 0) as [|H0]; [by rewrite Hwd by lia|].
    destruct (good_deg g4 Hg4 H0) as [Hs _]. apply list_fmap_ext. intros i k _. apply Hwd.
    apply Z.mod_pos_bound. lia.
  - change (size g5) with (size g4). lia.
  - rewrite Hold by (unfold size; lia). unfold g1, upd. cbn. by rewrite lookup_insert_eq.
  - intros i Hi. rewrite Hold by lia. unfold g1, upd. cbn. apply lookup_insert_ne. lia.
  - intros p Hp Hout. change (size g5) with (size g4) in Hout. change (longs g5) with (<[arr := mark g4]> (longs g4)). rewrite lookup_insert_ne by lia.
    rewrite Hfr by (change (state g3) with (arr + 1); rewrite Hsize; lia).
    change (longs g3) with (<[state g - 1 := mark g]> (longs g)). by apply lookup_insert_ne, not_eq_sym.
Qed.

Lemma setstate_run g g1 : good g -> good g1 ->
  longs g1 !! (state g - 1) = Some (mark g) ->
  (forall i, 0 <= i < size g -> longs g1 !! (state g + i) = longs g !! (state g + i)) ->
  ~ (state g - 1 <= state g1 - 1 < state g + size g) ->
  exists g', setstate (state g - 1) g1 = Ok (state g1 - 1, g') /\ good g' /\
    rand_type g' = rand_type g /\ contents g' = contents g /\ state g' = state g /\
    longs g' = <[state g1 - 1 := mark g1]> (longs g1).
Proof.
  intros Hg Hg1 Hmark Hwords Hdis. destruct (mark_decodes g Hg) as (Hrem & Hquot & Hml).
  destruct (mark_decodes g1 Hg1) as (_ & _ & Hml1). pose proof (g_type _ Hg) as Ht.
  destruct (good_word g1 (-1) Hg1 ltac:(unfold size; lia)) as [Hw _].
  change (state g1 + -1) with (state g1 - 1) in Hw.
  unfold setstate. rewrite (load_run _ _ _ Hmark). cbn [mbind cres_bind].
  rewrite (store_run _ _ _ _ Hw). cbn [mbind cres_bind]. cbv zeta. rewrite Hrem.
  rewrite (proj2 (Z.leb_le _ _)), (proj2 (Z.leb_le _ _)) by lia. cbn [andb].
  set (g2 := g1 <| longs := _ |>). set (g3 := set_type (rand_type g) g2 <| state := state g - 1 + 1 |>).
  change (rand_type ?x =? TYPE_0) with (rand_type g =? 0).
  assert (state g - 1 + 1 = state g) as Hback by lia.
  assert (state g3 = state g /\ rand_type g3 = rand_type g /\ rand_deg g3 = rand_deg g /\ rand_sep g3 = rand_sep g)
    as (Hs3 & Ht3 & Hd3 & Hp3).
  { split; [exact Hback|]. split; [done|]. split; [by rewrite (g_deg _ Hg)|by rewrite (g_sep _ Hg)]. }
  assert (forall i, 0 <= i < size g -> longs g3 !! (state g + i) = longs g !! (state g + i)) as Hl3.
  { intros i Hi. change (longs g3) with (<[state g1 - 1 := mark g1]> (longs g1)).
    rewrite lookup_insert_ne by lia. by apply Hwords. }
  assert (forall h, longs h = longs g3 -> state h = state g3 -> rand_type h = rand_type g3 ->
    rand_deg h = rand_deg g3 -> rand_sep h = rand_sep g3 -> end_ptr h = state g3 + rand_deg g3 ->
    (rand_type g <> 0 -> rptr h = rptr g /\ fptr h = fptr g) ->
    good h /\ rand_type h = rand_type g /\ contents h = contents g /\ state h = state g /\ longs h = longs g3) as Hall.
  { intros h El Es Et Ed Ep Ee Hptr. rewrite Hs3 in *. rewrite Ht3, Hd3, Hp3 in *.
    assert (forall i, 0 <= i < size g -> word h i = word g i) as Hwd.
    { intros i Hi. unfold word. by rewrite El, Es, Hl3. }
    split; [split|split; [done|split; [|done]]]; rewrite ?Et, ?Ed, ?Ep, ?Es; try apply Hg.
    - done.
    - intros i Hi. unfold size in Hi. rewrite Ed in Hi. fold (size g) in Hi. rewrite El.
      destruct (decide (i = -1)) as [->|Hi'].
      + exists (mark g). split; [|done]. change (longs g3) with (<[state g1 - 1 := mark g1]> (longs g1)).
        change (state g + -1) with (state g - 1). rewrite lookup_insert_ne by lia. done.
      + rewrite Hl3 by lia. by apply (g_words _ Hg).
    - intros H0. destruct (Hptr H0) as [-> ->]. by apply (g_ptrs _ Hg).
    - unfold contents. rewrite Et, Ed, Es. destruct (Z.eqb_spec (rand_type g) 0) as [|H0]; [by rewrite Hwd by (unfold size; lia)|].
      destruct (Hptr H0) as [_ ->]. destruct (good_deg g Hg H0) as (Hsp & _ & Hsz).
      apply list_fmap_ext. intros i k _. apply Hwd. rewrite Hsz. apply Z.mod_pos_bound. lia. }
  eexists. split; [reflexivity|]. apply Hall; try (by destruct (rand_type g =? 0)).
  intros H0. rewrite (proj2 (Z.eqb_neq _ _) H0), Hquot by done. destruct (g_ptrs _ Hg H0) as [Hr Hf].
  destruct (good_deg g Hg H0) as (Hsp & _ & _). pose proof (g_deg _ Hg) as Hd. pose proof (g_sep _ Hg) as Hp.
  split; [change (state g - 1 + 1 + (rptr g - state g) = rptr g); lia|].
  change (state g - 1 + 1 + Z.rem (rptr g - state g + nth (Z.to_nat (rand_type g)) seps 0)
    (nth (Z.to_nat (rand_type g)) degrees 0) = fptr g).
  rewrite <- Hd, <- Hp, Z.rem_mod_nonneg by lia. lia.
Qed.

(** ** Programs with several generators *)

(** The calls of a program; tables are known by their addresses. *)
Inductive call :=
  | c_random | c_srandom (seed : Z) | c_initstate (seed b n : Z) | c_setstate (b : Z).

(** A call with the value that it returns. *)
Definition run_call (c : call) (g : rng) : cres (list Z * rng) :=
  match c with
  | c_random => r ← random g; Ok ([r.1], r.2)
  | c_srandom x => g ← srandom x g; Ok ([], g)
  | c_initstate x b n => r ← initstate x b n g; Ok (option_list r.1, r.2)
  | c_setstate b => r ← setstate b g; Ok ([r.1], r.2)
  end.

Fixpoint run_calls (l : list call) (g : rng) : cres (list Z * rng) :=
  match l with
  | [] => Ok ([], g)
  | c :: l' => r ← run_call c g; t ← run_calls l' r.2; Ok (r.1 ++ t.1, t.2)
  end.

(** What the program sees: a sequence behind each table, one of them in use. *)
Record generators := { current : Z; gens : gmap Z (Z * list Z) }.

Section several.
(** The tables of the program, with their lengths in words. *)
Context (room : gmap Z Z).
Context (room_apart : forall b c k n i j, room !! b = Some k -> room !! c = Some n -> b <> c ->
  0 <= i < k -> 0 <= j < n -> b + i <> c + j).

(** A table is filled or switched to only while another one is in use. *)
Definition spec_call (c : call) (a : generators) : option (list Z * generators) :=
  let cur := current a in
  h ← gens a !! cur;
  match c with
  | c_random => let r := next h.1 h.2 in
      Some ([r.1], {| current := cur; gens := <[cur := (h.1, r.2)]> (gens a) |})
  | c_srandom x => Some ([], {| current := cur; gens := <[cur := (h.1, seeded h.1 x)]> (gens a) |})
  | c_initstate x b n => k ← room !! b;
      if bool_decide (b <> cur) && (BREAK_0 <=? n) && (n / 4 <=? k) then
        let t := type_of_size n in
        Some ([cur], {| current := b; gens := <[b := (t, seeded t x)]> (gens a) |})
      else None
  | c_setstate b => _ ← gens a !! b;
      if bool_decide (b <> cur) then Some ([cur], {| current := b; gens := gens a |}) else None
  end.

Fixpoint spec_calls (l : list call) (a : generators) : option (list Z * generators) :=
  match l with
  | [] => Some ([], a)
  | c :: l' => r ← spec_call c a; t ← spec_calls l' r.2; Some (r.1 ++ t.1, t.2)
  end.

(** The words of a table that is not in use, and the generator they came from. *)
Definition saved (m : gmap Z Z) (b : Z) (h : Z * list Z) : Prop :=
  exists g0 k, good g0 /\ state g0 = b + 1 /\ h = (rand_type g0, contents g0) /\
    room !! b = Some k /\ size g0 + 1 <= k /\ m !! b = Some (mark g0) /\
    forall i, 0 <= i < size g0 -> m !! (state g0 + i) = longs g0 !! (state g0 + i).

Record related (g : rng) (a : generators) : Prop := {
  r_good : good g;
  r_state : state g = current a + 1;
  r_now : gens a !! current a = Some (rand_type g, contents g);
  r_fits : exists k, room !! current a = Some k /\ size g + 1 <= k;
  r_rooms : forall b k i, room !! b = Some k -> 0 <= i < k -> exists v, longs g !! (b + i) = Some v /\ is_long v;
  r_saved : forall b h, gens a !! b = Some h -> b <> current a -> saved (longs g) b h
}.

Lemma saved_frame (m m' : gmap Z Z) b h : saved m b h ->
  (forall k i, room !! b = Some k -> 0 <= i < k -> m' !! (b + i) = m !! (b + i)) -> saved m' b h.
Proof.
  intros (g0 & k & Hg & Hs & Hh & Hk & Hfit & Hm & Hw) Hsame. unfold size in Hfit.
  exists g0, k. repeat (split; [done|]). split; [|intros i Hi; rewrite <- Hw by done; rewrite Hs].
  - rewrite <- Hm. rewrite <- (Z.add_0_r b). apply (Hsame k); [done|lia].
  - rewrite <- Z.add_assoc. apply (Hsame k); [done|]. unfold size in Hi. lia.
Qed.

(** The table in use lies in its room, apart from the other ones. *)
Lemma current_apart g a b k i : related g a -> room !! b = Some k -> 0 <= i < k -> b <> current a ->
  ~ (state g - 1 <= b + i < state g + size g).
Proof.
  intros Hr Hb Hi Hne Hin. destruct (r_fits _ _ Hr) as (n & Hn & Hfit). rewrite (r_state _ _ Hr) in Hin.
  apply (room_apart b (current a) k n i (b + i - current a) Hb Hn Hne Hi); lia.
Qed.

Lemma good_reset g : good g -> good (reset g).
Proof.
  intros [Ht Hd Hs He Hw Hp]. split; try done. intros H0. change (rand_type (reset g)) with (rand_type g) in H0.
  pose proof (deg_sep _ Ht H0) as [Hsp _]. rewrite <- Hd, <- Hs in Hsp. unfold reset. cbn.
  rewrite Z.sub_diag, Z.add_simpl_l, Z.add_0_l. split; [lia|]. symmetry. apply Z.mod_small. lia.
Qed.

(** A step within the table in use *)
Lemma related_same g a g' : related g a -> good g' -> same_table g g' ->
  related g' {| current := current a; gens := <[current a := (rand_type g', contents g')]> (gens a) |}.
Proof.
  intros Hr Hg' (Hs & Ht & Hd & _ & _ & Hfr). pose proof (r_good _ _ Hr) as Hg.
  assert (size g' = size g) as Hz by (unfold size; by rewrite Hd).
  split; cbn [current gens].
  - done.
  - rewrite Hs. apply Hr.
  - apply lookup_insert_eq.
  - rewrite Hz. apply Hr.
  - intros b k i Hb Hi. destruct (decide (state g <= b + i < state g + size g)) as [Hin|Hout].
    + destruct (g_words _ Hg' (b + i - state g)) as (v & Hv & Hl); [lia|]. exists v. split; [|done].
      rewrite <- Hv, Hs. f_equal. lia.
    + rewrite Hfr by done. by apply (r_rooms _ _ Hr b k).
  - intros b h Hb Hne. rewrite lookup_insert_ne in Hb by done.
    apply (saved_frame (longs g)); [by apply (r_saved _ _ Hr)|]. intros k i Hk Hi. apply Hfr.
    pose proof (current_apart g a b k i Hr Hk Hi Hne). lia.
Qed.

Lemma related_initstate g a x b n k : related g a -> b <> current a -> BREAK_0 <= n ->
  room !! b = Some k -> n / 4 <= k -> exists g',
  initstate x b n g = Ok (Some (current a), g') /\
  related g' {| current := b; gens := <[b := (type_of_size n, seeded (type_of_size n) x)]> (gens a) |}.
Proof.
  intros Hr Hne Hn Hk Hfit. pose proof (r_good _ _ Hr) as Hg.
  destruct (r_fits _ _ Hr) as (kc & Hkc & Hfc). pose proof (r_state _ _ Hr) as Hst.
  destruct (initstate_run x b n g Hg Hn) as (g' & Hi & Hg' & Ht & Hc & Hs & Hz & Hm & Hw & Hfr).
  { intros i Hi. apply (r_rooms _ _ Hr b k); [done|lia]. }
  { intros i Hi. apply (current_apart g a b k i Hr Hk); [lia|done]. }
  replace (state g - 1) with (current a) in * by lia.
  exists g'. split; [done|]. split; cbn [current gens].
  - done.
  - done.
  - rewrite lookup_insert_eq. by rewrite Ht, Hc.
  - exists k. split; [done|lia].
  - intros c kc' i Hc' Hi'. destruct (decide (b <= c + i < b + 1 + size g')) as [Hin|Hout].
    + destruct (g_words _ Hg' (c + i - state g')) as (v & Hv & Hl); [lia|]. exists v. split; [|done].
      rewrite <- Hv. f_equal. lia.
    + destruct (decide (c + i = current a)) as [E|E].
      * exists (mark g). rewrite E. split; [done|]. by apply mark_decodes.
      * rewrite Hfr by done. by apply (r_rooms _ _ Hr c kc').
  - intros c h Hc' Hne'. rewrite lookup_insert_ne in Hc' by (by apply not_eq_sym).
    destruct (decide (c = current a)) as [->|Hcur].
    + rewrite (r_now _ _ Hr) in Hc'. injection Hc' as <-. exists g, kc. repeat (split; [done|]). exact Hw.
    + apply (saved_frame (longs g)); [by apply (r_saved _ _ Hr)|]. intros k' i Hk' Hi'. apply Hfr.
      * pose proof (current_apart g a c k' i Hr Hk' Hi' Hcur) as Ho. unfold size in Ho. lia.
      * intros Hin. apply (room_apart c b k' k i (c + i - b) Hk' Hk Hne' Hi'); lia.
Qed.

Lemma related_setstate g a b h : related g a -> b <> current a -> gens a !! b = Some h -> exists g',
  setstate b g = Ok (current a, g') /\ related g' {| current := b; gens := gens a |}.
Proof.
  intros Hr Hne Hb. pose proof (r_good _ _ Hr) as Hg. pose proof (r_state _ _ Hr) as Hst.
  destruct (r_fits _ _ Hr) as (kc & Hkc & Hfc).
  destruct (r_saved _ _ Hr b h Hb Hne) as (g0 & k & Hg0 & Hs0 & -> & Hk & Hfit & Hm & Hw).
  destruct (setstate_run g0 g Hg0 Hg) as (g' & Hset & Hg' & Ht & Hc & Hs & Hl).
  { rewrite Hs0, Z.add_simpl_r. done. }
  { done. }
  { rewrite Hs0, Hst. intros Hin. unfold size in Hfc. apply (room_apart b (current a) k kc (current a - b) 0 Hk Hkc Hne); lia. }
  rewrite Hs0, Z.add_simpl_r in Hset. replace (state g - 1) with (current a) in * by lia.
  assert (size g' = size g0) as Hz.
  { unfold size. by rewrite (g_deg _ Hg'), (g_deg _ Hg0), Ht. }
  exists g'. split; [done|]. split; cbn [current gens].
  - done.
  - by rewrite Hs.
  - by rewrite Ht, Hc.
  - exists k. by rewrite Hz.
  - intros c k' i Hc' Hi. rewrite Hl. destruct (decide (c + i = current a)) as [E|E].
    + rewrite E, lookup_insert_eq. exists (mark g). split; [done|]. by apply mark_decodes.
    + rewrite lookup_insert_ne by (by apply not_eq_sym). by apply (r_rooms _ _ Hr c k').
  - intros c h Hc' Hne'. destruct (decide (c = current a)) as [->|Hcur].
    + rewrite (r_now _ _ Hr) in Hc'. injection Hc' as <-. exists g, kc. repeat (split; [done|]). split.
      * rewrite Hl. apply lookup_insert_eq.
      * intros i Hi. rewrite Hl, lookup_insert_ne by lia. done.
    + apply (saved_frame (longs g)); [by apply (r_saved _ _ Hr)|]. intros k' i Hk' Hi. rewrite Hl.
      apply lookup_insert_ne. pose proof (current_apart g a c k' i Hr Hk' Hi Hcur) as Ho. unfold size in Ho. lia.
Qed.

Lemma call_simulated c g a out a' : related g a -> spec_call c a = Some (out, a') ->
  exists g', run_call c g = Ok (out, g') /\ related g' a'.
Proof.
  intros Hr. pose proof (r_good _ _ Hr) as Hg. unfold spec_call. rewrite (r_now _ _ Hr). cbn [mbind option_bind].
  destruct c as [|x|x b n|b]; cbn [run_call].
  - intros [= <- <-]. destruct (random_step g Hg) as (g' & -> & Hc & Hg' & Hsame). exists g'. split; [done|].
    pose proof Hsame as (_ & Ht & _). cbn [fst snd]. rewrite <- Hc, <- Ht. by apply (related_same g).
  - intros [= <- <-]. destruct (srandom_run g x (good_reset _ Hg)) as (g' & -> & Hc & Hg' & Hsame). exists g'. split; [done|].
    pose proof Hsame as (_ & Ht & _). cbn [fst snd]. rewrite <- Hc, <- Ht. by apply (related_same g).
  - destruct (room !! b) as [k|] eqn:Hk; [|done]. cbn [mbind option_bind].
    case_bool_decide as Hne; [|done]. destruct (Z.leb_spec BREAK_0 n) as [Hn|]; [|done].
    destruct (Z.leb_spec (n / 4) k) as [Hfit|]; [|done]. cbn [andb]. intros [= <- <-].
    destruct (related_initstate g a x b n k Hr Hne Hn Hk Hfit) as (g' & -> & Hr'). by exists g'.
  - destruct (gens a !! b) as [h|] eqn:Hb; [|done]. cbn [mbind option_bind].
    case_bool_decide as Hne; [|done]. intros [= <- <-].
    destruct (related_setstate g a b h Hr Hne Hb) as (g' & -> & Hr'). by exists g'.
Qed.

Lemma calls_simulated l g a out a' : related g a -> spec_calls l a = Some (out, a') ->
  exists g', run_calls l g = Ok (out, g') /\ related g' a'.
Proof.
  revert g a out a'. induction l as [|c l IH]; intros g a out a' Hr; cbn [spec_calls run_calls].
  - intros [= <- <-]. by exists g.
  - destruct (spec_call c a) as [[o a1]|] eqn:Hc; [|done]. cbn [mbind option_bind fst snd].
    destruct (spec_calls l a1) as [[o' a2]|] eqn:Hl; [|done]. cbn [mbind option_bind fst snd]. intros [= <- <-].
    destruct (call_simulated c g a o a1 Hr Hc) as (g1 & -> & Hr1). cbn [mbind cres_bind fst snd].
    destruct (IH g1 a1 o' a2 Hr1 Hl) as (g2 & -> & Hr2). by exists g2.
Qed.
End several.

(** ** The properties *)

(** [good_rand] multiplies by 7^5 modulo 2^31 - 1 without leaving the range
    of a [long]: for every seed below the prime the result is the product, and
    is again such a seed. *)
Lemma good_rand_minimal_standard x :
  0 < x < 2 ^ 31 - 1 -> good_rand x = Ok ((16807 * x) mod (2 ^ 31 - 1)) /\ 0 < (16807 * x) mod (2 ^ 31 - 1) < 2 ^ 31 - 1.
Proof.
  intros Hx. rewrite good_rand_run by (unfold is_long; lia).
  pose proof (Z.mod_pos_bound (16807 * x) (2 ^ 31 - 1) ltac:(lia)) as Hb.
  assert ((16807 * x) mod (2 ^ 31 - 1) <> 0) as Hne.
  { intros Hz. assert ((2 ^ 31 - 1 | x)) as Hdiv.
    { apply (Z.gauss _ 16807); [by apply Z.mod_divide; [lia|]|by vm_compute]. }
    apply Z.divide_pos_le in Hdiv; lia. }
  unfold park_miller. rewrite (proj2 (Z.eqb_neq _ _) Hne). split; [done|lia].
Qed.

(** C34: programs with several generators.  Take tables in memory that do not
    overlap, and any calls of [random], [srandom], [initstate] with tables of 8
    bytes or more and [setstate] with tables that were in use before, where a
    table is filled or switched to only while another one is in use.  All the
    calls succeed, and they return what independent sequences behind the tables
    give: [initstate] and [setstate] return the table in use before, and
    [random] the next word, without its lowest bit, of the sequence
    x(i) = x(i - deg) + x(i - sep) of the table in use, which goes on where it
    was left (for the smallest tables the next number of the multiplicative
    generator).  The relation between the two holds again afterwards. *)
Theorem generators_refine (room : gmap Z Z) l g a out a' :
  (forall b c k n i j, room !! b = Some k -> room !! c = Some n -> b <> c ->
    0 <= i < k -> 0 <= j < n -> b + i <> c + j) ->
  related room g a -> spec_calls room l a = Some (out, a') ->
  exists g', run_calls l g = Ok (out, g') /\ related room g' a'.
Proof. intros Hroom. by apply calls_simulated. Qed.

(** ** The generator at start *)

(** The words from [a] on are [long]s. *)
Definition mapped (l : gmap Z Z) (a n : Z) : bool :=
  forallb (fun k => match l !! (a + k) with
    | Some v => (- 2 ^ 31 <=? v) && (v <? 2 ^ 31) | None => false end) (seqZ 0 n).

Lemma mapped_word l a n i : mapped l a n = true -> 0 <= i < n ->
  exists v, l !! (a + i) = Some v /\ is_long v.
Proof.
  unfold mapped. rewrite forallb_forall. intros H Hi. specialize (H i).
  rewrite <- list_elem_of_In, elem_of_seqZ in H. specialize (H ltac:(lia)).
  destruct (l !! (a + i)) as [v|]; [|done]. exists v. unfold is_long. split; [done|lia].
Qed.

Lemma initial_table_good l : mapped l 100 32 = true -> good ((initial 100) <| longs := l |>).
Proof.
  intros Hl. split; [split; discriminate|reflexivity|reflexivity|reflexivity| |].
  - intros i Hi. change (size _) with 31 in Hi. destruct (mapped_word l 100 32 (i + 1) Hl ltac:(lia)) as (v & Hv & Hr).
    exists v. split; [|done]. rewrite <- Hv. unfold upd. cbn. f_equal. lia.
  - intros _. split; [split; [discriminate|reflexivity]|reflexivity].
Qed.

Lemma initial_good : good (initial 100).
Proof. apply (initial_table_good (longs (initial 100))). vm_compute. reflexivity. Qed.

(** The table that the generator starts with is the one that its comment
    says, as if from a call with the seed 1: seeding it so changes nothing. *)
Lemma randtbl_is_seeded : srandom 1 (initial 100) = Ok (initial 100).
Proof.
  assert (match srandom 1 (initial 100) with
    | Ok g => bool_decide (longs g = longs (initial 100)) && (fptr g =? 104) && (rptr g =? 101) &&
        (state g =? 101) && (rand_type g =? 3) && (rand_deg g =? 31) && (rand_sep g =? 3) && (end_ptr g =? 132)
    | Fault _ => false end = true) as H by (vm_compute; reflexivity).
  destruct (srandom 1 (initial 100)) as [[l f r s t d p e]|]; [|done]. cbn in H.
  repeat (apply andb_prop in H as [H ?Heq]). apply bool_decide_eq_true in H. rewrite !Z.eqb_eq in *.
  subst. reflexivity.
Qed.

(** A second table of 32 bytes, on the words 200 to 207. *)
Definition two_tables : rng :=
  (initial 100) <| longs := list_to_map ((fun p => (p, 0)) <$> seqZ 200 8) ∪ longs (initial 100) |>.

Definition two_rooms : gmap Z Z := <[200 := 8]> {[100 := 32]}.
Definition first_table : generators :=
  {| current := 100; gens := {[100 := (3, contents two_tables)]} |}.

Lemma two_rooms_inv b k : two_rooms !! b = Some k -> (b = 100 /\ k = 32) \/ (b = 200 /\ k = 8).
Proof.
  unfold two_rooms. rewrite lookup_insert_Some, lookup_singleton_Some. intros [[<- <-]|(_ & <- & <-)]; tauto.
Qed.

Lemma two_rooms_apart b c k n i j : two_rooms !! b = Some k -> two_rooms !! c = Some n -> b <> c ->
  0 <= i < k -> 0 <= j < n -> b + i <> c + j.
Proof.
  intros Hb Hc Hne Hi Hj.
  destruct (two_rooms_inv b k Hb) as [[-> ->]|[-> ->]], (two_rooms_inv c n Hc) as [[-> ->]|[-> ->]]; lia.
Qed.

Lemma two_tables_related : related two_rooms two_tables first_table.
Proof.
  assert (mapped (longs two_tables) 100 32 = true) as H1 by (vm_compute; reflexivity).
  assert (mapped (longs two_tables) 200 8 = true) as H2 by (vm_compute; reflexivity).
  split.
  - apply (initial_table_good _ H1).
  - reflexivity.
  - reflexivity.
  - exists 32. split; [reflexivity|]. change (size two_tables) with 31. lia.
  - intros b k i Hb Hi. destruct (two_rooms_inv b k Hb) as [[-> ->]|[-> ->]].
    + exact (mapped_word _ _ _ i H1 Hi).
    + exact (mapped_word _ _ _ i H2 Hi).
  - intros b h Hb Hne. cbn [first_table gens current] in *. rewrite lookup_singleton_ne in Hb by congruence. discriminate.
Qed.

(** Two numbers of the first sequence, two of another one with a table of 32
    bytes, and the next one of the first. *)
Lemma generators_refine_witness : exists g,
  run_calls [c_random; c_random; c_initstate 5 200 32; c_random; c_random; c_setstate 100; c_random] two_tables
    = Ok ([1804289383; 846930886; 100; 526245433; 2030581801; 200; 1681692777], g).
Proof.
  set (l := [c_random; _; _; _; _; _; _]).
  assert ((spec_calls two_rooms l first_table) ≫= (fun r => Some r.1) =
    Some [1804289383; 846930886; 100; 526245433; 2030581801; 200; 1681692777]) as Hs by (vm_compute; reflexivity).
  destruct (spec_calls two_rooms l first_table) as [[out a']|] eqn:Hrun; [|discriminate Hs].
  injection Hs as ->.
  destruct (generators_refine two_rooms l two_tables first_table _ a' two_rooms_apart two_tables_related Hrun)
    as (g & Hg & _).
  exists g. exact Hg.
Defined.

(** Switching to the table in use does not lead back: the words stay where they
    are and the pointers go to where they were when the table was left last. *)
Lemma setstate_same_repeats :
  match randoms 3 (initial 100) with
  | Ok r => match setstate 100 r.2 with
    | Ok t => match randoms 1 t.2, randoms 4 (initial 100) with
      | Ok a, Ok b => negb (bool_decide (a.1 = drop 3 b.1)) | _, _ => false end
    | _ => false end
  | _ => false end = true.
Proof. vm_compute. reflexivity. Qed.

(** For a corrupted table the message says that nothing was changed, but the
    generator goes on with that table. *)
Lemma setstate_corrupted :
  match setstate 200 ((initial 100) <| longs := <[200 := -1]> (longs (initial 100)) |>) with
  | Ok r => (state r.2 =? 201) && (rptr r.2 =? 201) | _ => false end = true.
Proof. vm_compute. reflexivity. Qed.

(** The seed 0 makes every number of the smallest generator the same. *)
Lemma good_rand_zero : good_rand 0 = Ok 0x7fffffff /\ good_rand 0x7fffffff = Ok 0x7fffffff.
Proof. by vm_compute. Qed.
