(* ===== verification/BinStrat.v ===== *)
(** * Binary strategy information: [binstrat.c], [binstrat.h]

    The conversion of a brick description in strategy text to linked records
    in a caller-provided buffer, and back.  The records live in
    byte-addressed memory, laid out as the compiler does on a 64-bit machine;
    the text is a read-only string and its pointers are suffixes.

    A conversion function either fails ([None], its FALSE), leaving the
    caller's variables as they were but the memory as far as it got, or
    returns the new values of the variables. *)

From S2P Require Import Prelude CLib Memory StratScan AthStdio.
Open Scope Z_scope.

(** ** Converters

    A computation on memory that can fail. *)

Definition converter (A : Type) : Type := mem -> cres (option A * mem).

#[export] Instance converter_ret : MRet converter := fun A a m => Ok (Some a, m).
#[export] Instance converter_bind : MBind converter := fun A B k p m =>
  match p m with
  | Ok (Some a, m') => k a m'
  | Ok (None, m') => Ok (None, m')
  | Fault f => Fault f
  end.

Definition done_with {A} (a : A) : converter A := fun m => Ok (Some a, m).
Definition return_FALSE {A} : converter A := fun m => Ok (None, m).
(** A pure step, one that can return FALSE, and a condition [if(p(...))]. *)
Definition compute {A} (r : cres A) : converter A := fun m =>
  match r with Ok a => Ok (Some a, m) | Fault f => Fault f end.
Definition require {A} (r : cres (option A)) : converter A := fun m =>
  match r with Ok o => Ok (o, m) | Fault f => Fault f end.
Definition attempt {A} (p : converter A) : converter (option A) := fun m =>
  match p m with Ok (o, m') => Ok (Some o, m') | Fault f => Fault f end.
Definition storing (f : mem -> cres mem) : converter unit := fun m =>
  match f m with Ok m' => Ok (Some tt, m') | Fault f => Fault f end.
Definition loading {A} (f : mem -> cres A) : converter A := fun m =>
  match f m with Ok a => Ok (Some a, m) | Fault f => Fault f end.

(** ** Actions and flags *)

Definition STRAT_READ : Z := 0.
Definition STRAT_CREATE : Z := 1.
Definition STRAT_DESTROY : Z := 2.
Definition STRAT_INIT : Z := 3.
Definition STRAT_SHUTDOWN : Z := 4.
Definition STRAT_REINIT : Z := 5.

Definition MASK_BRICK_ACTIVE : Z := 0x08.
Definition MASK_CONN_TYPE : Z := 0x08.
Definition MASK_CONN_ACTIVE : Z := 0x10.

Definition GET_BRICK_ACTION (flags : Z) : Z := Z.land flags 0x07.
Definition IS_BRICK_ACTIVE (flags : Z) : bool := negb (Z.land flags 0x08 =? 0).
Definition GET_CONN_ACTION (flags : Z) : Z := Z.land flags 0x07.
Definition GET_CONN_TARGET_ACTION (flags : Z) : Z := Z.land (Z.shiftr flags 4) 0x07.
Definition IS_CONN_INPUT (flags : Z) : bool := Z.land flags 0x08 =? 0.
Definition IS_CONN_ACTIVE (flags : Z) : bool := negb (Z.land flags 0x10 =? 0).

(** ** Record layouts *)

Definition sizeof_attr_rec : Z := 24.        (* next_attr 0, name 8, value 16 *)
Definition sizeof_conn_target_rec : Z := 24. (* next_target 0, brick_addr 8, name 16 *)
Definition sizeof_conn_rec : Z := 40.        (* next_conn 0, flags 8, name 16, attr 24, target 32 *)
Definition sizeof_brick_rec : Z := 32.       (* flags 0, name 8, attr 16, conn 24 *)

(** ** Scanning text *)

(** [table[(int)c]]: a negative [char] is an index before the table. *)
Definition tbl (table : Z -> bool) (c : Z) : cres bool :=
  if 0 <=? c then Ok (table c) else Fault OutOfBounds.

(** [while(table[( int)*text]) text++] *)
Fixpoint skip_class (table : Z -> bool) (text : text) : cres (list Z) :=
  match text with
  | [] => Fault OutOfBounds
  | c :: text' => b ← tbl table c; if b : bool then skip_class table text' else Ok text
  end.

Definition skip_whitespace (text : text) : cres (list Z) := skip_class ws_table text.

Definition skip_end_of_line (text : text) : cres (option (list Z)) :=
  text ← skip_class bl_table text;
  c ← deref text;
  Ok (if c =? NL then Some text else None).

Fixpoint skip_rest_of_line (text : text) : cres (list Z) :=
  match text with
  | [] => Fault OutOfBounds
  | c :: text' =>
    if c =? NUL then Ok text else if c =? NL then Ok text' else skip_rest_of_line text'
  end.

Definition actionsub (c : Z) : Z :=
  if c =? ch "=" then ch "=" - STRAT_READ
  else if c =? ch ":" then ch ":" - STRAT_CREATE
  else if c =? ch "/" then ch "/" - STRAT_DESTROY
  else if c =? ch "+" then ch "+" - STRAT_INIT
  else if c =? ch "-" then ch "-" - STRAT_SHUTDOWN
  else if c =? ch "^" then ch "^" - STRAT_REINIT
  else 0.

Definition convert_op (text : text) : cres (option (Z * list Z)) :=
  c ← deref text;
  if c <? 0 then Fault OutOfBounds else
  if actionsub c =? 0 then Ok None else
  let a := c - actionsub c in
  let text := drop 1 text in
  d ← deref text;
  if d =? ch "=" then Ok (Some (a, drop 1 text))
  else if negb (a =? STRAT_READ) then Ok None
  else Ok (Some (a, text)).

Fixpoint skip_str (text skip : list Z) : cres (option (list Z)) :=
  match skip with
  | [] => Fault OutOfBounds
  | s :: skip' =>
    if s =? NUL then Ok (Some text)
    else if s =? SP then text ← skip_whitespace text; skip_str text skip'
    else
      c ← deref text;
      if s =? c then skip_str (drop 1 text) skip' else Ok None
  end.

Fixpoint skip_match (text match_str : list Z) : cres (list Z * list Z) :=
  match text with
  | [] => Fault OutOfBounds
  | c :: text' =>
    b ← tbl id_table c;
    d ← deref match_str;
    if b && (c =? d) then skip_match text' (drop 1 match_str) else Ok (text, match_str)
  end.

Definition skip_word (text : text) (match_str : option (list Z)) : cres (option (list Z)) :=
  match match_str with
  | Some w =>
    r ← skip_match text w;
    c ← deref r.1;
    b ← tbl id_table c;
    d ← deref r.2;
    Ok (if b || negb (d =? NUL) then None else Some r.1)
  | None =>
    c ← deref text;
    b ← tbl id_table c;
    if b : bool then text ← skip_class id_table text; Ok (Some text) else Ok None
  end.

(** ** Converting words and strings

    The variables [text], [bin] and [bin_size] of the caller. *)

Definition cursor : Type := list Z * Z * Z.

(** [while(id_table[*text]) { if(bin_size-- == 0) return FALSE; *bin++ = *text++; }] *)
Fixpoint word_loop (text : list Z) (bin bin_size : Z) : converter cursor :=
  match text with
  | [] => compute (Fault OutOfBounds)
  | c :: text' =>
    b ← compute (tbl id_table c);
    if b : bool then
      if bin_size =? 0 then return_FALSE else
      _ ← storing (fun m => store8 m bin c);
      word_loop text' (bin + 1) (bin_size - 1)
    else done_with (text, bin, bin_size)
  end.

Definition convert_word (text : list Z) (bin bin_size : Z) : converter cursor :=
  c ← compute (deref text);
  b ← compute (tbl id_table c);
  if negb b then return_FALSE else
  r ← word_loop text bin bin_size;
  let '(text, bin, bin_size) := r in
  if bin_size =? 0 then return_FALSE else
  _ ← storing (fun m => store8 m bin NUL);
  done_with (text, bin + 1, bin_size - 1).

(** Unlike the other converters it works on the caller's variables: they are
    returned in both cases. *)
Fixpoint convert_string (text : list Z) (bin bin_size : Z) : converter (bool * cursor) :=
  match text with
  | [] => compute (Fault OutOfBounds)
  | c :: text' =>
    if SP <? c then
      if bin_size <=? 1 then done_with (false, (text, bin, bin_size)) else
      _ ← storing (fun m => store8 m bin c);
      convert_string text' (bin + 1) (bin_size - 1)
    else
      _ ← storing (fun m => store8 m bin NUL);
      done_with (true, (text, bin + 1, u64 (bin_size - 1)))
  end.

(** Every further word is written over the one before. *)
Fixpoint composed_loop (fuel : nat) (bin0 size0 : Z) (r : cursor) : converter cursor :=
  match fuel with
  | O => compute (Fault OutOfFuel)
  | S fuel' =>
    let '(text, bin, bin_size) := r in
    c ← compute (deref text);
    if c =? ch "." then
      r ← convert_word (drop 1 text) bin0 size0;
      composed_loop fuel' bin0 size0 r
    else done_with r
  end.

Definition convert_composed_identifier (text : list Z) (bin bin_size : Z) : converter cursor :=
  r ← convert_word text bin bin_size;
  composed_loop (S (length text)) bin bin_size r.

Definition hexsub (c : Z) : Z :=
  if in_range (ch "0") (ch "9") c then ch "0"
  else if in_range (ch "a") (ch "f") c then ch "a" - 10
  else if in_range (ch "A") (ch "F") c then ch "A" - 10
  else 0.

Definition hexsub_at (c : Z) : cres Z := if 0 <=? c then Ok (hexsub c) else Fault OutOfBounds.

Fixpoint logaddr_loop (text : list Z) (laddr v : Z) : converter (list Z) :=
  match text with
  | [] => compute (Fault OutOfBounds)
  | c :: text' =>
    h ← compute (hexsub_at c);
    if h =? 0 then done_with text
    else if 2 ^ 63 <=? v then return_FALSE
    else
      let v := u64 (u64 (v * 0x10) + (c - h)) in
      _ ← storing (fun m => store64 m laddr v);
      logaddr_loop text' laddr v
  end.

(** The result is stored at [laddr], digit by digit. *)
Definition convert_logaddr (text : list Z) (laddr : Z) : converter (list Z) :=
  _ ← storing (fun m => store64 m laddr 0);
  c ← compute (deref text);
  text ← compute (if c =? ch "0" then
                    d ← deref (drop 1 text);
                    Ok (if (d =? ch "x") || (d =? ch "X") then drop 2 text else text)
                  else Ok text);
  c ← compute (deref text);
  h ← compute (hexsub_at c);
  if h =? 0 then return_FALSE else logaddr_loop text laddr 0.

(** ** Converting records *)

Definition convert_attr (text : list Z) (binbuf binbuf_size : Z) : converter cursor :=
  let bin := binbuf + sizeof_attr_rec in
  let bin_size := binbuf_size in
  text ← compute (skip_whitespace text);
  text ← require (skip_word text (Some (cstr "attr")));
  text ← compute (skip_whitespace text);
  _ ← storing (fun m => store64 m (binbuf + 8) bin);
  r ← convert_composed_identifier text bin bin_size;
  let '(text, bin, bin_size) := r in
  op ← require (convert_op text);
  let text := op.2 in
  _ ← storing (fun m => store64 m (binbuf + 16) bin);
  r ← convert_string text bin bin_size;
  let '(ok, (text, bin, bin_size)) := r in
  if negb ok then return_FALSE else
  text ← require (skip_end_of_line text);
  _ ← storing (fun m => store64 m binbuf bin);
  done_with (text, bin, bin_size).

Definition convert_conn_target (text : list Z) (binbuf binbuf_size : Z) : converter cursor :=
  let bin := binbuf + sizeof_conn_target_rec in
  let bin_size := binbuf_size in
  text ← convert_logaddr text (binbuf + 8);
  c ← compute (deref text);
  if negb (c =? ch ":") then return_FALSE else
  let text := drop 1 text in
  _ ← storing (fun m => store64 m (binbuf + 16) bin);
  r ← convert_word text bin bin_size;
  let '(text, bin, bin_size) := r in
  _ ← storing (fun m => store64 m binbuf bin);
  done_with (text, bin, bin_size).

(** [while(convert(&text, &bin, &bin_size)) { last = new; new = bin; }] from
    the record at [last]; the result is the last record. *)
Fixpoint record_loop (convert : list Z -> Z -> Z -> converter cursor) (fuel : nat)
  (last : Z) (r : cursor) : converter (Z * cursor) :=
  match fuel with
  | O => compute (Fault OutOfFuel)
  | S fuel' =>
    let '(text, bin, bin_size) := r in
    o ← attempt (convert text bin bin_size);
    match o with
    | Some r' => record_loop convert fuel' bin r'
    | None => done_with (last, r)
    end
  end.

(** A possibly empty list of records at [bin], its head stored at [field]. *)
Definition convert_list (convert : list Z -> Z -> Z -> converter cursor) (field : Z)
  (text : list Z) (bin bin_size : Z) : converter cursor :=
  _ ← storing (fun m => store64 m field bin);
  o ← attempt (convert text bin bin_size);
  match o with
  | Some r =>
    l ← record_loop convert (S (length text)) bin r;
    _ ← storing (fun m => store64 m l.1 0);
    done_with l.2
  | None =>
    _ ← storing (fun m => store64 m field 0);
    done_with (text, bin, bin_size)
  end.

Definition set_flags (a : Z) (f : Z -> Z) : converter unit :=
  storing (fun m => v ← load16 m a; store16 m a (f v)).

(** The targets after the first, each behind a comma. *)
Fixpoint target_loop (fuel : nat) (conn last : Z) (r : cursor) : converter (Z * cursor) :=
  match fuel with
  | O => compute (Fault OutOfFuel)
  | S fuel' =>
    let '(text, bin, bin_size) := r in
    c ← compute (deref text);
    if c =? ch "," then
      flags ← loading (fun m => load16 m (conn + 8));
      if IS_CONN_INPUT flags then return_FALSE else
      r ← convert_conn_target (drop 1 text) bin bin_size;
      target_loop fuel' conn bin r
    else done_with (last, r)
  end.

(** The [connect] line of a connector. *)
Definition convert_connect (conn : Z) (text : list Z) (bin bin_size : Z) : converter cursor :=
  text ← compute (skip_whitespace text);
  text ← require (skip_word text None);
  op ← require (convert_op text);
  let '(action, text) := op in
  _ ← set_flags (conn + 8) (fun v => Z.lor v (Z.shiftl action 4));
  text ← compute (skip_whitespace text);
  _ ← storing (fun m => store64 m (conn + 32) bin);
  o ← attempt (convert_conn_target text bin bin_size);
  match o with
  | Some r =>
    l ← target_loop (S (length text)) conn bin r;
    _ ← storing (fun m => store64 m l.1 0);
    done_with l.2
  | None =>
    _ ← storing (fun m => store64 m (conn + 32) 0);
    done_with (text, bin, bin_size)
  end.

(** The parenthesis of what is not initialised. *)
Definition convert_open (flags_at mask : Z) (text : list Z) : converter (list Z) :=
  c ← compute (deref text);
  if c =? ch "(" then
    _ ← set_flags flags_at (fun v => land_not 16 v mask); done_with (drop 1 text)
  else done_with text.

Definition convert_close (flags_at mask : Z) (text : list Z) : converter (list Z) :=
  flags ← loading (fun m => load16 m flags_at);
  if Z.land flags mask =? 0 then
    c ← compute (deref text);
    if negb (c =? ch ")") then return_FALSE else done_with (drop 1 text)
  else done_with text.

(** A parameter line is ignored. *)
Definition skip_param (word : list Z) (text : list Z) : cres (list Z) :=
  o ← skip_word text (Some word);
  match o with Some text => skip_rest_of_line text | None => Ok text end.

(** The keyword of a connector, its parentheses and operator, which make up
    its flags. *)
Definition convert_kind (conn : Z) (text : list Z) : converter (list Z) :=
  _ ← storing (fun m => store16 m (conn + 8) MASK_CONN_ACTIVE);
  text ← compute (skip_whitespace text);
  text ← convert_open (conn + 8) MASK_CONN_ACTIVE text;
  o ← compute (skip_word text (Some (cstr "output")));
  text ← (match o with
          | Some text =>
            _ ← set_flags (conn + 8) (fun v => Z.lor v MASK_CONN_TYPE); done_with text
          | None => require (skip_word text (Some (cstr "input")))
          end);
  text ← convert_close (conn + 8) MASK_CONN_ACTIVE text;
  text ← compute (skip_whitespace text);
  op ← require (convert_op text);
  let '(action, text) := op in
  _ ← set_flags (conn + 8) (fun v => Z.lor v action);
  done_with text.

(** The connections of a connector. *)
Definition convert_targets (conn : Z) (r : cursor) : converter cursor :=
  let '(text, bin, bin_size) := r in
  text ← compute (skip_whitespace text);
  _ ← storing (fun m => store64 m (conn + 32) 0);
  o ← compute (skip_word text (Some (cstr "connect")));
  match o with
  | Some text => convert_connect conn text bin bin_size
  | None => done_with (text, bin, bin_size)
  end.

Definition convert_conn (text : list Z) (binbuf binbuf_size : Z) : converter cursor :=
  let conn := binbuf in
  let bin := binbuf + sizeof_conn_rec in
  let bin_size := u64 (binbuf_size - sizeof_conn_rec) in
  text ← convert_kind conn text;
  _ ← storing (fun m => store64 m (conn + 16) bin);
  r ← convert_composed_identifier text bin bin_size;
  let '(text, bin, bin_size) := r in
  o ← compute (skip_str text (cstr " { "));
  let text := default text o in
  text ← compute (skip_param (cstr "c_param") text);
  r ← convert_list convert_attr (conn + 24) text bin bin_size;
  r ← convert_targets conn r;
  let '(text, bin, bin_size) := r in
  text ← require (skip_str text (cstr " } "));
  _ ← storing (fun m => store64 m conn bin);
  done_with (text, bin, bin_size).

Definition convert_brick (text : list Z) (binbuf binbuf_size : Z) : converter cursor :=
  let brick := binbuf in
  let bin := binbuf + sizeof_brick_rec in
  let bin_size := binbuf_size in
  _ ← storing (fun m => store16 m brick MASK_BRICK_ACTIVE);
  text ← compute (skip_whitespace text);
  text ← convert_open brick MASK_BRICK_ACTIVE text;
  text ← require (skip_word text (Some (cstr "brick")));
  text ← convert_close brick MASK_BRICK_ACTIVE text;
  text ← compute (skip_whitespace text);
  op ← require (convert_op text);
  let '(action, text) := op in
  _ ← set_flags brick (fun v => Z.lor v action);
  _ ← storing (fun m => store64 m (brick + 8) bin);
  r ← convert_word text bin bin_size;
  let '(text, bin, bin_size) := r in
  text ← require (skip_str text (cstr " { "));
  text ← compute (skip_param (cstr "b_param") text);
  r ← convert_list convert_attr (brick + 16) text bin bin_size;
  let '(text, bin, bin_size) := r in
  r ← convert_list convert_conn (brick + 24) text bin bin_size;
  let '(text, bin, bin_size) := r in
  text ← require (skip_str text (cstr " } "));
  done_with (text, bin, bin_size).

(** ** Back to text *)

(** The output buffer, the position written up to and the space counted. *)
Definition outbuf : Type := list Z * nat * Z.

Definition emit (fmt : list Z) (l : list vararg) (o : outbuf) : cres outbuf :=
  let '(buf, pos, len) := o in
  r ← athsnprintf (drop pos buf) len fmt l;
  Ok (take pos buf ++ r.1, (pos + Z.to_nat r.2)%nat, len - r.2).

(** Plain stores at the position. *)
Definition append (s : list Z) (o : outbuf) : cres outbuf :=
  let '(buf, pos, len) := o in
  b ← write_front s (drop pos buf);
  Ok (take pos buf ++ b, pos, len).

Definition advance_out (n : Z) (o : outbuf) : outbuf :=
  let '(buf, pos, len) := o in (buf, (pos + Z.to_nat n)%nat, len - n).

(** The string a [char *] member of the record at [p] points to. *)
Definition string_at (m : mem) (p : Z) : cres (list Z) :=
  a ← load64 m p; s ← load_string (S (size m)) m a; Ok (s ++ [NUL]).

(** [for(rec = head; rec; rec = rec->next) body(rec)] *)
Fixpoint for_records (fuel : nat) (m : mem) (p : Z) (body : Z -> outbuf -> cres outbuf)
  (o : outbuf) : cres outbuf :=
  match fuel with
  | O => Fault OutOfFuel
  | S fuel' =>
    if p =? 0 then Ok o else
    o ← body p o; next ← load64 m p; for_records fuel' m next body o
  end.

(** The [connect] line of the connector at [conn] with the first target at
    [target]; [None] when there is no space for the newline. *)
Definition connect_line (m : mem) (conn target : Z) (o : outbuf) : cres (option outbuf) :=
  cname ← string_at m (conn + 16);
  a ← load64 m (target + 8);
  tname ← string_at m (target + 16);
  o ← emit (cstr "    connect %s==%L:%s") [VStr cname; VAddr a; VStr tname] o;
  next ← load64 m target;
  o ← for_records (S (size m)) m next (fun target o =>
        a ← load64 m (target + 8);
        tname ← string_at m (target + 16);
        emit (cstr ",%L:%s") [VAddr a; VStr tname] o) o;
  if o.2 <? 1 then Ok None else
  o ← append [NL] o; Ok (Some (advance_out 1 o)).

Definition conn_fmt (active : bool) : list Z :=
  if active then chars "  %s==%s {" ++ [NL; NUL] else chars "  (%s)==%s {" ++ [NL; NUL].

(** One connector of the brick at [brick]. *)
Definition conn_block (m : mem) (brick conn : Z) (o : outbuf) : cres (option outbuf) :=
  flags ← load16 m (conn + 8);
  cname ← string_at m (conn + 16);
  o ← emit (conn_fmt (IS_CONN_ACTIVE flags))
        [VStr (if IS_CONN_INPUT flags then cstr "input" else cstr "output"); VStr cname] o;
  attrs ← load64 m (conn + 24);
  o ← for_records (S (size m)) m attrs (fun attr o =>
        bname ← string_at m (brick + 8);
        cname ← string_at m (conn + 16);
        aname ← string_at m (attr + 8);
        value ← string_at m (attr + 16);
        emit (chars "    attr %s.%s.%s=%s" ++ [NL; NUL])
          [VStr bname; VStr cname; VStr aname; VStr value] o) o;
  target ← load64 m (conn + 32);
  r ← (if target =? 0 then Ok (Some o) else connect_line m conn target o);
  match r with
  | None => Ok None
  | Some o =>
    if o.2 <? 4 then Ok None else
    o ← append (chars "  }" ++ [NL; NUL]) o; Ok (Some (advance_out 4 o))
  end.

(** The same loop with a body that can end the function. *)
Fixpoint for_conns (fuel : nat) (m : mem) (brick conn : Z) (o : outbuf)
  : cres (option outbuf) :=
  match fuel with
  | O => Fault OutOfFuel
  | S fuel' =>
    if conn =? 0 then Ok (Some o) else
    r ← conn_block m brick conn o;
    match r with
    | None => Ok None
    | Some o => next ← load64 m conn; for_conns fuel' m brick next o
    end
  end.

(** [Some] of the buffer, the position after the text and the space left, or
    [None] for FALSE. *)
Definition brick_to_string (m : mem) (textbuf : list Z) (textbuf_len brick : Z)
  : cres (option outbuf) :=
  bname ← string_at m (brick + 8);
  o ← emit (chars "brick==%s {" ++ [NL; NUL]) [VStr bname] (textbuf, 0%nat, textbuf_len);
  attrs ← load64 m (brick + 16);
  o ← for_records (S (size m)) m attrs (fun attr o =>
        bname ← string_at m (brick + 8);
        aname ← string_at m (attr + 8);
        value ← string_at m (attr + 16);
        emit (chars "attr %s.%s=%s {" ++ [NL; NUL]) [VStr bname; VStr aname; VStr value] o) o;
  conns ← load64 m (brick + 24);
  r ← for_conns (S (size m)) m brick conns o;
  match r with
  | None => Ok None
  | Some o =>
    if o.2 <? 3 then Ok None else
    o ← append [ch "}"; NL; NUL] o; Ok (Some (advance_out 3 o))
  end.

