(* ===== verification/BinStratRead.v ===== *)
(** * Reading brick descriptions

    The conversion of the text of a brick to records: what a description
    stands for, as text and as records in memory, and the lemmas that take
    the converters of [BinStrat] through one construct each. *)

From S2P Require Import Prelude CLib Memory StratScan AthStdio BinStrat.
Open Scope Z_scope.
(** * Brick descriptions

    What the two forms of a description stand for: an initialised brick with
    its connectors, their attributes and connections.  (Attributes of the
    brick itself are printed in a form that is not read back, and actions
    other than [==] are not printed.) *)

Record attr_ast := { a_name : list Z; a_value : list Z }.
Record target_ast := { t_addr : Z; t_name : list Z }.
Record conn_ast := {
  c_input : bool; c_active : bool; c_name : list Z;
  c_attrs : list attr_ast; c_targets : list target_ast
}.
Record brick_ast := { b_name : list Z; b_conns : list conn_ast }.

Definition ident (w : list Z) : Prop := w <> [] /\ Forall (fun c => id_table c = true) w.
Definition attr_ok (a : attr_ast) : Prop :=
  ident (a_name a) /\ Forall (fun c => 32 < c < 128) (a_value a) /\
  head (a_value a) <> Some (ch "=").
Definition target_ok (t : target_ast) : Prop := 0 <= t_addr t < 2 ^ 64 /\ ident (t_name t).
Definition conn_ok (c : conn_ast) : Prop :=
  ident (c_name c) /\ Forall attr_ok (c_attrs c) /\ Forall target_ok (c_targets c) /\
  (c_input c = true -> (length (c_targets c) <= 1)%nat).
Definition brick_ok (b : brick_ast) : Prop := ident (b_name b) /\ Forall conn_ok (b_conns b).

(** ** In memory *)

(** The bytes of [s] at [p]. *)
Definition bytes_at (m : mem) (p : Z) (s : list Z) : Prop :=
  forall i x, s !! i = Some x -> m !! (p + Z.of_nat i) = Some (u8 x).
Definition string_in (m : mem) (p : Z) (s : list Z) : Prop := bytes_at m p (s ++ [NUL]).
Definition len (s : list Z) : Z := Z.of_nat (length s).

(** Records of one kind in sequence from [p] to [q], each with its successor
    in its first member; [body] is what the other members say. *)
Fixpoint chain {A} (body : mem -> Z -> A -> Z -> Prop) (m : mem) (p : Z) (l : list A) (q : Z)
  : Prop :=
  match l with
  | [] => p = q
  | x :: l' => exists e, body m p x e /\
      load64 m p = Ok (match l' with [] => 0 | _ => e end) /\ chain body m e l' q
  end.

Definition head_ptr {A} (l : list A) (p : Z) : Z := match l with [] => 0 | _ => p end.

Definition attr_body (m : mem) (p : Z) (a : attr_ast) (e : Z) : Prop :=
  let pn := p + sizeof_attr_rec in
  let pv := pn + len (a_name a) + 1 in
  load64 m (p + 8) = Ok pn /\ string_in m pn (a_name a) /\
  load64 m (p + 16) = Ok pv /\ string_in m pv (a_value a) /\
  e = pv + len (a_value a) + 1.

Definition target_body (m : mem) (p : Z) (t : target_ast) (e : Z) : Prop :=
  let pn := p + sizeof_conn_target_rec in
  load64 m (p + 8) = Ok (t_addr t) /\
  load64 m (p + 16) = Ok pn /\ string_in m pn (t_name t) /\
  e = pn + len (t_name t) + 1.

Definition conn_flags (c : conn_ast) : Z :=
  (if c_active c then MASK_CONN_ACTIVE else 0) + (if c_input c then 0 else MASK_CONN_TYPE).

Definition conn_body (m : mem) (p : Z) (c : conn_ast) (e : Z) : Prop :=
  let pn := p + sizeof_conn_rec in
  let pa := pn + len (c_name c) + 1 in
  exists pt,
    load16 m (p + 8) = Ok (conn_flags c) /\
    load64 m (p + 16) = Ok pn /\ string_in m pn (c_name c) /\
    load64 m (p + 24) = Ok (head_ptr (c_attrs c) pa) /\ chain attr_body m pa (c_attrs c) pt /\
    load64 m (p + 32) = Ok (head_ptr (c_targets c) pt) /\ chain target_body m pt (c_targets c) e.

Definition represents (m : mem) (p : Z) (b : brick_ast) (e : Z) : Prop :=
  let pn := p + sizeof_brick_rec in
  let pc := pn + len (b_name b) + 1 in
  load16 m p = Ok MASK_BRICK_ACTIVE /\
  load64 m (p + 8) = Ok pn /\ string_in m pn (b_name b) /\
  load64 m (p + 16) = Ok 0 /\
  load64 m (p + 24) = Ok (head_ptr (b_conns b) pc) /\ chain conn_body m pc (b_conns b) e.

(** ** As text *)

Definition print_attr (b c : list Z) (a : attr_ast) : list Z :=
  chars "    attr " ++ b ++ ch "." :: c ++ ch "." :: a_name a ++ ch "=" :: a_value a ++ [NL].
Definition print_target (t : target_ast) : list Z :=
  format_x true (t_addr t) ++ ch ":" :: t_name t.
Definition print_targets (c : list Z) (l : list target_ast) : list Z :=
  match l with
  | [] => []
  | t :: l' => chars "    connect " ++ c ++ chars "==" ++ print_target t ++
               mjoin ((fun t => ch "," :: print_target t) <$> l') ++ [NL]
  end.
Definition print_head (c : conn_ast) : list Z :=
  let kind := if c_input c then chars "input" else chars "output" in
  chars "  " ++ (if c_active c then kind else ch "(" :: kind ++ [ch ")"]) ++
  chars "==" ++ c_name c ++ chars " {" ++ [NL].
Definition print_conn (b : list Z) (c : conn_ast) : list Z :=
  print_head c ++ mjoin (print_attr b (c_name c) <$> c_attrs c) ++
  print_targets (c_name c) (c_targets c) ++ chars "  }" ++ [NL].
Definition print_brick (b : brick_ast) : list Z :=
  chars "brick==" ++ b_name b ++ chars " {" ++ [NL] ++
  mjoin (print_conn (b_name b) <$> b_conns b) ++ chars "}" ++ [NL].

(** * Reading text back *)

Lemma tbl_ok table c : 0 <= c -> tbl table c = Ok (table c).
Proof. intros. unfold tbl. by rewrite (proj2 (Z.leb_le 0 c)). Qed.

Lemma id_code c : id_table c = true -> 32 < c < 128.
Proof. intros H%id_table_code. lia. Qed.

Lemma skip_class_app table l c t :
  Forall (fun x => 0 <= x /\ table x = true) l -> 0 <= c -> table c = false ->
  skip_class table (l ++ c :: t) = Ok (c :: t).
Proof.
  intros Hl Hc Ht. induction Hl as [|x l [Hx Hxt] Hl IH]; cbn [app skip_class].
  - by rewrite tbl_ok, Ht by done.
  - rewrite tbl_ok, Hxt by done. exact IH.
Qed.

Lemma skip_ws_none c t : 0 <= c -> ws_table c = false -> skip_whitespace (c :: t) = Ok (c :: t).
Proof. apply (skip_class_app ws_table []). constructor. Qed.

Lemma ident_forall w : ident w -> Forall (fun x => 0 <= x /\ id_table x = true) w.
Proof.
  intros [_ Hw]. eapply Forall_impl; [exact Hw|]. intros x Hx.
  pose proof (id_code x Hx). split; [lia|done].
Qed.

(** A text that goes on with a character outside identifiers. *)
Definition word_end (t : list Z) : Prop :=
  exists c t', t = c :: t' /\ 0 <= c /\ id_table c = false.

Lemma skip_word_any w t : ident w -> word_end t -> skip_word (w ++ t) None = Ok (Some t).
Proof.
  intros Hw (c & t' & -> & Hc & Hid). pose proof (ident_forall w Hw) as Hall.
  destruct Hw as [Hne _]. destruct w as [|x w]; [done|].
  apply Forall_cons in Hall as Hx. destruct Hx as [[Hx Hxid] _].
  unfold skip_word. cbn [app deref mbind cres_bind]. rewrite tbl_ok, Hxid by done.
  cbn [mbind cres_bind]. change (x :: w ++ c :: t') with ((x :: w) ++ c :: t').
  by rewrite skip_class_app.
Qed.

(** ** Words and strings *)

Lemma bytes_at_app m p s t :
  bytes_at m p s -> bytes_at m (p + len s) t -> bytes_at m p (s ++ t).
Proof.
  intros Hs Ht i x Hi. apply lookup_app_Some in Hi as [Hi|[Hle Hi]]; [by apply Hs|].
  rewrite <- (Ht _ _ Hi). f_equal. unfold len. lia.
Qed.

Lemma bytes_at_agree m m' p s :
  bytes_at m p s -> agree m m' p (p + len s) -> bytes_at m' p s.
Proof.
  intros Hs Hag i x Hi. rewrite <- Hag; [by apply Hs|].
  apply lookup_lt_Some in Hi. unfold len. lia.
Qed.

Lemma word_loop_spec w t bin size m :
  Forall (fun x => 0 <= x /\ id_table x = true) w -> word_end t ->
  mapped m bin (bin + len w) -> len w <= size ->
  exists m', word_loop (w ++ t) bin size m = Ok (Some (t, bin + len w, size - len w), m') /\
    bytes_at m' bin w /\ only_changes m m' bin (bin + len w).
Proof.
  intros Hw (c & t' & -> & Hc & Hid). revert bin size m.
  induction Hw as [|x w [Hx Hxid] Hw IH]; intros bin size m Hm Hsize.
  - exists m. cbn [app word_loop]. rewrite tbl_ok, Hid by done.
    unfold mbind, converter_bind, compute, done_with, len. simpl.
    rewrite Z.add_0_r, Z.sub_0_r. split; [done|]. split; [done|apply only_changes_refl].
  - unfold len in *. cbn [length] in *. rewrite Nat2Z.inj_succ in *.
    cbn [app word_loop]. rewrite tbl_ok, Hxid by done.
    unfold mbind at 1, converter_bind at 1, compute at 1.
    rewrite (proj2 (Z.eqb_neq size 0)) by lia.
    unfold mbind at 1, converter_bind at 1, storing at 1.
    pose proof (store8_ok m bin x ltac:(apply Hm; lia)) as Hs. rewrite Hs.
    apply store8_changes in Hs as Hch.
    destruct (IH (bin + 1) (size - 1) (<[bin:=u8 x]> m)) as (m' & -> & Hb & Ho);
      [eapply mapped_mono; [by eapply mapped_only_changes|lia|lia]|lia|].
    exists m'. split.
    { replace (bin + Z.succ (Z.of_nat (length w))) with (bin + 1 + Z.of_nat (length w)) by lia.
      replace (size - Z.succ (Z.of_nat (length w))) with (size - 1 - Z.of_nat (length w)) by lia.
      done. }
    split.
    + intros [|i] y Hy; simplify_eq/=.
      * destruct Ho as [_ Ho]. rewrite Z.add_0_r, Ho by lia. apply lookup_insert_eq.
      * rewrite <- (Hb i y Hy). f_equal. lia.
    + eapply only_changes_trans; eapply only_changes_mono; try done; lia.
Qed.

(** ** Running converters step by step *)

Section steps.
Context {A B : Type}.
Implicit Types (k : A -> converter B) (m : mem).

Lemma step_run (p : converter A) k m a m' : p m = Ok (Some a, m') -> (p ≫= k) m = k a m'.
Proof. intros H. unfold mbind, converter_bind. by rewrite H. Qed.
Lemma step_stop (p : converter A) k m m' : p m = Ok (None, m') -> (p ≫= k) m = Ok (None, m').
Proof. intros H. unfold mbind, converter_bind. by rewrite H. Qed.
Lemma step_compute (r : cres A) k m a : r = Ok a -> (compute r ≫= k) m = k a m.
Proof. by intros ->. Qed.
Lemma step_require (r : cres (option A)) k m a : r = Ok (Some a) -> (require r ≫= k) m = k a m.
Proof. by intros ->. Qed.
Lemma step_done (a : A) k m : (done_with a ≫= k) m = k a m.
Proof. done. Qed.
Lemma step_loading (f : mem -> cres A) k m a : f m = Ok a -> (loading f ≫= k) m = k a m.
Proof. intros H. unfold mbind, converter_bind, loading. by rewrite H. Qed.
Lemma step_storing (f : mem -> cres mem) (k : unit -> converter B) m m' :
  f m = Ok m' -> (storing f ≫= k) m = k tt m'.
Proof. intros H. unfold mbind, converter_bind, storing. by rewrite H. Qed.
Lemma step_attempt (p : converter A) (k : option A -> converter B) m o m' :
  p m = Ok (o, m') -> (attempt p ≫= k) m = k o m'.
Proof. intros H. unfold mbind, converter_bind, attempt. by rewrite H. Qed.
End steps.

(** ** Members of records *)

Lemma store64_run m a v :
  mapped m a (a + 8) -> 0 <= v < 2 ^ 64 ->
  exists m', store64 m a v = Ok m' /\ load64 m' a = Ok v /\ only_changes m m' a (a + 8).
Proof.
  intros Hm Hv. unfold store64. rewrite wrap_small by done.
  destruct (store_le_ok 8 m a v Hm) as [m' Hs]. exists m'. split; [done|]. split.
  - apply (load_store_le 8 m m' a v Hs). change (256 ^ Z.of_nat 8) with (2 ^ 64). done.
  - apply (store_le_changes 8 m a v m' Hs).
Qed.

Lemma store16_run m a v :
  mapped m a (a + 2) -> 0 <= v < 2 ^ 16 ->
  exists m', store16 m a v = Ok m' /\ load16 m' a = Ok v /\ only_changes m m' a (a + 2).
Proof.
  intros Hm Hv. unfold store16. rewrite wrap_small by done.
  destruct (store_le_ok 2 m a v Hm) as [m' Hs]. exists m'. split; [done|]. split.
  - apply (load_store_le 2 m m' a v Hs). change (256 ^ Z.of_nat 2) with (2 ^ 16). done.
  - apply (store_le_changes 2 m a v m' Hs).
Qed.

Lemma set_flags_run m a f v :
  mapped m a (a + 2) -> load16 m a = Ok v -> 0 <= f v < 2 ^ 16 ->
  exists m', set_flags a f m = Ok (Some tt, m') /\ load16 m' a = Ok (f v) /\
    only_changes m m' a (a + 2).
Proof.
  intros Hm Hv Hf. destruct (store16_run m a (f v) Hm Hf) as (m' & Hs & Hl & Hc).
  exists m'. unfold set_flags, storing. rewrite Hv. cbn [mbind cres_bind]. by rewrite Hs.
Qed.

Lemma load64_agree m m' a v : load64 m a = Ok v -> agree m m' a (a + 8) -> load64 m' a = Ok v.
Proof. intros <- H. symmetry. by apply load_le_agree. Qed.
Lemma load16_agree m m' a v : load16 m a = Ok v -> agree m m' a (a + 2) -> load16 m' a = Ok v.
Proof. intros <- H. symmetry. by apply load_le_agree. Qed.
Lemma string_in_agree m m' a s :
  string_in m a s -> agree m m' a (a + len s + 1) -> string_in m' a s.
Proof.
  intros Hs Hag. eapply bytes_at_agree; [done|]. unfold len in *. rewrite length_app. simpl.
  eapply agree_mono; [done|lia|lia].
Qed.

(** A body is determined by the bytes behind its first member. *)
Class Framed {A} (body : mem -> Z -> A -> Z -> Prop) : Prop := {
  framed_agree m m' p x e : body m p x e -> agree m m' (p + 8) e -> body m' p x e;
  framed_size m p x e : body m p x e -> p + 8 <= e
}.

Lemma chain_agree {A} (body : mem -> Z -> A -> Z -> Prop) `{!Framed body} m m' p l q :
  chain body m p l q -> agree m m' p q -> p <= q /\ chain body m' p l q.
Proof.
  revert p. induction l as [|x l IH]; intros p H Hag; cbn [chain] in *; [subst; split; [lia|done]|].
  destruct H as (e & Hb & Hn & Hc). pose proof (framed_size _ _ _ _ Hb).
  assert (e <= q) as Heq.
  { clear -Hc Framed0. revert e Hc. induction l as [|y l IH]; intros e Hc; cbn [chain] in *; [lia|].
    destruct Hc as (f & Hb & _ & Hc). apply framed_size in Hb. apply IH in Hc. lia. }
  split; [lia|]. exists e. split_and!.
  - eapply framed_agree; [done|]. eapply agree_mono; [done|lia|lia].
  - eapply load64_agree; [done|]. eapply agree_mono; [done|lia|lia].
  - apply IH; [done|]. eapply agree_mono; [done|lia|lia].
Qed.

(** Carry a fact about some bytes over to a memory that agrees on them. *)
Ltac frame :=
  match goal with
  | |- load64 _ _ = _ => eapply load64_agree; [eassumption|]
  | |- load16 _ _ = _ => eapply load16_agree; [eassumption|]
  | |- string_in _ _ _ => eapply string_in_agree; [eassumption|]
  | |- chain _ _ _ _ _ => eapply chain_agree; [typeclasses eauto|eassumption|]
  | |- ?x = ?x => reflexivity
  end.
Ltac within :=
  match goal with
  | H : agree ?m ?m' _ _ |- agree ?m ?m' _ _ =>
    eapply agree_mono; [exact H|unfold len in *; lia|unfold len in *; lia]
  end.

#[export] Instance attr_framed : Framed attr_body.
Proof.
  split.
  - intros m m' p a e (H1 & H2 & H3 & H4 & ->) Hag. unfold attr_body, sizeof_attr_rec in *.
    split_and!; frame; within.
  - intros m p a e (_ & _ & _ & _ & ->). unfold sizeof_attr_rec, len. lia.
Qed.

#[export] Instance target_framed : Framed target_body.
Proof.
  split.
  - intros m m' p a e (H1 & H2 & H3 & ->) Hag. unfold target_body, sizeof_conn_target_rec in *.
    split_and!; frame; within.
  - intros m p a e (_ & _ & _ & ->). unfold sizeof_conn_target_rec, len. lia.
Qed.

Lemma chain_bound {A} (body : mem -> Z -> A -> Z -> Prop) `{!Framed body} m p l q :
  chain body m p l q -> p <= q.
Proof. intros H. by apply (chain_agree body m m p l q H). Qed.

#[export] Instance conn_framed : Framed conn_body.
Proof.
  split.
  - intros m m' p c e (pt & H1 & H2 & H3 & H4 & H5 & H6 & H7) Hag.
    pose proof (chain_bound _ _ _ _ _ H5). pose proof (chain_bound _ _ _ _ _ H7).
    unfold conn_body, sizeof_conn_rec in *. exists pt. split_and!; frame; within.
  - intros m p c e (pt & _ & _ & _ & _ & H5 & _ & H7).
    pose proof (chain_bound _ _ _ _ _ H5). pose proof (chain_bound _ _ _ _ _ H7).
    unfold sizeof_conn_rec, len in *. lia.
Qed.

(** ** Room

    What the buffer must offer at [bin] for converting [text]: 16 bytes for
    every character are enough, since each record has at least as many
    characters of syntax, and 64 for the record that is begun. *)

Record room (m : mem) (bin size : Z) (text : list Z) (top : Z) : Prop := {
  room_mapped : mapped m bin top;
  room_pos : 0 < bin;
  room_top : bin + 16 * len text + 64 <= top;
  room_max : top < 2 ^ 64;
  room_size : 16 * len text + 64 <= size < 2 ^ 64
}.

Lemma len_app s t : len (s ++ t) = len s + len t.
Proof. unfold len. rewrite length_app. lia. Qed.
Lemma len_cons x s : len (x :: s) = 1 + len s.
Proof. unfold len. simpl. lia. Qed.
Lemma len_nonneg s : 0 <= len s.
Proof. unfold len. lia. Qed.

Lemma room_step m m' bin size text top bin' size' text' lo hi :
  room m bin size text top -> only_changes m m' lo hi ->
  bin <= bin' -> bin' + 16 * len text' + 64 <= top ->
  16 * len text' + 64 <= size' < 2 ^ 64 -> room m' bin' size' text' top.
Proof.
  intros [H1 H2 H3 H4 H5] Hc Hb Ht Hs. split; try done; [|lia].
  eapply mapped_mono; [by eapply mapped_only_changes|lia|lia].
Qed.

Lemma room_same m m' bin size text top lo hi :
  room m bin size text top -> only_changes m m' lo hi -> room m' bin size text top.
Proof. intros [????] ?. split; try done. by eapply mapped_only_changes. Qed.

Lemma room_shorter m bin size text text' top :
  room m bin size text top -> len text' <= len text -> room m bin size text' top.
Proof. intros [????] ?. split; try done; lia. Qed.

(** ** Words *)

Lemma convert_word_spec w t bin size m :
  ident w -> word_end t -> mapped m bin (bin + len w + 1) -> len w + 1 <= size ->
  exists m', convert_word (w ++ t) bin size m =
      Ok (Some (t, bin + len w + 1, size - len w - 1), m') /\
    string_in m' bin w /\ only_changes m m' bin (bin + len w + 1).
Proof.
  intros Hw Ht Hm Hs. pose proof (ident_forall w Hw) as Hall. destruct Hw as [Hne _].
  destruct (word_loop_spec w t bin size m Hall Ht) as (m1 & Hrun & Hb & Hc);
    [eapply mapped_mono; [done|lia|lia]|lia|].
  destruct w as [|x w]; [done|]. apply Forall_cons in Hall as [[Hx Hxid] _].
  unfold convert_word. rewrite (step_compute _ _ _ x) by done.
  rewrite (step_compute _ _ _ true) by (by rewrite tbl_ok, Hxid). cbn [negb].
  rewrite (step_run _ _ _ _ _ Hrun). rewrite (proj2 (Z.eqb_neq _ 0)) by lia.
  pose proof (mapped_only_changes _ _ _ _ _ _ Hc Hm) as Hm1.
  pose proof (len_nonneg (x :: w)).
  pose proof (store8_ok m1 (bin + len (x :: w)) NUL ltac:(apply Hm1; lia)) as Hst.
  rewrite (step_storing _ _ _ _ Hst). eexists. split; [done|].
  apply store8_changes in Hst as Hc2. split.
  - apply bytes_at_app.
    + eapply bytes_at_agree; [done|]. eapply only_changes_agree; [done|lia].
    + intros [|i] y Hy; simplify_eq/=. rewrite Z.add_0_r. apply lookup_insert_eq.
  - eapply only_changes_trans; eapply only_changes_mono; try done; lia.
Qed.

(** The text of the words after the first, and the last word. *)
Definition dotted (ws : list (list Z)) : list Z := mjoin ((fun w => ch "." :: w) <$> ws).

Fixpoint last_word (w : list Z) (ws : list (list Z)) : list Z :=
  match ws with [] => w | v :: ws' => last_word v ws' end.

Lemma dotted_end ws t : word_end t -> word_end (dotted ws ++ t).
Proof.
  destruct ws as [|w ws]; [done|]. intros _. exists (ch "."), (w ++ dotted ws ++ t).
  unfold dotted. cbn. rewrite <- app_assoc. done.
Qed.

Lemma composed_loop_spec fuel ws w t bin0 size0 m :
  Forall ident ws -> word_end t -> head t <> Some (ch ".") ->
  (length ws < fuel)%nat -> string_in m bin0 w -> len w + 1 <= size0 ->
  (forall v, v ∈ ws -> mapped m bin0 (bin0 + len v + 1) /\ len v + 1 <= size0) ->
  exists m', composed_loop fuel bin0 size0 (dotted ws ++ t, bin0 + len w + 1, size0 - len w - 1) m
      = Ok (Some (t, bin0 + len (last_word w ws) + 1, size0 - len (last_word w ws) - 1), m') /\
    string_in m' bin0 (last_word w ws) /\
    forall hi, (forall v, v ∈ ws -> bin0 + len v + 1 <= hi) -> only_changes m m' bin0 hi.
Proof.
  intros Hws Ht Hdot. revert w m fuel. induction Hws as [|v ws Hv Hws IH]; intros w m fuel Hf Hw Hlw Hroom.
  - destruct fuel as [|fuel]; [lia|]. destruct Ht as (c & t' & -> & Hc & Hid).
    cbn [composed_loop app dotted]. rewrite (step_compute _ _ _ c) by done.
    rewrite (proj2 (Z.eqb_neq c (ch "."))) by (intros ->; done).
    eexists. split; [done|]. split; [done|]. intros. apply only_changes_refl.
  - destruct fuel as [|fuel]; [simpl in Hf; lia|]. simpl in Hf. cbn [composed_loop].
    rewrite (step_compute _ _ _ (ch ".")) by done. rewrite Z.eqb_refl.
    change (drop 1 (dotted (v :: ws) ++ t)) with (drop 0 ((v ++ dotted ws) ++ t)).
    rewrite drop_0, <- app_assoc.
    destruct (Hroom v ltac:(set_solver)) as [Hmv Hlv].
    destruct (convert_word_spec v (dotted ws ++ t) bin0 size0 m Hv
      (dotted_end _ _ Ht) Hmv Hlv) as (m1 & Hrun & Hs1 & Hc1).
    rewrite (step_run _ _ _ _ _ Hrun).
    destruct (IH v m1 fuel ltac:(lia) Hs1 Hlv) as (m2 & Hrun2 & Hs2 & Hc2).
    { intros u Hu. destruct (Hroom u ltac:(set_solver)) as [Hmu ?]. split; [|done].
      by eapply mapped_only_changes. }
    exists m2. rewrite Hrun2.
    cbn [last_word].
    split; [done|]. split; [done|]. intros hi Hhi.
    eapply only_changes_trans; [|apply Hc2; intros; apply Hhi; set_solver].
    eapply only_changes_mono; [done|lia|]. apply Hhi. set_solver.
Qed.

Lemma convert_composed_spec ws w t bin size m :
  ident w -> Forall ident ws -> word_end t -> head t <> Some (ch ".") ->
  (forall v, v ∈ w :: ws -> mapped m bin (bin + len v + 1) /\ len v + 1 <= size) ->
  let z := last_word w ws in
  exists m', convert_composed_identifier (w ++ dotted ws ++ t) bin size m =
      Ok (Some (t, bin + len z + 1, size - len z - 1), m') /\
    string_in m' bin z /\
    forall hi, (forall v, v ∈ w :: ws -> bin + len v + 1 <= hi) -> only_changes m m' bin hi.
Proof.
  intros Hw Hws Ht Hdot Hroom z. unfold convert_composed_identifier.
  destruct (Hroom w ltac:(set_solver)) as [Hmw Hlw].
  destruct (convert_word_spec w (dotted ws ++ t) bin size m Hw (dotted_end _ _ Ht) Hmw Hlw)
    as (m1 & Hrun & Hs1 & Hc1).
  rewrite (step_run _ _ _ _ _ Hrun).
  destruct (composed_loop_spec (S (length (w ++ dotted ws ++ t))) ws w t bin size m1 Hws Ht Hdot)
    as (m2 & Hrun2 & Hs2 & Hc2); try done.
  - rewrite !length_app. assert (length ws <= length (dotted ws))%nat; [|lia].
    clear. induction ws as [|v ws IH]; [done|].
    change (dotted (v :: ws)) with ((ch "." :: v) ++ dotted ws). rewrite length_app. simpl. lia.
  - intros v Hv. destruct (Hroom v ltac:(set_solver)) as [Hmv ?]. split; [|done].
    by eapply mapped_only_changes.
  - exists m2. split; [done|]. split; [done|]. intros hi Hhi.
    eapply only_changes_trans; [|apply Hc2; intros; apply Hhi; set_solver].
    eapply only_changes_mono; [done|lia|]. apply Hhi. set_solver.
Qed.

(** ** Values and addresses *)

Lemma convert_string_spec v t bin size m :
  Forall (fun c => 32 < c < 128) v -> (exists c t', t = c :: t' /\ c <= 32) ->
  mapped m bin (bin + len v + 1) -> len v + 1 <= size < 2 ^ 64 ->
  exists m', convert_string (v ++ t) bin size m =
      Ok (Some (true, (t, bin + len v + 1, size - len v - 1)), m') /\
    string_in m' bin v /\ only_changes m m' bin (bin + len v + 1).
Proof.
  intros Hv (c & t' & -> & Hc). revert bin size m.
  induction Hv as [|x v Hx Hv IH]; intros bin size m Hm Hs.
  - cbn [app convert_string]. change SP with 32. rewrite (proj2 (Z.ltb_ge 32 c)) by done.
    change (len []) with 0 in *. rewrite Z.add_0_r, Z.sub_0_r in *.
    pose proof (store8_ok m bin NUL ltac:(apply Hm; lia)) as Hst.
    rewrite (step_storing _ _ _ _ Hst), wrap_small by lia. eexists. split; [done|].
    apply store8_changes in Hst as Hch. split; [|done].
    intros [|i] y Hy; simplify_eq/=. rewrite Z.add_0_r. apply lookup_insert_eq.
  - rewrite len_cons in *. pose proof (len_nonneg v). cbn [app convert_string]. change SP with 32.
    rewrite (proj2 (Z.ltb_lt 32 x)), (proj2 (Z.leb_gt size 1)) by lia.
    pose proof (store8_ok m bin x ltac:(apply Hm; lia)) as Hst.
    rewrite (step_storing _ _ _ _ Hst). apply store8_changes in Hst as Hch.
    destruct (IH (bin + 1) (size - 1) (<[bin:=u8 x]> m)) as (m' & -> & Hb & Ho);
      [eapply mapped_mono; [by eapply mapped_only_changes|lia|lia]|lia|].
    exists m'. split_and!.
    + replace (bin + (1 + len v) + 1) with (bin + 1 + len v + 1) by lia.
      by replace (size - (1 + len v) - 1) with (size - 1 - len v - 1) by lia.
    + apply (bytes_at_app m' bin [x] (v ++ [NUL])); [|exact Hb].
      intros [|i] y Hy; simplify_eq/=. destruct Ho as [_ Ho].
      rewrite Z.add_0_r, Ho by lia. apply lookup_insert_eq.
    + eapply only_changes_trans; eapply only_changes_mono; try done; lia.
Qed.

Lemma hexsub_digit c :
  is_digit 16 c = true ->
  exists d, digit_value c = Some d /\ 0 <= d < 16 /\ hexsub_at c = Ok (c - d) /\ c - d <> 0.
Proof.
  unfold is_digit. intros H. destruct (digit_value c) as [d|] eqn:Hd; [|done]. exists d.
  unfold digit_value in Hd. unfold hexsub_at, hexsub, in_range. eval_chars.
  destruct ((48 <=? c) && (c <=? 57)) eqn:E1; simplify_eq.
  { rewrite (proj2 (Z.leb_le 0 c)) by lia. split_and!; try done; try lia. f_equal. lia. }
  destruct ((97 <=? c) && (c <=? 102)) eqn:E2; simplify_eq.
  { rewrite (proj2 (Z.leb_le 0 c)) by lia. split_and!; try done; try lia. f_equal. lia. }
  destruct ((65 <=? c) && (c <=? 70)) eqn:E3; simplify_eq.
  rewrite (proj2 (Z.leb_le 0 c)) by lia. split_and!; try done; try lia. f_equal. lia.
Qed.

Lemma digits_value_ge l v :
  Forall (fun c => is_digit 16 c = true) l -> 0 <= v -> v <= digits_value 16 l v.
Proof.
  intros Hl. revert v. induction Hl as [|c l Hc Hl IH]; intros v Hv; [done|].
  destruct (hexsub_digit c Hc) as (d & Hd & ? & _). unfold digits_value in *. cbn [foldl].
  rewrite Hd. simpl. specialize (IH (v * 16 + d) ltac:(lia)). lia.
Qed.

Lemma logaddr_loop_spec l t p v m :
  Forall (fun c => is_digit 16 c = true) l -> (exists t', t = ch ":" :: t') ->
  0 <= v -> digits_value 16 l v < 2 ^ 64 -> mapped m p (p + 8) -> load64 m p = Ok v ->
  exists m', logaddr_loop (l ++ t) p v m = Ok (Some t, m') /\
    load64 m' p = Ok (digits_value 16 l v) /\ only_changes m m' p (p + 8).
Proof.
  intros Hl (t' & ->). revert v m. induction Hl as [|c l Hc Hl IH]; intros v m Hv Hmax Hm Hload.
  - exists m. split; [done|]. split; [done|apply only_changes_refl].
  - destruct (hexsub_digit c Hc) as (d & Hd & Hdr & Hh & Hne).
    assert (digits_value 16 (c :: l) v = digits_value 16 l (v * 16 + d)) as Heq
      by (unfold digits_value; cbn [foldl]; by rewrite Hd).
    rewrite Heq in *. pose proof (digits_value_ge l (v * 16 + d) Hl ltac:(lia)).
    cbn [app logaddr_loop]. rewrite (step_compute _ _ _ _ Hh).
    rewrite (proj2 (Z.eqb_neq _ 0)), (proj2 (Z.leb_gt (2 ^ 63) v)) by lia.
    replace (u64 (u64 (v * 16) + (c - (c - d)))) with (v * 16 + d)
      by (rewrite !wrap_small; rewrite ?wrap_small; lia).
    destruct (store64_run m p (v * 16 + d) Hm ltac:(lia)) as (m1 & Hst & Hl1 & Hc1).
    rewrite (step_storing _ _ _ _ Hst).
    destruct (IH (v * 16 + d) m1) as (m2 & Hr2 & Hl2 & Hc2); try done; [lia| |].
    { by eapply mapped_only_changes. }
    exists m2. split; [done|]. split; [done|]. by eapply only_changes_trans.
Qed.

Lemma convert_logaddr_spec n t p m :
  0 <= n < 2 ^ 64 -> (exists t', t = ch ":" :: t') -> mapped m p (p + 8) ->
  exists m', convert_logaddr (format_x true n ++ t) p m = Ok (Some t, m') /\
    load64 m' p = Ok n /\ only_changes m m' p (p + 8).
Proof.
  intros Hn Ht Hm. unfold convert_logaddr, format_x.
  pose proof (digits_all true 16 ltac:(lia) n ltac:(lia)) as Hall.
  pose proof (digits_value_eq true 16 ltac:(lia) n ltac:(lia)) as Hval.
  destruct (store64_run m p 0 Hm ltac:(lia)) as (m1 & Hst & Hl1 & Hc1).
  rewrite (step_storing _ _ _ _ Hst).
  pose proof (mapped_only_changes _ _ _ _ _ _ Hc1 Hm) as Hm1.
  destruct (logaddr_loop_spec _ t p 0 m1 Hall Ht) as (m2 & Hr & Hl2 & Hc2); try done;
    [rewrite Hval; lia|].
  rewrite Hval in Hl2.
  destruct (digits true 16 n) as [|c l] eqn:Heq; [by apply digits_nonempty in Heq|].
  apply Forall_cons in Hall as [Hc Hl]. destruct (hexsub_digit c Hc) as (d & _ & _ & Hh & Hne).
  rewrite (step_compute _ _ _ c) by done.
  assert (exists y u, l ++ t = y :: u /\ (y =? ch "x") || (y =? ch "X") = false) as (y & u & Hy & Hx).
  { destruct Ht as [t' ->]. destruct l as [|y l]; do 2 eexists; (split; [done|]); [done|].
    apply Forall_cons in Hl as [Hd%is_digit_code _]. eval_chars. lia. }
  rewrite (step_compute _ _ _ ((c :: l) ++ t)).
  2:{ destruct (c =? ch "0"); [|done]. cbn [app drop]. rewrite drop_0, Hy.
      cbn [deref mbind cres_bind]. by rewrite Hx. }
  rewrite (step_compute _ _ _ c) by done. rewrite (step_compute _ _ _ _ Hh).
  rewrite (proj2 (Z.eqb_neq _ 0)) by done. exists m2. split; [done|]. split; [done|].
  by eapply only_changes_trans.
Qed.

(** ** Reading one record *)

(** Carry every fact about a memory over a change elsewhere. *)
Ltac carry C :=
  match type of C with
  | only_changes ?m ?m' _ _ =>
    repeat match goal with
    | H : mapped m _ _ |- _ => apply (mapped_only_changes _ _ _ _ _ _ C) in H
    | H : load64 m _ = Ok _ |- _ =>
      apply (load64_agree m m') in H;
        [|eapply only_changes_agree; [exact C|unfold len in *; lia]]
    | H : load16 m _ = Ok _ |- _ =>
      apply (load16_agree m m') in H;
        [|eapply only_changes_agree; [exact C|unfold len in *; lia]]
    | H : string_in m _ _ |- _ =>
      apply (string_in_agree m m') in H;
        [|eapply only_changes_agree; [exact C|unfold len in *; lia]]
    | H : chain ?body m _ _ _ |- _ =>
      apply (chain_agree body m m') in H;
        [destruct H as [_ H]|eapply only_changes_agree; [exact C|unfold len in *; lia]]
    end
  end.

(** The accumulated change of a sequence of steps. *)
Ltac collect :=
  repeat (eapply only_changes_trans;
    [eapply only_changes_mono; [eassumption|lia|lia]|]); apply only_changes_refl.

Ltac submap :=
  match goal with
  | H : mapped ?m _ _ |- mapped ?m _ _ => eapply mapped_mono; [exact H|lia|lia]
  end.

(** [convert] reads [s] in front of [rest] as the record [x]. *)
Definition reads {A} (convert : list Z -> Z -> Z -> converter cursor)
  (body : mem -> Z -> A -> Z -> Prop) (x : A) (s rest : list Z) : Prop :=
  forall m bin size top, room m bin size (s ++ rest) top ->
  exists e size' m', convert (s ++ rest) bin size m = Ok (Some (rest, e, size'), m') /\
    body m' bin x e /\ load64 m' bin = Ok e /\ bin + 8 <= e /\
    only_changes m m' bin top /\ room m' e size' rest top.

Definition rejects (convert : list Z -> Z -> Z -> converter cursor) (rest : list Z) : Prop :=
  forall m bin size top, room m bin size rest top ->
  exists m', convert rest bin size m = Ok (None, m') /\ only_changes m m' bin top.

Lemma target_reads t rest :
  target_ok t -> word_end rest -> reads convert_conn_target target_body t (print_target t) rest.
Proof.
  intros [Ht Hn] Hend m bin size top Hroom. pose proof Hroom as [Hm Hpos Htop Hmax Hsize].
  unfold print_target in *. rewrite <- app_assoc in *. cbn [app] in *.
  rewrite len_app, len_cons, len_app in *.
  pose proof (len_nonneg (t_name t)). pose proof (len_nonneg rest).
  assert (1 <= len (format_x true (t_addr t))).
  { unfold format_x, len. destruct (digits true 16 (t_addr t)) eqn:Hd;
      [by apply digits_nonempty in Hd|simpl; lia]. }
  unfold convert_conn_target, sizeof_conn_target_rec.
  destruct (convert_logaddr_spec (t_addr t) (ch ":" :: t_name t ++ rest) (bin + 8) m Ht)
    as (m1 & R1 & L1 & C1); [by eexists|submap|].
  rewrite (step_run _ _ _ _ _ R1), (step_compute _ _ _ (ch ":")) by done.
  rewrite Z.eqb_refl. cbn [negb drop]. rewrite drop_0. carry C1.
  destruct (store64_run m1 (bin + 16) (bin + 24)) as (m2 & R2 & L2 & C2); [submap|lia|].
  rewrite (step_storing _ _ _ _ R2). carry C2.
  destruct (convert_word_spec (t_name t) rest (bin + 24) size m2 Hn Hend)
    as (m3 & R3 & L3 & C3); [submap|lia|].
  rewrite (step_run _ _ _ _ _ R3). carry C3.
  destruct (store64_run m3 bin (bin + 24 + len (t_name t) + 1)) as (m4 & R4 & L4 & C4);
    [submap|lia|].
  rewrite (step_storing _ _ _ _ R4). carry C4.
  do 3 eexists. split; [done|].
  assert (only_changes m m4 bin top) as Hall by collect.
  split_and!; try done; [lia|]. eapply room_step; [done|done|lia|lia|lia].
Qed.

Lemma skip_blank_word ws w t :
  Forall (fun c => 0 <= c /\ ws_table c = true) ws -> ident w ->
  skip_whitespace (ws ++ w ++ t) = Ok (w ++ t).
Proof.
  intros Hws Hw. pose proof (ident_forall w Hw) as Hall. destruct Hw as [Hne Hid].
  destruct w as [|c w]; [done|]. apply Forall_cons in Hall as [[Hc Hi] _].
  apply skip_class_app; [done|done|]. pose proof (id_code c Hi).
  unfold ws_table, SP, TAB, NL. lia.
Qed.

Lemma attr_reads w1 w2 a rest :
  ident w1 -> ident w2 -> attr_ok a -> (exists c t, rest = NL :: c :: t) ->
  forall ws, Forall (fun c => 0 <= c /\ ws_table c = true) ws ->
  reads convert_attr attr_body a
    (ws ++ chars "attr " ++ w1 ++ ch "." :: w2 ++ ch "." :: a_name a ++ ch "=" :: a_value a) rest.
Proof.
  intros Hw1 Hw2 (Hn & Hv & Heq) (c0 & t0 & ->) ws Hws m bin size top Hroom.
  pose proof Hroom as [Hm Hpos Htop Hmax Hsize].
  set (s := ws ++ _) in *.
  assert (s ++ NL :: c0 :: t0 = ws ++ chars "attr " ++ w1 ++ dotted [w2; a_name a] ++
    (ch "=" :: a_value a ++ NL :: c0 :: t0)) as Hs.
  { subst s.
    change (dotted [w2; a_name a]) with (ch "." :: w2 ++ ch "." :: a_name a ++ []).
    rewrite app_nil_r. repeat (rewrite <- !app_assoc; cbn [app]). done. }
  assert (len s = len ws + 5 + len w1 + len w2 + len (a_name a) + len (a_value a) + 3) as Hlen.
  { subst s. rewrite !len_app, len_cons, len_app, len_cons, len_app, len_cons.
    change (len (chars "attr ")) with 5. lia. }
  rewrite len_app in Htop, Hsize. rewrite Hs. clearbody s. rewrite !len_cons in Htop, Hsize.
  pose proof (len_nonneg ws). pose proof (len_nonneg w1). pose proof (len_nonneg w2).
  pose proof (len_nonneg (a_name a)). pose proof (len_nonneg (a_value a)). pose proof (len_nonneg t0).
  unfold convert_attr, sizeof_attr_rec.
  change (chars "attr " ++ ?x) with (ch "a" :: ch "t" :: ch "t" :: ch "r" :: SP :: x).
  rewrite (step_compute _ _ _ (ch "a" :: ch "t" :: ch "t" :: ch "r" :: SP :: w1 ++
    dotted [w2; a_name a] ++ ch "=" :: a_value a ++ NL :: c0 :: t0))
    by (by apply skip_class_app).
  rewrite (step_require _ _ _ (SP :: w1 ++ dotted [w2; a_name a] ++
    ch "=" :: a_value a ++ NL :: c0 :: t0)) by reflexivity.
  rewrite (step_compute _ _ _ (w1 ++ dotted [w2; a_name a] ++
    ch "=" :: a_value a ++ NL :: c0 :: t0)) by (apply (skip_blank_word [SP]); [by repeat constructor|done]).
  destruct (store64_run m (bin + 8) (bin + 24)) as (m1 & R1 & L1 & C1); [submap|lia|].
  rewrite (step_storing _ _ _ _ R1). carry C1.
  destruct (convert_composed_spec [w2; a_name a] w1 (ch "=" :: a_value a ++ NL :: c0 :: t0)
    (bin + 24) size m1 Hw1) as (m2 & R2 & L2 & C2); cbn [last_word] in *.
  { constructor; [exact Hw2|]. constructor; [exact Hn|constructor]. }
  { by do 2 eexists. }
  { done. }
  { intros v Hin. repeat (apply elem_of_cons in Hin as [->|Hin]; [split; [submap|lia]|]).
    by apply elem_of_nil in Hin. }
  rewrite (step_run _ _ _ _ _ R2).
  specialize (C2 (bin + 24 + len w1 + len w2 + len (a_name a) + 1)).
  specialize (C2 ltac:(intros v Hin; repeat (apply elem_of_cons in Hin as [->|Hin]; [lia|]);
    by apply elem_of_nil in Hin)). carry C2.
  rewrite (step_require _ _ _ (0, a_value a ++ NL :: c0 :: t0)).
  2:{ unfold convert_op. cbn [deref mbind cres_bind drop]. rewrite drop_0.
      destruct (a_value a) as [|x v]; [done|]. cbn [app deref mbind cres_bind].
      by rewrite (proj2 (Z.eqb_neq x (ch "="))) by (intros ->; done). }
  cbn [snd].
  set (vp := bin + 24 + len (a_name a) + 1) in *.
  destruct (store64_run m2 (bin + 16) vp) as (m3 & R3 & L3 & C3); [submap|lia|].
  rewrite (step_storing _ _ _ _ R3). carry C3.
  destruct (convert_string_spec (a_value a) (NL :: c0 :: t0) vp (size - len (a_name a) - 1) m3 Hv)
    as (m4 & R4 & L4 & C4); [by do 2 eexists|submap|lia|].
  rewrite (step_run _ _ _ _ _ R4). carry C4. cbn [negb].
  rewrite (step_require _ _ _ (NL :: c0 :: t0)) by reflexivity.
  destruct (store64_run m4 bin (vp + len (a_value a) + 1)) as (m5 & R5 & L5 & C5); [submap|lia|].
  rewrite (step_storing _ _ _ _ R5). carry C5.
  do 3 eexists. split; [done|].
  assert (only_changes m m5 bin top) as Hall by collect.
  split_and!; try done; [lia|]. eapply room_step; [done|done|lia| |].
  - rewrite !len_cons. lia.
  - rewrite !len_cons. lia.
Qed.

(** ** Lists of records *)

(** The remaining items, each with the text it is read from, up to [rest]. *)
Definition text_of {A} (l : list (A * list Z)) : list Z := mjoin (snd <$> l).

Fixpoint reads_all {A} (convert : list Z -> Z -> Z -> converter cursor)
  (body : mem -> Z -> A -> Z -> Prop) (l : list (A * list Z)) (rest : list Z) : Prop :=
  match l with
  | [] => rejects convert rest
  | (x, s) :: l' =>
    s <> [] /\ reads convert body x s (text_of l' ++ rest) /\ reads_all convert body l' rest
  end.

Lemma text_of_cons {A} (x : A) s l : text_of ((x, s) :: l) = s ++ text_of l.
Proof. done. Qed.

Section record_lists.
Context {A : Type} (convert : list Z -> Z -> Z -> converter cursor).
Context (body : mem -> Z -> A -> Z -> Prop) `{!Framed body}.

(** From the record [x] already read at [lp], whose successor is still the
    free space, to the end of the list and its NULL. *)
Lemma record_loop_reads l rest fuel lp x bin size m top :
  reads_all convert body l rest -> (length (text_of l ++ rest) < fuel)%nat ->
  body m lp x bin -> load64 m lp = Ok bin -> 0 < lp -> mapped m lp top ->
  room m bin size (text_of l ++ rest) top ->
  exists last e size' m1 m2,
    record_loop convert fuel lp (text_of l ++ rest, bin, size) m =
      Ok (Some (last, (rest, e, size')), m1) /\
    store64 m1 last 0 = Ok m2 /\ chain body m2 lp (x :: (fst <$> l)) e /\
    only_changes m m2 lp top /\ room m2 e size' rest top.
Proof.
  revert fuel lp x bin size m. induction l as [|[y s] l IH];
    intros fuel lp x bin size m Hl Hfuel Hb Hn Hlp Hm Hroom;
    (destruct fuel as [|fuel]; [lia|]); pose proof (framed_size _ _ _ _ Hb) as Hsz;
    pose proof (room_top _ _ _ _ _ Hroom) as Htop; cbn [record_loop].
  - destruct (Hl m bin size top Hroom) as (m1 & R1 & C1). cbn [app text_of] in *.
    rewrite (step_attempt _ _ _ _ _ R1).
    pose proof (len_nonneg rest). change (text_of [] ++ rest) with rest in *. carry C1.
    destruct (store64_run m1 lp 0) as (m2 & R2 & L2 & C2); [submap|lia|].
    exists lp, bin, size, m1, m2. split; [done|]. split; [done|]. split_and!.
    + cbn [chain fmap list_fmap]. exists bin. split; [|done].
      eapply framed_agree; [done|]. eapply agree_trans; eapply only_changes_agree; try done; lia.
    + eapply only_changes_trans; eapply only_changes_mono; try done; lia.
    + eapply room_same; [eapply room_same|]; done.
  - destruct Hl as (Hne & Hr & Hl). rewrite text_of_cons in *. rewrite <- app_assoc in *.
    destruct (Hr m bin size top Hroom) as (e & size' & m1 & R1 & Hb1 & L1 & He & C1 & Hroom1).
    pose proof (len_nonneg (s ++ text_of l ++ rest)).
    rewrite (step_attempt _ _ _ _ _ R1). carry C1.
    destruct (IH fuel bin y e size' m1) as (last & q & size2 & m2 & m3 & R2 & S2 & Hc & C2 & Hr2);
      try done; [rewrite length_app in Hfuel; destruct s; [done|simpl in Hfuel; lia]
                | destruct Hroom; lia | submap |].
    exists last, q, size2, m2, m3. split; [done|]. split; [done|]. split_and!; [|..|done].
    + cbn [chain fmap list_fmap] in *. exists bin. split_and!; [|by carry C2|exact Hc].
      eapply framed_agree; [done|].
      eapply agree_trans; eapply only_changes_agree; try done; lia.
    + eapply only_changes_trans; eapply only_changes_mono; try done; lia.
Qed.

Lemma convert_list_reads l rest field bin size m top :
  reads_all convert body l rest -> 0 < field -> field + 8 <= bin -> mapped m field top ->
  room m bin size (text_of l ++ rest) top ->
  exists e size' m',
    convert_list convert field (text_of l ++ rest) bin size m =
      Ok (Some (rest, e, size'), m') /\
    load64 m' field = Ok (head_ptr l bin) /\ chain body m' bin (fst <$> l) e /\
    only_changes m m' field top /\ agree m m' (field + 8) bin /\
    room m' e size' rest top.
Proof.
  intros Hl Hf Hfb Hm Hroom. unfold convert_list.
  pose proof (room_top _ _ _ _ _ Hroom) as Htop. pose proof (len_nonneg (text_of l ++ rest)).
  pose proof (room_max _ _ _ _ _ Hroom) as Hmax.
  destruct (store64_run m field bin) as (m1 & R1 & L1 & C1); [submap|lia|].
  rewrite (step_storing _ _ _ _ R1). carry C1.
  pose proof Hroom as [_ Hpos _ _ Hs].
  assert (room m1 bin size (text_of l ++ rest) top) as Hroom1
    by (by eapply room_same).
  destruct l as [|[x s] l].
  - destruct (Hl m1 bin size top Hroom1) as (m2 & R2 & C2).
    change (text_of [] ++ rest) with rest in *. rewrite (step_attempt _ _ _ _ _ R2). carry C2.
    destruct (store64_run m2 field 0) as (m3 & R3 & L3 & C3); [submap|lia|].
    rewrite (step_storing _ _ _ _ R3). do 3 eexists. split; [done|]. split_and!; try done.
    + collect.
    + eapply agree_trans; [|eapply agree_trans]; eapply only_changes_agree; try done; lia.
    + eapply room_same; [eapply room_same|]; done.
  - destruct Hl as (Hne & Hr & Hl). rewrite text_of_cons in *. rewrite <- app_assoc in *.
    destruct (Hr m1 bin size top Hroom1) as (e & size' & m2 & R2 & Hb2 & L2 & He & C2 & Hroom2).
    rewrite (step_attempt _ _ _ _ _ R2). carry C2.
    destruct (record_loop_reads l rest (S (length (s ++ text_of l ++ rest))) bin x e size' m2 top)
      as (last & q & size2 & m3 & m4 & R3 & S3 & Hc & C3 & Hr3); try done.
    { rewrite !length_app. lia. }
    { submap. }
    rewrite (step_run _ _ _ _ _ R3), (step_storing _ _ _ _ S3). carry C3.
    do 3 eexists. split; [done|]. split_and!; try done.
    + collect.
    + eapply agree_trans; [|eapply agree_trans]; eapply only_changes_agree; try done; lia.
Qed.
End record_lists.

(** The connection list of an output, or the single connection of an input. *)
Lemma target_loop_reads l rest fuel conn lp x bin size m top flags :
  Forall target_ok l -> word_end rest -> head rest <> Some (ch ",") ->
  (length l < fuel)%nat -> (l <> [] -> IS_CONN_INPUT flags = false) ->
  let text := mjoin ((fun t => ch "," :: print_target t) <$> l) ++ rest in
  target_body m lp x bin -> load64 m lp = Ok bin -> 0 < lp -> mapped m lp top ->
  load16 m (conn + 8) = Ok flags -> conn + 10 <= lp ->
  room m bin size text top ->
  exists last e size' m1 m2,
    target_loop fuel conn lp (text, bin, size) m = Ok (Some (last, (rest, e, size')), m1) /\
    store64 m1 last 0 = Ok m2 /\ chain target_body m2 lp (x :: l) e /\
    only_changes m m2 lp top /\ room m2 e size' rest top.
Proof.
  intros Hl Hend Hcomma. revert fuel lp x bin size m.
  induction Hl as [|y l Hy Hl IH]; intros fuel lp x bin size m Hfuel Hin text Hb Hn Hlp Hm Hfl Hcl Hroom;
    (destruct fuel as [|fuel]; [simpl in Hfuel; lia|]); subst text;
    pose proof (framed_size _ _ _ _ Hb) as Hsz;
    pose proof (room_top _ _ _ _ _ Hroom) as Htop; cbn [target_loop].
  - change (mjoin _ ++ rest) with rest in *. pose proof (len_nonneg rest).
    destruct Hend as (c & t' & -> & Hc & Hid). rewrite (step_compute _ _ _ c) by done.
    rewrite (proj2 (Z.eqb_neq c (ch ","))) by (intros ->; done).
    destruct (store64_run m lp 0) as (m2 & R2 & L2 & C2); [submap|lia|].
    exists lp, bin, size, m, m2. split; [done|]. split; [done|]. split_and!.
    + cbn [chain]. exists bin. split; [|done].
      eapply framed_agree; [done|]. eapply only_changes_agree; [done|lia].
    + eapply only_changes_mono; [done|lia|lia].
    + by eapply room_same.
  - cbn [fmap list_fmap mjoin list_join] in *. cbn [app] in *. rewrite <- app_assoc in *.
    set (tl := mjoin ((fun t => ch "," :: print_target t) <$> l) ++ rest) in *.
    pose proof (len_nonneg (print_target y ++ tl)). rewrite len_cons in Htop.
    rewrite (step_compute _ _ _ (ch ",")), Z.eqb_refl, (step_loading _ _ _ _ Hfl) by done.
    rewrite Hin by done. cbn [drop]. rewrite drop_0.
    assert (word_end tl) as Htl.
    { subst tl. destruct l; [done|]. by do 2 eexists. }
    assert (room m bin size (print_target y ++ tl) top) as Hroom'.
    { eapply room_shorter; [exact Hroom|]. rewrite len_cons. lia. }
    destruct (target_reads y tl Hy Htl m bin size top Hroom')
      as (e & size' & m1 & R1 & Hb1 & L1 & He & C1 & Hroom1).
    rewrite (step_run _ _ _ _ _ R1). carry C1.
    destruct (IH fuel bin y e size' m1 ltac:(simpl in Hfuel; lia) ltac:(intros _; by apply Hin)
      Hb1 L1 ltac:(destruct Hroom; lia) ltac:(submap) Hfl ltac:(lia) Hroom1)
      as (last & q & size2 & m2 & m3 & R2 & S2 & Hc & C2 & Hr2).
    exists last, q, size2, m2, m3. split; [done|]. split; [done|]. split_and!; [|..|done].
    + cbn [chain] in *. exists bin. split_and!; [|by carry C2|exact Hc].
      eapply framed_agree; [done|].
      eapply agree_trans; eapply only_changes_agree; try done; lia.
    + eapply only_changes_trans; eapply only_changes_mono; try done; lia.
Qed.

(** ** Reading a connector *)

Definition attr_core (b c : list Z) (a : attr_ast) : list Z :=
  chars "attr " ++ b ++ ch "." :: c ++ ch "." :: a_name a ++ ch "=" :: a_value a.

(** The attribute lines as the converter sees them, the indentation of the
    first already skipped. *)
Definition attr_items (b c : list Z) (l : list attr_ast) : list (attr_ast * list Z) :=
  match l with
  | [] => []
  | a :: l' => (a, attr_core b c a) :: ((fun a => (a, NL :: chars "    " ++ attr_core b c a)) <$> l')
  end.

Definition spaces (l : list Z) : Prop := Forall (fun c => 0 <= c /\ ws_table c = true) l.

(** What follows the attributes: a [connect] line or the closing brace. *)
Definition after_attrs (t : list Z) : Prop :=
  (exists t', t = chars "connect " ++ t') \/ (exists t', t = ch "}" :: t').

Lemma after_attrs_solid t : after_attrs t -> skip_whitespace t = Ok t.
Proof. by intros [[t' ->]|[t' ->]]. Qed.

Lemma skip_spaces l c t :
  spaces l -> 0 <= c -> ws_table c = false -> skip_whitespace (l ++ c :: t) = Ok (c :: t).
Proof. intros. by apply skip_class_app. Qed.

Lemma skip_lead l t : spaces l -> after_attrs t -> skip_whitespace (l ++ t) = Ok t.
Proof. intros Hl [[t' ->]|[t' ->]]; by apply skip_spaces. Qed.

Lemma attr_rejects lead t : spaces lead -> after_attrs t -> rejects convert_attr (lead ++ t).
Proof.
  intros Hl Ht m bin size top Hroom. exists m. split; [|apply only_changes_refl].
  unfold convert_attr. rewrite (step_compute _ _ _ _ (skip_lead lead t Hl Ht)).
  apply step_stop. by destruct Ht as [[t' ->]|[t' ->]].
Qed.

Lemma text_of_attr_items b c l :
  l <> [] -> mjoin (print_attr b c <$> l) = chars "    " ++ text_of (attr_items b c l) ++ [NL].
Proof.
  assert (forall a l, print_attr b c a ++ mjoin (print_attr b c <$> l) =
    chars "    " ++ (attr_core b c a ++ text_of ((fun a => (a, NL :: chars "    " ++ attr_core b c a)) <$> l)) ++ [NL])
    as H; [|destruct l as [|a l']; [done|]; intros _; exact (H a l')].
  clear l. intros a l. revert a. induction l as [|x l IH]; intros a.
  - unfold print_attr, attr_core. cbn. rewrite !app_nil_r.
    repeat (rewrite <- !app_assoc; cbn [app]). done.
  - cbn [fmap list_fmap mjoin list_join] in *. rewrite IH. rewrite text_of_cons.
    unfold print_attr, attr_core. repeat (rewrite <- !app_assoc; cbn [app]). done.
Qed.

Lemma attrs_read b c l rest :
  ident b -> ident c -> Forall attr_ok l -> rejects convert_attr rest ->
  l = [] \/ (exists x t, rest = NL :: x :: t) ->
  reads_all convert_attr attr_body (attr_items b c l) rest.
Proof.
  intros Hb Hc Hl Hrej Hrest. destruct l as [|a l]; [done|].
  destruct Hrest as [?|(x & t & ->)]; [done|]. apply Forall_cons in Hl as [Ha Hl].
  cbn [attr_items reads_all]. split; [done|].
  split.
  - apply (attr_reads b c a) with (ws := []); [done..| |constructor].
    destruct l; [by do 2 eexists|]. by do 2 eexists.
  - clear a Ha. induction Hl as [|a l Ha Hl IH]; [done|]. cbn [fmap list_fmap reads_all].
    split; [done|]. split; [|exact IH].
    apply (attr_reads b c a) with (ws := NL :: chars "    "); [done..| |by repeat constructor].
    destruct l; by do 2 eexists.
Qed.

Lemma digits_ascii_up n :
  0 <= n < 2 ^ 64 -> Forall (fun c => 48 <= c <= 102) (digits true 16 n).
Proof.
  intros Hn. eapply Forall_impl; [apply (digits_all true 16); lia|].
  intros c ?%is_digit_code. cbv beta. lia.
Qed.

Lemma targets_length l :
  (length l <= length (mjoin ((fun t => ch "," :: print_target t) <$> l)))%nat.
Proof.
  induction l as [|x l IH]; [done|].
  change (mjoin _) with
    ((ch "," :: print_target x) ++ mjoin ((fun t => ch "," :: print_target t) <$> l)).
  rewrite length_app. simpl. lia.
Qed.

(** The operators, by action. *)
Definition op_text (a : Z) : list Z :=
  (if a =? STRAT_READ then ch "=" else if a =? STRAT_CREATE then ch ":"
   else if a =? STRAT_DESTROY then ch "/" else if a =? STRAT_INIT then ch "+"
   else if a =? STRAT_SHUTDOWN then ch "-" else ch "^") :: [ch "="].

Lemma op_reads a t : 0 <= a <= 5 -> convert_op (op_text a ++ t) = Ok (Some (a, t)).
Proof.
  intros Ha. assert (a = 0 \/ a = 1 \/ a = 2 \/ a = 3 \/ a = 4 \/ a = 5) as H by lia.
  by destruct H as [->|[->|[->|[->|[->| ->]]]]].
Qed.

Lemma op_word_end a t : 0 <= a <= 5 -> word_end (op_text a ++ t).
Proof.
  intros Ha. assert (a = 0 \/ a = 1 \/ a = 2 \/ a = 3 \/ a = 4 \/ a = 5) as H by lia.
  by destruct H as [->|[->|[->|[->|[->| ->]]]]]; do 2 eexists.
Qed.

(** The [connect] line. *)
Lemma connect_reads cname a t l rest conn bin size m top v flags :
  ident cname -> 0 <= a <= 5 -> target_ok t -> Forall target_ok l ->
  (l <> [] -> IS_CONN_INPUT flags = false) ->
  let text := SP :: cname ++ op_text a ++ print_target t ++
              mjoin ((fun t => ch "," :: print_target t) <$> l) ++ NL :: rest in
  0 < conn -> conn + sizeof_conn_rec <= bin -> mapped m conn top ->
  load16 m (conn + 8) = Ok v -> flags = Z.lor v (Z.shiftl a 4) -> 0 <= flags < 2 ^ 16 ->
  room m bin size text top ->
  exists e size' m',
    convert_connect conn text bin size m = Ok (Some (NL :: rest, e, size'), m') /\
    load16 m' (conn + 8) = Ok flags /\ load64 m' (conn + 32) = Ok bin /\
    chain target_body m' bin (t :: l) e /\ only_changes m m' (conn + 8) top /\
    agree m m' (conn + 10) (conn + 32) /\ agree m m' (conn + 40) bin /\
    room m' e size' (NL :: rest) top.
Proof.
  intros Hcn Ha Ht Hl Hin text Hconn Hcb Hm Hfl Hlor Hfr Hroom. unfold sizeof_conn_rec in *.
  pose proof (room_top _ _ _ _ _ Hroom) as Htop. pose proof (len_nonneg text).
  pose proof (room_max _ _ _ _ _ Hroom) as Hmax.
  set (tl := mjoin ((fun t => ch "," :: print_target t) <$> l) ++ NL :: rest) in *.
  unfold convert_connect.
  rewrite (step_compute _ _ _ (cname ++ op_text a ++ print_target t ++ tl))
    by (apply (skip_blank_word [SP]); [by repeat constructor|done]).
  rewrite (step_require _ _ _ (op_text a ++ print_target t ++ tl))
    by (apply skip_word_any; [done|by apply op_word_end]).
  rewrite (step_require _ _ _ _ (op_reads a (print_target t ++ tl) Ha)).
  destruct (set_flags_run m (conn + 8) (fun v => Z.lor v (Z.shiftl a 4)) v)
    as (m1 & R1 & L1 & C1); [submap|done|by rewrite <- Hlor|].
  rewrite (step_run _ _ _ _ _ R1). rewrite <- Hlor in L1. clear Hfl. carry C1.
  assert (skip_whitespace (print_target t ++ tl) = Ok (print_target t ++ tl)) as Hws.
  { unfold print_target, format_x. pose proof (digits_ascii_up (t_addr t) ltac:(apply Ht)) as Hd.
    pose proof (digits_nonempty true 16 (t_addr t)).
    destruct (digits true 16 (t_addr t)) as [|c d]; [done|].
    apply Forall_cons in Hd as [Hd _]. apply skip_ws_none; [lia|].
    unfold ws_table, SP, TAB, NL. lia. }
  rewrite (step_compute _ _ _ _ Hws).
  destruct (store64_run m1 (conn + 32) bin) as (m2 & R2 & L2 & C2); [submap|lia|].
  rewrite (step_storing _ _ _ _ R2). carry C2.
  assert (word_end tl) as Htl by (subst tl; destruct l; by do 2 eexists).
  assert (room m2 bin size (print_target t ++ tl) top) as Hroom2.
  { eapply room_shorter; [eapply room_same; [eapply room_same; [exact Hroom|done]|done]|].
    subst text. rewrite len_cons, !len_app.
    pose proof (len_nonneg cname). pose proof (len_nonneg (op_text a)). lia. }
  destruct (target_reads t tl Ht Htl m2 bin size top Hroom2)
    as (e & size1 & m3 & R3 & B3 & L3 & He & C3 & Hroom3).
  rewrite (step_attempt _ _ _ _ _ R3). carry C3.
  destruct (target_loop_reads l (NL :: rest) (S (length (print_target t ++ tl))) conn bin t e
    size1 m3 top flags Hl) as (last & q & size2 & m4 & m5 & R4 & S4 & Hc & C4 & Hr4); try done.
  { by do 2 eexists. }
  { subst tl. rewrite !length_app. pose proof (targets_length l). lia. }
  { lia. }
  { submap. }
  { lia. }
  rewrite (step_run _ _ _ _ _ R4), (step_storing _ _ _ _ S4). carry C4.
  do 3 eexists. split; [done|]. split_and!; try done.
  - collect.
  - repeat (eapply agree_trans; [eapply only_changes_agree; [eassumption|lia]|]). by intros ??.
  - repeat (eapply agree_trans; [eapply only_changes_agree; [eassumption|lia]|]). by intros ??.
Qed.

Definition kind_text (c : conn_ast) : list Z :=
  let kind := if c_input c then chars "input" else chars "output" in
  if c_active c then kind else ch "(" :: kind ++ [ch ")"].

(** The text of a connector without its indentation, and what is in its
    braces. *)
Definition conn_inner (b : list Z) (c : conn_ast) : list Z :=
  mjoin (print_attr b (c_name c) <$> c_attrs c) ++
  print_targets (c_name c) (c_targets c) ++ chars "  }" ++ [NL].
Definition conn_core (b : list Z) (c : conn_ast) : list Z :=
  kind_text c ++ chars "==" ++ c_name c ++ chars " {" ++ NL :: conn_inner b c.

Lemma print_conn_core b c : print_conn b c = chars "  " ++ conn_core b c.
Proof.
  unfold print_conn, print_head, conn_core, conn_inner, kind_text.
  repeat (rewrite <- !app_assoc; cbn [app]). done.
Qed.

(** Parentheses around what is not initialised. *)
Lemma open_none a mask c t m :
  c <> ch "(" -> convert_open a mask (c :: t) m = Ok (Some (c :: t), m).
Proof.
  intros Hc. unfold convert_open. rewrite (step_compute _ _ _ c) by done.
  by rewrite (proj2 (Z.eqb_neq c _)).
Qed.

Lemma open_paren a mask v t m :
  mapped m a (a + 2) -> load16 m a = Ok v -> 0 <= land_not 16 v mask < 2 ^ 16 ->
  exists m', convert_open a mask (ch "(" :: t) m = Ok (Some t, m') /\
    load16 m' a = Ok (land_not 16 v mask) /\ only_changes m m' a (a + 2).
Proof.
  intros Hm Hv Hr.
  destruct (set_flags_run m a (fun v => land_not 16 v mask) v Hm Hv Hr) as (m' & R & L & C).
  exists m'. split; [|done]. unfold convert_open. rewrite (step_compute _ _ _ (ch "(")) by done.
  rewrite Z.eqb_refl, (step_run _ _ _ _ _ R). cbn [drop]. by rewrite drop_0.
Qed.

Lemma close_none a mask v t m :
  load16 m a = Ok v -> Z.land v mask <> 0 -> convert_close a mask t m = Ok (Some t, m).
Proof.
  intros Hv Hz. unfold convert_close. rewrite (step_loading _ _ _ _ Hv).
  by rewrite (proj2 (Z.eqb_neq _ 0)).
Qed.

Lemma close_paren a mask v t m :
  load16 m a = Ok v -> Z.land v mask = 0 ->
  convert_close a mask (ch ")" :: t) m = Ok (Some t, m).
Proof.
  intros Hv Hz. unfold convert_close. rewrite (step_loading _ _ _ _ Hv), Hz, Z.eqb_refl.
  rewrite (step_compute _ _ _ (ch ")")) by done. cbn. by rewrite drop_0.
Qed.

Lemma skip_word_hit w t :
  Forall (fun c => id_table c = true) w -> word_end t ->
  skip_word (w ++ t) (Some (w ++ [NUL])) = Ok (Some t).
Proof.
  intros Hw (c & t' & -> & Hc & Hid).
  assert (skip_match (w ++ c :: t') (w ++ [NUL]) = Ok (c :: t', [NUL])) as Hm.
  { induction Hw as [|x w Hx Hw IH]; cbn [app skip_match].
    - by rewrite tbl_ok, Hid by done.
    - pose proof (id_code x Hx). rewrite tbl_ok, Hx by lia. cbn [mbind cres_bind deref drop].
      by rewrite Z.eqb_refl, drop_0. }
  unfold skip_word. rewrite Hm. cbn [mbind cres_bind deref fst snd].
  by rewrite tbl_ok, Hid by done.
Qed.

(** The keyword of an output sets a bit, that of an input none. *)
Lemma keyword_reads (input : bool) conn f t m :
  mapped m (conn + 8) (conn + 10) -> load16 m (conn + 8) = Ok f -> word_end t ->
  f = 0 \/ f = 16 ->
  exists m', (forall k : list Z -> converter (list Z),
     (o ← compute (skip_word ((if input then chars "input" else chars "output") ++ t)
                     (Some (cstr "output")));
      text ← (match o with
              | Some text =>
                _ ← set_flags (conn + 8) (fun v => Z.lor v MASK_CONN_TYPE); done_with text
              | None => require (skip_word ((if input then chars "input" else chars "output") ++ t)
                                   (Some (cstr "input")))
              end);
      k text) m = k t m') /\
    load16 m' (conn + 8) = Ok (if input then f else Z.lor f MASK_CONN_TYPE) /\
    only_changes m m' (conn + 8) (conn + 10).
Proof.
  intros Hm Hf (c & t' & -> & Hc & Hid) Hr. destruct input.
  - exists m. split; [|split; [done|apply only_changes_refl]]. intros k.
    rewrite (step_compute _ _ _ None) by done.
    rewrite (step_require _ _ _ (c :: t')); [done|].
    apply (skip_word_hit (chars "input")); [by repeat constructor|by do 2 eexists].
  - assert (0 <= Z.lor f MASK_CONN_TYPE < 2 ^ 16) as Hlor.
    { by destruct Hr as [->| ->]. }
    destruct (set_flags_run m (conn + 8) (fun v => Z.lor v MASK_CONN_TYPE) f)
      as (m' & R & L & C); [submap|done|done|].
    exists m'. split; [|split; [done|by replace (conn + 10) with (conn + 8 + 2) by lia]]. intros k.
    rewrite (step_compute _ _ _ (Some (c :: t'))).
    + apply step_run. by rewrite (step_run _ _ _ _ _ R).
    + apply (skip_word_hit (chars "output")); [by repeat constructor|by do 2 eexists].
Qed.

Lemma kind_reads c rest conn m :
  mapped m (conn + 8) (conn + 10) -> (exists x t, rest = x :: t /\ x <> ch "=") ->
  exists m', convert_kind conn (kind_text c ++ chars "==" ++ rest) m = Ok (Some rest, m') /\
    load16 m' (conn + 8) = Ok (conn_flags c) /\ only_changes m m' (conn + 8) (conn + 10).
Proof.
  intros Hm Hrest. unfold convert_kind, kind_text, conn_flags.
  destruct (store16_run m (conn + 8) MASK_CONN_ACTIVE) as (m1 & R1 & L1 & C1);
    [submap|done|]. rewrite (step_storing _ _ _ _ R1). carry C1.
  set (kind := if c_input c then chars "input" else chars "output").
  set (tail := chars "==" ++ rest).
  destruct (c_active c).
  - assert (skip_whitespace (kind ++ tail) = Ok (kind ++ tail)) as Hws
      by (subst kind; by destruct (c_input c)).
    rewrite (step_compute _ _ _ _ Hws).
    rewrite (step_run _ _ m1 (kind ++ tail) m1) by (subst kind; by destruct (c_input c)).
    destruct (keyword_reads (c_input c) conn 16 tail m1) as (m2 & R2 & L2 & C2);
      [done|done|by do 2 eexists|by right|].
    fold kind in R2. rewrite R2. carry C2.
    rewrite (step_run _ _ _ _ _ (close_none (conn + 8) MASK_CONN_ACTIVE _ tail _ L2
      ltac:(by destruct (c_input c); vm_compute))).
    rewrite (step_compute _ _ _ tail), (step_require _ _ _ (0, rest)) by done.
    destruct (set_flags_run m2 (conn + 8) (fun v => Z.lor v 0) _ ltac:(submap) L2)
      as (m3 & R3 & L3 & C3); [by destruct (c_input c)|].
    rewrite (step_run _ _ _ _ _ R3). exists m3. split; [done|]. split; [|collect].
    rewrite L3. by destruct (c_input c).
  - rewrite (step_compute _ _ _ (ch "(" :: kind ++ ch ")" :: tail))
      by (cbn [app]; rewrite <- app_assoc; done).
    destruct (open_paren (conn + 8) MASK_CONN_ACTIVE MASK_CONN_ACTIVE (kind ++ ch ")" :: tail) m1)
      as (m2 & R2 & L2 & C2); [submap|done|done|].
    rewrite (step_run _ _ _ _ _ R2). carry C2.
    destruct (keyword_reads (c_input c) conn 0 (ch ")" :: tail) m2) as (m3 & R3 & L3 & C3);
      [done|done|by do 2 eexists|by left|].
    fold kind in R3. rewrite R3. carry C3.
    rewrite (step_run _ _ _ _ _ (close_paren (conn + 8) MASK_CONN_ACTIVE _ tail _ L3
      ltac:(by destruct (c_input c)))).
    rewrite (step_compute _ _ _ tail), (step_require _ _ _ (0, rest)) by done.
    destruct (set_flags_run m3 (conn + 8) (fun v => Z.lor v 0) _ ltac:(submap) L3)
      as (m4 & R4 & L4 & C4); [by destruct (c_input c)|].
    rewrite (step_run _ _ _ _ _ R4). exists m4. split; [done|]. split; [|collect].
    rewrite L4. by destruct (c_input c).
Qed.

(** The connections and the closing brace, without their indentation. *)
Definition conn_tail (c : conn_ast) : list Z :=
  match c_targets c with
  | [] => []
  | t :: l => chars "connect " ++ c_name c ++ chars "==" ++ print_target t ++
              mjoin ((fun t => ch "," :: print_target t) <$> l) ++ NL :: chars "  "
  end ++ ch "}" :: [NL].
Definition tail_indent (c : conn_ast) : list Z :=
  match c_targets c with [] => chars "  " | _ => chars "    " end.
Definition conn_lead (c : conn_ast) : list Z :=
  match c_attrs c with [] => [] | _ => NL :: tail_indent c end.
Definition inner_indent (c : conn_ast) : list Z :=
  match c_attrs c with [] => tail_indent c | _ => chars "    " end.

Lemma conn_inner_split b c :
  conn_inner b c = inner_indent c ++ text_of (attr_items b (c_name c) (c_attrs c)) ++
                   conn_lead c ++ conn_tail c.
Proof.
  assert (print_targets (c_name c) (c_targets c) ++ chars "  }" ++ [NL] =
    tail_indent c ++ conn_tail c) as Ht.
  { unfold tail_indent, conn_tail, print_targets. destruct (c_targets c) as [|t l]; [done|].
    repeat (rewrite <- !app_assoc; cbn [app]). done. }
  unfold conn_inner, inner_indent, conn_lead. rewrite Ht.
  destruct (c_attrs c) as [|a l]; [done|]. rewrite text_of_attr_items by done.
  repeat (rewrite <- !app_assoc; cbn [app]). done.
Qed.

Lemma conn_tail_after c t : after_attrs (conn_tail c ++ t).
Proof.
  unfold conn_tail. destruct (c_targets c) as [|t0 l]; [right|left]; eexists; [done|].
  rewrite <- !app_assoc. done.
Qed.

Lemma tail_indent_spaces c : spaces (tail_indent c).
Proof. unfold tail_indent. destruct (c_targets c); by repeat constructor. Qed.
Lemma conn_lead_spaces c : spaces (conn_lead c).
Proof.
  unfold conn_lead. destruct (c_attrs c); [constructor|].
  constructor; [done|apply tail_indent_spaces].
Qed.
Lemma inner_indent_spaces c : spaces (inner_indent c).
Proof.
  unfold inner_indent. destruct (c_attrs c); [apply tail_indent_spaces|by repeat constructor].
Qed.

(** A text that starts outside white space. *)
Definition solid (x : list Z) : Prop := exists c t, x = c :: t /\ 0 <= c /\ ws_table c = false.

Lemma solid_ws x : solid x -> skip_whitespace x = Ok x.
Proof. intros (c & t & -> & Hc & Hw). by apply skip_ws_none. Qed.

(** The start of the braces' contents is solid and not a parameter line. *)
Lemma inner_start b c t word :
  word = cstr "c_param" ->
  let x := text_of (attr_items b (c_name c) (c_attrs c)) ++ conn_lead c ++ conn_tail c ++ t in
  solid x /\ skip_param word x = Ok x.
Proof.
  intros -> x. subst x. unfold conn_lead, conn_tail.
  destruct (c_attrs c) as [|a l]; [destruct (c_targets c)|];
    (split; [by do 2 eexists|done]).
Qed.

(** The steps of [skip_str]. *)
Lemma skip_str_space t t' skip :
  skip_whitespace t = Ok t' -> skip_str t (SP :: skip) = skip_str t' skip.
Proof. intros H. cbn [skip_str]. change (SP =? NUL) with false. by rewrite Z.eqb_refl, H. Qed.

Lemma skip_str_char c t skip :
  c <> NUL -> c <> SP -> skip_str (c :: t) (c :: skip) = skip_str t skip.
Proof.
  intros H1 H2. cbn [skip_str]. rewrite (proj2 (Z.eqb_neq c NUL)), (proj2 (Z.eqb_neq c SP)) by done.
  cbn [deref mbind cres_bind drop]. by rewrite Z.eqb_refl, drop_0.
Qed.

Lemma skip_open_brace l x :
  spaces l -> solid x -> skip_str (SP :: ch "{" :: NL :: l ++ x) (cstr " { ") = Ok (Some x).
Proof.
  intros Hl (c & t & -> & Hc & Hw). change (cstr " { ") with [SP; ch "{"; SP; NUL].
  rewrite (skip_str_space _ (ch "{" :: NL :: l ++ c :: t)) by done.
  rewrite skip_str_char by done. rewrite (skip_str_space _ (c :: t)); [done|].
  apply (skip_spaces (NL :: l)); [by constructor|done|done].
Qed.

Lemma skip_close_brace lead ws rest :
  spaces lead -> spaces ws -> solid rest ->
  skip_str (lead ++ ch "}" :: NL :: ws ++ rest) (cstr " } ") = Ok (Some rest).
Proof.
  intros Hl Hws (x & t & -> & Hx & Hw). change (cstr " } ") with [SP; ch "}"; SP; NUL].
  rewrite (skip_str_space _ (ch "}" :: NL :: ws ++ x :: t)) by (by apply skip_spaces).
  rewrite skip_str_char by done. rewrite (skip_str_space _ (x :: t)); [done|].
  apply (skip_spaces (NL :: ws)); [by constructor|done|done].
Qed.

(** What follows the connections is the closing brace, indented or not. *)
Lemma targets_read c ws rest conn bin size m top :
  conn_ok c ->
  0 < conn -> conn + sizeof_conn_rec <= bin -> mapped m conn top ->
  load16 m (conn + 8) = Ok (conn_flags c) ->
  room m bin size (conn_lead c ++ conn_tail c ++ ws ++ rest) top ->
  exists lead e size' m',
    convert_targets conn (conn_lead c ++ conn_tail c ++ ws ++ rest, bin, size) m =
      Ok (Some (lead ++ ch "}" :: NL :: ws ++ rest, e, size'), m') /\ spaces lead /\
    load16 m' (conn + 8) = Ok (conn_flags c) /\
    load64 m' (conn + 32) = Ok (head_ptr (c_targets c) bin) /\
    chain target_body m' bin (c_targets c) e /\
    only_changes m m' (conn + 8) top /\
    agree m m' (conn + 10) (conn + 32) /\ agree m m' (conn + 40) bin /\
    room m' e size' (lead ++ ch "}" :: NL :: ws ++ rest) top.
Proof.
  intros (Hn & _ & Ht & Hin) Hc Hb Hm Hf Hroom. unfold sizeof_conn_rec in *.
  pose proof (room_top _ _ _ _ _ Hroom) as Htop.
  pose proof (len_nonneg (conn_lead c ++ conn_tail c ++ ws ++ rest)).
  unfold convert_targets.
  rewrite (step_compute _ _ _ _ (skip_lead _ _ (conn_lead_spaces c) (conn_tail_after c _))).
  destruct (store64_run m (conn + 32) 0) as (m1 & R1 & L1 & C1); [submap|lia|].
  rewrite (step_storing _ _ _ _ R1). carry C1.
  assert (room m1 bin size (conn_tail c ++ ws ++ rest) top) as Hroom1.
  { eapply room_shorter; [by eapply room_same|]. rewrite !len_app. pose proof (len_nonneg (conn_lead c)). lia. }
  unfold conn_tail in *. destruct (c_targets c) as [|t l] eqn:Htl.
  - rewrite (step_compute _ _ _ None) by done. exists [], bin, size, m1.
    split; [done|]. split; [constructor|]. split_and!; try done.
    + eapply only_changes_mono; [done|lia|lia].
    + eapply only_changes_agree; [done|lia].
    + eapply only_changes_agree; [done|lia].
  - apply Forall_cons in Ht as [Ht Hl].
    set (inner := chars "  " ++ ch "}" :: NL :: ws ++ rest).
    set (line := SP :: c_name c ++ chars "==" ++ print_target t ++
      mjoin ((fun t => ch "," :: print_target t) <$> l) ++ NL :: inner).
    set (whole := ((chars "connect " ++ c_name c ++ _) ++ _) ++ _) in *.
    assert (whole = chars "connect" ++ line) as Hx.
    { subst whole line inner. repeat (rewrite <- !app_assoc; cbn [app]). done. }
    rewrite Hx in *. clearbody whole.
    rewrite (step_compute _ _ _ (Some line)).
    2:{ apply (skip_word_hit (chars "connect")); [by repeat constructor|by do 2 eexists]. }
    assert (room m1 bin size line top) as Hroom2.
    { eapply room_shorter; [exact Hroom1|]. rewrite len_app. pose proof (len_nonneg (chars "connect")). lia. }
    destruct (connect_reads (c_name c) 0 t l inner conn bin size m1 top (conn_flags c)
      (conn_flags c) Hn ltac:(lia) Ht Hl)
      as (e & size' & m2 & R2 & F2 & L2 & Hch & C2 & A2 & B2 & Hr2); try done.
    { intros Hne. unfold IS_CONN_INPUT, conn_flags. destruct (c_input c).
      - specialize (Hin eq_refl). destruct l; [done|]. simpl in Hin. lia.
      - by destruct (c_active c). }
    { unfold conn_flags. by destruct (c_active c), (c_input c). }
    { unfold conn_flags. by destruct (c_active c), (c_input c). }
    exists (NL :: chars "  "), e, size', m2. split; [exact R2|].
    split; [by repeat constructor|]. split_and!; try done.
    + eapply only_changes_trans; [|done]. eapply only_changes_mono; [done|lia|lia].
    + eapply agree_trans; [|done]. eapply only_changes_agree; [done|lia].
    + eapply agree_trans; [|done]. eapply only_changes_agree; [done|lia].
Qed.

Lemma attr_items_fst b c l : fst <$> attr_items b c l = l.
Proof.
  destruct l as [|a l]; [done|]. cbn. f_equal. rewrite <- list_fmap_compose.
  apply list_fmap_id.
Qed.

Lemma head_ptr_items b c l p : head_ptr (attr_items b c l) p = head_ptr l p.
Proof. by destruct l. Qed.

Lemma conn_reads b c ws rest :
  ident b -> conn_ok c -> spaces ws -> solid rest ->
  reads convert_conn conn_body c (conn_core b c ++ ws) rest.
Proof.
  intros Hb Hok Hws Hrest m bin size top Hroom. pose proof Hok as (Hn & Ha & _).
  set (x := text_of (attr_items b (c_name c) (c_attrs c)) ++ conn_lead c ++
            conn_tail c ++ ws ++ rest).
  set (after := SP :: ch "{" :: NL :: inner_indent c ++ x).
  assert ((conn_core b c ++ ws) ++ rest = kind_text c ++ chars "==" ++ c_name c ++ after) as Hx.
  { unfold conn_core. rewrite conn_inner_split. subst after x.
    repeat (rewrite <- !app_assoc; cbn [app]). done. }
  rewrite Hx in *. pose proof Hroom as [Hm Hpos Htop Hmax Hsize].
  assert (len (kind_text c ++ chars "==" ++ c_name c ++ after) =
    len (kind_text c) + len (c_name c) + len (inner_indent c) + len x + 5) as Hlen.
  { subst after. rewrite !len_app, !len_cons, len_app. change (len (chars "==")) with 2. lia. }
  assert (5 <= len (kind_text c)) as Hkind.
  { unfold kind_text. destruct (c_active c), (c_input c); vm_compute; congruence. }
  pose proof (len_nonneg (c_name c)). pose proof (len_nonneg (inner_indent c)).
  pose proof (len_nonneg x). rewrite Hlen in *.
  unfold convert_conn, sizeof_conn_rec. rewrite (wrap_small 64 (size - 40)) by lia.
  assert (exists y t, c_name c ++ after = y :: t /\ y <> ch "=") as Hname.
  { destruct Hn as [Hne Hid]. destruct (c_name c) as [|y nm]; [done|].
    apply Forall_cons in Hid as [Hy _]. do 2 eexists. split; [done|]. by intros ->. }
  destruct (kind_reads c (c_name c ++ after) bin m ltac:(submap) Hname) as (m1 & R1 & F1 & C1).
  rewrite (step_run _ _ _ _ _ R1). carry C1.
  destruct (store64_run m1 (bin + 16) (bin + 40)) as (m2 & R2 & L2 & C2); [submap|lia|].
  rewrite (step_storing _ _ _ _ R2). carry C2.
  destruct (convert_composed_spec [] (c_name c) after (bin + 40) (size - 40) m2 Hn)
    as (m3 & R3 & S3 & C3); [constructor|by do 2 eexists|done| |].
  { intros v Hin. apply list_elem_of_singleton in Hin as ->. split; [submap|lia]. }
  specialize (C3 (bin + 40 + len (c_name c) + 1)
    ltac:(intros v Hin; apply list_elem_of_singleton in Hin as ->; lia)).
  cbn [last_word] in *. change (dotted [] ++ after) with after in R3.
  rewrite (step_run _ _ _ _ _ R3). carry C3.
  destruct (inner_start b c (ws ++ rest) _ eq_refl) as [Hsolid Hparam]. fold x in Hsolid, Hparam.
  rewrite (step_compute _ _ _ _ (skip_open_brace _ _ (inner_indent_spaces c) Hsolid)).
  cbn [default from_option id]. rewrite (step_compute _ _ _ _ Hparam).
  set (pa := bin + 40 + len (c_name c) + 1) in *.
  assert (pa = bin + 40 + len (c_name c) + 1) as Hpa by done.
  assert (room m3 pa (size - 40 - len (c_name c) - 1) x top) as Hroom3
    by (split; try done; subst pa; lia || submap).
  destruct (convert_list_reads convert_attr attr_body (attr_items b (c_name c) (c_attrs c))
    (conn_lead c ++ conn_tail c ++ ws ++ rest) (bin + 24) pa (size - 40 - len (c_name c) - 1)
    m3 top) as (pt & size4 & m4 & R4 & L4 & Ch4 & C4 & A4 & Hroom4); try done.
  { apply attrs_read; try done.
    - apply attr_rejects; [apply conn_lead_spaces|apply conn_tail_after].
    - unfold conn_lead, tail_indent. destruct (c_attrs c); [by left|right].
      destruct (c_targets c); by do 2 eexists. }
  { lia. } { subst pa; lia. } { submap. }
  rewrite (step_run _ _ _ _ _ R4). pose proof (chain_bound _ _ _ _ _ Ch4) as Hpt.
  assert (string_in m4 (bin + 40) (c_name c)) as S4 by (frame; within).
  rewrite attr_items_fst, head_ptr_items in *. carry C4.
  destruct (targets_read c ws rest bin pt size4 m4 top Hok Hpos)
    as (lead & e & size5 & m5 & R5 & Hlead & F5 & L5 & Ch5 & C5 & A5 & B5 & Hroom5); try done;
    [unfold sizeof_conn_rec; lia|].
  rewrite (step_run _ _ _ _ _ R5). pose proof (chain_bound _ _ _ _ _ Ch5) as He.
  assert (load64 m5 (bin + 16) = Ok (bin + 40)) as L6 by (frame; within).
  assert (load64 m5 (bin + 24) = Ok (head_ptr (c_attrs c) pa)) as L7 by (frame; within).
  assert (string_in m5 (bin + 40) (c_name c)) as S5 by (clear S3; frame; within).
  assert (chain attr_body m5 pa (c_attrs c) pt) as Ch6.
  { apply (chain_agree attr_body m4 m5 pa (c_attrs c) pt Ch4). within. }
  pose proof (mapped_only_changes _ _ _ _ _ _ C5 Hm) as Hm5. clear Ch4 L4 L2 S4 F1 Hm.
  rewrite (step_require _ _ _ _ (skip_close_brace lead ws rest Hlead Hws Hrest)).
  pose proof Hroom5 as [_ _ Htop5 _ _]. pose proof (len_nonneg (lead ++ ch "}" :: NL :: ws ++ rest)).
  destruct (store64_run m5 bin e) as (m6 & R6 & L8 & C6); [submap|lia|].
  rewrite (step_storing _ _ _ _ R6). carry C6.
  exists e, size5, m6. split; [done|]. split_and!; try done.
  - unfold conn_body, sizeof_conn_rec. exists pt. fold pa. split_and!; done.
  - lia.
  - collect.
  - eapply room_shorter; [by eapply room_same|]. rewrite len_app, !len_cons, len_app.
    pose proof (len_nonneg lead). pose proof (len_nonneg ws). lia.
Qed.

(** ** Reading a brick *)

(** The connectors as the converter sees them: without the indentation
    before the first, with that of the next one behind each. *)
Fixpoint conn_items (b : list Z) (l : list conn_ast) : list (conn_ast * list Z) :=
  match l with
  | [] => []
  | c :: l' => (c, conn_core b c ++ match l' with [] => [] | _ => chars "  " end)
               :: conn_items b l'
  end.

Lemma conn_items_text b l :
  mjoin (print_conn b <$> l) =
  match l with [] => [] | _ => chars "  " end ++ text_of (conn_items b l).
Proof.
  induction l as [|c l IH]; [done|]. cbn [fmap list_fmap mjoin list_join conn_items].
  rewrite text_of_cons.
  change (print_conn b c ++ mjoin (print_conn b <$> l) = chars "  " ++
    (conn_core b c ++ match l with [] => [] | _ => chars "  " end) ++ text_of (conn_items b l)).
  rewrite IH, print_conn_core. by rewrite <- !app_assoc.
Qed.

Lemma conn_items_fst b l : fst <$> conn_items b l = l.
Proof. induction l as [|c l IH]; [done|]. cbn. by f_equal. Qed.
Lemma head_ptr_conns b l p : head_ptr (conn_items b l) p = head_ptr l p.
Proof. by destruct l. Qed.

Lemma brace_stops t bin size m :
  mapped m (bin + 8) (bin + 10) ->
  exists m', convert_conn (ch "}" :: t) bin size m = Ok (None, m') /\
    only_changes m m' (bin + 8) (bin + 10).
Proof.
  intros Hm. destruct (store16_run m (bin + 8) MASK_CONN_ACTIVE) as (m1 & R1 & L1 & C1);
    [submap|done|].
  exists m1. split; [|eapply only_changes_mono; [done|lia|lia]].
  unfold convert_conn. apply step_stop. unfold convert_kind.
  rewrite (step_storing _ _ _ _ R1), (step_compute _ _ _ (ch "}" :: t)) by done.
  rewrite (step_run _ _ m1 (ch "}" :: t) m1) by done.
  by rewrite (step_compute _ _ _ None).
Qed.

Lemma brace_rejects t : rejects convert_conn (ch "}" :: t).
Proof.
  intros m bin size top [Hm Hpos Htop Hmax Hsize]. rewrite len_cons in *. pose proof (len_nonneg t).
  destruct (brace_stops t bin size m) as (m1 & Hrun & Hc); [submap|].
  exists m1. split; [done|]. eapply only_changes_mono; [done|lia|lia].
Qed.

Lemma kind_text_solid c t : solid (kind_text c ++ t).
Proof. unfold kind_text. destruct (c_active c), (c_input c); by do 2 eexists. Qed.

Lemma conn_core_app b c t : conn_core b c ++ t = kind_text c ++ (chars "==" ++ c_name c ++
  chars " {" ++ NL :: conn_inner b c) ++ t.
Proof. unfold conn_core. by rewrite <- !app_assoc. Qed.

Lemma conn_items_solid b l t : solid (text_of (conn_items b l) ++ ch "}" :: t).
Proof.
  destruct l as [|c l]; [by do 2 eexists|]. cbn [conn_items]. rewrite text_of_cons, <- !app_assoc.
  rewrite conn_core_app. apply kind_text_solid.
Qed.

Lemma conns_read b l t :
  ident b -> Forall conn_ok l -> reads_all convert_conn conn_body (conn_items b l) (ch "}" :: t).
Proof.
  intros Hb. induction 1 as [|c l Hc Hl IH]; cbn [conn_items reads_all]; [apply brace_rejects|].
  split; [|split; [|exact IH]].
  - rewrite conn_core_app. by destruct (kind_text_solid c ((chars "==" ++ c_name c ++ chars " {" ++
      NL :: conn_inner b c) ++ match l with [] => [] | _ => chars "  " end)) as (? & ? & -> & _).
  - apply conn_reads; [done|done| |apply conn_items_solid].
    destruct l; by repeat constructor.
Qed.

(** Neither a parameter line nor an attribute begins a connector. *)
Lemma conns_start b l t :
  let x := text_of (conn_items b l) ++ ch "}" :: t in
  skip_param (cstr "b_param") x = Ok x /\ rejects convert_attr x.
Proof.
  intros x. subst x.
  assert (exists y u, text_of (conn_items b l) ++ ch "}" :: t = y :: u /\
    (y = ch "i" \/ y = ch "o" \/ y = ch "(" \/ y = ch "}")) as (y & u & -> & Hy).
  { destruct l as [|c l]; [do 2 eexists; split; [done|tauto]|]. cbn [conn_items].
    rewrite text_of_cons, <- !app_assoc, conn_core_app. unfold kind_text.
    destruct (c_active c), (c_input c); (do 2 eexists; split; [done|tauto]). }
  split; [by destruct Hy as [->|[->|[->| ->]]]|].
  intros m bin size top _. exists m. split; [|apply only_changes_refl].
  unfold convert_attr. rewrite (step_compute _ _ _ (y :: u)).
  - apply step_stop. by destruct Hy as [->|[->|[->| ->]]].
  - by destruct Hy as [->|[->|[->| ->]]].
Qed.

Lemma brick_reads b rest m bin size top :
  brick_ok b -> solid rest -> room m bin size (print_brick b ++ rest) top ->
  exists e size' m',
    convert_brick (print_brick b ++ rest) bin size m = Ok (Some (rest, e, size'), m') /\
    represents m' bin b e /\ only_changes m m' bin top /\ e <= top.
Proof.
  intros [Hn Hc] Hrest Hroom.
  set (x := text_of (conn_items (b_name b) (b_conns b)) ++ ch "}" :: NL :: rest).
  set (ind := match b_conns b with [] => [] | _ => chars "  " end).
  set (after := SP :: ch "{" :: NL :: ind ++ x).
  assert (print_brick b ++ rest = chars "brick==" ++ b_name b ++ after) as Hx.
  { unfold print_brick. rewrite conn_items_text. subst after x ind.
    repeat (rewrite <- !app_assoc; cbn [app]). done. }
  assert (spaces ind) as Hind by (subst ind; destruct (b_conns b); by repeat constructor).
  rewrite Hx in *. pose proof Hroom as [Hm Hpos Htop Hmax Hsize].
  assert (len (chars "brick==" ++ b_name b ++ after) = 7 + len (b_name b) + 3 + len ind + len x)
    as Hlen by (subst after; rewrite !len_app, !len_cons, len_app;
                change (len (chars "brick==")) with 7; lia).
  rewrite Hlen in *. pose proof (len_nonneg (b_name b)). pose proof (len_nonneg ind).
  pose proof (len_nonneg x). unfold convert_brick, sizeof_brick_rec.
  destruct (store16_run m bin MASK_BRICK_ACTIVE) as (m1 & R1 & F1 & C1); [submap|done|].
  rewrite (step_storing _ _ _ _ R1). carry C1.
  rewrite (step_compute _ _ _ (chars "brick==" ++ b_name b ++ after)) by done.
  rewrite (step_run _ _ m1 (chars "brick==" ++ b_name b ++ after) m1) by done.
  rewrite (step_require _ _ _ (chars "==" ++ b_name b ++ after)) by done.
  rewrite (step_run _ _ _ _ _ (close_none bin MASK_BRICK_ACTIVE _
    (chars "==" ++ b_name b ++ after) m1 F1 ltac:(done))).
  rewrite (step_compute _ _ _ (chars "==" ++ b_name b ++ after)) by done.
  rewrite (step_require _ _ _ (0, b_name b ++ after)).
  2:{ destruct Hn as [Hne Hid]. destruct (b_name b) as [|y nm]; [done|].
      apply Forall_cons in Hid as [Hy _]. unfold convert_op. cbn.
      by destruct (Z.eqb_spec y (ch "=")) as [->|]. }
  destruct (set_flags_run m1 bin (fun v => Z.lor v 0) _ ltac:(submap) F1)
    as (m2 & R2 & F2 & C2); [done|].
  rewrite (step_run _ _ _ _ _ R2). clear F1. carry C2.
  destruct (store64_run m2 (bin + 8) (bin + 32)) as (m3 & R3 & L3 & C3); [submap|lia|].
  rewrite (step_storing _ _ _ _ R3). carry C3.
  destruct (convert_word_spec (b_name b) after (bin + 32) size m3 Hn) as (m4 & R4 & S4 & C4);
    [by do 2 eexists|submap|lia|].
  rewrite (step_run _ _ _ _ _ R4). carry C4.
  rewrite (step_require _ _ _ _ (skip_open_brace ind x Hind (conn_items_solid _ _ _))).
  destruct (conns_start (b_name b) (b_conns b) (NL :: rest)) as [Hparam Hrej]. fold x in Hparam, Hrej.
  rewrite (step_compute _ _ _ _ Hparam).
  set (pc := bin + 32 + len (b_name b) + 1) in *.
  assert (pc = bin + 32 + len (b_name b) + 1) as Hpc by done.
  assert (room m4 pc (size - len (b_name b) - 1) x top) as Hroom4
    by (split; try done; lia || submap).
  destruct (convert_list_reads convert_attr attr_body [] x (bin + 16) pc
    (size - len (b_name b) - 1) m4 top Hrej)
    as (pc' & size5 & m5 & R5 & L5 & Ch5 & C5 & A5 & Hroom5); [lia|lia|submap|done|].
  change (text_of [] ++ x) with x in R5. rewrite (step_run _ _ _ _ _ R5).
  cbn [chain fmap list_fmap] in Ch5. subst pc'.
  assert (string_in m5 (bin + 32) (b_name b)) as S5 by (frame; within). carry C5.
  destruct (convert_list_reads convert_conn conn_body (conn_items (b_name b) (b_conns b))
    (ch "}" :: NL :: rest) (bin + 24) pc size5 m5 top)
    as (e & size6 & m6 & R6 & L6 & Ch6 & C6 & A6 & Hroom6); try done.
  { by apply conns_read. } { lia. } { lia. } { submap. }
  rewrite (step_run _ _ _ _ _ R6).
  assert (string_in m6 (bin + 32) (b_name b)) as S6 by (clear S4; frame; within).
  clear S4 S5. carry C6.
  rewrite conn_items_fst, head_ptr_conns in *.
  rewrite (step_require _ _ _ _ (skip_close_brace [] [] rest ltac:(constructor) ltac:(constructor) Hrest)).
  exists e, size6, m6. split; [done|]. split_and!.
  - unfold represents, sizeof_brick_rec. fold pc. split_and!; done.
  - collect.
  - destruct Hroom6 as [_ _ Htop6 _ _]. pose proof (len_nonneg (ch "}" :: NL :: rest)). lia.
Qed.
