(* ===== verification/BinStratText.v ===== *)
(** * Printing brick descriptions

    [brick_to_string] walks the records of a brick and prints its
    description, and what it prints is read back to the same description.
    The file also holds the concrete defects of the converters that the
    model shows. *)

From S2P Require Import Prelude CLib Memory StratScan AthStdio BinStrat BinStratRead.
Open Scope Z_scope.

(** ** Strings and chains are bounded by the memory *)

Lemma size_bytes (m : mem) p n :
  (forall i, (i < n)%nat -> is_Some (m !! (p + Z.of_nat i))) -> (n <= size m)%nat.
Proof.
  intros H. rewrite <- (size_dom m).
  assert (size (list_to_set ((fun i => p + Z.of_nat i) <$> seq 0 n) : gset Z) = n) as Hs.
  { rewrite size_list_to_set, length_fmap, length_seq; [done|].
    apply NoDup_fmap_2; [intros x y; lia|apply NoDup_seq]. }
  rewrite <- Hs at 1. apply subseteq_size. intros x Hx.
  apply elem_of_list_to_set, list_elem_of_fmap in Hx as (i & -> & Hi).
  apply elem_of_seq in Hi. apply elem_of_dom, H. lia.
Qed.

Lemma string_bound m p s : string_in m p s -> (length s < size m)%nat.
Proof.
  intros Hs. apply (size_bytes m p (S (length s))). intros i Hi.
  destruct (lookup_lt_is_Some_2 (s ++ [NUL]) i) as [x Hx]; [rewrite length_app; simpl; lia|].
  rewrite (Hs i x Hx). by eexists.
Qed.

Lemma load_string_in fuel m p s :
  Forall (fun c => 0 < c < 128) s -> string_in m p s -> (length s < fuel)%nat ->
  load_string fuel m p = Ok s.
Proof.
  intros Hs. revert p fuel. induction Hs as [|c s Hc Hs IH]; intros p [|fuel] Hin Hf;
    try (simpl in Hf; lia).
  - pose proof (Hin 0%nat NUL eq_refl) as H0. rewrite Z.add_0_r in H0.
    cbn [load_string]. unfold load8. by rewrite H0.
  - pose proof (Hin 0%nat c eq_refl) as H0. rewrite Z.add_0_r in H0.
    cbn [load_string]. unfold load8. rewrite H0. cbn [mbind cres_bind].
    rewrite (wrap_small 8 c), (proj2 (Z.eqb_neq c 0)) by lia.
    rewrite (IH (p + 1) fuel); [| |simpl in Hf; lia].
    + cbn [mbind cres_bind]. rewrite swrap_small by lia. done.
    + intros i x Hx. rewrite <- (Hin (S i) x Hx). f_equal. lia.
Qed.

Lemma string_at_in m p a s :
  Forall (fun c => 0 < c < 128) s -> load64 m p = Ok a -> string_in m a s ->
  string_at m p = Ok (s ++ [NUL]).
Proof.
  intros Hs Ha Hin. unfold string_at. rewrite Ha. cbn [mbind cres_bind].
  rewrite (load_string_in _ m a s Hs Hin); [done|].
  apply string_bound in Hin. lia.
Qed.

Lemma load64_mapped m p v : load64 m p = Ok v -> is_Some (m !! p).
Proof.
  unfold load64. intros H. destruct (m !! p) as [b|] eqn:E; [by exists b|].
  cbn [load_le] in H. unfold load8 in H. by rewrite E in H.
Qed.

Lemma chain_count {A} (body : mem -> Z -> A -> Z -> Prop) `{!Framed body} m p l q :
  chain body m p l q ->
  exists X : gset Z, X ⊆ dom m /\ size X = length l /\ forall x, x ∈ X -> p <= x < q.
Proof.
  revert p. induction l as [|x l IH]; intros p H; cbn [chain] in H.
  - exists ∅. split_and!; [set_solver|apply size_empty|set_solver].
  - destruct H as (e & Hb & Hn & Hc). destruct (IH e Hc) as (X & Hsub & Hsize & Hin).
    pose proof (framed_size _ _ _ _ Hb). pose proof (chain_bound _ _ _ _ _ Hc).
    exists ({[p]} ∪ X). split_and!.
    + apply union_subseteq. split; [|done]. apply singleton_subseteq_l, elem_of_dom.
      by eapply load64_mapped.
    + rewrite size_union, size_singleton, Hsize; [done|].
      apply disjoint_singleton_l. intros Hp%Hin. lia.
    + intros y [->%elem_of_singleton|Hy%Hin]%elem_of_union; lia.
Qed.

Lemma chain_length {A} (body : mem -> Z -> A -> Z -> Prop) `{!Framed body} m p l q :
  chain body m p l q -> (length l <= size m)%nat.
Proof.
  intros (X & Hsub & <- & _)%(chain_count body). rewrite <- size_dom. by apply subseteq_size.
Qed.

(** ** Formats *)

Lemma expected_char c fmt l :
  (c =? NUL) || (c =? ch "%") = false -> expected (c :: fmt) l = cons c <$> expected fmt l.
Proof. intros [H1 H2]%orb_false_iff. cbn [expected]. by rewrite H1, H2. Qed.

Lemma expected_nul l : expected [NUL] l = Some [].
Proof. done. Qed.

Lemma body_nul s : Forall (fun c => 0 < c < 128) s -> body (s ++ [NUL]) = s.
Proof.
  induction 1 as [|c s Hc Hs IH]; [done|]. cbn [app body].
  rewrite (proj2 (Z.eqb_neq c 0)) by lia. by f_equal.
Qed.

(** Strings of printable size. *)
Definition vstr (s : list Z) : Prop := Forall (fun c => 0 < c < 128) s /\ len s < 2 ^ 31.

Lemma expected_str s fmt l :
  vstr s -> expected (ch "%" :: ch "s" :: fmt) (VStr (s ++ [NUL]) :: l) = app s <$> expected fmt l.
Proof.
  intros [Hs Hl]. rewrite expected_percent. change (takes_argument (ch "s")) with true. cbn match.
  unfold conv_text. change (ch "s" =? ch "c") with false. change (ch "s" =? ch "S") with false.
  rewrite Z.eqb_refl, (terminated_app s [NUL] Hs) by done.
  rewrite (proj2 (Z.ltb_lt _ _)), body_nul; [done|done|].
  unfold len in Hl. rewrite length_app. simpl. lia.
Qed.

Lemma expected_addr a fmt l :
  0 <= a < 2 ^ 64 ->
  expected (ch "%" :: ch "L" :: fmt) (VAddr a :: l) = app (format_x true a) <$> expected fmt l.
Proof.
  intros Ha. rewrite expected_percent. change (takes_argument (ch "L")) with true. cbn match.
  replace (conv_text (ch "L") (VAddr a :: l)) with (Some (format_x true (u64 a), l)) by done.
  by rewrite wrap_small.
Qed.

(** Evaluate [expected] on a format of literal text, strings and addresses. *)
Ltac expect :=
  unfold cstr;
  repeat match goal with |- context [chars ?x] =>
    let v := eval vm_compute in (chars x) in change (chars x) with v end;
  cbn [app]; repeat (rewrite <- !app_assoc; cbn [app]);
  repeat first
    [ rewrite expected_str by assumption
    | rewrite expected_addr by assumption
    | rewrite expected_nul
    | rewrite expected_char by done ]; cbn [fmap option_fmap option_map app];
  rewrite ?app_nil_r.

(** ** Output that leaves room *)

(** The output variables after printing [t] into a buffer, of which [rest]
    is left, with [n] bytes counted. *)
Definition out_at (t rest : list Z) (n : Z) : outbuf := (t ++ rest, length t, n).

(** [f] prints [u] if it fits with two more bytes. *)
Definition writes {O} (some : outbuf -> O) (f : outbuf -> cres O) (u : list Z) : Prop :=
  forall t rest n, len u + 2 <= n <= len rest -> n < 2 ^ 31 ->
  exists rest', f (out_at t rest n) = Ok (some (out_at (t ++ u) rest' (n - len u))) /\
    len rest' = len rest - len u.

Lemma writes_nil {O} (some : outbuf -> O) f : (forall o, f o = Ok (some o)) -> writes some f [].
Proof.
  intros Hf t rest n _ _. exists rest. rewrite Hf, app_nil_r. change (len []) with 0.
  by rewrite !Z.sub_0_r.
Qed.

Lemma writes_ext {O} (some : outbuf -> O) f g u :
  (forall o, f o = g o) -> writes some g u -> writes some f u.
Proof. intros H Hg t rest n. rewrite H. apply Hg. Qed.

Lemma writes_bind {O} (some : outbuf -> O) f g u v :
  writes id f u -> writes some g v -> writes some (fun o => o ← f o; g o) (u ++ v).
Proof.
  intros Hf Hg t rest n Hn Hmax. rewrite len_app in *.
  pose proof (len_nonneg u). pose proof (len_nonneg v).
  destruct (Hf t rest n ltac:(lia) Hmax) as (r1 & -> & H1). cbn [mbind cres_bind id].
  destruct (Hg (t ++ u) r1 (n - len u) ltac:(lia) ltac:(lia)) as (r2 & -> & H2).
  exists r2. rewrite <- app_assoc, Z.sub_add_distr. split; [done|lia].
Qed.

Lemma emit_writes fmt l u :
  terminated fmt = true -> (len u < 2 ^ 31 -> expected fmt l = Some u) -> writes id (emit fmt l) u.
Proof.
  intros Hf Hu t rest n Hn Hmax. specialize (Hu ltac:(lia)). unfold emit, out_at. rewrite drop_app_length.
  destruct (athvsnprintf_run rest n fmt l u Hf Hu) as (w & Hrun & Hlen & Hw);
    [unfold len in *; lia|].
  rewrite Hw in * by (unfold len in *; lia). unfold athsnprintf. rewrite Hrun. cbn [mbind cres_bind id].
  exists (NUL :: drop (S (length u)) rest). cbn [fst snd]. rewrite take_app_length, Nat2Z.id. split.
  - by rewrite length_app, <- app_assoc.
  - unfold len in *. rewrite length_cons, length_drop. lia.
Qed.

(** Plain stores of [u ++ v], of which [u] counts. *)
Lemma append_writes u v t rest n :
  len u + len v <= len rest ->
  exists rest', append (u ++ v) (out_at t rest n) = Ok (t ++ u ++ rest', length t, n) /\
    len rest' = len rest - len u.
Proof.
  intros Hr. unfold append, out_at. rewrite drop_app_length, take_app_length.
  rewrite <- len_app in Hr. unfold len in *. rewrite write_front_ok by lia.
  cbn [mbind cres_bind].
  exists (v ++ drop (length (u ++ v)) rest). rewrite <- app_assoc. split; [done|].
  rewrite !length_app, length_drop in *. lia.
Qed.

Lemma advance_at t u rest n : advance_out (len u) (t ++ u ++ rest, length t, n) = out_at (t ++ u) rest (n - len u).
Proof. unfold advance_out, out_at, len. rewrite Nat2Z.id, length_app, <- app_assoc. done. Qed.

Lemma for_records_writes {A} (body : mem -> Z -> A -> Z -> Prop) `{!Framed body}
  (f : Z -> outbuf -> cres outbuf) (pr : A -> list Z) m l :
  forall fuel p q, (forall p x e, x ∈ l -> body m p x e -> writes id (f p) (pr x)) ->
  chain body m p l q -> 0 < p -> (length l < fuel)%nat ->
  writes id (for_records fuel m (head_ptr l p) f) (mjoin (pr <$> l)).
Proof.
  induction l as [|x l IH]; intros [|fuel] p q Hf Hc Hp Hl; try (simpl in Hl; lia).
  - by apply writes_nil.
  - cbn [chain] in Hc. destruct Hc as (e & Hb & Hn & Hc). pose proof (framed_size _ _ _ _ Hb).
    cbn [head_ptr]. intros t rest n Hlen Hmax. cbn [for_records].
    rewrite (proj2 (Z.eqb_neq p 0)) by lia.
    refine (writes_bind id (f p) (fun o => next ← load64 m p; for_records fuel m next f o)
      (pr x) (mjoin (pr <$> l)) _ _ t rest n Hlen Hmax).
    + eapply Hf; [set_solver|done].
    + rewrite Hn. cbn [mbind cres_bind].
      refine (IH fuel e q _ Hc ltac:(lia) ltac:(simpl in Hl; lia)).
      intros. eapply Hf; [set_solver|done].
Qed.

(** ** The pieces of a description *)

Lemma ident_str w : ident w -> Forall (fun c => 0 < c < 128) w.
Proof. intros [_ H]. eapply Forall_impl; [exact H|]. intros c Hc%id_code. lia. Qed.

Lemma attr_str a : attr_ok a ->
  Forall (fun c => 0 < c < 128) (a_name a) /\ Forall (fun c => 0 < c < 128) (a_value a).
Proof.
  intros (Hn & Hv & _). split; [by apply ident_str|]. eapply Forall_impl; [exact Hv|]. simpl. lia.
Qed.

(** The strings of a line are no longer than the line. *)
Ltac strings H :=
  repeat (rewrite len_app in H || rewrite len_cons in H);
  repeat match type of H with context [len ?s] =>
    lazymatch goal with _ : 0 <= len s |- _ => fail | _ => pose proof (len_nonneg s) end end;
  repeat match goal with K : Forall (fun c => 0 < c < 128) ?s |- _ =>
    lazymatch goal with _ : vstr s |- _ => fail | _ => assert (vstr s) by (split; [exact K|lia]) end
  end.

Lemma attr_line_writes b c v w x u :
  Forall (fun c => 0 < c < 128) b -> Forall (fun c => 0 < c < 128) c ->
  Forall (fun c => 0 < c < 128) v -> Forall (fun c => 0 < c < 128) w ->
  x = [VStr (b ++ [NUL]); VStr (c ++ [NUL]); VStr (v ++ [NUL]); VStr (w ++ [NUL])] ->
  u = print_attr b c {| a_name := v; a_value := w |} ->
  writes id (emit (chars "    attr %s.%s.%s=%s" ++ [NL; NUL]) x) u.
Proof.
  intros Hb Hc Hv Hw -> ->. apply emit_writes; [done|]. unfold print_attr. cbn [a_name a_value].
  intros Hlen.
  strings Hlen. by expect.
Qed.

Lemma conn_head_writes c :
  ident (c_name c) ->
  writes id (emit (conn_fmt (c_active c))
    [VStr (if c_input c then cstr "input" else cstr "output"); VStr (c_name c ++ [NUL])])
    (print_head c).
Proof.
  intros Hn%ident_str. unfold print_head. apply emit_writes; [by destruct (c_active c)|].
  intros Hlen.
  assert (vstr (c_name c))  by (destruct (c_active c); strings Hlen; done).
  set (k := if c_input c then chars "input" else chars "output").
  assert (vstr k) by (subst k; destruct (c_input c);
    (split; [by apply (bool_decide_unpack _); vm_compute|done])).
  replace (if c_input c then cstr "input" else cstr "output") with (k ++ [NUL])
    by (subst k; by destruct (c_input c)).
  clearbody k. unfold conn_fmt. by destruct (c_active c); expect.
Qed.

(** The test for space and the closing characters of a block. *)
Lemma closing_writes u v k :
  len u = k -> len v <= 1 ->
  writes Some (fun o : outbuf => if o.2 <? k then Ok None else
                 o ← append (u ++ v) o; Ok (Some (advance_out k o))) u.
Proof.
  intros <- Hv t rest n Hn _. cbn [out_at snd]. rewrite (proj2 (Z.ltb_ge n (len u))) by lia.
  destruct (append_writes u v t rest n ltac:(lia)) as (r & Ha & Hr).
  rewrite Ha. cbn [mbind cres_bind].
  exists r. by rewrite advance_at.
Qed.

Lemma conn_connect_writes m conn t l q cn p :
  Forall (fun c => 0 < c < 128) cn -> Forall target_ok (t :: l) ->
  string_at m (conn + 16) = Ok (cn ++ [NUL]) ->
  0 < p -> chain target_body m p (t :: l) q ->
  writes Some (connect_line m conn p) (print_targets cn (t :: l)).
Proof.
  intros Hcn Hl Hc Hp (e & (Ha & Hna & Hs & He) & Hn & Hch).
  pose proof Hl as [[Hta Htn] Hl']%Forall_cons. apply ident_str in Htn.
  pose proof (string_at_in _ _ _ _ Htn Hna Hs) as Hst.
  pose proof (chain_length _ _ _ _ _ Hch) as Hsize.
  eapply writes_ext.
  { intros o. unfold connect_line. rewrite Hc, Ha, Hst. cbn [mbind cres_bind]. reflexivity. }
  assert (print_targets cn (t :: l) = (chars "    connect " ++ cn ++ chars "==" ++ print_target t) ++
    mjoin ((fun t => ch "," :: print_target t) <$> l) ++ [NL]) as ->
    by (unfold print_targets; by rewrite <- !app_assoc).
  apply writes_bind.
  { apply emit_writes; [done|]. unfold print_target. intros Hlen. strings Hlen. by expect. }
  eapply writes_ext.
  { intros o. rewrite Hn. cbn [mbind cres_bind]. reflexivity. }
  eapply writes_bind.
  { eapply (for_records_writes target_body _ _ m l); [|done| |lia].
    - intros p' x e' Hx (Ha' & Hna' & Hs' & _).
      pose proof (proj1 (Forall_forall _ _) Hl' x Hx) as [Hxa Hxn]. apply ident_str in Hxn.
      pose proof (string_at_in _ _ _ _ Hxn Hna' Hs') as Hst'.
      eapply writes_ext.
      { intros o. rewrite Ha', Hst'. cbn [mbind cres_bind]. reflexivity. }
      apply emit_writes; [done|]. unfold print_target. intros Hlen. strings Hlen. by expect.
    - unfold sizeof_conn_target_rec, len in *. lia. }
  exact (closing_writes [NL] [] 1 eq_refl ltac:(done)).
Qed.

(** The test for a value of the output variables. *)
Lemma writes_then (f : outbuf -> cres (option outbuf)) (g : outbuf -> cres (option outbuf)) u v :
  writes Some f u -> writes Some g v ->
  writes Some (fun o => r ← f o; match r with None => Ok None | Some o => g o end) (u ++ v).
Proof.
  intros Hf Hg t rest n Hn Hmax. rewrite len_app in *.
  pose proof (len_nonneg u). pose proof (len_nonneg v).
  destruct (Hf t rest n ltac:(lia) Hmax) as (r1 & -> & H1). cbn [mbind cres_bind].
  destruct (Hg (t ++ u) r1 (n - len u) ltac:(lia) ltac:(lia)) as (r2 & -> & H2).
  exists r2. rewrite <- app_assoc, Z.sub_add_distr. split; [done|lia].
Qed.

Lemma load64_head {A} m q (l : list A) p : load64 m q = Ok (head_ptr l p) -> 0 < p ->
  exists h, load64 m q = Ok h /\ (h =? 0) = match l with [] => true | _ => false end /\ h = head_ptr l p.
Proof.
  intros H Hp. exists (head_ptr l p). split_and!; [done| |done].
  destruct l; [done|]. apply Z.eqb_neq. simpl. lia.
Qed.

Lemma flags_active c : IS_CONN_ACTIVE (conn_flags c) = c_active c.
Proof. unfold conn_flags. by destruct (c_active c), (c_input c). Qed.
Lemma flags_input c : IS_CONN_INPUT (conn_flags c) = c_input c.
Proof. unfold conn_flags. by destruct (c_active c), (c_input c). Qed.

Lemma conn_block_writes m brick conn bn c e :
  Forall (fun x => 0 < x < 128) bn -> string_at m (brick + 8) = Ok (bn ++ [NUL]) ->
  conn_ok c -> 0 < conn -> conn_body m conn c e ->
  writes Some (conn_block m brick conn) (print_conn bn c).
Proof.
  intros Hb Hbn (Hn & Hattrs & Htargets & _) Hp
    (pt & Hf & Hna & Hs & Hpa & Hca & Hpt & Hct).
  pose proof (ident_str _ Hn) as Hns. pose proof (string_at_in _ _ _ _ Hns Hna Hs) as Hcn.
  unfold sizeof_conn_rec in *. pose proof (len_nonneg (c_name c)).
  pose proof (chain_bound _ _ _ _ _ Hca). pose proof (chain_length _ _ _ _ _ Hca).
  eapply writes_ext.
  { intros o. unfold conn_block. rewrite Hf. cbn [mbind cres_bind].
    rewrite Hcn, flags_active, flags_input. cbn [mbind cres_bind]. reflexivity. }
  unfold print_conn. apply writes_bind; [by apply conn_head_writes|].
  eapply writes_ext.
  { intros o. rewrite Hpa. cbn [mbind cres_bind]. reflexivity. }
  apply writes_bind.
  { eapply (for_records_writes attr_body _ _ m); [|done|lia|lia].
    intros p x e' Hx (Ha1 & Ha2 & Ha3 & Ha4 & _).
    pose proof (proj1 (Forall_forall _ _) Hattrs x Hx) as [Hxn Hxv]%attr_str.
    pose proof (string_at_in _ _ _ _ Hxn Ha1 Ha2) as Hst1.
    pose proof (string_at_in _ _ _ _ Hxv Ha3 Ha4) as Hst2.
    eapply writes_ext.
    { intros o. rewrite Hbn, ?Hcn, Hst1, Hst2. cbn [mbind cres_bind]. reflexivity. }
    eapply attr_line_writes; [exact Hb|exact Hns|exact Hxn|exact Hxv|done|by destruct x]. }
  eapply writes_ext.
  { intros o. rewrite Hpt. cbn [mbind cres_bind]. reflexivity. }
  apply writes_then.
  - destruct (c_targets c) as [|t l] eqn:Ht; [by apply writes_nil|].
    eapply writes_ext.
    { intros o. cbn [head_ptr]. rewrite (proj2 (Z.eqb_neq pt 0)) by lia. reflexivity. }
    by eapply conn_connect_writes; [| | |lia|].
  - exact (closing_writes (chars "  }" ++ [NL]) [NUL] 4 eq_refl ltac:(done)).
Qed.

Lemma for_conns_writes m brick bn l :
  Forall (fun x => 0 < x < 128) bn -> string_at m (brick + 8) = Ok (bn ++ [NUL]) ->
  Forall conn_ok l -> forall fuel p q, chain conn_body m p l q -> 0 < p -> (length l < fuel)%nat ->
  writes Some (for_conns fuel m brick (head_ptr l p)) (mjoin (print_conn bn <$> l)).
Proof.
  intros Hb Hbn. induction 1 as [|c l Hc Hl IH]; intros [|fuel] p q Hch Hp Hfuel;
    try (simpl in Hfuel; lia); [by apply writes_nil|].
  destruct Hch as (e & Hbody & Hnext & Hch). pose proof (framed_size _ _ _ _ Hbody).
  eapply writes_ext.
  { intros o. cbn [for_conns head_ptr]. rewrite (proj2 (Z.eqb_neq p 0)) by lia. reflexivity. }
  apply writes_then; [by eapply conn_block_writes|].
  eapply writes_ext.
  { intros o. rewrite Hnext. cbn [mbind cres_bind]. reflexivity. }
  eapply (IH fuel e q Hch); [lia|simpl in Hfuel; lia].
Qed.

(** What is printed for the records of a description is its text, with its
    terminator, in any buffer that holds it. *)
Lemma brick_prints m p b e buf n :
  brick_ok b -> 0 < p -> represents m p b e ->
  len (print_brick b) + 1 <= n <= len buf -> n < 2 ^ 31 ->
  exists rest, brick_to_string m buf n p =
    Ok (Some (print_brick b ++ NUL :: rest, S (length (print_brick b)),
              n - len (print_brick b) - 1)) /\
    len rest = len buf - len (print_brick b) - 1.
Proof.
  intros [Hbn Hconns] Hp (Hf & Hna & Hs & Hattr & Hpc & Hch) Hlen Hmax.
  unfold sizeof_brick_rec in *. pose proof (len_nonneg (b_name b)).
  pose proof (ident_str _ Hbn) as Hbs. pose proof (string_at_in _ _ _ _ Hbs Hna Hs) as Hst.
  pose proof (chain_length _ _ _ _ _ Hch) as Hcount.
  set (text := (chars "brick==" ++ b_name b ++ chars " {" ++ [NL]) ++
               mjoin (print_conn (b_name b) <$> b_conns b)).
  assert (print_brick b = text ++ [ch "}"; NL]) as Htext.
  { unfold print_brick. subst text. by rewrite <- !app_assoc. }
  rewrite Htext in *. rewrite !len_app, !len_cons in Hlen. change (len []) with 0 in Hlen.
  set (f := fun o : outbuf =>
    o ← emit (chars "brick==%s {" ++ [NL; NUL]) [VStr (b_name b ++ [NUL])] o;
    for_conns (S (size m)) m p (head_ptr (b_conns b) (p + 32 + len (b_name b) + 1)) o).
  assert (writes Some f text) as Hw.
  { apply writes_bind.
    - apply emit_writes; [done|]. intros Hl. strings Hl. by expect.
    - by apply (for_conns_writes m p (b_name b) (b_conns b) Hbs Hst Hconns _ _ e); [|lia|lia]. }
  destruct (Hw [] buf n) as (rest & Hrun & Hrest); [lia|done|].
  assert (brick_to_string m buf n p = (r ← f (out_at [] buf n);
    match r with None => Ok None | Some o =>
      if o.2 <? 3 then Ok None else
      o ← append [ch "}"; NL; NUL] o; Ok (Some (advance_out 3 o)) end)) as ->.
  { unfold brick_to_string, f, out_at. rewrite Hst. cbn [mbind cres_bind app].
    destruct (emit _ _ _) as [o|]; [|done]. cbn [mbind cres_bind]. rewrite Hattr.
    cbn [mbind cres_bind for_records]. rewrite Hpc. done. }
  rewrite Hrun. cbn [mbind cres_bind app snd].
  change (out_at text rest (n - len text)).2 with (n - len text). rewrite (proj2 (Z.ltb_ge _ 3)) by lia.
  destruct (append_writes [ch "}"; NL; NUL] [] text rest (n - len text)) as (r & Ha & Hr).
  { rewrite !len_cons. change (len []) with 0. lia. }
  rewrite app_nil_r in Ha. rewrite Ha. cbn [mbind cres_bind advance_out].
  rewrite !len_cons in Hr. change (len []) with 0 in *. exists r.
  split; [|rewrite len_app; change (len [ch "}"; NL]) with 2; lia].
  do 2 f_equal. rewrite len_app, length_app, <- !app_assoc. cbn [app length].
  change (len [ch "}"; NL]) with 2.
  change (Z.to_nat 3) with 3%nat. f_equal; [f_equal; lia|lia].
Qed.

(** * The contract *)

(** C13: [brick_to_string] prints the description of a brick and
    [convert_brick] reads it back.  For every well-formed description that
    records in memory represent, printing into a buffer with room for exactly
    the text and its terminator succeeds and stores the text; and converting
    this text into any free region with sixteen bytes for every character and
    64 more succeeds, leaves records of the same description there, consumes
    all text before the terminator and changes nothing outside the region.  The
    descriptions are of a brick with its connectors, their attributes and
    targets.  Attributes of the brick itself are left out: what is printed for
    one is not read back ([brick_attr_not_read]). *)
Theorem brick_roundtrip m p b e buf n :
  brick_ok b -> 0 < p -> represents m p b e ->
  len (print_brick b) + 1 <= n <= len buf -> n < 2 ^ 31 ->
  exists out rest, brick_to_string m buf n p = Ok (Some out) /\
    out = (print_brick b ++ NUL :: rest, S (length (print_brick b)),
           n - len (print_brick b) - 1) /\
    len out.1.1 = len buf /\
    forall m2 bin size top, room m2 bin size (print_brick b ++ NUL :: rest) top ->
    exists e2 size2 m2',
      convert_brick (print_brick b ++ NUL :: rest) bin size m2 =
        Ok (Some (NUL :: rest, e2, size2), m2') /\
      represents m2' bin b e2 /\ only_changes m2 m2' bin top /\ e2 <= top.
Proof.
  intros Hb Hp Hr Hn Hmax.
  destruct (brick_prints m p b e buf n Hb Hp Hr Hn Hmax) as (rest & Hrun & Hrest).
  exists (print_brick b ++ NUL :: rest, S (length (print_brick b)), n - len (print_brick b) - 1), rest.
  split; [done|]. split; [done|]. split; [cbn [fst]; rewrite len_app, len_cons; lia|].
  intros m2 bin size top Hroom.
  apply brick_reads; [done| |done]. by exists NUL, rest.
Qed.

(** A connector is made active by the action of its [connect] line, and the
    other way round the bit of an active connector shows in the action of
    the line: the masks of the two overlap. *)

(** The action of a [connect] line shares a bit with the mark of
    initialised connectors.  After converting the line of a connector, the
    stored target action is the written one with the lowest bit set if the
    connector is active, so [==] reads back as the action of [:=]; and an
    inactive connector becomes active under every operator with an odd
    action. *)
Lemma connect_action_overlaps cname c a t rest conn bin size m top :
  ident cname -> 0 <= a <= 5 -> target_ok t ->
  let text := SP :: cname ++ op_text a ++ print_target t ++ NL :: rest in
  0 < conn -> conn + sizeof_conn_rec <= bin -> mapped m conn top ->
  load16 m (conn + 8) = Ok (conn_flags c) -> room m bin size text top ->
  exists r m' flags, convert_connect conn text bin size m = Ok (Some r, m') /\
    load16 m' (conn + 8) = Ok flags /\
    GET_CONN_TARGET_ACTION flags = Z.lor a (if c_active c then STRAT_CREATE else 0) /\
    IS_CONN_ACTIVE flags = c_active c || Z.odd a.
Proof.
  intros Hn Ha Ht text Hc Hb Hm Hf Hroom.
  assert (a = 0 \/ a = 1 \/ a = 2 \/ a = 3 \/ a = 4 \/ a = 5) as Hcases by lia.
  destruct (connect_reads cname a t [] rest conn bin size m top (conn_flags c)
    (Z.lor (conn_flags c) (Z.shiftl a 4)) Hn Ha Ht) as (e & size' & m' & Hrun & Hload & _);
    try done.
  - unfold conn_flags.
    by destruct Hcases as [->|[->|[->|[->|[->| ->]]]]]; destruct (c_active c), (c_input c).
  - do 3 eexists. split; [exact Hrun|]. split; [exact Hload|]. unfold conn_flags.
    by destruct Hcases as [->|[->|[->|[->|[->| ->]]]]]; destruct (c_active c), (c_input c).
Qed.

(** A list without elements. *)
Lemma convert_list_empty convert field text bin size m lo hi :
  mapped m field (field + 8) -> 0 <= bin < 2 ^ 64 ->
  (forall m0, only_changes m m0 field (field + 8) ->
    exists m1, convert text bin size m0 = Ok (None, m1) /\ only_changes m0 m1 lo hi) ->
  exists m', convert_list convert field text bin size m = Ok (Some (text, bin, size), m') /\
    (forall a b, (b <= field \/ field + 8 <= a) -> (b <= lo \/ hi <= a) -> agree m m' a b) /\
    (forall a b, mapped m a b -> mapped m' a b).
Proof.
  intros Hm Hb Hconv. unfold convert_list.
  destruct (store64_run m field bin Hm Hb) as (m1 & R1 & L1 & C1).
  rewrite (step_storing _ _ _ _ R1). destruct (Hconv m1 C1) as (m2 & R2 & C2).
  rewrite (step_attempt _ _ _ _ _ R2).
  pose proof (mapped_only_changes _ _ _ _ _ _ C2 (mapped_only_changes _ _ _ _ _ _ C1 Hm)) as Hm2.
  destruct (store64_run m2 field 0 Hm2 ltac:(lia)) as (m3 & R3 & L3 & C3).
  rewrite (step_storing _ _ _ _ R3). exists m3. split; [done|]. split.
  - intros a b H1 H2. eapply agree_trans; [by eapply only_changes_agree|].
    eapply agree_trans; eapply only_changes_agree; done.
  - intros a b Hab. do 2 (eapply mapped_only_changes; [eassumption|]).
    by eapply mapped_only_changes.
Qed.

(** The record of a brick is not charged to the size of the buffer.
    For a brick without contents the converter succeeds with a buffer whose
    size is that of the name alone, and stores the name behind the record of
    32 bytes: with a shorter name, completely behind the end of the
    buffer. *)
Lemma convert_brick_overruns w rest bin m :
  ident w -> len w < 2 ^ 31 -> solid rest -> 0 < bin < 2 ^ 62 ->
  mapped m bin (bin + 32 + len w + 1 + 10) ->
  let size := len w + 1 in
  exists size' m',
    convert_brick (print_brick {| b_name := w; b_conns := [] |} ++ rest) bin size m =
      Ok (Some (rest, bin + 32 + size, size'), m') /\
    string_in m' (bin + 32) w.
Proof.
  intros Hw Hlen Hrest Hbin Hm size. pose proof (len_nonneg w).
  set (tail := ch "}" :: NL :: rest). set (after := SP :: ch "{" :: NL :: tail).
  assert (print_brick {| b_name := w; b_conns := [] |} ++ rest = chars "brick==" ++ w ++ after) as ->.
  { unfold print_brick. subst after tail. cbn [b_name b_conns fmap list_fmap mjoin list_join].
    repeat (rewrite <- !app_assoc; cbn [app]). done. }
  unfold convert_brick, sizeof_brick_rec.
  destruct (store16_run m bin MASK_BRICK_ACTIVE) as (m1 & R1 & F1 & C1); [submap|done|].
  rewrite (step_storing _ _ _ _ R1). carry C1.
  rewrite (step_compute _ _ _ (chars "brick==" ++ w ++ after)) by done.
  rewrite (step_run _ _ m1 (chars "brick==" ++ w ++ after) m1) by done.
  rewrite (step_require _ _ _ (chars "==" ++ w ++ after)) by done.
  rewrite (step_run _ _ _ _ _ (close_none bin MASK_BRICK_ACTIVE _
    (chars "==" ++ w ++ after) m1 F1 ltac:(done))).
  rewrite (step_compute _ _ _ (chars "==" ++ w ++ after)) by done.
  rewrite (step_require _ _ _ (0, w ++ after)).
  2:{ destruct Hw as [Hne Hid]. destruct w as [|y nm]; [done|].
      apply Forall_cons in Hid as [Hy _]. unfold convert_op. cbn.
      by destruct (Z.eqb_spec y (ch "=")) as [->|]. }
  destruct (set_flags_run m1 bin (fun v => Z.lor v 0) _ ltac:(submap) F1)
    as (m2 & R2 & F2 & C2); [done|].
  rewrite (step_run _ _ _ _ _ R2). clear F1. carry C2.
  destruct (store64_run m2 (bin + 8) (bin + 32)) as (m3 & R3 & L3 & C3); [submap|lia|].
  rewrite (step_storing _ _ _ _ R3). carry C3.
  destruct (convert_word_spec w after (bin + 32) size m3 Hw) as (m4 & R4 & S4 & C4);
    [by do 2 eexists|submap|lia|].
  rewrite (step_run _ _ _ _ _ R4). carry C4.
  assert (solid tail) as Htail by (by do 2 eexists).
  rewrite (step_require _ _ _ _ (skip_open_brace [] tail ltac:(constructor) Htail)).
  rewrite (step_compute _ _ _ tail) by done.
  set (pc := bin + 32 + len w + 1). assert (pc = bin + 32 + len w + 1) as Hpc by done.
  replace (size - len w - 1) with 0 by lia.
  destruct (convert_list_empty convert_attr (bin + 16) tail pc 0 m4 0 0)
    as (m5 & R5 & A5 & M5); [submap|lia| |].
  { intros m0 _. exists m0. split; [done|apply only_changes_refl]. }
  rewrite (step_run _ _ _ _ _ R5).
  assert (string_in m5 (bin + 32) w) as S5 by (frame; apply A5; lia). apply M5 in Hm.
  destruct (convert_list_empty convert_conn (bin + 24) tail pc 0 m5 (pc + 8) (pc + 10))
    as (m6 & R6 & A6 & _); [submap|lia| |].
  { intros m0 Hm0. apply brace_stops. eapply mapped_mono; [by eapply mapped_only_changes|lia|lia]. }
  rewrite (step_run _ _ _ _ _ R6).
  rewrite (step_require _ _ _ _ (skip_close_brace [] [] rest ltac:(constructor) ltac:(constructor) Hrest)).
  exists 0, m6. split; [|clear S4; frame; apply A6; lia].
  replace (bin + 32 + size) with pc by (subst size; lia). done.
Qed.

(** ** Concrete runs *)

Definition sample_brick : brick_ast :=
  {| b_name := chars "mirror";
     b_conns := [{| c_input := true; c_active := true; c_name := chars "in";
                    c_attrs := [{| a_name := chars "size"; a_value := chars "4096" |}];
                    c_targets := [{| t_addr := 0x1F; t_name := chars "out" |}] |};
                 {| c_input := false; c_active := false; c_name := chars "out";
                    c_attrs := [];
                    c_targets := [{| t_addr := 2; t_name := chars "in_0" |};
                                  {| t_addr := 3; t_name := chars "in_1" |}] |}] |}.

Lemma ident_dec_ok w :
  negb (bool_decide (w = [])) && forallb id_table w = true -> ident w.
Proof.
  intros [H1%negb_true_iff H2]%andb_true_iff. apply bool_decide_eq_false in H1.
  split; [done|]. apply Forall_forall. intros x Hx. rewrite forallb_forall in H2.
  apply H2. by apply list_elem_of_In.
Qed.

Lemma sample_ok : brick_ok sample_brick.
Proof.
  split; [by apply ident_dec_ok|]. repeat constructor; try done; try by apply ident_dec_ok.
Qed.

(** The attribute line of a brick ends in a brace that the converter does not
    take: what is printed for a brick with an attribute is not read back. *)
Lemma brick_attr_not_read :
  let text := chars "brick==a {" ++ NL :: chars "attr a.k=v {" ++ [NL; ch "}"; NL; NUL] in
  match convert_brick text 1000 800 (blank 1000 900) with Ok (o, _) => o = None | _ => False end.
Proof. by vm_compute. Qed.

(** With four bytes left [brick_to_string] finds enough space for the end of
    a connector and writes five. *)
Lemma closing_overrun :
  let b := {| b_name := chars "a"; b_conns := [{| c_input := true; c_active := true;
              c_name := chars "i"; c_attrs := []; c_targets := [] |}] |} in
  match convert_brick (print_brick b ++ [NUL]) 1000 800 (blank 1000 900) with
  | Ok (Some _, m) => brick_to_string m (replicate 28 0) 28 1000 = Fault OutOfBounds
  | _ => False
  end.
Proof. by vm_compute. Qed.

Lemma brick_roundtrip_witness :
  exists m e, represents m 1000 sample_brick e /\
  exists out rest, brick_to_string m (replicate 300 0) 300 1000 = Ok (Some out) /\
    out.1.1 = print_brick sample_brick ++ NUL :: rest /\
  exists e2 m2, convert_brick out.1.1 1000 4900 (blank 1000 4900) =
    Ok (Some (NUL :: rest, e2.1, e2.2), m2) /\ represents m2 1000 sample_brick e2.1.
Proof.
  destruct (brick_reads sample_brick [NUL] (blank 1000 4900) 1000 4900 5900)
    as (e & s & m & Hrun & Hrep & _).
  { exact sample_ok. } { by exists NUL, []. }
  { split; [apply (blank_mapped 1000 4900)|done|vm_compute; congruence|done|].
    split; [vm_compute; congruence|done]. }
  exists m, e. split; [exact Hrep|].
  destruct (brick_roundtrip m 1000 sample_brick e (replicate 300 0) 300 sample_ok
    ltac:(lia) Hrep ltac:(vm_compute; split; congruence) ltac:(lia))
    as (out & rest & Hprint & -> & Hout & Hback).
  do 2 eexists. split; [exact Hprint|]. split; [reflexivity|].
  cbn [fst] in *. change (len (replicate 300 0)) with 300 in Hout.
  destruct (Hback (blank 1000 4900) 1000 4900 5900) as (e2 & s2 & m2 & Hrun2 & Hrep2 & _).
  { split; [apply (blank_mapped 1000 4900)|done|rewrite Hout; lia|done|rewrite Hout; lia]. }
  exists (e2, s2), m2. by split.
Defined.

Lemma connect_action_overlaps_witness :
  exists r m' flags,
    convert_connect 1000 (SP :: chars "o" ++ op_text STRAT_READ ++
      print_target {| t_addr := 31; t_name := chars "i" |} ++ NL :: [NUL]) 1040 4800
      (<[1008 := 0x18]> (blank 1000 4900)) = Ok (Some r, m') /\
    load16 m' 1008 = Ok flags /\ GET_CONN_TARGET_ACTION flags = STRAT_CREATE /\
    IS_CONN_ACTIVE flags = true.
Proof.
  assert (mapped (<[1008 := 0x18]> (blank 1000 4900)) 1000 5900) as Hm.
  { intros x Hx. destruct (decide (x = 1008)) as [->|]; [rewrite lookup_insert_eq; by eexists|].
    rewrite lookup_insert_ne by done. by apply (blank_mapped 1000 4900). }
  apply (connect_action_overlaps (chars "o")
    {| c_input := false; c_active := true; c_name := chars "o"; c_attrs := []; c_targets := [] |}
    STRAT_READ {| t_addr := 31; t_name := chars "i" |} [NUL] 1000 1040 4800 _ 5900).
  - by apply ident_dec_ok.
  - done.
  - split; [done|by apply ident_dec_ok].
  - done.
  - done.
  - exact Hm.
  - by vm_compute.
  - split; [eapply mapped_mono; [exact Hm|lia|lia]|done|vm_compute; congruence|done|].
    split; [vm_compute; congruence|done].
Defined.

(** A buffer of two bytes for the brick [a]: its name is stored 30 bytes
    behind the end. *)
Lemma convert_brick_overruns_witness :
  exists size' m', convert_brick (chars "brick==a {" ++ [NL; ch "}"; NL; NUL]) 1000 2 (blank 1000 44) =
      Ok (Some ([NUL], 1034, size'), m') /\ string_in m' 1032 (chars "a").
Proof.
  apply (convert_brick_overruns (chars "a") [NUL] 1000 (blank 1000 44)).
  - by apply ident_dec_ok.
  - done.
  - by exists NUL, [].
  - done.
  - apply (blank_mapped 1000 44).
Defined.
