(* ===== verification/BinStratTotal.v ===== *)
(** * The converters terminate

    Every loop of the converters passes at least one character of the text
    in each round: the fuel of the model, one more than the length of the
    text, is enough for every text, whatever it says. *)

From S2P Require Import Prelude CLib Memory StratScan BinStrat.
Open Scope Z_scope.

(** ** Completing computations *)

(** The computation completes, or leaves the objects it may access; a value
    it returns satisfies [P]. *)
Definition completes {A} (P : A -> Prop) (r : cres A) : Prop :=
  match r with Ok a => P a | Fault f => f <> OutOfFuel end.
Definition runs {A} (P : A -> Prop) (p : converter A) : Prop :=
  forall m, completes (fun r => match r.1 with Some a => P a | None => True end) (p m).

(** [t'] is [t] without some first characters, at least one in the strict
    case. *)
Definition behind_or_at (t' t : list Z) : Prop := exists s, t = s ++ t'.
Definition behind (t' t : list Z) : Prop := exists c s, t = c :: s ++ t'.

Lemma at_refl t : behind_or_at t t.
Proof. by exists []. Qed.
Lemma behind_at t t' : behind t' t -> behind_or_at t' t.
Proof. intros (c & s & ->). by exists (c :: s). Qed.
Lemma at_trans t1 t2 t3 : behind_or_at t3 t2 -> behind_or_at t2 t1 -> behind_or_at t3 t1.
Proof. intros [s ->] [s' ->]. exists (s' ++ s). by rewrite app_assoc. Qed.
Lemma behind_trans t1 t2 t3 : behind_or_at t3 t2 -> behind t2 t1 -> behind t3 t1.
Proof. intros [s ->] (c & s' & ->). exists c, (s' ++ s). by rewrite app_assoc. Qed.
Lemma at_behind_trans t1 t2 t3 : behind t3 t2 -> behind_or_at t2 t1 -> behind t3 t1.
Proof.
  intros (c & s & ->) [[|c' s'] ->]; [by exists c, s|].
  exists c', (s' ++ c :: s). by rewrite <- app_assoc.
Qed.
Lemma behind_length t t' : behind t' t -> (length t' < length t)%nat.
Proof. intros (c & s & ->). simpl. rewrite length_app. lia. Qed.
Lemma behind_tail c t : behind t (c :: t).
Proof. by exists c, []. Qed.
Lemma at_tail c t t' : behind_or_at t' t -> behind_or_at t' (c :: t).
Proof. intros [s ->]. by exists (c :: s). Qed.
Lemma at_drop n t : behind_or_at (drop n t) t.
Proof. exists (take n t). by rewrite take_drop. Qed.
Lemma behind_drop n t : (0 < n)%nat -> t <> [] -> behind (drop n t) t.
Proof.
  intros Hn Ht. destruct n as [|n]; [lia|]. destruct t as [|c t]; [done|]. cbn [drop].
  exists c, (take n t). by rewrite take_drop.
Qed.

Create HintDb advance discriminated.
#[export] Hint Resolve at_refl behind_at behind_tail at_tail at_drop : advance.
#[export] Hint Extern 3 (behind_or_at ?x _) =>
  match goal with H : behind_or_at x _ |- _ => apply (at_trans _ _ _ H) end : advance.
#[export] Hint Extern 3 (behind_or_at ?x _) =>
  match goal with H : behind x _ |- _ => apply (at_trans _ _ _ (behind_at _ _ H)) end : advance.
#[export] Hint Extern 3 (behind ?x _) =>
  match goal with H : behind x _ |- _ => apply (at_behind_trans _ _ _ H) end : advance.
#[export] Hint Extern 4 (behind ?x _) =>
  match goal with H : behind_or_at x _ |- _ => apply (behind_trans _ _ _ H) end : advance.

Section rules.
Context {A B : Type}.

Lemma completes_ret (P : A -> Prop) a : P a -> completes P (Ok a).
Proof. done. Qed.
Lemma completes_bind (P : A -> Prop) (Q : B -> Prop) (r : cres A) k :
  completes P r -> (forall a, P a -> completes Q (k a)) -> completes Q (a ← r; k a).
Proof. destruct r; [|done]. intros H Hk. by apply Hk. Qed.
Lemma completes_mono (P Q : A -> Prop) r :
  completes P r -> (forall a, P a -> Q a) -> completes Q r.
Proof. destruct r; simpl; auto. Qed.

Lemma runs_bind (P : A -> Prop) (Q : B -> Prop) (p : converter A) (k : A -> converter B) :
  runs P p -> (forall a, P a -> runs Q (k a)) -> runs Q (p ≫= k).
Proof.
  intros Hp Hk m. unfold mbind, converter_bind. specialize (Hp m).
  destruct (p m) as [[[a|] m']|f]; [by apply Hk|done|done].
Qed.
Lemma runs_done (P : A -> Prop) a : P a -> runs P (done_with a).
Proof. intros H m. done. Qed.
Lemma runs_FALSE (P : A -> Prop) : runs P return_FALSE.
Proof. intros m. done. Qed.
Lemma runs_compute (P : A -> Prop) r : completes P r -> runs P (compute r).
Proof. intros H m. unfold compute. by destruct r. Qed.
Lemma runs_require (P : A -> Prop) r :
  completes (fun o => match o with Some a => P a | None => True end) r -> runs P (require r).
Proof. intros H m. unfold require. by destruct r. Qed.
Lemma runs_attempt (P : A -> Prop) p :
  runs P p -> runs (fun o => match o with Some a => P a | None => True end) (attempt p).
Proof. intros H m. specialize (H m). unfold attempt. by destruct (p m) as [[o m']|f]. Qed.
Lemma runs_mono (P Q : A -> Prop) p : runs P p -> (forall a, P a -> Q a) -> runs Q p.
Proof.
  intros Hp H m. specialize (Hp m). destruct (p m) as [[[a|] m']|f]; simpl in *; auto.
Qed.
End rules.

(** ** Memory *)

Lemma store_le_completes n m a v : completes (fun _ => True) (store_le n m a v).
Proof.
  revert m a v. induction n as [|n IH]; intros m a v; [done|]. cbn [store_le].
  apply (completes_bind (fun _ => True)); [|intros; apply IH].
  unfold store8. by destruct (m !! a).
Qed.

Lemma load_le_completes n m a : completes (fun _ => True) (load_le n m a).
Proof.
  revert a. induction n as [|n IH]; intros a; [done|]. cbn [load_le].
  apply (completes_bind (fun _ => True)); [unfold load8; by destruct (m !! a)|].
  intros b _. apply (completes_bind (fun _ => True)); [apply IH|done].
Qed.

Lemma runs_storing (f : mem -> cres mem) (P : unit -> Prop) :
  (forall m, completes (fun _ => True) (f m)) -> P tt -> runs P (storing f).
Proof. intros H Ht m. unfold storing. specialize (H m). by destruct (f m). Qed.
Lemma runs_loading {A} (f : mem -> cres A) :
  (forall m, completes (fun _ => True) (f m)) -> runs (fun _ => True) (loading f).
Proof. intros H m. unfold loading. specialize (H m). by destruct (f m). Qed.
Lemma runs_set_flags a f : runs (fun _ => True) (set_flags a f).
Proof.
  apply runs_storing; [|done]. intros m. eapply completes_bind; [apply load_le_completes|].
  intros. apply store_le_completes.
Qed.

(** ** Scanning *)

Lemma deref_completes t : completes (fun c => exists t', t = c :: t') (deref t).
Proof. destruct t as [|c t]; [done|]. by exists t. Qed.

Lemma tbl_completes table c : completes (fun _ => True) (tbl table c).
Proof. unfold tbl. by destruct (0 <=? c). Qed.

Lemma hexsub_completes c : completes (fun _ => True) (hexsub_at c).
Proof. unfold hexsub_at. by destruct (0 <=? c). Qed.

Lemma skip_class_completes table t :
  completes (fun t' => behind_or_at t' t) (skip_class table t).
Proof.
  induction t as [|c t IH]; [done|]. cbn [skip_class].
  eapply completes_bind; [apply tbl_completes|]. intros [|] _; [|apply at_refl].
  eapply completes_mono; [exact IH|]. eauto with advance.
Qed.

(** The text after a condition that skips something. *)
Definition advances (r : cres (option (list Z))) (t : list Z) : Prop :=
  completes (fun o => match o with Some t' => behind_or_at t' t | None => True end) r.

Lemma skip_end_of_line_completes t : advances (skip_end_of_line t) t.
Proof.
  unfold skip_end_of_line. eapply completes_bind; [apply skip_class_completes|].
  intros t' Ht. eapply completes_bind; [apply deref_completes|]. intros c _. simpl.
  by destruct (c =? NL).
Qed.

Lemma skip_rest_completes t : completes (fun t' => behind_or_at t' t) (skip_rest_of_line t).
Proof.
  induction t as [|c t IH]; [done|]. cbn [skip_rest_of_line].
  destruct (c =? NUL); [apply at_refl|]. destruct (c =? NL); [simpl; eauto with advance|].
  eapply completes_mono; [exact IH|]. eauto with advance.
Qed.

Lemma skip_str_completes skip t : advances (skip_str t skip) t.
Proof.
  revert t. induction skip as [|s skip IH]; intros t; [done|]. cbn [skip_str].
  destruct (s =? NUL); [apply at_refl|]. destruct (s =? SP).
  - eapply completes_bind; [apply skip_class_completes|]. intros t' Ht.
    eapply completes_mono; [apply IH|]. intros [t''|] H; [|done]. eauto with advance.
  - eapply completes_bind; [apply deref_completes|]. intros c _. destruct (s =? c); [|done].
    eapply completes_mono; [apply IH|]. intros [t''|] H; [|done].
    eapply at_trans; [exact H|apply at_drop].
Qed.

Lemma skip_match_completes t w :
  completes (fun r => behind_or_at r.1 t) (skip_match t w).
Proof.
  revert w. induction t as [|c t IH]; intros w; [done|]. cbn [skip_match].
  eapply completes_bind; [apply tbl_completes|]. intros b _.
  eapply completes_bind; [apply deref_completes|]. intros d _.
  destruct (b && _); [|apply at_refl]. eapply completes_mono; [apply IH|]. eauto with advance.
Qed.

Lemma skip_word_completes t w : advances (skip_word t w) t.
Proof.
  unfold skip_word. destruct w as [w|].
  - eapply completes_bind; [apply skip_match_completes|]. intros r Hr.
    eapply completes_bind; [apply deref_completes|]. intros c _.
    eapply completes_bind; [apply tbl_completes|]. intros b _.
    eapply completes_bind; [apply deref_completes|]. intros d _. simpl.
    by destruct (b || _).
  - eapply completes_bind; [apply deref_completes|]. intros c _.
    eapply completes_bind; [apply tbl_completes|]. intros [|] _; [|done].
    eapply completes_bind; [apply skip_class_completes|]. done.
Qed.

Lemma skip_param_completes w t : completes (fun t' => behind_or_at t' t) (skip_param w t).
Proof.
  unfold skip_param. eapply completes_bind; [apply skip_word_completes|].
  intros [t'|] H; [|apply at_refl]. eapply completes_mono; [apply skip_rest_completes|].
  intros t'' H'. exact (at_trans _ _ _ H' H).
Qed.

Lemma convert_op_completes t :
  completes (fun o => match o with Some r => behind r.2 t | None => True end) (convert_op t).
Proof.
  unfold convert_op. eapply completes_bind; [apply deref_completes|]. intros c [t' ->].
  destruct (c <? 0); [done|]. destruct (actionsub c =? 0); [done|].
  eapply completes_bind; [apply deref_completes|]. intros d _.
  destruct (d =? ch "="); [apply behind_trans with t'; [apply at_drop|apply behind_tail]|].
  destruct (negb _); [done|apply behind_tail].
Qed.

(** ** Converting *)

(** The text of a cursor. *)
Definition ctext (r : cursor) : list Z := r.1.1.

Lemma word_loop_runs t bin size :
  runs (fun r => behind_or_at (ctext r) t) (word_loop t bin size).
Proof.
  revert bin size. induction t as [|c t IH]; intros bin size; [by apply runs_compute|].
  cbn [word_loop]. eapply runs_bind; [apply runs_compute, tbl_completes|].
  intros [|] _; [|apply runs_done, at_refl]. destruct (size =? 0); [apply runs_FALSE|].
  eapply runs_bind; [apply (runs_storing _ (fun _ => True))|].
  { intros m. unfold store8. by destruct (m !! bin). } { done. }
  intros _ _. eapply runs_mono; [apply IH|]. eauto with advance.
Qed.

Lemma word_loop_strict c t bin size :
  id_table c = true -> runs (fun r => behind (ctext r) (c :: t)) (word_loop (c :: t) bin size).
Proof.
  intros Hc. cbn [word_loop]. unfold tbl. destruct (0 <=? c); [|by intros m].
  eapply runs_bind; [by apply (runs_compute (fun b => b = true))|]. intros b ->.
  destruct (size =? 0); [apply runs_FALSE|].
  eapply runs_bind; [apply (runs_storing _ (fun _ => True))|].
  { intros m. unfold store8. by destruct (m !! bin). } { done. }
  intros _ _. eapply runs_mono; [apply word_loop_runs|]. intros r Hr.
  exact (behind_trans _ t _ Hr (behind_tail c t)).
Qed.

Lemma runs_store8 a v : runs (fun _ => True) (storing (fun m => store8 m a v)).
Proof. apply runs_storing; [|done]. intros m. unfold store8. by destruct (m !! a). Qed.
Lemma runs_store16 a v : runs (fun _ => True) (storing (fun m => store16 m a v)).
Proof. apply runs_storing; [|done]. intros m. apply store_le_completes. Qed.
Lemma runs_store64 a v : runs (fun _ => True) (storing (fun m => store64 m a v)).
Proof. apply runs_storing; [|done]. intros m. apply store_le_completes. Qed.
Lemma runs_load16 a : runs (fun _ => True) (loading (fun m => load16 m a)).
Proof. apply runs_loading. intros m. apply load_le_completes. Qed.
Lemma runs_deref t : runs (fun c => exists t', t = c :: t') (compute (deref t)).
Proof. apply runs_compute, deref_completes. Qed.
Lemma runs_skip_class table t :
  runs (fun t' => behind_or_at t' t) (compute (skip_class table t)).
Proof. apply runs_compute, skip_class_completes. Qed.
Lemma runs_advances r t : advances r t -> runs (fun t' => behind_or_at t' t) (require r).
Proof. apply runs_require. Qed.
Lemma runs_op t : runs (fun r => behind r.2 t) (require (convert_op t)).
Proof. apply runs_require, convert_op_completes. Qed.

Create HintDb steps discriminated.
#[export] Hint Resolve runs_store8 runs_store16 runs_store64 runs_load16 runs_deref
  runs_skip_class runs_op runs_set_flags : steps.

(** The next step of a converter, by its lemma. *)
Tactic Notation "step" := eapply runs_bind; [solve [eauto with steps]|cbv beta].
Tactic Notation "step" uconstr(lem) := eapply runs_bind; [apply lem|cbv beta].

Lemma convert_word_runs t bin size :
  runs (fun r => behind (ctext r) t) (convert_word t bin size).
Proof.
  unfold convert_word. step. intros c [t' ->]. unfold tbl.
  destruct (0 <=? c); [|by intros m].
  step (runs_compute (fun b => b = id_table c)); [done|]. intros b ->.
  destruct (id_table c) eqn:Hc; [|apply runs_FALSE]. cbn [negb].
  step (word_loop_strict c t' bin size Hc). intros [[t1 b1] s1] Ht.
  destruct (s1 =? 0); [apply runs_FALSE|]. step. intros _ _. by apply runs_done.
Qed.

Lemma convert_string_runs t bin size :
  runs (fun r => behind_or_at (ctext r.2) t) (convert_string t bin size).
Proof.
  revert bin size. induction t as [|c t IH]; intros bin size; [by intros m|].
  cbn [convert_string]. destruct (SP <? c).
  - destruct (size <=? 1); [apply runs_done, at_refl|]. step. intros _ _.
    eapply runs_mono; [apply IH|]. simpl. eauto with advance.
  - step. intros _ _. apply runs_done, at_refl.
Qed.

Lemma composed_loop_runs fuel bin0 size0 r :
  (length (ctext r) < fuel)%nat ->
  runs (fun r' => behind_or_at (ctext r') (ctext r)) (composed_loop fuel bin0 size0 r).
Proof.
  revert r. induction fuel as [|fuel IH]; intros [[t bin] size] Hf; [lia|].
  cbn [composed_loop]. unfold ctext in *. cbn [fst] in *. step. intros c [t' ->].
  destruct (c =? ch "."); [|apply runs_done, at_refl].
  cbn [drop]. rewrite drop_0. step (convert_word_runs t'). intros r1 Hr1.
  pose proof (behind_length _ _ Hr1). simpl in Hf. unfold ctext in *.
  eapply runs_mono; [apply IH; lia|]. intros r2 Hr2. simpl in *.
  apply at_tail. exact (at_trans _ _ _ Hr2 (behind_at _ _ Hr1)).
Qed.

Lemma composed_runs t bin size :
  runs (fun r => behind (ctext r) t) (convert_composed_identifier t bin size).
Proof.
  unfold convert_composed_identifier. step (convert_word_runs t). intros r1 Hr1.
  pose proof (behind_length _ _ Hr1).
  eapply runs_mono; [apply composed_loop_runs; lia|]. intros r2 Hr2.
  exact (behind_trans _ _ _ Hr2 Hr1).
Qed.

Lemma logaddr_loop_runs t p v : runs (fun t' => behind_or_at t' t) (logaddr_loop t p v).
Proof.
  revert v. induction t as [|c t IH]; intros v; [by intros m|]. cbn [logaddr_loop].
  step (runs_compute (fun _ => True)); [apply hexsub_completes|]. intros h _.
  destruct (h =? 0); [apply runs_done, at_refl|]. destruct (_ <=? v); [apply runs_FALSE|].
  step. intros _ _. eapply runs_mono; [apply IH|]. eauto with advance.
Qed.

Lemma convert_logaddr_runs t p : runs (fun t' => behind_or_at t' t) (convert_logaddr t p).
Proof.
  unfold convert_logaddr. step. intros _ _. step. intros c _.
  step (runs_compute (fun t' => behind_or_at t' t)).
  { destruct (c =? ch "0"); [|apply at_refl]. eapply completes_bind; [apply deref_completes|].
    intros d _. simpl. destruct (_ || _); [apply at_drop|apply at_refl]. }
  intros t1 Ht1. step. intros d _.
  step (runs_compute (fun _ => True)); [apply hexsub_completes|]. intros h _.
  destruct (h =? 0); [apply runs_FALSE|].
  eapply runs_mono; [apply logaddr_loop_runs|]. intros t2 H2. exact (at_trans _ _ _ H2 Ht1).
Qed.

Lemma convert_attr_runs t bin size : runs (fun r => behind (ctext r) t) (convert_attr t bin size).
Proof.
  unfold convert_attr. step. intros t1 H1.
  step (runs_advances _ t1 (skip_word_completes _ _)). intros t2 H2. step. intros t3 H3.
  step. intros _ _. step (composed_runs t3). intros [[t4 b4] s4] H4. unfold ctext in H4. cbn in H4.
  step. intros [a t5] H5. cbn in H5. step. intros _ _.
  step (convert_string_runs t5). intros [ok [[t6 b6] s6]] H6. unfold ctext in H6. cbn in H6.
  destruct ok; [|apply runs_FALSE]. cbn [negb].
  step (runs_advances _ t6 (skip_end_of_line_completes _)). intros t7 H7. step. intros _ _.
  apply runs_done. unfold ctext. cbn. eauto 10 with advance.
Qed.

Lemma convert_conn_target_runs t bin size :
  runs (fun r => behind (ctext r) t) (convert_conn_target t bin size).
Proof.
  unfold convert_conn_target. step (convert_logaddr_runs t). intros t1 H1.
  step. intros c [t2 ->]. destruct (c =? ch ":"); [|apply runs_FALSE]. cbn [negb drop].
  rewrite drop_0. step. intros _ _. step (convert_word_runs t2). intros [[t3 b3] s3] H3.
  step. intros _ _. apply runs_done. unfold ctext in *. cbn in *.
  apply (at_behind_trans _ (c :: t2)); [|exact H1].
  exact (behind_trans _ _ _ (behind_at _ _ H3) (behind_tail c t2)).
Qed.

(** A converter that passes something when it succeeds. *)
Definition progresses (convert : list Z -> Z -> Z -> converter cursor) : Prop :=
  forall t bin size, runs (fun r => behind (ctext r) t) (convert t bin size).

Lemma record_loop_runs convert fuel last r :
  progresses convert -> (length (ctext r) < fuel)%nat ->
  runs (fun l => behind_or_at (ctext l.2) (ctext r)) (record_loop convert fuel last r).
Proof.
  intros Hc. revert last r. induction fuel as [|fuel IH]; intros last [[t bin] size] Hf; [lia|].
  cbn [record_loop]. step (runs_attempt _ _ (Hc t bin size)). intros [r1|] H1.
  - pose proof (behind_length _ _ H1). unfold ctext in *. cbn [fst] in *.
    eapply runs_mono; [apply IH; lia|]. intros l Hl. exact (at_trans _ _ _ Hl (behind_at _ _ H1)).
  - apply runs_done, at_refl.
Qed.

Lemma convert_list_runs convert field t bin size :
  progresses convert ->
  runs (fun r => behind_or_at (ctext r) t) (convert_list convert field t bin size).
Proof.
  intros Hc. unfold convert_list. step. intros _ _.
  step (runs_attempt _ _ (Hc t bin size)). intros [r|] Hr.
  - pose proof (behind_length _ _ Hr). step (record_loop_runs convert _ _ r Hc); [lia|].
    intros l Hl. step. intros _ _. apply runs_done. exact (at_trans _ _ _ Hl (behind_at _ _ Hr)).
  - step. intros _ _. apply runs_done, at_refl.
Qed.

Lemma target_loop_runs fuel conn last r :
  (length (ctext r) < fuel)%nat ->
  runs (fun l => behind_or_at (ctext l.2) (ctext r)) (target_loop fuel conn last r).
Proof.
  revert last r. induction fuel as [|fuel IH]; intros last [[t bin] size] Hf; [lia|].
  cbn [target_loop]. step. intros c [t1 ->].
  destruct (c =? ch ","); [|apply runs_done, at_refl]. step. intros flags _.
  destruct (IS_CONN_INPUT flags); [apply runs_FALSE|]. cbn [drop]. rewrite drop_0.
  step (convert_conn_target_runs t1). intros r1 H1. pose proof (behind_length _ _ H1).
  unfold ctext in *. cbn in *. eapply runs_mono; [apply IH; lia|]. intros l Hl. cbn in Hl.
  apply at_tail. exact (at_trans _ _ _ Hl (behind_at _ _ H1)).
Qed.

Lemma convert_connect_runs conn t bin size :
  runs (fun r => behind (ctext r) t) (convert_connect conn t bin size).
Proof.
  unfold convert_connect. step. intros t1 H1.
  step (runs_advances _ t1 (skip_word_completes _ _)). intros t2 H2.
  step. intros [a t3] H3. cbn in H3. step. intros _ _. step. intros t4 H4. step. intros _ _.
  assert (behind t4 t) as H by eauto 10 with advance.
  step (runs_attempt _ _ (convert_conn_target_runs t4 bin size)). intros [r|] Hr.
  - pose proof (behind_length _ _ Hr). step (target_loop_runs _ conn bin r); [lia|].
    intros l Hl. step. intros _ _. apply runs_done.
    exact (behind_trans _ _ _ (at_trans _ _ _ Hl (behind_at _ _ Hr)) H).
  - step. intros _ _. by apply runs_done.
Qed.

Lemma convert_open_runs a mask t : runs (fun t' => behind_or_at t' t) (convert_open a mask t).
Proof.
  unfold convert_open. step. intros c [t' ->]. destruct (c =? ch "("); [|apply runs_done, at_refl].
  step. intros _ _. apply runs_done, at_drop.
Qed.

Lemma convert_close_runs a mask t : runs (fun t' => behind_or_at t' t) (convert_close a mask t).
Proof.
  unfold convert_close. step. intros flags _. destruct (_ =? 0); [|apply runs_done, at_refl].
  step. intros c [t' ->]. destruct (negb _); [apply runs_FALSE|apply runs_done, at_drop].
Qed.

Lemma convert_kind_runs conn t : runs (fun t' => behind t' t) (convert_kind conn t).
Proof.
  unfold convert_kind. step. intros _ _. step. intros t1 H1.
  step (convert_open_runs _ _ t1). intros t2 H2.
  step (runs_compute (fun o => match o with Some t' => behind_or_at t' t2 | None => True end));
    [apply skip_word_completes|]. intros o Ho.
  eapply (runs_bind (fun t' => behind_or_at t' t2)).
  { destruct o as [t'|]; [step; intros _ _; by apply runs_done|].
    apply (runs_advances _ t2 (skip_word_completes _ _)). }
  intros t3 H3. step (convert_close_runs _ _ t3). intros t4 H4. step. intros t5 H5.
  step. intros [a t6] H6. cbn in H6. step. intros _ _. apply runs_done. clear Ho.
  eauto 10 with advance.
Qed.

Lemma convert_targets_runs conn r :
  runs (fun r' => behind_or_at (ctext r') (ctext r)) (convert_targets conn r).
Proof.
  destruct r as [[t bin] size]. unfold convert_targets. step. intros t1 H1. step. intros _ _.
  step (runs_compute (fun o => match o with Some t' => behind_or_at t' t1 | None => True end));
    [apply skip_word_completes|]. intros [t2|] H2.
  - eapply runs_mono; [apply convert_connect_runs|]. intros r Hr. unfold ctext at 2. cbn.
    exact (at_trans _ _ _ (behind_at _ _ Hr) (at_trans _ _ _ H2 H1)).
  - by apply runs_done.
Qed.

Lemma convert_conn_runs t bin size :
  runs (fun r => behind (ctext r) t) (convert_conn t bin size).
Proof.
  unfold convert_conn. step (convert_kind_runs _ t). intros t1 H1. step. intros _ _.
  step (composed_runs t1). intros [[t2 b2] s2] H2. unfold ctext in H2. cbn in H2.
  step (runs_compute (fun o => match o with Some t' => behind_or_at t' t2 | None => True end));
    [apply skip_str_completes|]. intros o Ho.
  assert (behind_or_at (default t2 o) t2) as H3 by (destruct o; [done|apply at_refl]).
  cbv zeta. generalize dependent (default t2 o). intros t3 H3.
  step (runs_compute _ _ (skip_param_completes _ t3)). intros t4 H4.
  step (convert_list_runs convert_attr _ t4 _ _ convert_attr_runs).
  intros [[t5 b5] s5] H5. unfold ctext in H5. cbn in H5.
  step (convert_targets_runs bin (t5, b5, s5)). intros [[t6 b6] s6] H6. unfold ctext in H6. cbn in H6.
  step (runs_advances _ t6 (skip_str_completes _ _)). intros t7 H7. step. intros _ _.
  apply runs_done. unfold ctext. cbn. clear Ho. eauto 12 with advance.
Qed.

(** C40: conversion always ends.  For every text, buffer and memory,
    [convert_brick] either returns, with the returned text being the given
    one without some of its first characters, or leaves the objects it may
    access; it never runs out of the fuel its loops are given. *)
Theorem convert_brick_terminates text binbuf binbuf_size m :
  match convert_brick text binbuf binbuf_size m with
  | Ok (Some (text', _, _), _) => exists c s, text = c :: s ++ text'
  | Ok (None, _) => True
  | Fault f => f <> OutOfFuel
  end.
Proof.
  assert (runs (fun r => behind (ctext r) text) (convert_brick text binbuf binbuf_size)) as H.
  { unfold convert_brick. step. intros _ _. step. intros t1 H1.
    step (convert_open_runs _ _ t1). intros t2 H2.
    step (runs_advances _ t2 (skip_word_completes _ _)). intros t3 H3.
    step (convert_close_runs _ _ t3). intros t4 H4. step. intros t5 H5.
    step. intros [a t6] H6. cbn in H6. step. intros _ _. step. intros _ _.
    step (convert_word_runs t6). intros [[t7 b7] s7] H7. unfold ctext in H7. cbn in H7.
    step (runs_advances _ t7 (skip_str_completes _ _)). intros t8 H8.
    step (runs_compute _ _ (skip_param_completes _ t8)). intros t9 H9.
    step (convert_list_runs convert_attr _ t9 _ _ convert_attr_runs).
    intros [[t10 b10] s10] H10. unfold ctext in H10. cbn in H10.
    step (convert_list_runs convert_conn _ t10 _ _ convert_conn_runs).
    intros [[t11 b11] s11] H11. unfold ctext in H11. cbn in H11.
    step (runs_advances _ t11 (skip_str_completes _ _)). intros t12 H12.
    apply runs_done. unfold ctext. cbn. eauto 15 with advance. }
  specialize (H m). destruct (convert_brick text binbuf binbuf_size m) as [[[[[t' b] s]|] m']|f];
    [exact H|done|exact H].
Qed.
