(* ===== verification/Division.v ===== *)
(** * 64-bit division on a 32-bit machine: [x86_math64.c]

    The kernel is linked without the compiler's run-time library and brings
    its own division of double words, built on the processor's division of a
    double word by a word.  A word is a number below [2^32]. *)

From S2P Require Import Prelude.
Open Scope Z_scope.

Definition W_TYPE_SIZE : Z := 64.
Abbreviation B := (2 ^ 32).

Definition __clz_tab : list Z :=
  0 :: 1 :: replicate 2 2 ++ replicate 4 3 ++ replicate 8 4 ++ replicate 16 5 ++
  replicate 32 6 ++ replicate 64 7 ++ replicate 128 8.

(** ** The processor's instructions *)

Definition add_ssaaaa (ah al bh bl : Z) : Z * Z :=
  let l := al + bl in (u32 (ah + bh + l / B), u32 l).

(** [subl] leaves the borrow for [sbbl]. *)
Definition sub_ddmmss (ah al bh bl : Z) : Z * Z :=
  (u32 (ah - bh - if al <? bl then 1 else 0), u32 (al - bl)).

Definition umul_ppmm (u v : Z) : Z * Z := (u * v / B, u * v mod B).

(** [divl] raises an exception when the quotient does not fit a word. *)
Definition udiv_qrnnd (n1 n0 dv : Z) : cres (Z * Z) :=
  if dv <=? n1 then Fault DivideError
  else Ok ((n1 * B + n0) / dv, (n1 * B + n0) mod dv).

(** The position of the highest set bit is not defined for 0. *)
Definition count_leading_zeros (x : Z) : Z := Z.lxor (Z.log2 x) 31.

(** ** Division

    The shift count [W_TYPE_SIZE - bm] is above the width of a word; what a
    shift makes of its count is [count]: the processor takes its lowest five
    bits, while in C it must be below the width. *)

Definition x86_count (c : Z) : cres Z := Ok (c mod 32).
Definition c_count (c : Z) : cres Z :=
  if (0 <=? c) && (c <? 32) then Ok c else Fault ShiftRange.

Section division.
Context (count : Z -> cres Z).

Definition shl (x c : Z) : cres Z := c ← count c; Ok (u32 (Z.shiftl x c)).
Definition shr (x c : Z) : cres Z := c ← count c; Ok (Z.shiftr x c).

(** A division by one word ([d1 == 0]): quotient words and remainder. *)
Definition udivmod_word (n1 n0 d0 : Z) : cres (Z * Z * (Z * Z)) :=
  if n1 <? d0 then
    r ← udiv_qrnnd n1 n0 d0;
    let '(q0, n0) := r in Ok (0, q0, (0, n0))
  else
    _ ← (if d0 =? 0 then Fault DivideError else Ok tt);
    r ← udiv_qrnnd 0 n1 d0;
    let '(q1, n1) := r in
    r ← udiv_qrnnd n1 n0 d0;
    let '(q0, n0) := r in Ok (q1, q0, (0, n0)).

(** A division by two words, the upper with [bm] leading zeros: the quotient
    is one word.  All words are shifted to the left for the estimate. *)
Definition udivmod_normalized (n1 n0 d1 d0 bm : Z) : cres (Z * Z * (Z * Z)) :=
  let b := W_TYPE_SIZE - bm in
  x ← shl d1 bm; y ← shr d0 b; let d1 := Z.lor x y in
  d0 ← shl d0 bm;
  n2 ← shr n1 b;
  x ← shl n1 bm; y ← shr n0 b; let n1 := Z.lor x y in
  n0 ← shl n0 bm;
  r ← udiv_qrnnd n2 n1 d1;
  let '(q0, n1) := r in
  let '(m1, m0) := umul_ppmm q0 d0 in
  let '(q0, (m1, m0)) :=
    if (n1 <? m1) || ((m1 =? n1) && (n0 <? m0))
    then (u32 (q0 - 1), sub_ddmmss m1 m0 d1 d0) else (q0, (m1, m0)) in
  let '(n1, n0) := sub_ddmmss n1 n0 m1 m0 in
  x ← shl n1 b; y ← shr n0 bm; h ← shr n1 bm;
  Ok (0, q0, (h, Z.lor x y)).

Definition udivmod_double (n1 n0 d1 d0 : Z) : cres (Z * Z * (Z * Z)) :=
  if n1 <? d1 then Ok (0, 0, (n1, n0))
  else
    let bm := count_leading_zeros d1 in
    if bm =? 0 then
      if (d1 <? n1) || (d0 <=? n0)
      then Ok (0, 1, sub_ddmmss n1 n0 d1 d0) else Ok (0, 0, (n1, n0))
    else udivmod_normalized n1 n0 d1 d0 bm.

(** The quotient, and the remainder that is stored when [rp] is not null. *)
Definition __udivmoddi4 (n d : Z) : cres (Z * Z) :=
  let n1 := n / B in let n0 := n mod B in
  let d1 := d / B in let d0 := d mod B in
  r ← (if d1 =? 0 then udivmod_word n1 n0 d0 else udivmod_double n1 n0 d1 d0);
  let '(q1, q0, (r1, r0)) := r in
  Ok (q1 * B + q0, r1 * B + r0).

Definition __udivdi3 (n d : Z) : cres Z := r ← __udivmoddi4 n d; Ok r.1.
Definition __umoddi3 (u v : Z) : cres Z := r ← __udivmoddi4 u v; Ok r.2.
End division.

(** * Words and double words *)

Lemma u32_mod z : u32 z = z mod B.
Proof. done. Qed.

(** A double word is determined by its words. *)
Lemma words_unique h l h' l' :
  0 <= l < B -> 0 <= l' < B -> h * B + l = h' * B + l' -> h = h' /\ l = l'.
Proof. lia. Qed.

Lemma div_small_unique n d q r : 0 <= r < d -> n = q * d + r -> n / d = q /\ n mod d = r.
Proof.
  intros Hr ->. split.
  - symmetry. apply (Z.div_unique _ _ _ r); lia.
  - symmetry. apply (Z.mod_unique _ _ q r); lia.
Qed.

(** Subtraction of double words, modulo [2^64]. *)
Lemma sub_ddmmss_spec ah al bh bl :
  0 <= ah < B -> 0 <= al < B -> 0 <= bh < B -> 0 <= bl < B ->
  let r := sub_ddmmss ah al bh bl in
  0 <= r.1 < B /\ 0 <= r.2 < B /\
  r.1 * B + r.2 = ((ah * B + al) - (bh * B + bl)) mod (B * B).
Proof.
  intros Hah Hal Hbh Hbl r. subst r. unfold sub_ddmmss, wrap. cbn [fst snd].
  pose proof (Z.mod_pos_bound (al - bl) B ltac:(lia)).
  set (h := ah - bh - if al <? bl then 1 else 0).
  pose proof (Z.mod_pos_bound h B ltac:(lia)).
  split; [done|]. split; [done|].
  assert (al - bl + (if al <? bl then 1 else 0) * B = (al - bl) mod B) as Hl.
  { destruct (Z.ltb_spec al bl).
    - rewrite <- (Z.mod_add _ 1), Z.mod_small by lia. lia.
    - rewrite Z.mod_small by lia. lia. }
  pose proof (Z.div_mod h B ltac:(lia)).
  apply (Z.mod_unique _ _ (h / B)); [lia|]. subst h. nia.
Qed.

(** The two parts of a word shifted by [k] places into a double word. *)
Lemma shift_join hi lo k :
  0 < k < 32 -> 0 <= hi < B -> 0 <= lo < B ->
  Z.lor (u32 (Z.shiftl hi k)) (Z.shiftr lo (32 - k)) = ((hi * B + lo) * 2 ^ k / B) mod B.
Proof.
  intros Hk Hhi Hlo. rewrite Z.shiftl_mul_pow2, Z.shiftr_div_pow2 by lia. unfold wrap.
  assert (B = 2 ^ (32 - k) * 2 ^ k) as HB by (rewrite <- Z.pow_add_r by lia; f_equal; lia).
  pose proof (Z.pow_pos_nonneg 2 k ltac:(lia) ltac:(lia)).
  pose proof (Z.pow_pos_nonneg 2 (32 - k) ltac:(lia) ltac:(lia)).
  rewrite HB at 1. rewrite Zmult_mod_distr_r.
  assert (0 <= lo / 2 ^ (32 - k) < 2 ^ k) as Hq.
  { split; [apply Z.div_pos; lia|]. apply Z.div_lt_upper_bound; [lia|]. rewrite <- HB. lia. }
  rewrite (lor_low_add _ _ k); [|lia|by rewrite Z.mod_mul by lia|done].
  assert ((hi * B + lo) * 2 ^ k / B = hi * 2 ^ k + lo / 2 ^ (32 - k)) as ->.
  { replace (hi * B + lo) with (hi * 2 ^ k * 2 ^ (32 - k) + lo) by (rewrite HB; ring).
    rewrite HB, Z.div_mul_cancel_r, Z.div_add_l by lia. done. }
  rewrite HB. apply (Z.mod_unique _ _ (hi / 2 ^ (32 - k))).
  - left. pose proof (Z.mod_pos_bound hi (2 ^ (32 - k)) ltac:(lia)). nia.
  - pose proof (Z.div_mod hi (2 ^ (32 - k)) ltac:(lia)). nia.
Qed.

Lemma clz_spec x :
  0 < x < B ->
  let k := count_leading_zeros x in 0 <= k < 32 /\ 2 ^ 31 <= x * 2 ^ k < B.
Proof.
  intros Hx k. pose proof (Z.log2_nonneg x). assert (Z.log2 x < 32) by (apply Z.log2_lt_pow2; lia).
  assert (k = 31 - Z.log2 x) as Hk.
  { subst k. unfold count_leading_zeros. rewrite Z.lxor_comm.
    change 31 with (2 ^ 5 - 1) at 1. rewrite lxor_ones by lia. lia. }
  pose proof (Z.log2_spec x ltac:(lia)) as [Hl Hu]. rewrite Z.pow_succ_r in Hu by lia.
  split; [lia|]. assert (2 ^ 31 = 2 ^ Z.log2 x * 2 ^ k) as H31
    by (rewrite <- Z.pow_add_r by lia; f_equal; lia).
  pose proof (Z.pow_pos_nonneg 2 k ltac:(lia) ltac:(lia)).
  change B with (2 * 2 ^ 31). rewrite H31. nia.
Qed.

(** * Correctness *)

(** The results of the parts, as numbers. *)
Definition divides (n d : Z) (r : cres (Z * Z * (Z * Z))) : Prop :=
  exists q1 q0 r1 r0, r = Ok (q1, q0, (r1, r0)) /\
    q1 * B + q0 = n / d /\ r1 * B + r0 = n mod d.

Lemma udiv_ok n1 n0 dv :
  n1 < dv -> udiv_qrnnd n1 n0 dv = Ok ((n1 * B + n0) / dv, (n1 * B + n0) mod dv).
Proof. intros. unfold udiv_qrnnd. by rewrite (proj2 (Z.leb_gt _ _)). Qed.

Lemma udivmod_word_spec n1 n0 d0 :
  0 <= n1 < B -> 0 <= n0 < B -> 0 < d0 < B ->
  divides (n1 * B + n0) d0 (udivmod_word n1 n0 d0).
Proof.
  intros H1 H0 Hd. unfold udivmod_word. destruct (Z.ltb_spec n1 d0) as [Hlt|Hge].
  - rewrite udiv_ok by done. cbn [mbind cres_bind]. do 4 eexists. split; [done|]. lia.
  - rewrite (proj2 (Z.eqb_neq d0 0)) by lia. cbn [mbind cres_bind].
    rewrite (udiv_ok 0 n1) by lia. cbn [mbind cres_bind]. rewrite Z.add_0_l.
    pose proof (Z.mod_pos_bound n1 d0 ltac:(lia)). pose proof (Z.div_mod n1 d0 ltac:(lia)).
    rewrite udiv_ok by lia. cbn [mbind cres_bind]. do 4 eexists. split; [done|].
    set (m := n1 mod d0) in *. set (q := n1 / d0) in *.
    pose proof (Z.div_mod (m * B + n0) d0 ltac:(lia)).
    pose proof (Z.mod_pos_bound (m * B + n0) d0 ltac:(lia)).
    destruct (div_small_unique (n1 * B + n0) d0 (q * B + (m * B + n0) / d0)
      ((m * B + n0) mod d0)) as [-> ->]; [lia|nia|lia].
Qed.

Lemma udivmod_small n1 n0 d1 d0 :
  0 <= n0 < B -> 0 <= d0 < B -> 0 <= n1 < d1 ->
  (n1 * B + n0) / (d1 * B + d0) = 0 /\ (n1 * B + n0) mod (d1 * B + d0) = n1 * B + n0.
Proof. intros. apply div_small_unique; nia. Qed.

(** The estimate of the quotient of shifted words is exact or one too
    large. *)
Lemma estimate N1 N0 D1 D0 bm :
  0 < bm < 32 -> 2 ^ 31 <= D1 < B -> 0 <= D0 <= B - 2 ^ bm -> 0 <= N0 < B ->
  0 <= N1 < 2 ^ bm * B ->
  let q := N1 / D1 in let r := N1 mod D1 in
  0 <= q < B /\ q * D0 <= D1 * B + D0 + r * B + N0.
Proof.
  intros Hbm HD1 HD0 HN0 HN1 q r.
  pose proof (Z.div_mod N1 D1 ltac:(lia)) as Hdm. fold q r in Hdm.
  pose proof (Z.mod_pos_bound N1 D1 ltac:(lia)) as Hr. fold r in Hr.
  assert (0 <= q) as Hq0 by (apply Z.div_pos; lia).
  pose proof (Z.pow_le_mono_r 2 bm 31 ltac:(lia) ltac:(lia)) as Hpow.
  assert (q < 2 * 2 ^ bm) as Hq.
  { apply Z.div_lt_upper_bound; [lia|]. pose proof (Z.pow_pos_nonneg 2 bm ltac:(lia) ltac:(lia)). nia. }
  split; [lia|]. destruct (decide (bm = 31)) as [->|Hne].
  - assert (q * D0 <= (B - 1) * 2 ^ 31) by (apply Z.mul_le_mono_nonneg; lia). nia.
  - pose proof (Z.pow_le_mono_r 2 bm 30 ltac:(lia) ltac:(lia)).
    assert (q * D0 <= 2 ^ 31 * B) by (apply Z.mul_le_mono_nonneg; lia). nia.
Qed.

(** The words of a double word shifted by [k] places. *)
Lemma shifted h l k :
  0 < k < 32 -> 0 <= h < B -> 0 <= l < B ->
  let x := (h * B + l) * 2 ^ k in
  u32 (Z.shiftl l k) = x mod B /\
  Z.lor (u32 (Z.shiftl h k)) (Z.shiftr l (32 - k)) = x / B mod B /\
  Z.shiftr h (32 - k) = x / B / B.
Proof.
  intros Hk Hh Hl x. split; [|split; [by apply shift_join|]].
  - rewrite Z.shiftl_mul_pow2 by lia. unfold wrap. subst x.
    replace ((h * B + l) * 2 ^ k) with (l * 2 ^ k + h * 2 ^ k * B) by ring.
    by rewrite Z.mod_add.
  - rewrite Z.shiftr_div_pow2 by lia. subst x.
    assert (B = 2 ^ (32 - k) * 2 ^ k) as HB by (rewrite <- Z.pow_add_r by lia; f_equal; lia).
    pose proof (Z.pow_pos_nonneg 2 k ltac:(lia) ltac:(lia)).
    pose proof (Z.pow_pos_nonneg 2 (32 - k) ltac:(lia) ltac:(lia)).
    rewrite (Z.div_div _ B B) by lia.
    replace (B * B) with (B * 2 ^ (32 - k) * 2 ^ k) by (rewrite <- Z.mul_assoc, <- HB; done).
    rewrite Z.div_mul_cancel_r, <- Z.div_div, Z.div_add_l, (Z.div_small l B) by lia.
    by rewrite Z.add_0_r.
Qed.

(** Shifting a multiple of [2 ^ k] back. *)
Lemma shifted_back h l k v :
  0 < k < 32 -> 0 <= h < B -> 0 <= l < B -> h * B + l = v * 2 ^ k ->
  Z.shiftr h k = v / B /\ Z.lor (u32 (Z.shiftl h (32 - k))) (Z.shiftr l k) = v mod B.
Proof.
  intros Hk Hh Hl Hv. pose proof (Z.pow_pos_nonneg 2 k ltac:(lia) ltac:(lia)).
  pose proof (Z.pow_pos_nonneg 2 (32 - k) ltac:(lia) ltac:(lia)).
  assert (B = 2 ^ k * 2 ^ (32 - k)) as HB by (rewrite <- Z.pow_add_r by lia; f_equal; lia).
  split.
  - rewrite Z.shiftr_div_pow2 by lia.
    assert (h = (v * 2 ^ k) / B) as -> by (rewrite <- Hv, Z.div_add_l, Z.div_small; lia).
    rewrite Z.div_div, Z.div_mul_cancel_r by lia. done.
  - pose proof (shift_join h l (32 - k) ltac:(lia) Hh Hl) as Hj.
    replace (32 - (32 - k)) with k in Hj by lia. rewrite Hj, Hv, HB at 1.
    rewrite <- Z.mul_assoc, <- HB, Z.div_mul by lia. done.
Qed.

Lemma shl_x86 x c : shl x86_count x c = Ok (u32 (Z.shiftl x (c mod 32))).
Proof. done. Qed.
Lemma shr_x86 x c : shr x86_count x c = Ok (Z.shiftr x (c mod 32)).
Proof. done. Qed.

Lemma less_words h l h' l' :
  0 <= l < B -> 0 <= l' < B ->
  (h <? h') || ((h' =? h) && (l <? l')) = (h * B + l <? h' * B + l').
Proof. lia. Qed.

(** Shifting operands of a division does not change the quotient. *)
Lemma div_shifted n d q rem k :
  0 < k -> 0 < d -> n * k = q * (d * k) + rem -> 0 <= rem < d * k ->
  q = n / d /\ rem = n mod d * k.
Proof.
  intros Hk Hd Heq Hrem.
  destruct (div_small_unique (n * k) (d * k) q rem Hrem Heq) as [Hq Hr].
  rewrite Z.div_mul_cancel_r in Hq by lia. rewrite Zmult_mod_distr_r in Hr. done.
Qed.

(** The correction of the estimate and the remainder. *)
Definition corrected (q r N0 D1 D0 : Z) : Z * (Z * Z) :=
  let '(m1, m0) := umul_ppmm q D0 in
  let '(q, (m1, m0)) :=
    if (r <? m1) || ((m1 =? r) && (N0 <? m0))
    then (u32 (q - 1), sub_ddmmss m1 m0 D1 D0) else (q, (m1, m0)) in
  (q, sub_ddmmss r N0 m1 m0).

Lemma corrected_spec q r N0 D1 D0 :
  0 <= q < B -> 0 <= r < D1 -> 0 <= N0 < B -> 0 <= D0 < B -> D1 < B ->
  q * D0 <= D1 * B + D0 + r * B + N0 ->
  exists q' R1 R0, corrected q r N0 D1 D0 = (q', (R1, R0)) /\ 0 <= R1 < B /\ 0 <= R0 < B /\
    0 <= R1 * B + R0 < D1 * B + D0 /\
    q * (D1 * B) + r * B + N0 = q' * (D1 * B + D0) + (R1 * B + R0).
Proof.
  intros Hq Hr HN HD0 HD1 Hest. unfold corrected, umul_ppmm.
  pose proof (Z.div_mod (q * D0) B ltac:(lia)) as Hm.
  pose proof (Z.mod_pos_bound (q * D0) B ltac:(lia)) as Hm0.
  set (m1 := q * D0 / B) in *. set (m0 := q * D0 mod B) in *.
  assert (0 <= m1 < B) as Hm1 by nia. assert (q * D0 = m1 * B + m0) as Hm' by lia. clear Hm.
  rewrite less_words by done. rewrite <- Hm'. destruct (Z.ltb_spec (r * B + N0) (q * D0)) as [Hlt|Hge].
  - destruct (sub_ddmmss_spec m1 m0 D1 D0 Hm1 Hm0 ltac:(lia) HD0) as (Ha1 & Ha0 & Ha).
    destruct (sub_ddmmss m1 m0 D1 D0) as [a1 a0]. cbn [fst snd] in *.
    destruct (sub_ddmmss_spec r N0 a1 a0 ltac:(lia) HN Ha1 Ha0) as (Hb1 & Hb0 & Hb).
    destruct (sub_ddmmss r N0 a1 a0) as [b1 b0]. cbn [fst snd] in *.
    rewrite Ha, Zminus_mod_idemp_r, Z.mod_small in Hb by lia.
    assert (1 <= q) by nia. rewrite (wrap_small 32 (q - 1)) by lia.
    do 3 eexists. split; [done|]. split; [done|]. split; [done|]. split; nia.
  - destruct (sub_ddmmss_spec r N0 m1 m0 ltac:(lia) HN Hm1 Hm0) as (Hb1 & Hb0 & Hb).
    destruct (sub_ddmmss r N0 m1 m0) as [b1 b0]. cbn [fst snd] in *.
    rewrite Z.mod_small in Hb by nia.
    do 3 eexists. split; [done|]. split; [done|]. split; [done|]. split; nia.
Qed.

(** The words of the shifted divisor. *)
Lemma normalized_divisor d1 d0 bm :
  0 < bm < 32 -> 0 < d1 -> 0 <= d0 < B -> 2 ^ 31 <= d1 * 2 ^ bm < B ->
  let D := (d1 * B + d0) * 2 ^ bm in
  2 ^ 31 <= D / B < B /\ 0 <= D mod B <= B - 2 ^ bm.
Proof.
  intros Hbm Hd1 Hd0 Hnorm D.
  assert (2 ^ bm * 2 ^ (32 - bm) = B) as HKB by (rewrite <- Z.pow_add_r by lia; f_equal; lia).
  set (K := 2 ^ bm) in *. assert (0 < K) as HK by (apply Z.pow_pos_nonneg; lia).
  split.
  - split; [apply Z.div_le_lower_bound; subst D; nia|].
    apply Z.div_lt_upper_bound; [lia|]. subst D.
    assert (d1 + 1 <= 2 ^ (32 - bm)) by nia. nia.
  - assert (D mod B = K * ((d1 * B + d0) mod 2 ^ (32 - bm))) as ->.
    { subst D. rewrite <- HKB at 2. rewrite (Z.mul_comm _ K). by rewrite Zmult_mod_distr_l. }
    pose proof (Z.mod_pos_bound (d1 * B + d0) (2 ^ (32 - bm)) ltac:(nia)). nia.
Qed.

Lemma udivmod_normalized_spec n1 n0 d1 d0 :
  0 <= n1 < B -> 0 <= n0 < B -> 0 < d1 < B -> 0 <= d0 < B -> 0 < count_leading_zeros d1 ->
  divides (n1 * B + n0) (d1 * B + d0)
    (udivmod_normalized x86_count n1 n0 d1 d0 (count_leading_zeros d1)).
Proof.
  intros Hn1 Hn0 Hd1 Hd0 Hbm. destruct (clz_spec d1 Hd1) as [Hbm32 Hnorm].
  set (bm := count_leading_zeros d1) in *. set (K := 2 ^ bm) in *.
  assert (0 < K) as HK by (apply Z.pow_pos_nonneg; lia).
  set (n := n1 * B + n0). set (d := d1 * B + d0). set (N := n * K). set (D := d * K).
  pose proof (shifted d1 d0 bm ltac:(lia) ltac:(lia) Hd0) as (Hs0 & Hs1 & _).
  pose proof (shifted n1 n0 bm ltac:(lia) Hn1 Hn0) as (Ht0 & Ht1 & Ht2). fold K d D n N in Hs0, Hs1, Ht0, Ht1, Ht2.
  assert (W_TYPE_SIZE - bm = 64 - bm) as Hb by done.
  assert ((64 - bm) mod 32 = 32 - bm) as Hmod.
  { symmetry. apply (Z.mod_unique _ _ 1); lia. }
  assert (bm mod 32 = bm) as Hbmm by (apply Z.mod_small; lia).
  unfold udivmod_normalized. rewrite Hb.
  repeat (rewrite ?shl_x86, ?shr_x86, ?Hmod, ?Hbmm, ?Hs0, ?Hs1, ?Ht0, ?Ht1, ?Ht2; cbn [mbind cres_bind]).
  assert (0 <= n < B * B) as Hn by (subst n; nia). assert (0 < d) as Hd by (subst d; nia).
  destruct (normalized_divisor d1 d0 bm ltac:(lia) ltac:(lia) Hd0 Hnorm) as [HD1 HD0].
  fold K d D in HD1, HD0.
  assert (0 <= N / B < K * B) as HN1.
  { split; [apply Z.div_pos; subst N; nia|]. apply Z.div_lt_upper_bound; subst N; nia. }
  pose proof (Z.mod_pos_bound N B ltac:(lia)) as HN0. pose proof (Z.div_mod N B ltac:(lia)) as HN.
  pose proof (Z.div_mod D B ltac:(lia)) as HDeq.
  rewrite !(Z.mod_small (D / B)) by lia.
  assert (N / B / B < D / B) as Hfit.
  { apply Z.lt_le_trans with K; [apply Z.div_lt_upper_bound; lia|].
    assert (K <= 2 ^ 31) by (apply Z.pow_le_mono_r; lia). lia. }
  rewrite udiv_ok by done. cbn [mbind cres_bind].
  replace (N / B / B * B + N / B mod B) with (N / B) by (pose proof (Z.div_mod (N / B) B ltac:(lia)); lia).
  destruct (estimate (N / B) (N mod B) (D / B) (D mod B) bm ltac:(lia) HD1 HD0 HN0 HN1) as [Hq Hest].
  pose proof (Z.mod_pos_bound (N / B) (D / B) ltac:(lia)) as Hr.
  pose proof (Z.div_mod (N / B) (D / B) ltac:(lia)) as Hqr.
  set (q := N / B / (D / B)) in *. set (r := (N / B) mod (D / B)) in *.
  destruct (corrected_spec q r (N mod B) (D / B) (D mod B) Hq Hr HN0 ltac:(lia) ltac:(lia) Hest)
    as (q' & R1 & R0 & Hcorr & HR1 & HR0 & HR & Heq).
  unfold corrected in Hcorr. destruct (umul_ppmm q (D mod B)) as [m1 m0].
  destruct (if _ : bool then _ else _) as [q1 [m3 m2]]. destruct (sub_ddmmss r (N mod B) m3 m2) as [w1 w0].
  injection Hcorr as -> -> ->.
  assert (n * K = q' * (d * K) + (R1 * B + R0)) as Hfinal by (fold N D; nia).
  destruct (div_shifted n d q' (R1 * B + R0) K HK Hd Hfinal) as [Hquot Hrem]; [fold D; lia|].
  destruct (shifted_back R1 R0 bm (n mod d) ltac:(lia) HR1 HR0 Hrem) as [Hh Hl].
  rewrite shl_x86, shr_x86, Hmod, Hbmm. cbn [mbind cres_bind].
  rewrite shr_x86, Hbmm. cbn [mbind cres_bind]. rewrite ?shr_x86, ?Hbmm. cbn [mbind cres_bind].
  do 4 eexists. split; [done|]. rewrite Hh, Hl. split; [lia|].
  pose proof (Z.div_mod (n mod d) B ltac:(lia)). lia.
Qed.

Lemma udivmod_double_spec n1 n0 d1 d0 :
  0 <= n1 < B -> 0 <= n0 < B -> 0 < d1 < B -> 0 <= d0 < B ->
  divides (n1 * B + n0) (d1 * B + d0) (udivmod_double x86_count n1 n0 d1 d0).
Proof.
  intros Hn1 Hn0 Hd1 Hd0. unfold udivmod_double. destruct (Z.ltb_spec n1 d1) as [Hlt|Hge].
  { destruct (udivmod_small n1 n0 d1 d0) as [Hq Hr]; try lia. do 4 eexists. split; [done|]. lia. }
  destruct (clz_spec d1 Hd1) as [Hbm Hnorm].
  destruct (Z.eqb_spec (count_leading_zeros d1) 0) as [Hz|Hnz];
    [|apply udivmod_normalized_spec; lia].
  rewrite Hz, Z.pow_0_r, Z.mul_1_r in Hnorm.
  assert ((d1 <? n1) || (d0 <=? n0) = (d1 * B + d0 <=? n1 * B + n0)) as -> by lia.
  destruct (Z.leb_spec (d1 * B + d0) (n1 * B + n0)).
  - destruct (sub_ddmmss_spec n1 n0 d1 d0) as (_ & _ & Hs); try lia.
    rewrite Z.mod_small in Hs by lia. do 4 eexists. split.
    { by rewrite (surjective_pairing (sub_ddmmss n1 n0 d1 d0)). }
    rewrite Hs. destruct (div_small_unique (n1 * B + n0) (d1 * B + d0) 1
      (n1 * B + n0 - (d1 * B + d0))) as [-> ->]; lia.
  - do 4 eexists. split; [done|].
    destruct (div_small_unique (n1 * B + n0) (d1 * B + d0) 0 (n1 * B + n0)) as [-> ->]; lia.
Qed.

Lemma words n : 0 <= n < 2 ^ 64 -> 0 <= n / B < B /\ 0 <= n mod B < B /\ n / B * B + n mod B = n.
Proof.
  intros Hn. pose proof (Z.mod_pos_bound n B ltac:(lia)). pose proof (Z.div_mod n B ltac:(lia)).
  split; [split; [apply Z.div_pos; lia|apply Z.div_lt_upper_bound; lia]|]. lia.
Qed.

(** * The contract *)

(** C1: the division of double words is exact.  With the processor's shifts,
    for all dividends and divisors of 64 bits, [__udivmoddi4] returns quotient
    and remainder, or raises the exception of a division by zero if and only
    if the divisor is zero; so do [__udivdi3] and [__umoddi3].  In particular
    no division of a double word by a word on the way overflows, and the
    estimate of the quotient needs at most one correction. *)
Theorem udivmoddi4_correct n d :
  0 <= n < 2 ^ 64 -> 0 <= d < 2 ^ 64 ->
  __udivmoddi4 x86_count n d = (if d =? 0 then Fault DivideError else Ok (n / d, n mod d)) /\
  __udivdi3 x86_count n d = (if d =? 0 then Fault DivideError else Ok (n / d)) /\
  __umoddi3 x86_count n d = (if d =? 0 then Fault DivideError else Ok (n mod d)).
Proof.
  intros Hn Hd.
  enough (__udivmoddi4 x86_count n d = (if d =? 0 then Fault DivideError else Ok (n / d, n mod d))) as H
    by (unfold __udivdi3, __umoddi3; rewrite H; by destruct (d =? 0)).
  destruct (words n Hn) as (Hn1 & Hn0 & Hneq). destruct (words d Hd) as (Hd1 & Hd0 & Hdeq).
  destruct (Z.eqb_spec d 0) as [->|Hdz].
  { unfold __udivmoddi4. cbn [Z.eqb]. change (0 mod B) with 0. unfold udivmod_word.
    by rewrite (proj2 (Z.ltb_ge _ 0)) by lia. }
  assert (divides n d (if d / B =? 0 then udivmod_word (n / B) (n mod B) (d mod B)
    else udivmod_double x86_count (n / B) (n mod B) (d / B) (d mod B)))
    as (q1 & q0 & r1 & r0 & Hrun & Hq & Hr).
  { destruct (Z.eqb_spec (d / B) 0) as [H0|].
    - pose proof (udivmod_word_spec (n / B) (n mod B) (d mod B) Hn1 Hn0 ltac:(lia)) as H.
      rewrite Hneq in H. by replace (d mod B) with d in * by lia.
    - pose proof (udivmod_double_spec (n / B) (n mod B) (d / B) (d mod B) Hn1 Hn0
        ltac:(lia) Hd0) as H.
      by rewrite Hneq, Hdeq in H. }
  unfold __udivmoddi4. rewrite Hrun. cbn [mbind cres_bind]. by rewrite Hq, Hr.
Qed.

(** The code relies on more than C promises.  Shifting by
    [W_TYPE_SIZE - bm], where [W_TYPE_SIZE] is 64 and words have 32 bits, is
    not defined in C: with shifts that insist on a count below the width,
    [__udivmoddi4] gets into undefined behaviour for exactly the divisors of
    two words whose highest bit is not set and whose upper word is not above
    that of the dividend; in all other cases it is as before. *)
Lemma udivmoddi4_shift_undefined n d :
  0 <= n < 2 ^ 64 -> 0 <= d < 2 ^ 64 ->
  __udivmoddi4 c_count n d =
  if (2 ^ 32 <=? d) && (d <? 2 ^ 63) && (d / 2 ^ 32 <=? n / 2 ^ 32)
  then Fault ShiftRange else __udivmoddi4 x86_count n d.
Proof.
  intros Hn Hd. destruct (words d Hd) as (Hd1 & Hd0 & Hdeq).
  unfold __udivmoddi4. destruct (Z.eqb_spec (d / B) 0) as [H0|H0].
  { by rewrite (proj2 (Z.leb_gt (2 ^ 32) d)) by lia. }
  rewrite (proj2 (Z.leb_le (2 ^ 32) d)) by lia. cbn [andb].
  destruct (clz_spec (d / B) ltac:(lia)) as [Hbm Hnorm].
  unfold udivmod_double. rewrite (Z.leb_antisym (n / B) (d / B)).
  destruct (n / B <? d / B); [by rewrite andb_false_r|]. rewrite andb_true_r.
  destruct (Z.eqb_spec (count_leading_zeros (d / B)) 0) as [Hz|Hnz].
  { rewrite Hz in Hnorm. by rewrite (proj2 (Z.ltb_ge d (2 ^ 63))) by lia. }
  assert (2 <= 2 ^ count_leading_zeros (d / B)) as H2
    by (apply (Z.pow_le_mono_r 2 1); lia).
  rewrite (proj2 (Z.ltb_lt d (2 ^ 63))) by nia.
  set (bm := count_leading_zeros (d / B)) in *. unfold udivmod_normalized, W_TYPE_SIZE.
  assert (forall x, shl c_count x bm = Ok (u32 (Z.shiftl x bm))) as Hl.
  { intros x. unfold shl, c_count. by assert ((0 <=? bm) && (bm <? 32) = true) as -> by lia. }
  assert (forall x, shr c_count x (64 - bm) = Fault ShiftRange) as Hr.
  { intros x. unfold shr, c_count.
    by assert ((0 <=? 64 - bm) && (64 - bm <? 32) = false) as -> by lia. }
  rewrite (Hl (d / B)). cbn [mbind cres_bind]. by rewrite (Hr (d mod B)).
Qed.

Lemma udivmoddi4_correct_witness :
  __udivmoddi4 x86_count 0xFEDCBA9876543210 0x1FFFFFFFF = Ok (0x7F6E5D4C, 0xF5C28F5C) /\
  __udivdi3 x86_count 7 0 = Fault DivideError.
Proof.
  split.
  - exact (proj1 (udivmoddi4_correct 0xFEDCBA9876543210 0x1FFFFFFFF ltac:(lia) ltac:(lia))).
  - exact (proj1 (proj2 (udivmoddi4_correct 7 0 ltac:(lia) ltac:(lia)))).
Defined.

Lemma udivmoddi4_shift_undefined_witness :
  __udivmoddi4 c_count (2 ^ 40) (2 ^ 33) = Fault ShiftRange /\
  __udivmoddi4 c_count 100 7 = Ok (14, 2).
Proof.
  split.
  - exact (udivmoddi4_shift_undefined (2 ^ 40) (2 ^ 33) ltac:(lia) ltac:(lia)).
  - exact (udivmoddi4_shift_undefined 100 7 ltac:(lia) ltac:(lia)).
Defined.
