(* ===== verification/PhysMem.v ===== *)
(** * Physical memory of the kernel: [x86_mem.c], [x86_mem.h]

    Page allocation by a free list threaded through the free pages and use
    counters, page trees of two levels, and the set-up of paging.  All these
    access memory in aligned 32-bit words, through the mapping of physical
    memory at [PAGE_OFFSET]: memory is a finite map from physical word
    addresses to words. *)

From S2P Require Import Prelude.
Open Scope Z_scope.

(** ** Constants and address arithmetic *)

Definition PAGE_SIZE : Z := 4096.
Definition PAGE_SHIFT : Z := 12.
Definition PAGE_DIR_SHIFT : Z := 22.
Definition PAGE_MASK : Z := 0xfffff000.
Definition PAGE_TAB_MASK : Z := 0x003ff000.
Definition PTRS_PER_PAGE : Z := Z.shiftr PAGE_SIZE 2.

Definition MAP_NR (addr : Z) : Z := Z.shiftr addr PAGE_SHIFT.
Definition MAP_PAGE_RESERVED : Z := Z.shiftl 1 15.

Definition PAGE_PRESENT : Z := 0x001.
Definition PAGE_RW : Z := 0x002.
Definition PAGE_USER : Z := 0x004.
Definition PAGE_ACCESSED : Z := 0x020.
Definition PAGE_COW : Z := 0x200.
Definition PAGE_SHARED : Z :=
  Z.lor (Z.lor (Z.lor PAGE_PRESENT PAGE_RW) PAGE_USER) PAGE_ACCESSED.
Definition PAGE_TABLE : Z :=
  Z.lor (Z.lor (Z.lor PAGE_PRESENT PAGE_RW) PAGE_USER) PAGE_ACCESSED.

Definition ONE_MEGABYTE : Z := 0x100000.
Definition KERNEL_PHYS_BASE : Z := 0x100000.
Definition KERNEL_VIRT_BASE : Z := 0xC0000000.
Definition KERNEL_VIRT_PDINDX : Z := Z.shiftr 0xC00 2.
Definition KERNEL_DATA : Z := KERNEL_PHYS_BASE + 2 * ONE_MEGABYTE.
Definition KERNEL_DATA_SPACE : Z := 10 * ONE_MEGABYTE.
Definition KERNEL_SPACE : Z := KERNEL_DATA_SPACE + 2 * ONE_MEGABYTE.
Definition PAGE_OFFSET : Z := KERNEL_VIRT_BASE.
Definition KERNEL_MAPPED_SPACE : Z :=
  land_not 32 (KERNEL_PHYS_BASE + KERNEL_SPACE + 4 * ONE_MEGABYTE - 1) (4 * ONE_MEGABYTE).
Definition VIRT_MEM (x : Z) : Z := u32 (x + PAGE_OFFSET).
Definition PHYS_MEM (x : Z) : Z := u32 (x - PAGE_OFFSET).
Definition BOOT_PAGE_DIR : Z := 0x10000.

(** ** The machine

    The variables of the file, physical memory, the page directory in use
    ([%cr3]) and the interrupt flag. *)

Record machine := {
  words : gmap Z Z;
  mem_map : list Z;
  free_page_list : Z;
  free_page_count : Z;
  mem_base : Z;
  mem_end : Z;
  mem_size : Z;
  sbrk_size : Z;
  kernel_pdir : Z;
  cr3 : Z;
  if_flag : bool
}.

#[export] Instance eta_machine : Eta machine := fun r =>
  Build_machine (words r) (mem_map r) (free_page_list r) (free_page_count r) (mem_base r)
    (mem_end r) (mem_size r) (sbrk_size r) (kernel_pdir r) (cr3 r) (if_flag r).

Definition kernel (A : Type) : Type := machine -> cres (A * machine).
#[export] Instance kernel_ret : MRet kernel := fun A a s => Ok (a, s).
#[export] Instance kernel_bind : MBind kernel := fun A B k p s =>
  match p s with Ok (a, s') => k a s' | Fault f => Fault f end.

Definition gets {A} (f : machine -> A) : kernel A := fun s => Ok (f s, s).
Definition modify (f : machine -> machine) : kernel unit := fun s => Ok (tt, f s).
Definition abort {A} : kernel A := fun _ => Fault Aborted.
Definition assert (b : bool) : kernel unit := if b then mret tt else abort.

Definition load (a : Z) : kernel Z := fun s =>
  match words s !! a with Some v => Ok (v, s) | None => Fault OutOfBounds end.
Definition store (a v : Z) : kernel unit := fun s =>
  match words s !! a with
  | Some _ => Ok (tt, s <| words := <[a := v]> (words s) |>)
  | None => Fault OutOfBounds
  end.

(** [p[i]] for a pointer to words in kernel space. *)
Definition word (p i : Z) : kernel Z := load (PHYS_MEM (u32 (p + 4 * i))).
Definition set_word (p i v : Z) : kernel unit := store (PHYS_MEM (u32 (p + 4 * i))) v.

Definition map_at (i : Z) : kernel Z := fun s =>
  match (if 0 <=? i then mem_map s !! Z.to_nat i else None) with
  | Some n => Ok (n, s) | None => Fault OutOfBounds end.
Definition set_map (i n : Z) : kernel unit := fun s =>
  match (if 0 <=? i then mem_map s !! Z.to_nat i else None) with
  | Some _ => Ok (tt, s <| mem_map := <[Z.to_nat i := u16 n]> (mem_map s) |>)
  | None => Fault OutOfBounds end.

Definition save_flags : kernel bool := gets if_flag.
Definition cli : kernel unit := modify (fun s => s <| if_flag := false |>).
Definition restore_flags (flags : bool) : kernel unit :=
  modify (fun s => s <| if_flag := flags |>).
Definition get_cr3 : kernel Z := gets cr3.

(** [for(i = start; i < start + n; i++) body(i);] *)
Fixpoint for_each (start : Z) (n : nat) (body : Z -> kernel unit) : kernel unit :=
  match n with
  | O => mret tt
  | S n' => _ ← body start; for_each (start + 1) n' body
  end.

(** ** Pages *)

Definition get_page : kernel Z :=
  tmp ← gets free_page_list;
  flags ← save_flags;
  _ ← cli;
  count ← gets free_page_count;
  l ← gets free_page_list;
  if (count =? 0) || (l =? 0) then mret 0 else
  next ← word (VIRT_MEM tmp) 0;
  _ ← modify (fun s => s <| free_page_list := next |>);
  _ ← assert (land_not 32 next PAGE_MASK =? 0);
  n ← map_at (MAP_NR tmp);
  _ ← assert (n =? 0);
  _ ← set_map (MAP_NR tmp) 1;
  _ ← restore_flags flags;
  mret tmp.

Definition free_page (adr : Z) : kernel unit :=
  flags ← save_flags;
  _ ← cli;
  nr ← map_at (MAP_NR adr);
  e ← gets mem_end;
  _ ← assert (adr <? e);
  _ ← assert (negb (nr =? MAP_PAGE_RESERVED));
  _ ← assert (0 <? nr);
  let nr := u16 (nr - 1) in
  _ ← set_map (MAP_NR adr) nr;
  _ ← (if nr =? 0 then
         l ← gets free_page_list;
         _ ← set_word (VIRT_MEM adr) 0 l;
         modify (fun s => s <| free_page_list := adr |>)
       else mret tt);
  restore_flags flags.

(** [memset(p, 0, PAGE_SIZE)] on the words of a page. *)
Definition clear_page (p : Z) : kernel unit :=
  for_each 0 (Z.to_nat PTRS_PER_PAGE) (fun i => set_word p i 0).

Definition kmalloc_page : kernel Z :=
  p ← get_page;
  if p =? 0 then abort else
  _ ← clear_page (VIRT_MEM p);
  mret p.

(** ** Page trees *)

Definition dir_of (tree : Z) : kernel Z :=
  if tree =? 0 then c ← get_cr3; mret (VIRT_MEM c) else mret (VIRT_MEM tree).

(** A new table for [virtual]. *)
Definition add_table (p_dir virtual : Z) : kernel Z :=
  p ← kmalloc_page;
  let p_table := VIRT_MEM p in
  _ ← set_word p_dir (Z.shiftr virtual PAGE_DIR_SHIFT) (Z.lor (PHYS_MEM p_table) PAGE_TABLE);
  mret p_table.

Definition show_page (tree page virtual flags : Z) : kernel unit :=
  _ ← assert (land_not 32 page PAGE_MASK =? 0);
  _ ← assert (land_not 32 virtual PAGE_MASK =? 0);
  p_dir ← dir_of tree;
  e ← word p_dir (Z.shiftr virtual PAGE_DIR_SHIFT);
  let p_table := VIRT_MEM (Z.land e PAGE_MASK) in
  p_table ← (if PHYS_MEM p_table =? 0 then add_table p_dir virtual else mret p_table);
  set_word p_table (Z.shiftr (Z.land virtual PAGE_TAB_MASK) PAGE_SHIFT) (Z.lor page flags).

Definition get_table_entry (tree virtual : Z) : kernel Z :=
  dir ← dir_of tree;
  e ← word dir (Z.shiftr virtual PAGE_DIR_SHIFT);
  let table := VIRT_MEM (Z.land e PAGE_MASK) in
  if PHYS_MEM table =? 0 then mret 0
  else word table (Z.shiftr (Z.land virtual PAGE_TAB_MASK) PAGE_SHIFT).

Definition set_table_entry (tree virtual entry : Z) : kernel unit :=
  dir ← dir_of tree;
  e ← word dir (Z.shiftr virtual PAGE_DIR_SHIFT);
  let table := VIRT_MEM (Z.land e PAGE_MASK) in
  if PHYS_MEM table =? 0 then mret tt
  else set_word table (Z.shiftr (Z.land virtual PAGE_TAB_MASK) PAGE_SHIFT) entry.

Inductive copy_mode := NORMAL | COPY_ON_WRITE.

(** The [j]-th entry of the table [s_table] at index [i] of its directory is
    copied to [d_table]. *)
Definition copy_entry (mode : copy_mode) (i s_table d_table j : Z) : kernel unit :=
  e ← word s_table j;
  if e =? 0 then mret tt else
  _ ← (match mode with
       | COPY_ON_WRITE => set_word s_table j (Z.lor (land_not 32 e PAGE_RW) PAGE_COW)
       | NORMAL => mret tt
       end);
  e ← word s_table j;
  _ ← set_word d_table j e;
  e ← word s_table j;
  let index := MAP_NR (Z.land e PAGE_MASK) in
  n ← map_at index;
  if negb (n =? MAP_PAGE_RESERVED) && (i <? KERNEL_VIRT_PDINDX)
  then set_map index (n + 1) else mret tt.

Definition copy_table (mode : copy_mode) (s_dir d_dir i : Z) : kernel unit :=
  e ← word s_dir i;
  let s_table := VIRT_MEM (Z.land e PAGE_MASK) in
  if PHYS_MEM s_table =? 0 then set_word d_dir i 0 else
  p ← kmalloc_page;
  let d_table := VIRT_MEM p in
  _ ← for_each 0 (Z.to_nat PTRS_PER_PAGE) (copy_entry mode i s_table d_table);
  e ← word s_dir i;
  set_word d_dir i (Z.lor (PHYS_MEM d_table) (land_not 32 e PAGE_MASK)).

Definition copy_page_tree (tree : Z) (mode : copy_mode) : kernel Z :=
  flags ← save_flags;
  _ ← cli;
  let s_dir := VIRT_MEM tree in
  p ← kmalloc_page;
  let d_dir := VIRT_MEM p in
  _ ← for_each 0 (Z.to_nat PTRS_PER_PAGE) (copy_table mode s_dir d_dir);
  _ ← restore_flags flags;
  mret (PHYS_MEM d_dir).

Definition free_entry (i s_table j : Z) : kernel unit :=
  e ← word s_table j;
  let tmp := Z.land e PAGE_MASK in
  n ← map_at (MAP_NR tmp);
  if negb (tmp =? 0) && (i <? KERNEL_VIRT_PDINDX) && negb (n =? MAP_PAGE_RESERVED)
  then free_page tmp else mret tt.

Definition free_table (s_dir i : Z) : kernel unit :=
  e ← word s_dir i;
  let s_table := VIRT_MEM (Z.land e PAGE_MASK) in
  if PHYS_MEM s_table =? 0 then mret tt else
  _ ← for_each 0 (Z.to_nat PTRS_PER_PAGE) (free_entry i s_table);
  free_page (PHYS_MEM s_table).

Definition free_page_tree (tree : Z) : kernel unit :=
  flags ← save_flags;
  _ ← cli;
  let s_dir := VIRT_MEM tree in
  _ ← for_each 0 (Z.to_nat PTRS_PER_PAGE) (free_table s_dir);
  _ ← free_page (PHYS_MEM s_dir);
  restore_flags flags.

(** ** Set-up

    Before paging is set up, pointers are physical addresses. *)

(** The entries of one page table, and the pointer behind it. *)
Fixpoint fill_table (n : nat) (pg_table adr : Z) : kernel (Z * Z) :=
  match n with
  | O => mret (pg_table, adr)
  | S n' =>
    e ← gets mem_end;
    _ ← store pg_table (if adr <? e then Z.lor adr PAGE_SHARED else 0);
    fill_table n' (u32 (pg_table + 4)) (u32 (adr + PAGE_SIZE))
  end.

(** [while(adr < mem_end)] over the page tables; [fuel] bounds their
    number. *)
Fixpoint fill_dir (fuel : nat) (pg_dir next_pg_table pg_table adr : Z) : kernel Z :=
  match fuel with
  | O => fun _ => Fault OutOfFuel
  | S fuel' =>
    e ← gets mem_end;
    if adr <? e then
      let pg_table := next_pg_table in
      let next_pg_table := u32 (next_pg_table + PAGE_SIZE) in
      _ ← store pg_dir (Z.lor pg_table PAGE_TABLE);
      r ← fill_table (Z.to_nat PTRS_PER_PAGE) pg_table adr;
      fill_dir fuel' (u32 (pg_dir + 4)) next_pg_table r.1 r.2
    else mret pg_table
  end.

(** The pointer to the page table is not initialised before the loop:
    [junk]. *)
Definition init_paging (junk : Z) : kernel unit :=
  _ ← modify (fun s => s <| kernel_pdir := BOOT_PAGE_DIR |>);
  kdir ← gets kernel_pdir;
  let next_pg_table := kdir + PAGE_SIZE in
  let pg_dir := kdir + 4 * KERNEL_VIRT_PDINDX in
  pg_table ← fill_dir 257 pg_dir next_pg_table junk 0;
  store pg_table 0.

(** [for(adr = 0; adr < end; adr += PAGE_SIZE) body(adr);] *)
Definition for_pages (last : Z) (body : Z -> kernel unit) : kernel unit :=
  for_each 0 (Z.to_nat ((last + PAGE_SIZE - 1) / PAGE_SIZE)) (fun k => body (k * PAGE_SIZE)).

(** The loop over the memory map of the boot loader: records of a size word,
    base address (2 words), length (2 words) and type, each followed by the
    next one after as many bytes as the size says. *)
Fixpoint scan_mmap (fuel : nat) (mmap last : Z) : kernel unit :=
  match fuel with
  | O => fun _ => Fault OutOfFuel
  | S fuel' =>
    if mmap <? last then
      type ← load (u32 (mmap + 20));
      _ ← (if type =? 1 then
             length_low ← load (u32 (mmap + 12));
             size ← gets mem_size;
             if size <? length_low then
               base ← load (u32 (mmap + 4));
               _ ← modify (fun s => s <| mem_base := base |>);
               modify (fun s => s <| mem_size := length_low |>)
             else mret tt
           else mret tt);
      size ← load mmap;
      scan_mmap fuel' (u32 (u32 (mmap + size) + 4)) last
    else mret tt
  end.

(** The kernel's own code and data are cut off the chunk. *)
Definition move_base : kernel unit :=
  base ← gets mem_base; size ← gets mem_size;
  if (KERNEL_PHYS_BASE <=? base) && (base <=? KERNEL_DATA) then
    let mem_overlap := KERNEL_DATA - base in
    if size <? mem_overlap then abort else
    _ ← modify (fun s => s <| mem_base := base + mem_overlap |>);
    modify (fun s => s <| mem_size := size - mem_overlap |>)
  else mret tt.

Definition limit_memory : kernel unit :=
  size ← gets mem_size;
  if size <? ONE_MEGABYTE then abort else
  base ← gets mem_base;
  let last := u32 (base + size) in
  _ ← modify (fun s => s <| mem_end := last |>);
  if ONE_MEGABYTE * 1024 <? last then
    _ ← modify (fun s => s <| mem_end := ONE_MEGABYTE * 1024 |>);
    modify (fun s => s <| mem_size := u32 (ONE_MEGABYTE * 1024 - base) |>)
  else mret tt.

(** The map of all pages, the reserved ones, and the list of the others.
    [calloc] returns zeroed memory. *)
Definition build_map : kernel unit :=
  e ← gets mem_end;
  _ ← modify (fun s => s <| mem_map := replicate (Z.to_nat (MAP_NR e)) 0 |>);
  for_pages KERNEL_MAPPED_SPACE (fun adr => set_map (MAP_NR adr) MAP_PAGE_RESERVED).

Definition add_page (adr : Z) : kernel unit :=
  n ← map_at (MAP_NR adr);
  if negb (n =? 0) then mret tt else
  l ← gets free_page_list;
  _ ← set_word (VIRT_MEM adr) 0 l;
  _ ← modify (fun s => s <| free_page_list := adr |>);
  modify (fun s => s <| free_page_count := u32 (free_page_count s + 1) |>).

Definition build_list : kernel unit :=
  _ ← modify (fun s => s <| free_page_count := 0 |>);
  _ ← modify (fun s => s <| free_page_list := 0 |>);
  e ← gets mem_end;
  for_pages e add_page.

Definition init_memory (mmap_addr mmap_length junk : Z) : kernel unit :=
  _ ← modify (fun s => s <| mem_size := 0 |>);
  _ ← scan_mmap (S (Z.to_nat mmap_length)) mmap_addr (u32 (mmap_addr + mmap_length));
  _ ← move_base;
  _ ← limit_memory;
  _ ← init_paging junk;
  _ ← build_map;
  build_list.

(** [(void * )-1] when there is not enough memory. *)
Definition sbrk (increment : Z) : kernel Z :=
  size ← gets sbrk_size;
  if u32 (KERNEL_DATA_SPACE - size) <? increment then mret (u32 (-1)) else
  base ← gets mem_base;
  _ ← modify (fun s => s <| sbrk_size := u32 (size + increment) |>);
  mret (VIRT_MEM (u32 (base + size))).

(** * Running kernel code *)

Section steps.
Context {A B : Type}.

Lemma kernel_bind_run (p : kernel A) (k : A -> kernel B) s a s' :
  p s = Ok (a, s') -> (p ≫= k) s = k a s'.
Proof. intros H. unfold mbind, kernel_bind. by rewrite H. Qed.
Lemma run_gets (f : machine -> A) (k : A -> kernel B) s : (gets f ≫= k) s = k (f s) s.
Proof. done. Qed.
Lemma run_modify f (k : unit -> kernel B) s : (modify f ≫= k) s = k tt (f s).
Proof. done. Qed.
Lemma run_ret (a : A) (k : A -> kernel B) s : (mret a ≫= k) s = k a s.
Proof. done. Qed.
Lemma run_assert b (k : unit -> kernel B) s : b = true -> (assert b ≫= k) s = k tt s.
Proof. by intros ->. Qed.
End steps.

(** Pointers into the mapping of physical memory. *)
Lemma virt_phys x i :
  0 <= x + 4 * i < 2 ^ 32 -> PHYS_MEM (u32 (VIRT_MEM x + 4 * i)) = x + 4 * i.
Proof.
  intros H. unfold VIRT_MEM, PHYS_MEM, wrap. rewrite Zplus_mod_idemp_l, Zminus_mod_idemp_l.
  replace (x + PAGE_OFFSET + 4 * i - PAGE_OFFSET) with (x + 4 * i) by lia.
  by apply Z.mod_small.
Qed.

Lemma phys_virt x : 0 <= x < 2 ^ 32 -> PHYS_MEM (VIRT_MEM x) = x.
Proof.
  intros H. pose proof (virt_phys x 0 ltac:(lia)) as Hv.
  rewrite Z.add_0_r in Hv. rewrite wrap_small in Hv; [lia|].
  pose proof (wrap_range 32 (x + PAGE_OFFSET) ltac:(lia)). unfold VIRT_MEM. lia.
Qed.

Lemma run_word x i v s :
  0 <= x + 4 * i < 2 ^ 32 -> words s !! (x + 4 * i) = Some v ->
  word (VIRT_MEM x) i s = Ok (v, s).
Proof. intros Hr Hv. unfold word, load. by rewrite virt_phys, Hv. Qed.

Lemma run_set_word x i v s :
  0 <= x + 4 * i < 2 ^ 32 -> is_Some (words s !! (x + 4 * i)) ->
  set_word (VIRT_MEM x) i v s = Ok (tt, s <| words := <[x + 4 * i := v]> (words s) |>).
Proof. intros Hr [u Hu]. unfold set_word, store. by rewrite virt_phys, Hu. Qed.

Lemma run_map_at i n s :
  mem_map s !! Z.to_nat i = Some n -> 0 <= i -> map_at i s = Ok (n, s).
Proof. intros Hn Hi. unfold map_at. by rewrite (proj2 (Z.leb_le 0 i)), Hn. Qed.

Lemma run_set_map i n s :
  is_Some (mem_map s !! Z.to_nat i) -> 0 <= i -> 0 <= n < 2 ^ 16 ->
  set_map i n s = Ok (tt, s <| mem_map := <[Z.to_nat i := n]> (mem_map s) |>).
Proof.
  intros [u Hu] Hi Hn. unfold set_map. by rewrite (proj2 (Z.leb_le 0 i)), Hu, wrap_small.
Qed.

Lemma page_nr p k : p = k * PAGE_SIZE -> MAP_NR p = k.
Proof.
  intros ->. unfold MAP_NR, PAGE_SHIFT, PAGE_SIZE. rewrite Z.shiftr_div_pow2 by lia.
  by apply Z.div_mul.
Qed.

Lemma aligned_mask p : 0 <= p < 2 ^ 32 -> p mod PAGE_SIZE = 0 -> land_not 32 p PAGE_MASK = 0.
Proof.
  intros Hp Ha. unfold land_not. change (Z.lxor (2 ^ 32 - 1) PAGE_MASK) with (2 ^ 12 - 1).
  by rewrite land_mask by lia.
Qed.
