(* ===== verification/PageAlloc.v ===== *)
(** * The page allocator

    The free list and the use counters of [PhysMem] are kept in step by every
    sequence of allocations, releases and writes to allocated pages. *)

From S2P Require Import Prelude PhysMem.
Open Scope Z_scope.

(** * The page allocator *)

Fixpoint free_chain (w : gmap Z Z) (p : Z) (l : list Z) : Prop :=
  match l with
  | [] => p = 0
  | a :: l' => p = a /\ exists n, w !! a = Some n /\ free_chain w n l'
  end.

Definition page (s : machine) (p : Z) : Prop := p mod PAGE_SIZE = 0 /\ 0 < p < mem_end s.

(** [l] are the free pages: they are linked through their first words, have
    use counter 0, and no others have. *)
Record allocator (s : machine) (l : list Z) : Prop := {
  al_chain : free_chain (words s) (free_page_list s) l;
  al_nodup : NoDup l;
  al_pages : Forall (page s) l;
  al_free : forall k, mem_map s !! k = Some 0 <-> Z.of_nat k * PAGE_SIZE ∈ l;
  al_map : length (mem_map s) = Z.to_nat (mem_end s / PAGE_SIZE);
  al_end : mem_end s <= 2 ^ 30 /\ mem_end s mod PAGE_SIZE = 0;
  al_range : Forall (fun n => 0 <= n < 2 ^ 16) (mem_map s);
  al_count : (exists k n, mem_map s !! k = Some n /\ n <> MAP_PAGE_RESERVED) ->
             free_page_count s <> 0
}.

Definition uses (s : machine) (p : Z) : option Z := mem_map s !! Z.to_nat (p / PAGE_SIZE).

Lemma page_index s p : page s p -> mem_end s <= 2 ^ 30 -> 0 <= p < 2 ^ 32 /\
  MAP_NR p = p / PAGE_SIZE /\ 0 <= p / PAGE_SIZE /\ p = p / PAGE_SIZE * PAGE_SIZE.
Proof.
  intros [Ha Hr] He. unfold PAGE_SIZE in *. pose proof (Z.div_mod p 4096 ltac:(lia)).
  split; [lia|]. split; [apply page_nr; unfold PAGE_SIZE; lia|].
  split; [apply Z.div_pos; lia|lia].
Qed.

Lemma page_mapped s l p : allocator s l -> page s p -> exists n, uses s p = Some n /\ 0 <= n < 2 ^ 16.
Proof.
  intros H [Ha Hr]. destruct H as [_ _ _ _ Hmap [He Hea] Hrange _].
  assert (Z.to_nat (p / PAGE_SIZE) < length (mem_map s))%nat as Hlt.
  { rewrite Hmap. unfold PAGE_SIZE in *. apply Z2Nat.inj_lt; [apply Z.div_pos; lia|apply Z.div_pos; lia|].
    apply Z.div_lt_upper_bound; [lia|]. pose proof (Z.div_mod (mem_end s) 4096 ltac:(lia)). lia. }
  apply lookup_lt_is_Some_2 in Hlt as [n Hn]. exists n. split; [done|].
  by apply (proj1 (Forall_lookup _ _) Hrange _ _ Hn).
Qed.

Lemma uses_free s l p : allocator s l -> page s p -> uses s p = Some 0 <-> p ∈ l.
Proof.
  intros H Hp. pose proof (page_index s p Hp (proj1 (al_end _ _ H))) as (_ & _ & H0 & Heq).
  unfold uses. rewrite (al_free _ _ H), Z2Nat.id by done. by rewrite <- Heq.
Qed.

(** The two counters of different pages are different entries. *)
Lemma page_nr_inj s p q : page s p -> page s q -> p / PAGE_SIZE = q / PAGE_SIZE -> p = q.
Proof.
  intros [Hp _] [Hq _] H. unfold PAGE_SIZE in *.
  pose proof (Z.div_mod p 4096 ltac:(lia)). pose proof (Z.div_mod q 4096 ltac:(lia)). lia.
Qed.

(** ** Operations *)

(** The state after taking the first free page off the list. *)
Definition taken (s : machine) (p next : Z) : machine :=
  s <| free_page_list := next |>
    <| mem_map := <[Z.to_nat (p / PAGE_SIZE) := 1]> (mem_map s) |>.

Lemma machine_flags s : s <| if_flag := false |> <| if_flag := if_flag s |> = s.
Proof. by destruct s. Qed.

Lemma get_page_empty s : allocator s [] -> get_page s = Ok (0, s <| if_flag := false |>).
Proof.
  intros H. pose proof (al_chain _ _ H) as Hc. cbn [free_chain] in Hc.
  unfold get_page, save_flags, cli. rewrite !run_gets, run_modify, !run_gets. unfold upd; cbn.
  by rewrite Hc, orb_true_r.
Qed.

Lemma free_chain_next w p a l : free_chain w p (a :: l) -> exists n, w !! p = Some n /\ free_chain w n l.
Proof. intros [-> H]. done. Qed.

Lemma get_page_run s p l :
  allocator s (p :: l) ->
  exists next, get_page s = Ok (p, taken s p next) /\ allocator (taken s p next) l.
Proof.
  intros H. pose proof H as [Hc Hnd Hp Hf Hm [He Hea] Hr Hcount].
  destruct Hc as [Hhead (next & Hnext & Hc)]. apply Forall_cons in Hp as [Hpp Hpl].
  apply NoDup_cons in Hnd as [Hpn Hnd].
  destruct (page_index s p Hpp He) as (Hp32 & Hnr & Hn0 & Hpeq).
  assert (uses s p = Some 0) as Hu by (apply (uses_free s (p :: l)); [done|done|set_solver]).
  exists next. split.
  - unfold get_page, save_flags, cli. rewrite !run_gets, run_modify, !run_gets. unfold upd at 1 2; cbn.
    rewrite Hhead, (proj2 (Z.eqb_neq (free_page_count s) 0)) by
      (apply Hcount; exists (Z.to_nat (p / PAGE_SIZE)), 0; by split).
    rewrite (proj2 (Z.eqb_neq p 0)) by (destruct Hpp; lia). cbn [orb].
    erewrite kernel_bind_run; [|apply (run_word p 0 next); cbn; [lia|by rewrite Z.add_0_r]].
    rewrite run_modify, run_assert.
    2:{ apply Z.eqb_eq. destruct l as [|q l].
        - cbn in Hc. by subst next.
        - destruct Hc as [-> _]. apply Forall_cons in Hpl as [[Hqa Hqr] _]. apply aligned_mask; lia. }
    erewrite kernel_bind_run; [|apply run_map_at; [|lia]; unfold upd; cbn; by rewrite Hnr].
    rewrite run_assert by done.
    erewrite kernel_bind_run; [|apply run_set_map; [|lia|lia]; unfold upd; cbn; rewrite Hnr; by eexists].
    unfold restore_flags. rewrite run_modify. unfold taken. rewrite Hnr.
    by destruct s.
  - split; unfold taken, upd; cbn; try done.
    + intros k. destruct (decide (k = Z.to_nat (p / PAGE_SIZE))) as [->|Hk].
      * rewrite list_lookup_insert_eq by (apply lookup_lt_is_Some_1; by eexists).
        rewrite Z2Nat.id, <- Hpeq by done. split; [done|]. intros ?. done.
      * rewrite list_lookup_insert_ne, Hf by done. split; [|set_solver].
        intros [Heq|?]%elem_of_cons; [|done]. exfalso. apply Hk.
        rewrite <- Heq. unfold PAGE_SIZE. rewrite Z.div_mul by lia. lia.
    + by rewrite length_insert.
    + by apply Forall_insert.
    + intros (k & n & Hk & Hn). apply Hcount.
      destruct (decide (k = Z.to_nat (p / PAGE_SIZE))) as [->|Hne].
      * exists (Z.to_nat (p / PAGE_SIZE)), 0. by split.
      * rewrite list_lookup_insert_ne in Hk by done. by exists k, n.
Qed.

(** A counter that is not 0 and not the mark of reserved pages. *)
Definition used (s : machine) (p : Z) (n : Z) : Prop :=
  page s p /\ uses s p = Some n /\ n <> 0 /\ n <> MAP_PAGE_RESERVED.

Definition released (s : machine) (p n : Z) : machine :=
  if n =? 1 then
    s <| words := <[p := free_page_list s]> (words s) |> <| free_page_list := p |>
      <| mem_map := <[Z.to_nat (p / PAGE_SIZE) := 0]> (mem_map s) |>
  else s <| mem_map := <[Z.to_nat (p / PAGE_SIZE) := n - 1]> (mem_map s) |>.

(** Writing to a word outside the first words of the free pages does not
    disturb the list. *)
Lemma free_chain_write w a v p l :
  a ∉ l -> free_chain w p l -> free_chain (<[a := v]> w) p l.
Proof.
  revert p. induction l as [|b l IH]; intros p Ha H; [done|].
  apply not_elem_of_cons in Ha as [Hab Ha]. destruct H as [-> (n & Hn & H)].
  split; [done|]. exists n. split; [by rewrite lookup_insert_ne|by apply IH].
Qed.

Lemma allocator_set_map s l p m n :
  allocator s l -> used s p m -> 0 < n < 2 ^ 16 ->
  allocator (s <| mem_map := <[Z.to_nat (p / PAGE_SIZE) := n]> (mem_map s) |>) l.
Proof.
  intros H (Hp & Hu & Hm0 & Hmr) Hn. pose proof (proj1 (uses_free s l p H Hp)) as Hnot.
  destruct (page_index s p Hp (proj1 (al_end _ _ H))) as (_ & _ & Hn0 & Hpeq).
  assert (p ∉ l) as Hpl.
  { intros Hin%(uses_free s l p H Hp). congruence. }
  destruct H as [Hc Hnd Hpages Hf Hmap [He Hea] Hr Hcount]. unfold uses in Hu.
  split; unfold upd; cbn; try done.
  - intros k. destruct (decide (k = Z.to_nat (p / PAGE_SIZE))) as [->|Hk].
    + rewrite list_lookup_insert_eq by (apply lookup_lt_is_Some_1; by eexists).
      rewrite Z2Nat.id, <- Hpeq by done. split; [intros [= ?]; lia|done].
    + by rewrite list_lookup_insert_ne, Hf by done.
  - by rewrite length_insert.
  - apply Forall_insert; [done|lia].
  - intros _. apply Hcount. by exists (Z.to_nat (p / PAGE_SIZE)), m.
Qed.

Lemma free_page_run s l p n :
  allocator s l -> used s p n -> is_Some (words s !! p) ->
  free_page p s = Ok (tt, released s p n) /\
  allocator (released s p n) (if n =? 1 then p :: l else l).
Proof.
  intros H Hused Hw. pose proof Hused as (Hp & Hu & Hn0 & Hnr).
  destruct (page_index s p Hp (proj1 (al_end _ _ H))) as (Hp32 & Hnrp & Hk0 & Hpeq).
  destruct (page_mapped s l p H Hp) as (n' & Hn' & Hn16). rewrite Hu in Hn'. injection Hn' as <-.
  unfold uses in Hu. split.
  - unfold free_page, save_flags, cli. rewrite run_gets, run_modify.
    erewrite kernel_bind_run; [|apply run_map_at; [|lia]; unfold upd; cbn; by rewrite Hnrp].
    rewrite run_gets, run_assert by (apply Z.ltb_lt; apply Hp).
    rewrite run_assert by (apply negb_true_iff; by apply Z.eqb_neq).
    rewrite run_assert by (apply Z.ltb_lt; lia). rewrite (wrap_small 16) by lia.
    erewrite kernel_bind_run; [|apply run_set_map; [|lia|lia]; unfold upd; cbn; rewrite Hnrp; by eexists].
    unfold released. rewrite Hnrp.
    destruct (Z.eqb_spec n 1) as [->|Hn1].
    + change (1 - 1 =? 0) with true. cbv iota.
      erewrite kernel_bind_run.
      2:{ rewrite run_gets. erewrite kernel_bind_run; [|apply (run_set_word p 0); unfold upd; cbn].
          - reflexivity.
          - lia.
          - by rewrite Z.add_0_r. }
      rewrite Z.add_0_r. by destruct s.
    + rewrite (proj2 (Z.eqb_neq (n - 1) 0)) by lia. rewrite run_ret. by destruct s.
  - unfold released. destruct (Z.eqb_spec n 1) as [->|Hn1]; [|by eapply allocator_set_map; [| |lia]].
    assert (p ∉ l) as Hpl.
    { intros Hin%(uses_free s l p H Hp). unfold uses in Hin. congruence. }
    destruct H as [Hc Hnd Hpages Hf Hmap [He Hea] Hr Hcount].
    split; unfold upd; cbn; try done.
    + split; [done|]. exists (free_page_list s). rewrite lookup_insert_eq.
      split; [done|]. by apply free_chain_write.
    + by apply NoDup_cons.
    + by apply Forall_cons.
    + intros k. destruct (decide (k = Z.to_nat (p / PAGE_SIZE))) as [->|Hk].
      * rewrite list_lookup_insert_eq by (apply lookup_lt_is_Some_1; by eexists).
        rewrite Z2Nat.id, <- Hpeq by done. split; [intros _; left|done].
      * rewrite list_lookup_insert_ne, Hf by done. rewrite elem_of_cons.
        split; [by right|]. intros [Heq|?]; [|done]. exfalso. apply Hk.
        rewrite <- Heq. unfold PAGE_SIZE. rewrite Z.div_mul by lia. lia.
    + by rewrite length_insert.
    + by apply Forall_insert.
    + intros _. apply Hcount. exists (Z.to_nat (p / PAGE_SIZE)), 1. by split.
Qed.

Lemma allocator_write s l a v :
  allocator s l -> a ∉ l -> allocator (s <| words := <[a := v]> (words s) |>) l.
Proof.
  intros [Hc Hnd Hpages Hf Hmap He Hr Hcount] Ha. split; unfold upd; cbn; try done.
  by apply free_chain_write.
Qed.

(** ** Reachable states

    The users of the allocator: they take pages, give back pages in use,
    share them (as copying a page tree does) and write to words that are not
    in free pages. *)
Inductive alloc_step (s : machine) : machine -> Prop :=
  | step_get p s' : get_page s = Ok (p, s') -> alloc_step s s'
  | step_free p n s' : used s p n -> free_page p s = Ok (tt, s') -> alloc_step s s'
  | step_share p n s' : used s p n -> n + 1 < MAP_PAGE_RESERVED ->
      set_map (MAP_NR p) (n + 1) s = Ok (tt, s') -> alloc_step s s'
  | step_write a v s' : uses s (a / PAGE_SIZE * PAGE_SIZE) <> Some 0 ->
      store a v s = Ok (tt, s') -> alloc_step s s'.

(** The first word of every page is backed by memory. *)
Definition backed (s : machine) : Prop := forall p, page s p -> is_Some (words s !! p).

Lemma alloc_step_preserves s l s' :
  allocator s l -> backed s -> alloc_step s s' ->
  (exists l', allocator s' l') /\ backed s'.
Proof.
  intros H Hb Hs. destruct Hs as [p s' Hget|p n s' Hu Hfree|p n s' Hu Hn Hset|a v s' Ha Hst].
  - destruct l as [|q l].
    + rewrite (get_page_empty s H) in Hget. injection Hget as <- <-. split; [|done].
      exists []. by destruct H.
    + destruct (get_page_run s q l H) as (next & Hrun & Hal). rewrite Hrun in Hget.
      injection Hget as <- <-. by eauto.
  - pose proof Hu as [Hp _]. destruct (free_page_run s l p n H Hu (Hb p Hp)) as [Hrun Hal].
    rewrite Hrun in Hfree. injection Hfree as <-. split; [by eauto|].
    unfold released. destruct (n =? 1); [|done]. intros q Hq. unfold upd in *; cbn in *.
    destruct (decide (q = p)) as [->|]; [rewrite lookup_insert_eq; by eexists|].
    rewrite lookup_insert_ne by done. by apply Hb.
  - pose proof Hu as (Hp & Huse & Hn0 & _).
    destruct (page_index s p Hp (proj1 (al_end _ _ H))) as (_ & Hnr & Hk & _).
    destruct (page_mapped s l p H Hp) as (n' & Hn' & Hn16). rewrite Huse in Hn'. injection Hn' as <-.
    unfold MAP_PAGE_RESERVED in Hn. change (Z.shiftl 1 15) with 32768 in Hn.
    rewrite Hnr, run_set_map in Hset; [|unfold uses in Huse; by eexists|done|lia].
    injection Hset as <-. split; [|done]. exists l. apply (allocator_set_map s l p n); [done|done|lia].
  - unfold store in Hst. destruct (words s !! a) as [u|] eqn:Hu; [|done]. injection Hst as <-.
    split.
    + exists l. apply allocator_write; [done|]. intros Hin. apply Ha.
      pose proof (proj1 (Forall_forall _ _) (al_pages _ _ H) a Hin) as Hpa.
      destruct (page_index s a Hpa (proj1 (al_end _ _ H))) as (_ & _ & _ & <-).
      by apply (uses_free s l a).
    + intros q Hq. unfold upd in *; cbn in *.
      destruct (decide (q = a)) as [->|]; [rewrite lookup_insert_eq; by eexists|].
      rewrite lookup_insert_ne by done. by apply Hb.
Qed.

Lemma alloc_steps_preserve s l s' :
  allocator s l -> backed s -> rtc alloc_step s s' ->
  (exists l', allocator s' l') /\ backed s'.
Proof.
  intros H Hb Hs. revert l H Hb. induction Hs as [s|s s1 s2 Hstep Hs IH]; intros l H Hb; [eauto|].
  destruct (alloc_step_preserves s l s1 H Hb Hstep) as [[l1 H1] Hb1]. by eapply IH.
Qed.

Lemma uses_taken s p l next q :
  allocator s (p :: l) -> page s q ->
  uses (taken s p next) q = if decide (q = p) then Some 1 else uses s q.
Proof.
  intros H Hq. pose proof (al_pages _ _ H) as [Hp _]%Forall_cons.
  destruct (page_mapped _ _ p H Hp) as (n & Hn & _). unfold uses in *.
  unfold taken, upd; cbn. destruct (decide (q = p)) as [->|Hne].
  - rewrite list_lookup_insert_eq; [done|]. apply lookup_lt_is_Some_1. by eexists.
  - apply list_lookup_insert_ne. intros Heq. apply Hne, (page_nr_inj s); [done|done|].
    apply Z2Nat.inj in Heq; [done| |]; unfold page, PAGE_SIZE in *; apply Z.div_pos; lia.
Qed.

Lemma uses_released s p n q :
  page s p -> page s q -> uses s p = Some n ->
  uses (released s p n) q = if decide (q = p) then Some (n - 1) else uses s q.
Proof.
  intros Hp Hq Hup. unfold uses in *.
  assert (mem_map (released s p n) = <[Z.to_nat (p / PAGE_SIZE) := n - 1]> (mem_map s)) as ->.
  { unfold released. by destruct (Z.eqb_spec n 1) as [->|]. }
  destruct (decide (q = p)) as [->|Hne].
  - apply list_lookup_insert_eq, lookup_lt_is_Some_1. by eexists.
  - apply list_lookup_insert_ne. intros Heq. apply Hne, (page_nr_inj s); [done|done|].
    apply Z2Nat.inj in Heq; [done| |]; unfold page, PAGE_SIZE in *; apply Z.div_pos; lia.
Qed.

(** C16: the allocator is safe and live under every sequence of operations.
    From any state in which the free list and the use counters agree, after
    any number of allocations, releases and sharings of pages in use and
    writes outside the free pages: [get_page] completes, and a page it
    returns was free, has then one use, and no other page's counter changes;
    it returns 0 only when no page is free; and [free_page] completes on
    every page in use and lowers its counter by one. *)
Theorem allocator_reachable s l s' :
  allocator s l -> backed s -> rtc alloc_step s s' ->
  (exists p s2, get_page s' = Ok (p, s2) /\
    ((p = 0 /\ forall q, page s' q -> uses s' q <> Some 0) \/
     (page s' p /\ uses s' p = Some 0 /\ uses s2 p = Some 1 /\
      forall q, page s' q -> q <> p -> uses s2 q = uses s' q))) /\
  (forall p n, used s' p n ->
    exists s2, free_page p s' = Ok (tt, s2) /\ uses s2 p = Some (n - 1) /\
      forall q, page s' q -> q <> p -> uses s2 q = uses s' q).
Proof.
  intros H0 Hb0 Hs. destruct (alloc_steps_preserve s l s' H0 Hb0 Hs) as [[l' H] Hb]. split.
  - destruct l' as [|p l'].
    + exists 0. eexists. split; [by apply get_page_empty|]. left. split; [done|].
      intros q Hq Hu%(uses_free s' [] q H Hq). by apply elem_of_nil in Hu.
    + destruct (get_page_run s' p l' H) as (next & Hrun & _). exists p. eexists.
      split; [exact Hrun|]. right. pose proof (al_pages _ _ H) as [Hp _]%Forall_cons.
      split; [done|]. split; [apply (uses_free s' (p :: l')); [done|done|left]|].
      split; [by rewrite (uses_taken _ _ l'), decide_True|].
      intros q Hq Hne. by rewrite (uses_taken _ _ l'), decide_False.
  - intros p n Hu. pose proof Hu as (Hp & Hup & _).
    destruct (free_page_run s' l' p n H Hu (Hb p Hp)) as [Hrun _]. eexists. split; [exact Hrun|].
    assert (forall q, page s' q -> uses (released s' p n) q =
      if decide (q = p) then Some (n - 1) else uses s' q) as Hrel
      by (intros q Hq; by apply uses_released).
    split; [by rewrite Hrel, decide_True|]. intros q Hq Hne. by rewrite Hrel, decide_False.
Qed.

(** An exhausted allocator leaves the processor with interrupts
    disabled.  [get_page] restores the interrupt flag when it returns a page
    and not when it returns 0; and it never changes the number of free pages
    it tests, so that only the list tells whether there are any. *)
Theorem get_page_interrupts s l :
  allocator s l ->
  exists p s', get_page s = Ok (p, s') /\ (p = 0 <-> l = []) /\
    if_flag s' = (if decide (l = []) then false else if_flag s) /\
    free_page_count s' = free_page_count s.
Proof.
  intros H. destruct l as [|p l].
  - exists 0. eexists. split; [by apply get_page_empty|]. done.
  - destruct (get_page_run s p l H) as (next & Hrun & _). exists p. eexists.
    split; [exact Hrun|]. pose proof (al_pages _ _ H) as [[_ Hp] _]%Forall_cons.
    split; [split; [lia|done]|]. done.
Qed.

(** ** A small machine

    Four pages: the first reserved, the second in use, two free. *)
Definition small : machine :=
  {| words := list_to_map [(4096, 7); (8192, 12288); (12288, 0)];
     mem_map := [MAP_PAGE_RESERVED; 1; 0; 0];
     free_page_list := 8192; free_page_count := 3; mem_base := 0; mem_end := 16384;
     mem_size := 16384; sbrk_size := 0; kernel_pdir := 0; cr3 := 0; if_flag := true |}.

Lemma small_page p : page small p <-> p = 4096 \/ p = 8192 \/ p = 12288.
Proof.
  unfold page, PAGE_SIZE. cbn [small mem_end]. split; [|by intros [->|[->| ->]]].
  intros [Ha Hr]. pose proof (Z.div_mod p 4096 ltac:(lia)). lia.
Qed.

Lemma small_allocator : allocator small [8192; 12288].
Proof.
  split.
  - split; [done|]. exists 12288. split; [done|]. split; [done|]. by exists 0.
  - apply (bool_decide_unpack _). by vm_compute.
  - repeat constructor; done.
  - intros k. rewrite !elem_of_cons, elem_of_nil. unfold PAGE_SIZE.
    do 4 (destruct k as [|k]; [vm_compute; intuition congruence|]).
    split; [done|]. intros [?|[?|?]]; lia.
  - done.
  - done.
  - repeat constructor; done.
  - intros _. done.
Qed.

Lemma small_backed : backed small.
Proof. intros p [->|[->| ->]]%small_page; by eexists. Qed.

(** Taking both free pages, giving one back and taking it again. *)
Lemma allocator_reachable_witness :
  exists s1 s2 s3, get_page small = Ok (8192, s1) /\ get_page s1 = Ok (12288, s2) /\
    free_page 8192 s2 = Ok (tt, s3) /\
    exists p s4, get_page s3 = Ok (p, s4) /\
    ((p = 0 /\ forall q, page s3 q -> uses s3 q <> Some 0) \/
     (page s3 p /\ uses s3 p = Some 0 /\ uses s4 p = Some 1 /\
      forall q, page s3 q -> q <> p -> uses s4 q = uses s3 q)).
Proof.
  do 3 eexists. split; [vm_compute; reflexivity|]. split; [vm_compute; reflexivity|].
  split; [vm_compute; reflexivity|].
  refine (proj1 (allocator_reachable small [8192; 12288] _ small_allocator small_backed _)).
  eapply rtc_l; [by eapply step_get; vm_compute|].
  eapply rtc_l; [by eapply step_get; vm_compute|].
  eapply rtc_l; [|apply rtc_refl].
  eapply (step_free _ 8192 1); [|vm_compute; reflexivity].
  split; [split; [done|]; vm_compute; split; congruence|]. done.
Defined.

Lemma get_page_interrupts_witness :
  exists p s', get_page small = Ok (p, s') /\ (p = 0 <-> [8192; 12288] = []) /\
    if_flag s' = true /\ free_page_count s' = 3.
Proof. exact (get_page_interrupts small [8192; 12288] small_allocator). Defined.
