(* ===== verification/PageTrees.v ===== *)
(** * Page trees

    [show_page], [get_table_entry] and [set_table_entry] implement a map from
    page numbers to entries; a new table is taken from the allocator and
    cleared. *)

From S2P Require Import Prelude PhysMem PageAlloc.
Open Scope Z_scope.

(** ** Memory of one page *)

Definition page_words (w : gmap Z Z) (p : Z) : Prop :=
  forall j, 0 <= j < 1024 -> is_Some (w !! (p + 4 * j)).
Definition in_page (p a : Z) : Prop := p <= a < p + PAGE_SIZE.

Lemma for_each_split start n body s s1 s2 :
  body start s = Ok (tt, s1) -> for_each (start + 1) n body s1 = Ok (tt, s2) ->
  for_each start (S n) body s = Ok (tt, s2).
Proof. intros H1 H2. cbn [for_each]. by rewrite (kernel_bind_run _ _ _ _ _ H1). Qed.

Lemma clear_loop p s n :
  0 <= p -> p + PAGE_SIZE <= 2 ^ 32 -> page_words (words s) p ->
  forall k, 0 <= k -> k + Z.of_nat n <= 1024 ->
  exists w, for_each k n (fun i => set_word (VIRT_MEM p) i 0) s = Ok (tt, s <| words := w |>) /\
    dom w = dom (words s) /\
    (forall j, k <= j < k + Z.of_nat n -> w !! (p + 4 * j) = Some 0) /\
    (forall a, ~ in_page p a \/ a < p + 4 * k -> w !! a = words s !! a).
Proof.
  unfold PAGE_SIZE. intros Hp Hmax. revert s. induction n as [|n IH]; intros s Hw k Hk Hn.
  - exists (words s). split; [by destruct s|]. split; [done|]. split; [lia|done].
  - set (s1 := s <| words := <[p + 4 * k := 0]> (words s) |>).
    assert (set_word (VIRT_MEM p) k 0 s = Ok (tt, s1)) as H1
      by (apply run_set_word; [lia|apply Hw; lia]).
    assert (dom (words s1) = dom (words s)) as Hdom1.
    { unfold s1, upd; cbn. apply dom_insert_lookup_L. apply Hw. lia. }
    assert (page_words (words s1) p) as Hw1.
    { intros j Hj. apply elem_of_dom. rewrite Hdom1. apply elem_of_dom. by apply Hw. }
    destruct (IH s1 Hw1 (k + 1)) as (w & H2 & Hd & Hz & Ho); [lia|lia|].
    exists w. split; [exact (for_each_split k n (fun i => set_word (VIRT_MEM p) i 0) s s1 _ H1 H2)|]. split; [by rewrite Hd|]. split.
    + intros j Hj. destruct (decide (j = k)) as [->|]; [|apply Hz; lia].
      rewrite Ho by (right; lia). unfold s1, upd; cbn. apply lookup_insert_eq.
    + intros a Ha. unfold in_page, PAGE_SIZE in *. rewrite Ho by (destruct Ha; [by left|right; lia]).
      unfold s1, upd; cbn. apply lookup_insert_ne. lia.
Qed.

Lemma clear_page_run p s :
  0 <= p -> p + PAGE_SIZE <= 2 ^ 32 -> page_words (words s) p ->
  exists w, clear_page (VIRT_MEM p) s = Ok (tt, s <| words := w |>) /\
    dom w = dom (words s) /\ (forall j, 0 <= j < 1024 -> w !! (p + 4 * j) = Some 0) /\
    (forall a, ~ in_page p a -> w !! a = words s !! a).
Proof.
  intros Hp Hm Hw. destruct (clear_loop p s 1024 Hp Hm Hw 0) as (w & Hrun & Hd & Hz & Ho); [lia|lia|].
  exists w. split; [exact Hrun|]. split; [done|]. split; [intros j Hj; apply Hz; lia|].
  intros a Ha. apply Ho. by left.
Qed.

(** All free pages are backed by memory. *)
Definition pages_backed (s : machine) : Prop := forall p, page s p -> page_words (words s) p.

Lemma free_chain_agree w w' p l :
  (forall a, a ∈ l -> w' !! a = w !! a) -> free_chain w p l -> free_chain w' p l.
Proof.
  revert p. induction l as [|b l IH]; intros p Ha H; [done|].
  destruct H as [-> (n & Hn & H)]. split; [done|]. exists n.
  split; [rewrite Ha; [done|set_solver]|]. apply IH; [set_solver|done].
Qed.

Lemma allocator_words s l w :
  allocator s l -> (forall a, a ∈ l -> w !! a = words s !! a) ->
  allocator (s <| words := w |>) l.
Proof.
  intros [Hc Hnd Hp Hf Hm He Hr Hcount] Ha. split; unfold upd; cbn; try done.
  by eapply free_chain_agree.
Qed.

(** A fresh page: the state after taking [p] and writing zeroes to it. *)
Lemma kmalloc_page_run s p l :
  allocator s (p :: l) -> pages_backed s ->
  exists s', kmalloc_page s = Ok (p, s') /\ allocator s' l /\
    mem_end s' = mem_end s /\ cr3 s' = cr3 s /\ if_flag s' = if_flag s /\
    mem_map s' = <[Z.to_nat (p / PAGE_SIZE) := 1]> (mem_map s) /\
    dom (words s') = dom (words s) /\
    (forall j, 0 <= j < 1024 -> words s' !! (p + 4 * j) = Some 0) /\
    (forall a, ~ in_page p a -> words s' !! a = words s !! a).
Proof.
  intros H Hb. destruct (get_page_run s p l H) as (next & Hrun & Hal).
  pose proof (al_pages _ _ H) as [Hp Hpl]%Forall_cons.
  pose proof (al_nodup _ _ H) as [Hpn _]%NoDup_cons.
  destruct (al_end _ _ H) as [He _]. pose proof Hp as [Hpa Hpr].
  destruct (clear_page_run p (taken s p next)) as (w & Hc & Hd & Hz & Ho).
  { lia. } { unfold PAGE_SIZE. lia. } { by apply Hb. }
  exists ((taken s p next) <| words := w |>). split.
  { unfold kmalloc_page. rewrite (kernel_bind_run _ _ _ _ _ Hrun).
    rewrite (proj2 (Z.eqb_neq p 0)) by lia. by rewrite (kernel_bind_run _ _ _ _ _ Hc). }
  split; [|split_and!; done]. apply allocator_words; [done|].
  intros a Ha. apply Ho. intros Hin. unfold in_page, PAGE_SIZE in *.
  pose proof (proj1 (Forall_forall _ _) Hpl a Ha) as [Haa Har]. unfold PAGE_SIZE in *.
  pose proof (Z.div_mod a 4096 ltac:(lia)). pose proof (Z.div_mod p 4096 ltac:(lia)).
  assert (a = p) as -> by lia. done.
Qed.

(** ** Trees *)

Definition tbl (e : Z) : Z := Z.land e PAGE_MASK.
Definition dirx (v : Z) : Z := Z.shiftr v PAGE_DIR_SHIFT.
Definition tabx (v : Z) : Z := Z.shiftr (Z.land v PAGE_TAB_MASK) PAGE_SHIFT.

Lemma tbl_mod e : 0 <= e < 2 ^ 32 -> tbl e = e - e mod PAGE_SIZE.
Proof. intros He. unfold tbl, PAGE_MASK. change 0xfffff000 with (2 ^ 32 - 2 ^ 12). by apply land_high_mask. Qed.

Lemma tbl_range e : 0 <= e < 2 ^ 32 ->
  tbl e mod PAGE_SIZE = 0 /\ 0 <= tbl e /\ tbl e + PAGE_SIZE <= 2 ^ 32.
Proof.
  intros He. rewrite tbl_mod by done. unfold PAGE_SIZE.
  pose proof (Z.div_mod e 4096 ltac:(lia)). pose proof (Z.mod_pos_bound e 4096 ltac:(lia)).
  replace (e - e mod 4096) with (e / 4096 * 4096) by lia. rewrite Z.mod_mul by lia. lia.
Qed.

Lemma tbl_join p f : 0 <= p < 2 ^ 32 -> p mod PAGE_SIZE = 0 -> 0 <= f < PAGE_SIZE ->
  tbl (Z.lor p f) = p /\ 0 <= Z.lor p f < 2 ^ 32.
Proof.
  intros Hp Ha Hf. unfold PAGE_SIZE in *. rewrite (lor_low_add p f 12) by done.
  assert (0 <= p + f < 2 ^ 32) as Hr.
  { pose proof (Z.div_mod p 4096 ltac:(lia)). split; [lia|].
    assert (p / 4096 < 2 ^ 20) by (apply Z.div_lt_upper_bound; lia). lia. }
  split; [|done]. rewrite tbl_mod by done. unfold PAGE_SIZE.
  assert ((p + f) mod 4096 = f) as ->; [|lia].
  rewrite <- Zplus_mod_idemp_l, Ha. by apply Z.mod_small.
Qed.

Lemma dirx_range v : 0 <= v < 2 ^ 32 -> 0 <= dirx v < 1024.
Proof.
  intros Hv. unfold dirx, PAGE_DIR_SHIFT. rewrite Z.shiftr_div_pow2 by lia.
  split; [apply Z.div_pos; lia|apply Z.div_lt_upper_bound; lia].
Qed.

Lemma tabx_eq v : 0 <= v -> tabx v = (v / PAGE_SIZE) mod 1024.
Proof.
  intros Hv. unfold tabx, PAGE_TAB_MASK, PAGE_SHIFT, PAGE_SIZE. rewrite Z.shiftr_land.
  change (Z.shiftr 0x003ff000 12) with (2 ^ 10 - 1). rewrite land_mask by lia.
  by rewrite Z.shiftr_div_pow2 by lia.
Qed.

Lemma tabx_range v : 0 <= v -> 0 <= tabx v < 1024.
Proof. intros Hv. rewrite tabx_eq by done. apply Z.mod_pos_bound. lia. Qed.

(** The two indices determine the page number. *)
Lemma indices_page v v' :
  0 <= v -> 0 <= v' -> dirx v = dirx v' -> tabx v = tabx v' -> v / PAGE_SIZE = v' / PAGE_SIZE.
Proof.
  intros Hv Hv'. rewrite !tabx_eq by done. unfold dirx, PAGE_DIR_SHIFT.
  rewrite !Z.shiftr_div_pow2 by lia. change (2 ^ 22) with (4096 * 1024).
  rewrite <- !Z.div_div by lia. unfold PAGE_SIZE. intros H1 H2.
  pose proof (Z.div_mod (v / 4096) 1024 ltac:(lia)). pose proof (Z.div_mod (v' / 4096) 1024 ltac:(lia)). lia.
Qed.

(** The entry of a virtual address: 0 when there is no table for it. *)
Definition entry_at (w : gmap Z Z) (t v : Z) : option Z :=
  e ← w !! (t + 4 * dirx v);
  if tbl e =? 0 then Some 0 else w !! (tbl e + 4 * tabx v).

(** A directory at [t] with its tables, apart from each other and from the
    free pages [l]. *)
Record tree_ok (w : gmap Z Z) (l : list Z) (t : Z) : Prop := {
  tr_dir : 0 < t /\ t mod PAGE_SIZE = 0 /\ t + PAGE_SIZE <= 2 ^ 32 /\ t ∉ l;
  tr_entry : forall i, 0 <= i < 1024 -> exists e, w !! (t + 4 * i) = Some e /\ 0 <= e < 2 ^ 32;
  tr_table : forall i e, 0 <= i < 1024 -> w !! (t + 4 * i) = Some e -> tbl e <> 0 ->
    page_words w (tbl e) /\ tbl e <> t /\ tbl e ∉ l;
  tr_distinct : forall i j e f, 0 <= i < 1024 -> 0 <= j < 1024 -> i <> j ->
    w !! (t + 4 * i) = Some e -> w !! (t + 4 * j) = Some f -> tbl e <> 0 -> tbl e <> tbl f
}.

Lemma pages_apart a b j k :
  a mod PAGE_SIZE = 0 -> b mod PAGE_SIZE = 0 -> a <> b -> 0 <= j < 1024 -> 0 <= k < 1024 ->
  a + 4 * j <> b + 4 * k.
Proof.
  unfold PAGE_SIZE. intros Ha Hb Hne Hj Hk.
  pose proof (Z.div_mod a 4096 ltac:(lia)). pose proof (Z.div_mod b 4096 ltac:(lia)). lia.
Qed.

Lemma not_in_page p a j :
  p mod PAGE_SIZE = 0 -> a mod PAGE_SIZE = 0 -> a <> p -> 0 <= j < 1024 -> ~ in_page p (a + 4 * j).
Proof.
  unfold in_page, PAGE_SIZE. intros Hp Ha Hne Hj Hin.
  pose proof (Z.div_mod a 4096 ltac:(lia)). pose proof (Z.div_mod p 4096 ltac:(lia)). lia.
Qed.

Lemma tree_entry w l t v :
  tree_ok w l t -> 0 <= v < 2 ^ 32 ->
  exists e, w !! (t + 4 * dirx v) = Some e /\ 0 <= e < 2 ^ 32 /\
    (tbl e <> 0 -> exists x, w !! (tbl e + 4 * tabx v) = Some x).
Proof.
  intros [_ He Ht _] Hv. pose proof (dirx_range v Hv) as Hd.
  destruct (He _ Hd) as (e & Hw & Hr). exists e. split; [done|]. split; [done|].
  intros Hne. destruct (Ht _ _ Hd Hw Hne) as (Hp & _). destruct (Hp (tabx v)) as [x Hx].
  - apply tabx_range. lia.
  - by exists x.
Qed.

Definition root (tree : Z) (s : machine) : Z := if tree =? 0 then cr3 s else tree.

Lemma dir_of_run tree s : dir_of tree s = Ok (VIRT_MEM (root tree s), s).
Proof. unfold dir_of, root. by destruct (tree =? 0). Qed.

Lemma run_dir_entry t v s e l :
  tree_ok (words s) l t -> 0 <= v < 2 ^ 32 -> words s !! (t + 4 * dirx v) = Some e ->
  word (VIRT_MEM t) (Z.shiftr v PAGE_DIR_SHIFT) s = Ok (e, s).
Proof.
  intros H Hv He. destruct (tr_dir _ _ _ H) as (Ht & _ & Hm & _). unfold PAGE_SIZE in Hm.
  pose proof (dirx_range v Hv). apply run_word; [unfold dirx in *; lia|done].
Qed.

Lemma get_table_entry_run tree v s l :
  tree_ok (words s) l (root tree s) -> 0 <= v < 2 ^ 32 ->
  exists x, entry_at (words s) (root tree s) v = Some x /\ get_table_entry tree v s = Ok (x, s).
Proof.
  intros H Hv. destruct (tree_entry _ _ _ v H Hv) as (e & He & Her & Ht).
  destruct (tbl_range e Her) as (_ & Ht0 & Htm). unfold PAGE_SIZE in *.
  unfold entry_at, get_table_entry. rewrite (kernel_bind_run _ _ _ _ _ (dir_of_run tree s)).
  rewrite (kernel_bind_run _ _ _ _ _ (run_dir_entry _ v s e l H Hv He)). rewrite He. cbn [mbind option_bind].
  fold (tbl e). rewrite phys_virt by lia. destruct (Z.eqb_spec (tbl e) 0) as [|Hne]; [by exists 0|].
  destruct (Ht Hne) as [x Hx]. exists x. split; [done|]. pose proof (tabx_range v ltac:(lia)).
  apply run_word; [unfold tabx in *; lia|done].
Qed.

(** ** Writing an entry *)

Definition same_page (v v' : Z) : bool := v / PAGE_SIZE =? v' / PAGE_SIZE.

Lemma dir_word_kept w l t i a x :
  tree_ok w l t -> 0 <= i < 1024 ->
  (forall j, 0 <= j < 1024 -> a <> t + 4 * j) -> <[a := x]> w !! (t + 4 * i) = w !! (t + 4 * i).
Proof. intros _ Hi Ha. apply lookup_insert_ne. by apply Ha. Qed.

Lemma page_words_insert w a x p : page_words w p -> page_words (<[a := x]> w) p.
Proof.
  intros H j Hj. destruct (decide (a = p + 4 * j)) as [->|].
  - rewrite lookup_insert_eq. by eexists.
  - rewrite lookup_insert_ne by done. by apply H.
Qed.

Lemma set_entry w l t v x e :
  tree_ok w l t -> 0 <= v < 2 ^ 32 -> w !! (t + 4 * dirx v) = Some e -> tbl e <> 0 ->
  let w' := <[tbl e + 4 * tabx v := x]> w in
  tree_ok w' l t /\
  forall v', 0 <= v' < 2 ^ 32 ->
    entry_at w' t v' = if same_page v' v then Some x else entry_at w t v'.
Proof.
  intros H Hv He Hne w'. pose proof H as [Hdir Hent Htab Hdist].
  pose proof (dirx_range v Hv) as Hd. pose proof (tabx_range v ltac:(lia)) as Hx.
  destruct (Hent _ Hd) as (e' & He' & Her). rewrite He in He'. injection He' as <-.
  destruct (Htab _ _ Hd He Hne) as (Hpw & Hnt & Hnl). destruct Hdir as (Ht0 & Hta & Htm & Htl).
  destruct (tbl_range e Her) as (Hea & _ & _).
  assert (forall i, 0 <= i < 1024 -> w' !! (t + 4 * i) = w !! (t + 4 * i)) as Hkeep.
  { intros i Hi. apply lookup_insert_ne. by apply pages_apart. }
  split.
  - split; [done| | |].
    + intros i Hi. rewrite Hkeep by done. by apply Hent.
    + intros i f Hi. rewrite Hkeep by done. intros Hf Hfn.
      destruct (Htab i f Hi Hf Hfn) as (? & ? & ?). split; [by apply page_words_insert|done].
    + intros i j f g Hi Hj Hij. rewrite !Hkeep by done. by apply Hdist.
  - intros v' Hv'. pose proof (dirx_range v' Hv') as Hd'. pose proof (tabx_range v' ltac:(lia)) as Hx'.
    unfold entry_at. rewrite Hkeep by done. unfold same_page.
    destruct (Hent _ Hd') as (e' & He' & Her'). rewrite He'. cbn [mbind option_bind].
    destruct (tbl_range e' Her') as (Hea' & _ & _).
    destruct (decide (dirx v' = dirx v)) as [Heq|Hdne].
    + rewrite Heq, He in He'. injection He' as <-.
      rewrite (proj2 (Z.eqb_neq (tbl e) 0)) by done.
      destruct (decide (tabx v' = tabx v)) as [Htq|Htne].
      * rewrite Htq, (indices_page v' v) by (done || lia). rewrite Z.eqb_refl.
        apply lookup_insert_eq.
      * rewrite (proj2 (Z.eqb_neq (v' / PAGE_SIZE) (v / PAGE_SIZE))) by (intros Hp; apply Htne; rewrite !tabx_eq, Hp by lia; done).
        apply lookup_insert_ne. lia.
    + rewrite (proj2 (Z.eqb_neq (v' / PAGE_SIZE) (v / PAGE_SIZE))).
      2:{ intros Hp. apply Hdne. unfold dirx, PAGE_DIR_SHIFT. rewrite !Z.shiftr_div_pow2 by lia.
          change (2 ^ 22) with (4096 * 1024). rewrite <- !Z.div_div by lia.
          unfold PAGE_SIZE in Hp. by rewrite Hp. }
      destruct (Z.eqb_spec (tbl e') 0); [done|]. apply lookup_insert_ne.
      apply pages_apart; try done.
      apply (Hdist (dirx v) (dirx v') e e'); done.
Qed.

(** A fresh page becomes an empty table. *)
Lemma new_table w w1 l p t v e :
  tree_ok w (p :: l) t -> 0 <= v < 2 ^ 32 -> w !! (t + 4 * dirx v) = Some e -> tbl e = 0 ->
  0 < p < 2 ^ 30 -> p mod PAGE_SIZE = 0 -> p ∉ l ->
  (forall j, 0 <= j < 1024 -> w1 !! (p + 4 * j) = Some 0) ->
  (forall a, ~ in_page p a -> w1 !! a = w !! a) ->
  let w2 := <[t + 4 * dirx v := Z.lor p PAGE_TABLE]> w1 in
  tree_ok w2 l t /\ (forall v', 0 <= v' < 2 ^ 32 -> entry_at w2 t v' = entry_at w t v').
Proof.
  intros H Hv He Hz Hp Hpa Hpl Hzero Ho w2. pose proof H as [Hdir Hent Htab Hdist].
  destruct Hdir as (Ht0 & Hta & Htm & Htl). apply not_elem_of_cons in Htl as [Htp Htl].
  pose proof (dirx_range v Hv) as Hd.
  destruct (tbl_join p PAGE_TABLE ltac:(lia) Hpa ltac:(done)) as [Hjoin Hjr].
  assert (forall i, 0 <= i < 1024 -> w2 !! (t + 4 * i) =
    (if decide (i = dirx v) then Some (Z.lor p PAGE_TABLE) else (w !! (t + 4 * i)))) as Hdirw.
  { intros i Hi. destruct (decide (i = dirx v)) as [->|]; [apply lookup_insert_eq|].
    unfold w2. rewrite lookup_insert_ne by lia. apply Ho. by apply not_in_page. }
  assert (forall q j, q mod PAGE_SIZE = 0 -> q <> t -> q <> p -> 0 <= j < 1024 ->
    w2 !! (q + 4 * j) = w !! (q + 4 * j)) as Hkeep.
  { intros q j Hq Hqt Hqp Hj. unfold w2. rewrite lookup_insert_ne by (by apply pages_apart).
    apply Ho. by apply not_in_page. }
  assert (forall j, 0 <= j < 1024 -> w2 !! (p + 4 * j) = Some 0) as Hnew.
  { intros j Hj. unfold w2. rewrite lookup_insert_ne; [by apply Hzero|].
    by apply pages_apart. }
  assert (forall i f, 0 <= i < 1024 -> w !! (t + 4 * i) = Some f -> tbl f <> 0 ->
    page_words w2 (tbl f) /\ tbl f <> t /\ tbl f <> p /\ (tbl f ∉ l) /\ (tbl f mod PAGE_SIZE = 0)) as Hold.
  { intros i f Hi Hf Hfn. destruct (Htab i f Hi Hf Hfn) as (Hpw & Hft & Hfl).
    apply not_elem_of_cons in Hfl as [Hfp Hfl].
    destruct (Hent i Hi) as (f' & Hf' & Hfr). rewrite Hf in Hf'. injection Hf' as <-.
    destruct (tbl_range f Hfr) as (Hfa & _ & _). split_and!; try done.
    intros j Hj. rewrite Hkeep by done. by apply Hpw. }
  split.
  - split; [done| | |].
    + intros i Hi. rewrite Hdirw by done. destruct (decide (i = dirx v)); [by eexists|by apply Hent].
    + intros i f Hi. rewrite Hdirw by done. destruct (decide (i = dirx v)) as [->|].
      * intros [= <-] _. rewrite Hjoin. split; [|done]. intros j Hj. rewrite Hnew by done. by eexists.
      * intros Hf Hfn. destruct (Hold i f Hi Hf Hfn) as (? & ? & ? & ? & ?). done.
    + intros i j f g Hi Hj Hij. rewrite !Hdirw by done.
      destruct (decide (i = dirx v)) as [->|], (decide (j = dirx v)) as [->|]; [done| | |by apply Hdist].
      * intros [= <-] Hg Hfn Heq. rewrite Hjoin in *. destruct (Hold j g Hj Hg) as (_ & _ & Hgp & _);
          [by rewrite <- Heq|]. by rewrite Heq in Hgp.
      * intros Hf [= <-] Hfn Heq. rewrite Hjoin in *. by destruct (Hold i f Hi Hf Hfn) as (_ & _ & Hfp & _).
  - intros v' Hv'. pose proof (dirx_range v' Hv') as Hd'. pose proof (tabx_range v' ltac:(lia)) as Hx'.
    unfold entry_at. rewrite Hdirw by done. destruct (decide (dirx v' = dirx v)) as [Heq|Hdne].
    + rewrite Heq, He. cbn [mbind option_bind]. rewrite Hjoin, Hz.
      rewrite (proj2 (Z.eqb_neq p 0)) by lia. by rewrite Hnew.
    + destruct (Hent _ Hd') as (f & Hf & Hfr). rewrite Hf. cbn [mbind option_bind].
      destruct (Z.eqb_spec (tbl f) 0) as [|Hfn]; [done|].
      destruct (Hold _ f Hd' Hf Hfn) as (_ & ? & ? & _ & ?). by apply Hkeep.
Qed.

(** ** The operations *)

Lemma aligned_assert v : 0 <= v < 2 ^ 32 -> v mod PAGE_SIZE = 0 ->
  (land_not 32 v PAGE_MASK =? 0) = true.
Proof. intros. apply Z.eqb_eq. by apply aligned_mask. Qed.

Lemma run_table_entry e v x s l t :
  tree_ok (words s) l t -> 0 <= v < 2 ^ 32 -> words s !! (t + 4 * dirx v) = Some e -> tbl e <> 0 ->
  set_word (VIRT_MEM (tbl e)) (tabx v) x s =
    Ok (tt, s <| words := <[tbl e + 4 * tabx v := x]> (words s) |>).
Proof.
  intros H Hv He Hne. pose proof (tabx_range v ltac:(lia)).
  destruct (tr_entry _ _ _ H _ (dirx_range v Hv)) as (e' & He' & Her).
  rewrite He in He'. injection He' as <-. destruct (tbl_range e Her) as (_ & ? & Hm).
  unfold PAGE_SIZE in Hm. apply run_set_word; [lia|].
  by apply (tr_table _ _ _ H _ _ (dirx_range v Hv) He Hne).
Qed.

(** The memory of a state in which page trees can be worked with. *)
Definition ready (tree : Z) (s : machine) (l : list Z) : Prop :=
  allocator s l /\ pages_backed s /\ tree_ok (words s) l (root tree s).

Lemma entry_write_ready tree v x e s l :
  ready tree s l -> 0 <= v < 2 ^ 32 -> words s !! (root tree s + 4 * dirx v) = Some e -> tbl e <> 0 ->
  let s' := s <| words := <[tbl e + 4 * tabx v := x]> (words s) |> in
  ready tree s' l /\ forall v', 0 <= v' < 2 ^ 32 ->
    entry_at (words s') (root tree s') v' =
    (if same_page v' v then Some x else entry_at (words s) (root tree s) v').
Proof.
  intros (Hal & Hb & Htr) Hv He Hne s'.
  destruct (set_entry (words s) l (root tree s) v x e Htr Hv He Hne) as [Htr' Hent].
  split; [|exact Hent]. split; [|split; [|exact Htr']].
  - apply allocator_write; [done|]. intros Hin.
    destruct (tr_table _ _ _ Htr _ _ (dirx_range v Hv) He Hne) as (_ & _ & Hnl).
    pose proof (tabx_range v ltac:(lia)) as Hx.
    pose proof (proj1 (Forall_forall _ _) (al_pages _ _ Hal) _ Hin) as [Ha _].
    destruct (tr_entry _ _ _ Htr _ (dirx_range v Hv)) as (e' & He' & Her).
    rewrite He in He'. injection He' as <-. destruct (tbl_range e Her) as (Hea & _ & _).
    unfold PAGE_SIZE in *. assert (tabx v = 0) as Hz; [|by rewrite Hz, Z.add_0_r in Hin].
    pose proof (Z.div_mod (tbl e) 4096 ltac:(lia)).
    pose proof (Z.div_mod (tbl e + 4 * tabx v) 4096 ltac:(lia)). lia.
  - intros p Hp. apply page_words_insert. by apply Hb.
Qed.

(** A free page becomes the table for an address. *)
Lemma add_table_run tree v e s p l :
  ready tree s (p :: l) -> 0 <= v < 2 ^ 32 ->
  words s !! (root tree s + 4 * dirx v) = Some e -> tbl e = 0 ->
  exists s' f, add_table (VIRT_MEM (root tree s)) v s = Ok (VIRT_MEM (tbl f), s') /\
    ready tree s' l /\ root tree s' = root tree s /\
    words s' !! (root tree s' + 4 * dirx v) = Some f /\ tbl f <> 0 /\
    (forall v', 0 <= v' < 2 ^ 32 ->
      entry_at (words s') (root tree s') v' = entry_at (words s) (root tree s) v').
Proof.
  intros (Hal & Hb & Htr) Hv He Hz.
  destruct (kmalloc_page_run s p l Hal Hb)
    as (s1 & Hrun & Hal1 & He1 & Hc1 & _ & _ & Hdom1 & Hzero & Ho).
  pose proof (al_pages _ _ Hal) as [[Hppa Hpr] _]%Forall_cons.
  pose proof (al_nodup _ _ Hal) as [Hpn _]%NoDup_cons. destruct (al_end _ _ Hal) as [Hend _].
  destruct (new_table (words s) (words s1) l p (root tree s) v e Htr Hv He Hz
    ltac:(lia) Hppa Hpn Hzero Ho) as [Htr2 Hent2].
  destruct (tr_dir _ _ _ Htr) as (Hr0 & Hra & Hrm & Hrl). unfold PAGE_SIZE in Hrm.
  pose proof (dirx_range v Hv) as Hd.
  assert (is_Some (words s1 !! (root tree s + 4 * dirx v))) as Hmapped.
  { apply elem_of_dom. rewrite Hdom1. apply elem_of_dom. by exists e. }
  destruct (tbl_join p PAGE_TABLE ltac:(lia) Hppa ltac:(done)) as [Hjoin Hjr].
  set (s2 := s1 <| words := <[root tree s + 4 * dirx v := Z.lor p PAGE_TABLE]> (words s1) |>).
  assert (root tree s2 = root tree s) as Hroot by (unfold root, s2, upd; cbn; by rewrite Hc1).
  exists s2, (Z.lor p PAGE_TABLE). rewrite Hroot, Hjoin. split.
  { unfold add_table. rewrite (kernel_bind_run _ _ _ _ _ Hrun). rewrite phys_virt by lia.
    erewrite kernel_bind_run; [|apply run_set_word; [unfold dirx in *; lia|exact Hmapped]]. reflexivity. }
  split; [|split; [done|split; [apply lookup_insert_eq|split; [lia|done]]]].
  split; [|split; [|by rewrite Hroot]].
  - apply allocator_write; [done|]. intros Hin.
    pose proof (proj1 (Forall_forall _ _) (al_pages _ _ Hal1) _ Hin) as [Ha _].
    apply not_elem_of_cons in Hrl as [_ Hrl].
    assert (dirx v = 0) as Hd0; [|by rewrite Hd0, Z.add_0_r in Hin].
    unfold PAGE_SIZE in *. pose proof (Z.div_mod (root tree s) 4096 ltac:(lia)).
    pose proof (Z.div_mod (root tree s + 4 * dirx v) 4096 ltac:(lia)). lia.
  - intros q Hq. apply page_words_insert. intros j Hj. apply elem_of_dom. rewrite Hdom1.
    apply elem_of_dom. apply Hb; [|done]. unfold page in *. by rewrite <- He1.
Qed.

Lemma get_after tree virtual x s l s1 s' l' v :
  ready tree s l -> ready tree s' l' -> 0 <= v < 2 ^ 32 ->
  entry_at (words s1) (root tree s1) v = entry_at (words s) (root tree s) v ->
  entry_at (words s') (root tree s') v =
    (if same_page v virtual then Some x else entry_at (words s1) (root tree s1) v) ->
  exists y, get_table_entry tree v s = Ok (y, s) /\
    get_table_entry tree v s' = Ok (if same_page v virtual then x else y, s').
Proof.
  intros (_ & _ & Htr) (_ & _ & Htr') Hv Hsame Hnew.
  destruct (get_table_entry_run tree v s l Htr Hv) as (y & Hy & Hrun). exists y. split; [done|].
  destruct (get_table_entry_run tree v s' l' Htr' Hv) as (z & Hz & ->).
  rewrite Hnew, Hsame, Hy in Hz. destruct (same_page v virtual); congruence.
Qed.

(** C17: a page tree is a map from page numbers to entries.  In a state with
    a well-formed tree and, where the tree has no table for the address yet, a
    free page, [show_page] completes; afterwards the tree is well formed, its
    table and the allocator's pages still apart; [get_table_entry] yields the
    new entry for every address in the page and the former entry for every
    other address. *)
Theorem show_page_maps tree page virtual flags s l :
  ready tree s l -> 0 <= page < 2 ^ 32 -> page mod PAGE_SIZE = 0 ->
  0 <= virtual < 2 ^ 32 -> virtual mod PAGE_SIZE = 0 ->
  (forall e, words s !! (root tree s + 4 * dirx virtual) = Some e -> tbl e = 0 -> l <> []) ->
  exists s' l', show_page tree page virtual flags s = Ok (tt, s') /\ ready tree s' l' /\
    forall v, 0 <= v < 2 ^ 32 -> exists x, get_table_entry tree v s = Ok (x, s) /\
      get_table_entry tree v s' = Ok (if same_page v virtual then Z.lor page flags else x, s').
Proof.
  intros Hready Hp Hpa Hv Hva Hfree. pose proof Hready as (Hal & Hb & Htr).
  destruct (tree_entry _ _ _ virtual Htr Hv) as (e & He & Her & _).
  destruct (tbl_range e Her) as (_ & Ht0 & Htm). unfold PAGE_SIZE in Htm.
  unfold show_page. rewrite !run_assert by (by apply aligned_assert).
  rewrite (kernel_bind_run _ _ _ _ _ (dir_of_run tree s)).
  rewrite (kernel_bind_run _ _ _ _ _ (run_dir_entry _ virtual s e l Htr Hv He)).
  fold (tbl e) (tabx virtual). rewrite phys_virt by lia.
  destruct (Z.eqb_spec (tbl e) 0) as [Hz|Hne].
  - destruct l as [|p l]; [by destruct (Hfree e He Hz)|].
    destruct (add_table_run tree virtual e s p l Hready Hv He Hz)
      as (s2 & f & Hrun & Hready2 & Hroot & Hf & Hfn & Hent2).
    rewrite (kernel_bind_run _ _ _ _ _ Hrun).
    destruct (entry_write_ready tree virtual (Z.lor page flags) f s2 l Hready2 Hv Hf Hfn)
      as [Hready' Hent'].
    do 2 eexists. split; [by eapply run_table_entry; [apply Hready2| | |]|].
    split; [exact Hready'|]. intros v Hvr.
    eapply (get_after _ _ _ _ _ s2); [exact Hready|exact Hready'|done|by apply Hent2|by apply Hent'].
  - rewrite run_ret. destruct (entry_write_ready tree virtual (Z.lor page flags) e s l Hready Hv He Hne)
      as [Hready' Hent'].
    do 2 eexists. split; [by eapply run_table_entry|]. split; [exact Hready'|]. intros v Hvr.
    eapply (get_after _ _ _ _ _ s); [exact Hready|exact Hready'|done|done|by apply Hent'].
Qed.

(** ** A machine with an empty tree *)

Fixpoint zero_words (a : Z) (n : nat) : gmap Z Z :=
  match n with O => ∅ | S n' => <[a := 0]> (zero_words (a + 4) n') end.

Lemma zero_words_at a n j : 0 <= j < Z.of_nat n -> zero_words a n !! (a + 4 * j) = Some 0.
Proof.
  revert a j. induction n as [|n IH]; intros a j Hj; [lia|]. cbn [zero_words].
  destruct (decide (j = 0)) as [->|]; [rewrite Z.mul_0_r, Z.add_0_r; apply lookup_insert_eq|].
  rewrite lookup_insert_ne by lia. replace (a + 4 * j) with (a + 4 + 4 * (j - 1)) by lia.
  apply IH. lia.
Qed.

Lemma allocator_cr3 s l c : allocator s l -> allocator (s <| cr3 := c |>) l.
Proof. intros [????????]. by split. Qed.

(** As [small], with the directory in the page in use. *)
Definition small_tree : machine :=
  small <| words := <[8192 := 12288]> (zero_words 0 4096) |> <| cr3 := 4096 |>.

Lemma small_tree_words a j : a mod 4096 = 0 -> 0 <= a < 16384 -> 0 <= j < 1024 ->
  words small_tree !! (a + 4 * j) = Some (if decide (a + 4 * j = 8192) then 12288 else 0).
Proof.
  intros Ha Hr Hj. unfold small_tree, upd; cbn [words].
  destruct (decide (a + 4 * j = 8192)) as [->|]; [apply lookup_insert_eq|].
  rewrite lookup_insert_ne by done.
  pose proof (Z.div_mod a 4096 ltac:(lia)).
  replace (a + 4 * j) with (0 + 4 * (a / 4096 * 1024 + j)) by lia. apply zero_words_at.
  change (Z.of_nat 4096) with 4096. lia.
Qed.

Lemma small_tree_ready : ready 4096 small_tree [8192; 12288].
Proof.
  split; [|split].
  - apply allocator_cr3, (allocator_words small); [exact small_allocator|].
    intros a [->|[->|[]%elem_of_nil]%elem_of_cons]%elem_of_cons.
    + by rewrite lookup_insert_eq.
    + rewrite lookup_insert_ne by done.
      exact (zero_words_at 0 4096 3072 ltac:(change (Z.of_nat 4096) with 4096; lia)).
  - intros p Hp j Hj. rewrite small_tree_words; [by eexists| | |done].
    + apply Hp.
    + destruct Hp as [_ Hp]. unfold small_tree, upd in Hp; cbn in Hp. lia.
  - assert (forall i, 0 <= i < 1024 -> words small_tree !! (4096 + 4 * i) = Some 0) as Hdir.
    { intros i Hi. rewrite small_tree_words by (done || lia). by rewrite decide_False by lia. }
    change (root 4096 small_tree) with 4096. split.
    + split; [done|]. split; [done|]. split; [done|]. by apply (bool_decide_unpack _).
    + intros i Hi. exists 0. by rewrite Hdir.
    + intros i e Hi. rewrite Hdir by done. by intros [= <-].
    + intros i j e f Hi Hj _. rewrite !Hdir by done. by intros [= <-].
Qed.

(** The page of 0xC0001000 is shown; the page next to it is not. *)
Lemma show_page_maps_witness :
  exists s', show_page 4096 0x7000 0xC0001000 PAGE_SHARED small_tree = Ok (tt, s') /\
    get_table_entry 4096 0xC0001234 s' = Ok (0x7027, s') /\
    exists x, get_table_entry 4096 0xC0002000 small_tree = Ok (x, small_tree) /\
      get_table_entry 4096 0xC0002000 s' = Ok (x, s').
Proof.
  destruct (show_page_maps 4096 0x7000 0xC0001000 PAGE_SHARED small_tree [8192; 12288]
    small_tree_ready ltac:(lia) eq_refl ltac:(lia) eq_refl) as (s' & l' & Hrun & _ & Hget);
    [by intros ???|].
  exists s'. split; [exact Hrun|]. split.
  - destruct (Hget 0xC0001234 ltac:(lia)) as (x & _ & Hx).
    change (same_page 0xC0001234 0xC0001000) with true in Hx.
    change (Z.lor 0x7000 PAGE_SHARED) with 0x7027 in Hx. exact Hx.
  - destruct (Hget 0xC0002000 ltac:(lia)) as (x & Hx & Hx').
    change (same_page 0xC0002000 0xC0001000) with false in Hx'. cbv iota in Hx'.
    exists x. split; [exact Hx|exact Hx'].
Defined.
