(* ===== verification/PageCopy.v ===== *)
(** * Copying and releasing page trees

    [copy_page_tree] and [free_page_tree] visit every entry of a page tree.
    The copy yields the same entries, shared for reading in copy-on-write
    mode, and the use counters count the references of the page trees; giving
    the copy back restores the counters. *)

From S2P Require Import Prelude PhysMem PageAlloc PageTrees.
Open Scope Z_scope.

(** ** Loops *)

Lemma for_each_snoc start n body s :
  for_each start (S n) body s =
  (for_each start n body ≫= fun _ => body (start + Z.of_nat n)) s.
Proof.
  revert start s. induction n as [|n IH]; intros start s.
  - cbn [for_each]. unfold mbind, kernel_bind, mret, kernel_ret. rewrite Z.add_0_r.
    by destruct (body start s) as [[[] s']|].
  - cbn [for_each]. unfold mbind, kernel_bind in *.
    destruct (body start s) as [[u s']|]; [|done]. specialize (IH (start + 1) s').
    cbn [for_each] in IH. unfold mbind, kernel_bind in IH. rewrite IH.
    by replace (start + 1 + Z.of_nat n) with (start + Z.of_nat (S n)) by lia.
Qed.

(** The rule for loops with an invariant. *)
Lemma for_each_inv (I : Z -> machine -> Prop) n body s :
  I 0 s ->
  (forall k s, 0 <= k < Z.of_nat n -> I k s -> exists s', body k s = Ok (tt, s') /\ I (k + 1) s') ->
  exists s', for_each 0 n body s = Ok (tt, s') /\ I (Z.of_nat n) s'.
Proof.
  intros H0. induction n as [|n IH]; intros Hstep; [by exists s|].
  destruct IH as (s1 & H1 & I1); [intros k t Hk; apply Hstep; lia|].
  destruct (Hstep (Z.of_nat n) s1 ltac:(lia) I1) as (s2 & H2 & I2). exists s2.
  rewrite for_each_snoc, (kernel_bind_run _ _ _ _ _ H1). split; [done|].
  by replace (Z.of_nat (S n)) with (Z.of_nat n + 1) by lia.
Qed.

Lemma for_entries (I : Z -> machine -> Prop) body s :
  I 0 s ->
  (forall k s, 0 <= k < 1024 -> I k s -> exists s', body k s = Ok (tt, s') /\ I (k + 1) s') ->
  exists s', for_each 0 (Z.to_nat PTRS_PER_PAGE) body s = Ok (tt, s') /\ I 1024 s'.
Proof.
  intros H0 Hstep. assert (Z.to_nat PTRS_PER_PAGE = Z.to_nat 1024) as -> by done.
  assert (Z.of_nat (Z.to_nat 1024) = 1024) as E by done. revert E.
  generalize (Z.to_nat 1024) as n. intros n E. rewrite <- E in Hstep |- *.
  apply for_each_inv; [exact H0|exact Hstep].
Qed.

Fixpoint sum_to (n : nat) (f : Z -> Z) : Z :=
  match n with O => 0 | S n' => sum_to n' f + f (Z.of_nat n') end.

(** The sum of the first [k] values. *)
Definition sum (k : Z) (f : Z -> Z) : Z := sum_to (Z.to_nat k) f.

Lemma sum_next k f : 0 <= k -> sum (k + 1) f = sum k f + f k.
Proof.
  intros Hk. unfold sum. replace (Z.to_nat (k + 1)) with (S (Z.to_nat k)) by lia.
  cbn [sum_to]. by rewrite Z2Nat.id.
Qed.

Lemma sum_ext k f g : (forall i, 0 <= i < k -> f i = g i) -> sum k f = sum k g.
Proof.
  unfold sum. intros H. destruct (decide (0 <= k)) as [Hk|Hk].
  - rewrite <- (Z2Nat.id k) in H by done. revert H. generalize (Z.to_nat k).
    induction n as [|n IH]; intros H; [done|]. cbn [sum_to].
    rewrite (H (Z.of_nat n)), IH by lia || (intros; apply H; lia). done.
  - by rewrite Z2Nat.nonpos by lia.
Qed.

Lemma sum_mono k n f : 0 <= k <= n -> (forall i, 0 <= i < n -> 0 <= f i) -> 0 <= sum k f <= sum n f.
Proof.
  intros Hk Hf. unfold sum. assert (Z.to_nat k <= Z.to_nat n)%nat as Hle by lia.
  assert (forall i, 0 <= i < Z.of_nat (Z.to_nat n) -> 0 <= f i) as Hp by (intros; apply Hf; lia).
  revert Hle Hp. generalize (Z.to_nat k) as i. generalize (Z.to_nat n) as m. clear k n Hk Hf.
  induction m as [|m IH]; intros i Hi Hf.
  - by replace i with O by lia.
  - pose proof (Hf (Z.of_nat m) ltac:(lia)).
    assert (forall i, 0 <= i < Z.of_nat m -> 0 <= f i) as Hp by (intros; apply Hf; lia).
    destruct (decide (i = S m)) as [->|]; cbn [sum_to].
    + destruct (IH m ltac:(lia) Hp) as [? _]. lia.
    + destruct (IH i ltac:(lia) Hp) as [? ?]. lia.
Qed.

(** ** Entries *)

(** What an entry becomes in both tables. *)
Definition shared (mode : copy_mode) (x : Z) : Z :=
  if x =? 0 then 0 else
  match mode with
  | COPY_ON_WRITE => Z.lor (land_not 32 x PAGE_RW) PAGE_COW
  | NORMAL => x
  end.

Lemma tbl_shared mode x : x <> 0 -> tbl (shared mode x) = tbl x.
Proof.
  intros Hx. unfold shared. rewrite (proj2 (Z.eqb_neq x 0)) by done. destruct mode; [done|].
  unfold tbl, land_not. rewrite Z.land_lor_distr_l, <- Z.land_assoc.
  change (Z.land (Z.lxor (2 ^ 32 - 1) PAGE_RW) PAGE_MASK) with PAGE_MASK.
  change (Z.land PAGE_COW PAGE_MASK) with 0. apply Z.lor_0_r.
Qed.

Lemma tbl_nonneg e : 0 <= tbl e.
Proof. apply Z.land_nonneg. by right. Qed.

Lemma tbl_nr e : 0 <= MAP_NR (tbl e) /\ MAP_NR (tbl e) = tbl e / PAGE_SIZE.
Proof.
  pose proof (tbl_nonneg e). unfold MAP_NR, PAGE_SHIFT, PAGE_SIZE.
  rewrite Z.shiftr_div_pow2 by lia. split; [apply Z.div_pos; lia|done].
Qed.

(** The counter after [k] more references; reserved pages are not counted. *)
Definition counted (o : option Z) (k : Z) : option Z :=
  n ← o; Some (if n =? MAP_PAGE_RESERVED then n else n + k).

Lemma counted_0 o : counted o 0 = o.
Proof. destruct o as [n|]; [|done]. cbn. rewrite Z.add_0_r. by destruct (n =? _). Qed.

(** Whether an entry refers to a page. *)
Definition refers (p x : Z) : Z := if negb (x =? 0) && (tbl x =? p) then 1 else 0.

Lemma refers_range p x : 0 <= refers p x <= 1.
Proof. unfold refers. destruct (_ && _); lia. Qed.

Lemma counted_add o a b :
  0 <= a -> (forall n, o = Some n -> n <> MAP_PAGE_RESERVED -> b = 0 \/ n + a < MAP_PAGE_RESERVED) ->
  counted (counted o a) b = counted o (a + b).
Proof.
  intros Ha H. destruct o as [n|]; [|done]. cbn. destruct (Z.eqb_spec n MAP_PAGE_RESERVED) as [->|Hn];
    [by rewrite Z.eqb_refl|].
  destruct (H n eq_refl Hn) as [->|Hlt]; [rewrite !Z.add_0_r; by destruct (n + a =? _)|].
  rewrite (proj2 (Z.eqb_neq (n + a) _)) by lia. by rewrite Z.add_assoc.
Qed.

(** The references that are counted are those from user space. *)
Definition reference (i p x : Z) : Z := if i <? KERNEL_VIRT_PDINDX then refers p x else 0.

Lemma reference_range i p x : 0 <= reference i p x <= 1.
Proof. unfold reference. pose proof (refers_range p x). destruct (_ <? _); lia. Qed.

(** ** One entry *)

Definition recount (b : bool) (p n : Z) (m : list Z) : list Z :=
  if b then <[Z.to_nat (p / PAGE_SIZE) := n]> m else m.

Lemma copy_entry_run mode i src dst j x n s :
  0 <= src + 4 * j < 2 ^ 32 -> 0 <= dst + 4 * j < 2 ^ 32 -> src + 4 * j <> dst + 4 * j ->
  words s !! (src + 4 * j) = Some x -> is_Some (words s !! (dst + 4 * j)) -> x <> 0 ->
  uses s (tbl x) = Some n ->
  (negb (n =? MAP_PAGE_RESERVED) && (i <? KERNEL_VIRT_PDINDX) = true -> 0 <= n + 1 < 2 ^ 16) ->
  copy_entry mode i (VIRT_MEM src) (VIRT_MEM dst) j s =
    Ok (tt, s <| words := <[dst + 4 * j := shared mode x]>
                            (<[src + 4 * j := shared mode x]> (words s)) |>
              <| mem_map := recount (negb (n =? MAP_PAGE_RESERVED) && (i <? KERNEL_VIRT_PDINDX))
                              (tbl x) (n + 1) (mem_map s) |>).
Proof.
  intros Hs Hd Hne Hx Hdw H0 Hn Hr. unfold copy_entry.
  rewrite (kernel_bind_run _ _ _ _ _ (run_word src j x s Hs Hx)).
  rewrite (proj2 (Z.eqb_neq x 0)) by done.
  set (s1 := s <| words := <[src + 4 * j := shared mode x]> (words s) |>).
  assert (forall (A : Type) (k : unit -> kernel A), ((match mode with
       | COPY_ON_WRITE => set_word (VIRT_MEM src) j (Z.lor (land_not 32 x PAGE_RW) PAGE_COW)
       | NORMAL => mret tt
       end) ≫= k) s = k tt s1) as ->.
  { intros A k. subst s1. unfold shared. rewrite (proj2 (Z.eqb_neq x 0)) by done. destruct mode.
    - rewrite run_ret, insert_id by done. by destruct s.
    - by rewrite (kernel_bind_run _ _ _ _ _ (run_set_word src j _ s Hs ltac:(by eexists))). }
  assert (words s1 !! (src + 4 * j) = Some (shared mode x)) as Hx1 by apply lookup_insert_eq.
  rewrite (kernel_bind_run _ _ _ _ _ (run_word src j _ s1 Hs Hx1)).
  erewrite kernel_bind_run; [|apply run_set_word; [done|]].
  2:{ unfold s1, upd; cbn. by rewrite lookup_insert_ne by done. }
  erewrite kernel_bind_run; [|apply (run_word src j (shared mode x)); [done|]].
  2:{ unfold upd; cbn. by rewrite lookup_insert_ne by done. }
  fold (tbl (shared mode x)). rewrite tbl_shared by done. destruct (tbl_nr x) as [Hi Hq].
  rewrite Hq in *. unfold uses in Hn.
  erewrite kernel_bind_run; [|by apply run_map_at].
  unfold recount. destruct (_ && _).
  - rewrite run_set_map; [|by eexists|done|by apply Hr]. by destruct s.
  - by destruct s.
Qed.

Definition aligned (p : Z) : Prop := p mod PAGE_SIZE = 0 /\ 0 <= p.

Lemma aligned_inj p q : aligned p -> aligned q -> p / PAGE_SIZE = q / PAGE_SIZE -> p = q.
Proof.
  unfold aligned, PAGE_SIZE. intros [Hp _] [Hq _] H.
  pose proof (Z.div_mod p 4096 ltac:(lia)). pose proof (Z.div_mod q 4096 ltac:(lia)). lia.
Qed.

Lemma aligned_tbl e : aligned (tbl e).
Proof.
  split; [|apply tbl_nonneg]. unfold tbl, PAGE_SIZE. change 4096 with (2 ^ 12).
  rewrite <- Z.land_ones by lia. rewrite <- Z.land_assoc.
  change (Z.land PAGE_MASK (Z.ones 12)) with 0. apply Z.land_0_r.
Qed.
#[local] Hint Resolve aligned_tbl : core.

Lemma uses_recount s b p n m q :
  aligned p -> aligned q -> uses s p = Some m ->
  uses (s <| mem_map := recount b p n (mem_map s) |>) q =
    if b && (q =? p) then Some n else uses s q.
Proof.
  intros Hp Hq Hm. unfold uses, recount, upd in *; cbn. destruct b; cbn [andb]; [|done].
  destruct (Z.eqb_spec q p) as [->|Hne].
  - apply list_lookup_insert_eq, lookup_lt_is_Some_1. by eexists.
  - apply list_lookup_insert_ne. intros Heq. apply Hne, aligned_inj; [done|done|].
    destruct Hp, Hq. apply Z2Nat.inj in Heq; [done| |]; unfold PAGE_SIZE; apply Z.div_pos; lia.
Qed.

Lemma page_word_not_free s l p j :
  allocator s l -> p mod PAGE_SIZE = 0 -> p ∉ l -> 0 <= j < 1024 -> p + 4 * j ∉ l.
Proof.
  intros H Hp Hl Hj Hin. pose proof (proj1 (Forall_forall _ _) (al_pages _ _ H) _ Hin) as [Ha _].
  unfold PAGE_SIZE in *. pose proof (Z.div_mod p 4096 ltac:(lia)).
  pose proof (Z.div_mod (p + 4 * j) 4096 ltac:(lia)). assert (j = 0) as -> by lia.
  by rewrite Z.add_0_r in Hin.
Qed.

(** What the loops leave alone. *)
Record frame (s0 s : machine) : Prop := {
  fr_end : mem_end s = mem_end s0;
  fr_cr3 : cr3 s = cr3 s0;
  fr_flag : if_flag s = if_flag s0;
  fr_dom : dom (words s) = dom (words s0)
}.

Lemma frame_refl s : frame s s.
Proof. done. Qed.
Lemma frame_trans s1 s2 s3 : frame s1 s2 -> frame s2 s3 -> frame s1 s3.
Proof. intros [????] [????]. split; congruence. Qed.

Lemma frame_mapped s0 s a : frame s0 s -> is_Some (words s0 !! a) -> is_Some (words s !! a).
Proof. intros H Ha. apply elem_of_dom. rewrite (fr_dom _ _ H). by apply elem_of_dom. Qed.

Lemma frame_page_words s0 s p : frame s0 s -> page_words (words s0) p -> page_words (words s) p.
Proof. intros H Hp j Hj. by apply (frame_mapped s0), Hp. Qed.

Lemma frame_backed s0 s : frame s0 s -> pages_backed s0 -> pages_backed s.
Proof.
  intros H Hb p Hp. apply (frame_page_words s0); [done|]. apply Hb. unfold page in *.
  by rewrite <- (fr_end _ _ H).
Qed.

(** ** The entries of a table *)

Section row.
Context (mode : copy_mode) (i src dst : Z) (l : list Z) (s0 : machine).

Definition row (j : Z) : Z := default 0 (words s0 !! (src + 4 * j)).

(** The page of an entry can be counted once more for every entry. *)
Definition countable (x : Z) : Prop := x <> 0 ->
  exists n, uses s0 (tbl x) = Some n /\
    ((i <? KERNEL_VIRT_PDINDX) = true -> n <> MAP_PAGE_RESERVED -> used s0 (tbl x) n /\
      n + sum 1024 (fun k => reference i (tbl x) (row k)) < MAP_PAGE_RESERVED).

Record row_inv (j : Z) (s : machine) : Prop := {
  ri_alloc : allocator s l;
  ri_frame : frame s0 s;
  ri_src : forall k, 0 <= k < 1024 ->
    words s !! (src + 4 * k) = Some (if k <? j then shared mode (row k) else row k);
  ri_dst : forall k, 0 <= k < 1024 ->
    words s !! (dst + 4 * k) = Some (if k <? j then shared mode (row k) else 0);
  ri_other : forall a, ~ in_page src a -> ~ in_page dst a -> words s !! a = words s0 !! a;
  ri_uses : forall p, aligned p ->
    uses s p = counted (uses s0 p) (sum j (fun k => reference i p (row k)))
}.

Context (Halloc : allocator s0 l) (Hsrc : aligned src /\ src + PAGE_SIZE <= 2 ^ 32 /\ src ∉ l)
  (Hdst : aligned dst /\ dst + PAGE_SIZE <= 2 ^ 32 /\ dst ∉ l) (Hne : src <> dst)
  (Hwords : page_words (words s0) src)
  (Hzero : forall k, 0 <= k < 1024 -> words s0 !! (dst + 4 * k) = Some 0)
  (Hcount : forall j, 0 <= j < 1024 -> countable (row j)).

Lemma row_at j : 0 <= j < 1024 -> words s0 !! (src + 4 * j) = Some (row j).
Proof. intros Hj. unfold row. by destruct (Hwords j Hj) as [x ->]. Qed.

Lemma row_inv_start : row_inv 0 s0.
Proof.
  split; [done|apply frame_refl| | |done|].
  - intros k Hk. rewrite (proj2 (Z.ltb_ge k 0)) by lia. by apply row_at.
  - intros k Hk. rewrite (proj2 (Z.ltb_ge k 0)) by lia. by apply Hzero.
  - intros p Hp. change (sum 0 _) with 0. by rewrite counted_0.
Qed.

(** An empty entry is skipped. *)
Lemma row_inv_skip j s : 0 <= j < 1024 -> row j = 0 -> row_inv j s -> row_inv (j + 1) s.
Proof.
  intros Hj Hz [Ha Hf Hs Hd Ho Hu]. split; [done|done| | |done|].
  - intros k Hk. rewrite Hs by done. destruct (Z.ltb_spec k j), (Z.ltb_spec k (j + 1)); try lia; try done.
    assert (k = j) as -> by lia. by rewrite Hz.
  - intros k Hk. rewrite Hd by done. destruct (Z.ltb_spec k j), (Z.ltb_spec k (j + 1)); try lia; try done.
    assert (k = j) as -> by lia. by rewrite Hz.
  - intros p Hp. rewrite sum_next, Hz by lia. rewrite Hu by done. unfold reference, refers. cbn.
    by destruct (i <? _); rewrite Z.add_0_r.
Qed.

Lemma row_words j s y :
  0 <= j < 1024 -> row_inv j s -> y = shared mode (row j) ->
  let w := <[dst + 4 * j := y]> (<[src + 4 * j := y]> (words s)) in
  dom w = dom (words s) /\
  (forall k, 0 <= k < 1024 ->
    w !! (src + 4 * k) = Some (if k <? j + 1 then shared mode (row k) else row k)) /\
  (forall k, 0 <= k < 1024 ->
    w !! (dst + 4 * k) = Some (if k <? j + 1 then shared mode (row k) else 0)) /\
  (forall a, ~ in_page src a -> ~ in_page dst a -> w !! a = words s0 !! a).
Proof.
  intros Hj [Ha Hf Hs Hd Ho Hu] -> w.
  destruct Hsrc as ([Hsa Hs0] & Hsm & Hsl), Hdst as ([Hda Hd0] & Hdm & Hdl).
  assert (forall k k', 0 <= k < 1024 -> 0 <= k' < 1024 -> src + 4 * k <> dst + 4 * k') as Hap
    by (intros; by apply pages_apart).
  split_and!.
  - unfold w. rewrite !dom_insert_lookup_L; [done| |].
    + rewrite Hs by done. by eexists.
    + rewrite lookup_insert_ne by (by apply Hap). rewrite Hd by done. by eexists.
  - intros k Hk. unfold w. rewrite lookup_insert_ne by (apply not_eq_sym; by apply Hap).
    destruct (decide (k = j)) as [->|Hkj].
    + rewrite lookup_insert_eq. by rewrite (proj2 (Z.ltb_lt j (j + 1))) by lia.
    + rewrite lookup_insert_ne, Hs by (done || lia).
      destruct (Z.ltb_spec k j), (Z.ltb_spec k (j + 1)); done || lia.
  - intros k Hk. unfold w. destruct (decide (k = j)) as [->|Hkj].
    + rewrite lookup_insert_eq. by rewrite (proj2 (Z.ltb_lt j (j + 1))) by lia.
    + rewrite !lookup_insert_ne, Hd by (done || lia || (by apply Hap)).
      destruct (Z.ltb_spec k j), (Z.ltb_spec k (j + 1)); done || lia.
  - intros a Hna Hnd. unfold w. unfold in_page, PAGE_SIZE in *.
    rewrite !lookup_insert_ne by lia. by apply Ho.
Qed.

(** The counter that the entry at [j] finds. *)
Lemma row_count j s :
  0 <= j < 1024 -> row_inv j s -> row j <> 0 ->
  let x := row j in
  exists m, uses s (tbl x) = Some m /\
    ((i <? KERNEL_VIRT_PDINDX) = true -> m <> MAP_PAGE_RESERVED ->
      used s (tbl x) m /\ 0 < m /\ m + 1 < MAP_PAGE_RESERVED) /\
    (forall n, uses s0 (tbl x) = Some n -> n <> MAP_PAGE_RESERVED ->
      reference i (tbl x) x = 0 \/
        n + sum j (fun k => reference i (tbl x) (row k)) < MAP_PAGE_RESERVED).
Proof.
  intros Hj Hinv Hx x. destruct (Hcount j Hj Hx) as (n & Hn & Hb).
  assert (0 <= sum j (fun k => reference i (tbl x) (row k)) <=
    sum 1024 (fun k => reference i (tbl x) (row k))) as Hle.
  { apply sum_mono; [lia|]. intros. apply reference_range. }
  assert (sum j (fun k => reference i (tbl x) (row k)) + reference i (tbl x) x <=
    sum 1024 (fun k => reference i (tbl x) (row k))) as Hlt.
  { pose proof (sum_next j (fun k => reference i (tbl x) (row k)) ltac:(lia)) as E.
    pose proof (sum_mono (j + 1) 1024 (fun k => reference i (tbl x) (row k)) ltac:(lia)
      ltac:(intros; apply reference_range)) as [_ M]. rewrite E in M. exact M. }
  pose proof (ri_uses _ _ Hinv (tbl x) (aligned_tbl x)) as Hu. fold x in Hn. rewrite Hn in Hu.
  cbn in Hu. eexists. split; [exact Hu|]. split.
  - intros Hi. destruct (Z.eqb_spec n MAP_PAGE_RESERVED) as [|Hnr]; [done|].
    intros Hm. destruct (Hb Hi Hnr) as [(Hp & _ & Hn0 & _) Hlim]. fold x in Hlim, Hp.
    pose proof (al_range _ _ Halloc) as Hr. unfold uses in Hn.
    pose proof (proj1 (Forall_lookup _ _) Hr _ _ Hn) as Hrn. cbv beta in Hrn.
    assert (reference i (tbl x) x = 1) as Hone.
    { unfold reference, refers. rewrite Hi, Z.eqb_refl, (proj2 (Z.eqb_neq x 0)) by done. done. }
    split; [|lia]. split; [|split; [exact Hu|lia]].
    + unfold page in *. by rewrite (fr_end _ _ (ri_frame _ _ Hinv)).
  - intros n' Hn' Hnr. rewrite Hn in Hn'. injection Hn' as <-.
    destruct (i <? KERNEL_VIRT_PDINDX) eqn:Hi; [|left; unfold reference; by rewrite Hi].
    right. destruct (Hb eq_refl Hnr) as [_ Hlim]. fold x in Hlim. lia.
Qed.

Lemma row_step j s : 0 <= j < 1024 -> row_inv j s ->
  exists s', copy_entry mode i (VIRT_MEM src) (VIRT_MEM dst) j s = Ok (tt, s') /\ row_inv (j + 1) s'.
Proof.
  intros Hj Hinv. pose proof Hsrc as ([Hsa Hs0] & Hsm & Hsl). pose proof Hdst as ([Hda Hd0] & Hdm & Hdl).
  unfold PAGE_SIZE in Hsm, Hdm.
  pose proof (ri_src _ _ Hinv j Hj) as Hx. rewrite Z.ltb_irrefl in Hx.
  destruct (decide (row j = 0)) as [Hz|Hx0].
  { exists s. split; [|by apply row_inv_skip]. unfold copy_entry.
    rewrite (kernel_bind_run _ _ _ _ _ (run_word src j _ s ltac:(lia) Hx)). by rewrite Hz. }
  destruct (row_count j s Hj Hinv Hx0) as (m & Hm & Hused & Hlim).
  destruct (row_words j s _ Hj Hinv eq_refl) as (Hdom & Hws & Hwd & Hwo).
  eexists. split.
  { apply (copy_entry_run mode i src dst j (row j) m s); try done; [lia|lia| | |].
    - by apply pages_apart.
    - rewrite (ri_dst _ _ Hinv) by done. by eexists.
    - intros [Hnr Hi]%andb_prop. apply negb_true_iff, Z.eqb_neq in Hnr.
      destruct (Hused Hi Hnr) as (_ & ? & ?). change MAP_PAGE_RESERVED with 32768 in *. lia. }
  set (b := negb (m =? MAP_PAGE_RESERVED) && (i <? KERNEL_VIRT_PDINDX)).
  pose proof (ri_alloc _ _ Hinv) as Hal.
  set (w := <[dst + 4 * j := _]> _). set (s1 := s <| words := w |>).
  assert (allocator s1 l) as Hal1.
  { apply allocator_words; [exact Hal|]. intros a Ha. unfold w. rewrite !lookup_insert_ne; [done| |];
      intros <-; [by apply (page_word_not_free s l src j)|by apply (page_word_not_free s l dst j)]. }
  split; try done.
  - unfold recount. destruct b eqn:Hb; [|exact Hal1]. unfold b in Hb.
    apply andb_prop in Hb as [Hnr Hi]. apply negb_true_iff, Z.eqb_neq in Hnr.
    destruct (Hused Hi Hnr) as (Hu & ? & ?). change MAP_PAGE_RESERVED with 32768 in *.
    apply (allocator_set_map s1 l (tbl (row j)) m (m + 1)); [exact Hal1|exact Hu|lia].
  - apply (frame_trans _ s); [apply (ri_frame _ _ Hinv)|by split].
  - intros p Hp. etransitivity; [exact (uses_recount s1 b _ (m + 1) m p (aligned_tbl _) Hp Hm)|].
    change (uses s1 p) with (uses s p). rewrite sum_next by lia. rewrite (ri_uses _ _ Hinv p Hp).
    destruct (decide (p = tbl (row j))) as [->|Hpne].
    + rewrite Z.eqb_refl, andb_true_r. rewrite <- counted_add.
      3:{ intros n Hn Hnr. by apply Hlim. }
      2:{ apply (sum_mono j 1024); [lia|]. intros. apply reference_range. }
      rewrite <- (ri_uses _ _ Hinv), Hm by done. unfold b, reference, refers.
      rewrite Z.eqb_refl, (proj2 (Z.eqb_neq (row j) 0)) by done. cbn.
      destruct (Z.eqb_spec m MAP_PAGE_RESERVED), (i <? KERNEL_VIRT_PDINDX); cbn; f_equal; lia.
    + rewrite (proj2 (Z.eqb_neq p _)), andb_false_r by done.
      assert (reference i p (row j) = 0) as ->; [|by rewrite Z.add_0_r].
      unfold reference, refers. rewrite (proj2 (Z.eqb_neq (tbl (row j)) p)) by done.
      by rewrite andb_false_r; destruct (_ <? _).
Qed.

(** The loop over a table. *)
Lemma copy_row :
  exists s', for_each 0 (Z.to_nat PTRS_PER_PAGE) (copy_entry mode i (VIRT_MEM src) (VIRT_MEM dst)) s0 =
    Ok (tt, s') /\ row_inv 1024 s'.
Proof.
  apply (for_entries row_inv); [apply row_inv_start|]. intros k s Hk. by apply row_step.
Qed.
End row.

(** ** Trees *)

(** The entries of a directory and those of its tables. *)
Definition dent (w : gmap Z Z) (t i : Z) : Z := default 0 (w !! (t + 4 * i)).
Definition tent (w : gmap Z Z) (t i j : Z) : Z :=
  let e := dent w t i in if tbl e =? 0 then 0 else default 0 (w !! (tbl e + 4 * j)).

(** The references from user space to a page in the first [n] tables, and the
    number of tables. *)
Definition tree_refs (w : gmap Z Z) (t n p : Z) : Z :=
  sum n (fun i => sum 1024 (fun j => reference i p (tent w t i j))).
Definition tables (w : gmap Z Z) (t n : Z) : Z :=
  sum n (fun i => if tbl (dent w t i) =? 0 then 0 else 1).

Lemma dent_at w l t i : tree_ok w l t -> 0 <= i < 1024 ->
  w !! (t + 4 * i) = Some (dent w t i) /\ 0 <= dent w t i < 2 ^ 32.
Proof. intros H Hi. unfold dent. by destruct (tr_entry _ _ _ H i Hi) as (e & -> & He). Qed.

Lemma dent_table w l t i : tree_ok w l t -> 0 <= i < 1024 -> tbl (dent w t i) <> 0 ->
  page_words w (tbl (dent w t i)) /\ tbl (dent w t i) <> t /\ tbl (dent w t i) ∉ l.
Proof. intros H Hi. apply (tr_table _ _ _ H i); [done|]. by apply (dent_at _ l). Qed.

Lemma dent_distinct w l t i j : tree_ok w l t -> 0 <= i < 1024 -> 0 <= j < 1024 -> i <> j ->
  tbl (dent w t i) <> 0 -> tbl (dent w t i) <> tbl (dent w t j).
Proof.
  intros H Hi Hj Hij. apply (tr_distinct _ _ _ H i j); [done|done|done| |]; by apply (dent_at _ l).
Qed.

Lemma entry_tent w l t v : tree_ok w l t -> 0 <= v < 2 ^ 32 ->
  entry_at w t v = Some (tent w t (dirx v) (tabx v)).
Proof.
  intros H Hv. destruct (tree_entry w l t v H Hv) as (e & He & _ & Hx). unfold entry_at, tent, dent.
  rewrite He. cbn [mbind option_bind default]. unfold id. destruct (Z.eqb_spec (tbl e) 0) as [|Hne]; [done|].
  by destruct (Hx Hne) as [x ->].
Qed.

(** A tree depends on its directory and on the memory that is mapped. *)
Lemma tree_ok_agree w w' l l' t :
  tree_ok w l t -> (forall i, 0 <= i < 1024 -> w' !! (t + 4 * i) = w !! (t + 4 * i)) ->
  dom w' = dom w -> l' ⊆ l -> tree_ok w' l' t.
Proof.
  intros [(? & ? & ? & Hl) He Ht Hd] Hw Hdom Hsub. split.
  - split_and!; try done. set_solver.
  - intros i Hi. rewrite Hw by done. by apply He.
  - intros i e Hi. rewrite Hw by done. intros Hwe Hne. destruct (Ht i e Hi Hwe Hne) as (Hp & ? & ?).
    split; [|split; [done|set_solver]]. intros j Hj. apply elem_of_dom. rewrite Hdom.
    apply elem_of_dom. by apply Hp.
  - intros i j e f Hi Hj. rewrite !Hw by done. by apply Hd.
Qed.

(** A tree with one more table. *)
Lemma tree_ok_new w w' l t k f :
  tree_ok w (tbl f :: l) t -> 0 <= k < 1024 -> 0 <= f < 2 ^ 32 -> tbl f ∉ l -> page_words w (tbl f) ->
  (forall i, 0 <= i < 1024 -> w' !! (t + 4 * i) = if i =? k then Some f else w !! (t + 4 * i)) ->
  dom w' = dom w -> tree_ok w' l t.
Proof.
  intros [(? & ? & ? & Hl) He Ht Hd] Hk Hf Hfl Hpw Hw Hdom. apply not_elem_of_cons in Hl as [Htf Hl].
  assert (forall p, page_words w p -> page_words w' p) as Hkeep.
  { intros p Hp j Hj. apply elem_of_dom. rewrite Hdom. apply elem_of_dom. by apply Hp. }
  split.
  - by split_and!.
  - intros i Hi. rewrite Hw by done. destruct (i =? k); [by eexists|by apply He].
  - intros i e Hi. rewrite Hw by done. destruct (i =? k).
    + intros [= <-] _. split; [by apply Hkeep|done].
    + intros Hwe Hne. destruct (Ht i e Hi Hwe Hne) as (Hp & ? & [? ?]%not_elem_of_cons).
      split; [by apply Hkeep|done].
  - intros i j e g Hi Hj Hij. rewrite !Hw by done.
    destruct (Z.eqb_spec i k) as [->|], (Z.eqb_spec j k) as [->|]; [done| | |by apply Hd].
    + intros [= <-] Hg Hne Heq. destruct (Ht j g Hj Hg) as (_ & _ & Hn); [by rewrite <- Heq|].
      apply Hn. rewrite <- Heq. left.
    + intros Hwe [= <-] Hne Heq. destruct (Ht i e Hi Hwe Hne) as (_ & _ & Hn). apply Hn. rewrite Heq. left.
Qed.

(** Two trees without a common page. *)
Record apart (w : gmap Z Z) (t u : Z) : Prop := {
  ap_roots : t <> u;
  ap_left : forall i, 0 <= i < 1024 -> tbl (dent w t i) <> 0 -> tbl (dent w t i) <> u;
  ap_right : forall j, 0 <= j < 1024 -> tbl (dent w u j) <> 0 -> tbl (dent w u j) <> t;
  ap_tables : forall i j, 0 <= i < 1024 -> 0 <= j < 1024 -> tbl (dent w t i) <> 0 ->
    tbl (dent w u j) <> 0 -> tbl (dent w t i) <> tbl (dent w u j)
}.

Lemma sum_zero n f : (forall i, 0 <= i < n -> f i = 0) -> sum n f = 0.
Proof.
  intros H. rewrite (sum_ext n f (fun _ => 0)) by done. unfold sum.
  induction (Z.to_nat n) as [|m IH]; [done|]. cbn. lia.
Qed.

Lemma sum_cases n f : sum n f = 0 \/ exists i, 0 <= i < n /\ f i <> 0.
Proof.
  destruct (decide (0 <= n)) as [Hn|Hn]; [|left; apply sum_zero; lia].
  revert n Hn. apply natlike_ind; [by left|]. intros n Hn [IH|(i & Hi & Hf)].
  - rewrite <- Z.add_1_r, sum_next, IH, Z.add_0_l by done.
    destruct (decide (f n = 0)) as [|Hf]; [by left|right]. exists n. split; [lia|done].
  - right. exists i. split; [lia|done].
Qed.

#[local] Opaque sum.

Lemma row_refs_range i p f : 0 <= sum 1024 (fun j => reference i p (f j)).
Proof. apply (sum_mono 1024 1024); [lia|]. intros. apply reference_range. Qed.

Section copy.
Context (mode : copy_mode) (t d : Z) (l : list Z) (s0 : machine).

#[local] Abbreviation old := (tent (words s0) t).

(** The state before the table at [k] is copied; [taken] are the pages of the
    copy so far, [li] the free ones. *)
Record tree_inv (k : Z) (taken li : list Z) (s : machine) : Prop := {
  ti_list : l = taken ++ li /\ Z.of_nat (length taken) = 1 + tables (words s0) t k;
  ti_alloc : allocator s li;
  ti_frame : frame s0 s;
  ti_tree : tree_ok (words s) li t;
  ti_copy : tree_ok (words s) li d;
  ti_apart : apart (words s) t d;
  ti_dir : forall i, 0 <= i < 1024 -> dent (words s) t i = dent (words s0) t i;
  ti_src : forall i j, 0 <= i < 1024 -> 0 <= j < 1024 ->
    tent (words s) t i j = if i <? k then shared mode (old i j) else old i j;
  ti_dst : forall i j, 0 <= i < 1024 -> 0 <= j < 1024 ->
    tent (words s) d i j = if i <? k then shared mode (old i j) else 0;
  ti_rest : forall i, k <= i < 1024 -> dent (words s) d i = 0;
  ti_bits : forall i, 0 <= i < k -> tbl (dent (words s0) t i) <> 0 ->
    dent (words s) d i mod PAGE_SIZE = dent (words s0) t i mod PAGE_SIZE /\
    tbl (dent (words s) d i) <> 0;
  ti_uses : forall p, aligned p -> p ∉ taken ->
    uses s p = counted (uses s0 p) (tree_refs (words s0) t k p);
  ti_taken : forall p, p ∈ taken -> uses s p = Some 1 /\
    (p = d \/ exists i, 0 <= i < k /\ tbl (dent (words s) d i) = p);
  ti_own : forall i, 0 <= i < 1024 -> tbl (dent (words s) d i) <> 0 -> tbl (dent (words s) d i) ∈ taken;
  ti_other : forall a, ~ in_page d a -> (forall p, p ∈ taken -> ~ in_page p a) ->
    (forall i, 0 <= i < 1024 -> tbl (dent (words s0) t i) <> 0 -> ~ in_page (tbl (dent (words s0) t i)) a) ->
    words s !! a = words s0 !! a
}.

(** The references that the copy adds can be counted. *)
Definition tree_countable : Prop := forall i j, 0 <= i < 1024 -> 0 <= j < 1024 ->
  let x := old i j in x <> 0 -> exists n, uses s0 (tbl x) = Some n /\
    ((i <? KERNEL_VIRT_PDINDX) = true -> n <> MAP_PAGE_RESERVED -> used s0 (tbl x) n /\
      n + tree_refs (words s0) t 1024 (tbl x) < MAP_PAGE_RESERVED).

Context (Hback : pages_backed s0) (Htree : tree_ok (words s0) l t) (Hcount : tree_countable)
  (Halloc : allocator s0 l).

Lemma tree_refs_next k p : 0 <= k ->
  tree_refs (words s0) t (k + 1) p =
    tree_refs (words s0) t k p + sum 1024 (fun j => reference k p (old k j)).
Proof. intros Hk. unfold tree_refs. by rewrite sum_next. Qed.

Lemma tree_refs_bound k p : 0 <= k <= 1024 ->
  0 <= tree_refs (words s0) t k p <= tree_refs (words s0) t 1024 p.
Proof. intros Hk. apply sum_mono; [lia|]. intros. apply row_refs_range. Qed.

(** Without a table there is nothing to copy. *)
Lemma tree_skip k taken li s :
  0 <= k < 1024 -> tbl (dent (words s0) t k) = 0 -> tree_inv k taken li s ->
  copy_table mode (VIRT_MEM t) (VIRT_MEM d) k s = Ok (tt, s) /\ tree_inv (k + 1) taken li s.
Proof.
  intros Hk Hz [Hl Ha Hf Ht Hd Hap Hdir Hs Hdst Hr Hb Hu Hn Ho Hoth].
  assert (forall j, old k j = 0) as Hold by (intros j; unfold tent; by rewrite Hz).
  destruct (tr_dir _ _ _ Ht) as (? & _ & Htm & _), (tr_dir _ _ _ Hd) as (? & _ & Hdm & _).
  unfold PAGE_SIZE in Htm, Hdm. split.
  - unfold copy_table. destruct (dent_at _ _ _ _ Ht Hk) as [He Her].
    rewrite (kernel_bind_run _ _ _ _ _ (run_word t k _ s ltac:(lia) He)).
    fold (tbl (dent (words s) t k)). rewrite Hdir, Hz by done. change (PHYS_MEM (VIRT_MEM 0) =? 0) with true.
    cbv iota. destruct (dent_at _ _ _ _ Hd Hk) as [Hdk _]. rewrite Hr in Hdk by lia.
    rewrite run_set_word by (lia || by eexists). rewrite insert_id by done. by destruct s.
  - split; try done.
    + destruct Hl as [-> Hlen]. split; [done|]. unfold tables in *. rewrite sum_next, Hz by lia.
      cbn. lia.
    + intros i j Hi Hj. rewrite Hs by done. destruct (Z.ltb_spec i k), (Z.ltb_spec i (k + 1)); try done; try lia.
      assert (i = k) as -> by lia. by rewrite Hold.
    + intros i j Hi Hj. rewrite Hdst by done. destruct (Z.ltb_spec i k), (Z.ltb_spec i (k + 1)); try done; try lia.
      assert (i = k) as -> by lia. by rewrite Hold.
    + intros i Hi. apply Hr. lia.
    + intros i Hi Hne. destruct (decide (i = k)) as [->|]; [done|]. apply Hb; [lia|done].
    + intros p Hp Hin. rewrite Hu by done. rewrite tree_refs_next by lia.
      rewrite (sum_zero 1024), Z.add_0_r; [done|]. intros j _. rewrite Hold.
      unfold reference, refers. by destruct (_ <? _).
    + intros p Hp. destruct (Hn p Hp) as [? [?|(i & ? & ?)]]; split; try done; [by left|right].
      exists i. split; [lia|done].
Qed.

(** User space does not refer to free pages. *)
Lemma free_not_referenced q k : q ∈ l -> 0 <= k < 1024 -> sum 1024 (fun j => reference k q (old k j)) = 0.
Proof.
  intros Hq Hk. apply sum_zero. intros j Hj. unfold reference, refers.
  destruct (k <? KERNEL_VIRT_PDINDX) eqn:Hi; [|done]. destruct (Z.eqb_spec (old k j) 0) as [|Hx]; [done|].
  destruct (Z.eqb_spec (tbl (old k j)) q) as [Heq|]; [exfalso|done].
  destruct (Hcount k j Hk Hj Hx) as (n & Hn & Hb).
  assert (page s0 q) as Hp by (apply (proj1 (Forall_forall _ _) (al_pages _ _ Halloc) _ Hq)).
  apply (uses_free s0 l q Halloc Hp) in Hq. rewrite Heq, Hq in Hn. injection Hn as <-.
  by destruct (Hb Hi ltac:(done)) as [(_ & _ & ? & _) _].
Qed.

(** The counters add up table by table. *)
Lemma refs_step k q : 0 <= k < 1024 -> aligned q ->
  counted (counted (uses s0 q) (tree_refs (words s0) t k q))
    (sum 1024 (fun j => reference k q (old k j))) =
  counted (uses s0 q) (tree_refs (words s0) t (k + 1) q).
Proof.
  intros Hk Hq. rewrite tree_refs_next by lia. apply counted_add; [apply tree_refs_bound; lia|].
  intros n Hn Hr. destruct (sum_cases 1024 (fun j => reference k q (old k j))) as [|(j & Hj & Hne)];
    [by left|right]. cbv beta in Hne. unfold reference, refers in Hne.
  destruct (k <? KERNEL_VIRT_PDINDX) eqn:Hi; [|done]. destruct (Z.eqb_spec (old k j) 0) as [|Hx]; [done|].
  destruct (Z.eqb_spec (tbl (old k j)) q) as [<-|]; [|done].
  destruct (Hcount k j Hk Hj Hx) as (n' & Hn' & Hb). rewrite Hn in Hn'. injection Hn' as <-.
  destruct (Hb Hi Hr) as [_ Hlim]. pose proof (tree_refs_bound k (tbl (old k j)) ltac:(lia)). lia.
Qed.

(** The counter of a page while the table at [k] is copied to [p]. *)
Lemma copy_countable k p taken li s s1 x :
  0 <= k < 1024 -> tree_inv k taken (p :: li) s -> allocator s (p :: li) ->
  mem_end s1 = mem_end s -> aligned p ->
  (forall q, aligned q -> uses s1 q = if q =? p then Some 1 else uses s q) ->
  (exists j, 0 <= j < 1024 /\ x = old k j) -> x <> 0 ->
  exists n, uses s1 (tbl x) = Some n /\
    ((k <? KERNEL_VIRT_PDINDX) = true -> n <> MAP_PAGE_RESERVED -> used s1 (tbl x) n /\
      n + sum 1024 (fun j => reference k (tbl x) (old k j)) < MAP_PAGE_RESERVED).
Proof.
  intros Hk Hinv Hal He Hpa Hu1 (j & Hj & ->) Hx. set (x := old k j) in *.
  destruct (Hcount k j Hk Hj Hx) as (n & Hn & Hb). fold x in Hn, Hb.
  rewrite (Hu1 _ (aligned_tbl _)). destruct (Z.eqb_spec (tbl x) p) as [Heq|Hne].
  { exists 1. split; [done|]. intros Hi _. exfalso.
    assert (n <> MAP_PAGE_RESERVED /\ n <> 0 \/ n = MAP_PAGE_RESERVED) as Hcase.
    { destruct (decide (n = MAP_PAGE_RESERVED)) as [|Hnr]; [by right|left].
      by destruct (Hb Hi Hnr) as [(_ & _ & ? & _) _]. }
    destruct (ti_list _ _ _ _ Hinv) as [Hl _].
    assert (p ∈ l) as Hin by (rewrite Hl; set_solver).
    assert (page s0 p) as Hp by (apply (proj1 (Forall_forall _ _) (al_pages _ _ Halloc) _ Hin)).
    apply (uses_free s0 l p Halloc Hp) in Hin. rewrite <- Heq, Hn in Hin. injection Hin as ->.
    by destruct Hcase as [[_ ?]|?]. }
  destruct (decide (tbl x ∈ taken)) as [Hin|Hnin].
  - destruct (ti_taken _ _ _ _ Hinv _ Hin) as [Hone _]. exists 1. split; [exact Hone|].
    intros Hi _. exfalso. destruct (ti_list _ _ _ _ Hinv) as [Hl _].
    assert (tbl x ∈ l) as Hinl by (rewrite Hl; set_solver).
    assert (page s0 (tbl x)) as Hp by (apply (proj1 (Forall_forall _ _) (al_pages _ _ Halloc) _ Hinl)).
    apply (uses_free s0 l _ Halloc Hp) in Hinl. rewrite Hn in Hinl. injection Hinl as ->.
    destruct (Hb Hi ltac:(done)) as [(_ & _ & ? & _) _]. done.
  - pose proof (ti_uses _ _ _ _ Hinv _ (aligned_tbl x) Hnin) as Hu. rewrite Hn in Hu. cbn in Hu.
    eexists. split; [exact Hu|]. intros Hi. destruct (Z.eqb_spec n MAP_PAGE_RESERVED) as [|Hnr]; [done|].
    intros _. destruct (Hb Hi Hnr) as [(Hp & _ & Hn0 & _) Hlim].
    pose proof (tree_refs_bound k (tbl x) ltac:(lia)) as Hk1.
    pose proof (tree_refs_bound (k + 1) (tbl x) ltac:(lia)) as Hk2. rewrite tree_refs_next in Hk2 by lia.
    pose proof (proj1 (Forall_lookup _ _) (al_range _ _ Halloc) _ _ Hn) as Hrn. cbv beta in Hrn.
    pose proof (row_refs_range k (tbl x) (old k)). change MAP_PAGE_RESERVED with 32768 in *.
    split; [|lia]. split; [|split; [|change MAP_PAGE_RESERVED with 32768; lia]].
    + unfold page in *. by rewrite He, (fr_end _ _ (ti_frame _ _ _ _ Hinv)).
    + rewrite (Hu1 _ (aligned_tbl _)). rewrite (proj2 (Z.eqb_neq _ p)) by done. exact Hu.
Qed.

(** The table at [k] has been copied to [p]. *)
Record row_copied (k p : Z) (li : list Z) (s s2 : machine) : Prop := {
  rc_alloc : allocator s2 li;
  rc_frame : frame s s2;
  rc_src : forall j, 0 <= j < 1024 ->
    words s2 !! (tbl (dent (words s0) t k) + 4 * j) = Some (shared mode (old k j));
  rc_dst : forall j, 0 <= j < 1024 -> words s2 !! (p + 4 * j) = Some (shared mode (old k j));
  rc_other : forall a, ~ in_page (tbl (dent (words s0) t k)) a -> ~ in_page p a ->
    words s2 !! a = words s !! a;
  rc_uses : forall q, aligned q -> uses s2 q =
    counted (if q =? p then Some 1 else uses s q) (sum 1024 (fun j => reference k q (old k j)))
}.

(** A page is taken, and the table at [k] copied to it. *)
Lemma tree_row k taken p li s :
  0 <= k < 1024 -> tree_inv k taken (p :: li) s -> tbl (dent (words s0) t k) <> 0 ->
  let src := tbl (dent (words s0) t k) in
  exists s1 s2, kmalloc_page s = Ok (p, s1) /\
    for_each 0 (Z.to_nat PTRS_PER_PAGE) (copy_entry mode k (VIRT_MEM src) (VIRT_MEM p)) s1 =
      Ok (tt, s2) /\
    row_copied k p li s s2.
Proof.
  intros Hk Hinv Hne src. pose proof (ti_alloc _ _ _ _ Hinv) as Hal.
  pose proof (frame_backed _ _ (ti_frame _ _ _ _ Hinv) Hback) as Hb.
  pose proof (al_pages _ _ Hal) as [[Hpa Hpr] _]%Forall_cons. destruct (al_end _ _ Hal) as [Hend _].
  pose proof (al_nodup _ _ Hal) as [Hpl _]%NoDup_cons.
  destruct (kmalloc_page_run s p li Hal Hb)
    as (s1 & Hrun & Hal1 & He1 & Hc1 & Hf1 & Hm1 & Hdom1 & Hzero & Ho).
  assert (aligned p) as Hap by (split; [done|lia]).
  destruct (page_mapped s _ p Hal ltac:(by split)) as (n & Hn & _).
  assert (forall q, aligned q -> uses s1 q = if q =? p then Some 1 else uses s q) as Hu1.
  { intros q Hq. unfold uses at 1. rewrite Hm1. exact (uses_recount s true p 1 n q Hap Hq Hn). }
  assert (dent (words s) t k = dent (words s0) t k) as Hdk by (by apply (ti_dir _ _ _ _ Hinv)).
  destruct (dent_table _ _ _ k (ti_tree _ _ _ _ Hinv) Hk) as (Hpw & _ & Hsl); [by rewrite Hdk|].
  rewrite Hdk in Hpw, Hsl. fold src in Hpw, Hsl. apply not_elem_of_cons in Hsl as [Hsp Hsl].
  destruct (dent_at _ _ _ _ (ti_tree _ _ _ _ Hinv) Hk) as [_ Her]. rewrite Hdk in Her.
  destruct (tbl_range _ Her) as (Hsa & Hs0 & Hsm). fold src in Hsa, Hs0, Hsm.
  assert (forall j, 0 <= j < 1024 -> words s1 !! (src + 4 * j) = Some (old k j)) as Hsrc.
  { intros j Hj. rewrite Ho by (by apply not_in_page).
    pose proof (ti_src _ _ _ _ Hinv k j Hk Hj) as Ht. rewrite Z.ltb_irrefl in Ht.
    unfold tent at 1 in Ht. rewrite Hdk, (proj2 (Z.eqb_neq (tbl _) 0)) in Ht by done.
    fold src in Ht. rewrite <- Ht. by destruct (Hpw j Hj) as [x ->]. }
  assert (forall j, 0 <= j < 1024 -> row src s1 j = old k j) as Hrow
    by (intros j Hj; unfold row; by rewrite Hsrc).
  destruct (copy_row mode k src p li s1) as (s2 & Hloop & [Hal2 Hf2 Hs2 Hd2 Ho2 Hu2]); try done.
  - split_and!; [done|unfold PAGE_SIZE; lia|done].
  - intros j Hj. rewrite Hsrc by done. by eexists.
  - intros j Hj. rewrite Hrow by done. intros Hx.
    destruct (copy_countable k p taken li s s1 (old k j) Hk Hinv Hal He1 Hap Hu1
      ltac:(by exists j) Hx) as (m & Hm & Hlim).
    exists m. split; [done|]. intros Hi Hr. destruct (Hlim Hi Hr) as [? ?]. split; [done|].
    by rewrite (sum_ext _ _ (fun j' => reference k (tbl (old k j)) (old k j')))
      by (intros j' Hj'; cbv beta; by rewrite Hrow).
  - assert (forall j, 0 <= j < 1024 -> (j <? 1024) = true) as Hlt by (intros; apply Z.ltb_lt; lia).
    exists s1, s2. split; [exact Hrun|]. split; [exact Hloop|]. clear Hloop Hrun.
    split; [exact Hal2| | | | |].
    + apply (frame_trans _ s1); [by split|exact Hf2].
    + intros j Hj. by rewrite Hs2, (Hlt j Hj), Hrow.
    + intros j Hj. by rewrite Hd2, (Hlt j Hj), Hrow.
    + intros a Ha Ha'. by rewrite Ho2, Ho.
    + intros q Hq. rewrite (Hu2 q Hq), (Hu1 q Hq).
      rewrite (sum_ext 1024 (fun j => reference k q (row src s1 j)) (fun j => reference k q (old k j)));
        [reflexivity|]. intros j Hj. cbv beta. by rewrite Hrow.
Qed.

(** The directory entry of the new table. *)
Lemma dir_bits p e : aligned p -> 0 <= p < 2 ^ 32 -> 0 <= e < 2 ^ 32 ->
  let f := Z.lor (PHYS_MEM (VIRT_MEM p)) (land_not 32 e PAGE_MASK) in
  tbl f = p /\ 0 <= f < 2 ^ 32 /\ f mod PAGE_SIZE = e mod PAGE_SIZE.
Proof.
  intros [Hp _] Hr He f. subst f. rewrite phys_virt by done. unfold land_not.
  change (Z.lxor (2 ^ 32 - 1) PAGE_MASK) with (2 ^ 12 - 1). rewrite land_mask by lia.
  pose proof (Z.mod_pos_bound e (2 ^ 12) ltac:(lia)) as Hm.
  destruct (tbl_join p (e mod 2 ^ 12) Hr Hp ltac:(unfold PAGE_SIZE; lia)) as [Ht Hf].
  split; [done|]. split; [done|]. rewrite (lor_low_add p _ 12) by (done || lia).
  unfold PAGE_SIZE in *. change 4096 with (2 ^ 12) in *. rewrite <- Zplus_mod_idemp_l, Hp.
  by rewrite Z.add_0_l, Z.mod_mod by lia.
Qed.

Section words.
Context (k : Z) (taken : list Z) (p : Z) (li : list Z) (s : machine) (w2 : gmap Z Z) (f : Z).
#[local] Abbreviation src := (tbl (dent (words s0) t k)).
#[local] Abbreviation w' := (<[d + 4 * k := f]> w2).
Context (Hk : 0 <= k < 1024) (Hinv : tree_inv k taken (p :: li) s) (Hne : src <> 0)
  (Hp0 : p <> 0) (Hpa : aligned p) (Hpl : p ∉ li) (Hpw : page_words (words s) p)
  (Hf : tbl f = p) (Hfr : 0 <= f < 2 ^ 32)
  (Hdom : dom w2 = dom (words s))
  (Hsrc : forall j, 0 <= j < 1024 -> w2 !! (src + 4 * j) = Some (shared mode (old k j)))
  (Hdst : forall j, 0 <= j < 1024 -> w2 !! (p + 4 * j) = Some (shared mode (old k j)))
  (Hoth : forall a, ~ in_page src a -> ~ in_page p a -> w2 !! a = words s !! a).

(** The pages of the two trees. *)
Lemma step_pages :
  tree_ok (words s) (p :: li) t /\ tree_ok (words s) (p :: li) d /\ apart (words s) t d /\
  src = tbl (dent (words s) t k) /\ src <> d /\ src <> t /\ src <> p /\ p <> t /\ p <> d /\ t <> d.
Proof.
  destruct Hinv as [_ _ _ Ht Hd Hap Hdir _ _ _ _ _ _ _ _]. split_and!; try done.
  - by rewrite Hdir.
  - rewrite <- Hdir by done. apply (ap_left _ _ _ Hap); [done|by rewrite Hdir].
  - rewrite <- Hdir by done. apply (dent_table _ (p :: li)); [done|done|by rewrite Hdir].
  - rewrite <- Hdir by done. destruct (dent_table _ _ _ k Ht Hk) as (_ & _ & Hn); [by rewrite Hdir|].
    by apply not_elem_of_cons in Hn as [? _].
  - destruct (tr_dir _ _ _ Ht) as (_ & _ & _ & Hn). apply not_elem_of_cons in Hn as [? _]. congruence.
  - destruct (tr_dir _ _ _ Hd) as (_ & _ & _ & Hn). apply not_elem_of_cons in Hn as [? _]. congruence.
  - apply (ap_roots _ _ _ Hap).
Qed.

Lemma step_other q j : q mod PAGE_SIZE = 0 -> q <> src -> q <> p -> q <> d -> 0 <= j < 1024 ->
  w' !! (q + 4 * j) = words s !! (q + 4 * j).
Proof.
  intros Hq Hqs Hqp Hqd Hj. destruct step_pages as (_ & Hd & _).
  destruct (tr_dir _ _ _ Hd) as (_ & Hda & _ & _).
  rewrite lookup_insert_ne by (apply not_eq_sym; by apply pages_apart).
  apply Hoth; apply not_in_page; try done; apply aligned_tbl || apply Hpa.
Qed.

Lemma step_dir_t i : 0 <= i < 1024 -> w' !! (t + 4 * i) = words s !! (t + 4 * i).
Proof.
  intros Hi. destruct step_pages as (Ht & _ & _ & _ & _ & ? & _ & ? & _ & ?).
  destruct (tr_dir _ _ _ Ht) as (_ & Hta & _ & _). by apply step_other.
Qed.

Lemma step_dir_d i : 0 <= i < 1024 ->
  w' !! (d + 4 * i) = if i =? k then Some f else words s !! (d + 4 * i).
Proof.
  intros Hi. destruct step_pages as (_ & Hd & _ & _ & ? & _ & _ & _ & ? & _).
  destruct (tr_dir _ _ _ Hd) as (_ & Hda & _ & _). destruct (Z.eqb_spec i k) as [->|Hik].
  - apply lookup_insert_eq.
  - rewrite lookup_insert_ne by lia. apply Hoth; apply not_in_page; try done;
      apply aligned_tbl || apply Hpa.
Qed.

Lemma step_dom : dom w' = dom (words s).
Proof.
  rewrite dom_insert_lookup_L; [done|]. apply elem_of_dom. rewrite Hdom. apply elem_of_dom.
  destruct step_pages as (_ & Hd & _). destruct (dent_at _ _ _ _ Hd Hk) as [-> _]. by eexists.
Qed.

Lemma step_trees : tree_ok w' li t /\ tree_ok w' li d.
Proof.
  destruct step_pages as (Ht & Hd & _). split.
  - apply (tree_ok_agree (words s) _ (p :: li)); [done|by apply step_dir_t|apply step_dom|set_solver].
  - apply (tree_ok_new (words s) _ _ _ k f); try done; [by rewrite Hf|by rewrite Hf|by rewrite Hf| |].
    + by apply step_dir_d.
    + apply step_dom.
Qed.

Lemma step_dent_t i : 0 <= i < 1024 -> dent w' t i = dent (words s) t i.
Proof. intros Hi. unfold dent. by rewrite step_dir_t. Qed.
Lemma step_dent_d i : 0 <= i < 1024 -> dent w' d i = if i =? k then f else dent (words s) d i.
Proof. intros Hi. unfold dent. rewrite step_dir_d by done. by destruct (i =? k). Qed.

Lemma step_apart : apart w' t d.
Proof.
  destruct step_pages as (Ht & Hd & Hap & Hs & Hsd & Hst & Hsp & Hpt & Hpd & Htd). split.
  - done.
  - intros i Hi. rewrite step_dent_t by done. by apply (ap_left _ _ _ Hap).
  - intros j Hj. rewrite step_dent_d by done. destruct (j =? k); [by rewrite Hf|].
    by apply (ap_right _ _ _ Hap).
  - intros i j Hi Hj. rewrite step_dent_t, step_dent_d by done. destruct (j =? k).
    + rewrite Hf. intros Hti _. destruct (dent_table _ _ _ i Ht Hi Hti) as (_ & _ & Hn).
      apply not_elem_of_cons in Hn as [Hn _]. exact Hn.
    + by apply (ap_tables _ _ _ Hap).
Qed.

Lemma step_tent_t i j : 0 <= i < 1024 -> 0 <= j < 1024 ->
  tent w' t i j = if i <? k + 1 then shared mode (old i j) else old i j.
Proof.
  intros Hi Hj. destruct step_pages as (Ht & Hd & Hap & Hs & Hsd & Hst & Hsp & Hpt & Hpd & Htd).
  destruct (tr_dir _ _ _ Hd) as (_ & Hda & _ & _). unfold tent at 1. rewrite step_dent_t by done.
  destruct (decide (i = k)) as [->|Hik].
  - rewrite <- Hs, (proj2 (Z.eqb_neq src 0)), (proj2 (Z.ltb_lt k (k + 1))) by (done || lia).
    rewrite lookup_insert_ne, Hsrc; [done|done|].
    apply not_eq_sym, pages_apart; try done. apply aligned_tbl.
  - transitivity (tent (words s) t i j).
    + unfold tent. destruct (Z.eqb_spec (tbl (dent (words s) t i)) 0) as [|Hti]; [done|].
      rewrite step_other; [done|apply aligned_tbl| | | |done].
      * rewrite Hs. by apply (dent_distinct _ (p :: li)).
      * destruct (dent_table _ _ _ i Ht Hi Hti) as (_ & _ & Hn).
        apply not_elem_of_cons in Hn as [Hn _]. exact Hn.
      * by apply (ap_left _ _ _ Hap).
    + rewrite (ti_src _ _ _ _ Hinv) by done.
      destruct (Z.ltb_spec i k), (Z.ltb_spec i (k + 1)); done || lia.
Qed.

Lemma step_tent_d i j : 0 <= i < 1024 -> 0 <= j < 1024 ->
  tent w' d i j = if i <? k + 1 then shared mode (old i j) else 0.
Proof.
  intros Hi Hj. destruct step_pages as (Ht & Hd & Hap & Hs & Hsd & Hst & Hsp & Hpt & Hpd & Htd).
  destruct (tr_dir _ _ _ Hd) as (_ & Hda & _ & _). unfold tent at 1. rewrite step_dent_d by done.
  destruct (Z.eqb_spec i k) as [->|Hik].
  - rewrite Hf, (proj2 (Z.eqb_neq p 0)), (proj2 (Z.ltb_lt k (k + 1))) by (done || lia).
    rewrite lookup_insert_ne, Hdst; [done|done|].
    apply not_eq_sym, pages_apart; try done. apply Hpa.
  - transitivity (tent (words s) d i j).
    + unfold tent. destruct (Z.eqb_spec (tbl (dent (words s) d i)) 0) as [|Hti]; [done|].
      rewrite step_other; [done|apply aligned_tbl| | | |done].
      * rewrite Hs. apply not_eq_sym. apply (ap_tables _ _ _ Hap); try done. by rewrite <- Hs.
      * destruct (dent_table _ _ _ i Hd Hi Hti) as (_ & _ & Hn).
        apply not_elem_of_cons in Hn as [Hn _]. exact Hn.
      * by apply (dent_table _ (p :: li)).
    + rewrite (ti_dst _ _ _ _ Hinv) by done.
      destruct (Z.ltb_spec i k), (Z.ltb_spec i (k + 1)); done || lia.
Qed.

Lemma step_all : (tree_ok w' li t /\ tree_ok w' li d) /\ apart w' t d /\ dom w' = dom (words s) /\
  (forall i, 0 <= i < 1024 -> dent w' t i = dent (words s) t i) /\
  (forall i, 0 <= i < 1024 -> dent w' d i = if i =? k then f else dent (words s) d i) /\
  (forall i j, 0 <= i < 1024 -> 0 <= j < 1024 ->
    tent w' t i j = if i <? k + 1 then shared mode (old i j) else old i j) /\
  (forall i j, 0 <= i < 1024 -> 0 <= j < 1024 ->
    tent w' d i j = if i <? k + 1 then shared mode (old i j) else 0).
Proof.
  split; [apply step_trees|]. split; [apply step_apart|]. split; [apply step_dom|].
  split; [apply step_dent_t|]. split; [apply step_dent_d|]. split; [apply step_tent_t|apply step_tent_d].
Qed.
End words.

(** The first free page. *)
Lemma first_page k taken p li s : tree_inv k taken (p :: li) s ->
  aligned p /\ 0 < p < 2 ^ 32 /\ p ∉ li /\ page_words (words s) p.
Proof.
  intros Hinv. pose proof (ti_alloc _ _ _ _ Hinv) as Hal.
  pose proof (al_pages _ _ Hal) as [Hpage _]%Forall_cons. pose proof Hpage as [Hpa Hpr].
  destruct (al_end _ _ Hal) as [Hend _]. pose proof (al_nodup _ _ Hal) as [Hpl _]%NoDup_cons.
  split; [split; [done|lia]|]. split; [lia|]. split; [done|].
  by apply (frame_backed _ _ (ti_frame _ _ _ _ Hinv) Hback p).
Qed.

(** The counters after the table at [k]. *)
Lemma step_counts k taken p li s s2 :
  0 <= k < 1024 -> tree_inv k taken (p :: li) s -> row_copied k p li s s2 ->
  (forall q, aligned q -> q ∉ taken ++ [p] ->
    uses s2 q = counted (uses s0 q) (tree_refs (words s0) t (k + 1) q)) /\
  (forall q, q ∈ taken ++ [p] -> uses s2 q = Some 1).
Proof.
  intros Hk Hinv Hrow. destruct (ti_list _ _ _ _ Hinv) as [Hl _]. split.
  - intros q Hq [Hqt Hqp]%not_elem_of_app. apply not_elem_of_cons in Hqp as [Hqp _].
    rewrite <- (refs_step k q Hk Hq), <- (ti_uses _ _ _ _ Hinv) by done.
    rewrite (rc_uses _ _ _ _ _ Hrow q Hq). by rewrite (proj2 (Z.eqb_neq q p)).
  - intros q Hq. assert (q ∈ l) as Hql by (rewrite Hl; set_solver).
    assert (aligned q) as Hqa.
    { pose proof (proj1 (Forall_forall _ _) (al_pages _ _ Halloc) _ Hql) as [? ?]. split; [done|lia]. }
    rewrite (rc_uses _ _ _ _ _ Hrow q Hqa), (free_not_referenced q k Hql Hk), counted_0.
    apply elem_of_app in Hq as [Hq|[->|[]%elem_of_nil]%elem_of_cons]; [|by rewrite Z.eqb_refl].
    destruct (ti_taken _ _ _ _ Hinv q Hq) as [-> _]. by destruct (q =? p).
Qed.

(** The entry of the directory completes the step. *)
Lemma step_inv k taken p li s s2 :
  0 <= k < 1024 -> tree_inv k taken (p :: li) s -> tbl (dent (words s0) t k) <> 0 ->
  row_copied k p li s s2 ->
  let f := Z.lor (PHYS_MEM (VIRT_MEM p)) (land_not 32 (dent (words s0) t k) PAGE_MASK) in
  tree_inv (k + 1) (taken ++ [p]) li (s2 <| words := <[d + 4 * k := f]> (words s2) |>).
Proof.
  intros Hk Hinv Hne Hrow f. destruct (first_page k taken p li s Hinv) as (Hap & Hp0 & Hpl & Hpw).
  destruct (dent_at _ _ _ _ Htree Hk) as [_ Her].
  destruct (dir_bits p _ Hap ltac:(lia) Her) as (Hft & Hfr & Hfb). fold f in Hft, Hfr, Hfb.
  pose proof Hrow as [Hal2 Hf2 Hws Hwp Hwo _].
  destruct (step_all k taken p li s (words s2) f Hk Hinv Hne ltac:(lia) Hap Hpl Hpw Hft Hfr
    (fr_dom _ _ Hf2) Hws Hwp Hwo) as ([Htt' Htd'] & Hap' & Hdom' & Hdt' & Hdd' & Hte & Htd2).
  destruct (ti_list _ _ _ _ Hinv) as [Hl Hlen].
  destruct (step_counts k taken p li s s2 Hk Hinv Hrow) as [Hu Hone].
  split; unfold upd; cbn [words]; try done.
  - split; [by rewrite Hl, <- app_assoc|]. rewrite length_app. cbn. unfold tables in *.
    rewrite sum_next, (proj2 (Z.eqb_neq (tbl (dent (words s0) t k)) 0)) by (done || lia). lia.
  - destruct (tr_dir _ _ _ (ti_copy _ _ _ _ Hinv)) as (_ & Hda & _ & Hdl).
    apply allocator_write; [done|]. apply (page_word_not_free s2); [done|done| |done].
    by apply not_elem_of_cons in Hdl as [_ ?].
  - apply (frame_trans _ s); [apply (ti_frame _ _ _ _ Hinv)|]. destruct Hf2. by split.
  - intros i Hi. rewrite Hdt' by done. by apply (ti_dir _ _ _ _ Hinv).
  - intros i Hi. rewrite Hdd', (proj2 (Z.eqb_neq i k)) by lia. apply (ti_rest _ _ _ _ Hinv). lia.
  - intros i Hi Hti. rewrite Hdd' by lia. destruct (Z.eqb_spec i k) as [->|].
    + rewrite Hft. split; [exact Hfb|lia].
    + apply (ti_bits _ _ _ _ Hinv); [lia|done].
  - intros q Hq. split; [by apply Hone|].
    apply elem_of_app in Hq as [Hq|[->|[]%elem_of_nil]%elem_of_cons].
    + destruct (ti_taken _ _ _ _ Hinv q Hq) as [_ [?|(i & Hi & Hti)]]; [by left|right].
      exists i. split; [lia|]. by rewrite Hdd', (proj2 (Z.eqb_neq i k)) by lia.
    + right. exists k. split; [lia|]. by rewrite Hdd', Z.eqb_refl.
  - intros i Hi. rewrite Hdd' by done. destruct (i =? k).
    + rewrite Hft. intros _. set_solver.
    + intros Hti. apply elem_of_app. left. by apply (ti_own _ _ _ _ Hinv).
  - intros a Had Hat Hai. rewrite lookup_insert_ne by (intros <-; apply Had; unfold in_page, PAGE_SIZE; lia).
    rewrite Hwo; [|by apply Hai|apply Hat; set_solver].
    apply (ti_other _ _ _ _ Hinv); [done| |done]. intros q Hq. apply Hat. set_solver.
Qed.

(** One table more. *)
Lemma tree_step k taken p li s :
  0 <= k < 1024 -> tree_inv k taken (p :: li) s -> tbl (dent (words s0) t k) <> 0 ->
  exists s', copy_table mode (VIRT_MEM t) (VIRT_MEM d) k s = Ok (tt, s') /\
    tree_inv (k + 1) (taken ++ [p]) li s'.
Proof.
  intros Hk Hinv Hne. destruct (tree_row k taken p li s Hk Hinv Hne) as (s1 & s2 & Hrun & Hloop & Hrow).
  eexists. split; [|by apply (step_inv k taken p li s s2)].
  destruct (step_pages k taken p li s Hk Hinv Hne) as (Htt & Htd & _ & Hs & _ & Hst & _ & Hpt & _).
  destruct (dent_at _ _ _ _ Htt Hk) as [Hek _]. rewrite (ti_dir _ _ _ _ Hinv) in Hek by done.
  destruct (tr_dir _ _ _ Htt) as (Ht0 & Hta & Htm & _), (tr_dir _ _ _ Htd) as (Hd0 & Hda & Hdm & _).
  destruct (dent_at _ _ _ _ Htree Hk) as [_ Her]. destruct (tbl_range _ Her) as (Hsa & Hs0 & Hsm).
  destruct (first_page k taken p li s Hinv) as ([Hpa _] & _).
  unfold PAGE_SIZE in Htm, Hdm, Hsm. set (e := dent (words s0) t k) in *.
  assert (words s2 !! (t + 4 * k) = Some e) as Hek2.
  { rewrite (rc_other _ _ _ _ _ Hrow); [done| |]; apply not_in_page; done || by apply not_eq_sym. }
  assert (is_Some (words s2 !! (d + 4 * k))) as Hdk2.
  { apply (frame_mapped s); [apply (rc_frame _ _ _ _ _ Hrow)|].
    destruct (dent_at _ _ _ _ Htd Hk) as [-> _]. by eexists. }
  unfold copy_table. rewrite (kernel_bind_run _ _ _ _ _ (run_word t k e s ltac:(lia) Hek)).
  fold (tbl e). rewrite phys_virt, (proj2 (Z.eqb_neq _ 0)) by (done || lia).
  rewrite (kernel_bind_run _ _ _ _ _ Hrun). rewrite (kernel_bind_run _ _ _ _ _ Hloop).
  rewrite (kernel_bind_run _ _ _ _ _ (run_word t k e s2 ltac:(lia) Hek2)).
  apply run_set_word; [lia|done].
Qed.
End copy.

(** ** The copy *)

Lemma tables_bound w t k n : 0 <= k <= n -> 0 <= tables w t k <= tables w t n.
Proof. intros Hk. apply sum_mono; [done|]. intros i _. by destruct (_ =? 0). Qed.

(** The fresh directory. *)
Lemma tree_inv_start mode t p l s s1 :
  allocator s (p :: l) -> tree_ok (words s) (p :: l) t -> pages_backed s ->
  allocator s1 l -> frame s s1 -> mem_map s1 = <[Z.to_nat (p / PAGE_SIZE) := 1]> (mem_map s) ->
  (forall j, 0 <= j < 1024 -> words s1 !! (p + 4 * j) = Some 0) ->
  (forall a, ~ in_page p a -> words s1 !! a = words s !! a) ->
  tree_inv mode t p (p :: l) s 0 [p] l s1.
Proof.
  intros Hal Ht Hb Hal1 Hf Hm Hz Ho.
  pose proof (al_pages _ _ Hal) as [[Hpa Hpr] _]%Forall_cons. destruct (al_end _ _ Hal) as [Hend _].
  pose proof (al_nodup _ _ Hal) as [Hpl _]%NoDup_cons. assert (aligned p) as Hap by (split; [done|lia]).
  destruct (tr_dir _ _ _ Ht) as (Ht0 & Hta & Htm & Htl). apply not_elem_of_cons in Htl as [Htp Htl].
  assert (forall i, 0 <= i < 1024 -> words s1 !! (t + 4 * i) = words s !! (t + 4 * i)) as Hdir.
  { intros i Hi. apply Ho. by apply not_in_page. }
  assert (forall i, 0 <= i < 1024 -> dent (words s1) t i = dent (words s) t i) as Hdt
    by (intros i Hi; unfold dent; by rewrite Hdir).
  assert (forall i, 0 <= i < 1024 -> dent (words s1) p i = 0) as Hdp
    by (intros i Hi; unfold dent; by rewrite Hz).
  assert (forall i, 0 <= i < 1024 -> tbl (dent (words s) t i) <> 0 -> tbl (dent (words s) t i) <> p) as Htab.
  { intros i Hi Hne. destruct (dent_table _ _ _ i Ht Hi Hne) as (_ & _ & Hn).
    by apply not_elem_of_cons in Hn as [? _]. }
  destruct (page_mapped s _ p Hal ltac:(by split)) as (n & Hn & _).
  split; try done.
  - apply (tree_ok_agree (words s) _ (p :: l)); [done|done|apply (fr_dom _ _ Hf)|set_solver].
  - split.
    + split; [lia|]. split; [done|]. split; [unfold PAGE_SIZE; lia|done].
    + intros i Hi. exists 0. by rewrite Hz.
    + intros i e Hi. rewrite Hz by done. by intros [= <-].
    + intros i j e f Hi Hj _. rewrite !Hz by done. by intros [= <-].
  - split; [done| | |].
    + intros i Hi. rewrite Hdt by done. by apply Htab.
    + intros j Hj. by rewrite Hdp.
    + intros i j Hi Hj _. by rewrite Hdp.
  - intros i j Hi Hj. rewrite (proj2 (Z.ltb_ge i 0)) by lia. unfold tent. rewrite Hdt by done.
    destruct (Z.eqb_spec (tbl (dent (words s) t i)) 0) as [|Hne]; [done|]. rewrite Ho; [done|].
    apply not_in_page; [done|apply aligned_tbl|by apply Htab|done].
  - intros i j Hi Hj. rewrite (proj2 (Z.ltb_ge i 0)) by lia. unfold tent. by rewrite Hdp.
  - intros i Hi. lia.
  - intros q Hq Hqp. change (tree_refs (words s) t 0 q) with 0. rewrite counted_0. unfold uses at 1. rewrite Hm.
    etransitivity; [exact (uses_recount s true p 1 n q Hap Hq Hn)|].
    rewrite (proj2 (Z.eqb_neq q p)); [done|]. intros ->. apply Hqp. left.
  - intros q [->|[]%elem_of_nil]%elem_of_cons. split; [|by left]. unfold uses. rewrite Hm.
    etransitivity; [exact (uses_recount s true p 1 n p Hap Hap Hn)|]. by rewrite Z.eqb_refl.
  - intros i Hi. by rewrite Hdp.
  - intros a Ha _ _. by apply Ho.
Qed.

(** All tables. *)
Lemma copy_tables mode t d l s0 s1 :
  allocator s0 l -> pages_backed s0 -> tree_ok (words s0) l t -> tree_countable t s0 ->
  1 + tables (words s0) t 1024 <= Z.of_nat (length l) ->
  (exists taken li, tree_inv mode t d l s0 0 taken li s1) ->
  exists s2, for_each 0 (Z.to_nat PTRS_PER_PAGE) (copy_table mode (VIRT_MEM t) (VIRT_MEM d)) s1 = Ok (tt, s2) /\
    exists taken li, tree_inv mode t d l s0 1024 taken li s2.
Proof.
  intros Hal Hb Ht Hc Hroom H0.
  apply (for_entries (fun k s => exists taken li, tree_inv mode t d l s0 k taken li s)); [done|].
  intros k s Hk (taken & li & Hinv).
  destruct (decide (tbl (dent (words s0) t k) = 0)) as [Hz|Hne].
  - exists s. destruct (tree_skip mode t d l s0 Ht Hal k taken li s Hk Hz Hinv) as [Hrun Hinv']. by eauto.
  - destruct (ti_list _ _ _ _ _ _ _ _ _ Hinv) as [Hl Hlen]. destruct li as [|p li].
    + exfalso. rewrite app_nil_r in Hl. subst l.
      pose proof (tables_bound (words s0) t (k + 1) 1024 ltac:(lia)) as Hle. unfold tables in Hle at 2.
      rewrite sum_next, (proj2 (Z.eqb_neq _ 0)) in Hle by (done || lia). unfold tables in *. lia.
    + destruct (tree_step mode t d l s0 Hb Ht Hc Hal k taken p li s Hk Hinv Hne) as (s' & Hrun & Hinv').
      by eauto.
Qed.

(** The directory is a fresh page, and the loop copies the tables. *)
Lemma copy_page_tree_run mode t s l :
  allocator s l -> pages_backed s -> tree_ok (words s) l t -> tree_countable t s ->
  1 + tables (words s) t 1024 <= Z.of_nat (length l) ->
  exists d s2 taken li,
    copy_page_tree t mode s = Ok (d, s2 <| if_flag := if_flag s |>) /\
    tree_inv mode t d l (s <| if_flag := false |>) 1024 taken li s2 /\ d ∈ taken.
Proof.
  intros Hal Hb Ht Hc Hroom. set (sb := s <| if_flag := false |>).
  assert (allocator sb l) as Halb by (by destruct Hal).
  destruct l as [|p l].
  { pose proof (tables_bound (words s) t 0 1024 ltac:(lia)). cbn [length] in Hroom. lia. }
  destruct (kmalloc_page_run sb p l Halb Hb)
    as (s1 & Hrun & Hal1 & He1 & Hc1 & Hf1 & Hm1 & Hdom1 & Hzero & Ho).
  pose proof (al_pages _ _ Hal) as [[Hpa Hpr] _]%Forall_cons. destruct (al_end _ _ Hal) as [Hend _].
  pose proof (tree_inv_start mode t p l sb s1 Halb Ht Hb Hal1 ltac:(by split) Hm1 Hzero Ho) as H0.
  destruct (copy_tables mode t p (p :: l) sb s1 Halb Hb Ht Hc Hroom) as (s2 & Hloop & taken & li & Hinv).
  { by exists [p], l. }
  exists p, s2, taken, li. split.
  - unfold copy_page_tree, save_flags, cli, restore_flags. rewrite run_gets, run_modify.
    fold sb. rewrite (kernel_bind_run _ _ _ _ _ Hrun), (kernel_bind_run _ _ _ _ _ Hloop), run_modify.
    by rewrite phys_virt by lia.
  - split; [exact Hinv|]. destruct (ti_list _ _ _ _ _ _ _ _ _ Hinv) as [Hl Hlen].
    destruct taken as [|q taken].
    + pose proof (tables_bound (words sb) t 1024 1024 ltac:(lia)). cbn [length] in Hlen. lia.
    + injection Hl as <- _. left.
Qed.

(** ** Release *)

(** The counter after [k] references fewer. *)
Definition uncounted (o : option Z) (k : Z) : option Z :=
  n ← o; Some (if n =? MAP_PAGE_RESERVED then n else n - k).

Lemma uncounted_add o a b :
  (forall n, o = Some n -> n <> MAP_PAGE_RESERVED -> b = 0 \/ n - a <> MAP_PAGE_RESERVED) ->
  uncounted (uncounted o a) b = uncounted o (a + b).
Proof.
  intros H. destruct o as [n|]; [|done]. cbn. destruct (Z.eqb_spec n MAP_PAGE_RESERVED) as [->|Hn];
    [by rewrite Z.eqb_refl|].
  destruct (H n eq_refl Hn) as [->|Hlt].
  - rewrite Z.sub_0_r, Z.add_0_r. by destruct (n - a =? _).
  - rewrite (proj2 (Z.eqb_neq (n - a) _)) by done. f_equal. lia.
Qed.

Section release.
Context (d : Z) (s0 : machine).

#[local] Abbreviation ent := (tent (words s0) d).

(** The pages of the tree from the table at [k] on. *)
Definition left_pages (k p : Z) : Prop :=
  p = d \/ exists i, k <= i < 1024 /\ tbl (dent (words s0) d i) = p /\ p <> 0.

(** The memory of the pages not yet released is what it was. *)
Record release_inv (k : Z) (refs : Z -> Z) (s : machine) : Prop := {
  re_alloc : exists l, allocator s l;
  re_frame : frame s0 s;
  re_length : length (mem_map s) = length (mem_map s0);
  re_words : forall p j, left_pages k p -> 0 <= j < 1024 ->
    words s !! (p + 4 * j) = words s0 !! (p + 4 * j);
  re_left : forall p, left_pages k p -> uses s p = Some 1;
  re_gone : forall p, left_pages 0 p -> ~ left_pages k p -> uses s p = Some 0;
  re_uses : forall p, aligned p -> p <> 0 -> ~ left_pages 0 p ->
    uses s p = uncounted (uses s0 p) (refs p)
}.

(** What the release needs of the counters. *)
Record releasable (l : list Z) : Prop := {
  rl_alloc : allocator s0 l;
  rl_back : pages_backed s0;
  rl_tree : tree_ok (words s0) l d;
  rl_own : forall p, left_pages 0 p -> page s0 p /\ uses s0 p = Some 1;
  rl_entry : forall i j, 0 <= i < 1024 -> 0 <= j < 1024 -> let x := ent i j in
    exists n, uses s0 (tbl x) = Some n /\
      ((i <? KERNEL_VIRT_PDINDX) = true -> tbl x <> 0 -> n <> MAP_PAGE_RESERVED ->
        page s0 (tbl x) /\ ~ left_pages 0 (tbl x) /\
        tree_refs (words s0) d 1024 (tbl x) <= n < MAP_PAGE_RESERVED)
}.

Context (l : list Z) (Hok : releasable l).

Lemma release_page k refs s p n :
  release_inv k refs s -> used s p n ->
  exists s', free_page p s = Ok (tt, s') /\ frame s s' /\ (exists l', allocator s' l') /\
    length (mem_map s') = length (mem_map s) /\
    (forall q j, aligned q -> q <> p -> 0 <= j < 1024 -> words s' !! (q + 4 * j) = words s !! (q + 4 * j)) /\
    (forall q, aligned q -> uses s' q = if q =? p then Some (n - 1) else uses s q).
Proof.
  intros Hinv Hu. destruct (re_alloc _ _ _ Hinv) as [l' Hal]. pose proof Hu as (Hp & Hup & _ & _).
  pose proof (frame_backed _ _ (re_frame _ _ _ Hinv) (rl_back _ Hok) p Hp) as Hpw.
  assert (is_Some (words s !! p)) as Hw by (rewrite <- (Z.add_0_r p); exact (Hpw 0 ltac:(lia))).
  destruct (free_page_run s l' p n Hal Hu Hw) as [Hrun Hal']. exists (released s p n).
  split; [exact Hrun|]. pose proof Hp as [Hpa Hpr]. split_and!.
  - unfold released. destruct (n =? 1); split; try done; cbn; by apply dom_insert_lookup_L.
  - by eexists.
  - unfold released. destruct (n =? 1); cbn; by rewrite length_insert.
  - intros q j [Hq _] Hne Hj. unfold released. destruct (n =? 1); [|done]. cbn.
    rewrite lookup_insert_ne; [done|]. rewrite <- (Z.add_0_r p). change 0 with (4 * 0).
    by apply pages_apart.
  - intros q Hq. unfold uses at 1.
    assert (mem_map (released s p n) = recount true p (n - 1) (mem_map s)) as ->.
    { unfold released, recount. by destruct (Z.eqb_spec n 1) as [->|]. }
    exact (uses_recount s true p (n - 1) n q ltac:(split; [done|lia]) Hq Hup).
Qed.

Lemma page_aligned s p : page s p -> aligned p /\ p <> 0.
Proof. intros [Hp Hr]. split; [split; [done|lia]|lia]. Qed.

Lemma refs_bound k j p : 0 <= k < 1024 -> 0 <= j < 1024 ->
  0 <= tree_refs (words s0) d k p + sum j (fun j => reference k p (ent k j)) /\
  tree_refs (words s0) d k p + sum j (fun j => reference k p (ent k j)) + reference k p (ent k j)
    <= tree_refs (words s0) d 1024 p.
Proof.
  intros Hk Hj.
  pose proof (tree_refs_bound d s0 k p ltac:(lia)) as [H0 _].
  pose proof (tree_refs_bound d s0 (k + 1) p ltac:(lia)) as [_ H1]. rewrite tree_refs_next in H1 by lia.
  pose proof (sum_mono (j + 1) 1024 (fun j => reference k p (ent k j)) ltac:(lia)
    ltac:(intros; apply reference_range)) as [_ H2]. rewrite sum_next in H2 by lia.
  pose proof (sum_mono j 1024 (fun j => reference k p (ent k j)) ltac:(lia)
    ltac:(intros; apply reference_range)) as [H3 _]. lia.
Qed.

(** The references up to the entry at [j] of the table at [k]. *)
Definition refs_to (k j p : Z) : Z :=
  tree_refs (words s0) d k p + sum j (fun j => reference k p (ent k j)).

Lemma refs_to_next k j p : 0 <= j -> refs_to k (j + 1) p = refs_to k j p + reference k p (ent k j).
Proof. intros Hj. unfold refs_to. rewrite sum_next by done. lia. Qed.

(** What is known of an entry whose page is released. *)
Lemma release_entry k j : 0 <= k < 1024 -> 0 <= j < 1024 ->
  let x := ent k j in
  (k <? KERNEL_VIRT_PDINDX) = true -> tbl x <> 0 ->
  exists n, uses s0 (tbl x) = Some n /\ (n <> MAP_PAGE_RESERVED ->
    page s0 (tbl x) /\ ~ left_pages 0 (tbl x) /\
    0 <= refs_to k j (tbl x) < n /\ n < MAP_PAGE_RESERVED /\ reference k (tbl x) x = 1).
Proof.
  intros Hk Hj x Hi Hx. destruct (rl_entry _ Hok k j Hk Hj) as (n & Hn & Hb). fold x in Hn, Hb.
  exists n. split; [done|]. intros Hr. destruct (Hb Hi Hx Hr) as (Hp & Hno & Hlim).
  assert (reference k (tbl x) x = 1) as Hone.
  { unfold reference, refers. rewrite Hi, Z.eqb_refl, (proj2 (Z.eqb_neq x 0)); [done|].
    intros E. by rewrite E in Hx. }
  pose proof (refs_bound k j (tbl x) Hk Hj) as [? Hle]. fold x in Hle. unfold refs_to.
  split_and!; try done; lia.
Qed.

(** An entry that is not released. *)
Lemma release_skip k j s n :
  0 <= k < 1024 -> 0 <= j < 1024 -> release_inv k (refs_to k j) s ->
  uses s (tbl (ent k j)) = Some n ->
  negb (tbl (ent k j) =? 0) && (k <? KERNEL_VIRT_PDINDX) && negb (n =? MAP_PAGE_RESERVED) = false ->
  release_inv k (refs_to k (j + 1)) s.
Proof.
  intros Hk Hj [Ha Hf Hl Hw Hle Hg Hu] Hn Hc. split; try done. intros p Hp Hp0 Hno.
  rewrite (Hu p Hp Hp0 Hno), refs_to_next by lia.
  destruct (decide (reference k p (ent k j) = 0)) as [->|Hr]; [by rewrite Z.add_0_r|].
  unfold reference, refers in Hr. destruct (k <? KERNEL_VIRT_PDINDX) eqn:Hi; [|done].
  destruct (Z.eqb_spec (tbl (ent k j)) p) as [<-|]; [|by rewrite andb_false_r in Hr].
  rewrite (proj2 (Z.eqb_neq _ 0)) in Hc by done. cbn in Hc.
  destruct (Z.eqb_spec n MAP_PAGE_RESERVED) as [->|]; [|done].
  destruct (release_entry k j Hk Hj Hi Hp0) as (m & Hm & Hb).
  rewrite (Hu _ Hp Hp0 Hno), Hm in Hn. rewrite Hm. cbn in Hn |- *.
  destruct (Z.eqb_spec m MAP_PAGE_RESERVED) as [E|Hmr]; [done|].
  destruct (Hb Hmr) as (_ & _ & ? & ? & _). injection Hn as Hn. lia.
Qed.

(** One entry. *)
Lemma release_step k j s :
  0 <= k < 1024 -> 0 <= j < 1024 -> tbl (dent (words s0) d k) <> 0 -> release_inv k (refs_to k j) s ->
  exists s', free_entry k (VIRT_MEM (tbl (dent (words s0) d k))) j s = Ok (tt, s') /\
    release_inv k (refs_to k (j + 1)) s'.
Proof.
  intros Hk Hj Hne Hinv. set (src := tbl (dent (words s0) d k)) in *.
  pose proof (rl_tree _ Hok) as Ht. destruct (dent_at _ _ _ _ Ht Hk) as [_ Her].
  destruct (tbl_range _ Her) as (Hsa & Hs0 & Hsm). fold src in Hsa, Hs0, Hsm. unfold PAGE_SIZE in Hsm.
  assert (left_pages k src) as Hsl by (right; exists k; split; [lia|done]).
  assert (words s !! (src + 4 * j) = Some (ent k j)) as Hx.
  { rewrite (re_words _ _ _ Hinv src j Hsl Hj). unfold tent. fold src.
    rewrite (proj2 (Z.eqb_neq src 0)) by done.
    destruct (dent_table _ _ _ k Ht Hk Hne) as [Hpw _]. fold src in Hpw. by destruct (Hpw j Hj) as [y ->]. }
  destruct (rl_entry _ Hok k j Hk Hj) as (n0 & Hn0 & _). destruct (tbl_nr (ent k j)) as [Hi Hq].
  assert (exists n, uses s (tbl (ent k j)) = Some n) as [n Hn].
  { apply lookup_lt_is_Some_2. rewrite (re_length _ _ _ Hinv). apply lookup_lt_is_Some_1. by eexists. }
  unfold free_entry. rewrite (kernel_bind_run _ _ _ _ _ (run_word src j _ s ltac:(lia) Hx)).
  fold (tbl (ent k j)). erewrite kernel_bind_run; [|apply run_map_at; [rewrite Hq; exact Hn|done]].
  destruct (negb (tbl (ent k j) =? 0) && (k <? KERNEL_VIRT_PDINDX) && negb (n =? MAP_PAGE_RESERVED)) eqn:Hc.
  2:{ exists s. split; [done|]. by apply (release_skip k j s n). }
  apply andb_prop in Hc as [[Hx0 Hu]%andb_prop Hr].
  apply negb_true_iff, Z.eqb_neq in Hx0, Hr.
  destruct (release_entry k j Hk Hj Hu Hx0) as (m & Hm & Hb).
  destruct (decide (m = MAP_PAGE_RESERVED)) as [->|Hmr].
  { exfalso. assert (~ left_pages 0 (tbl (ent k j))) as Hno.
    { intros Hl. apply (rl_own _ Hok) in Hl as [_ Hl]. rewrite Hm in Hl. done. }
    rewrite (re_uses _ _ _ Hinv _ (aligned_tbl _) Hx0 Hno), Hm in Hn. cbn in Hn. by injection Hn as <-. }
  destruct (Hb Hmr) as (Hp & Hno & Hlim & Hmlt & Hone).
  pose proof (re_uses _ _ _ Hinv _ (aligned_tbl _) Hx0 Hno) as Hu'. rewrite Hn, Hm in Hu'. cbn in Hu'.
  rewrite (proj2 (Z.eqb_neq m _)) in Hu' by done. injection Hu' as Hnm.
  destruct (release_page k _ s (tbl (ent k j)) n Hinv) as (s' & Hrun & Hf & Hal & Hl & Hw & Hus).
  { split; [|split; [exact Hn|split; [lia|done]]]. unfold page in *. by rewrite (fr_end _ _ (re_frame _ _ _ Hinv)). }
  exists s'. split; [exact Hrun|]. clear Hrun. pose proof Hinv as [_ Hf0 Hl0 Hw0 Hle0 Hg0 Hu0].
  assert (forall p, left_pages k p -> aligned p /\ p <> tbl (ent k j)) as Hleft.
  { intros p Hp'. assert (left_pages 0 p) as H0.
    { destruct Hp' as [?|(i & ? & ?)]; [by left|right]. exists i. split; [lia|done]. }
    split; [by apply (page_aligned s0), (rl_own _ Hok)|]. intros ->. done. }
  split.
  - done.
  - by apply (frame_trans _ s).
  - congruence.
  - intros p i Hp' Hi'. destruct (Hleft p Hp') as [? ?]. rewrite Hw by done. by apply Hw0.
  - intros p Hp'. destruct (Hleft p Hp') as [? Hpn]. rewrite Hus, (proj2 (Z.eqb_neq _ _) Hpn) by done.
    by apply Hle0.
  - intros p H0 Hp'. rewrite Hus by (by apply (page_aligned s0), (rl_own _ Hok)).
    destruct (Z.eqb_spec p (tbl (ent k j))) as [->|]; [done|]. by apply Hg0.
  - intros p Hpa Hp0 Hpo. rewrite Hus by done. rewrite refs_to_next by lia.
    destruct (Z.eqb_spec p (tbl (ent k j))) as [->|Hpn].
    + rewrite Hone, Hm. cbn. rewrite (proj2 (Z.eqb_neq m _)) by done. f_equal. lia.
    + rewrite Hu0 by done. f_equal. unfold reference, refers.
      rewrite (proj2 (Z.eqb_neq (tbl (ent k j)) p)), andb_false_r by done. destruct (_ <? _); lia.
Qed.

Lemma refs_to_end k p : 0 <= k -> refs_to k 1024 p = refs_to (k + 1) 0 p.
Proof.
  intros Hk. unfold refs_to. rewrite (tree_refs_next d s0 k p Hk). change (sum 0 _) with 0.
  by rewrite Z.add_0_r.
Qed.

Lemma release_refs k f g s : (forall p, f p = g p) -> release_inv k f s -> release_inv k g s.
Proof. intros H [? ? ? ? ? ? Hu]. split; try done. intros p Hp Hp0 Ho. by rewrite Hu, H. Qed.

Lemma left_next k p : 0 <= k < 1024 ->
  left_pages k p <-> left_pages (k + 1) p \/ p = tbl (dent (words s0) d k) /\ p <> 0.
Proof.
  intros Hk. unfold left_pages. split.
  - intros [?|(i & Hi & ? & ?)]; [by do 2 left|]. destruct (decide (i = k)) as [->|]; [by right|].
    left. right. exists i. split; [lia|done].
  - intros [[?|(i & Hi & ?)]|[-> ?]]; [by left| |]; right; [exists i|exists k]; split; done || lia.
Qed.

(** A page of the tree is given back. *)
Lemma release_own k k' refs s p :
  0 <= k -> release_inv k refs s -> left_pages 0 p -> left_pages k p ->
  (forall q, left_pages k q <-> left_pages k' q \/ q = p) -> ~ left_pages k' p ->
  exists s', free_page p s = Ok (tt, s') /\ frame s0 s' /\ (exists l', allocator s' l') /\
    length (mem_map s') = length (mem_map s0) /\
    (forall q j, left_pages k' q -> 0 <= j < 1024 -> words s' !! (q + 4 * j) = words s0 !! (q + 4 * j)) /\
    (forall q, left_pages k' q -> uses s' q = Some 1) /\
    (forall q, left_pages 0 q -> ~ left_pages k' q -> uses s' q = Some 0) /\
    (forall q, aligned q -> q <> 0 -> ~ left_pages 0 q -> uses s' q = uncounted (uses s0 q) (refs q)).
Proof.
  intros Hk Hinv H0 Hp Hiff Hno. destruct (rl_own _ Hok p H0) as [Hpage _].
  destruct (release_page k refs s p 1 Hinv) as (s' & Hrun & Hf & Hal & Hl & Hw & Hus).
  { split; [|split; [by apply (re_left _ _ _ Hinv)|done]]. unfold page in *.
    by rewrite (fr_end _ _ (re_frame _ _ _ Hinv)). }
  exists s'. split; [exact Hrun|]. clear Hrun. destruct Hinv as [_ Hf0 Hl0 Hw0 Hle0 Hg0 Hu0].
  assert (forall q, left_pages k q -> aligned q) as Hal0.
  { intros q Hq. apply (page_aligned s0), (rl_own _ Hok).
    destruct Hq as [?|(i & ? & ? & ?)]; [by left|right].
    exists i. split; [lia|done]. }
  split_and!; try done.
  - by apply (frame_trans _ s).
  - congruence.
  - intros q j Hq Hj. assert (left_pages k q) as Hqk by (apply Hiff; by left).
    rewrite Hw; [by apply Hw0|by apply Hal0| |done]. intros ->. done.
  - intros q Hq. assert (left_pages k q) as Hqk by (apply Hiff; by left).
    rewrite Hus by (by apply Hal0). destruct (Z.eqb_spec q p) as [->|]; [done|]. by apply Hle0.
  - intros q Hq0 Hq. rewrite Hus by (by apply (page_aligned s0), (rl_own _ Hok)).
    destruct (Z.eqb_spec q p) as [->|Hne]; [done|]. apply Hg0; [done|]. intros [?|?]%Hiff; done.
  - intros q Hq Hq0 Hqo. rewrite Hus by done. destruct (Z.eqb_spec q p) as [->|]; [done|]. by apply Hu0.
Qed.

(** A table with its entries. *)
Lemma release_table k s :
  0 <= k < 1024 -> release_inv k (refs_to k 0) s ->
  exists s', free_table (VIRT_MEM d) k s = Ok (tt, s') /\ release_inv (k + 1) (refs_to (k + 1) 0) s'.
Proof.
  intros Hk Hinv. pose proof (rl_tree _ Hok) as Ht. destruct (tr_dir _ _ _ Ht) as (Hd0 & _ & Hdm & _).
  destruct (dent_at _ _ _ _ Ht Hk) as [He Her]. destruct (tbl_range _ Her) as (Hsa & Hs0 & Hsm).
  unfold PAGE_SIZE in Hdm, Hsm. set (src := tbl (dent (words s0) d k)) in *.
  assert (words s !! (d + 4 * k) = Some (dent (words s0) d k)) as He'
    by (rewrite (re_words _ _ _ Hinv d k ltac:(by left) Hk); exact He).
  unfold free_table. rewrite (kernel_bind_run _ _ _ _ _ (run_word d k _ s ltac:(lia) He')).
  fold (tbl (dent (words s0) d k)). fold src. rewrite phys_virt by lia.
  destruct (Z.eqb_spec src 0) as [Hz|Hne].
  { exists s. split; [done|]. destruct Hinv as [Ha Hf Hl Hw Hle Hg Hu].
    assert (forall p, left_pages k p <-> left_pages (k + 1) p) as Hiff.
    { intros p. rewrite left_next by done. fold src. rewrite Hz. intuition. }
    split; try done.
    - intros p j Hp. apply Hw. by apply Hiff.
    - intros p Hp. apply Hle. by apply Hiff.
    - intros p Hp Hn. apply Hg; [done|]. by rewrite Hiff.
    - intros p Hp Hp0 Ho. rewrite Hu by done. f_equal. rewrite <- refs_to_end by lia.
      unfold refs_to. rewrite (sum_zero 1024); [done|]. intros j Hj. unfold tent. fold src.
      rewrite Hz. unfold reference, refers. by destruct (_ <? _). }
  destruct (for_entries (fun j s => release_inv k (refs_to k j) s) (free_entry k (VIRT_MEM src)) s Hinv)
    as (s1 & Hloop & Hinv1).
  { intros j t Hj Ht1. by apply release_step. }
  rewrite (kernel_bind_run _ _ _ _ _ Hloop). clear Hloop.
  assert (left_pages k src) as Hsl by (right; exists k; split; [lia|done]).
  destruct (release_own k (k + 1) _ s1 src ltac:(lia) Hinv1) as (s' & Hrun & Hf & Ha & Hl & Hw & Hle & Hg & Hu).
  - right. exists k. split; [lia|done].
  - done.
  - intros q. rewrite left_next by done. fold src. intuition congruence.
  - intros [Hsd|(i & Hi & Hti & _)].
    + destruct (dent_table _ _ _ k Ht Hk Hne) as (_ & Hnd & _). done.
    + apply (dent_distinct _ _ _ k i Ht); [done|lia|lia|done|by rewrite Hti].
  - exists s'. split; [exact Hrun|]. clear Hrun. split; try done.
    intros p Hp Hp0 Ho. by rewrite <- refs_to_end, Hu by (done || lia).
Qed.

(** The whole tree. *)
Lemma free_page_tree_run s :
  s0 = s <| if_flag := false |> ->
  exists s', free_page_tree d s = Ok (tt, s' <| if_flag := if_flag s |>) /\ frame s0 s' /\
    (exists l', allocator s' l') /\ (forall p, left_pages 0 p -> uses s' p = Some 0) /\
    (forall p, aligned p -> p <> 0 -> ~ left_pages 0 p ->
      uses s' p = uncounted (uses s0 p) (tree_refs (words s0) d 1024 p)).
Proof.
  intros Hs. pose proof (rl_tree _ Hok) as Ht. destruct (tr_dir _ _ _ Ht) as (Hd0 & _ & Hdm & _).
  unfold PAGE_SIZE in Hdm.
  destruct (for_entries (fun k s => release_inv k (refs_to k 0) s) (free_table (VIRT_MEM d)) s0)
    as (s1 & Hloop & Hinv1).
  { split; try done.
    - exists l. apply (rl_alloc _ Hok).
    - intros p Hp. by apply (rl_own _ Hok).
    - intros p Hp Hp0 _. unfold refs_to. change (tree_refs _ _ 0 p) with 0. change (sum 0 _) with 0.
      unfold uncounted. destruct (uses s0 p) as [n|]; [|done]. cbn. rewrite Z.sub_0_r. by destruct (_ =? _). }
  { intros k t Hk Ht1. by apply release_table. }
  assert (left_pages 0 d) as Hd by (by left). destruct (rl_own _ Hok d Hd) as [Hpage _].
  destruct (release_page 1024 _ s1 d 1 Hinv1) as (s' & Hrun & Hf & Ha & Hl & _ & Hus).
  { split; [|split; [apply (re_left _ _ _ Hinv1); by left|done]]. unfold page in *.
    by rewrite (fr_end _ _ (re_frame _ _ _ Hinv1)). }
  exists s'. split.
  { unfold free_page_tree, save_flags, cli, restore_flags. rewrite run_gets, run_modify, <- Hs.
    rewrite (kernel_bind_run _ _ _ _ _ Hloop), phys_virt by lia.
    by rewrite (kernel_bind_run _ _ _ _ _ Hrun). }
  clear Hloop Hrun. split; [apply (frame_trans _ s1); [apply (re_frame _ _ _ Hinv1)|done]|].
  split; [done|]. split.
  - intros p Hp. rewrite Hus by (by apply (page_aligned s0), (rl_own _ Hok)).
    destruct (Z.eqb_spec p d) as [->|Hne]; [done|]. apply (re_gone _ _ _ Hinv1); [done|].
    intros [?|(i & ? & _)]; [done|lia].
  - intros p Hp Hp0 Ho. rewrite Hus by done. destruct (Z.eqb_spec p d) as [->|]; [done|].
    rewrite (re_uses _ _ _ Hinv1) by done. f_equal. unfold refs_to. change (sum 0 _) with 0.
    by rewrite Z.add_0_r.
Qed.
End release.

(** ** The theorems *)

Lemma ready_flag t s l b : ready t s l -> ready t (s <| if_flag := b |>) l.
Proof. intros (Ha & ? & ?). split; [by destruct Ha|done]. Qed.

Lemma get_tent t s l v : ready t s l -> 0 < t -> 0 <= v < 2 ^ 32 ->
  get_table_entry t v s = Ok (tent (words s) t (dirx v) (tabx v), s).
Proof.
  intros (_ & _ & Ht) Ht0 Hv. destruct (get_table_entry_run t v s l Ht Hv) as (x & Hx & ->).
  rewrite (entry_tent _ _ _ _ Ht Hv) in Hx. injection Hx as <-. unfold root.
  by rewrite (proj2 (Z.eqb_neq t 0)) by lia.
Qed.

Lemma reference_shared mode i p x : reference i p (shared mode x) = reference i p x.
Proof.
  unfold reference, refers. destruct (Z.eqb_spec x 0) as [->|Hx]; [done|].
  rewrite tbl_shared by done. rewrite (proj2 (Z.eqb_neq (shared mode x) 0)); [done|].
  unfold shared. rewrite (proj2 (Z.eqb_neq x 0)) by done. destruct mode; [done|].
  intros H. by apply Z.lor_eq_0_iff in H as [_ ?].
Qed.

Section theorems.
Context (mode : copy_mode) (t : Z) (s : machine) (l : list Z).

(** A page tree that can be copied: there are enough pages for its tables, and
    the pages that user space maps are in use or reserved, with room in their
    counters. *)
Record copyable : Prop := {
  cp_alloc : allocator s l;
  cp_back : pages_backed s;
  cp_tree : tree_ok (words s) l t;
  cp_count : tree_countable t s;
  cp_room : 1 + tables (words s) t 1024 <= Z.of_nat (length l)
}.
Context (Hc : copyable).

#[local] Abbreviation sb := (s <| if_flag := false |>).

Lemma copy_refs d taken li s2 p : tree_inv mode t d l sb 1024 taken li s2 ->
  tree_refs (words s2) d 1024 p = tree_refs (words s) t 1024 p.
Proof.
  intros Hinv. apply sum_ext. intros i Hi. apply sum_ext. intros j Hj. cbv beta.
  rewrite (ti_dst _ _ _ _ _ _ _ _ _ Hinv i j Hi Hj), (proj2 (Z.ltb_lt i 1024)) by lia.
  apply reference_shared.
Qed.

(** The pages of the copy are those taken for it. *)
Lemma copy_pages d taken li s2 p : d ∈ taken -> tree_inv mode t d l sb 1024 taken li s2 ->
  left_pages d s2 0 p <-> p ∈ taken.
Proof.
  intros Hd Hinv. destruct (ti_list _ _ _ _ _ _ _ _ _ Hinv) as [Hl _]. split.
  - intros [->|(i & Hi & <- & Hp)]; [done|]. by apply (ti_own _ _ _ _ _ _ _ _ _ Hinv).
  - intros Hp. assert (p ∈ l) as Hpl by (rewrite Hl; set_solver).
    pose proof (proj1 (Forall_forall _ _) (al_pages _ _ (cp_alloc Hc)) _ Hpl) as [_ Hr].
    destruct (ti_taken _ _ _ _ _ _ _ _ _ Hinv p Hp) as [_ [->|(i & Hi & <-)]]; [by left|].
    right. exists i. split; [lia|]. split; [done|lia].
Qed.

(** [copy_page_tree] copies a map of pages and counts the references.
    With enough pages for the tables, it completes, and gives interrupts back as
    they were; the copy consists of pages that were free.  In both trees every
    address has the entry that it had in the original: unchanged in normal
    mode; for copy on write marked so and without the permission to write,
    unless it was empty.  The use counter of every other page, unless it is
    reserved, grows by the number of times that user space refers to it; memory
    outside of the tables of the original and of the copy is unchanged. *)
Lemma copy_page_tree_shares :
  exists d s' taken l', copy_page_tree t mode s = Ok (d, s') /\
    l = taken ++ l' /\ d ∈ taken /\ ready d s' l' /\ ready t s' l' /\
    if_flag s' = if_flag s /\
    (forall v, 0 <= v < 2 ^ 32 -> exists x, get_table_entry t v s = Ok (x, s) /\
      get_table_entry t v s' = Ok (shared mode x, s') /\
      get_table_entry d v s' = Ok (shared mode x, s')) /\
    (forall p, page s p -> p ∉ taken ->
      uses s' p = counted (uses s p) (tree_refs (words s) t 1024 p)) /\
    (forall a, (forall p, p ∈ taken -> ~ in_page p a) ->
      (forall i, 0 <= i < 1024 -> tbl (dent (words s) t i) <> 0 -> ~ in_page (tbl (dent (words s) t i)) a) ->
      words s' !! a = words s !! a).
Proof.
  destruct (copy_page_tree_run mode t s l) as (d & s2 & taken & l' & Hrun & Hinv & Hd); try apply Hc.
  exists d, (s2 <| if_flag := if_flag s |>), taken, l'. split; [exact Hrun|]. clear Hrun.
  pose proof (ti_copy _ _ _ _ _ _ _ _ _ Hinv) as Hd2. pose proof (ti_tree _ _ _ _ _ _ _ _ _ Hinv) as Ht2.
  destruct (tr_dir _ _ _ Hd2) as [Hd0 _], (tr_dir _ _ _ Ht2) as [Ht0 _].
  pose proof (frame_backed _ _ (ti_frame _ _ _ _ _ _ _ _ _ Hinv) (cp_back Hc)) as Hb.
  assert (forall u w, 0 < u -> root u w = u) as Hroot
    by (intros u w Hu; unfold root; by rewrite (proj2 (Z.eqb_neq u 0)) by lia).
  assert (forall u, 0 < u -> tree_ok (words s2) l' u -> ready u (s2 <| if_flag := if_flag s |>) l') as Hready.
  { intros u Hu Hok. apply ready_flag. split; [apply (ti_alloc _ _ _ _ _ _ _ _ _ Hinv)|].
    split; [exact Hb|]. by rewrite Hroot. }
  assert (ready t s l) as Hrs
    by (split; [apply Hc|split; [apply Hc|]]; rewrite Hroot by done; apply Hc).
  split; [apply (ti_list _ _ _ _ _ _ _ _ _ Hinv)|]. split; [done|].
  split; [by apply Hready|]. split; [by apply Hready|]. split; [done|]. split.
  - intros v Hv. pose proof (dirx_range v Hv) as Hi. pose proof (tabx_range v ltac:(lia)) as Hj.
    eexists. split; [by apply (get_tent t s l)|].
    pose proof (ti_src _ _ _ _ _ _ _ _ _ Hinv _ _ Hi Hj) as Hs.
    pose proof (ti_dst _ _ _ _ _ _ _ _ _ Hinv _ _ Hi Hj) as Hdst.
    rewrite (proj2 (Z.ltb_lt _ _) (proj2 Hi)) in Hs, Hdst.
    split; (etransitivity; [by eapply get_tent; [by apply Hready| |]|]); unfold upd; cbn [words];
      [by rewrite Hs|by rewrite Hdst].
  - split.
    + intros p Hp Hn. apply page_aligned in Hp as [Hp _].
      exact (ti_uses _ _ _ _ _ _ _ _ _ Hinv p Hp Hn).
    + intros a Ha. apply (ti_other _ _ _ _ _ _ _ _ _ Hinv); [by apply Ha|done].
Qed.

(** The references to a page fit its counter. *)
Lemma copy_limit p n : uses s p = Some n -> n <> MAP_PAGE_RESERVED ->
  tree_refs (words s) t 1024 p = 0 \/ n + tree_refs (words s) t 1024 p < MAP_PAGE_RESERVED.
Proof.
  intros Hn Hr. destruct (sum_cases 1024 (fun i => sum 1024 (fun j => reference i p (tent (words s) t i j))))
    as [|(i & Hi & Hne)]; [by left|right]. cbv beta in Hne.
  destruct (sum_cases 1024 (fun j => reference i p (tent (words s) t i j))) as [|(j & Hj & Hj0)]; [done|].
  cbv beta in Hj0. unfold reference, refers in Hj0.
  destruct (i <? KERNEL_VIRT_PDINDX) eqn:Hu; [|done].
  destruct (Z.eqb_spec (tent (words s) t i j) 0) as [|Hx]; [done|].
  destruct (Z.eqb_spec (tbl (tent (words s) t i j)) p) as [<-|]; [|done].
  destruct (cp_count Hc i j Hi Hj Hx) as (m & Hm & Hb). rewrite Hn in Hm. injection Hm as <-.
  by destruct (Hb Hu Hr) as [_ ?].
Qed.

(** The counters of a copy let it be released. *)
Lemma copy_releasable d taken li s2 :
  d ∈ taken -> tree_inv mode t d l sb 1024 taken li s2 -> releasable d s2 li.
Proof.
  intros Hd Hinv. destruct (ti_list _ _ _ _ _ _ _ _ _ Hinv) as [Hl _].
  pose proof (fr_end _ _ (ti_frame _ _ _ _ _ _ _ _ _ Hinv)) as He.
  pose proof (ti_alloc _ _ _ _ _ _ _ _ _ Hinv) as Hal2.
  assert (forall p, p ∈ taken -> page s p /\ p ∈ l) as Htaken.
  { intros p Hp. assert (p ∈ l) as Hpl by (rewrite Hl; set_solver).
    split; [|done]. exact (proj1 (Forall_forall _ _) (al_pages _ _ (cp_alloc Hc)) _ Hpl). }
  split.
  - done.
  - apply (frame_backed sb); [apply (ti_frame _ _ _ _ _ _ _ _ _ Hinv)|apply (cp_back Hc)].
  - apply (ti_copy _ _ _ _ _ _ _ _ _ Hinv).
  - intros p Hp. apply (copy_pages d taken li s2 p Hd Hinv) in Hp.
    split; [|by apply (ti_taken _ _ _ _ _ _ _ _ _ Hinv)]. unfold page in *. rewrite He. by apply Htaken.
  - intros i j Hi Hj x. assert (x = shared mode (tent (words s) t i j)) as Hx.
    { unfold x. rewrite (ti_dst _ _ _ _ _ _ _ _ _ Hinv i j Hi Hj).
      by rewrite (proj2 (Z.ltb_lt i 1024)) by lia. }
    clearbody x. subst x. set (y := tent (words s) t i j).
    destruct (decide (y = 0)) as [->|Hy].
    { unfold shared. cbn. assert (exists n, uses s2 0 = Some n) as [n Hn]; [|by exists n].
      destruct (Htaken d Hd) as [[Hda Hdr] _]. apply lookup_lt_is_Some_2.
      rewrite (al_map _ _ Hal2), He. destruct (al_end _ _ (cp_alloc Hc)) as [_ Hea].
      change (mem_end sb) with (mem_end s). unfold PAGE_SIZE in *.
      pose proof (Z.div_mod (mem_end s) 4096 ltac:(lia)).
      change (0 / 4096) with 0. lia. }
    rewrite tbl_shared by done. destruct (cp_count Hc i j Hi Hj Hy) as (n & Hn & Hb). fold y in Hn, Hb.
    destruct (decide (tbl y ∈ taken)) as [Hin|Hnin].
    + exists 1. split; [by apply (ti_taken _ _ _ _ _ _ _ _ _ Hinv)|]. intros Hu _ _. exfalso.
      destruct (Htaken _ Hin) as [Hp Hpl]. apply (uses_free s l _ (cp_alloc Hc) Hp) in Hpl.
      rewrite Hn in Hpl. injection Hpl as ->. by destruct (Hb Hu ltac:(done)) as [(_ & _ & ? & _) _].
    + pose proof (ti_uses _ _ _ _ _ _ _ _ _ Hinv _ (aligned_tbl y) Hnin) as Hu2.
      change (uses sb (tbl y)) with (uses s (tbl y)) in Hu2. rewrite Hn in Hu2. cbn in Hu2.
      eexists. split; [exact Hu2|]. intros Hu Hy0.
      destruct (Z.eqb_spec n MAP_PAGE_RESERVED) as [|Hnr]; [done|]. intros _.
      destruct (Hb Hu Hnr) as [(Hp & _) Hlim]. split; [unfold page in *; by rewrite He|].
      split; [by rewrite (copy_pages d taken li s2 _ Hd Hinv)|].
      rewrite (copy_refs d taken li s2 _ Hinv).
      pose proof (proj1 (Forall_lookup _ _) (al_range _ _ (cp_alloc Hc)) _ _ Hn) as Hrn. cbv beta in Hrn.
      change (words sb) with (words s). lia.
Qed.

Lemma uncounted_counted o k : 0 <= k ->
  (forall n, o = Some n -> n <> MAP_PAGE_RESERVED -> k = 0 \/ n + k < MAP_PAGE_RESERVED) ->
  uncounted (counted o k) k = o.
Proof.
  intros Hk H. destruct o as [n|]; [|done]. cbn.
  destruct (Z.eqb_spec n MAP_PAGE_RESERVED) as [->|Hn]; [by rewrite Z.eqb_refl|].
  destruct (H n eq_refl Hn) as [->|Hlt].
  - rewrite Z.add_0_r, (proj2 (Z.eqb_neq n _)) by done. f_equal. lia.
  - rewrite (proj2 (Z.eqb_neq (n + k) _)) by lia. f_equal. lia.
Qed.

(** C18: releasing a copy undoes the copying.  With enough pages for the
    tables, a page tree is copied and the copy released again: afterwards every
    page has the use counter that it had before, reserved pages and those that
    several entries refer to included; the free pages are the same, and the
    allocator's list is in order. *)
Theorem copy_then_free :
  exists d s1 s2 l2, copy_page_tree t mode s = Ok (d, s1) /\ free_page_tree d s1 = Ok (tt, s2) /\
    allocator s2 l2 /\ l2 ≡ₚ l /\ if_flag s2 = if_flag s /\
    (forall p, page s p -> uses s2 p = uses s p).
Proof.
  destruct (copy_page_tree_run mode t s l) as (d & s1 & taken & l' & Hrun & Hinv & Hd); try apply Hc.
  destruct (free_page_tree_run d s1 l' (copy_releasable d taken l' s1 Hd Hinv) (s1 <| if_flag := if_flag s |>))
    as (s2 & Hfree & Hf & (l2 & Hal) & Hown & Hother).
  { pose proof (fr_flag _ _ (ti_frame _ _ _ _ _ _ _ _ _ Hinv)) as Hfl. cbn in Hfl. destruct s1. cbn in *.
    by subst. }
  exists d, (s1 <| if_flag := if_flag s |>), (s2 <| if_flag := if_flag s |>), l2.
  split; [exact Hrun|]. split; [exact Hfree|]. clear Hrun Hfree.
  assert (mem_end s2 = mem_end s) as He.
  { rewrite (fr_end _ _ Hf). apply (fr_end _ _ (ti_frame _ _ _ _ _ _ _ _ _ Hinv)). }
  assert (forall p, page s p -> uses s2 p = uses s p) as Huses.
  { intros p Hp. pose proof (page_aligned s p Hp) as [Hpa Hp0].
    destruct (decide (p ∈ taken)) as [Hin|Hnin].
    - rewrite Hown by (by apply (copy_pages d taken l' s1 p Hd Hinv)). symmetry.
      apply (uses_free s l p (cp_alloc Hc) Hp). destruct (ti_list _ _ _ _ _ _ _ _ _ Hinv) as [-> _].
      set_solver.
    - rewrite Hother by (done || by rewrite (copy_pages d taken l' s1 p Hd Hinv)).
      rewrite (copy_refs d taken l' s1 p Hinv). rewrite (ti_uses _ _ _ _ _ _ _ _ _ Hinv p Hpa Hnin).
      apply uncounted_counted; [by apply (tree_refs_bound t s)|].
      intros n Hn. by apply copy_limit. }
  split; [by destruct Hal|]. split; [|split; [done|exact Huses]].
  apply NoDup_Permutation; [apply (al_nodup _ _ Hal)|apply (al_nodup _ _ (cp_alloc Hc))|].
  intros p. assert (page s2 p <-> page s p) as Hpage by (unfold page; by rewrite He).
  split; intros Hp.
  - assert (page s2 p) as Hp2 by exact (proj1 (Forall_forall _ _) (al_pages _ _ Hal) _ Hp).
    apply (uses_free s l p (cp_alloc Hc)); [by apply Hpage|]. rewrite <- Huses by (by apply Hpage).
    by apply (uses_free s2 l2 p Hal).
  - assert (page s p) as Hp2 by exact (proj1 (Forall_forall _ _) (al_pages _ _ (cp_alloc Hc)) _ Hp).
    apply (uses_free s2 l2 p Hal); [by apply Hpage|]. rewrite Huses by done.
    by apply (uses_free s l p (cp_alloc Hc)).
Qed.
End theorems.

(** ** A tree with one page

    Six pages: the first reserved, a directory, its only table, a page that
    user space maps at address 0, two free pages. *)
Definition one_page : machine :=
  {| words := <[4096 := 8199]> (<[8192 := 12295]> (<[16384 := 20480]> (<[24576 := 16384]> (zero_words 0 7168))));
     mem_map := [MAP_PAGE_RESERVED; 1; 1; 1; 0; 0; 0];
     free_page_list := 24576; free_page_count := 5; mem_base := 0; mem_end := 28672;
     mem_size := 28672; sbrk_size := 0; kernel_pdir := 0; cr3 := 4096; if_flag := true |}.

Lemma one_page_words p j : p mod 4096 = 0 -> 0 <= p < 28672 -> 0 <= j < 1024 ->
  words one_page !! (p + 4 * j) = Some (if p + 4 * j =? 4096 then 8199 else
    if p + 4 * j =? 8192 then 12295 else if p + 4 * j =? 16384 then 20480
    else if p + 4 * j =? 24576 then 16384 else 0).
Proof.
  intros Hp Hr Hj. cbn [one_page words].
  destruct (Z.eqb_spec (p + 4 * j) 4096) as [->|]; [apply lookup_insert_eq|rewrite lookup_insert_ne by done].
  destruct (Z.eqb_spec (p + 4 * j) 8192) as [->|]; [apply lookup_insert_eq|rewrite lookup_insert_ne by done].
  destruct (Z.eqb_spec (p + 4 * j) 16384) as [->|]; [apply lookup_insert_eq|rewrite lookup_insert_ne by done].
  destruct (Z.eqb_spec (p + 4 * j) 24576) as [->|]; [apply lookup_insert_eq|rewrite lookup_insert_ne by done].
  pose proof (Z.div_mod p 4096 ltac:(lia)).
  replace (p + 4 * j) with (0 + 4 * (p / 4096 * 1024 + j)) by lia. apply zero_words_at.
  change (Z.of_nat 7168) with 7168. lia.
Qed.

Lemma one_page_dent i : 0 <= i < 1024 -> dent (words one_page) 4096 i = if i =? 0 then 8199 else 0.
Proof.
  intros Hi. unfold dent. rewrite one_page_words by (done || lia). cbn [default]. unfold id.
  destruct (Z.eqb_spec i 0) as [->|]; [done|]. rewrite (proj2 (Z.eqb_neq (4096 + 4 * i) 4096)) by lia.
  rewrite (proj2 (Z.eqb_neq (4096 + 4 * i) 8192)) by lia. by rewrite (proj2 (Z.eqb_neq _ 16384)), (proj2 (Z.eqb_neq _ 24576)) by lia.
Qed.

Lemma one_page_tent i j : 0 <= i < 1024 -> 0 <= j < 1024 ->
  tent (words one_page) 4096 i j = if (i =? 0) && (j =? 0) then 12295 else 0.
Proof.
  intros Hi Hj. unfold tent. rewrite one_page_dent by done. destruct (i =? 0); [|done].
  change (tbl 8199) with 8192. change (8192 =? 0) with false. cbv iota. cbn [andb].
  rewrite one_page_words by (done || lia). cbn [default]. unfold id.
  rewrite (proj2 (Z.eqb_neq (8192 + 4 * j) 4096)) by lia.
  destruct (Z.eqb_spec j 0) as [->|]; [done|]. rewrite (proj2 (Z.eqb_neq (8192 + 4 * j) 8192)) by lia.
  by rewrite (proj2 (Z.eqb_neq _ 16384)), (proj2 (Z.eqb_neq _ 24576)) by lia.
Qed.

Lemma sum_first n f : 0 < n -> (forall i, 0 < i < n -> f i = 0) -> sum n f = f 0.
Proof.
  intros Hn H. transitivity (sum (n - 1 + 1) f); [f_equal; lia|].
  assert (0 <= n - 1) as Hm by lia. assert (forall i, 0 < i < n - 1 + 1 -> f i = 0) as H' by (intros; apply H; lia).
  revert Hm H'. generalize (n - 1) as m. clear n Hn H.
  apply (natlike_ind (fun m => (forall i, 0 < i < m + 1 -> f i = 0) -> sum (m + 1) f = f 0)); [done|].
  intros m Hm IH H. rewrite sum_next, H by lia. rewrite <- Z.add_1_r, IH by (intros; apply H; lia). lia.
Qed.

Lemma one_page_refs : tree_refs (words one_page) 4096 1024 12288 = 1.
Proof.
  unfold tree_refs. rewrite sum_first; [|done|].
  - rewrite sum_first; [by rewrite one_page_tent|done|]. intros j Hj. cbv beta.
    rewrite one_page_tent by lia. by rewrite (proj2 (Z.eqb_neq j 0)) by lia.
  - intros i Hi. apply sum_zero. intros j Hj. cbv beta. rewrite one_page_tent by lia.
    rewrite (proj2 (Z.eqb_neq i 0)) by lia. unfold reference. by destruct (_ <? _).
Qed.

Lemma one_page_allocator : allocator one_page [24576; 16384; 20480].
Proof.
  pose proof (one_page_words 16384 0 eq_refl ltac:(lia) ltac:(lia)) as H4.
  pose proof (one_page_words 20480 0 eq_refl ltac:(lia) ltac:(lia)) as H5.
  pose proof (one_page_words 24576 0 eq_refl ltac:(lia) ltac:(lia)) as H6.
  split.
  - split; [done|]. exists 16384. split; [exact H6|]. split; [done|]. exists 20480. split; [exact H4|]. split; [done|]. exists 0. split; [exact H5|done].
  - by apply (bool_decide_unpack _).
  - repeat constructor; done.
  - intros k. rewrite !elem_of_cons, elem_of_nil. unfold PAGE_SIZE. cbn [one_page mem_map].
    do 7 (destruct k as [|k]; [vm_compute; intuition congruence|]).
    split; [done|]. intros [?|[?|[?|?]]]; lia.
  - reflexivity.
  - split; [by vm_compute|reflexivity].
  - cbn [one_page mem_map]. repeat constructor; done.
  - intros _. done.
Qed.

Lemma one_page_tree : tree_ok (words one_page) [24576; 16384; 20480] 4096.
Proof.
  assert (forall i, 0 <= i < 1024 -> words one_page !! (4096 + 4 * i) = Some (if i =? 0 then 8199 else 0)) as Hd.
  { intros i Hi. rewrite <- one_page_dent by done. unfold dent. by rewrite one_page_words by (done || lia). }
  split.
  - split_and!; try done. by apply (bool_decide_unpack _).
  - intros i Hi. rewrite Hd by done. eexists. split; [done|]. by destruct (i =? 0).
  - intros i e Hi. rewrite Hd by done. intros [= <-]. destruct (i =? 0); [|done].
    change (tbl 8199) with 8192. intros _. split_and!; [|done|by apply (bool_decide_unpack _)].
    intros j Hj. rewrite one_page_words by (done || lia). by eexists.
  - intros i j e f Hi Hj Hij. rewrite !Hd by done. intros [= <-] [= <-].
    destruct (Z.eqb_spec i 0) as [->|], (Z.eqb_spec j 0) as [->|]; done.
Qed.

(** One table hangs from the directory of the small machine. *)
Lemma one_page_tables : tables (words one_page) 4096 1024 = 1.
Proof.
  unfold tables. rewrite sum_first; [by rewrite one_page_dent|done|]. intros i Hi. cbv beta.
  rewrite one_page_dent by lia. by rewrite (proj2 (Z.eqb_neq i 0)) by lia.
Qed.

Lemma one_page_copyable : copyable 4096 one_page [24576; 16384; 20480].
Proof.
  split.
  - apply one_page_allocator.
  - intros p [Hp Hr] j Hj. cbn [one_page mem_end] in Hr. rewrite one_page_words by (done || lia). by eexists.
  - apply one_page_tree.
  - intros i j Hi Hj. rewrite one_page_tent by done. cbv zeta.
    destruct ((i =? 0) && (j =? 0)); [|done]. intros _. change (tbl 12295) with 12288. exists 1.
    split; [done|]. intros _ _. split; [split; [split; [done|cbn; lia]|done]|]. rewrite one_page_refs. done.
  - by rewrite one_page_tables.
Qed.

Lemma one_page_ready : ready 4096 one_page [24576; 16384; 20480].
Proof.
  split; [apply one_page_allocator|]. split; [apply (cp_back _ _ _ one_page_copyable)|apply one_page_tree].
Qed.

Lemma one_page_user : page one_page 12288 /\ uses one_page 12288 = Some 1.
Proof.
  split; [split; [reflexivity|]|vm_compute; reflexivity]. change (mem_end one_page) with 28672. lia.
Qed.

Lemma ok_value (a b : Z) (s : machine) : Ok (a, s) = Ok (b, s) -> a = b.
Proof. by intros [= ->]. Qed.

(** The entry loses the permission to write and gets the mark in both trees,
    and the page has two uses. *)
Lemma copy_page_tree_shares_witness :
  exists d s', copy_page_tree 4096 COPY_ON_WRITE one_page = Ok (d, s') /\
    get_table_entry 4096 0x123 s' = Ok (0x3205, s') /\
    get_table_entry d 0x123 s' = Ok (0x3205, s') /\ uses s' 12288 = Some 2.
Proof.
  destruct (copy_page_tree_shares COPY_ON_WRITE 4096 one_page [24576; 16384; 20480] one_page_copyable)
    as (d & s' & taken & l' & Hrun & Hl & _ & _ & _ & _ & Hget & Huses & _).
  exists d, s'. split; [exact Hrun|].
  destruct (Hget 0x123 ltac:(lia)) as (x & Hx & Ht & Hd).
  assert (x = 12295) as ->.
  { pose proof (get_tent 4096 one_page [24576; 16384; 20480] 0x123 one_page_ready ltac:(lia) ltac:(lia)) as H.
    rewrite one_page_tent in H by (vm_compute; split; congruence). rewrite Hx in H. rewrite (ok_value _ _ _ H). reflexivity. }
  split; [exact Ht|]. split; [exact Hd|]. clear Hrun Ht Hd Hx Hget.
  destruct one_page_user as [Hp Hu].
  rewrite (Huses 12288 Hp), one_page_refs, Hu; [reflexivity|].
  intros Hin. assert (12288 ∈ [24576; 16384; 20480]) as Hin'
    by (rewrite Hl; apply elem_of_app; left; exact Hin).
  clear - Hin'. revert Hin'. by apply (bool_decide_unpack _).
Defined.

(** The page has one use again. *)
Lemma copy_then_free_witness :
  exists d s1 s2, copy_page_tree 4096 NORMAL one_page = Ok (d, s1) /\
    free_page_tree d s1 = Ok (tt, s2) /\ uses s2 12288 = Some 1.
Proof.
  destruct (copy_then_free NORMAL 4096 one_page [24576; 16384; 20480] one_page_copyable)
    as (d & s1 & s2 & l2 & Hcopy & Hfree & _ & _ & _ & Huses).
  exists d, s1, s2. split; [exact Hcopy|]. split; [exact Hfree|].
  destruct one_page_user as [Hp Hu]. rewrite (Huses 12288 Hp). exact Hu.
Defined.
