(* ===== verification/PageFault.v ===== *)
(** * Page faults of user programs: [mmu_x86.ath], operation [$trans]

    The page fault handler makes a page that was shared by a fork private to
    the program that writes to it, and loads missing pages from the image.  It
    is written in the macro language of the bricks: [@phys_addr], [@phys_len]
    and [@success] are members of its arguments, [@=call] calls the brick that
    is connected to an input.  Memory and page trees are those of [PhysMem];
    here the kernel also accesses memory through the tree in use. *)

From S2P Require Import Prelude PhysMem PageAlloc PageTrees PageCopy.
Open Scope Z_scope.

Definition PFAULT_PROTVIOL : Z := 0x01.
Definition PFAULT_USERMODE : Z := 0x04.

Definition nested_fault {A} : kernel A := fun _ => Fault OutOfBounds.

(** The processor's translation of a virtual address, for an access by the
    kernel, which may write to any page that is present.  A page that is not
    there would be a page fault within the handler. *)
Definition translate (virtual : Z) : kernel Z :=
  c ← get_cr3;
  e ← word (VIRT_MEM c) (Z.shiftr virtual PAGE_DIR_SHIFT);
  if Z.land e PAGE_PRESENT =? 0 then nested_fault else
  x ← word (VIRT_MEM (Z.land e PAGE_MASK)) (Z.shiftr (Z.land virtual PAGE_TAB_MASK) PAGE_SHIFT);
  if Z.land x PAGE_PRESENT =? 0 then nested_fault else
  mret (Z.land x PAGE_MASK + virtual mod PAGE_SIZE).

(** [memcpy(MAKE_PTR(virt), p, len)], in words. *)
Definition memcpy_virt (virt p len : Z) : kernel unit :=
  if len mod 4 =? 0 then
    for_each 0 (Z.to_nat (len / 4)) (fun j =>
      w ← word p j;
      a ← translate (u32 (virt + 4 * j));
      store a w)
  else nested_fault.

Section mmu.
(** [$gettranswait] on the input [image]: success, address and length *)
Context (image : Z -> kernel (bool * Z * Z)).

(** [@success] before the operation is a parameter, behind it the result;
    messages are dropped. *)
Definition trans (phys_addr phys_len : Z) (success : bool) : kernel bool :=
  let virt := Z.land phys_addr PAGE_MASK in
  let error := phys_len in
  if (Z.land error PFAULT_USERMODE =? 0) && (KERNEL_VIRT_BASE <=? virt) then abort else
  if negb (Z.land error PFAULT_PROTVIOL =? 0) then
    entry ← get_table_entry 0 virt;
    if Z.land entry PAGE_COW =? 0 then mret success else
    n ← map_at (MAP_NR (Z.land entry PAGE_MASK));
    if n =? 1 then
      _ ← set_table_entry 0 virt (Z.lor (land_not 32 entry PAGE_COW) PAGE_RW);
      mret true
    else
      page ← get_page;
      _ ← show_page 0 page virt PAGE_SHARED;
      _ ← memcpy_virt virt (VIRT_MEM (Z.land entry PAGE_MASK)) PAGE_SIZE;
      n ← map_at (MAP_NR (Z.land entry PAGE_MASK));
      _ ← set_map (MAP_NR (Z.land entry PAGE_MASK)) (n - 1);
      mret true
  else
    page ← get_page;
    _ ← show_page 0 page virt PAGE_SHARED;
    r ← image virt;
    _ ← memcpy_virt virt r.1.2 r.2;
    mret true.

(** [page_fault] of [cpu_x86.ath] passes the address and the error code on. *)
Definition page_fault (cr2 err_code : Z) : kernel bool := trans cr2 err_code false.
End mmu.

(** ** Accesses through a tree *)

(** The table entry for [v] is at [place]. *)
Definition place (w : gmap Z Z) (t v : Z) : Z := tbl (dent w t (dirx v)) + 4 * tabx v.

(** A virtual page whose table is there. *)
Record reachable (s : machine) (l : list Z) (v : Z) : Prop := {
  re_tree : tree_ok (words s) l (cr3 s);
  re_page : 0 <= v < KERNEL_VIRT_BASE /\ v mod PAGE_SIZE = 0;
  re_table : tbl (dent (words s) (cr3 s) (dirx v)) <> 0;
  re_present : Z.land (dent (words s) (cr3 s) (dirx v)) PAGE_PRESENT <> 0
}.

Definition entry (s : machine) (v : Z) : Z := tent (words s) (cr3 s) (dirx v) (tabx v).

Section access.
Context (s : machine) (l : list Z) (v : Z) (Hr : reachable s l v).

Lemma v_range : 0 <= v < 2 ^ 32.
Proof. destruct (re_page _ _ _ Hr) as [H _]. unfold KERNEL_VIRT_BASE in H. lia. Qed.

Lemma v_dirx : 0 <= dirx v < 1024.
Proof. apply dirx_range, v_range. Qed.

Lemma v_tabx : 0 <= tabx v < 1024.
Proof. apply tabx_range. pose proof v_range. lia. Qed.

Lemma root_cr3 : root 0 s = cr3 s.
Proof. done. Qed.

Lemma dir_word : words s !! (cr3 s + 4 * dirx v) = Some (dent (words s) (cr3 s) (dirx v)).
Proof. apply (dent_at _ l); [apply Hr|apply v_dirx]. Qed.

Lemma table_facts : let e := tbl (dent (words s) (cr3 s) (dirx v)) in
  e mod PAGE_SIZE = 0 /\ 0 < e /\ e + PAGE_SIZE <= 2 ^ 32 /\ page_words (words s) e /\ e <> cr3 s /\ e ∉ l.
Proof.
  destruct (dent_at _ _ _ _ (re_tree _ _ _ Hr) v_dirx) as [_ He].
  destruct (tbl_range _ He) as (Ha & H0 & Hm).
  destruct (dent_table _ _ _ _ (re_tree _ _ _ Hr) v_dirx (re_table _ _ _ Hr)) as (Hp & Ht & Hl).
  pose proof (re_table _ _ _ Hr). split; [done|]. split; [lia|]. done.
Qed.

Lemma place_range : 0 <= place (words s) (cr3 s) v < 2 ^ 32.
Proof. destruct table_facts as (_ & H0 & Hm & _). unfold place, PAGE_SIZE in *. pose proof v_tabx. lia. Qed.

Lemma entry_word : words s !! place (words s) (cr3 s) v = Some (entry s v).
Proof.
  destruct table_facts as (_ & _ & _ & Hp & _). unfold entry, tent, place.
  rewrite (proj2 (Z.eqb_neq _ 0)) by apply Hr. by destruct (Hp _ v_tabx) as [x ->].
Qed.

Lemma get_entry_run : get_table_entry 0 v s = Ok (entry s v, s).
Proof.
  destruct (get_table_entry_run 0 v s l (re_tree _ _ _ Hr) v_range) as (x & Hx & Hrun).
  rewrite (entry_tent _ l) in Hx by (apply Hr || apply v_range). injection Hx as <-. exact Hrun.
Qed.

Lemma set_entry_run x : set_table_entry 0 v x s =
  Ok (tt, s <| words := <[place (words s) (cr3 s) v := x]> (words s) |>).
Proof.
  destruct table_facts as (_ & H0 & Hm & _). unfold set_table_entry.
  rewrite (kernel_bind_run _ _ _ _ _ (dir_of_run 0 s)), root_cr3.
  rewrite (kernel_bind_run _ _ _ _ _ (run_dir_entry _ v s _ l (re_tree _ _ _ Hr) v_range dir_word)).
  fold (tbl (dent (words s) (cr3 s) (dirx v))) (tabx v). unfold PAGE_SIZE in Hm.
  rewrite phys_virt, (proj2 (Z.eqb_neq _ 0)) by (apply Hr || lia).
  apply (run_table_entry _ v x s l (cr3 s)); [apply Hr|apply v_range|apply dir_word|apply Hr].
Qed.

Lemma show_page_run q flags : 0 <= q < 2 ^ 32 -> q mod PAGE_SIZE = 0 -> show_page 0 q v flags s =
  Ok (tt, s <| words := <[place (words s) (cr3 s) v := Z.lor q flags]> (words s) |>).
Proof.
  intros Hq Hqa. destruct table_facts as (_ & H0 & Hm & _). unfold show_page.
  rewrite !run_assert by (apply aligned_assert; [done || apply v_range|done || apply (re_page _ _ _ Hr)]).
  rewrite (kernel_bind_run _ _ _ _ _ (dir_of_run 0 s)), root_cr3.
  rewrite (kernel_bind_run _ _ _ _ _ (run_dir_entry _ v s _ l (re_tree _ _ _ Hr) v_range dir_word)).
  fold (tbl (dent (words s) (cr3 s) (dirx v))) (tabx v). unfold PAGE_SIZE in Hm.
  rewrite phys_virt, (proj2 (Z.eqb_neq _ 0)), run_ret by (apply Hr || lia).
  apply (run_table_entry _ v _ s l (cr3 s)); [apply Hr|apply v_range|apply dir_word|apply Hr].
Qed.
End access.

(** ** Copying a page through the tree *)

Lemma same_page_word v j : 0 <= v < 2 ^ 32 -> v mod PAGE_SIZE = 0 -> 0 <= j < 1024 ->
  u32 (v + 4 * j) = v + 4 * j /\ dirx (v + 4 * j) = dirx v /\ tabx (v + 4 * j) = tabx v /\
  (v + 4 * j) mod PAGE_SIZE = 4 * j.
Proof.
  unfold PAGE_SIZE. intros Hv Hva Hj. pose proof (Z.div_mod v 4096 ltac:(lia)) as Hdm.
  assert ((v + 4 * j) / 4096 = v / 4096) as Hq.
  { symmetry. apply (Z.div_unique _ _ _ (4 * j)); lia. }
  split; [apply wrap_small; lia|]. split; [|split].
  - unfold dirx, PAGE_DIR_SHIFT. rewrite !Z.shiftr_div_pow2 by lia. change (2 ^ 22) with (4096 * 1024).
    rewrite <- !Z.div_div by lia. by rewrite Hq.
  - rewrite !tabx_eq by lia. unfold PAGE_SIZE. by rewrite Hq.
  - symmetry. apply (Z.mod_unique _ _ (v / 4096)); lia.
Qed.

Section copy.
Context (c v e x p : Z).
Context (Hv : 0 <= v < 2 ^ 32) (Hva : v mod PAGE_SIZE = 0) (Hj : 0 <= dirx v < 1024 /\ 0 <= tabx v < 1024).
Context (Hc : c mod PAGE_SIZE = 0 /\ 0 < c /\ c + PAGE_SIZE <= 2 ^ 32).
Context (Ht : tbl e mod PAGE_SIZE = 0 /\ 0 < tbl e /\ tbl e + PAGE_SIZE <= 2 ^ 32).
Context (Hp : p mod PAGE_SIZE = 0 /\ 0 < p /\ p + PAGE_SIZE <= 2 ^ 32).
Context (Hx : tbl x mod PAGE_SIZE = 0 /\ 0 < tbl x /\ tbl x + PAGE_SIZE <= 2 ^ 32).
Context (Hpe : Z.land e PAGE_PRESENT <> 0) (Hpx : Z.land x PAGE_PRESENT <> 0).
Context (Hne : tbl x <> c /\ tbl x <> tbl e /\ tbl x <> p).

Lemma translate_run s j : cr3 s = c -> words s !! (c + 4 * dirx v) = Some e ->
  words s !! (tbl e + 4 * tabx v) = Some x -> 0 <= j < 1024 ->
  translate (u32 (v + 4 * j)) s = Ok (tbl x + 4 * j, s).
Proof.
  intros Hcr He Hw Hj0. destruct (same_page_word v j Hv Hva Hj0) as (-> & Hd & Htx & Hm).
  unfold PAGE_SIZE in *. unfold translate, get_cr3. rewrite run_gets, Hcr. fold (dirx (v + 4 * j)) (tabx (v + 4 * j)).
  rewrite Hd, Htx. rewrite (kernel_bind_run _ _ _ _ _ (run_word c (dirx v) e s ltac:(lia) He)).
  rewrite (proj2 (Z.eqb_neq _ 0)) by done. fold (tbl e).
  rewrite (kernel_bind_run _ _ _ _ _ (run_word (tbl e) (tabx v) x s ltac:(lia) Hw)).
  rewrite (proj2 (Z.eqb_neq _ 0)) by done. fold (tbl x). unfold PAGE_SIZE. rewrite Hm. done.
Qed.

#[local] Abbreviation body := (fun j => w ← word (VIRT_MEM p) j; a ← translate (u32 (v + 4 * j)); store a w).

Lemma copy_loop n : forall s k, cr3 s = c -> words s !! (c + 4 * dirx v) = Some e ->
  words s !! (tbl e + 4 * tabx v) = Some x -> page_words (words s) p -> page_words (words s) (tbl x) ->
  0 <= k -> k + Z.of_nat n <= 1024 ->
  exists w, for_each k n body s = Ok (tt, s <| words := w |>) /\ dom w = dom (words s) /\
    (forall j, k <= j < k + Z.of_nat n -> w !! (tbl x + 4 * j) = words s !! (p + 4 * j)) /\
    (forall a, ~ (tbl x + 4 * k <= a < tbl x + PAGE_SIZE) -> w !! a = words s !! a).
Proof.
  induction n as [|n IH]; intros s k Hcr He Hw Hpw Hxw Hk Hn.
  - exists (words s). split; [by destruct s|]. split; [done|]. split; [lia|done].
  - destruct (Hpw k ltac:(lia)) as [y Hy]. destruct (Hxw k ltac:(lia)) as [z Hz].
    set (s1 := s <| words := <[tbl x + 4 * k := y]> (words s) |>).
    assert (body k s = Ok (tt, s1)) as H1.
    { unfold PAGE_SIZE in Hp. rewrite (kernel_bind_run _ _ _ _ _ (run_word p k y s ltac:(lia) Hy)).
      rewrite (kernel_bind_run _ _ _ _ _ (translate_run s k Hcr He Hw ltac:(lia))).
      unfold store. by rewrite Hz. }
    assert (forall b j, b mod PAGE_SIZE = 0 -> b <> tbl x -> 0 <= j < 1024 ->
      words s1 !! (b + 4 * j) = words s !! (b + 4 * j)) as Hkeep.
    { intros b j Hb Hbx Hj0. apply lookup_insert_ne. apply pages_apart; try done; [apply Hx|lia]. }
    assert (dom (words s1) = dom (words s)) as Hdom1 by (apply dom_insert_lookup_L; by eexists).
    destruct (IH s1 (k + 1)) as (w & H2 & Hd & Hcopy & Ho); [done| | | | |lia|lia|].
    { rewrite Hkeep; [done|apply Hc|apply not_eq_sym, Hne|apply Hj]. }
    { rewrite Hkeep; [done|apply Ht|apply not_eq_sym, Hne|apply Hj]. }
    { intros j Hj0. rewrite Hkeep; [by apply Hpw|apply Hp|apply not_eq_sym, Hne|done]. }
    { intros j Hj0. apply elem_of_dom. rewrite Hdom1. apply elem_of_dom. by apply Hxw. }
    exists w. split; [exact (for_each_split k n body s s1 _ H1 H2)|]. split; [by rewrite Hd|]. split.
    + intros j Hj0. destruct (decide (j = k)) as [->|Hjk].
      * rewrite Ho by lia. rewrite Hy. apply lookup_insert_eq.
      * rewrite Hcopy by lia. apply Hkeep; [apply Hp|apply not_eq_sym, Hne|lia].
    + intros a Ha. unfold PAGE_SIZE in *. rewrite Ho by lia. apply lookup_insert_ne. lia.
Qed.

Lemma memcpy_virt_run s : cr3 s = c -> words s !! (c + 4 * dirx v) = Some e ->
  words s !! (tbl e + 4 * tabx v) = Some x -> page_words (words s) p -> page_words (words s) (tbl x) ->
  exists w, memcpy_virt v (VIRT_MEM p) PAGE_SIZE s = Ok (tt, s <| words := w |>) /\ dom w = dom (words s) /\
    (forall j, 0 <= j < 1024 -> w !! (tbl x + 4 * j) = words s !! (p + 4 * j)) /\
    (forall a, ~ in_page (tbl x) a -> w !! a = words s !! a).
Proof.
  intros Hcr He Hw Hpw Hxw.
  destruct (copy_loop 1024 s 0 Hcr He Hw Hpw Hxw ltac:(lia) ltac:(lia)) as (w & Hrun & Hd & Hcopy & Ho).
  exists w. split; [exact Hrun|]. split; [done|]. split; [intros j Hj0; apply Hcopy; lia|].
  intros a Ha. apply Ho. unfold in_page in Ha. lia.
Qed.
End copy.

(** ** Write faults *)

Section write_fault.
Context (image : Z -> kernel (bool * Z * Z)) (s : machine) (l : list Z) (a err : Z) (success : bool).
#[local] Abbreviation v := (Z.land a PAGE_MASK).
Context (Hr : reachable s l v) (Herr : Z.land err PFAULT_PROTVIOL <> 0).
#[local] Abbreviation x := (entry s v).
#[local] Abbreviation p := (tbl x).

Lemma fault_entry (k : Z -> kernel bool) : (get_table_entry 0 v ≫= k) s = k x s.
Proof. by rewrite (kernel_bind_run _ _ _ _ _ (get_entry_run s l v Hr)). Qed.

Lemma trans_protection : trans image a err success s =
  (if Z.land x PAGE_COW =? 0 then mret success else
   n ← map_at (MAP_NR p);
   if n =? 1 then
     _ ← set_table_entry 0 v (Z.lor (land_not 32 x PAGE_COW) PAGE_RW); mret true
   else
     page ← get_page;
     _ ← show_page 0 page v PAGE_SHARED;
     _ ← memcpy_virt v (VIRT_MEM p) PAGE_SIZE;
     n ← map_at (MAP_NR p);
     _ ← set_map (MAP_NR p) (n - 1);
     mret true) s.
Proof.
  unfold trans. cbv zeta. destruct (re_page _ _ _ Hr) as [Hv _].
  rewrite (proj2 (Z.leb_gt KERNEL_VIRT_BASE v)), andb_false_r by lia.
  rewrite (proj2 (Z.eqb_neq _ 0)) by done. cbn [negb]. apply fault_entry.
Qed.

(** A page that is not to be copied is a violation: nothing is changed. *)
Lemma trans_violation : Z.land x PAGE_COW = 0 -> trans image a err success s = Ok (success, s).
Proof. intros Hx. by rewrite trans_protection, Hx. Qed.

Lemma uses_map n : uses s p = Some n -> map_at (MAP_NR p) s = Ok (n, s).
Proof. intros Hn. destruct (tbl_nr x) as [H0 Hq]. apply run_map_at; [by rewrite Hq|done]. Qed.

(** The last user of a page may write to it again. *)
Lemma trans_last : Z.land x PAGE_COW <> 0 -> uses s p = Some 1 ->
  trans image a err success s = Ok (true,
    s <| words := <[place (words s) (cr3 s) v := Z.lor (land_not 32 x PAGE_COW) PAGE_RW]> (words s) |>).
Proof.
  intros Hx Hu. rewrite trans_protection, (proj2 (Z.eqb_neq _ 0)) by done.
  rewrite (kernel_bind_run _ _ _ _ _ (uses_map 1 Hu)). change (1 =? 1) with true. cbv iota.
  by rewrite (kernel_bind_run _ _ _ _ _ (set_entry_run s l v Hr _)).
Qed.

(** Any other user gets a copy. *)
Lemma trans_copy q l' n : l = q :: l' -> allocator s l -> pages_backed s ->
  Z.land x PAGE_COW <> 0 -> uses s p = Some n -> 1 < n < 2 ^ 16 ->
  page s p -> p <> cr3 s -> p <> tbl (dent (words s) (cr3 s) (dirx v)) ->
  exists w next,
    trans image a err success s = Ok (true, (taken s q next) <| words := w |>
      <| mem_map := <[Z.to_nat (p / PAGE_SIZE) := n - 1]> (mem_map (taken s q next)) |>) /\
    dom w = dom (words s) /\ q <> p /\
    w !! place (words s) (cr3 s) v = Some (Z.lor q PAGE_SHARED) /\
    (forall j, 0 <= j < 1024 -> w !! (q + 4 * j) = words s !! (p + 4 * j)) /\
    (forall b, ~ in_page q b -> b <> place (words s) (cr3 s) v -> w !! b = words s !! b).
Proof.
  intros Hl Hal Hb Hx Hu Hn Hpp Hpc Hpt. rewrite Hl in Hal.
  pose proof (al_pages _ _ Hal) as [[Hqa Hqr] _]%Forall_cons. destruct (al_end _ _ Hal) as [Hend _].
  assert (q <> p) as Hqp.
  { intros Heq. assert (uses s q = Some 0) as H0 by (apply (uses_free s (q :: l')); [done|by split|left]).
    rewrite Heq, Hu in H0. injection H0 as H0. lia. }
  destruct (table_facts s _ v Hr) as (Hta & Ht0 & Htm & Htp & Htc & Htl).
  rewrite Hl in Htl. apply not_elem_of_cons in Htl as [Htq _]. destruct (tr_dir _ _ _ (re_tree _ _ _ Hr)) as (Hc0 & Hca & Hcm & Hcl).
  rewrite Hl in Hcl. apply not_elem_of_cons in Hcl as [Hcq _]. destruct (tbl_nr x) as [Hi Hq].
  pose proof (v_dirx s _ v Hr) as Hvd. pose proof (v_tabx s _ v Hr) as Hvt.
  rewrite trans_protection, (proj2 (Z.eqb_neq (Z.land x PAGE_COW) 0)) by done.
  rewrite (kernel_bind_run _ _ _ _ _ (uses_map n Hu)), (proj2 (Z.eqb_neq n 1)) by lia.
  destruct (get_page_run s q l' Hal) as (next & Hrun & _). rewrite (kernel_bind_run _ _ _ _ _ Hrun).
  set (s1 := taken s q next). assert (reachable s1 l v) as Hr1 by (destruct Hr; by split).
  rewrite (kernel_bind_run _ _ _ _ _ (show_page_run s1 _ v Hr1 q PAGE_SHARED ltac:(lia) Hqa)).
  set (s2 := s1 <| words := _ |>). set (e := dent (words s) (cr3 s) (dirx v)).
  destruct (tbl_join q PAGE_SHARED ltac:(lia) Hqa ltac:(done)) as [Hjoin Hjr].
  destruct (memcpy_virt_run (cr3 s) v e (Z.lor q PAGE_SHARED) p) with (s := s2)
    as (w & Hcopy & Hdom & Hwords & Hother); rewrite ?Hjoin; try done.
  - apply (v_range s _ v Hr).
  - apply (re_page _ _ _ Hr).
  - split; [apply aligned_tbl|]. destruct Hpp as [_ Hpp]. split; [lia|]. unfold PAGE_SIZE in *.
    pose proof (proj1 (aligned_tbl x)) as Hpa. unfold PAGE_SIZE in Hpa.
    pose proof (Z.div_mod (tbl x) 4096 ltac:(lia)). lia.
  - unfold PAGE_SIZE in *. lia.
  - apply (re_present _ _ _ Hr).
  - rewrite Z.land_lor_distr_l. intros H0%Z.lor_eq_0_iff. destruct H0 as [_ H0]. by vm_compute in H0.
  - change (words s2) with (<[place (words s) (cr3 s) v := Z.lor q PAGE_SHARED]> (words s)).
    rewrite lookup_insert_ne; [by apply (dir_word s l v)|]. by apply pages_apart.
  - change (words s2) with (<[place (words s) (cr3 s) v := Z.lor q PAGE_SHARED]> (words s)).
    apply lookup_insert_eq.
  - apply page_words_insert. by apply Hb.
  - apply page_words_insert. apply Hb. by split.
  - rewrite Hjoin in Hwords, Hother.
    rewrite (kernel_bind_run _ _ _ _ _ Hcopy). set (s3 := s2 <| words := w |>).
    assert (mem_map s3 !! Z.to_nat (MAP_NR p) = Some n) as Hmap.
    { change (mem_map s3) with (<[Z.to_nat (q / PAGE_SIZE) := 1]> (mem_map s)). rewrite Hq.
      rewrite list_lookup_insert_ne; [exact Hu|]. intros Heq. apply Hqp.
      apply aligned_inj; [split; [done|lia]|apply aligned_tbl|].
      apply Z2Nat.inj in Heq; [done|apply Z.div_pos; unfold PAGE_SIZE; lia|lia]. }
    rewrite (kernel_bind_run _ _ _ _ _ (run_map_at _ n s3 Hmap Hi)).
    rewrite (kernel_bind_run _ _ _ _ _ (run_set_map _ (n - 1) s3 ltac:(by eexists) Hi ltac:(lia))).
    exists w, next. rewrite Hq. split; [done|]. split; [|split; [done|split; [|split]]].
    + rewrite Hdom. change (words s2) with (<[place (words s) (cr3 s) v := Z.lor q PAGE_SHARED]> (words s)).
      apply dom_insert_lookup_L. rewrite (entry_word s _ v Hr). by eexists.
    + rewrite Hother; [apply lookup_insert_eq|]. unfold place. apply not_in_page; [done|done|by apply not_eq_sym|done].
    + intros j Hj. rewrite Hwords by done. apply lookup_insert_ne. unfold place.
      apply pages_apart; try done. apply aligned_tbl.
    + intros b Hbq Hbp. rewrite Hother by done. by apply lookup_insert_ne.
Qed.
End write_fault.

(** ** Fork, and both programs write *)

Lemma land_present e f : 0 <= e -> 0 <= f -> e mod PAGE_SIZE = f mod PAGE_SIZE ->
  Z.land e PAGE_PRESENT = Z.land f PAGE_PRESENT.
Proof.
  intros He Hf Hm. change PAGE_PRESENT with (2 ^ 1 - 1). rewrite !land_mask by lia.
  unfold PAGE_SIZE in Hm. change 4096 with (2 ^ 1 * 2 ^ 11) in Hm.
  rewrite !Z.rem_mul_r in Hm by lia.
  pose proof (Z.mod_pos_bound e (2 ^ 1) ltac:(lia)). pose proof (Z.mod_pos_bound f (2 ^ 1) ltac:(lia)). lia.
Qed.

(** A writable entry is shared and given back. *)
Lemma shared_back x : 0 <= x < 2 ^ 32 -> Z.land x PAGE_RW <> 0 -> Z.land x PAGE_COW = 0 ->
  let y := shared COPY_ON_WRITE x in
  Z.land y PAGE_COW <> 0 /\ Z.lor (land_not 32 y PAGE_COW) PAGE_RW = x.
Proof.
  intros Hx Hrw Hcow. unfold shared. destruct (Z.eqb_spec x 0) as [->|_]; [done|].
  set (x1 := land_not 32 x PAGE_RW).
  assert (forall b i, Z.land b (2 ^ i) = 0 <-> Z.testbit b i = false \/ i < 0) as Hbit.
  { intros b i. destruct (decide (0 <= i)) as [Hi|Hi].
    - split.
      + intros H0. left. pose proof (f_equal (fun z => Z.testbit z i) H0) as Ht. cbv beta in Ht.
        by rewrite Z.land_spec, Z.pow2_bits_true, andb_true_r, Z.bits_0 in Ht.
      + intros [H|H]; [|lia]. apply Z.bits_inj'. intros j Hj. rewrite Z.land_spec, Z.bits_0.
        destruct (decide (i = j)) as [->|Hij]; [by rewrite H|]. by rewrite Z.pow2_bits_false, andb_false_r by done.
    - rewrite Z.pow_neg_r, Z.land_0_r by lia. split; [intros _; right; lia|done]. }
  change PAGE_RW with (2 ^ 1) in Hrw. change PAGE_COW with (2 ^ 9) in Hcow. rewrite Hbit in Hrw, Hcow.
  split.
  - change PAGE_COW with (2 ^ 9). rewrite Z.land_lor_distr_l, Z.land_diag. intros [_ H]%Z.lor_eq_0_iff. discriminate H.
  - apply Z.bits_inj'. intros i Hi. unfold x1, land_not.
    rewrite !Z.lor_spec, !Z.land_spec, !Z.lxor_spec, Z.lor_spec, Z.land_spec, Z.lxor_spec.
    change (2 ^ 32 - 1) with (Z.ones 32). change PAGE_RW with (2 ^ 1). change PAGE_COW with (2 ^ 9).
    destruct (decide (i < 32)) as [Hlt|Hge].
    + rewrite Z.ones_spec_low by lia. rewrite !Z.pow2_bits_eqb by lia.
      destruct (Z.eqb_spec 1 i) as [H1|H1], (Z.eqb_spec 9 i) as [H9|H9]; try lia; [subst i|subst i|].
      * destruct (Z.testbit x 1); [done|]. exfalso. apply Hrw. by left.
      * destruct Hcow as [->|]; [done|lia].
      * by destruct (Z.testbit x i).
    + assert (Z.testbit x i = false) as ->.
      { destruct (decide (x = 0)) as [->|]; [apply Z.bits_0|]. apply Z.bits_above_log2; [lia|].
        apply Z.log2_lt_pow2; [lia|]. apply Z.lt_le_trans with (2 ^ 32); [lia|]. apply Z.pow_le_mono_r; lia. }
      rewrite Z.ones_spec_high by lia. rewrite !Z.pow2_bits_eqb by lia.
      destruct (Z.eqb_spec 1 i), (Z.eqb_spec 9 i); (lia || done).
Qed.

Section fork.
Context (image : Z -> kernel (bool * Z * Z)) (t : Z) (s : machine) (l : list Z) (a : Z).
#[local] Abbreviation v := (Z.land a PAGE_MASK).
#[local] Abbreviation x := (tent (words s) t (dirx v) (tabx v)).
#[local] Abbreviation y := (shared COPY_ON_WRITE x).
#[local] Abbreviation p := (tbl x).

(** The page of [a] is mapped once, for writing, and it is not itself a part of
    the tree; there is a page more than the copy of the tree needs. *)
Record writable_page : Prop := {
  wp_copy : copyable t s l;
  wp_room : 2 + tables (words s) t 1024 <= Z.of_nat (length l);
  wp_virt : 0 <= v < KERNEL_VIRT_BASE;
  wp_dir : Z.land (dent (words s) t (dirx v)) PAGE_PRESENT <> 0;
  wp_entry : 0 <= x < 2 ^ 32 /\ Z.land x PAGE_RW <> 0 /\ Z.land x PAGE_COW = 0;
  wp_page : page s p /\ uses s p = Some 1 /\ tree_refs (words s) t 1024 p = 1;
  wp_data : p <> t /\ forall i, 0 <= i < 1024 -> tbl (dent (words s) t i) <> p
}.
Context (Hw : writable_page).

Lemma virt_aligned : v mod PAGE_SIZE = 0.
Proof. exact (proj1 (aligned_tbl a)). Qed.

Lemma virt_32 : 0 <= v < 2 ^ 32.
Proof. pose proof (wp_virt Hw). unfold KERNEL_VIRT_BASE in *. lia. Qed.

Lemma virt_index : 0 <= dirx v < 1024 /\ 0 <= tabx v < 1024.
Proof. pose proof virt_32. split; [by apply dirx_range|apply tabx_range; lia]. Qed.

Lemma x_nonzero : x <> 0.
Proof. destruct (wp_entry Hw) as (_ & H & _). intros H0. rewrite H0 in H. by apply H. Qed.

Lemma table_there : tbl (dent (words s) t (dirx v)) <> 0.
Proof. pose proof x_nonzero as H. unfold tent in H. by destruct (Z.eqb_spec (tbl (dent (words s) t (dirx v))) 0). Qed.

(** The two programs after the fork, with [q] the next free page. *)
Record forked (d : Z) (s1 : machine) (q : Z) (li : list Z) : Prop := {
  fo_alloc : allocator s1 (q :: li);
  fo_back : pages_backed s1;
  fo_parent : tree_ok (words s1) (q :: li) t;
  fo_child : tree_ok (words s1) (q :: li) d;
  fo_apart : apart (words s1) t d;
  fo_parent_table : tbl (dent (words s1) t (dirx v)) <> 0 /\ Z.land (dent (words s1) t (dirx v)) PAGE_PRESENT <> 0;
  fo_child_table : tbl (dent (words s1) d (dirx v)) <> 0 /\ Z.land (dent (words s1) d (dirx v)) PAGE_PRESENT <> 0;
  fo_entries : tent (words s1) t (dirx v) (tabx v) = y /\ tent (words s1) d (dirx v) (tabx v) = y;
  fo_uses : uses s1 p = Some 2;
  fo_page : page s1 p /\ p <> t /\ p <> d;
  fo_data : tbl (dent (words s1) t (dirx v)) <> p /\ tbl (dent (words s1) d (dirx v)) <> p;
  fo_same : forall j, 0 <= j < 1024 -> words s1 !! (p + 4 * j) = words s !! (p + 4 * j)
}.

Lemma fork_run : exists d s1 q li, copy_page_tree t COPY_ON_WRITE s = Ok (d, s1) /\ forked d s1 q li.
Proof.
  pose proof (wp_copy Hw) as Hc. destruct virt_index as [Hi Hj].
  destruct (copy_page_tree_run COPY_ON_WRITE t s l) as (d & s2 & taken & l' & Hrun & Hinv & Hd); try apply Hc.
  destruct (ti_list _ _ _ _ _ _ _ _ _ Hinv) as [Hl Hlen]. pose proof (wp_room Hw) as Hroom.
  change (words (s <| if_flag := false |>)) with (words s) in Hlen.
  destruct l' as [|q li].
  { rewrite app_nil_r in Hl. rewrite Hl in Hroom. lia. }
  destruct (wp_page Hw) as (Hp & Hu & Hrefs). destruct (wp_data Hw) as [Hpt Hpd].
  assert (forall r, r ∈ taken -> r <> p) as Htk.
  { intros r Hr ->. assert (uses s p = Some 0) as H0.
    { apply (uses_free s l p (cp_alloc _ _ _ Hc) Hp). rewrite Hl. apply elem_of_app. by left. }
    by rewrite Hu in H0. }
  exists d, (s2 <| if_flag := if_flag s |>), q, li. split; [exact Hrun|].
  pose proof (fr_end _ _ (ti_frame _ _ _ _ _ _ _ _ _ Hinv)) as Hend. cbn in Hend.
  pose proof (ti_dir _ _ _ _ _ _ _ _ _ Hinv _ Hi) as Hdir.
  pose proof (ti_bits _ _ _ _ _ _ _ _ _ Hinv (dirx v) ltac:(lia) table_there) as [Hbits Hct].
  change (words (s <| if_flag := false |>)) with (words s) in *.
  destruct (dent_at _ _ _ _ (ti_copy _ _ _ _ _ _ _ _ _ Hinv) Hi) as [_ Hdr].
  destruct (dent_at _ _ _ _ (cp_tree _ _ _ Hc) Hi) as [_ Htr].
  split; unfold upd; cbn [words].
  - by destruct (ti_alloc _ _ _ _ _ _ _ _ _ Hinv).
  - apply (frame_backed _ _ (ti_frame _ _ _ _ _ _ _ _ _ Hinv)). apply Hc.
  - apply (ti_tree _ _ _ _ _ _ _ _ _ Hinv).
  - apply (ti_copy _ _ _ _ _ _ _ _ _ Hinv).
  - apply (ti_apart _ _ _ _ _ _ _ _ _ Hinv).
  - rewrite Hdir. split; [apply table_there|apply (wp_dir Hw)].
  - split; [exact Hct|]. rewrite (land_present _ (dent (words s) t (dirx v))) by (done || lia). apply (wp_dir Hw).
  - rewrite (ti_src _ _ _ _ _ _ _ _ _ Hinv), (ti_dst _ _ _ _ _ _ _ _ _ Hinv) by done.
    by rewrite (proj2 (Z.ltb_lt _ _)) by lia.
  - etransitivity; [exact (ti_uses _ _ _ _ _ _ _ _ _ Hinv p (aligned_tbl x) (fun Hin => Htk _ Hin eq_refl))|].
    change (uses (s <| if_flag := false |>) p) with (uses s p).
    change (words (s <| if_flag := false |>)) with (words s). by rewrite Hu, Hrefs.
  - split; [by unfold page in *; cbn; rewrite Hend|]. split; [done|]. apply not_eq_sym, Htk, Hd.
  - split; [rewrite Hdir; by apply Hpd|]. apply Htk, (ti_own _ _ _ _ _ _ _ _ _ Hinv); [done|exact Hct].
  - intros j Hj'. apply (ti_other _ _ _ _ _ _ _ _ _ Hinv).
    + apply not_in_page; [|apply aligned_tbl|apply not_eq_sym, Htk, Hd|done].
      apply (tr_dir _ _ _ (ti_copy _ _ _ _ _ _ _ _ _ Hinv)).
    + intros r Hr. apply not_in_page; [|apply aligned_tbl|apply not_eq_sym, Htk, Hr|done].
      assert (r ∈ l) as Hrl by (rewrite Hl; apply elem_of_app; by left).
      apply (proj1 (Forall_forall _ _) (al_pages _ _ (cp_alloc _ _ _ Hc)) _ Hrl).
    + intros i Hi' _. apply not_in_page; [apply aligned_tbl|apply aligned_tbl|apply not_eq_sym, Hpd, Hi'|done].
Qed.

Section writes.
Context (d : Z) (s1 : machine) (q : Z) (li : list Z) (Hf : forked d s1 q li).
Context (err : Z) (Herr : Z.land err PFAULT_PROTVIOL <> 0).
#[local] Abbreviation pt := (place (words s1) t v).
#[local] Abbreviation pd := (place (words s1) d v).

(** All the pages involved are different. *)
Lemma fork_pages : q mod PAGE_SIZE = 0 /\ 0 < q < 2 ^ 30 /\ q <> t /\ q <> d /\
  q <> tbl (dent (words s1) t (dirx v)) /\ q <> tbl (dent (words s1) d (dirx v)) /\ q <> p /\ pt <> pd.
Proof.
  destruct virt_index as [Hi Hj]. destruct (al_end _ _ (fo_alloc _ _ _ _ Hf)) as [He _].
  pose proof (al_pages _ _ (fo_alloc _ _ _ _ Hf)) as [[Hqa Hqr] _]%Forall_cons.
  destruct (tr_dir _ _ _ (fo_parent _ _ _ _ Hf)) as (_ & _ & _ & [Hqt _]%not_elem_of_cons).
  destruct (tr_dir _ _ _ (fo_child _ _ _ _ Hf)) as (_ & _ & _ & [Hqd _]%not_elem_of_cons).
  destruct (fo_parent_table _ _ _ _ Hf) as [Htt _]. destruct (fo_child_table _ _ _ _ Hf) as [Htd _].
  destruct (dent_table _ _ _ _ (fo_parent _ _ _ _ Hf) Hi Htt) as (_ & _ & [Hqp _]%not_elem_of_cons).
  destruct (dent_table _ _ _ _ (fo_child _ _ _ _ Hf) Hi Htd) as (_ & _ & [Hqc _]%not_elem_of_cons).
  destruct (fo_page _ _ _ _ Hf) as (Hp & _).
  assert (q <> p) as Hne.
  { intros Heq. assert (uses s1 q = Some 0) as H0
      by (apply (uses_free s1 (q :: li)); [apply Hf|by split|left]).
    rewrite Heq, (fo_uses _ _ _ _ Hf) in H0. discriminate H0. }
  split; [done|]. split; [lia|]. do 5 (split; [by apply not_eq_sym|]).
  apply pages_apart; [apply aligned_tbl|apply aligned_tbl| |done|done].
  by apply (ap_tables _ _ _ (fo_apart _ _ _ _ Hf)).
Qed.

(** The child writes: it gets a copy in the page [q]. *)
Lemma child_writes : exists w next,
  let s2 := (taken (s1 <| cr3 := d |>) q next) <| words := w |>
    <| mem_map := <[Z.to_nat (p / PAGE_SIZE) := 1]> (<[Z.to_nat (q / PAGE_SIZE) := 1]> (mem_map s1)) |> in
  trans image a err false (s1 <| cr3 := d |>) = Ok (true, s2) /\ dom w = dom (words s1) /\
  w !! pd = Some (Z.lor q PAGE_SHARED) /\
  (forall j, 0 <= j < 1024 -> w !! (q + 4 * j) = words s !! (p + 4 * j)) /\
  (forall b, ~ in_page q b -> b <> pd -> w !! b = words s1 !! b).
Proof.
  set (sc := s1 <| cr3 := d |>).
  assert (reachable sc (q :: li) v) as Hr.
  { split; [apply Hf|split; [apply (wp_virt Hw)|apply virt_aligned]|apply Hf|apply Hf]. }
  assert (entry sc v = y) as Hy by apply (fo_entries _ _ _ _ Hf).
  assert (tbl (entry sc v) = p) as Hpy by (rewrite Hy; apply tbl_shared, x_nonzero).
  destruct (wp_entry Hw) as (Hx & Hrw & Hcow). destruct (shared_back x Hx Hrw Hcow) as [Hyc _].
  destruct (fo_page _ _ _ _ Hf) as (Hp & _ & Hpd).
  destruct (trans_copy image sc (q :: li) a err false Hr Herr q li 2) as (w & next & Hrun & Hdom & _ & Hpl & Hq & Ho).
  - done.
  - by destruct (fo_alloc _ _ _ _ Hf).
  - apply Hf.
  - by rewrite Hy.
  - rewrite Hpy. apply (fo_uses _ _ _ _ Hf).
  - done.
  - by rewrite Hpy.
  - by rewrite Hpy.
  - rewrite Hpy. apply not_eq_sym, (fo_data _ _ _ _ Hf).
  - rewrite Hpy in *. exists w, next. split; [exact Hrun|]. split; [exact Hdom|]. split; [exact Hpl|].
    split; [|exact Ho]. intros j Hj. rewrite Hq by done. by apply (fo_same _ _ _ _ Hf).
Qed.

(** Where the first write fault leaves the memory alone. *)
Lemma kept (w : gmap Z Z) : (forall b, ~ in_page q b -> b <> pd -> w !! b = words s1 !! b) ->
  forall r j, r mod PAGE_SIZE = 0 -> r <> q -> r <> tbl (dent (words s1) d (dirx v)) -> 0 <= j < 1024 ->
  w !! (r + 4 * j) = words s1 !! (r + 4 * j).
Proof.
  intros Ho r j Hr Hrq Hrt Hj. apply Ho.
  - apply not_in_page; [apply fork_pages|done|done|done].
  - apply pages_apart; [done|apply aligned_tbl|done|done|apply virt_index].
Qed.

Lemma parent_tree (w : gmap Z Z) : dom w = dom (words s1) ->
  (forall b, ~ in_page q b -> b <> pd -> w !! b = words s1 !! b) ->
  tree_ok w li t /\ dent w t (dirx v) = dent (words s1) t (dirx v) /\
  tree_ok w li d /\ dent w d (dirx v) = dent (words s1) d (dirx v).
Proof.
  intros Hdom Ho. destruct fork_pages as (Hqa & _ & Hqt & Hqd & _). destruct virt_index as [Hi _].
  pose proof (fo_parent _ _ _ _ Hf) as Ht. pose proof (fo_child _ _ _ _ Hf) as Hd.
  destruct (fo_child_table _ _ _ _ Hf) as [Htd _].
  destruct (tr_dir _ _ _ Ht) as (_ & Hta & _), (tr_dir _ _ _ Hd) as (_ & Hda & _).
  assert (forall i, 0 <= i < 1024 -> w !! (t + 4 * i) = words s1 !! (t + 4 * i)) as Kt.
  { intros i Hi'. apply (kept w Ho); [done|by apply not_eq_sym| |done].
    apply not_eq_sym. by apply (ap_right _ _ _ (fo_apart _ _ _ _ Hf)). }
  assert (forall i, 0 <= i < 1024 -> w !! (d + 4 * i) = words s1 !! (d + 4 * i)) as Kd.
  { intros i Hi'. apply (kept w Ho); [done|by apply not_eq_sym| |done].
    apply not_eq_sym. by apply (dent_table _ _ _ _ Hd Hi Htd). }
  split; [apply (tree_ok_agree (words s1) w (q :: li)); (done || set_solver)|]. split; [unfold dent; by rewrite Kt|].
  split; [apply (tree_ok_agree (words s1) w (q :: li)); (done || set_solver)|]. unfold dent; by rewrite Kd.
Qed.

Lemma tree_root tree m : tree <> 0 -> root tree m = tree.
Proof. intros H. unfold root. by rewrite (proj2 (Z.eqb_neq tree 0)). Qed.

Lemma get_place m l0 tree : tree <> 0 -> tree_ok (words m) l0 tree ->
  tbl (dent (words m) tree (dirx v)) <> 0 ->
  get_table_entry tree v m = Ok (default 0 (words m !! place (words m) tree v), m).
Proof.
  intros H0 Hok Ht. pose proof virt_32 as Hv.
  destruct (get_table_entry_run tree v m l0) as (e & He & Hrun); [by rewrite tree_root|done|].
  rewrite tree_root, (entry_tent _ l0) in He by done. injection He as <-. rewrite Hrun. f_equal. f_equal.
  unfold tent. by rewrite (proj2 (Z.eqb_neq _ 0)).
Qed.

(** Then the parent writes: as the only user it gets its entry back. *)
Lemma both_write : exists s2 s3,
  trans image a err false (s1 <| cr3 := d |>) = Ok (true, s2) /\
  trans image a err false (s2 <| cr3 := t |>) = Ok (true, s3) /\
  get_table_entry d v s3 = Ok (Z.lor q PAGE_SHARED, s3) /\ get_table_entry t v s3 = Ok (x, s3) /\ q <> p /\
  (forall j, 0 <= j < 1024 -> words s3 !! (q + 4 * j) = words s !! (p + 4 * j) /\
    words s3 !! (p + 4 * j) = words s !! (p + 4 * j)) /\
  uses s3 p = Some 1 /\ uses s3 q = Some 1.
Proof.
  destruct child_writes as (w & next & Hrun & Hdom & Hpd & Hcopy & Ho).
  destruct fork_pages as (Hqa & Hqr & Hqt & Hqd & Hqpt & Hqpd & Hqp & Hne). destruct virt_index as [Hi Hj].
  set (s2 := _ <| mem_map := _ |>) in Hrun. exists s2. set (sp := s2 <| cr3 := t |>).
  destruct (parent_tree w Hdom Ho) as (Ht & Hdt & Hd & Hdd). destruct (fo_page _ _ _ _ Hf) as (Hp & Hpt & Hpdir).
  destruct (fo_parent_table _ _ _ _ Hf) as [Htt Htp]. destruct (fo_child_table _ _ _ _ Hf) as [Htd _].
  assert (reachable sp li v) as Hr.
  { split; [exact Ht|split; [apply (wp_virt Hw)|apply virt_aligned]| |]; change (cr3 sp) with t;
      change (words sp) with w; by rewrite Hdt. }
  assert (place w t v = pt) as Hplace by (unfold place; by rewrite Hdt).
  assert (entry sp v = y) as Hy.
  { unfold entry. change (cr3 sp) with t. change (words sp) with w. unfold tent at 1.
    rewrite Hdt, (proj2 (Z.eqb_neq _ 0)) by done.
    rewrite (kept w Ho); [|apply aligned_tbl|by apply not_eq_sym| |done].
    - rewrite <- (proj1 (fo_entries _ _ _ _ Hf)). unfold tent at 1. by rewrite (proj2 (Z.eqb_neq _ 0)).
    - by apply (ap_tables _ _ _ (fo_apart _ _ _ _ Hf)). }
  assert (tbl (entry sp v) = p) as Hpy by (rewrite Hy; apply tbl_shared, x_nonzero).
  pose proof (fo_uses _ _ _ _ Hf) as Hu. destruct (tbl_nr x) as [Hn0 Hnq]. rewrite Hnq in Hn0.
  assert (Z.to_nat (q / PAGE_SIZE) <> Z.to_nat (p / PAGE_SIZE)) as Hidx.
  { intros Heq. apply Hqp, aligned_inj; [split; [done|lia]|apply aligned_tbl|].
    apply Z2Nat.inj in Heq; [done|apply Z.div_pos; unfold PAGE_SIZE; lia|done]. }
  assert (uses sp p = Some 1) as Hup.
  { apply list_lookup_insert_eq. rewrite length_insert. apply lookup_lt_is_Some_1. unfold uses in Hu. by rewrite Hu. }
  destruct (wp_entry Hw) as (Hx & Hrw & Hcow). destruct (shared_back x Hx Hrw Hcow) as [Hyc Hback].
  pose proof (trans_last image sp li a err false Hr Herr) as Hlast. rewrite Hpy, Hy, Hback in Hlast.
  specialize (Hlast Hyc Hup). eexists. split; [exact Hrun|]. split; [exact Hlast|].
  change (words sp) with w. change (cr3 sp) with t. rewrite Hplace. clear Hlast Hrun.
  set (s3 := sp <| words := <[pt := x]> w |>).
  destruct (set_entry w li t v x (dent w t (dirx v)) Ht virt_32) as [Htree _].
  { by apply (dent_at _ li). }
  { by rewrite Hdt. }
  fold (place w t v) in Htree. rewrite Hplace in Htree.
  destruct (tr_dir _ _ _ Ht) as (Ht0 & Hta & _), (tr_dir _ _ _ Hd) as (Hd0 & Hda & _).
  assert (forall r j, r mod PAGE_SIZE = 0 -> r <> tbl (dent (words s1) t (dirx v)) -> 0 <= j < 1024 ->
    words s3 !! (r + 4 * j) = w !! (r + 4 * j)) as Hkeep.
  { intros r j Hra Hrt Hj'. apply lookup_insert_ne. apply not_eq_sym.
    apply pages_apart; [done|apply aligned_tbl|done|done|done]. }
  assert (tree_ok (words s3) li d) as Hdtree.
  { apply (tree_ok_agree w _ li); [done| | |done].
    - intros i Hi'. apply Hkeep; [done| |done]. apply not_eq_sym. by apply (ap_left _ _ _ (fo_apart _ _ _ _ Hf)).
    - apply dom_insert_lookup_L. rewrite <- Hplace. exists (entry sp v). exact (entry_word sp li v Hr). }
  assert (dent (words s3) d (dirx v) = dent (words s1) d (dirx v)) as Hd3.
  { rewrite <- Hdd. unfold dent. rewrite Hkeep; [done|done| |done].
    apply not_eq_sym. by apply (ap_left _ _ _ (fo_apart _ _ _ _ Hf)). }
  assert (dent (words s3) t (dirx v) = dent (words s1) t (dirx v)) as Ht3.
  { rewrite <- Hdt. unfold dent. rewrite Hkeep; [done|done| |done].
    apply not_eq_sym. by apply (dent_table _ _ _ _ (fo_parent _ _ _ _ Hf)). }
  split; [|split; [|split; [exact Hqp|split; [|split]]]].
  - rewrite (get_place s3 li d); [|lia|exact Hdtree|by rewrite Hd3]. unfold place. rewrite Hd3. fold pd.
    change (words s3) with (<[pt := x]> w). rewrite lookup_insert_ne by done. by rewrite Hpd.
  - rewrite (get_place s3 li t); [|lia|exact Htree|by rewrite Ht3]. unfold place. rewrite Ht3. fold pt.
    change (words s3) with (<[pt := x]> w). by rewrite lookup_insert_eq.
  - intros j Hj'. destruct (fo_data _ _ _ _ Hf) as [Hdp1 Hdp2]. split.
    + rewrite Hkeep by done. by apply Hcopy.
    + rewrite Hkeep; [|apply aligned_tbl|by apply not_eq_sym|done].
      rewrite (kept w Ho); [|apply aligned_tbl|by apply not_eq_sym|by apply not_eq_sym|done].
      by apply (fo_same _ _ _ _ Hf).
  - exact Hup.
  - change (uses s3 q) with (<[Z.to_nat (p / PAGE_SIZE) := 1]> (<[Z.to_nat (q / PAGE_SIZE) := 1]> (mem_map s1)) !! Z.to_nat (q / PAGE_SIZE)).
    rewrite list_lookup_insert_ne by (by apply not_eq_sym). apply list_lookup_insert_eq.
    pose proof (al_pages _ _ (fo_alloc _ _ _ _ Hf)) as [Hqpage _]%Forall_cons.
    destruct (page_mapped s1 _ q (fo_alloc _ _ _ _ Hf) Hqpage) as (n & Hn & _).
    apply lookup_lt_is_Some_1. by exists n.
Qed.
End writes.
End fork.

(** C19: after a fork, both programs can write without seeing each other.  Take a
    page that is mapped once, for writing, and enough free pages.  Copying the
    page tree for copy on write, and then handling a write fault of the child
    and one of the parent at any address of that page, succeeds.  The child's
    tree then maps the page to a fresh page with the contents that the page had
    before the fork, writable, and the parent's tree has the entry that it had
    before the fork, with the contents unchanged; each page has one use. *)
Theorem fork_then_writes image t s l a err :
  writable_page t s l a -> Z.land err PFAULT_PROTVIOL <> 0 ->
  let v := Z.land a PAGE_MASK in
  let x := tent (words s) t (dirx v) (tabx v) in
  exists d s1 s2 s3 q,
    copy_page_tree t COPY_ON_WRITE s = Ok (d, s1) /\
    page_fault image a err (s1 <| cr3 := d |>) = Ok (true, s2) /\
    page_fault image a err (s2 <| cr3 := t |>) = Ok (true, s3) /\
    get_table_entry d v s3 = Ok (Z.lor q PAGE_SHARED, s3) /\ get_table_entry t v s3 = Ok (x, s3) /\
    q <> tbl x /\
    (forall j, 0 <= j < 1024 -> words s3 !! (q + 4 * j) = words s !! (tbl x + 4 * j) /\
      words s3 !! (tbl x + 4 * j) = words s !! (tbl x + 4 * j)) /\
    uses s3 (tbl x) = Some 1 /\ uses s3 q = Some 1.
Proof.
  intros Hw Herr v x. destruct (fork_run t s l a Hw) as (d & s1 & q & li & Hrun & Hf).
  destruct (both_write image t s l a Hw d s1 q li Hf err Herr) as (s2 & s3 & H2 & H3 & Hrest).
  exists d, s1, s2, s3, q. split; [exact Hrun|]. split; [exact H2|]. split; [exact H3|exact Hrest].
Qed.

Lemma one_page_writable : writable_page 4096 one_page [24576; 16384; 20480] 0x123.
Proof.
  assert (tent (words one_page) 4096 (dirx (Z.land 0x123 PAGE_MASK)) (tabx (Z.land 0x123 PAGE_MASK)) = 12295) as Hx
    by (rewrite one_page_tent by (vm_compute; split; congruence); reflexivity).
  split; rewrite ?Hx.
  - apply one_page_copyable.
  - by rewrite one_page_tables.
  - vm_compute. split; congruence.
  - rewrite one_page_dent by (vm_compute; split; congruence). discriminate.
  - split; [lia|]. split; [discriminate|reflexivity].
  - split; [apply one_page_user|]. split; [apply one_page_user|apply one_page_refs].
  - change (tbl 12295) with 12288. split; [discriminate|]. intros i Hi. rewrite one_page_dent by done.
    by destruct (i =? 0).
Qed.

Lemma fork_then_writes_witness :
  exists d s1 s2 s3 q,
    copy_page_tree 4096 COPY_ON_WRITE one_page = Ok (d, s1) /\
    page_fault (fun _ => mret (false, 0, 0)) 0x123 7 (s1 <| cr3 := d |>) = Ok (true, s2) /\
    page_fault (fun _ => mret (false, 0, 0)) 0x123 7 (s2 <| cr3 := 4096 |>) = Ok (true, s3) /\
    uses s3 12288 = Some 1 /\ uses s3 q = Some 1.
Proof.
  destruct (fork_then_writes (fun _ => mret (false, 0, 0)) 4096 one_page [24576; 16384; 20480] 0x123 7
    one_page_writable ltac:(discriminate)) as (d & s1 & s2 & s3 & q & H1 & H2 & H3 & _ & _ & _ & _ & Hp & Hq).
  exists d, s1, s2, s3, q. split; [exact H1|]. split; [exact H2|]. split; [exact H3|]. split; [|exact Hq].
  assert (tent (words one_page) 4096 (dirx (Z.land 0x123 PAGE_MASK)) (tabx (Z.land 0x123 PAGE_MASK)) = 12295) as Hx
    by (rewrite one_page_tent by (vm_compute; split; congruence); reflexivity).
  rewrite Hx in Hp. exact Hp.
Defined.
