(* ===== verification/PageInit.v ===== *)
(** * Setting up paging and the allocator

    [init_paging] fills the kernel's part of the boot page directory, and
    [init_memory] ends with the page allocator in a consistent state. *)

From S2P Require Import Prelude PhysMem PageAlloc PageTrees.
Open Scope Z_scope.

(** ** The loops of [init_paging] *)

(** The entry of the page at [a]. *)
Definition kernel_entry (s : machine) (a : Z) : Z :=
  if a <? mem_end s then Z.lor a PAGE_SHARED else 0.

Lemma run_store a v s : is_Some (words s !! a) ->
  store a v s = Ok (tt, s <| words := <[a := v]> (words s) |>).
Proof. intros [u Hu]. unfold store. by rewrite Hu. Qed.

Definition words_from (w : gmap Z Z) (p n : Z) : Prop :=
  forall j, 0 <= j < n -> is_Some (w !! (p + 4 * j)).

Lemma words_from_dom w w' p n : dom w' = dom w -> words_from w p n -> words_from w' p n.
Proof. intros Hd H j Hj. apply elem_of_dom. rewrite Hd. apply elem_of_dom. by apply H. Qed.

Lemma fill_table_run n p a s :
  0 <= p -> p + 4 * Z.of_nat n < 2 ^ 32 -> 0 <= a -> a + PAGE_SIZE * Z.of_nat n < 2 ^ 32 ->
  words_from (words s) p (Z.of_nat n) ->
  exists w, fill_table n p a s = Ok ((p + 4 * Z.of_nat n, a + PAGE_SIZE * Z.of_nat n), s <| words := w |>) /\
    dom w = dom (words s) /\
    (forall j, 0 <= j < Z.of_nat n -> w !! (p + 4 * j) = Some (kernel_entry s (a + PAGE_SIZE * j))) /\
    (forall x, x < p \/ p + 4 * Z.of_nat n <= x -> w !! x = words s !! x).
Proof.
  unfold PAGE_SIZE. revert p a s. induction n as [|n IH]; intros p a s Hp Hpm Ha Ham Hw.
  - exists (words s). rewrite !Z.mul_0_r, !Z.add_0_r. split; [by destruct s|].
    split; [done|]. split; [lia|done].
  - rewrite Nat2Z.inj_succ in *. cbn [fill_table]. rewrite run_gets.
    set (s1 := s <| words := <[p := kernel_entry s a]> (words s) |>).
    assert (is_Some (words s !! p)) as Hp0 by (specialize (Hw 0 ltac:(lia)); by rewrite Z.mul_0_r, Z.add_0_r in Hw).
    assert (dom (words s1) = dom (words s)) as Hd1 by (by apply dom_insert_lookup_L).
    rewrite (kernel_bind_run _ _ _ _ _ (run_store p (kernel_entry s a) s Hp0)). fold s1.
    unfold PAGE_SIZE at 1. rewrite !wrap_small by lia.
    destruct (IH (p + 4) (a + 4096) s1) as (w & Hrun & Hd & Hj & Ho); try lia.
    { intros j Hj. apply elem_of_dom. rewrite Hd1. apply elem_of_dom.
      replace (p + 4 + 4 * j) with (p + 4 * (j + 1)) by lia. apply Hw. lia. }
    exists w. split; [|split; [by rewrite Hd|split]].
    + rewrite Hrun. replace (p + 4 * Z.succ (Z.of_nat n)) with (p + 4 + 4 * Z.of_nat n) by lia.
      by replace (a + 4096 * Z.succ (Z.of_nat n)) with (a + 4096 + 4096 * Z.of_nat n) by lia.
    + intros j Hjr. destruct (decide (j = 0)) as [->|].
      * rewrite Ho by lia. rewrite !Z.mul_0_r, !Z.add_0_r. unfold s1, upd; cbn. apply lookup_insert_eq.
      * replace (p + 4 * j) with (p + 4 + 4 * (j - 1)) by lia. rewrite Hj by lia.
        unfold kernel_entry. replace (a + 4096 + 4096 * (j - 1)) with (a + 4096 * j) by lia. done.
    + intros x Hx. rewrite Ho by lia. unfold s1, upd; cbn. apply lookup_insert_ne. lia.
Qed.

(** The page directory at [d] (its kernel part) and the tables from [T]. *)
Definition filled (s : machine) (w : gmap Z Z) (d T : Z) (i n : Z) : Prop :=
  forall k, i <= k < i + n ->
    w !! (d + 4 * k) = Some (Z.lor (T + PAGE_SIZE * k) PAGE_TABLE) /\
    forall j, 0 <= j < 1024 ->
      w !! (T + PAGE_SIZE * k + 4 * j) = Some (kernel_entry s (PAGE_SIZE * (1024 * k + j))).

Lemma fill_dir_run d T e :
  0 <= d -> d + 4 * 256 <= T -> T + PAGE_SIZE * 257 < 2 ^ 31 -> 0 <= e <= 256 ->
  forall n fuel i junk s, 0 <= i -> i + Z.of_nat n = e -> (n < fuel)%nat ->
  (forall k, (k < e <-> PAGE_SIZE * 1024 * k < mem_end s)) ->
  words_from (words s) d e -> words_from (words s) T (1024 * e) ->
  exists w, fill_dir fuel (d + 4 * i) (T + PAGE_SIZE * i) junk (PAGE_SIZE * 1024 * i) s =
      Ok (match n with O => junk | _ => T + PAGE_SIZE * e end, s <| words := w |>) /\
    dom w = dom (words s) /\ filled s w d T i (Z.of_nat n) /\
    (forall x, x < d + 4 * i \/ (d + 4 * e <= x /\ x < T + PAGE_SIZE * i) \/ T + PAGE_SIZE * e <= x ->
      w !! x = words s !! x).
Proof.
  unfold PAGE_SIZE. intros Hd HdT HT He. induction n as [|n IH]; intros [|fuel] i junk s Hi Hie Hf Hend Hwd HwT;
    try lia.
  - exists (words s). cbn [fill_dir]. rewrite run_gets.
    rewrite (proj2 (Z.ltb_ge _ _)) by (destruct (Hend i); lia).
    split; [by destruct s|]. split; [done|]. split; [intros k Hk; lia|done].
  - cbn [fill_dir]. rewrite run_gets. rewrite (proj2 (Z.ltb_lt _ _)) by (apply Hend; lia).
    rewrite kernel_bind_run with (a := tt) (s' := s <| words := <[d + 4 * i := Z.lor (T + 4096 * i) PAGE_TABLE]> (words s) |>)
      by (apply run_store, Hwd; lia).
    set (s1 := s <| words := _ |>).
    assert (dom (words s1) = dom (words s)) as Hd1 by (apply dom_insert_lookup_L, Hwd; lia).
    destruct (fill_table_run 1024 (T + 4096 * i) (4096 * 1024 * i) s1) as (w1 & Hr1 & Hdw & Hj1 & Ho1);
      unfold PAGE_SIZE; try lia.
    { intros j Hj. apply elem_of_dom. rewrite Hd1. apply elem_of_dom.
      replace (T + 4096 * i + 4 * j) with (T + 4 * (1024 * i + j)) by lia. apply HwT. lia. }
    unfold PAGE_SIZE in *. change (Z.of_nat 1024) with 1024 in *.
    change (Z.to_nat PTRS_PER_PAGE) with 1024%nat. rewrite (kernel_bind_run _ _ _ _ _ Hr1). cbn [fst snd].
    set (s2 := s1 <| words := w1 |>).
    assert (dom (words s2) = dom (words s)) as Hd2 by (change (words s2) with w1; congruence).
    rewrite !wrap_small by lia.
    destruct (IH fuel (i + 1) (T + 4096 * (i + 1)) s2) as (w & Hrun & Hdw2 & Hfill & Ho); try lia.
    { exact Hend. } { by eapply words_from_dom. } { by eapply words_from_dom. }
    exists w. split; [|split; [congruence|split]].
    + replace (d + 4 * i + 4) with (d + 4 * (i + 1)) by lia.
      replace (T + 4096 * i + 4096) with (T + 4096 * (i + 1)) by lia.
      replace (T + 4096 * i + 4 * 1024) with (T + 4096 * (i + 1)) by lia.
      replace (4096 * 1024 * i + 4096 * 1024) with (4096 * 1024 * (i + 1)) by lia.
      rewrite Hrun. destruct n; [|done]. by replace (T + 4096 * e) with (T + 4096 * (i + 1)) by lia.
    + intros k Hk. destruct (decide (k = i)) as [->|]; [|apply (Hfill k); lia].
      rewrite (Ho (d + 4 * i)) by lia. change (words s2) with w1. rewrite Ho1 by lia.
      split; [apply lookup_insert_eq|].
      intros j Hj. unfold PAGE_SIZE. rewrite Ho by lia. change (words s2) with w1. rewrite Hj1 by lia.
      by replace (4096 * 1024 * i + 4096 * j) with (4096 * (1024 * i + j)) by lia.
    + intros x Hx. rewrite Ho by lia. change (words s2) with w1. rewrite Ho1 by lia.
      apply lookup_insert_ne. lia.
Qed.

(** ** The kernel's mapping *)

(** Memory as [init_paging] expects it: of at most 1 GB, with the boot page
    directory and the page tables behind it. *)
Record paging_memory (s : machine) (tables : Z) : Prop := {
  pm_size : 0 < mem_end s <= 2 ^ 30;
  pm_tables : tables = (mem_end s + PAGE_SIZE * 1024 - 1) / (PAGE_SIZE * 1024);
  pm_dir : words_from (words s) (BOOT_PAGE_DIR + 4 * KERNEL_VIRT_PDINDX) tables;
  pm_words : words_from (words s) (BOOT_PAGE_DIR + PAGE_SIZE) (1024 * tables + 1)
}.

Lemma paging_tables_range s n : paging_memory s n ->
  0 < n <= 256 /\ forall k, k < n <-> PAGE_SIZE * 1024 * k < mem_end s.
Proof.
  intros [Hs -> _ _]. unfold PAGE_SIZE in *. change (4096 * 1024) with 4194304.
  pose proof (Z.div_mod (mem_end s + 4194304 - 1) 4194304 ltac:(lia)).
  pose proof (Z.mod_pos_bound (mem_end s + 4194304 - 1) 4194304 ltac:(lia)).
  split; [lia|]. intros k. lia.
Qed.

Lemma init_paging_run s n junk :
  paging_memory s n ->
  exists w, init_paging junk s = Ok (tt, s <| words := w |> <| kernel_pdir := BOOT_PAGE_DIR |>) /\
    dom w = dom (words s) /\
    filled s w (BOOT_PAGE_DIR + 4 * KERNEL_VIRT_PDINDX) (BOOT_PAGE_DIR + PAGE_SIZE) 0 n /\
    w !! (BOOT_PAGE_DIR + PAGE_SIZE * (1 + n)) = Some 0 /\
    forall x, x < BOOT_PAGE_DIR + 4 * KERNEL_VIRT_PDINDX \/
      (BOOT_PAGE_DIR + 4 * (KERNEL_VIRT_PDINDX + n) <= x /\ x < BOOT_PAGE_DIR + PAGE_SIZE) \/
      BOOT_PAGE_DIR + PAGE_SIZE * (1 + n) + 4 <= x -> w !! x = words s !! x.
Proof.
  intros H. destruct (paging_tables_range s n H) as [Hn Hend]. destruct H as [Hs _ Hd HT].
  set (d := BOOT_PAGE_DIR + 4 * KERNEL_VIRT_PDINDX) in *. set (T := BOOT_PAGE_DIR + PAGE_SIZE) in *.
  assert (d = 68608) as Hd' by done. assert (T = 69632) as HT' by done.
  set (s0 := s <| kernel_pdir := BOOT_PAGE_DIR |>).
  destruct (fill_dir_run d T n) with (n := Z.to_nat n) (fuel := 257%nat) (i := 0) (junk := junk) (s := s0)
    as (w & Hrun & Hdw & Hfill & Ho); try (unfold PAGE_SIZE in *; lia); try done.
  { intros j Hj. apply HT. lia. }
  rewrite !Z.mul_0_r, !Z.add_0_r in Hrun. rewrite Z2Nat.id in Hfill by lia.
  replace (match Z.to_nat n with O => junk | _ => T + PAGE_SIZE * n end) with (T + PAGE_SIZE * n) in Hrun
    by (destruct (Z.to_nat n) eqn:E; [lia|done]).
  assert (is_Some (w !! (T + PAGE_SIZE * n))) as Hlast.
  { apply elem_of_dom. rewrite Hdw. apply elem_of_dom. specialize (HT (1024 * n) ltac:(lia)).
    unfold PAGE_SIZE in *. by replace (T + 4096 * n) with (T + 4 * (1024 * n)) by lia. }
  exists (<[T + PAGE_SIZE * n := 0]> w). split; [|split; [|split; [|split]]].
  - unfold init_paging. rewrite run_modify, run_gets. fold s0.
    change (kernel_pdir s0) with BOOT_PAGE_DIR. fold d T. rewrite (kernel_bind_run _ _ _ _ _ Hrun).
    by rewrite run_store.
  - rewrite dom_insert_lookup_L by done. by rewrite Hdw.
  - intros k Hk. unfold PAGE_SIZE in *. destruct (Hfill k Hk) as [H1 H2].
    rewrite lookup_insert_ne by lia. split; [done|]. intros j Hj.
    rewrite lookup_insert_ne by lia. by apply H2.
  - replace (BOOT_PAGE_DIR + PAGE_SIZE * (1 + n)) with (T + PAGE_SIZE * n)
      by (unfold T, PAGE_SIZE; lia). apply lookup_insert_eq.
  - intros x Hx. unfold PAGE_SIZE in *. change (BOOT_PAGE_DIR) with 65536 in Hx.
    change KERNEL_VIRT_PDINDX with 768 in Hx.
    rewrite lookup_insert_ne by lia. apply Ho. lia.
Qed.

(** The index pair of an address in kernel space. *)
Lemma kernel_indices a :
  0 <= a < 2 ^ 30 ->
  dirx (KERNEL_VIRT_BASE + a) = KERNEL_VIRT_PDINDX + a / (PAGE_SIZE * 1024) /\
  tabx (KERNEL_VIRT_BASE + a) = (a / PAGE_SIZE) mod 1024.
Proof.
  intros Ha. change KERNEL_VIRT_BASE with (768 * (4096 * 1024)).
  split.
  - unfold dirx, PAGE_DIR_SHIFT, PAGE_SIZE. rewrite Z.shiftr_div_pow2 by lia.
    change (2 ^ 22) with (4096 * 1024). rewrite Z.div_add_l by lia. done.
  - rewrite tabx_eq by lia. unfold PAGE_SIZE.
    replace (768 * (4096 * 1024) + a) with (768 * 1024 * 4096 + a) by lia.
    rewrite Z.div_add_l by lia. rewrite <- Zplus_mod_idemp_l. done.
Qed.

(** A filled directory maps the address of a page to its entry. *)
Lemma filled_entry s w d T n i a :
  filled s w d T 0 n -> 0 <= T -> T mod PAGE_SIZE = 0 -> T + PAGE_SIZE * n < 2 ^ 31 -> 0 < T ->
  0 <= a -> i = a / (PAGE_SIZE * 1024) -> i < n ->
  exists e, w !! (d + 4 * i) = Some e /\ tbl e = T + PAGE_SIZE * i /\ tbl e <> 0 /\
    w !! (tbl e + 4 * ((a / PAGE_SIZE) mod 1024)) = Some (kernel_entry s (a - a mod PAGE_SIZE)).
Proof.
  unfold PAGE_SIZE. intros Hf HT Hal Hmax HT0 Ha -> Hn.
  assert (0 <= a / (4096 * 1024)) by (apply Z.div_pos; lia).
  destruct (Hf (a / (4096 * 1024)) ltac:(lia)) as [He Hw]. eexists. split; [exact He|].
  unfold PAGE_SIZE in *.
  destruct (tbl_join (T + 4096 * (a / (4096 * 1024))) PAGE_TABLE) as [Hj _]; [lia| |done|].
  { unfold PAGE_SIZE. rewrite Z.mul_comm, Z.mod_add by lia. done. }
  rewrite Hj. split; [done|]. split; [lia|].
  rewrite Hw by (apply Z.mod_pos_bound; lia). do 2 f_equal.
  rewrite <- Z.div_div by lia. pose proof (Z.div_mod a 4096 ltac:(lia)).
  pose proof (Z.div_mod (a / 4096) 1024 ltac:(lia)). lia.
Qed.

(** The directory lies below the second megabyte; what is written behind it does
    not change the mapping. *)
Lemma kernel_mapping s n w w' a :
  paging_memory s n -> filled s w (BOOT_PAGE_DIR + 4 * KERNEL_VIRT_PDINDX) (BOOT_PAGE_DIR + PAGE_SIZE) 0 n ->
  (forall x, x < 2 * ONE_MEGABYTE -> w' !! x = w !! x) -> 0 <= a < PAGE_SIZE * 1024 * n ->
  entry_at w' BOOT_PAGE_DIR (KERNEL_VIRT_BASE + a) = Some (kernel_entry s (a - a mod PAGE_SIZE)).
Proof.
  intros H Hfill Hw Ha. destruct (paging_tables_range s n H) as [Hn _]. unfold PAGE_SIZE in Ha.
  assert (BOOT_PAGE_DIR = 65536 /\ KERNEL_VIRT_PDINDX = 768 /\ ONE_MEGABYTE = 1048576) as (Hb & Hv & Hm) by done.
  assert (0 <= a / (PAGE_SIZE * 1024) < n) as Hix by (unfold PAGE_SIZE; split; [apply Z.div_pos|apply Z.div_lt_upper_bound]; lia).
  destruct (kernel_indices a ltac:(lia)) as [Hd Ht].
  destruct (filled_entry s w _ _ n (a / (PAGE_SIZE * 1024)) a Hfill) as (e & He & Hte & Hne & Hx);
    try done; try (unfold PAGE_SIZE, BOOT_PAGE_DIR in *; lia).
  unfold entry_at. rewrite Hd, Ht.
  replace (BOOT_PAGE_DIR + 4 * (KERNEL_VIRT_PDINDX + a / (PAGE_SIZE * 1024)))
    with (BOOT_PAGE_DIR + 4 * KERNEL_VIRT_PDINDX + 4 * (a / (PAGE_SIZE * 1024))) by lia.
  rewrite Hw, He by lia. cbn [mbind option_bind]. rewrite (proj2 (Z.eqb_neq (tbl e) 0)) by done.
  pose proof (Z.mod_pos_bound (a / PAGE_SIZE) 1024 ltac:(lia)). rewrite Hte in Hx |- *. rewrite Hw, Hx; [done|].
  unfold PAGE_SIZE in *. lia.
Qed.

(** [init_paging] maps all physical memory into kernel space.  With
    memory for the tables, it completes; the kernel's page directory then maps
    every address below [mem_end], displaced by [KERNEL_VIRT_BASE], to its own
    page with the flags of shared pages, and the rest of the last table to
    nothing; it writes to no word outside the kernel's part of the directory,
    the tables and the one word behind them. *)
Lemma init_paging_maps s n junk :
  paging_memory s n ->
  exists s', init_paging junk s = Ok (tt, s') /\ kernel_pdir s' = BOOT_PAGE_DIR /\
    (forall a, 0 <= a < PAGE_SIZE * 1024 * n ->
      entry_at (words s') (kernel_pdir s') (KERNEL_VIRT_BASE + a) =
      Some (if a - a mod PAGE_SIZE <? mem_end s
            then Z.lor (a - a mod PAGE_SIZE) PAGE_SHARED else 0)) /\
    (forall x, x < BOOT_PAGE_DIR + 4 * KERNEL_VIRT_PDINDX \/
      BOOT_PAGE_DIR + PAGE_SIZE * (1 + n) + 4 <= x -> words s' !! x = words s !! x).
Proof.
  intros H. destruct (init_paging_run s n junk H) as (w & Hrun & _ & Hfill & _ & Ho).
  eexists. split; [exact Hrun|]. split; [done|]. split; [|intros x Hx; apply Ho; tauto].
  intros a Ha. exact (kernel_mapping s n w w a H Hfill (fun _ _ => eq_refl) Ha).
Qed.

(** The page at address 0 stays mapped.  The directory entry that the
    boot code made for the first 4 MB uses the table that [init_paging] fills
    first; the last statement, meant to clear an entry of this table, clears
    the word behind the last table instead.  So afterwards all of the first
    4 MB of memory is still mapped to itself, the null page included. *)
Lemma init_paging_null_page s n junk :
  paging_memory s n ->
  words s !! BOOT_PAGE_DIR = Some (Z.lor (BOOT_PAGE_DIR + PAGE_SIZE) PAGE_TABLE) ->
  exists s', init_paging junk s = Ok (tt, s') /\
    words s' !! (BOOT_PAGE_DIR + PAGE_SIZE * (1 + n)) = Some 0 /\
    forall v, 0 <= v < PAGE_SIZE * 1024 -> v - v mod PAGE_SIZE < mem_end s ->
      entry_at (words s') (kernel_pdir s') v = Some (Z.lor (v - v mod PAGE_SIZE) PAGE_SHARED).
Proof.
  intros H Hboot. destruct (init_paging_run s n junk H) as (w & Hrun & _ & Hfill & Hz & Ho).
  destruct (paging_tables_range s n H) as [Hn _].
  eexists. split; [exact Hrun|]. split; [exact Hz|]. intros v Hv Hve. unfold PAGE_SIZE in Hv.
  assert (v / (PAGE_SIZE * 1024) = 0) as Hv0 by (unfold PAGE_SIZE; apply Z.div_small; lia).
  destruct (filled_entry s w _ _ n 0 v Hfill) as (e & He & Hte & Hne & Hx);
    try done; try (unfold PAGE_SIZE, BOOT_PAGE_DIR in *; lia).
  assert (dirx v = 0) as Hd by (unfold dirx, PAGE_DIR_SHIFT; rewrite Z.shiftr_div_pow2 by lia; exact Hv0).
  unfold entry_at, upd; cbn [words kernel_pdir]. rewrite Hd, Z.mul_0_r, Z.add_0_r.
  rewrite Ho, Hboot by (left; vm_compute; done). cbn [mbind option_bind].
  change (tbl (Z.lor (BOOT_PAGE_DIR + PAGE_SIZE) PAGE_TABLE)) with (BOOT_PAGE_DIR + PAGE_SIZE).
  rewrite Hte, Z.mul_0_r, Z.add_0_r in Hx. rewrite tabx_eq by lia.
  change (BOOT_PAGE_DIR + PAGE_SIZE =? 0) with false. cbv iota.
  rewrite Hx. unfold kernel_entry. by rewrite (proj2 (Z.ltb_lt _ _)).
Qed.

(** ** Building the map and the free list *)

(** The pages from [i] on, [n] of them, highest first. *)
Fixpoint pages_down (i : Z) (n : nat) : list Z :=
  match n with O => [] | S n' => pages_down (i + 1) n' ++ [i * PAGE_SIZE] end.

Lemma elem_of_pages_down i n p : p ∈ pages_down i n <-> exists k, i <= k < i + Z.of_nat n /\ p = k * PAGE_SIZE.
Proof.
  revert i. induction n as [|n IH]; intros i; cbn [pages_down].
  - rewrite elem_of_nil. split; [done|]. intros (k & ? & _). lia.
  - rewrite elem_of_app, IH, list_elem_of_singleton. split.
    + intros [(k & ? & ->)| ->]; [exists k|exists i]; (split; [lia|done]).
    + intros (k & ? & ->). destruct (decide (k = i)) as [->|]; [by right|left].
      exists k. split; [lia|done].
Qed.

Lemma pages_down_nodup i n : NoDup (pages_down i n).
Proof.
  revert i. induction n as [|n IH]; intros i; [constructor|]. cbn [pages_down].
  apply NoDup_app. split; [apply IH|]. split; [|apply NoDup_singleton].
  intros p (k & Hk & ->)%elem_of_pages_down ?%list_elem_of_singleton.
  unfold PAGE_SIZE in *. lia.
Qed.

(** [set_map] on the pages from [i] on. *)
Lemma reserve_loop n : forall i s,
  0 <= i -> i + Z.of_nat n <= Z.of_nat (length (mem_map s)) ->
  exists m, for_each i n (fun k => set_map (MAP_NR (k * PAGE_SIZE)) MAP_PAGE_RESERVED) s =
      Ok (tt, s <| mem_map := m |>) /\ length m = length (mem_map s) /\
    forall k, m !! k = if decide (i <= Z.of_nat k < i + Z.of_nat n)
                       then Some MAP_PAGE_RESERVED else (mem_map s !! k).
Proof.
  induction n as [|n IH]; intros i s Hi Hn.
  - exists (mem_map s). split; [by destruct s|]. split; [done|].
    intros k. by rewrite decide_False by lia.
  - cbn [for_each]. rewrite (page_nr (i * PAGE_SIZE) i) by done.
    rewrite (kernel_bind_run _ _ _ _ _ (run_set_map i MAP_PAGE_RESERVED s
      ltac:(apply lookup_lt_is_Some_2; lia) Hi ltac:(done))).
    set (s1 := s <| mem_map := _ |>).
    assert (length (mem_map s1) = length (mem_map s)) as Hl by apply length_insert.
    destruct (IH (i + 1) s1) as (m & Hrun & Hlm & Hm); [lia|lia|].
    exists m. split; [exact Hrun|]. split; [lia|]. intros k. rewrite Hm.
    destruct (decide (k = Z.to_nat i)) as [->|].
    + rewrite (decide_False (P := i + 1 <= _ < _)), decide_True by lia.
      apply list_lookup_insert_eq. lia.
    + unfold s1, upd; cbn. rewrite list_lookup_insert_ne by done.
      destruct (decide (i + 1 <= Z.of_nat k < i + 1 + Z.of_nat n)).
      * by rewrite decide_True by lia.
      * by rewrite decide_False by lia.
Qed.

(** The boundary of the reserved pages. *)
Definition first_free : Z := 4352.
Lemma mapped_space_pages : (KERNEL_MAPPED_SPACE + PAGE_SIZE - 1) / PAGE_SIZE = first_free.
Proof. reflexivity. Qed.

Lemma build_map_run s :
  0 <= mem_end s -> mem_end s mod PAGE_SIZE = 0 -> first_free * PAGE_SIZE <= mem_end s ->
  exists m, build_map s = Ok (tt, s <| mem_map := m |>) /\
    length m = Z.to_nat (mem_end s / PAGE_SIZE) /\
    forall k, m !! k = if decide (Z.of_nat k < first_free) then Some MAP_PAGE_RESERVED
      else if decide (Z.of_nat k < mem_end s / PAGE_SIZE) then Some 0 else None.
Proof.
  intros He Ha Hf. unfold build_map. rewrite run_gets, run_modify.
  assert (MAP_NR (mem_end s) = mem_end s / PAGE_SIZE) as Hnr.
  { apply page_nr. unfold PAGE_SIZE in *. pose proof (Z.div_mod (mem_end s) 4096 ltac:(lia)). lia. }
  assert (first_free <= mem_end s / PAGE_SIZE) as Hle
    by (unfold PAGE_SIZE in *; apply Z.div_le_lower_bound; lia).
  unfold for_pages. rewrite mapped_space_pages.
  set (s1 := s <| mem_map := _ |>).
  assert (length (mem_map s1) = Z.to_nat (mem_end s / PAGE_SIZE)) as Hl
    by (change (mem_map s1) with (replicate (Z.to_nat (MAP_NR (mem_end s))) 0);
        by rewrite length_replicate, Hnr).
  destruct (reserve_loop (Z.to_nat first_free) 0 s1) as (m & Hrun & Hlm & Hm); [lia|unfold first_free in *; lia|].
  exists m. split; [exact Hrun|]. split; [lia|]. intros k. rewrite Hm, Z2Nat.id by done.
  destruct (decide (Z.of_nat k < first_free)).
  - by rewrite decide_True by lia.
  - rewrite decide_False by lia.
    change (mem_map s1) with (replicate (Z.to_nat (MAP_NR (mem_end s))) 0). rewrite Hnr.
    destruct (decide (Z.of_nat k < mem_end s / PAGE_SIZE)).
    + apply lookup_replicate_2. lia.
    + apply lookup_replicate_None. lia.
Qed.

(** With less memory than is reserved the map is left. *)
Lemma reserve_outside n : forall i s,
  0 <= i <= Z.of_nat (length (mem_map s)) -> Z.of_nat (length (mem_map s)) < i + Z.of_nat n ->
  for_each i n (fun k => set_map (MAP_NR (k * PAGE_SIZE)) MAP_PAGE_RESERVED) s = Fault OutOfBounds.
Proof.
  induction n as [|n IH]; intros i s Hi Hn; [lia|]. cbn [for_each].
  rewrite (page_nr (i * PAGE_SIZE) i) by done.
  destruct (decide (i = Z.of_nat (length (mem_map s)))) as [Heq|].
  - unfold mbind, kernel_bind, set_map. rewrite (proj2 (Z.leb_le 0 i)) by lia.
    by rewrite lookup_ge_None_2 by lia.
  - rewrite (kernel_bind_run _ _ _ _ _ (run_set_map i MAP_PAGE_RESERVED s
      ltac:(apply lookup_lt_is_Some_2; lia) ltac:(lia) ltac:(done))).
    apply IH; unfold upd; cbn; rewrite length_insert; lia.
Qed.

Lemma build_map_small s :
  0 <= mem_end s -> mem_end s mod PAGE_SIZE = 0 -> mem_end s < first_free * PAGE_SIZE ->
  build_map s = Fault OutOfBounds.
Proof.
  intros He Ha Hf. unfold build_map. rewrite run_gets, run_modify. unfold for_pages.
  rewrite mapped_space_pages.
  assert (mem_end s / PAGE_SIZE < first_free) by (unfold PAGE_SIZE in *; apply Z.div_lt_upper_bound; lia).
  assert (MAP_NR (mem_end s) = mem_end s / PAGE_SIZE) as Hnr.
  { apply page_nr. unfold PAGE_SIZE in *. pose proof (Z.div_mod (mem_end s) 4096 ltac:(lia)). lia. }
  apply reserve_outside; unfold upd; cbn; rewrite length_replicate, Hnr;
    unfold first_free in *; pose proof (Z.div_pos (mem_end s) PAGE_SIZE); unfold PAGE_SIZE in *; lia.
Qed.

Lemma pages_down_length i n : length (pages_down i n) = n.
Proof.
  revert i. induction n as [|n IH]; intros i; [done|]. cbn [pages_down].
  rewrite length_app, IH. simpl. lia.
Qed.

Lemma for_each_app body i n m s s1 :
  for_each i n body s = Ok (tt, s1) ->
  for_each i (n + m) body s = for_each (i + Z.of_nat n) m body s1.
Proof.
  revert i s. induction n as [|n IH]; intros i s H.
  - cbn in H. injection H as <-. cbn [Nat.add]. by rewrite Z.add_0_r.
  - cbn [Nat.add for_each] in *. unfold mbind, kernel_bind in *.
    destruct (body i s) as [[[] s2]|f]; [|done]. rewrite (IH (i + 1) s2 H).
    f_equal. lia.
Qed.

Lemma skip_loop n : forall i s,
  0 <= i -> (forall k, i <= k < i + Z.of_nat n -> exists c, mem_map s !! Z.to_nat k = Some c /\ c <> 0) ->
  for_each i n (fun k => add_page (k * PAGE_SIZE)) s = Ok (tt, s).
Proof.
  induction n as [|n IH]; intros i s Hi Hm; [done|]. cbn [for_each].
  assert (add_page (i * PAGE_SIZE) s = Ok (tt, s)) as H.
  { unfold add_page. rewrite (page_nr (i * PAGE_SIZE) i) by done.
    destruct (Hm i ltac:(lia)) as (c & Hc & Hc0).
    by rewrite (kernel_bind_run _ _ _ _ _ (run_map_at i c s Hc Hi)), (proj2 (Z.eqb_neq c 0)). }
  rewrite (kernel_bind_run _ _ _ _ _ H). apply IH; [lia|]. intros k Hk. apply Hm. lia.
Qed.

Lemma add_page_run i s :
  0 <= i -> i * PAGE_SIZE < 2 ^ 30 -> mem_map s !! Z.to_nat i = Some 0 ->
  is_Some (words s !! (i * PAGE_SIZE)) ->
  add_page (i * PAGE_SIZE) s = Ok (tt, s <| words := <[i * PAGE_SIZE := free_page_list s]> (words s) |>
    <| free_page_list := i * PAGE_SIZE |> <| free_page_count := u32 (free_page_count s + 1) |>).
Proof.
  unfold PAGE_SIZE. intros Hi Hmax Hm Hw. unfold add_page. rewrite (page_nr (i * 4096) i) by done.
  rewrite (kernel_bind_run _ _ _ _ _ (run_map_at i 0 s Hm Hi)). cbn [negb Z.eqb]. rewrite run_gets.
  erewrite kernel_bind_run; [|apply (run_set_word (i * 4096) 0); [lia|by rewrite Z.add_0_r]].
  rewrite Z.add_0_r. by rewrite run_modify.
Qed.

Lemma add_loop n : forall i l s,
  0 <= i -> (i + Z.of_nat n) * PAGE_SIZE <= 2 ^ 30 ->
  (forall k, i <= k < i + Z.of_nat n -> mem_map s !! Z.to_nat k = Some 0 /\ is_Some (words s !! (k * PAGE_SIZE))) ->
  (forall p, p ∈ l -> p < i * PAGE_SIZE) -> free_chain (words s) (free_page_list s) l ->
  0 <= free_page_count s -> free_page_count s + Z.of_nat n < 2 ^ 32 ->
  exists w h, for_each i n (fun k => add_page (k * PAGE_SIZE)) s =
      Ok (tt, s <| words := w |> <| free_page_list := h |>
                <| free_page_count := free_page_count s + Z.of_nat n |>) /\
    free_chain w h (pages_down i n ++ l) /\ dom w = dom (words s) /\ forall x, x < i * PAGE_SIZE -> w !! x = words s !! x.
Proof.
  induction n as [|n IH]; intros i l s Hi Hmax Hm Hl Hc H0 Hcount.
  - exists (words s), (free_page_list s). cbn [for_each pages_down app].
    rewrite Z.add_0_r. split; [by destruct s|done].
  - destruct (Hm i ltac:(lia)) as [Hmi Hwi]. cbn [for_each].
    rewrite (kernel_bind_run _ _ _ _ _ (add_page_run i s Hi ltac:(unfold PAGE_SIZE in *; lia) Hmi Hwi)).
    rewrite wrap_small by lia.
    set (s1 := s <| words := _ |> <| free_page_list := _ |> <| free_page_count := _ |>).
    assert (i * PAGE_SIZE ∉ l) as Hil by (intros Hin%Hl; lia).
    destruct (IH (i + 1) (i * PAGE_SIZE :: l) s1) as (w & h & Hrun & Hch & Hd & Hk);
      unfold PAGE_SIZE in *; try lia.
    + intros k Hk. destruct (Hm k ltac:(lia)) as [Hmk Hwk]. split; [exact Hmk|].
      unfold s1, upd; cbn. by rewrite lookup_insert_ne by lia.
    + intros p [->|Hp%Hl]%elem_of_cons; lia.
    + split; [done|]. unfold s1, upd; cbn. exists (free_page_list s).
      rewrite lookup_insert_eq. split; [done|]. by apply free_chain_write.
    + unfold s1, upd; cbn. lia.
    + unfold s1, upd; cbn. lia.
    + exists w, h. split; [|split; [|split]].
      * change (free_page_count s1) with (free_page_count s + 1) in Hrun.
        replace (free_page_count s + Z.of_nat (S n)) with (free_page_count s + 1 + Z.of_nat n) by lia.
        exact Hrun.
      * cbn [pages_down]. rewrite <- app_assoc. exact Hch.
      * rewrite Hd. unfold s1, upd; cbn. by apply dom_insert_lookup_L.
      * intros x Hx. rewrite Hk by lia. unfold s1, upd; cbn. by rewrite lookup_insert_ne by lia.
Qed.

(** The allocator after building the list of the pages from [f] on. *)
Lemma build_list_run s f :
  0 < f -> mem_end s mod PAGE_SIZE = 0 -> f * PAGE_SIZE <= mem_end s <= 2 ^ 30 ->
  length (mem_map s) = Z.to_nat (mem_end s / PAGE_SIZE) ->
  (forall k, mem_map s !! k = if decide (Z.of_nat k < f) then Some MAP_PAGE_RESERVED
      else if decide (Z.of_nat k < mem_end s / PAGE_SIZE) then Some 0 else None) ->
  (forall k, f <= k < mem_end s / PAGE_SIZE -> is_Some (words s !! (k * PAGE_SIZE))) ->
  exists s' l, build_list s = Ok (tt, s') /\ allocator s' l /\
    mem_end s' = mem_end s /\ mem_base s' = mem_base s /\ dom (words s') = dom (words s) /\
    kernel_pdir s' = kernel_pdir s /\ (forall x, x < f * PAGE_SIZE -> words s' !! x = words s !! x) /\
    free_page_count s' = Z.of_nat (length l) /\
    (forall p, p ∈ l <-> page s p /\ f * PAGE_SIZE <= p).
Proof.
  intros Hf Ha He Hlm Hm Hw. unfold build_list. rewrite !run_modify, run_gets.
  set (s1 := s <| free_page_count := 0 |> <| free_page_list := 0 |>).
  set (N := mem_end s / PAGE_SIZE) in *.
  assert (mem_end s = N * PAGE_SIZE) as HN
    by (unfold N, PAGE_SIZE in *; pose proof (Z.div_mod (mem_end s) 4096 ltac:(lia)); lia).
  assert (f <= N) as HfN by (unfold PAGE_SIZE in *; lia). unfold for_pages.
  change (mem_end s1) with (mem_end s).
  replace ((mem_end s + PAGE_SIZE - 1) / PAGE_SIZE) with N
    by (rewrite HN; unfold PAGE_SIZE; replace (N * 4096 + 4096 - 1) with (N * 4096 + 4095) by lia;
        rewrite Z.div_add_l by lia; change (4095 / 4096) with 0; lia).
  assert (mem_end s / PAGE_SIZE = N) as HNd by done. clearbody N.
  replace (Z.to_nat N) with (Z.to_nat f + Z.to_nat (N - f))%nat by lia.
  erewrite for_each_app.
  2:{ apply skip_loop; [lia|]. intros k Hk. exists MAP_PAGE_RESERVED. split; [|done].
      change (mem_map s1) with (mem_map s). by rewrite Hm, decide_True by lia. }
  rewrite Z2Nat.id, Z.add_0_l by lia.
  destruct (add_loop (Z.to_nat (N - f)) f [] s1) as (w & h & Hrun & Hch & Hd & Hlow); try done.
  { lia. } { unfold PAGE_SIZE in *. lia. }
  { intros k Hk. split; [|apply Hw; lia]. change (mem_map s1) with (mem_map s).
    by rewrite Hm, decide_False, decide_True by lia. }
  { intros p Hp. by apply elem_of_nil in Hp. }
  { change (free_page_count s1) with 0. unfold PAGE_SIZE in *. lia. }
  change (free_page_count s1) with 0 in Hrun. rewrite app_nil_r in Hch. rewrite Z.add_0_l in Hrun.
  assert (forall p, p ∈ pages_down f (Z.to_nat (N - f)) <-> page s p /\ f * PAGE_SIZE <= p) as Hin.
  { intros p. rewrite elem_of_pages_down, Z2Nat.id by lia. unfold page. rewrite HN.
    unfold PAGE_SIZE in *. split.
    - intros (k & Hk & ->). rewrite Z.mod_mul by lia. lia.
    - intros [[Hpa Hp] Hle]. exists (p / 4096). pose proof (Z.div_mod p 4096 ltac:(lia)). lia. }
  rewrite Hrun. do 2 eexists. split; [reflexivity|].
  split; [|split_and!; try done].
  - split; cbn [words mem_map free_page_list free_page_count mem_end upd]; try done.
    + apply pages_down_nodup.
    + apply Forall_forall. intros p Hp%Hin. destruct Hp as [Hp _]. exact Hp.
    + intros k. rewrite elem_of_pages_down, Z2Nat.id by lia.
      change (mem_map s !! k = Some 0 <-> exists k0, f <= k0 < f + (N - f) /\
        Z.of_nat k * PAGE_SIZE = k0 * PAGE_SIZE). rewrite Hm. unfold PAGE_SIZE in *.
      destruct (decide (Z.of_nat k < f)); [split; [done|intros (? & ? & ?); lia]|].
      destruct (decide (Z.of_nat k < N)); [|split; [done|intros (? & ? & ?); lia]].
      split; [|done]. intros _. exists (Z.of_nat k). split; [lia|done].
    + change (length (mem_map s) = Z.to_nat (mem_end s / PAGE_SIZE)). by rewrite HNd.
    + split; [apply He|done].
    + change (Forall (fun n => 0 <= n < 2 ^ 16) (mem_map s)).
      apply Forall_lookup. intros k c. rewrite Hm.
      destruct (decide (Z.of_nat k < f)); [by intros [= <-]|].
      destruct (decide (Z.of_nat k < N)); [by intros [= <-]|done].
    + intros (k & c & Hk & Hc). change (mem_map s !! k = Some c) in Hk. rewrite Hm in Hk.
      change (Z.of_nat (Z.to_nat (N - f)) <> 0).
      destruct (decide (Z.of_nat k < f)); [congruence|].
      destruct (decide (Z.of_nat k < N)); [lia|done].
  - change (Z.of_nat (Z.to_nat (N - f)) = Z.of_nat (length (pages_down f (Z.to_nat (N - f))))).
    by rewrite pages_down_length.
Qed.

Lemma build_run s :
  mem_end s mod PAGE_SIZE = 0 -> first_free * PAGE_SIZE <= mem_end s <= 2 ^ 30 ->
  (forall k, first_free <= k < mem_end s / PAGE_SIZE -> is_Some (words s !! (k * PAGE_SIZE))) ->
  exists s' l, (_ ← build_map; build_list) s = Ok (tt, s') /\ allocator s' l /\
    mem_end s' = mem_end s /\ mem_base s' = mem_base s /\ dom (words s') = dom (words s) /\
    kernel_pdir s' = kernel_pdir s /\ (forall x, x < first_free * PAGE_SIZE -> words s' !! x = words s !! x) /\
    free_page_count s' = Z.of_nat (length l) /\
    (forall p, p ∈ l <-> page s p /\ first_free * PAGE_SIZE <= p).
Proof.
  intros Ha He Hw.
  destruct (build_map_run s ltac:(unfold first_free, PAGE_SIZE in *; lia) Ha (proj1 He))
    as (m & Hmap & Hlm & Hm).
  rewrite (kernel_bind_run _ _ _ _ _ Hmap).
  exact (build_list_run (s <| mem_map := m |>) first_free ltac:(done) Ha He Hlm Hm Hw).
Qed.

(** ** The memory map of the boot loader *)

Record chunk := { ch_size : Z; ch_base : Z; ch_length : Z; ch_type : Z }.

(** The chunks stored from [p] to [last]. *)
Fixpoint mmap_at (w : gmap Z Z) (p : Z) (l : list chunk) (last : Z) : Prop :=
  match l with
  | [] => p = last
  | c :: l' =>
    w !! p = Some (ch_size c) /\ w !! (p + 4) = Some (ch_base c) /\
    w !! (p + 12) = Some (ch_length c) /\ w !! (p + 20) = Some (ch_type c) /\
    0 <= ch_size c /\ mmap_at w (p + ch_size c + 4) l' last
  end.

(** The first of the largest usable chunks: base and size. *)
Definition best_chunk (b : Z * Z) (l : list chunk) : Z * Z :=
  foldl (fun b c => if (ch_type c =? 1) && (b.2 <? ch_length c) then (ch_base c, ch_length c) else b) b l.

Lemma mmap_at_bound w p l last : mmap_at w p l last -> p + 4 * Z.of_nat (length l) <= last.
Proof.
  revert p. induction l as [|c l IH]; intros p H; [cbn in *; lia|].
  destruct H as (_ & _ & _ & _ & Hs & H). apply IH in H. cbn [length]. lia.
Qed.

Lemma scan_mmap_run l : forall fuel p last s,
  mmap_at (words s) p l last -> 0 <= p -> last + 20 < 2 ^ 32 -> (length l < fuel)%nat ->
  scan_mmap fuel p last s =
  Ok (tt, let b := best_chunk (mem_base s, mem_size s) l in
          s <| mem_base := b.1 |> <| mem_size := b.2 |>).
Proof.
  induction l as [|c l IH]; intros [|fuel] p last s H Hp Hl Hf; try (simpl in Hf; lia).
  - cbn in H. subst p. cbn [scan_mmap]. rewrite (proj2 (Z.ltb_ge last last)) by lia. by destruct s.
  - pose proof (mmap_at_bound _ _ _ _ H) as Hbound. cbn [length] in Hbound, Hf.
    destruct H as (Hsize & Hbase & Hlen & Htype & Hs0 & H).
    pose proof (mmap_at_bound _ _ _ _ H) as Hb2.
    cbn [scan_mmap]. rewrite (proj2 (Z.ltb_lt p last)) by lia.
    assert (forall a v s1, words s1 = words s -> words s !! a = Some v -> load a s1 = Ok (v, s1)) as Hload.
    { intros a v s1 Hw Hv. unfold load. by rewrite Hw, Hv. }
    rewrite (wrap_small 32 (p + 20)), (wrap_small 32 (p + 12)), (wrap_small 32 (p + 4)) by lia.
    rewrite (kernel_bind_run _ _ _ _ _ (Hload _ _ s eq_refl Htype)).
    set (b := if (ch_type c =? 1) && (mem_size s <? ch_length c) then (ch_base c, ch_length c)
              else (mem_base s, mem_size s)).
    set (s1 := s <| mem_base := b.1 |> <| mem_size := b.2 |>).
    erewrite (kernel_bind_run _ _ s tt s1).
    2:{ subst s1 b. destruct (ch_type c =? 1); cbn [andb]; [|by destruct s].
        rewrite (kernel_bind_run _ _ _ _ _ (Hload _ _ s eq_refl Hlen)), run_gets.
        destruct (mem_size s <? ch_length c); [|by destruct s].
        by rewrite (kernel_bind_run _ _ _ _ _ (Hload _ _ s eq_refl Hbase)), run_modify. }
    rewrite (kernel_bind_run _ _ _ _ _ (Hload _ _ s1 eq_refl Hsize)).
    rewrite (wrap_small 32 (p + ch_size c)), wrap_small by lia.
    rewrite (IH fuel (p + ch_size c + 4) last s1) by (done || lia). f_equal. f_equal.
    change (best_chunk (mem_base s, mem_size s) (c :: l)) with (best_chunk b l).
    change (mem_base s1, mem_size s1) with (b.1, b.2). rewrite <- surjective_pairing. done.
Qed.

(** ** The whole set-up *)

(** What the loader provides: the map at [mmap_addr], whose largest usable
    chunk begins in the kernel's image and ends at [last]; memory for the page
    tables; and memory behind every page. *)
Record booted (s : machine) (mmap_addr mmap_length : Z) (l : list chunk) (last tables : Z) : Prop := {
  bt_map : mmap_at (words s) mmap_addr l (mmap_addr + mmap_length);
  bt_addr : 0 <= mmap_addr /\ 0 <= mmap_length /\ mmap_addr + mmap_length + 20 < 2 ^ 32;
  bt_base : KERNEL_PHYS_BASE <= (best_chunk (mem_base s, 0) l).1 <= KERNEL_DATA;
  bt_size : (best_chunk (mem_base s, 0) l).1 + (best_chunk (mem_base s, 0) l).2 = last;
  bt_last : first_free * PAGE_SIZE <= last <= 2 ^ 30 /\ last mod PAGE_SIZE = 0;
  bt_tables : tables = (last + PAGE_SIZE * 1024 - 1) / (PAGE_SIZE * 1024);
  bt_dir : words_from (words s) (BOOT_PAGE_DIR + 4 * KERNEL_VIRT_PDINDX) tables;
  bt_words : words_from (words s) (BOOT_PAGE_DIR + PAGE_SIZE) (1024 * tables + 1);
  bt_pages : forall k, first_free <= k < last / PAGE_SIZE -> is_Some (words s !! (k * PAGE_SIZE))
}.


(** ** Concrete machines *)

(** Two pages of memory and the tables of the boot code. *)
Definition boot_small : machine :=
  small <| mem_end := 8192 |>
        <| words := <[BOOT_PAGE_DIR := Z.lor (BOOT_PAGE_DIR + PAGE_SIZE) PAGE_TABLE]>
                      (zero_words BOOT_PAGE_DIR 2049) |>.

Lemma boot_small_words j : 0 <= j < 2049 -> is_Some (words boot_small !! (BOOT_PAGE_DIR + 4 * j)).
Proof.
  intros Hj. change (words boot_small) with
    (<[BOOT_PAGE_DIR := Z.lor (BOOT_PAGE_DIR + PAGE_SIZE) PAGE_TABLE]> (zero_words BOOT_PAGE_DIR 2049)).
  destruct (decide (j = 0)) as [->|].
  - rewrite Z.mul_0_r, Z.add_0_r, lookup_insert_eq. by eexists.
  - rewrite lookup_insert_ne by lia. rewrite zero_words_at; [by eexists|].
    change (Z.of_nat 2049) with 2049. lia.
Qed.

Lemma boot_small_paging : paging_memory boot_small 1.
Proof.
  split.
  - change (0 < 8192 <= 2 ^ 30). lia.
  - reflexivity.
  - intros j Hj. change (BOOT_PAGE_DIR + 4 * KERNEL_VIRT_PDINDX + 4 * j) with
      (BOOT_PAGE_DIR + 4 * 768 + 4 * j). replace (BOOT_PAGE_DIR + 4 * 768 + 4 * j) with
      (BOOT_PAGE_DIR + 4 * (768 + j)) by lia. apply boot_small_words. lia.
  - intros j Hj. change (BOOT_PAGE_DIR + PAGE_SIZE + 4 * j) with (BOOT_PAGE_DIR + 4096 + 4 * j).
    replace (BOOT_PAGE_DIR + 4096 + 4 * j) with (BOOT_PAGE_DIR + 4 * (1024 + j)) by lia.
    apply boot_small_words. lia.
Qed.

Lemma init_paging_maps_witness :
  exists s', init_paging 0 boot_small = Ok (tt, s') /\
    entry_at (words s') (kernel_pdir s') 0xC0001234 = Some 0x1027 /\
    entry_at (words s') (kernel_pdir s') 0xC0002000 = Some 0.
Proof.
  destruct (init_paging_maps boot_small 1 0 boot_small_paging) as (s' & Hrun & _ & Hmap & _).
  exists s'. split; [exact Hrun|]. split.
  - refine (eq_trans (Hmap 0x1234 _) _); [unfold PAGE_SIZE; lia|reflexivity].
  - refine (eq_trans (Hmap 0x2000 _) _); [unfold PAGE_SIZE; lia|reflexivity].
Defined.

Lemma init_paging_null_page_witness :
  exists s', init_paging 0 boot_small = Ok (tt, s') /\
    entry_at (words s') (kernel_pdir s') 0 = Some PAGE_SHARED.
Proof.
  destruct (init_paging_null_page boot_small 1 0 boot_small_paging) as (s' & Hrun & _ & Hnull).
  - apply lookup_insert_eq.
  - exists s'. split; [exact Hrun|].
    refine (eq_trans (Hnull 0 _ _) _); [unfold PAGE_SIZE; lia|done|reflexivity].
Defined.

(** 17 megabytes and two pages, in one chunk after the first megabyte. *)
Definition boot_last : Z := 17 * ONE_MEGABYTE + 8192.
Definition boot_words : gmap Z Z :=
  <[0x9000 := 20]> (<[0x9004 := KERNEL_PHYS_BASE]> (<[0x900C := boot_last - KERNEL_PHYS_BASE]>
  (<[0x9014 := 1]> (<[17 * ONE_MEGABYTE := 0]> (<[17 * ONE_MEGABYTE + 4096 := 0]>
  (zero_words BOOT_PAGE_DIR (Z.to_nat 6145))))))).
Definition boot_machine : machine := small <| words := boot_words |>.

Lemma boot_words_at j : 0 <= j < 6145 -> is_Some (boot_words !! (BOOT_PAGE_DIR + 4 * j)).
Proof.
  intros Hj. unfold boot_words. assert (BOOT_PAGE_DIR = 65536 /\ ONE_MEGABYTE = 1048576) as [-> ->] by done.
  rewrite !lookup_insert_ne by lia. rewrite zero_words_at; [by eexists|].
  rewrite Z2Nat.id by done. done.
Qed.

Definition boot_chunk : chunk :=
  {| ch_size := 20; ch_base := KERNEL_PHYS_BASE; ch_length := boot_last - KERNEL_PHYS_BASE; ch_type := 1 |}.

Lemma boot_machine_booted : booted boot_machine 0x9000 24 [boot_chunk] boot_last 5.
Proof.
  split.
  - split; [apply lookup_insert_eq|]. unfold boot_machine, upd; cbn [words boot_chunk ch_size ch_base ch_length ch_type].
    unfold boot_words. split.
    { rewrite lookup_insert_ne by done. apply lookup_insert_eq. }
    split; [rewrite !lookup_insert_ne by done; apply lookup_insert_eq|].
    split; [rewrite !lookup_insert_ne by done; apply lookup_insert_eq|].
    split; [done|reflexivity].
  - done.
  - vm_compute. split; congruence.
  - reflexivity.
  - vm_compute. repeat split; congruence.
  - reflexivity.
  - intros j Hj. change (words boot_machine) with boot_words.
    change (BOOT_PAGE_DIR + 4 * KERNEL_VIRT_PDINDX) with (BOOT_PAGE_DIR + 3072).
    replace (BOOT_PAGE_DIR + 3072 + 4 * j) with (BOOT_PAGE_DIR + 4 * (768 + j)) by lia.
    apply boot_words_at. lia.
  - intros j Hj. change (words boot_machine) with boot_words.
    change (BOOT_PAGE_DIR + PAGE_SIZE) with (BOOT_PAGE_DIR + 4096).
    replace (BOOT_PAGE_DIR + 4096 + 4 * j) with (BOOT_PAGE_DIR + 4 * (1024 + j)) by lia.
    apply boot_words_at. lia.
  - intros k Hk. change (boot_last / PAGE_SIZE) with 4354 in Hk. change first_free with 4352 in Hk.
    change (words boot_machine) with boot_words. unfold boot_words.
    assert (k = 4352 \/ k = 4353) as [-> | ->] by lia.
    + rewrite !(lookup_insert_ne _ _ (4352 * PAGE_SIZE)) by done. rewrite lookup_insert_eq. by eexists.
    + rewrite !(lookup_insert_ne _ _ (4353 * PAGE_SIZE)) by done. rewrite lookup_insert_eq. by eexists.
Qed.


(** ** The kernel's heap *)

Fixpoint sbrks (l : list Z) : kernel (list Z) :=
  match l with
  | [] => mret []
  | i :: l' => p ← sbrk i; ps ← sbrks l'; mret (p :: ps)
  end.

Definition sbrk_failed : Z := u32 (-1).

(** The blocks that were granted, with their sizes. *)
Definition granted (ps l : list Z) : list (Z * Z) :=
  filter (fun b => b.1 <> sbrk_failed) (zip ps l).

(** Blocks in ascending order, apart from each other, from [lo] to [hi]. *)
Fixpoint laid_out (lo : Z) (blocks : list (Z * Z)) (hi : Z) : Prop :=
  match blocks with
  | [] => lo <= hi
  | b :: l => lo <= b.1 /\ laid_out (b.1 + b.2) l hi
  end.

Lemma laid_out_mono lo lo' l hi : lo' <= lo -> laid_out lo l hi -> laid_out lo' l hi.
Proof. destruct l; cbn; [lia|]. intros ? [? ?]. split; [lia|done]. Qed.

Lemma sbrk_run i s :
  0 <= i < 2 ^ 32 -> 0 <= sbrk_size s <= KERNEL_DATA_SPACE ->
  0 <= mem_base s -> mem_base s + KERNEL_DATA_SPACE < 2 ^ 30 ->
  sbrk i s = if KERNEL_DATA_SPACE - sbrk_size s <? i then Ok (sbrk_failed, s)
             else Ok (KERNEL_VIRT_BASE + mem_base s + sbrk_size s,
                      s <| sbrk_size := sbrk_size s + i |>).
Proof.
  intros Hi Hs Hb Hmax. assert (KERNEL_DATA_SPACE = 10485760 /\ KERNEL_VIRT_BASE = 3221225472) as [Hk Hv] by done.
  unfold sbrk. rewrite run_gets, wrap_small by lia.
  destruct (Z.ltb_spec (KERNEL_DATA_SPACE - sbrk_size s) i); [done|].
  rewrite run_gets, run_modify. rewrite !wrap_small by lia. unfold VIRT_MEM, PAGE_OFFSET.
  rewrite wrap_small by lia. unfold mret, kernel_ret. do 2 f_equal. lia.
Qed.

Fixpoint total (blocks : list (Z * Z)) : Z :=
  match blocks with [] => 0 | b :: l => b.2 + total l end.

(** The kernel's heap grows in its own space only.  Every sequence of
    requests is answered; the blocks granted lie one behind the other between
    the end of the former heap and the end of the kernel's data space, so no
    two of them overlap; and a request is refused exactly when it does not fit
    behind the blocks granted before. *)
Lemma sbrk_blocks l s :
  Forall (fun i => 0 <= i < 2 ^ 32) l -> 0 <= sbrk_size s <= KERNEL_DATA_SPACE ->
  0 <= mem_base s -> mem_base s + KERNEL_DATA_SPACE < 2 ^ 30 - 1 ->
  exists ps s', sbrks l s = Ok (ps, s') /\ length ps = length l /\
    laid_out (KERNEL_VIRT_BASE + mem_base s + sbrk_size s) (granted ps l)
             (KERNEL_VIRT_BASE + mem_base s + KERNEL_DATA_SPACE) /\
    (forall k i, l !! k = Some i -> (ps !! k = Some sbrk_failed <->
      KERNEL_DATA_SPACE < sbrk_size s + total (granted (take k ps) (take k l)) + i)).
Proof.
  intros Hl. revert s. induction Hl as [|i l Hi Hl IH]; intros s Hs Hb Hmax.
  { exists [], s. split; [done|]. split; [done|]. split; [cbn; lia|done]. }
  cbn [sbrks]. pose proof (sbrk_run i s Hi Hs Hb ltac:(lia)) as Hrun.
  assert (KERNEL_DATA_SPACE = 10485760 /\ KERNEL_VIRT_BASE = 3221225472 /\ sbrk_failed = 4294967295)
    as (Hk & Hv & Hf) by done.
  destruct (Z.ltb_spec (KERNEL_DATA_SPACE - sbrk_size s) i) as [Hlt|Hge].
  - destruct (IH s Hs Hb Hmax) as (ps & s' & Hrest & Hlen & Hout & Hgrant).
    exists (sbrk_failed :: ps), s'. rewrite (kernel_bind_run _ _ _ _ _ Hrun), (kernel_bind_run _ _ _ _ _ Hrest).
    split; [done|]. split; [simpl; lia|].
    assert (forall a b, granted (sbrk_failed :: a) (i :: b) = granted a b) as Hskip
      by (intros; unfold granted; cbn; by rewrite decide_False by (intros ?; done)).
    rewrite Hskip. split; [exact Hout|].
    intros [|k] j Hj; cbn in Hj.
    + injection Hj as <-. cbn [take granted zip zip_with]. split; [intros _; change (granted [] []) with (@nil (Z * Z)); cbn [total]; lia|done].
    + cbn [take]. rewrite Hskip. by apply Hgrant.
  - set (s1 := s <| sbrk_size := sbrk_size s + i |>) in *.
    assert (sbrk_size s1 = sbrk_size s + i /\ mem_base s1 = mem_base s) as [Hs1 Hb1] by done.
    destruct (IH s1) as (ps & s' & Hrest & Hlen & Hout & Hgrant); [lia|lia|lia|].
    set (p := KERNEL_VIRT_BASE + mem_base s + sbrk_size s) in *.
    assert (p = KERNEL_VIRT_BASE + mem_base s + sbrk_size s) as Hp by done.
    assert (p <> sbrk_failed) as Hpf by lia.
    exists (p :: ps), s'. rewrite (kernel_bind_run _ _ _ _ _ Hrun), (kernel_bind_run _ _ _ _ _ Hrest).
    split; [done|]. split; [simpl; lia|].
    assert (forall a b, granted (p :: a) (i :: b) = (p, i) :: granted a b) as Hcons
      by (intros; unfold granted; cbn; by rewrite decide_True).
    rewrite Hcons. split.
    + split; [cbn; lia|]. cbn [fst snd]. rewrite Hs1, Hb1 in Hout.
      by replace (p + i) with (KERNEL_VIRT_BASE + mem_base s + (sbrk_size s + i)) by lia.
    + intros [|k] j Hj; cbn in Hj.
      * injection Hj as <-. cbn [take]. split; [by intros [= ?]|].
        change (granted [] []) with (@nil (Z * Z)). cbn [total]. lia.
      * cbn [take]. rewrite Hcons. cbn [total snd lookup list_lookup]. rewrite (Hgrant k j Hj), Hs1. lia.
Qed.

Lemma sbrk_blocks_witness :
  exists ps s', sbrks [4096; 20000000; 100] small = Ok (ps, s') /\ length ps = 3%nat /\
    laid_out KERNEL_VIRT_BASE (granted ps [4096; 20000000; 100])
      (KERNEL_VIRT_BASE + 0 + KERNEL_DATA_SPACE) /\
    (forall k i, [4096; 20000000; 100] !! k = Some i -> (ps !! k = Some sbrk_failed <->
      KERNEL_DATA_SPACE < 0 + total (granted (take k ps) (take k [4096; 20000000; 100])) + i)).
Proof.
  apply (sbrk_blocks [4096; 20000000; 100] small).
  - repeat constructor; lia.
  - done.
  - done.
  - done.
Defined.
