(* ===== verification/MemFuncs.v ===== *)
(** * Memory functions of the kernel: [x86_mem.c]

    [bcopy], [memcpy], [memmove] and [memset] on byte-addressed memory. *)

From S2P Require Import Prelude Memory.
Open Scope Z_scope.

(** [while(len--) *dest++ = *src++;] *)
Fixpoint copy_up (len : nat) (dest src : Z) (m : mem) : cres mem :=
  match len with
  | O => Ok m
  | S len' => c ← load8 m src; m ← store8 m dest c; copy_up len' (dest + 1) (src + 1) m
  end.

(** [while(len--) *lastd-- = *lasts--;] *)
Fixpoint copy_down (len : nat) (lastd lasts : Z) (m : mem) : cres mem :=
  match len with
  | O => Ok m
  | S len' => c ← load8 m lasts; m ← store8 m lastd c; copy_down len' (lastd - 1) (lasts - 1) m
  end.

Definition bcopy (src dest len : Z) (m : mem) : cres mem :=
  if dest <? src then copy_up (Z.to_nat len) dest src m
  else copy_down (Z.to_nat len) (dest + (len - 1)) (src + (len - 1)) m.

Definition memcpy (out inp length : Z) (m : mem) : cres (Z * mem) :=
  m ← bcopy inp out length m; Ok (out, m).

Definition memmove (s1 s2 n : Z) (m : mem) : cres (Z * mem) :=
  m ← bcopy s2 s1 n m; Ok (s1, m).

Fixpoint set_loop (len : nat) (ptr val : Z) (m : mem) : cres mem :=
  match len with
  | O => Ok m
  | S len' => m ← store8 m ptr val; set_loop len' (ptr + 1) val m
  end.

Definition memset (dest val len : Z) (m : mem) : cres (Z * mem) :=
  m ← set_loop (Z.to_nat len) dest val m; Ok (dest, m).

(** * Copying *)

(** [m'] holds at [dest] the bytes that [m] holds at [src]. *)
Definition moved (m m' : mem) (dest src len : Z) : Prop :=
  only_changes m m' dest (dest + len) /\
  forall i, 0 <= i < len -> m' !! (dest + i) = m !! (src + i).

Definition bytes_in (m : mem) (a len : Z) : Prop :=
  forall i, 0 <= i < len -> exists b, m !! (a + i) = Some b /\ 0 <= b < 256.

(** One byte of a copy. *)
Lemma copy_step (k : mem -> cres mem) m dest src b :
  m !! src = Some b -> 0 <= b < 256 -> is_Some (m !! dest) ->
  (c ← load8 m src; m ← store8 m dest c; k m) = k (<[dest := b]> m).
Proof.
  intros Hs Hb Hd. unfold load8. rewrite Hs. cbn [mbind cres_bind].
  rewrite store8_ok by done. by rewrite wrap_small.
Qed.

Lemma insert_dom (m : mem) a v : is_Some (m !! a) -> dom (<[a := v]> m) = dom m.
Proof. intros H. by apply dom_insert_lookup_L. Qed.

Lemma mapped_insert (m : mem) a v lo hi : mapped m lo hi -> mapped (<[a := v]> m) lo hi.
Proof.
  intros H x Hx. destruct (decide (x = a)) as [->|]; [rewrite lookup_insert_eq; by eexists|].
  rewrite lookup_insert_ne by done. by apply H.
Qed.

Lemma copy_up_spec n : forall dest src m,
  dest < src -> bytes_in m src (Z.of_nat n) -> mapped m dest (dest + Z.of_nat n) ->
  exists m', copy_up n dest src m = Ok m' /\ moved m m' dest src (Z.of_nat n).
Proof.
  induction n as [|n IH]; intros dest src m Hlt Hb Hd.
  - exists m. split; [done|]. split; [apply only_changes_refl|lia].
  - destruct (Hb 0 ltac:(lia)) as (b & Hs & Hbr). rewrite Z.add_0_r in Hs.
    cbn [copy_up]. rewrite (copy_step _ m dest src b Hs Hbr) by (apply Hd; lia).
    destruct (IH (dest + 1) (src + 1) (<[dest := b]> m)) as (m' & Hrun & [[Hdom Hkeep] Hmove]); [lia| | |].
    + intros i Hi. rewrite lookup_insert_ne by lia. destruct (Hb (i + 1) ltac:(lia)) as (c & Hc & Hcr).
      exists c. replace (src + 1 + i) with (src + (i + 1)) by lia. done.
    + apply mapped_insert. eapply mapped_mono; [done|lia|lia].
    + exists m'. split; [done|]. split; [split|].
      * rewrite Hdom. apply insert_dom, Hd. lia.
      * intros a Ha. rewrite Hkeep by lia. apply lookup_insert_ne. lia.
      * intros i Hi. destruct (decide (i = 0)) as [->|].
        -- rewrite Z.add_0_r, Z.add_0_r, Hkeep by lia. by rewrite lookup_insert_eq.
        -- replace (dest + i) with (dest + 1 + (i - 1)) by lia. rewrite Hmove by lia.
           rewrite lookup_insert_ne by lia. f_equal. lia.
Qed.

Lemma copy_down_spec n : forall dest src m,
  src <= dest -> bytes_in m src (Z.of_nat n) -> mapped m dest (dest + Z.of_nat n) ->
  exists m', copy_down n (dest + (Z.of_nat n - 1)) (src + (Z.of_nat n - 1)) m = Ok m' /\
    moved m m' dest src (Z.of_nat n).
Proof.
  induction n as [|n IH]; intros dest src m Hle Hb Hd.
  - exists m. split; [done|]. split; [apply only_changes_refl|lia].
  - rewrite Nat2Z.inj_succ in *. set (k := Z.of_nat n) in *.
    destruct (Hb k ltac:(lia)) as (b & Hs & Hbr).
    cbn [copy_down]. replace (src + (Z.succ k - 1)) with (src + k) by lia.
    replace (dest + (Z.succ k - 1)) with (dest + k) by lia.
    rewrite (copy_step _ m (dest + k) (src + k) b Hs Hbr) by (apply Hd; lia).
    replace (dest + k - 1) with (dest + (k - 1)) by lia.
    replace (src + k - 1) with (src + (k - 1)) by lia.
    destruct (IH dest src (<[dest + k := b]> m)) as (m' & Hrun & [[Hdom Hkeep] Hmove]); [lia| | |].
    + intros i Hi. rewrite lookup_insert_ne by lia. apply Hb. lia.
    + apply mapped_insert. eapply mapped_mono; [done|lia|lia].
    + exists m'. split; [done|]. split; [split|].
      * rewrite Hdom. apply insert_dom, Hd. lia.
      * intros a Ha. rewrite Hkeep by lia. apply lookup_insert_ne. lia.
      * intros i Hi. destruct (decide (i = k)) as [->|].
        -- rewrite Hkeep by lia. by rewrite lookup_insert_eq.
        -- rewrite Hmove by lia. apply lookup_insert_ne. lia.
Qed.

Lemma set_loop_spec n : forall ptr val m,
  mapped m ptr (ptr + Z.of_nat n) ->
  exists m', set_loop n ptr val m = Ok m' /\ only_changes m m' ptr (ptr + Z.of_nat n) /\
    forall i, 0 <= i < Z.of_nat n -> m' !! (ptr + i) = Some (u8 val).
Proof.
  induction n as [|n IH]; intros ptr val m Hm.
  - exists m. split; [done|]. split; [apply only_changes_refl|lia].
  - cbn [set_loop]. rewrite store8_ok by (apply Hm; lia). cbn [mbind cres_bind].
    destruct (IH (ptr + 1) val (<[ptr := u8 val]> m)) as (m' & Hrun & [Hdom Hkeep] & Hset).
    { apply mapped_insert. eapply mapped_mono; [done|lia|lia]. }
    exists m'. split; [done|]. split; [split|].
    + rewrite Hdom. apply insert_dom, Hm. lia.
    + intros a Ha. rewrite Hkeep by lia. apply lookup_insert_ne. lia.
    + intros i Hi. destruct (decide (i = 0)) as [->|].
      * rewrite Z.add_0_r, Hkeep by lia. apply lookup_insert_eq.
      * replace (ptr + i) with (ptr + 1 + (i - 1)) by lia. apply Hset. lia.
Qed.

Lemma memmove_run dest src len m :
  0 <= len -> bytes_in m src len -> mapped m dest (dest + len) ->
  exists m', memmove dest src len m = Ok (dest, m') /\ moved m m' dest src len.
Proof.
  intros Hl Hb Hd. unfold memmove, bcopy.
  rewrite <- (Z2Nat.id len) in Hb, Hd by done. destruct (Z.ltb_spec dest src) as [Hlt|Hge].
  - destruct (copy_up_spec (Z.to_nat len) dest src m Hlt Hb Hd) as (m' & Hrun & Hmove).
    rewrite Z2Nat.id in Hmove by done. exists m'. by rewrite Hrun.
  - destruct (copy_down_spec (Z.to_nat len) dest src m Hge Hb Hd) as (m' & Hrun & Hmove).
    rewrite Z2Nat.id in Hrun, Hmove by done. exists m'. by rewrite Hrun.
Qed.

Lemma memset_run dest val len m :
  0 <= len -> mapped m dest (dest + len) ->
  exists m', memset dest val len m = Ok (dest, m') /\ only_changes m m' dest (dest + len) /\
    forall i, 0 <= i < len -> m' !! (dest + i) = Some (u8 val).
Proof.
  intros Hl Hd. rewrite <- (Z2Nat.id len) in Hd by done.
  destruct (set_loop_spec (Z.to_nat len) dest val m Hd) as (m' & Hrun & Hch & Hset).
  rewrite Z2Nat.id in Hch, Hset by done. exists m'. unfold memset. by rewrite Hrun.
Qed.

(** C22: the copying functions move a block of memory correctly also when
    source and destination overlap: [memcpy] and [memmove] complete on mapped
    blocks, return the destination, leave there the bytes that the source had
    before, and change nothing else; [memset] fills its block with the lowest
    byte of the value. *)
Theorem block_functions_correct dest src val len m :
  0 <= len -> bytes_in m src len -> mapped m dest (dest + len) ->
  (exists m', memmove dest src len m = Ok (dest, m') /\ memcpy dest src len m = Ok (dest, m') /\
     moved m m' dest src len) /\
  (exists m', memset dest val len m = Ok (dest, m') /\ only_changes m m' dest (dest + len) /\
     forall i, 0 <= i < len -> m' !! (dest + i) = Some (u8 val)).
Proof.
  intros Hl Hb Hd. split; [|by apply memset_run].
  destruct (memmove_run dest src len m Hl Hb Hd) as (m' & Hrun & Hmove). exists m'. done.
Qed.

(** Moving five bytes up by two, over themselves. *)
Lemma block_functions_correct_witness :
  exists m', memmove 102 100 5 (<[100 := 1]> (<[101 := 2]> (blank 100 8))) = Ok (102, m') /\
    m' !! 102 = Some 1 /\ m' !! 103 = Some 2.
Proof.
  destruct (block_functions_correct 102 100 7 5 (<[100 := 1]> (<[101 := 2]> (blank 100 8))))
    as [(m' & Hrun & _ & _ & Hmove) _].
  - lia.
  - intros i Hi. assert (i = 0 \/ i = 1 \/ i = 2 \/ i = 3 \/ i = 4) as Hc by lia.
    by destruct Hc as [->|[->|[->|[->| ->]]]]; eexists.
  - apply mapped_insert, mapped_insert. eapply mapped_mono; [apply (blank_mapped 100 8)|lia|lia].
  - exists m'. split; [exact Hrun|]. split.
    + exact (Hmove 0 ltac:(lia)).
    + exact (Hmove 1 ltac:(lia)).
Defined.
