(* ===== verification/LibStrings.v ===== *)
(** * Characters and strings of the kernel's C library: [libc/]

    The functions of [ctype.c] and one file per function on strings and blocks,
    on byte-addressed memory.  Loops up to a terminator are bounded by [fuel];
    the theorems say which amount is enough.  The functions of [CLib] are what
    other components rely on; the kernel's functions are shown to provide it for
    plain ASCII. *)

From S2P Require Import Prelude Memory CLib MemFuncs.
Open Scope Z_scope.

(** ** ctype.c *)

Definition isascii (c : Z) : bool := Z.land c (Z.lnot 0x7f) =? 0.
Definition iscntrl (c : Z) : bool := (c <? 32) || (126 <? c).
Definition isdigit (c : Z) : bool := (48 <=? c) && (c <=? 57).
Definition isgraph (c : Z) : bool := (32 <? c) && (c <=? 126).
Definition islower (c : Z) : bool := (97 <=? c) && (c <=? 122).
Definition isprint (c : Z) : bool := (32 <=? c) && (c <=? 126).
Definition isspace (c : Z) : bool :=
  (c =? 32) || (c =? 12) || (c =? 10) || (c =? 13) || (c =? 9) || (c =? 11).
Definition isupper (c : Z) : bool := (65 <=? c) && (c <=? 90).
Definition isxdigit (c : Z) : bool :=
  isdigit c || ((65 <=? c) && (c <=? 70)) || ((97 <=? c) && (c <=? 102)).
Definition isalpha (c : Z) : bool := islower c || isupper c.
Definition isalnum (c : Z) : bool := isalpha c || isdigit c.
Definition ispunct (c : Z) : bool := isgraph c && negb (isalnum c).
Definition toascii (c : Z) : Z := Z.land c 0x7f.
Definition toupper (c : Z) : Z := if (97 <=? c) && (c <=? 122) then c - 97 + 65 else c.
Definition tolower (c : Z) : Z := if (65 <=? c) && (c <=? 90) then c - 65 + 97 else c.

(** ** Strings *)

(** [*p] for a pointer to (signed) characters *)
Definition char_at (m : mem) (p : Z) : cres Z := b ← load8 m p; Ok (swrap 8 b).

(** The address of the terminator *)
Fixpoint find_end (fuel : nat) (p : Z) (m : mem) : cres Z :=
  match fuel with
  | O => Fault OutOfFuel
  | S f => c ← char_at m p; if c =? 0 then Ok p else find_end f (p + 1) m
  end.

(** The loop of [strlen] leaves its pointer behind the terminator. *)
Definition strlen (fuel : nat) (string : Z) (m : mem) : cres Z :=
  p ← find_end fuel string m;
  let string' := p + 1 in
  Ok (string' - 1 - string).

(** The characters up to the terminator, which is copied too *)
Fixpoint copy_string (fuel : nat) (to from : Z) (m : mem) : cres mem :=
  match fuel with
  | O => Fault OutOfFuel
  | S f =>
    c ← char_at m from;
    m ← store8 m to c;
    if c =? 0 then Ok m else copy_string f (to + 1) (from + 1) m
  end.

Definition strcpy (fuel : nat) (to from : Z) (m : mem) : cres (Z * mem) :=
  m ← copy_string fuel to from m; Ok (to, m).

Definition strcat (fuel : nat) (s add : Z) (m : mem) : cres (Z * mem) :=
  p ← find_end fuel s m;
  m ← copy_string fuel p add m;
  Ok (s, m).

Fixpoint ncat_loop (n : nat) (d s : Z) (m : mem) : cres (Z * mem) :=
  match n with
  | O => Ok (d, m)
  | S n' =>
    c ← char_at m s;
    m ← store8 m d c;
    if c =? 0 then Ok (d, m) else ncat_loop n' (d + 1) (s + 1) m
  end.

Definition strncat (fuel : nat) (dst src n : Z) (m : mem) : cres (Z * mem) :=
  if n =? 0 then Ok (dst, m) else
  d ← find_end fuel dst m;
  r ← ncat_loop (Z.to_nat n) d src m;
  m ← store8 r.2 r.1 0;
  Ok (dst, m).

(** The pointer and the count that are left *)
Fixpoint ncpy_loop (count : nat) (to from : Z) (m : mem) : cres (Z * nat * mem) :=
  match count with
  | O => Ok (to, O, m)
  | S n =>
    c ← char_at m from;
    m ← store8 m to c;
    if c =? 0 then Ok (to + 1, n, m) else ncpy_loop n (to + 1) (from + 1) m
  end.

Fixpoint pad_loop (count : nat) (to : Z) (m : mem) : cres mem :=
  match count with
  | O => Ok m
  | S n => m ← store8 m to 0; pad_loop n (to + 1) m
  end.

Definition strncpy (to from count : Z) (m : mem) : cres (Z * mem) :=
  r ← ncpy_loop (Z.to_nat count) to from m;
  m ← pad_loop r.1.2 r.1.1 r.2;
  Ok (to, m).

(** [*s == c] compares a character with an [int]; 0 is the null pointer. *)
Fixpoint strchr (fuel : nat) (s c : Z) (m : mem) : cres Z :=
  match fuel with
  | O => Fault OutOfFuel
  | S f =>
    x ← char_at m s;
    if x =? c then Ok s else if x =? 0 then Ok 0 else strchr f (s + 1) c m
  end.

(** ** Comparison *)

(** [a] and [b] are unsigned, the result is an [int]. *)
Fixpoint strcmp (fuel : nat) (s1 s2 : Z) (m : mem) : cres Z :=
  match fuel with
  | O => Fault OutOfFuel
  | S f =>
    a ← char_at m s1; let a := u32 a in
    b ← char_at m s2; let b := u32 b in
    if negb (a =? 0) && negb (b =? 0) then
      if negb (a =? b) then Ok (i32 (u32 (a - b))) else strcmp f (s1 + 1) (s2 + 1) m
    else Ok (i32 (u32 (a - b)))
  end.

Fixpoint strncmp (n : nat) (s1 s2 : Z) (m : mem) : cres Z :=
  match n with
  | O => Ok 0
  | S n' =>
    a ← char_at m s1;
    b ← char_at m s2;
    if negb (a =? b) then Ok (a - b)
    else if a =? 0 then Ok 0 else strncmp n' (s1 + 1) (s2 + 1) m
  end.

Fixpoint strcasecmp (fuel : nat) (us1 us2 : Z) (m : mem) : cres Z :=
  match fuel with
  | O => Fault OutOfFuel
  | S f =>
    a ← load8 m us1;
    b ← load8 m us2;
    if tolower a =? tolower b then
      if a =? 0 then Ok 0 else strcasecmp f (us1 + 1) (us2 + 1) m
    else Ok (tolower a - tolower b)
  end.

Fixpoint strncasecmp (n : nat) (us1 us2 : Z) (m : mem) : cres Z :=
  match n with
  | O => Ok 0
  | S n' =>
    a ← load8 m us1;
    b ← load8 m us2;
    if negb (tolower a =? tolower b) then Ok (tolower a - tolower b)
    else if a =? 0 then Ok 0 else strncasecmp n' (us1 + 1) (us2 + 1) m
  end.

Fixpoint memcmp (size : nat) (s1 s2 : Z) (m : mem) : cres Z :=
  match size with
  | O => Ok 0
  | S n =>
    a ← char_at m s1; let a := u32 a in
    b ← char_at m s2; let b := u32 b in
    if negb (a =? b) then Ok (i32 (u32 (a - b))) else memcmp n (s1 + 1) (s2 + 1) m
  end.

(** The bytes and [c] are unsigned characters. *)
Fixpoint memchr_loop (n : nat) (p c : Z) (m : mem) : cres Z :=
  match n with
  | O => Ok 0
  | S n' => b ← load8 m p; if b =? c then Ok p else memchr_loop n' (p + 1) c m
  end.

Definition memchr (s c n : Z) (m : mem) : cres Z := memchr_loop (Z.to_nat n) s (u8 c) m.

Fixpoint fill_loop (len : nat) (to c : Z) (m : mem) : cres mem :=
  match len with
  | O => Ok m
  | S n => m ← store8 m to c; fill_loop n (to + 1) c m
  end.

Definition memset (tov c len : Z) (m : mem) : cres (Z * mem) :=
  m ← fill_loop (Z.to_nat len) tov c m; Ok (tov, m).

(** ** What memory holds *)

(** The bytes [l] from address [a] on *)
Definition stored (m : mem) (a : Z) (l : list Z) : Prop :=
  forall i b, l !! i = Some b -> m !! (a + Z.of_nat i) = Some b.

(** A terminated string of the bytes [s] *)
Definition cstring (m : mem) (a : Z) (s : list Z) : Prop :=
  Forall (fun b => 0 < b < 256) s /\ stored m a (s ++ [0]).

Lemma stored_cons m a b l : stored m a (b :: l) <-> m !! a = Some b /\ stored m (a + 1) l.
Proof.
  split.
  - intros H. split; [by rewrite <- (Z.add_0_r a); apply (H 0%nat)|].
    intros i x Hx. replace (a + 1 + Z.of_nat i) with (a + Z.of_nat (S i)) by lia. by apply H.
  - intros [H0 H] [|i] x Hx; cbn in Hx; [rewrite Z.add_0_r; congruence|].
    replace (a + Z.of_nat (S i)) with (a + 1 + Z.of_nat i) by lia. by apply H.
Qed.

Lemma stored_app m a l k :
  stored m a (l ++ k) <-> stored m a l /\ stored m (a + Z.of_nat (length l)) k.
Proof.
  revert a. induction l as [|b l IH]; intros a; cbn [app length].
  - rewrite Z.add_0_r. split; [|tauto]. intros H. split; [|done]. intros i x Hx. by rewrite lookup_nil in Hx.
  - rewrite !stored_cons, IH. replace (a + 1 + Z.of_nat (length l)) with (a + Z.of_nat (S (length l))) by lia. tauto.
Qed.

Lemma stored_mapped m a l : stored m a l -> mapped m a (a + Z.of_nat (length l)).
Proof.
  intros H x Hx. destruct (lookup_lt_is_Some_2 l (Z.to_nat (x - a))) as [b Hb]; [lia|].
  exists b. rewrite <- (H _ _ Hb). f_equal. lia.
Qed.

Lemma stored_agree m m' a l : agree m m' a (a + Z.of_nat (length l)) -> stored m a l -> stored m' a l.
Proof.
  intros Ha H i b Hb. rewrite <- Ha; [by apply H|]. apply lookup_lt_Some in Hb. lia.
Qed.

Lemma stored_insert m a l p v : ~ (a <= p < a + Z.of_nat (length l)) -> stored m a l -> stored (<[p := v]> m) a l.
Proof.
  intros Hp. apply stored_agree. intros x Hx. rewrite lookup_insert_ne; [done|lia].
Qed.

(** ** Writing bytes one behind the other *)

Fixpoint put (l : list Z) (a : Z) (m : mem) : mem :=
  match l with [] => m | b :: l' => put l' (a + 1) (<[a := b]> m) end.

Lemma put_app l k a m : put (l ++ k) a m = put k (a + Z.of_nat (length l)) (put l a m).
Proof.
  revert a m. induction l as [|b l IH]; intros a m; cbn [app put length]; [by rewrite Z.add_0_r|].
  rewrite IH. f_equal. lia.
Qed.

Lemma put_below l a m x : x < a -> put l a m !! x = m !! x.
Proof.
  revert a m. induction l as [|b l IH]; intros a m Hx; cbn [put]; [done|].
  rewrite IH by lia. apply lookup_insert_ne. lia.
Qed.

Lemma put_stored l a m : stored (put l a m) a l.
Proof.
  revert a m. induction l as [|b l IH]; intros a m; cbn [put]; [intros i x Hx; by rewrite lookup_nil in Hx|].
  apply stored_cons. split; [|apply IH]. rewrite put_below by lia. apply lookup_insert_eq.
Qed.

Lemma put_changes l a m :
  mapped m a (a + Z.of_nat (length l)) -> only_changes m (put l a m) a (a + Z.of_nat (length l)).
Proof.
  revert a m. induction l as [|b l IH]; intros a m Hm; cbn [put length] in *; [apply only_changes_refl|].
  apply (only_changes_trans _ (<[a := b]> m)).
  - split; [apply insert_dom, Hm; lia|]. intros x Hx. apply lookup_insert_ne. lia.
  - eapply only_changes_mono; [apply IH|lia|lia]. apply mapped_insert. eapply mapped_mono; [exact Hm|lia|lia].
Qed.

(** ** Steps of the loops *)

Definition byte (b : Z) : Prop := 0 <= b < 256.

(** A byte as a signed character, which is 0 exactly for the byte 0. *)
Lemma swrap8 b : byte b -> swrap 8 b = if b <? 128 then b else b - 256.
Proof.
  intros Hb. unfold byte, swrap in *. change (2 ^ (8 - 1)) with 128. change (2 ^ 8) with 256.
  destruct (Z.ltb_spec b 128); [rewrite Z.mod_small by lia; lia|].
  replace (b + 128) with (b - 128 + 1 * 256) by lia. rewrite Z.mod_add, Z.mod_small by lia. lia.
Qed.

Lemma swrap8_range b : - 128 <= swrap 8 b < 128.
Proof. pose proof (swrap_range 8 b ltac:(lia)). done. Qed.

Lemma swrap8_inj a b : byte a -> byte b -> swrap 8 a = swrap 8 b -> a = b.
Proof.
  intros Ha Hb. rewrite !swrap8 by done. unfold byte in *.
  destruct (Z.ltb_spec a 128), (Z.ltb_spec b 128); lia.
Qed.

Lemma swrap8_zero b : byte b -> (swrap 8 b =? 0) = (b =? 0).
Proof.
  intros Hb. rewrite swrap8 by done. unfold byte in Hb. destruct (Z.ltb_spec b 128); [done|]. lia.
Qed.

Lemma u8_swrap8 b : byte b -> u8 (swrap 8 b) = b.
Proof.
  intros Hb. rewrite swrap8 by done. unfold byte, wrap in *. change (2 ^ 8) with 256.
  destruct (Z.ltb_spec b 128); [apply Z.mod_small; lia|].
  replace (b - 256) with (b + -1 * 256) by lia. rewrite Z.mod_add, Z.mod_small by lia. done.
Qed.

Lemma load8_run m p b : m !! p = Some b -> load8 m p = Ok b.
Proof. unfold load8. by intros ->. Qed.

Lemma char_at_run m p b : m !! p = Some b -> char_at m p = Ok (swrap 8 b).
Proof. intros H. unfold char_at. by rewrite (load8_run _ _ _ H). Qed.

(** The bytes of a string with its terminator *)
Lemma cstring_bytes m a s : cstring m a s -> Forall byte (s ++ [0]).
Proof.
  intros [Hs _]. apply Forall_app. split; [|by repeat constructor].
  eapply Forall_impl; [exact Hs|]. unfold byte. intros; lia.
Qed.

Lemma cstring_nil m a : cstring m a [] -> m !! a = Some 0.
Proof. intros [_ H]. by apply stored_cons in H as [H _]. Qed.

Lemma cstring_cons m a b s : cstring m a (b :: s) -> m !! a = Some b /\ 0 < b < 256 /\ cstring m (a + 1) s.
Proof.
  intros [[Hb Hs]%Forall_cons H]. cbn [app] in H. apply stored_cons in H as [H1 H2]. done.
Qed.

(** One character of a copy *)
Lemma copy_char {A} (k : Z -> mem -> cres A) m d s b :
  m !! s = Some b -> byte b -> is_Some (m !! d) ->
  (c ← char_at m s; m ← store8 m d c; k c m) = k (swrap 8 b) (<[d := b]> m).
Proof.
  intros Hs Hb Hd. rewrite (char_at_run _ _ _ Hs). cbn [mbind cres_bind].
  rewrite store8_ok by done. by rewrite u8_swrap8.
Qed.

Lemma find_end_run fuel a s m : cstring m a s -> (length s < fuel)%nat ->
  find_end fuel a m = Ok (a + Z.of_nat (length s)).
Proof.
  revert fuel a. induction s as [|b s IH]; intros [|f] a Hs Hf; cbn [length find_end] in *; try lia.
  - rewrite (char_at_run _ _ _ (cstring_nil _ _ Hs)). cbn. f_equal. lia.
  - apply cstring_cons in Hs as (Hb & Hr & Hs). rewrite (char_at_run _ _ _ Hb). cbn [mbind cres_bind].
    rewrite swrap8_zero by (unfold byte; lia). rewrite (proj2 (Z.eqb_neq b 0)), IH by (done || lia).
    f_equal. lia.
Qed.

(** The areas [a, a+n) and [b, b+k) do not meet. *)
Definition apart (a n b k : Z) : Prop := a + n <= b \/ b + k <= a.

Lemma cstring_after m a s d b : cstring m a (b :: s) -> ~ (a <= d < a + Z.of_nat (length s) + 2) ->
  cstring (<[d := b]> m) (a + 1) s.
Proof.
  intros Hs Hd. apply cstring_cons in Hs as (_ & _ & [Hr H]). split; [done|].
  apply stored_insert; [|done]. rewrite length_app. cbn. lia.
Qed.

Lemma copy_string_run fuel to from s m :
  cstring m from s -> (length s < fuel)%nat -> mapped m to (to + Z.of_nat (length s) + 1) ->
  apart to (Z.of_nat (length s) + 1) from (Z.of_nat (length s) + 1) ->
  copy_string fuel to from m = Ok (put (s ++ [0]) to m).
Proof.
  revert fuel to from m. induction s as [|b s IH]; intros [|f] to from m Hs Hf Hm Ha; cbn [length copy_string] in *; try lia.
  - pose proof (cstring_nil _ _ Hs) as H0. rewrite (copy_char _ _ _ _ _ H0) by (done || (apply Hm; lia)). done.
  - pose proof (cstring_cons _ _ _ _ Hs) as (Hb & Hr & _).
    rewrite (copy_char _ _ _ _ _ Hb) by ((unfold byte; lia) || (apply Hm; lia)).
    rewrite swrap8_zero, (proj2 (Z.eqb_neq b 0)) by (unfold byte; lia).
    unfold apart in Ha. cbn [app put]. apply IH; [apply cstring_after; [done|lia]|lia| |unfold apart; lia].
    apply mapped_insert. eapply mapped_mono; [exact Hm|lia|lia].
Qed.

(** At most [n] characters. *)
Lemma ncat_run n d from s m :
  cstring m from s -> mapped m d (d + Z.of_nat (length s) + 1) ->
  apart d (Z.of_nat (length s) + 1) from (Z.of_nat (length s) + 1) ->
  ncat_loop n d from m = Ok (d + Z.of_nat (Nat.min n (length s)), put (take n (s ++ [0])) d m).
Proof.
  revert d from s m. induction n as [|n IH]; intros d from s m Hs Hm Ha; cbn [ncat_loop].
  - cbn. by rewrite Z.add_0_r.
  - destruct s as [|b s]; cbn [length app take put Nat.min] in *.
    + pose proof (cstring_nil _ _ Hs) as H0. rewrite (copy_char _ _ _ _ _ H0) by (done || (apply Hm; lia)).
      rewrite take_nil. cbn [put]. rewrite Z.add_0_r. done.
    + pose proof (cstring_cons _ _ _ _ Hs) as (Hb & Hr & _).
      rewrite (copy_char _ _ _ _ _ Hb) by ((unfold byte; lia) || (apply Hm; lia)).
      rewrite swrap8_zero, (proj2 (Z.eqb_neq b 0)) by (unfold byte; lia).
      unfold apart in Ha. rewrite (IH _ _ s).
      * do 2 f_equal. lia.
      * apply cstring_after; [done|lia].
      * apply mapped_insert. eapply mapped_mono; [exact Hm|lia|lia].
      * unfold apart. lia.
Qed.

Lemma ncpy_run n to from s m :
  cstring m from s -> mapped m to (to + Z.of_nat n) ->
  apart to (Z.of_nat n) from (Z.of_nat (length s) + 1) ->
  ncpy_loop n to from m =
    let l := take n (s ++ [0]) in Ok (to + Z.of_nat (length l), (n - length l)%nat, put l to m).
Proof.
  cbv zeta. revert to from s m. induction n as [|n IH]; intros to from s m Hs Hm Ha; cbn [ncpy_loop].
  - cbn. by rewrite Z.add_0_r.
  - destruct s as [|b s]; cbn [length app take put] in *.
    + pose proof (cstring_nil _ _ Hs) as H0. rewrite (copy_char _ _ _ _ _ H0) by (done || (apply Hm; lia)).
      rewrite take_nil. cbn [put length]. do 3 f_equal. lia.
    + pose proof (cstring_cons _ _ _ _ Hs) as (Hb & Hr & _).
      rewrite (copy_char _ _ _ _ _ Hb) by ((unfold byte; lia) || (apply Hm; lia)).
      rewrite swrap8_zero, (proj2 (Z.eqb_neq b 0)) by (unfold byte; lia).
      unfold apart in Ha. rewrite (IH _ _ s).
      * do 3 f_equal. lia.
      * apply cstring_after; [done|lia].
      * apply mapped_insert. eapply mapped_mono; [exact Hm|lia|lia].
      * unfold apart. lia.
Qed.
Lemma fill_run n to c m : mapped m to (to + Z.of_nat n) -> fill_loop n to c m = Ok (put (replicate n (u8 c)) to m).
Proof.
  revert to m. induction n as [|n IH]; intros to m Hm; [done|]. cbn [fill_loop replicate put].
  rewrite store8_ok by (apply Hm; lia). cbn [mbind cres_bind]. apply IH. apply mapped_insert.
  eapply mapped_mono; [exact Hm|lia|lia].
Qed.

Lemma pad_run n to m : mapped m to (to + Z.of_nat n) -> pad_loop n to m = Ok (put (replicate n 0) to m).
Proof.
  intros Hm. change (replicate n 0) with (replicate n (u8 0)). rewrite <- (fill_run n to 0 m Hm). clear Hm. revert to m.
  induction n as [|n IH]; intros to m; [done|]. cbn [pad_loop fill_loop].
  destruct (store8 m to 0); [apply IH|done].
Qed.

(** ** Comparison and search *)

(** The difference of the first two characters that differ *)
Fixpoint difference (u v : list Z) : Z :=
  match u, v with
  | x :: u', y :: v' => if x =? y then difference u' v' else x - y
  | _, _ => 0
  end.

(** The characters of a string that are compared, as values of [f] *)
Definition seen (f : Z -> Z) (s : list Z) : list Z := f <$> s ++ [0].

Lemma i32_small x : - 2 ^ 31 <= x < 2 ^ 31 -> i32 (u32 x) = x.
Proof.
  intros Hx. unfold swrap, wrap. change (2 ^ (32 - 1)) with (2 ^ 31).
  rewrite Zplus_mod, Zmod_mod, <- Zplus_mod. change (2 ^ 32) with (2 ^ 31 + 2 ^ 31). rewrite Z.mod_small; lia.
Qed.

Lemma unsigned_eq a b : (u32 (swrap 8 a) =? u32 (swrap 8 b)) = (swrap 8 a =? swrap 8 b).
Proof.
  pose proof (swrap8_range a). pose proof (swrap8_range b). unfold wrap.
  apply eq_true_iff_eq. rewrite !Z.eqb_eq. split; [|by intros ->].
  intros E. pose proof (Z.div_mod (swrap 8 a) (2 ^ 32) ltac:(lia)).
  pose proof (Z.div_mod (swrap 8 b) (2 ^ 32) ltac:(lia)).
  pose proof (Z.mod_pos_bound (swrap 8 a) (2 ^ 32) ltac:(lia)). rewrite E in *. lia.
Qed.

Lemma unsigned_zero a : (u32 (swrap 8 a) =? 0) = (swrap 8 a =? 0).
Proof. apply (unsigned_eq a 0). Qed.

(** The subtraction of unsigned characters gives the difference of the signed ones. *)
Lemma unsigned_sub a b : i32 (u32 (u32 (swrap 8 a) - u32 (swrap 8 b))) = swrap 8 a - swrap 8 b.
Proof.
  pose proof (swrap8_range a). pose proof (swrap8_range b).
  assert (u32 (u32 (swrap 8 a) - u32 (swrap 8 b)) = u32 (swrap 8 a - swrap 8 b)) as ->.
  { unfold wrap. by rewrite <- Zminus_mod. }
  apply i32_small. lia.
Qed.

(** The first cells of two strings: equal characters, which may be the
    terminators, or different ones. *)
Lemma cstring_cell m a s : cstring m a s -> exists x, m !! a = Some x /\ byte x /\
  ((x = 0 /\ s = []) \/ (x <> 0 /\ exists s', s = x :: s' /\ cstring m (a + 1) s')).
Proof.
  destruct s as [|x s]; intros Hs.
  - exists 0. split; [by apply cstring_nil|]. split; [done|by left].
  - apply cstring_cons in Hs as (Hx & Hr & Hs). exists x. split; [done|]. split; [unfold byte; lia|].
    right. split; [lia|by exists s].
Qed.

(** The test of the first characters of both *)
Ltac head_test f E :=
  match goal with |- context [f ?x =? f ?y] => destruct (Z.eqb_spec (f x) (f y)) as [E|E] end.

Lemma strcmp_run fuel a b s t m : cstring m a s -> cstring m b t -> (length s < fuel)%nat ->
  strcmp fuel a b m = Ok (difference (seen (swrap 8) s) (seen (swrap 8) t)).
Proof.
  revert a b s t. induction fuel as [|f IH]; intros a b s t Hs Ht Hf; [lia|]. cbn [strcmp].
  destruct (cstring_cell _ _ _ Hs) as (x & Hx & Bx & Cx), (cstring_cell _ _ _ Ht) as (y & Hy & By & Cy).
  rewrite (char_at_run _ _ _ Hx), (char_at_run _ _ _ Hy). cbn [mbind cres_bind].
  rewrite !unsigned_zero, unsigned_eq, unsigned_sub, !swrap8_zero by done. unfold seen.
  destruct Cx as [(-> & ->)|(Hx0 & s' & -> & Hs')]; cbn [Z.eqb negb andb app fmap list_fmap difference].
  - destruct Cy as [(-> & ->)|(Hy0 & t' & -> & _)]; cbn [app fmap list_fmap difference]; [done|].
    change (swrap 8 0) with 0. rewrite (Z.eqb_sym 0), swrap8_zero by done. by rewrite (proj2 (Z.eqb_neq y 0)).
  - rewrite (proj2 (Z.eqb_neq x 0)) by done. cbn [negb].
    destruct Cy as [(-> & ->)|(Hy0 & t' & -> & Ht')]; cbn [Z.eqb negb app fmap list_fmap difference].
    + change (swrap 8 0) with 0. rewrite swrap8_zero by done. by rewrite (proj2 (Z.eqb_neq x 0)).
    + rewrite (proj2 (Z.eqb_neq y 0)) by done. cbn [negb]. destruct (_ =? _); cbn [negb]; [|done].
      apply IH; [done|done|]. cbn in Hf. lia.
Qed.

Lemma strncmp_run n a b s t m : cstring m a s -> cstring m b t ->
  strncmp n a b m = Ok (difference (take n (seen (swrap 8) s)) (take n (seen (swrap 8) t))).
Proof.
  revert a b s t. induction n as [|n IH]; intros a b s t Hs Ht; [done|]. cbn [strncmp].
  destruct (cstring_cell _ _ _ Hs) as (x & Hx & Bx & Cx), (cstring_cell _ _ _ Ht) as (y & Hy & By & Cy).
  rewrite (char_at_run _ _ _ Hx), (char_at_run _ _ _ Hy). cbn [mbind cres_bind]. unfold seen in *.
  rewrite swrap8_zero by done.
  destruct Cx as [(-> & ->)|(Hx0 & s' & -> & Hs')], Cy as [(-> & ->)|(Hy0 & t' & -> & Ht')];
    cbn [app fmap list_fmap take difference]; head_test (swrap 8) E; cbn [negb]; try done.
  - cbn. by rewrite take_nil.
  - apply swrap8_inj in E; [by subst|done..].
  - apply swrap8_inj in E; [by subst|done..].
  - rewrite (proj2 (Z.eqb_neq x 0)) by done. by apply IH.
Qed.

Lemma tolower_zero b : byte b -> (tolower b = 0 <-> b = 0).
Proof. unfold tolower, byte. intros Hb. destruct ((65 <=? b) && (b <=? 90)) eqn:E; lia. Qed.

Lemma strncasecmp_run n a b s t m : cstring m a s -> cstring m b t ->
  strncasecmp n a b m = Ok (difference (take n (seen tolower s)) (take n (seen tolower t))).
Proof.
  revert a b s t. induction n as [|n IH]; intros a b s t Hs Ht; [done|]. cbn [strncasecmp].
  destruct (cstring_cell _ _ _ Hs) as (x & Hx & Bx & Cx), (cstring_cell _ _ _ Ht) as (y & Hy & By & Cy).
  rewrite (load8_run _ _ _ Hx), (load8_run _ _ _ Hy). cbn [mbind cres_bind]. unfold seen in *.
  pose proof (tolower_zero x Bx). pose proof (tolower_zero y By).
  destruct Cx as [(-> & ->)|(Hx0 & s' & -> & Hs')], Cy as [(-> & ->)|(Hy0 & t' & -> & Ht')];
    cbn [app fmap list_fmap take difference]; head_test tolower E; cbn [negb]; try done.
  - cbn. by rewrite take_nil.
  - change (tolower 0) with 0 in E. lia.
  - change (tolower 0) with 0 in E. lia.
  - rewrite (proj2 (Z.eqb_neq x 0)) by done. by apply IH.
Qed.

(** Without a limit: as with one that is not reached. *)
Lemma strcasecmp_run fuel a b s t m : cstring m a s -> cstring m b t -> (length s < fuel)%nat ->
  strcasecmp fuel a b m = Ok (difference (seen tolower s) (seen tolower t)).
Proof.
  revert a b s t. induction fuel as [|f IH]; intros a b s t Hs Ht Hf; [lia|]. cbn [strcasecmp].
  destruct (cstring_cell _ _ _ Hs) as (x & Hx & Bx & Cx), (cstring_cell _ _ _ Ht) as (y & Hy & By & Cy).
  rewrite (load8_run _ _ _ Hx), (load8_run _ _ _ Hy). cbn [mbind cres_bind]. unfold seen in *.
  pose proof (tolower_zero x Bx). pose proof (tolower_zero y By).
  destruct Cx as [(-> & ->)|(Hx0 & s' & -> & Hs')], Cy as [(-> & ->)|(Hy0 & t' & -> & Ht')];
    cbn [app fmap list_fmap difference]; head_test tolower E; try done.
  - change (tolower 0) with 0 in E. lia.
  - rewrite (proj2 (Z.eqb_neq x 0)) by done. apply IH; [done|done|]. cbn in Hf. lia.
Qed.

Lemma memcmp_run a b l k m : stored m a l -> stored m b k -> length l = length k ->
  memcmp (length l) a b m = Ok (difference (swrap 8 <$> l) (swrap 8 <$> k)).
Proof.
  revert a b k. induction l as [|x l IH]; intros a b [|y k] Hl Hk Hlen; try done. cbn [length memcmp].
  apply stored_cons in Hl as [Hx Hl]. apply stored_cons in Hk as [Hy Hk].
  rewrite (char_at_run _ _ _ Hx), (char_at_run _ _ _ Hy). cbn [mbind cres_bind].
  rewrite unsigned_eq, unsigned_sub. cbn [fmap list_fmap difference].
  destruct (_ =? _); cbn [negb]; [|done]. apply IH; [done|done|]. cbn in Hlen. lia.
Qed.

(** The address of the first element of [l] that satisfies [P], or 0 *)
Definition first (P : Z -> bool) (a : Z) (l : list Z) : Z :=
  match list_find (fun x => P x = true) l with Some (i, _) => a + Z.of_nat i | None => 0 end.

Lemma first_cons P a x l : first P a (x :: l) = if P x then a else first P (a + 1) l.
Proof.
  unfold first. cbn [list_find]. destruct (P x) eqn:Hx.
  - rewrite decide_True by done. lia.
  - rewrite decide_False by congruence. destruct (list_find _ l) as [[i y]|]; cbn; lia.
Qed.

Lemma memchr_loop_run a c l m : stored m a l -> memchr_loop (length l) a c m = Ok (first (fun b => b =? c) a l).
Proof.
  revert a. induction l as [|x l IH]; intros a Hl; [done|]. apply stored_cons in Hl as [Hx Hl].
  cbn [length memchr_loop]. rewrite first_cons, (load8_run _ _ _ Hx). cbn [mbind cres_bind].
  destruct (x =? c); [done|]. by apply IH.
Qed.

Lemma strchr_run fuel a c s m : cstring m a s -> (length s < fuel)%nat ->
  strchr fuel a c m = Ok (first (fun b => swrap 8 b =? c) a (s ++ [0])).
Proof.
  revert a s. induction fuel as [|f IH]; intros a s Hs Hf; [lia|]. cbn [strchr].
  destruct (cstring_cell _ _ _ Hs) as (x & Hx & Bx & Cx). rewrite (char_at_run _ _ _ Hx). cbn [mbind cres_bind].
  rewrite swrap8_zero by done. destruct Cx as [(-> & ->)|(Hx0 & s' & -> & Hs')]; cbn [app]; rewrite first_cons.
  - by destruct (_ =? c).
  - destruct (_ =? c); [done|]. rewrite (proj2 (Z.eqb_neq x 0)) by done. apply IH; [done|]. cbn in Hf. lia.
Qed.

(** ** What is written *)

Lemma put_cstring s a m : Forall (fun b => 0 < b < 256) s -> cstring (put (s ++ [0]) a m) a s.
Proof. intros Hs. split; [done|apply put_stored]. Qed.

(** Writing a string over the terminator of another one appends it. *)
Lemma put_appends t s a m : cstring m a t -> Forall (fun b => 0 < b < 256) s ->
  cstring (put (s ++ [0]) (a + Z.of_nat (length t)) m) a (t ++ s).
Proof.
  intros [Ht Hst] Hs. split; [by apply Forall_app|]. rewrite <- app_assoc. apply stored_app. split; [|apply put_stored].
  apply stored_app in Hst as [Hst _]. revert Hst. apply stored_agree. intros x Hx. symmetry. apply put_below. lia.
Qed.

(** [strncat] stores the terminator behind the last character. *)
Lemma ncat_end n d s m :
  <[d + Z.of_nat (Nat.min n (length s)) := 0]> (put (take n (s ++ [0])) d m) = put (take n s ++ [0]) d m.
Proof.
  rewrite put_app, length_take. cbn [put]. destruct (decide (n <= length s)%nat).
  - by rewrite take_app_le by done.
  - rewrite Nat.min_r by lia. rewrite (take_ge (s ++ [0])) by (rewrite length_app; cbn; lia).
    rewrite (take_ge s) by lia. rewrite put_app. cbn [put]. by rewrite insert_insert_eq.
Qed.

Lemma ncpy_bytes n (s : list Z) :
  take n (s ++ [0]) ++ replicate (n - length (take n (s ++ [0]))) 0 = take n (s ++ replicate n 0).
Proof.
  rewrite length_take, length_app. cbn [length]. destruct (decide (n <= length s)%nat).
  - rewrite !take_app_le by done. replace (n - _)%nat with 0%nat by lia. apply app_nil_r.
  - rewrite (take_ge (s ++ [0])) by (rewrite length_app; cbn; lia). rewrite take_app_ge, take_replicate by lia.
    rewrite <- app_assoc. f_equal. replace (Nat.min _ n) with (S (n - Nat.min n (length s + 1))) by lia. done.
Qed.

Section bounded_copies.
Context (fuel : nat) (to from : Z) (s : list Z) (n room : Z) (m : mem).
Context (Hs : cstring m from s) (Hm : mapped m to (to + room)) (Hn : 0 <= n <= room).
Context (Ha : to + room <= from \/ from + (Z.of_nat (length s) + 1) <= to).

Lemma strncat_run t : cstring m to t -> (length t < fuel)%nat -> Z.of_nat (length t + length s) < room ->
  exists m', strncat fuel to from n m = Ok (to, m') /\ cstring m' to (t ++ take (Z.to_nat n) s) /\
    only_changes m m' to (to + Z.of_nat (length t) + n + 1).
Proof.
  intros Ht Hf2 Hroom. pose proof Hs as [Hcs _].
  unfold strncat. destruct (Z.eqb_spec n 0) as [->|Hn0].
  { exists m. rewrite app_nil_r. split; [done|]. split; [done|apply only_changes_refl]. }
  rewrite (find_end_run _ _ _ _ Ht Hf2). cbn [mbind cres_bind]. rewrite (ncat_run _ _ _ s);
    [|done|by eapply mapped_mono; [exact Hm|lia|lia]|unfold apart; lia].
  cbn [mbind cres_bind fst snd]. set (d := to + Z.of_nat (length t)). set (k := Z.to_nat n).
  assert (mapped m d (d + Z.of_nat (length s) + 1)) as Hd by (eapply mapped_mono; [exact Hm|lia|lia]).
  rewrite store8_ok.
  + cbn [mbind cres_bind]. change (u8 0) with 0. rewrite ncat_end. exists (put (take k s ++ [0]) d m).
    split; [done|]. split; [apply put_appends; [done|by apply Forall_take]|].
    eapply only_changes_mono; [apply put_changes| |]; rewrite ?length_app, ?length_take; cbn [length]; [|lia..].
    eapply mapped_mono; [exact Hd|lia|lia].
  + apply (mapped_only_changes m (put (take k (s ++ [0])) d m) d (d + Z.of_nat (length (take k (s ++ [0])))) d (d + Z.of_nat (length s) + 1));
      [|exact Hd|lia]. apply put_changes. rewrite length_take, length_app. cbn [length].
    eapply mapped_mono; [exact Hd|lia|lia].
Qed.

Lemma strncpy_run : exists m', strncpy to from n m = Ok (to, m') /\
  stored m' to (take (Z.to_nat n) (s ++ replicate (Z.to_nat n) 0)) /\ only_changes m m' to (to + n).
Proof.
  unfold strncpy. rewrite (ncpy_run _ _ _ s); [|done|by eapply mapped_mono; [exact Hm|lia|lia]|unfold apart; lia].
  cbv zeta. cbn [mbind cres_bind fst snd]. set (k := Z.to_nat n). set (l := take k (s ++ [0])).
  assert (length l <= k)%nat as Hl by (unfold l; rewrite length_take; lia).
  assert (mapped m to (to + Z.of_nat k)) as Hk by (eapply mapped_mono; [exact Hm|lia|lia]).
  rewrite pad_run.
  + rewrite <- put_app. unfold l. rewrite ncpy_bytes. eexists. split; [done|]. split; [apply put_stored|].
    eapply only_changes_mono; [apply put_changes|lia|];
      rewrite length_take, length_app, length_replicate; [|lia].
    eapply mapped_mono; [exact Hk|lia|lia].
  + eapply mapped_only_changes; [apply put_changes|]; eapply mapped_mono; [exact Hk|lia..|exact Hk|lia|lia].
Qed.
End bounded_copies.

(** ** Equal strings *)

Lemma difference_strings f n s t : f 0 = 0 -> Forall (fun x => f x <> 0) s -> Forall (fun x => f x <> 0) t ->
  (difference (take n (seen f s)) (take n (seen f t)) = 0 <-> take n (f <$> s) = take n (f <$> t)).
Proof.
  intros H0 Hs. revert n t. induction Hs as [|x s Hx Hs IH]; intros [|n] t Ht; unfold seen in *.
  - done.
  - destruct Ht as [|y t Hy Ht]; cbn [app fmap list_fmap take difference]; rewrite H0.
    + by rewrite Z.eqb_refl, take_nil.
    + destruct (Z.eqb_spec 0 (f y)); [congruence|]. split; [lia|discriminate].
  - done.
  - destruct Ht as [|y t Hy Ht]; cbn [app fmap list_fmap take difference].
    + rewrite H0. rewrite (proj2 (Z.eqb_neq _ _) Hx). split; [lia|discriminate].
    + destruct (Z.eqb_spec (f x) (f y)) as [E|E].
      * rewrite IH by done. rewrite E. split; [by intros ->|by intros [= ->]].
      * split; [lia|by intros [= ? _]].
Qed.

Lemma difference_all f s t : f 0 = 0 -> Forall (fun x => f x <> 0) s -> Forall (fun x => f x <> 0) t ->
  (difference (seen f s) (seen f t) = 0 <-> f <$> s = f <$> t).
Proof.
  intros H0 Hs Ht. set (n := S (length s + length t)).
  assert (forall l, (length l < n)%nat -> take n (seen f l) = seen f l /\ take n (f <$> l) = f <$> l) as Hall.
  { intros l Hl. unfold seen. split; apply take_ge; rewrite length_fmap, ?length_app; cbn [length]; lia. }
  destruct (Hall s ltac:(unfold n; lia)) as [E1 E2], (Hall t ltac:(unfold n; lia)) as [E3 E4].
  rewrite <- E1, <- E3, <- E2, <- E4. by apply difference_strings.
Qed.

Lemma nonzero_chars s : Forall (fun b => 0 < b < 256) s -> Forall (fun x => swrap 8 x <> 0) s.
Proof.
  intros H. eapply Forall_impl; [exact H|]. cbv beta. intros x Hx E. apply Z.eqb_eq in E.
  rewrite swrap8_zero in E by (unfold byte; lia). lia.
Qed.

Lemma nonzero_lower s : Forall (fun b => 0 < b < 256) s -> Forall (fun x => tolower x <> 0) s.
Proof.
  intros H. eapply Forall_impl; [exact H|]. cbv beta. intros x Hx E. apply (proj1 (tolower_zero x ltac:(unfold byte; lia))) in E. lia.
Qed.

Lemma same_chars n s t : Forall (fun b => 0 < b < 256) s -> Forall (fun b => 0 < b < 256) t ->
  (take n (swrap 8 <$> s) = take n (swrap 8 <$> t) <-> take n s = take n t).
Proof.
  intros Hs. revert n t. induction Hs as [|x s Hx Hs IH]; intros [|n] t Ht; try done;
    destruct Ht as [|y t Hy Ht]; cbn [fmap list_fmap take]; try done.
  specialize (IH n t Ht). split.
  - intros [= E1 E2]. apply swrap8_inj in E1; [|unfold byte; lia..]. f_equal; [done|]. by apply IH.
  - intros [= -> E2]. f_equal. by apply IH.
Qed.

(** ** The properties *)

(** The functions that write strings.  Let [s] be a string at [from] and [t]
    one at [to], which do not meet, with room for the result at [to].  Then
    [strlen] gives the length of [s]; [strcpy] makes the string at [to] equal to
    [s]; [strcat] appends [s] to [t]; [strncat] appends the first [n] characters
    of [s], or fewer, and a terminator; [strncpy] stores exactly [n] bytes, the
    characters of [s] followed by zeros as far as they go; [memset] stores [n]
    times the byte.  Nothing else is written, and one step of fuel more than
    the length of the strings is enough. *)
Lemma strings_written fuel to from s t n c room m :
  cstring m from s -> cstring m to t -> (length s < fuel)%nat -> (length t < fuel)%nat ->
  mapped m to (to + room) -> Z.of_nat (length t + length s) < room -> 0 <= n <= room ->
  apart to room from (Z.of_nat (length s) + 1) ->
  strlen fuel from m = Ok (Z.of_nat (length s)) /\
  (exists m', strcpy fuel to from m = Ok (to, m') /\ cstring m' to s /\
    only_changes m m' to (to + Z.of_nat (length s) + 1)) /\
  (exists m', strcat fuel to from m = Ok (to, m') /\ cstring m' to (t ++ s) /\
    only_changes m m' to (to + Z.of_nat (length t + length s) + 1)) /\
  (exists m', strncat fuel to from n m = Ok (to, m') /\ cstring m' to (t ++ take (Z.to_nat n) s) /\
    only_changes m m' to (to + Z.of_nat (length t) + n + 1)) /\
  (exists m', strncpy to from n m = Ok (to, m') /\
    stored m' to (take (Z.to_nat n) (s ++ replicate (Z.to_nat n) 0)) /\ only_changes m m' to (to + n)) /\
  (exists m', memset to c n m = Ok (to, m') /\ stored m' to (replicate (Z.to_nat n) (u8 c)) /\
    only_changes m m' to (to + n)).
Proof.
  intros Hs Ht Hf1 Hf2 Hm Hroom Hn Ha. pose proof Hs as [Hcs _]. unfold apart in Ha.
  split; [|split; [|split; [|split; [|split]]]].
  - unfold strlen. rewrite (find_end_run _ _ _ _ Hs Hf1). cbn. f_equal. lia.
  - exists (put (s ++ [0]) to m). unfold strcpy. rewrite (copy_string_run _ _ _ s);
      [|done|done|by eapply mapped_mono; [exact Hm|lia|lia]|unfold apart; lia].
    split; [done|]. split; [by apply put_cstring|]. eapply only_changes_mono; [apply put_changes| |];
      rewrite ?length_app; cbn [length]; [|lia..]. eapply mapped_mono; [exact Hm|lia|lia].
  - exists (put (s ++ [0]) (to + Z.of_nat (length t)) m). unfold strcat. rewrite (find_end_run _ _ _ _ Ht Hf2).
    cbn [mbind cres_bind]. rewrite (copy_string_run _ _ _ s);
      [|done|done|by eapply mapped_mono; [exact Hm|lia|lia]|unfold apart; lia].
    split; [done|]. split; [by apply put_appends|]. eapply only_changes_mono; [apply put_changes| |];
      rewrite ?length_app; cbn [length]; [|lia..]. eapply mapped_mono; [exact Hm|lia|lia].
  - exact (strncat_run fuel to from s n room m Hs Hm Hn Ha t Ht Hf2 Hroom).
  - exact (strncpy_run to from s n room m Hs Hm Hn Ha).
  - unfold memset. rewrite fill_run by (eapply mapped_mono; [exact Hm|lia|lia]). eexists. split; [done|].
    split; [apply put_stored|]. eapply only_changes_mono; [apply put_changes|lia|]; rewrite length_replicate; [|lia].
    eapply mapped_mono; [exact Hm|lia|lia].
Qed.

(** The functions that compare and search.  For any strings [s] and [t],
    [strcmp] gives the difference of the first characters that differ, the
    terminators included, as signed characters, and 0 exactly for equal strings;
    [strncmp] does the same for their first [n] characters, [strcasecmp] and
    [strncasecmp] for their letters in lower case, as unsigned characters, and
    [memcmp] for blocks.  [strchr] finds the first character that equals its
    argument and [memchr] the first byte, or they return the null pointer. *)
Lemma strings_compared fuel a b s t n c m :
  cstring m a s -> cstring m b t -> (length s < fuel)%nat ->
  (exists r, strcmp fuel a b m = Ok r /\ r = difference (seen (swrap 8) s) (seen (swrap 8) t) /\
    (r = 0 <-> s = t)) /\
  (exists r, strncmp n a b m = Ok r /\ r = difference (take n (seen (swrap 8) s)) (take n (seen (swrap 8) t)) /\
    (r = 0 <-> take n s = take n t)) /\
  (exists r, strcasecmp fuel a b m = Ok r /\ r = difference (seen tolower s) (seen tolower t) /\
    (r = 0 <-> tolower <$> s = tolower <$> t)) /\
  (exists r, strncasecmp n a b m = Ok r /\ r = difference (take n (seen tolower s)) (take n (seen tolower t)) /\
    (r = 0 <-> take n (tolower <$> s) = take n (tolower <$> t))) /\
  (length s = length t -> memcmp (length s) a b m = Ok (difference (swrap 8 <$> s) (swrap 8 <$> t))) /\
  strchr fuel a c m = Ok (first (fun x => swrap 8 x =? c) a (s ++ [0])) /\
  memchr a c (Z.of_nat (length s)) m = Ok (first (fun x => x =? u8 c) a s).
Proof.
  intros Hs Ht Hf. pose proof Hs as [Cs Ms]. pose proof Ht as [Ct Mt].
  apply stored_app in Ms as [Ms _]. apply stored_app in Mt as [Mt _].
  split; [|split; [|split; [|split; [|split; [|split]]]]].
  - eexists. split; [by apply strcmp_run|]. split; [done|]. rewrite difference_all by (done || by apply nonzero_chars).
    pose proof (same_chars (length s + length t) s t Cs Ct) as H.
    rewrite !take_ge in H by (rewrite ?length_fmap; lia). exact H.
  - eexists. split; [by apply strncmp_run|]. split; [done|].
    rewrite difference_strings by (done || by apply nonzero_chars). by apply same_chars.
  - eexists. split; [by apply strcasecmp_run|]. split; [done|]. apply difference_all; [done|by apply nonzero_lower..].
  - eexists. split; [by apply strncasecmp_run|]. split; [done|].
    apply difference_strings; [done|by apply nonzero_lower..].
  - intros Hlen. by apply memcmp_run.
  - by apply strchr_run.
  - unfold memchr. rewrite Nat2Z.id. by apply memchr_loop_run.
Qed.

(** ** The library that the other components rely on *)

Definition ascii (s : list Z) : Prop := Forall (fun b => 0 < b < 128) s.

Lemma ascii_bytes s : ascii s -> Forall (fun b => 0 < b < 256) s.
Proof. intros H. eapply Forall_impl; [exact H|]. cbv beta. lia. Qed.

Lemma ascii_chars s : ascii s -> seen (swrap 8) s = s ++ [0].
Proof.
  intros H. unfold seen. rewrite fmap_app. f_equal. induction H as [|b s Hb _ IH]; [done|]. cbn [fmap list_fmap].
  f_equal; [|exact IH]. rewrite swrap8 by (unfold byte; lia). by rewrite (proj2 (Z.ltb_lt b 128)) by lia.
Qed.

Lemma clib_strlen s : ascii s -> CLib.strlen (s ++ [0]) = Ok (Z.of_nat (length s)).
Proof.
  induction 1 as [|b s Hb _ IH]; [done|]. cbn [app CLib.strlen length].
  rewrite (proj2 (Z.eqb_neq b 0)), IH by lia. cbn [mbind cres_bind]. f_equal. lia.
Qed.

Lemma clib_strncmp n s t : ascii s -> ascii t ->
  CLib.strncmp (s ++ [0]) (t ++ [0]) n = Ok (difference (take n (s ++ [0])) (take n (t ++ [0]))).
Proof.
  intros Hs. revert n t. induction Hs as [|x s Hx Hs IH]; intros [|n] t Ht; [done| |done|];
    destruct Ht as [|y t Hy Ht]; cbn [app CLib.strncmp take difference].
  - by rewrite take_nil.
  - rewrite (proj2 (Z.eqb_neq 0 y)) by lia. cbn [negb]. by rewrite (wrap_small 8 y) by (change (2 ^ 8) with 256; lia).
  - rewrite (proj2 (Z.eqb_neq x 0)) by lia. cbn [negb]. by rewrite (wrap_small 8 x) by (change (2 ^ 8) with 256; lia).
  - rewrite (proj2 (Z.eqb_neq x 0)) by lia. destruct (x =? y); cbn [negb]; [by apply IH|].
    by rewrite !(wrap_small 8) by (change (2 ^ 8) with 256; lia).
Qed.

Lemma clib_strncpy n s : ascii s -> CLib.strncpy (s ++ [0]) n = Ok (take n (s ++ replicate n 0)).
Proof.
  intros Hs. revert n. induction Hs as [|x s Hx Hs IH]; intros [|n]; cbn [app CLib.strncpy take]; try done.
  - cbn. by rewrite take_replicate, Nat.min_id.
  - rewrite (proj2 (Z.eqb_neq x 0)), IH by lia. cbn [mbind cres_bind]. do 2 f_equal.
    change (replicate (S n) 0) with (0 :: replicate n 0). rewrite replicate_cons_app, app_assoc.
    rewrite (take_app_le (s ++ replicate n 0)); [done|]. rewrite length_app, length_replicate. lia.
Qed.

Lemma clib_strchr c s a : ascii s -> 0 < a ->
  CLib.strchr (s ++ [0]) c = Ok (negb (first (fun x => swrap 8 x =? c) a (s ++ [0]) =? 0)).
Proof.
  intros Hs. revert a. induction Hs as [|x s Hx Hs IH]; intros a Ha; cbn [app CLib.strchr]; rewrite first_cons.
  - change (swrap 8 0) with 0. destruct (0 =? c); [|done]. by rewrite (proj2 (Z.eqb_neq a 0)) by lia.
  - rewrite swrap8 by (unfold byte; lia). rewrite (proj2 (Z.ltb_lt x 128)), (proj2 (Z.eqb_neq x 0)) by lia.
    destruct (x =? c); [by rewrite (proj2 (Z.eqb_neq a 0)) by lia|]. apply IH. lia.
Qed.

Lemma clib_isspace c : isspace c = CLib.isspace c.
Proof. unfold isspace, CLib.isspace. lia. Qed.

Lemma clib_isdigit c : isdigit c = is_digit 10 c.
Proof. unfold isdigit, is_digit, digit_value. repeat case_match; simplify_eq; lia. Qed.

Lemma clib_isxdigit c : isxdigit c = is_digit 16 c.
Proof. unfold isxdigit, isdigit, is_digit, digit_value. repeat case_match; simplify_eq; lia. Qed.

(** C23: the kernel's library provides what the models of the other components
    assume of the standard functions.  For strings of plain ASCII in memory,
    [strlen], [strncmp], [strncpy] and [strchr] of the kernel yield, or write,
    what the functions of [CLib] yield for the strings with their terminators;
    [isspace], [isdigit] and [isxdigit] are the same for every character. *)
Theorem libc_implements_clib fuel to from a s t n c room m :
  cstring m from s -> cstring m a t -> ascii s -> ascii t -> (length s < fuel)%nat -> 0 < from ->
  mapped m to (to + room) -> 0 <= n <= room -> apart to room from (Z.of_nat (length s) + 1) ->
  strlen fuel from m = CLib.strlen (s ++ [0]) /\
  strncmp (Z.to_nat n) from a m = CLib.strncmp (s ++ [0]) (t ++ [0]) (Z.to_nat n) /\
  (r ← strchr fuel from c m; Ok (negb (r =? 0))) = CLib.strchr (s ++ [0]) c /\
  (exists m' l, strncpy to from n m = Ok (to, m') /\ CLib.strncpy (s ++ [0]) (Z.to_nat n) = Ok l /\ stored m' to l) /\
  isspace c = CLib.isspace c /\ isdigit c = is_digit 10 c /\ isxdigit c = is_digit 16 c.
Proof.
  intros Hs Ht As At Hf Hfrom Hm Hn Ha. unfold apart in Ha.
  split; [|split; [|split; [|split; [|split; [|split]]]]].
  - rewrite clib_strlen by done. unfold strlen. rewrite (find_end_run _ _ _ _ Hs Hf). cbn. f_equal. lia.
  - rewrite clib_strncmp, (strncmp_run _ _ _ s t) by done. by rewrite !ascii_chars.
  - rewrite (strchr_run _ _ _ s) by done. by rewrite (clib_strchr c s from) by done.
  - destruct (strncpy_run to from s n room m Hs Hm Hn Ha) as (m' & Hrun & Hst & _).
    exists m', (take (Z.to_nat n) (s ++ replicate (Z.to_nat n) 0)). split; [done|]. split; [by apply clib_strncpy|done].
  - apply clib_isspace.
  - apply clib_isdigit.
  - apply clib_isxdigit.
Qed.

(** ** Characters that are not ASCII *)

(** The C standard compares characters as unsigned ones and lets [strchr]
    convert its argument to a character: [a] is less than the character 228,
    and is found to be greater; the character 228 is not found. *)
Lemma signed_characters m a b : cstring m a [97] -> cstring m b [228] ->
  strcmp 2 a b m = Ok 125 /\ strncmp 1 a b m = Ok 125 /\ CLib.strncmp [97; 0] [-28; 0] 1 = Ok (-131) /\
  memcmp 1 a b m = Ok 125 /\ strchr 2 b 228 m = Ok 0.
Proof.
  intros Ha Hb. split; [exact (strcmp_run 2 a b [97] [228] m Ha Hb ltac:(cbn; lia))|].
  split; [exact (strncmp_run 1 a b [97] [228] m Ha Hb)|]. split; [done|]. split.
  - destruct Ha as [_ [Ha _]%stored_cons], Hb as [_ [Hb _]%stored_cons].
    apply (memcmp_run a b [97] [228]); [| |done]; (apply stored_cons; split; [done|]; intros i x Hx; by rewrite lookup_nil in Hx).
  - exact (strchr_run 2 b 228 [228] m Hb ltac:(cbn; lia)).
Qed.

(** ** Examples *)

(** The strings [cd] at address 100, with 20 bytes of room, and [abc] at 200. *)
Definition two_strings : mem := put [97; 98; 99; 0] 200 (put [99; 100; 0] 100 (blank 100 20)).

Lemma two_strings_from : cstring two_strings 200 [97; 98; 99].
Proof. apply (put_cstring [97; 98; 99]). repeat constructor. Qed.

Lemma two_strings_to : cstring two_strings 100 [99; 100].
Proof.
  split; [repeat constructor|]. eapply stored_agree; [|apply put_stored].
  intros x Hx. cbn in Hx. symmetry. apply put_below. lia.
Qed.

Lemma two_strings_room : mapped two_strings 100 (100 + 20).
Proof.
  unfold two_strings. cbn [put]. do 7 apply mapped_insert. apply (blank_mapped 100 20).
Qed.

Lemma strings_written_witness :
  exists m', strcat 4 100 200 two_strings = Ok (100, m') /\ cstring m' 100 [99; 100; 97; 98; 99].
Proof.
  destruct (strings_written 4 100 200 [97; 98; 99] [99; 100] 2 0 20 two_strings two_strings_from two_strings_to
    ltac:(cbn; lia) ltac:(cbn; lia) two_strings_room ltac:(cbn; lia) ltac:(lia) ltac:(left; cbn; lia))
    as (_ & _ & (m' & H1 & H2 & _) & _).
  exists m'. split; [exact H1|exact H2].
Defined.

Lemma strings_compared_witness : strcmp 4 200 100 two_strings = Ok (-2) /\ strchr 4 200 99 two_strings = Ok 202.
Proof.
  destruct (strings_compared 4 200 100 [97; 98; 99] [99; 100] 2 99 two_strings two_strings_from two_strings_to
    ltac:(cbn; lia)) as ((r & H1 & Hr & _) & _ & _ & _ & _ & H2 & _).
  split; [rewrite H1, Hr; reflexivity|exact H2].
Defined.

Lemma libc_implements_clib_witness :
  strncmp 2 200 100 two_strings = CLib.strncmp [97; 98; 99; 0] [99; 100; 0] 2 /\
  strlen 4 200 two_strings = Ok 3.
Proof.
  destruct (libc_implements_clib 4 100 200 100 [97; 98; 99] [99; 100] 2 99 20 two_strings two_strings_from
    two_strings_to ltac:(repeat constructor) ltac:(repeat constructor) ltac:(cbn; lia) ltac:(lia) two_strings_room
    ltac:(lia) ltac:(left; cbn; lia)) as (H1 & H2 & _).
  split; [exact H2|exact H1].
Defined.
