(* ===== verification/LibNumbers.v ===== *)
(** * Conversion of text to numbers: [strtol.c], [strtoll.c], [strtoul.c],
    [atoi.c] and [atol.c] of [libc/]

    A pointer into the text is the suffix that is left.  Signed arithmetic that
    leaves its type is a fault, unsigned arithmetic wraps around.  The numbers
    that [_doprnt] prints are read back. *)

From S2P Require Import Prelude CLib Doprnt DoprntSpec Doscan LibStrings.
Open Scope Z_scope.

(** An expression of type [long] or, with [ll], [long long]. *)
Definition signed_range (ll : bool) (n : Z) : cres Z :=
  if ll then if (- 2 ^ 63 <=? n) && (n <? 2 ^ 63) then Ok n else Fault Overflow else int_range n.

(** [while(isspace( *p)) p++] *)
Fixpoint space_loop (p : text) : cres text :=
  match p with
  | [] => Fault OutOfBounds
  | c :: p' => if isspace c then space_loop p' else Ok p
  end.

(** The prefix of a hexadecimal number, and the base that 0 stands for *)
Definition base_prefix (p : text) (base : Z) : cres (text * Z) :=
  c ← deref p;
  r ← (if ((base =? 16) || (base =? 0)) && (c =? ch "0") then
         x ← deref (drop 1 p);
         Ok (if (x =? ch "x") || (x =? ch "X") then (drop 2 p, 16) else (p, base))
       else Ok (p, base));
  if r.2 =? 0 then c ← deref r.1; Ok (r.1, if c =? ch "0" then 8 else 10) else Ok r.

Section digits.
(** The type of [v] *)
Context (arith : Z -> cres Z).

Fixpoint digits_loop (p : text) (base v : Z) : cres (Z * text) :=
  match p with
  | [] => Fault OutOfBounds
  | c :: p' =>
    let next d := w ← arith (v * base); w ← arith (w + d); digits_loop p' base w in
    if (ch "0" <=? c) && (c <=? ch "9") && (c - ch "0" <? base) then next (c - ch "0")
    else if (ch "a" <=? c) && (c <=? ch "z") && (c - ch "a" + 10 <? base) then next (c - ch "a" + 10)
    else if (ch "A" <=? c) && (c <=? ch "Z") && (c - ch "A" + 10 <? base) then next (c - ch "A" + 10)
    else Ok (v, p)
  end.
End digits.

(** [strtol] and, with [ll], [strtoll], whose texts differ in the type only.
    [is_neg = 0] for a plus sign has no effect, and [p] is not moved. *)
Definition strtol_ (ll : bool) (p : text) (base : Z) : cres (Z * text) :=
  p ← space_loop p;
  c ← deref p;
  let '(is_neg, p) := if c =? ch "-" then (true, drop 1 p) else (false, p) in
  b ← base_prefix p base;
  r ← digits_loop (signed_range ll) b.1 b.2 0;
  v ← (if is_neg : bool then signed_range ll (- r.1) else Ok r.1);
  Ok (v, r.2).

Definition strtol : text -> Z -> cres (Z * text) := strtol_ false.
Definition strtoll : text -> Z -> cres (Z * text) := strtol_ true.

Definition strtoul (p : text) (base : Z) : cres (Z * text) :=
  p ← space_loop p;
  b ← base_prefix p base;
  digits_loop (fun n => Ok (u32 n)) b.1 b.2 0.

Definition atoi (str : text) : cres Z := r ← strtol str 10; Ok (i32 r.1).

(** [n = (n * 10) + *str - '0'] *)
Fixpoint atol_loop (str : text) (n : Z) : cres Z :=
  match str with
  | [] => Fault OutOfBounds
  | c :: str' =>
    if isdigit c then
      w ← int_range (n * 10); w ← int_range (w + c); w ← int_range (w - ch "0");
      atol_loop str' w
    else Ok n
  end.

Definition atol (str : text) : cres Z := atol_loop str 0.

(** ** Digits and their values *)

(** The value of a digit or letter *)
Definition alnum_value (c : Z) : option Z :=
  if (48 <=? c) && (c <=? 57) then Some (c - 48)
  else if (97 <=? c) && (c <=? 122) then Some (c - 87)
  else if (65 <=? c) && (c <=? 90) then Some (c - 55) else None.

Definition is_numeral (base c : Z) : bool := match alnum_value c with Some d => d <? base | None => false end.

Definition numeral_value (base v : Z) (l : text) : Z :=
  foldl (fun v c => v * base + default 0 (alnum_value c)) v l.

Section loops.
Context (arith : Z -> cres Z).

(** One step of the loop *)
Lemma digits_loop_cons c p base v : digits_loop arith (c :: p) base v =
  match alnum_value c with
  | Some d => if d <? base then w ← arith (v * base); w ← arith (w + d); digits_loop arith p base w else Ok (v, c :: p)
  | None => Ok (v, c :: p)
  end.
Proof.
  cbn [digits_loop]. unfold alnum_value. eval_chars.
  destruct (Z.leb_spec 48 c), (Z.leb_spec c 57), (Z.leb_spec 97 c), (Z.leb_spec c 122), (Z.leb_spec 65 c), (Z.leb_spec c 90);
    try lia; cbn [andb]; try done.
  - replace (c - 97 + 10) with (c - 87) by lia. done.
  - replace (c - 65 + 10) with (c - 55) by lia. done.
Qed.

Lemma alnum_value_range c d : alnum_value c = Some d -> 0 <= d < 36.
Proof. unfold alnum_value. repeat case_match; intros; simplify_eq; lia. Qed.

Lemma numeral_value_mono base v l : 2 <= base -> 0 <= v -> v <= numeral_value base v l.
Proof.
  intros Hb. revert v. induction l as [|c l IH]; intros v Hv; [cbn; lia|]. unfold numeral_value. cbn [foldl].
  fold (numeral_value base (v * base + default 0 (alnum_value c)) l).
  assert (0 <= default 0 (alnum_value c)).
  { destruct (alnum_value c) as [d|] eqn:Hd; cbn; [|lia]. apply alnum_value_range in Hd. lia. }
  specialize (IH (v * base + default 0 (alnum_value c)) ltac:(nia)). nia.
Qed.
End loops.

(** Digits are read to the end as long as the value fits. *)
Lemma numeral_loop_run (arith : Z -> cres Z) (top base : Z) l c t v :
  (forall n, 0 <= n < top -> arith n = Ok n) -> 2 <= base -> 0 <= v ->
  Forall (fun c => is_numeral base c = true) l -> is_numeral base c = false -> numeral_value base v l < top ->
  digits_loop arith (l ++ c :: t) base v = Ok (numeral_value base v l, c :: t).
Proof.
  intros Har Hb Hv Hl Hc. revert v Hv. induction Hl as [|x l Hx Hl IH]; intros v Hv Htop.
  - cbn [app]. rewrite digits_loop_cons. unfold is_numeral in Hc. destruct (alnum_value c); [by rewrite Hc|done].
  - cbn [app]. rewrite digits_loop_cons. unfold is_numeral in Hx.
    unfold numeral_value in Htop. cbn [foldl] in Htop. fold (numeral_value base (v * base + default 0 (alnum_value x)) l) in Htop.
    change (numeral_value base v (x :: l)) with (numeral_value base (v * base + default 0 (alnum_value x)) l).
    destruct (alnum_value x) as [d|] eqn:Hd; [|done]. rewrite Hx. cbn [default] in *.
    pose proof (alnum_value_range _ _ Hd). pose proof (numeral_value_mono base (v * base + d) l Hb ltac:(nia)).
    unfold default, from_option, id in *.
    rewrite !Har by nia. cbn [mbind cres_bind]. rewrite Har by nia. cbn [mbind cres_bind]. apply IH; [nia|done].
Qed.

(** ** Numbers in a text *)

(** The base that the caller gives, the base of the digits, and the prefix *)
Definition written (base0 base : Z) (prefix l : text) : Prop :=
  (base0 = base /\ 2 <= base <= 36 /\ prefix = []) \/
  (base = 16 /\ (base0 = 16 \/ base0 = 0) /\ (prefix = chars "0x" \/ prefix = chars "0X")) \/
  (base0 = 0 /\ base = 8 /\ prefix = [] /\ head l = Some (ch "0")) \/
  (base0 = 0 /\ base = 10 /\ prefix = [] /\ head l <> Some (ch "0")).

Lemma written_base base0 base prefix l : written base0 base prefix l -> 2 <= base <= 36.
Proof. intros [(-> & H & _)|[(-> & _)|[(_ & -> & _)|(_ & -> & _)]]]; lia. Qed.

(** Neither a digit nor a letter *)
Definition ends_number (c : Z) : Prop := isalnum c = false.

Lemma ends_numeral base c : ends_number c -> is_numeral base c = false.
Proof.
  unfold ends_number, isalnum, isalpha, islower, isupper, isdigit, is_numeral, alnum_value. intros H.
  destruct ((48 <=? c) && (c <=? 57)), ((97 <=? c) && (c <=? 122)), ((65 <=? c) && (c <=? 90)); done.
Qed.

Lemma is_numeral_code base c : is_numeral base c = true -> 48 <= c <= 57 \/ 97 <= c <= 122 \/ 65 <= c <= 90.
Proof. unfold is_numeral, alnum_value. intros H. repeat (case_match; try lia). done. Qed.

(** No [x] follows a zero, if the digits are those of base 16 or 8 at most. *)
Lemma after_zero base l c t : base <= 16 -> ends_number c ->
  Forall (fun c => is_numeral base c = true) l -> exists x y, l ++ c :: t = x :: y /\ x <> ch "x" /\ x <> ch "X".
Proof.
  intros Hb Hc Hl. eval_chars. destruct Hl as [|x l Hx _]; cbn [app].
  - exists c, t. split; [done|]. unfold ends_number, isalnum, isalpha, islower, isupper in Hc. lia.
  - exists x, (l ++ c :: t). split; [done|]. unfold is_numeral, alnum_value in Hx.
    split; intros ->; cbn in Hx; lia.
Qed.

Lemma base_prefix_run base0 base prefix l c t :
  written base0 base prefix l -> l <> [] -> Forall (fun c => is_numeral base c = true) l -> ends_number c ->
  base_prefix (prefix ++ l ++ c :: t) base0 = Ok (l ++ c :: t, base).
Proof.
  intros Hw Hne Hl Hc. destruct l as [|x l]; [done|]. apply Forall_cons in Hl as [Hx Hl]. unfold base_prefix.
  destruct Hw as [(-> & Hb & ->)|[(-> & Hb & Hp)|[(-> & -> & -> & Hh)|(-> & -> & -> & Hh)]]].
  - cbn [app deref mbind cres_bind]. rewrite (proj2 (Z.eqb_neq base 0)), orb_false_r by lia.
    destruct (Z.eqb_spec base 16) as [->|]; cbn [andb]; [|cbn [mbind cres_bind snd]; by rewrite (proj2 (Z.eqb_neq base 0)) by lia].
    destruct (x =? ch "0"); [|done]. change (drop 1 (x :: ?q)) with q.
    destruct (after_zero 16 l c t ltac:(lia) Hc Hl) as (y & z & -> & Hy1 & Hy2). cbn [deref mbind cres_bind].
    by rewrite (proj2 (Z.eqb_neq y _) Hy1), (proj2 (Z.eqb_neq y _) Hy2).
  - destruct Hp as [-> | ->], Hb as [-> | ->]; reflexivity.
  - injection Hh as ->. cbn [app deref mbind cres_bind]. change (((0 =? 16) || (0 =? 0)) && (ch "0" =? ch "0")) with true.
    change (drop 1 (ch "0" :: ?q)) with q. cbv iota.
    destruct (after_zero 8 l c t ltac:(lia) Hc Hl) as (y & z & -> & Hy1 & Hy2). cbn [deref mbind cres_bind].
    by rewrite (proj2 (Z.eqb_neq y _) Hy1), (proj2 (Z.eqb_neq y _) Hy2).
  - assert (x <> ch "0") as Hx0 by (intros ->; by apply Hh). cbn [app deref mbind cres_bind].
    rewrite (proj2 (Z.eqb_neq x _) Hx0), andb_false_r. cbn [mbind cres_bind fst snd]. change (0 =? 0) with true.
    cbn [deref mbind cres_bind]. by rewrite (proj2 (Z.eqb_neq x _) Hx0).
Qed.

Lemma space_loop_run sp x t : Forall (fun c => isspace c = true) sp -> isspace x = false ->
  space_loop (sp ++ x :: t) = Ok (x :: t).
Proof. intros Hsp Hx. induction Hsp as [|c sp Hc _ IH]; cbn [app space_loop]; [by rewrite Hx|by rewrite Hc]. Qed.

(** The first character of a number without a sign *)
Lemma number_head base0 base prefix l c t :
  written base0 base prefix l -> l <> [] -> Forall (fun c => is_numeral base c = true) l ->
  exists x y, prefix ++ l ++ c :: t = x :: y /\ isspace x = false /\ (x =? ch "-") = false.
Proof.
  intros Hw Hne Hl. destruct l as [|x l]; [done|]. apply Forall_cons in Hl as [Hx _].
  assert (isspace x = false /\ (x =? ch "-") = false) as Hx'.
  { apply is_numeral_code in Hx. eval_chars. unfold isspace. lia. }
  destruct Hw as [(_ & _ & ->)|[(_ & _ & [-> | ->])|[(_ & _ & -> & _)|(_ & _ & -> & _)]]];
    cbn [app chars String.list_ascii_of_string fmap list_fmap]; do 2 eexists; (split; [reflexivity|]); (exact Hx' || by split).
Qed.

Definition signed_top (ll : bool) : Z := if ll then 2 ^ 63 else 2 ^ 31.

Lemma signed_range_ok ll n : - signed_top ll <= n < signed_top ll -> signed_range ll n = Ok n.
Proof.
  unfold signed_range, signed_top. destruct ll; intros [H1 H2]; [|by apply int_range_ok].
  by rewrite (proj2 (Z.leb_le _ _) H1), (proj2 (Z.ltb_lt _ _) H2).
Qed.

Section reading.
Context (base0 base : Z) (sp prefix l : text) (c : Z) (t : text).
Context (Hsp : Forall (fun c => isspace c = true) sp) (Hw : written base0 base prefix l).
Context (Hne : l <> []) (Hl : Forall (fun c => is_numeral base c = true) l) (Hc : ends_number c).

Lemma strtol_run ll (neg : bool) : numeral_value base 0 l < signed_top ll ->
  strtol_ ll (sp ++ (if neg then chars "-" else []) ++ prefix ++ l ++ c :: t) base0 =
    Ok (if neg then - numeral_value base 0 l else numeral_value base 0 l, c :: t).
Proof.
  intros Hv. pose proof (written_base _ _ _ _ Hw) as Hb.
  pose proof (numeral_value_mono base 0 l ltac:(lia) ltac:(lia)) as Hv0. set (v := numeral_value base 0 l) in *.
  assert (forall p', base_prefix (prefix ++ l ++ c :: t) base0 = Ok p' ->
    digits_loop (signed_range ll) p'.1 p'.2 0 = Ok (v, c :: t)) as Hd.
  { rewrite (base_prefix_run _ base _ _ _ _ Hw Hne Hl Hc). intros p' [= <-]. cbn [fst snd].
    apply (numeral_loop_run _ (signed_top ll)); [|lia|lia|done|by apply ends_numeral|done].
    intros n Hn. apply signed_range_ok. lia. }
  destruct (number_head base0 base prefix l c t Hw Hne Hl) as (x & y & Heq & Hx & Hm).
  pose proof (base_prefix_run _ base _ _ _ t Hw Hne Hl Hc) as Hp. rewrite Heq in Hp, Hd |- *. specialize (Hd _ Hp).
  unfold strtol_. destruct neg.
  - change (chars "-" ++ x :: y) with (ch "-" :: x :: y).
    rewrite (space_loop_run sp (ch "-") (x :: y) Hsp) by done. cbn [mbind cres_bind deref]. rewrite Z.eqb_refl. cbn [drop].
    rewrite Hp. cbn [mbind cres_bind]. rewrite Hd. cbn [mbind cres_bind fst snd].
    rewrite signed_range_ok by lia. done.
  - cbn [app]. rewrite (space_loop_run sp x y Hsp Hx). cbn [mbind cres_bind deref]. rewrite Hm.
    rewrite Hp. cbn [mbind cres_bind]. by rewrite Hd.
Qed.

Lemma strtoul_run : numeral_value base 0 l < 2 ^ 32 ->
  strtoul (sp ++ prefix ++ l ++ c :: t) base0 = Ok (numeral_value base 0 l, c :: t).
Proof.
  intros Hv. pose proof (written_base _ _ _ _ Hw) as Hb.
  destruct (number_head base0 base prefix l c t Hw Hne Hl) as (x & y & Heq & Hx & _).
  pose proof (base_prefix_run _ base _ _ _ t Hw Hne Hl Hc) as Hp. rewrite Heq in Hp |- *.
  unfold strtoul. rewrite (space_loop_run sp x y Hsp Hx). cbn [mbind cres_bind]. rewrite Hp. cbn [mbind cres_bind fst snd].
  apply (numeral_loop_run _ (2 ^ 32)); [|lia|lia|done|by apply ends_numeral|done].
  intros n Hn. by rewrite wrap_small.
Qed.
End reading.

(** What the conversions read.  In a text of white space, a minus sign or
    none, the prefix of the base, digits and letters, and a character that is
    neither, [strtol] and [strtoll] find the value of the digits with its sign,
    if it fits, and stop behind them, for every base from 2 to 36, also
    when base 0 leaves the choice to the prefix; [strtoul] does so for values below 2^32. *)
Lemma numbers_read base0 base sp prefix l c t (neg : bool) :
  Forall (fun c => isspace c = true) sp -> written base0 base prefix l -> l <> [] ->
  Forall (fun c => is_numeral base c = true) l -> ends_number c ->
  let v := numeral_value base 0 l in
  let p := sp ++ (if neg then chars "-" else []) ++ prefix ++ l ++ c :: t in
  (v < 2 ^ 31 -> strtol p base0 = Ok (if neg then - v else v, c :: t)) /\
  (v < 2 ^ 63 -> strtoll p base0 = Ok (if neg then - v else v, c :: t)) /\
  (v < 2 ^ 32 -> neg = false -> strtoul p base0 = Ok (v, c :: t)).
Proof.
  intros Hsp Hw Hne Hl Hc v p. split; [|split].
  - intros Hv. by apply (strtol_run base0 base sp prefix l c t Hsp Hw Hne Hl Hc false neg).
  - intros Hv. by apply (strtol_run base0 base sp prefix l c t Hsp Hw Hne Hl Hc true neg).
  - intros Hv Hn. unfold p. rewrite Hn. by apply (strtoul_run base0 base).
Qed.

(** Six letters of base 36 behind a blank *)
Lemma numbers_read_witness :
  strtol (cstr " -zik0zj,") 36 = Ok (- (2 ^ 31 - 1), cstr ",") /\ strtoul (cstr " 0xffff") 0 = Ok (65535, [0]).
Proof.
  split.
  - exact (proj1 (numbers_read 36 36 (chars " ") [] (chars "zik0zj") (ch ",") [0] true ltac:(repeat constructor)
      ltac:(left; repeat split; lia) ltac:(discriminate) ltac:(repeat constructor) ltac:(reflexivity)) ltac:(vm_compute; reflexivity)).
  - exact (proj2 (proj2 (numbers_read 0 16 (chars " ") (chars "0x") (chars "ffff") 0 [] false ltac:(repeat constructor)
      ltac:(right; left; repeat split; by right + by left) ltac:(discriminate) ltac:(repeat constructor) ltac:(reflexivity)))
      ltac:(vm_compute; reflexivity) eq_refl).
Defined.

(** ** Printed numbers *)

Lemma digit_alnum c d : digit_value c = Some d -> alnum_value c = Some d.
Proof. unfold digit_value, alnum_value. intros H. repeat case_match; simplify_eq; try done; exfalso; lia. Qed.

Lemma digit_numeral base c : is_digit base c = true -> is_numeral base c = true.
Proof.
  unfold is_digit, is_numeral. destruct (digit_value c) as [d|] eqn:Hd; [|done]. by rewrite (digit_alnum _ _ Hd).
Qed.

Lemma digits_value_numeral base l v : Forall (fun c => is_digit base c = true) l ->
  numeral_value base v l = digits_value base l v.
Proof.
  intros Hl. revert v. induction Hl as [|c l Hc _ IH]; intros v; [done|]. unfold numeral_value, digits_value in *.
  cbn [foldl]. rewrite IH. unfold is_digit in Hc. destruct (digit_value c) as [d|] eqn:Hd; [|done].
  by rewrite (digit_alnum _ _ Hd).
Qed.

(** The digits of a number *)
Lemma digits_numerals base n : 2 <= base <= 16 -> 0 <= n ->
  digits false base n <> [] /\ Forall (fun c => is_numeral base c = true) (digits false base n) /\
  numeral_value base 0 (digits false base n) = n.
Proof.
  intros Hb Hn. pose proof (digits_all false base Hb n Hn) as Hall. split; [by apply digits_nonempty|]. split.
  - eapply Forall_impl; [exact Hall|]. apply digit_numeral.
  - rewrite digits_value_numeral by done. by apply digits_value_eq.
Qed.

(** Decimal digits start with 0 only for the number 0. *)
Lemma digits_head_zero n : 0 < n -> head (digits false 10 n) <> Some (ch "0").
Proof.
  intros Hn. destruct (digits_head 10 n ltac:(lia) Hn) as (c & t & -> & Hc & _). intros [= ?]. done.
Qed.

(** The alternate form of [%o], [%u], [%x] and [%X] *)
Definition alternate : field := Build_field [Alternate] false 0 None false.

Lemma number_text_alternate base u :
  number_text (field_spec alternate) base u 0 =
    (if u =? 0 then [] else if base =? 8 then chars "0" else if base =? 16 then chars "0x" else []) ++ digits false base u.
Proof.
  unfold number_text. change (altfmt _) with true. change (ladjust _) with false. change (prec _) with (-1).
  change (length_ _) with 0. change (padc _ =? ch "0") with false. rewrite andb_true_r.
  change (Z.to_nat (-1)) with 0%nat. change (Z.to_nat 0) with 0%nat. change (0 =? 0) with true.
  cbv iota zeta. cbn [Nat.sub replicate app]. rewrite ?app_nil_r. by destruct (u =? 0).
Qed.

(** Base 0 recognizes the alternate form, in which the octal prefix is a digit. *)
Lemma alternate_written base u : (base = 8 \/ base = 10 \/ base = 16) -> 0 <= u ->
  exists base' prefix l, number_text (field_spec alternate) base u 0 = prefix ++ l /\ l <> [] /\
    written 0 base' prefix l /\ Forall (fun c => is_numeral base' c = true) l /\ numeral_value base' 0 l = u.
Proof.
  intros Hb Hu. rewrite number_text_alternate.
  destruct (digits_numerals base u ltac:(lia) Hu) as (Hne & Hall & Hval).
  destruct (Z.eqb_spec u 0) as [->|Hu0].
  { exists 8, [], (chars "0"). split; [by destruct Hb as [-> |[-> | ->]]|]. split; [discriminate|].
    split; [by right; right; left|]. split; [by repeat constructor|done]. }
  destruct Hb as [-> |[-> | ->]].
  - exists 8, [], (ch "0" :: digits false 8 u). split; [done|]. split; [discriminate|]. split; [by right; right; left|].
    split; [by constructor|]. exact Hval.
  - exists 10, [], (digits false 10 u). split; [done|]. split; [done|]. split; [|done].
    right; right; right. split; [done|]. split; [done|]. split; [done|]. apply digits_head_zero. lia.
  - exists 16, (chars "0x"), (digits false 16 u). split; [done|]. split; [done|]. split; [|done].
    right; left. split; [done|]. split; [by right|by left].
Qed.

(** Signed decimal numbers for base 0 and 10 *)
Lemma decimal_read ll n b c t : - signed_top ll < n < signed_top ll -> ends_number c -> b = 0 \/ b = 10 ->
  strtol_ ll (plain_number 10 n ++ c :: t) b = Ok (n, c :: t).
Proof.
  intros Hn Hc Hb. unfold plain_number. destruct (digits_numerals 10 (Z.abs n) ltac:(lia) ltac:(lia)) as (Hne & Hall & Hval).
  assert (exists base, written b base [] (digits false 10 (Z.abs n)) /\
    Forall (fun c => is_numeral base c = true) (digits false 10 (Z.abs n)) /\
    numeral_value base 0 (digits false 10 (Z.abs n)) = Z.abs n) as (base & Hw & Hall' & Hval').
  { destruct Hb as [-> | ->]; [|exists 10; split; [left; repeat split; lia|done]].
    destruct (decide (n = 0)) as [->|]; [exists 8; split; [by right; right; left|by split; [repeat constructor|]]|].
    exists 10. split; [|done]. right; right; right. repeat (split; [done|]). apply digits_head_zero. lia. }
  pose proof (strtol_run b base [] [] _ c t ltac:(constructor) Hw Hne Hall' Hc ll (n <? 0)) as Hrun.
  rewrite Hval' in Hrun. specialize (Hrun ltac:(unfold signed_top in *; destruct ll; lia)).
  cbn [app] in Hrun. rewrite <- app_assoc, Hrun. do 2 f_equal. destruct (Z.ltb_spec n 0); lia.
Qed.

(** C24: numbers printed by the kernel's [_doprnt] are read back.  What [%d] or
    [%lld] prints for a number of 32 or 64 bits other than the least one of its
    type, [strtol] or [strtoll] reads as the same number, in base 10 and in base
    0, which leaves the choice to the text; so does [atoi] for [%d].  What the
    alternate forms [%#o], [%#u] and [%#x] print for a number of 32 bits,
    [strtoul] reads in base 0.  The reader stops at the first character that is
    neither a digit nor a letter.  The least number of each signed type is
    printed but not read back ([strtol_edges]). *)
Theorem printed_numbers_are_read c t : ends_number c ->
  (forall ll n, - signed_top ll < n < signed_top ll ->
    exists out, _doprnt (show (Signed (plain ll) n) ++ [NUL]) (arguments (Signed (plain ll) n)) 0 = Ok out /\
      strtol_ ll (out ++ c :: t) 10 = Ok (n, c :: t) /\ strtol_ ll (out ++ c :: t) 0 = Ok (n, c :: t) /\
      (ll = false -> atoi (out ++ c :: t) = Ok n)) /\
  (forall letter n, one_of letter (chars "uox") = true -> 0 <= n < 2 ^ 32 ->
    exists out, _doprnt (show (Unsigned alternate letter n) ++ [NUL]) (arguments (Unsigned alternate letter n)) 0 = Ok out /\
      strtoul (out ++ c :: t) 0 = Ok (n, c :: t)).
Proof.
  intros Hc. assert (forall d, directive_ok d = true -> _doprnt (show d ++ [NUL]) (arguments d) 0 = Ok (meaning d)) as Hprint.
  { intros d Hd. pose proof (directives_run [d] [] [] ltac:(by repeat constructor)) as H.
    cbn [fmap list_fmap concat] in H. rewrite !app_nil_r in H. exact H. }
  split.
  - intros ll n Hn. exists (plain_number 10 n). rewrite <- (decimal_text ll) at 1. split.
    { apply Hprint. cbn [directive_ok]. change (field_ok (plain ll)) with true. change (long_long (plain ll)) with ll.
      unfold signed_top in Hn. destruct ll; lia. }
    split; [apply decimal_read; tauto|]. split; [apply decimal_read; tauto|]. intros ->.
    unfold atoi, strtol. rewrite decimal_read by tauto. cbn [mbind cres_bind fst]. f_equal. apply swrap_small; [|lia].
    unfold signed_top in Hn. change (2 ^ (32 - 1)) with (2 ^ 31). lia.
  - intros letter n Hl Hn. exists (meaning (Unsigned alternate letter n)). split.
    { apply Hprint. cbn [directive_ok]. rewrite Hl. change (field_ok alternate) with true. change (long_long alternate) with false. cbv iota. cbn [andb]. lia. }
    cbn [meaning]. destruct (alternate_written (base_of letter) n) as (base & prefix & l & -> & Hne & Hw & Hall & Hval); [|lia|].
    { unfold base_of. destruct (letter =? ch "o"); [by left|]. destruct (letter =? ch "u"); tauto. }
    rewrite <- app_assoc. rewrite <- Hval.
    apply (strtoul_run 0 base [] prefix l c t ltac:(constructor) Hw Hne Hall Hc). lia.
Qed.

(** The address of a device in hexadecimal, and a negative number. *)
Lemma printed_numbers_are_read_witness :
  (exists out, _doprnt (cstr "%d") [Word (-90)] 0 = Ok out /\ strtol (out ++ cstr ".") 10 = Ok (-90, cstr ".")) /\
  (exists out, _doprnt (cstr "%#x") [Word 0xc0000000] 0 = Ok out /\ strtoul (out ++ cstr ".") 0 = Ok (0xc0000000, cstr ".")).
Proof.
  destruct (printed_numbers_are_read (ch ".") [0] ltac:(reflexivity)) as [H1 H2]. split.
  - destruct (H1 false (-90) ltac:(unfold signed_top; lia)) as (out & Hp & Hr & _). exists out. split; [exact Hp|exact Hr].
  - destruct (H2 (ch "x") 0xc0000000 ltac:(reflexivity) ltac:(lia)) as (out & Hp & Hr). exists out. split; [exact Hp|exact Hr].
Defined.

(** A plus sign is not skipped, the least [long] overflows before its sign is
    applied, and a number that is too large is not reported but undefined. *)
Lemma strtol_edges :
  strtol (cstr "+7") 10 = Ok (0, cstr "+7") /\ strtol (cstr "-2147483648") 10 = Fault Overflow /\
  strtol (cstr "4294967296") 10 = Fault Overflow.
Proof. by vm_compute. Qed.

(** [atol] skips neither white space nor a sign, and adds the character before
    it subtracts the code of 0, which overflows for the last 48 numbers. *)
Lemma atol_edges :
  atol (cstr " 7") = Ok 0 /\ atol (cstr "-7") = Ok 0 /\ atol (cstr "2147483599") = Ok 2147483599 /\
  atol (cstr "2147483647") = Fault Overflow.
Proof. by vm_compute. Qed.
