(* ===== verification/Screen.v ===== *)
(** * The screen: [x86_lib.c]

    Characters are written to the text-mode video memory, two bytes for each
    cell.  A new line, after ['\n'] or at the end of a row, is begun only when
    the next character is printed, so that the last row can be filled. *)

From S2P Require Import Prelude Memory MemFuncs.
Open Scope Z_scope.

Definition COLUMNS : Z := 80.
Definition LINES : Z := 25.
Definition ATTRIBUTE : Z := 7.
Definition VIDEO : Z := 0xB8000.

(** The static variables of the file and of [scr_putchar], and memory. *)
Record screen := {
  xpos : Z;
  ypos : Z;
  video : Z;
  nl_pending : bool;
  nl_wrap : bool;
  memory : mem
}.

#[export] Instance eta_screen : Eta screen := fun r =>
  Build_screen (xpos r) (ypos r) (video r) (nl_pending r) (nl_wrap r) (memory r).

(** [for(i = 0; i < n; i++) *(video + i) = 0;] *)
Definition cls (s : screen) : cres screen :=
  m ← set_loop (Z.to_nat (COLUMNS * LINES * 2)) VIDEO 0 (memory s);
  Ok (s <| video := VIDEO |> <| memory := m |> <| xpos := 0 |> <| ypos := 0 |>).

(** The pending new line. *)
Definition new_line (s : screen) : cres screen :=
  let s := s <| xpos := 0 |> <| ypos := ypos s + 1 |> in
  s ← (if LINES <=? ypos s then
         r ← memmove (video s) (video s + COLUMNS * 2) ((LINES - 1) * COLUMNS * 2) (memory s);
         r ← memset (video s + (LINES - 1) * COLUMNS * 2) 0 (COLUMNS * 2) r.2;
         Ok (s <| memory := r.2 |> <| ypos := LINES - 1 |>)
       else Ok s);
  Ok (s <| nl_pending := false |>).

Definition put_cell (c : Z) (s : screen) : cres screen :=
  let p := video s + (xpos s + ypos s * COLUMNS) * 2 in
  m ← store8 (memory s) p (Z.land c 0xFF);
  m ← store8 m (p + 1) ATTRIBUTE;
  let s := s <| memory := m |> <| xpos := xpos s + 1 |> in
  Ok (if COLUMNS <=? xpos s then s <| nl_pending := true |> <| nl_wrap := true |> else s).

Definition scr_putchar (c : Z) (s : screen) : cres screen :=
  if c =? CR then Ok s else
  let begun := nl_pending s in
  s ← (if nl_pending s then new_line s else Ok s);
  if begun && (c =? NL) && nl_wrap s then Ok s
  else if c =? NL then Ok (s <| nl_pending := true |> <| nl_wrap := false |>)
  else put_cell c s.

(** The characters of a text, one call of [scr_putchar] for each. *)
Fixpoint scr_puts (t : text) (s : screen) : cres screen :=
  match t with [] => Ok s | c :: t' => s ← scr_putchar c s; scr_puts t' s end.

(** * Reference: the lines of a text

    The rows before the current one, the current row, and whether a new one is
    to be begun, and why. *)

Record layout := {
  above : list (list Z);
  row : list Z;
  pending : bool;
  wrapped : bool
}.

(** An empty screen, with what is pending from before *)
Definition fresh_layout (nl w : bool) : layout := {| above := []; row := []; pending := nl; wrapped := w |}.
Definition empty_layout : layout := fresh_layout false false.

Definition break (l : layout) : layout :=
  {| above := above l ++ [row l]; row := []; pending := false; wrapped := wrapped l |}.

Definition add (c : Z) (l : layout) : layout :=
  if c =? CR then l else
  let l' := if pending l then break l else l in
  if pending l && (c =? NL) && wrapped l then l'
  else if c =? NL then {| above := above l'; row := row l'; pending := true; wrapped := false |}
  else
    let r := row l' ++ [u8 c] in
    if 80 <=? Z.of_nat (length r)
    then {| above := above l'; row := r; pending := true; wrapped := true |}
    else {| above := above l'; row := r; pending := pending l'; wrapped := wrapped l' |}.

Definition rows (l : layout) : list (list Z) := above l ++ [row l].

Definition layout_from (l : layout) (t : text) : layout := foldl (fun l c => add c l) l t.
Definition layout_of (t : text) : layout := layout_from empty_layout t.

(** What the screen shows of the rows: the last 25, from the top. *)
Definition visible (l : layout) : list (list Z) := drop (length (rows l) - 25) (rows l).

Definition cell (l : layout) (i j : Z) : option (Z * Z) :=
  match (visible l !! Z.to_nat i) ≫= (fun r => r !! Z.to_nat j) with
  | Some c => Some (c, ATTRIBUTE)
  | None => Some (0, 0)
  end.

(** ** The screen shows a layout *)

Definition cell_addr (i j : Z) : Z := VIDEO + (j + i * COLUMNS) * 2.

Record shows (s : screen) (l : layout) : Prop := {
  sh_video : video s = VIDEO;
  sh_x : xpos s = Z.of_nat (length (row l));
  sh_y : ypos s = Z.min (Z.of_nat (length (above l))) 24;
  sh_pending : nl_pending s = pending l;
  sh_wrap : nl_wrap s = wrapped l;
  sh_room : pending l = false -> Z.of_nat (length (row l)) < 80;
  sh_row : Z.of_nat (length (row l)) <= 80;
  sh_cells : forall i j, 0 <= i < 25 -> 0 <= j < 80 -> exists c a,
    cell l i j = Some (c, a) /\ memory s !! cell_addr i j = Some c /\
    memory s !! (cell_addr i j + 1) = Some a /\ 0 <= c < 256 /\ 0 <= a < 256
}.

Definition top (l : layout) : list (list Z) := drop (length (above l) - 24) (above l).

Lemma visible_top l : visible l = top l ++ [row l].
Proof.
  unfold visible, rows, top. rewrite length_app. cbn [length].
  replace (length (above l) + 1 - 25)%nat with (length (above l) - 24)%nat by lia.
  by rewrite drop_app_le by lia.
Qed.

Lemma top_length l : length (top l) = Nat.min (length (above l)) 24.
Proof. unfold top. rewrite length_drop. lia. Qed.

Definition row_cell (r : option (list Z)) (j : Z) : option (Z * Z) :=
  match r ≫= (fun r => r !! Z.to_nat j) with Some c => Some (c, ATTRIBUTE) | None => Some (0, 0) end.

Lemma cell_row l i j : cell l i j = row_cell ((top l ++ [row l]) !! Z.to_nat i) j.
Proof. unfold cell, row_cell. by rewrite visible_top. Qed.

Lemma row_cell_empty j : row_cell (Some []) j = row_cell None j.
Proof. unfold row_cell. cbn. by destruct (Z.to_nat j). Qed.

(** Beginning a row keeps the cells, or moves them up by one. *)
Lemma cell_break l i j :
  0 <= i < 25 ->
  cell (break l) i j =
  if decide (length (above l) < 24)%nat then cell l i j
  else if decide (i < 24) then cell l (i + 1) j else Some (0, 0).
Proof.
  intros Hi. rewrite !cell_row. change (row (break l)) with (@nil Z).
  destruct (decide _) as [Hlt|Hge].
  - assert (top (break l) = top l ++ [row l]) as ->.
    { unfold top, break; cbn [above]. rewrite length_app. cbn [length].
      replace (length (above l) + 1 - 24)%nat with 0%nat by lia.
      replace (length (above l) - 24)%nat with 0%nat by lia. done. }
    pose proof (top_length l) as Hl.
    destruct (decide (Z.to_nat i < length (top l ++ [row l]))%nat) as [Hin|Hout].
    + by rewrite lookup_app_l by done.
    + rewrite (lookup_ge_None_2 (top l ++ [row l])) by lia.
      rewrite lookup_app_r by lia. destruct (Z.to_nat i - length (top l ++ [row l]))%nat as [|k] eqn:E.
      * apply row_cell_empty.
      * done.
  - assert (top (break l) = drop 1 (top l ++ [row l])) as ->.
    { unfold top, break; cbn [above]. rewrite length_app. cbn [length].
      rewrite drop_app_le by lia. rewrite drop_app_le by (rewrite length_drop; lia).
      rewrite drop_drop. f_equal. f_equal. lia. }
    pose proof (top_length l) as Hl.
    assert (length (drop 1 (top l ++ [row l])) = 24)%nat as Hd
      by (rewrite length_drop, length_app; cbn [length]; lia).
    destruct (decide (i < 24)).
    + rewrite lookup_app_l, lookup_drop by lia. do 2 f_equal. lia.
    + rewrite lookup_app_r, Hd by lia. assert (i = 24) as -> by lia. apply row_cell_empty.
Qed.

(** Adding a character changes one cell. *)
Lemma cell_put l c i j p w :
  0 <= i < 25 -> 0 <= j < 80 ->
  cell {| above := above l; row := row l ++ [c]; pending := p; wrapped := w |} i j =
  if decide (i = Z.min (Z.of_nat (length (above l))) 24 /\ j = Z.of_nat (length (row l)))
  then Some (c, ATTRIBUTE) else cell l i j.
Proof.
  intros Hi Hj. rewrite !cell_row. cbn [row].
  change (top {| above := above l; row := row l ++ [c]; pending := p; wrapped := w |}) with (top l).
  pose proof (top_length l) as Hl.
  destruct (decide (Z.to_nat i < length (top l))%nat) as [Hin|Hout].
  - rewrite !lookup_app_l by done. by rewrite decide_False by lia.
  - rewrite !lookup_app_r by lia. destruct (Z.to_nat i - length (top l))%nat as [|k] eqn:E.
    + unfold row_cell. cbn [list_lookup lookup mbind option_bind].
      assert (i = Z.min (Z.of_nat (length (above l))) 24) as -> by lia.
      destruct (decide (j = Z.of_nat (length (row l)))) as [->|Hne].
      * rewrite decide_True by done. rewrite Nat2Z.id, lookup_app_r, Nat.sub_diag by lia. done.
      * rewrite decide_False by tauto. destruct (decide (Z.to_nat j < length (row l))%nat).
        -- by rewrite lookup_app_l by done.
        -- rewrite (lookup_ge_None_2 (row l)), (lookup_ge_None_2 (row l ++ [c])); [done| |lia].
           rewrite length_app. cbn [length]. lia.
    + rewrite decide_False by lia. done.
Qed.

(** ** Simulation *)

Definition in_video (m m' : mem) : Prop := only_changes m m' VIDEO (VIDEO + 4000).

Lemma video_cell a :
  VIDEO <= a < VIDEO + 4000 -> exists i j, 0 <= i < 25 /\ 0 <= j < 80 /\
    (a = cell_addr i j \/ a = cell_addr i j + 1).
Proof.
  intros Ha. exists ((a - VIDEO) / 160), ((a - VIDEO) / 2 mod 80).
  pose proof (Z.div_mod (a - VIDEO) 2 ltac:(lia)).
  pose proof (Z.mod_pos_bound (a - VIDEO) 2 ltac:(lia)).
  pose proof (Z.div_mod ((a - VIDEO) / 2) 80 ltac:(lia)).
  pose proof (Z.mod_pos_bound ((a - VIDEO) / 2) 80 ltac:(lia)).
  assert ((a - VIDEO) / 160 = (a - VIDEO) / 2 / 80) as -> by (rewrite Z.div_div by lia; done).
  unfold cell_addr, COLUMNS. lia.
Qed.

Lemma video_byte s l a :
  shows s l -> VIDEO <= a < VIDEO + 4000 -> exists b, memory s !! a = Some b /\ 0 <= b < 256.
Proof.
  intros H Ha. destruct (video_cell a Ha) as (i & j & Hi & Hj & Hc).
  destruct (sh_cells _ _ H i j Hi Hj) as (c & b & _ & ?). destruct Hc as [->| ->]; naive_solver.
Qed.

Lemma video_mapped s l : shows s l -> mapped (memory s) VIDEO (VIDEO + 4000).
Proof. intros H a Ha. destruct (video_byte s l a H Ha) as (b & Hb & _). by eexists. Qed.

Lemma video_bytes s l a len :
  shows s l -> VIDEO <= a -> a + len <= VIDEO + 4000 -> bytes_in (memory s) a len.
Proof. intros H ? ? i Hi. apply (video_byte s l); [done|lia]. Qed.

Lemma in_video_trans m1 m2 m3 : in_video m1 m2 -> in_video m2 m3 -> in_video m1 m3.
Proof. apply only_changes_trans. Qed.

Lemma cell_addr_bounds i j :
  0 <= i < 25 -> 0 <= j < 80 -> VIDEO <= cell_addr i j /\ cell_addr i j + 1 < VIDEO + 4000.
Proof. unfold cell_addr, COLUMNS. lia. Qed.

Lemma cell_addr_inj i j i' j' :
  0 <= j < 80 -> 0 <= j' < 80 ->
  (i = i' /\ j = j') \/
  (cell_addr i j <> cell_addr i' j' /\ cell_addr i j <> cell_addr i' j' + 1 /\
   cell_addr i j + 1 <> cell_addr i' j').
Proof. unfold cell_addr, COLUMNS. lia. Qed.

Lemma new_line_shows s l :
  shows s l -> exists s', new_line s = Ok s' /\ shows s' (break l) /\ in_video (memory s) (memory s').
Proof.
  intros H. pose proof (sh_y _ _ H) as Hy. unfold new_line.
  change (ypos (s <| xpos := 0 |> <| ypos := ypos s + 1 |>)) with (ypos s + 1).
  change (video (s <| xpos := 0 |> <| ypos := ypos s + 1 |>)) with (video s).
  change (memory (s <| xpos := 0 |> <| ypos := ypos s + 1 |>)) with (memory s).
  rewrite (sh_video _ _ H). unfold LINES, COLUMNS.
  destruct (Z.leb_spec 25 (ypos s + 1)) as [Hs|Hs].
  - destruct (memmove_run VIDEO (VIDEO + 80 * 2) ((25 - 1) * 80 * 2) (memory s)) as (m1 & R1 & O1 & C1); [lia| | |].
    { eapply video_bytes; [done|lia|lia]. }
    { eapply mapped_mono; [by eapply video_mapped|lia|lia]. }
    rewrite R1. cbn [mbind cres_bind snd].
    destruct (memset_run (VIDEO + (25 - 1) * 80 * 2) 0 (80 * 2) m1) as (m2 & R2 & O2 & C2); [lia| |].
    { eapply mapped_only_changes; [done|]. eapply mapped_mono; [by eapply video_mapped|lia|lia]. }
    rewrite R2. cbn [mbind cres_bind snd]. eexists. split; [done|]. split.
    + constructor; try (apply H || done).
      * change (above (break l)) with (above l ++ [row l]). rewrite length_app. cbn [length].
        unfold upd; cbn. lia.
      * intros i j Hi Hj. rewrite cell_break by done. rewrite decide_False by lia.
        change (memory _) with m2. destruct (decide (i < 24)).
        -- destruct (sh_cells _ _ H (i + 1) j) as (c & a & Hc & Hm & Ha & ?); [lia|lia|].
           exists c, a. split; [done|].
           assert (forall d, 0 <= d < 2 -> m2 !! (cell_addr i j + d) = memory s !! (cell_addr (i + 1) j + d)) as Hmv.
           { intros d Hd. rewrite (proj2 O2) by (unfold cell_addr, COLUMNS; lia).
             specialize (C1 ((j + i * 80) * 2 + d) ltac:(lia)).
             unfold cell_addr, COLUMNS. rewrite <- !Z.add_assoc, C1. f_equal. lia. }
           pose proof (Hmv 0 ltac:(lia)) as Hz. rewrite !Z.add_0_r in Hz.
           rewrite Hz, (Hmv 1) by lia. done.
        -- exists 0, 0. split; [done|].
           assert (i = 24) as -> by lia.
           pose proof (C2 (j * 2) ltac:(lia)) as E0. pose proof (C2 (j * 2 + 1) ltac:(lia)) as E1.
           unfold cell_addr, COLUMNS.
           replace (VIDEO + (j + 24 * 80) * 2 + 1) with (VIDEO + (25 - 1) * 80 * 2 + (j * 2 + 1)) by lia.
           replace (VIDEO + (j + 24 * 80) * 2) with (VIDEO + (25 - 1) * 80 * 2 + j * 2) by lia.
           rewrite E0, E1. change (u8 0) with 0. split_and!; try done; lia.
    + eapply in_video_trans; eapply only_changes_mono; [exact O1|lia|lia|exact O2|lia|lia].
  - cbn [mbind cres_bind]. eexists. split; [done|]. split; [|apply only_changes_refl].
    constructor; try (apply H || done).
    + change (above (break l)) with (above l ++ [row l]). rewrite length_app. cbn [length].
        unfold upd; cbn. lia.
    + intros i j Hi Hj. rewrite cell_break by done. rewrite decide_True by lia. by apply H.
Qed.

(** The state after a cell has been written at the current position. *)
Lemma shows_written s l c p w :
  shows s l -> Z.of_nat (length (row l)) < 80 ->
  (p = false -> Z.of_nat (length (row l)) + 1 < 80) -> 0 <= c < 256 ->
  let y := Z.min (Z.of_nat (length (above l))) 24 in
  let x := Z.of_nat (length (row l)) in
  shows {| xpos := x + 1; ypos := y; video := VIDEO; nl_pending := p; nl_wrap := w;
           memory := <[cell_addr y x + 1 := ATTRIBUTE]> (<[cell_addr y x := c]> (memory s)) |}
        {| above := above l; row := row l ++ [c]; pending := p; wrapped := w |}.
Proof.
  intros H Hroom Hp Hc y x.
  assert (Z.of_nat (length (row l ++ [c])) = x + 1) as Hlen by (rewrite length_app; cbn [length]; lia).
  constructor; cbn [video xpos ypos nl_pending nl_wrap memory above row pending wrapped];
    rewrite ?Hlen; try done; [lia|].
  intros i j Hi Hj. rewrite cell_put by done. fold x y.
  destruct (cell_addr_inj i j y x Hj ltac:(lia)) as [[-> ->]|(N1 & N2 & N3)].
  - rewrite decide_True by done. exists c, ATTRIBUTE. split; [done|].
    rewrite lookup_insert_ne by lia. rewrite !lookup_insert_eq. unfold ATTRIBUTE.
    split_and!; try done; lia.
  - rewrite decide_False by (intros [-> ->]; done).
    destruct (sh_cells _ _ H i j Hi Hj) as (c' & a & ? & ? & ? & ?). exists c', a.
    rewrite !lookup_insert_ne by lia. done.
Qed.

Lemma put_cell_shows s l c :
  shows s l -> pending l = false ->
  exists s', put_cell c s = Ok s' /\ in_video (memory s) (memory s') /\
    shows s' (let r := row l ++ [u8 c] in
      if 80 <=? Z.of_nat (length r)
      then {| above := above l; row := r; pending := true; wrapped := true |}
      else {| above := above l; row := r; pending := pending l; wrapped := wrapped l |}).
Proof.
  intros H Hp. pose proof (sh_room _ _ H Hp) as Hroom.
  set (y := Z.min (Z.of_nat (length (above l))) 24). set (x := Z.of_nat (length (row l))) in *.
  pose proof (cell_addr_bounds y x ltac:(lia) ltac:(lia)) as Hb.
  unfold put_cell. rewrite (sh_video _ _ H), (sh_x _ _ H), (sh_y _ _ H). fold x y.
  change (VIDEO + (x + y * COLUMNS) * 2) with (cell_addr y x).
  pose proof (video_mapped s l H) as Hm.
  rewrite store8_ok by (apply Hm; lia). cbn [mbind cres_bind].
  rewrite store8_ok by (apply mapped_insert with (lo := VIDEO) (hi := VIDEO + 4000); [done|lia]).
  cbn [mbind cres_bind]. eexists. split; [done|].
  rewrite length_app. cbn [length]. rewrite Nat2Z.inj_add. fold x. change (Z.of_nat 1) with 1.
  unfold COLUMNS. change (xpos (s <| memory := _ |> <| xpos := x + 1 |>)) with (x + 1).
  assert (u8 (Z.land c 255) = u8 c) as -> by (change 255 with (2 ^ 8 - 1); rewrite land_mask by done;
    apply Z.mod_mod; done).
  change (u8 ATTRIBUTE) with ATTRIBUTE.
  pose proof (Z.mod_pos_bound c 256 ltac:(lia)) as Hc. split.
  - assert (in_video (memory s) (<[cell_addr y x + 1 := ATTRIBUTE]> (<[cell_addr y x := u8 c]> (memory s)))) as Hch.
    { split.
      - rewrite !insert_dom; [done|apply Hm; lia|].
        apply mapped_insert with (lo := VIDEO) (hi := VIDEO + 4000); [done|lia].
      - intros a Ha. rewrite !lookup_insert_ne; [done|lia|lia]. }
    by destruct (80 <=? x + 1).
  - destruct (Z.leb_spec 80 (x + 1)).
    + pose proof (shows_written s l (u8 c) true true H Hroom ltac:(done) Hc) as Hs.
      unfold upd; cbn. rewrite (sh_video _ _ H), (sh_y _ _ H). exact Hs.
    + pose proof (shows_written s l (u8 c) (pending l) (wrapped l) H Hroom ltac:(lia) Hc) as Hs.
      unfold upd; cbn. rewrite (sh_video _ _ H), (sh_y _ _ H), (sh_pending _ _ H), (sh_wrap _ _ H).
      exact Hs.
Qed.

Lemma newline_shows s l :
  shows s l -> shows (s <| nl_pending := true |> <| nl_wrap := false |>)
    {| above := above l; row := row l; pending := true; wrapped := false |}.
Proof. intros H. by constructor; try apply H. Qed.

Lemma scr_putchar_shows c s l :
  shows s l -> exists s', scr_putchar c s = Ok s' /\ in_video (memory s) (memory s') /\ shows s' (add c l).
Proof.
  intros H. unfold scr_putchar, add. destruct (c =? CR).
  { exists s. split_and!; [done|apply only_changes_refl|done]. }
  rewrite (sh_pending _ _ H).
  assert (exists s1, (if pending l then new_line s else Ok s) = Ok s1 /\
    shows s1 (if pending l then break l else l) /\ in_video (memory s) (memory s1))
    as (s1 & R1 & S1 & V1).
  { destruct (pending l); [by apply new_line_shows|].
    exists s. split_and!; [done|done|apply only_changes_refl]. }
  rewrite R1. cbn [mbind cres_bind]. rewrite (sh_wrap _ _ S1).
  assert (wrapped (if pending l then break l else l) = wrapped l) as -> by by destruct (pending l).
  destruct (pending l && (c =? NL) && wrapped l); [by exists s1|].
  destruct (c =? NL).
  { eexists. split; [done|]. split; [exact V1|]. by apply newline_shows. }
  destruct (put_cell_shows s1 _ c S1) as (s2 & R2 & V2 & S2); [by destruct (pending l) eqn:E|].
  exists s2. split; [exact R2|]. split; [by eapply in_video_trans|]. by destruct (pending l).
Qed.

Lemma scr_puts_shows t : forall s l,
  shows s l -> exists s', scr_puts t s = Ok s' /\ in_video (memory s) (memory s') /\
    shows s' (foldl (fun l c => add c l) l t).
Proof.
  induction t as [|c t IH]; intros s l H.
  { exists s. split_and!; [done|apply only_changes_refl|done]. }
  destruct (scr_putchar_shows c s l H) as (s1 & R1 & V1 & S1).
  destruct (IH s1 _ S1) as (s2 & R2 & V2 & S2). exists s2. cbn [scr_puts foldl]. rewrite R1.
  split; [exact R2|]. split; [by eapply in_video_trans|exact S2].
Qed.

Lemma cls_shows s :
  mapped (memory s) VIDEO (VIDEO + 4000) ->
  exists s', cls s = Ok s' /\ in_video (memory s) (memory s') /\ shows s' (fresh_layout (nl_pending s) (nl_wrap s)).
Proof.
  intros Hm. unfold cls. change (COLUMNS * LINES * 2) with 4000.
  destruct (set_loop_spec (Z.to_nat 4000) VIDEO 0 (memory s)) as (m & R & Hch & Hz); [by rewrite Z2Nat.id|].
  rewrite Z2Nat.id in * by lia. rewrite R. cbn [mbind cres_bind].
  eexists. split; [done|]. split; [exact Hch|]. constructor; try done.
  intros i j Hi Hj. exists 0, 0. pose proof (cell_addr_bounds i j Hi Hj).
  split; [|change (memory _) with m; pose proof (Hz (cell_addr i j - VIDEO) ltac:(lia)) as E1;
    pose proof (Hz (cell_addr i j + 1 - VIDEO) ltac:(lia)) as E2; rewrite Zplus_minus in E1, E2;
    split_and!; try done; lia].
  rewrite cell_row. change (top (fresh_layout _ _) ++ [row (fresh_layout _ _)]) with [@nil Z].
  destruct (Z.to_nat i) as [|[|k]]; [apply row_cell_empty|done|done].
Qed.

(** ** The lines of the layout *)

Definition rows_ok (l : layout) : Prop :=
  Forall (fun r => (length r <= 80)%nat) (rows l) /\
  (pending l = false -> (length (row l) < 80)%nat).

(** The characters that occupy a cell. *)
Definition printed (t : text) : list Z := map u8 (filter (fun c => c <> CR /\ c <> NL) t).

Lemma rows_ok_break l : rows_ok l -> rows_ok (break l).
Proof.
  intros [H _]. split; [|cbn; lia]. unfold rows, break; cbn [above row].
  apply Forall_app. split; [exact H|]. constructor; [cbn; lia|done].
Qed.

Lemma rows_ok_add c l : rows_ok l -> rows_ok (add c l).
Proof.
  intros H. unfold add. destruct (c =? CR); [done|].
  assert (rows_ok (if pending l then break l else l) /\ pending (if pending l then break l else l) = false)
    as [[Hf Hr] Hp] by (destruct (pending l) eqn:E; [split; [by apply rows_ok_break|done]|done]).
  set (l' := if pending l then break l else l) in *.
  destruct (pending l && (c =? NL) && wrapped l); [done|].
  destruct (c =? NL); [by split|]. specialize (Hr Hp).
  assert (Forall (fun r => (length r <= 80)%nat) (above l' ++ [row l' ++ [u8 c]])) as Hf'.
  { apply Forall_app in Hf as [Ha _]. apply Forall_app. split; [done|].
    constructor; [rewrite length_app; cbn [length]; lia|done]. }
  destruct (Z.leb_spec 80 (Z.of_nat (length (row l' ++ [u8 c])))); split; cbn [pending row]; try done.
  intros _. lia.
Qed.

Lemma rows_add c l : concat (rows (add c l)) = concat (rows l) ++ printed [c].
Proof.
  unfold add, printed. rewrite filter_cons. destruct (Z.eqb_spec c CR) as [->|Hcr].
  { rewrite decide_False by tauto. by rewrite app_nil_r. }
  assert (concat (rows (if pending l then break l else l)) = concat (rows l)) as Hb.
  { destruct (pending l); [|done]. unfold rows, break; cbn [above row].
    rewrite concat_app. cbn. by rewrite !app_nil_r. }
  set (l' := if pending l then break l else l) in *.
  destruct (Z.eqb_spec c NL) as [->|Hnl].
  { rewrite decide_False by tauto. rewrite app_nil_r.
    by destruct (pending l && true && wrapped l). }
  rewrite decide_True by done. rewrite andb_false_r. cbn [andb].
  assert (concat (above l' ++ [row l' ++ [u8 c]]) = concat (rows l) ++ [u8 c]) as Hc.
  { rewrite <- Hb. unfold rows. rewrite !concat_app. cbn. by rewrite !app_nil_r, app_assoc. }
  by destruct (80 <=? _).
Qed.

Lemma layout_rows t : forall l, rows_ok l ->
  rows_ok (foldl (fun l c => add c l) l t) /\
  concat (rows (foldl (fun l c => add c l) l t)) = concat (rows l) ++ printed t.
Proof.
  induction t as [|c t IH]; intros l H; cbn [foldl]; [by rewrite app_nil_r|].
  destruct (IH _ (rows_ok_add c l H)) as [Hok Heq]. split; [done|].
  rewrite Heq, rows_add, <- app_assoc. f_equal. unfold printed. rewrite !filter_cons.
  by destruct (decide _).
Qed.

(** C2: the screen refines its specification, a list of lines of which the
    last 25 are visible.  From any state, clearing the screen and printing any
    text never accesses memory outside the 4000 bytes of the video memory and
    leaves on the screen, cell by cell and with the attribute, exactly the last
    25 rows of the layout of the text, blank behind the end of each; the rows of
    the layout have at most 80 characters, and together they are the characters
    of the text other than carriage returns and new lines, none lost or added.
    Clearing leaves a new line pending that was pending before: the layout then
    begins with it; it is the layout of the text alone when none was. *)
Theorem screen_refines_layout t s :
  mapped (memory s) VIDEO (VIDEO + 4000) ->
  let l := layout_from (fresh_layout (nl_pending s) (nl_wrap s)) t in
  exists s0 s', cls s = Ok s0 /\ scr_puts t s0 = Ok s' /\
    only_changes (memory s) (memory s') VIDEO (VIDEO + 4000) /\
    shows s' l /\
    Forall (fun r => (length r <= 80)%nat) (rows l) /\
    concat (rows l) = printed t /\
    (nl_pending s = false -> nl_wrap s = false -> l = layout_of t).
Proof.
  intros Hm l. destruct (cls_shows s Hm) as (s0 & R0 & V0 & S0).
  destruct (scr_puts_shows t s0 _ S0) as (s' & R1 & V1 & S1).
  destruct (layout_rows t (fresh_layout (nl_pending s) (nl_wrap s))) as [[Hok _] Hrows].
  { split; [|cbn; lia]. constructor; [cbn; lia|done]. }
  exists s0, s'. split_and!; try done; [by eapply in_video_trans|]. subst l. by intros -> ->.
Qed.

(** Two lines on an empty screen. *)
Lemma screen_refines_layout_witness :
  exists s', shows s' (layout_of (chars "Hi" ++ [NL] ++ chars "x")) /\
    visible (layout_of (chars "Hi" ++ [NL] ++ chars "x")) = [[72; 105]; [120]].
Proof.
  destruct (screen_refines_layout (chars "Hi" ++ [NL] ++ chars "x")
    {| xpos := 0; ypos := 0; video := 0; nl_pending := false; nl_wrap := false;
       memory := blank VIDEO (Z.to_nat 4000) |}) as (s0 & s' & _ & _ & _ & H & _).
  - exact (blank_mapped VIDEO (Z.to_nat 4000)).
  - exists s'. split; [exact H|vm_compute; reflexivity].
Defined.

(** A new line before the screen is cleared leaves its first row empty. *)
Lemma pending_line_kept :
  visible (layout_from (fresh_layout true false) (chars "x")) = [[]; [120]].
Proof. reflexivity. Qed.
