(* ===== verification/Console.v ===== *)
(** * The serial console: [x86_lib.c]

    The kernel's messages leave the machine through the first serial port, a
    byte at a time, each after the port has reported that its transmitter is
    empty.  The port is hardware: a parameter [device], what a read of a port
    yields after a history of accesses. *)

From S2P Require Import Prelude CLib.
Open Scope Z_scope.

Inductive access :=
  | In (port value : Z)
  | Out (port value : Z).

Definition ser_port : Z := 0x3F8.

Section device.
Context (device : list access -> Z -> Z).

Definition io (A : Type) : Type := list access -> cres (A * list access).
#[local] Instance io_ret : MRet io := fun A a h => Ok (a, h).
#[local] Instance io_bind : MBind io := fun A B k p h =>
  match p h with Ok (a, h') => k a h' | Fault f => Fault f end.
Definition pure {A} (c : cres A) : io A := fun h => a ← c; Ok (a, h).

Definition outportb (port value : Z) : io unit := fun h =>
  Ok (tt, h ++ [Out (u16 port) (u8 value)]).
Definition inportb (port : Z) : io Z := fun h =>
  let v := u8 (device h (u16 port)) in Ok (v, h ++ [In (u16 port) v]).

Definition ser_init : io unit :=
  _ ← outportb (ser_port + 3) 3;
  v ← inportb (ser_port + 3);
  _ ← outportb (ser_port + 3) (Z.lor v 0x80);
  _ ← outportb (ser_port + 1) 0;
  _ ← outportb ser_port 1;
  v ← inportb (ser_port + 3);
  outportb (ser_port + 3) (Z.land v 0x7f).

(** [while(!(inportb(ser_port + 5) & 32)) {}] *)
Fixpoint wait_empty (fuel : nat) : io unit :=
  match fuel with
  | O => fun _ => Fault OutOfFuel
  | S fuel' =>
    v ← inportb (ser_port + 5);
    if Z.land v 32 =? 0 then wait_empty fuel' else mret tt
  end.

Definition ser_putchar (fuel : nat) (c : Z) : io unit :=
  _ ← inportb (ser_port + 6);
  _ ← wait_empty fuel;
  outportb ser_port c.

Definition console_putchar (fuel : nat) (c : Z) : io Z :=
  _ ← ser_putchar fuel c; mret 1.

(** [for(i = start; i < start + n; i++) console_putchar(s[i]);] *)
Fixpoint putbytes_loop (fuel : nat) (n : nat) (s : text) : io unit :=
  match n with
  | O => mret tt
  | S n' => c ← pure (deref s); _ ← console_putchar fuel c; putbytes_loop fuel n' (tail s)
  end.

Definition console_putbytes (fuel : nat) (s : text) (len : Z) : io Z :=
  _ ← putbytes_loop fuel (Z.to_nat len) s; mret (Z.max 0 len).

Definition puts (fuel : nat) (s : text) : io Z :=
  len ← pure (strlen s);
  _ ← console_putbytes fuel s len;
  _ ← console_putchar fuel 10;
  mret 1.

Definition fputs (fuel : nat) (s : text) : io Z := _ ← puts fuel s; mret 1.

(** ** Waiting *)

Definition ready (h : list access) : bool :=
  negb (Z.land (u8 (device h (u16 (ser_port + 5)))) 32 =? 0).
Definition poll (h : list access) : list access :=
  h ++ [In (u16 (ser_port + 5)) (u8 (device h (u16 (ser_port + 5))))].

(** However the port was used, it becomes ready when it is polled often
    enough. *)
Definition fair : Prop := forall h, exists n, ready (Nat.iter n poll h) = true.

Definition is_read (a : access) : bool := match a with In _ _ => true | Out _ _ => false end.

(** A trace that sends the bytes of [s]: before each, ports are read, at last
    the status with the transmitter empty. *)
Inductive sends : list access -> text -> Prop :=
  | sends_nil : sends [] []
  | sends_cons reads v c tr s :
      Forall (fun a => is_read a = true) reads -> Z.land v 32 <> 0 -> sends tr s ->
      sends (reads ++ In (ser_port + 5) v :: Out ser_port (u8 c) :: tr) (c :: s).

Lemma sends_app t1 s1 t2 s2 : sends t1 s1 -> sends t2 s2 -> sends (t1 ++ t2) (s1 ++ s2).
Proof.
  induction 1 as [|reads v c tr s Hr Hv _ IH]; intros H2; [done|].
  rewrite <- app_assoc. cbn [app]. constructor; auto.
Qed.

Lemma wait_empty_run n : forall h,
  ready (Nat.iter n poll h) = true ->
  exists reads v, Forall (fun a => is_read a = true) reads /\ Z.land v 32 <> 0 /\
    forall fuel, (n < fuel)%nat -> wait_empty fuel h = Ok (tt, h ++ reads ++ [In (ser_port + 5) v]).
Proof.
  induction n as [n IH] using lt_wf_ind. intros h Hr.
  set (v := u8 (device h (u16 (ser_port + 5)))). destruct (Z.land v 32 =? 0) eqn:Hv.
  - destruct n as [|n]; [cbn in Hr; unfold ready in Hr; fold v in Hr; by rewrite Hv in Hr|].
    rewrite Nat.iter_succ_r in Hr.
    destruct (IH n ltac:(lia) (poll h) Hr) as (reads & v' & Hreads & Hv' & Hrun).
    exists (In (ser_port + 5) v :: reads), v'. split_and!; [by constructor|done|].
    intros [|fuel] Hf; [lia|]. cbn [wait_empty]. unfold inportb, mbind, io_bind.
    fold v. rewrite Hv. specialize (Hrun fuel ltac:(lia)). unfold poll in Hrun. fold v in Hrun.
    rewrite Hrun, <- app_assoc. done.
  - exists [], v. split_and!; [done|by apply Z.eqb_neq|]. intros [|fuel] Hf; [lia|].
    cbn [wait_empty]. unfold inportb, mbind, io_bind. fold v. by rewrite Hv.
Qed.

(** One byte sent. *)
Lemma ser_putchar_run c h : fair ->
  exists n tr, sends tr [c] /\ forall fuel, (n <= fuel)%nat -> ser_putchar fuel c h = Ok (tt, h ++ tr).
Proof.
  intros Hfair. set (a := In (u16 (ser_port + 6)) (u8 (device h (u16 (ser_port + 6))))).
  destruct (Hfair (h ++ [a])) as (n & Hn).
  destruct (wait_empty_run n (h ++ [a]) Hn) as (reads & v & Hreads & Hv & Hrun).
  exists (S n), ((a :: reads) ++ In (ser_port + 5) v :: Out ser_port (u8 c) :: []). split.
  - repeat constructor; done.
  - intros fuel Hf. unfold ser_putchar, inportb, outportb, mbind, io_bind. fold a.
    rewrite Hrun by lia. do 2 f_equal. by rewrite <- !app_assoc.
Qed.

Lemma putbytes_run s : forall h t, fair ->
  exists n tr, sends tr s /\
    forall fuel, (n <= fuel)%nat -> putbytes_loop fuel (length s) (s ++ t) h = Ok (tt, h ++ tr).
Proof.
  induction s as [|c s IH]; intros h t Hfair.
  - exists 0%nat, []. split; [constructor|]. intros. by rewrite app_nil_r.
  - destruct (ser_putchar_run c h Hfair) as (n1 & t1 & S1 & R1).
    destruct (IH (h ++ t1) t Hfair) as (n2 & t2 & S2 & R2). exists (n1 + n2)%nat, (t1 ++ t2). split.
    + exact (sends_app _ _ _ _ S1 S2).
    + intros fuel Hf. cbn [length putbytes_loop app]. unfold console_putchar, pure, mbind, io_bind. cbn.
      rewrite R1 by lia. cbn. rewrite R2 by lia. by rewrite app_assoc.
Qed.

Lemma puts_run s t h : fair -> Forall (fun c => c <> 0) s ->
  exists n tr, sends tr (s ++ [NL]) /\
    forall fuel, (n <= fuel)%nat -> puts fuel (s ++ NUL :: t) h = Ok (1, h ++ tr).
Proof.
  intros Hfair Hs. destruct (putbytes_run s h (NUL :: t) Hfair) as (n1 & t1 & S1 & R1).
  destruct (ser_putchar_run NL (h ++ t1) Hfair) as (n2 & t2 & S2 & R2).
  exists (n1 + n2)%nat, (t1 ++ t2). split; [exact (sends_app _ _ _ _ S1 S2)|].
  intros fuel Hf. unfold puts, console_putbytes, console_putchar, pure, mbind, io_bind.
  rewrite strlen_run by done. cbn [mbind cres_bind]. rewrite Nat2Z.id, R1 by lia. cbn.
  change 10 with NL. rewrite R2 by lia. by rewrite app_assoc.
Qed.

(** The line control register reads back what was written to it last. *)
Definition reads_back : Prop := forall h v reads,
  Forall (fun a => is_read a = true \/ exists p w, a = Out p w /\ p <> ser_port + 3) reads ->
  0 <= v < 256 -> device (h ++ Out (ser_port + 3) v :: reads) (ser_port + 3) = v.

(** C26: every message reaches the serial line, in order and complete.  On a
    port whose line control register reads back and whose transmitter, however
    it was used, becomes empty when it is polled often enough, [ser_init]
    writes the divisor of 115200 baud between selecting and deselecting the
    divisor latch and leaves 8 bits, no parity, 1 stop bit; then [puts] of any
    string returns 1, having sent exactly the characters of the string and a
    new line, each after the status has shown the transmitter empty; and so
    does [fputs], to whatever file. *)
Theorem console_delivers s : fair -> reads_back -> Forall (fun c => c <> 0) s ->
  exists n tr, sends tr (s ++ [NL]) /\ forall fuel put, (n <= fuel)%nat -> put = puts \/ put = fputs ->
    (_ ← ser_init; put fuel (s ++ [NUL])) [] =
    Ok (1, [Out (ser_port + 3) 3; In (ser_port + 3) 3; Out (ser_port + 3) 0x83;
            Out (ser_port + 1) 0; Out ser_port 1; In (ser_port + 3) 0x83; Out (ser_port + 3) 3] ++ tr).
Proof.
  intros Hfair Hback Hs.
  assert (ser_init [] = Ok (tt, [Out (ser_port + 3) 3; In (ser_port + 3) 3; Out (ser_port + 3) 0x83;
    Out (ser_port + 1) 0; Out ser_port 1; In (ser_port + 3) 0x83; Out (ser_port + 3) 3])) as Hinit.
  { unfold ser_init, inportb, outportb, mbind, io_bind.
    change (u16 (ser_port + 3)) with (ser_port + 3). change (u8 3) with 3.
    pose proof (Hback [] 3 []) as H1. cbn [app] in *.
    rewrite H1 by (done || lia). change (u8 (Z.lor (u8 3) 128)) with 0x83. change (u8 3) with 3.
    pose proof (Hback [Out (ser_port + 3) 3; In (ser_port + 3) 3] 0x83
      [Out (u16 (ser_port + 1)) (u8 0); Out (u16 ser_port) (u8 1)]) as H2. cbn [app] in H2.
    rewrite H2; [done| |lia]. do 2 (constructor; [right; eexists _, _; done|]). constructor. }
  match goal with H : ser_init [] = Ok (tt, ?h) |- _ => destruct (puts_run s [] h Hfair Hs) as (n & tr & Hsend & Hrun) end.
  exists n, tr. split; [done|]. intros fuel put Hf Hput. unfold mbind, io_bind. rewrite Hinit.
  destruct Hput as [->| ->]; [by apply Hrun|]. unfold fputs, mbind, io_bind. by rewrite Hrun.
Qed.
End device.

(** A port whose transmitter is always empty. *)
Definition idle_port (h : list access) (p : Z) : Z :=
  if p =? ser_port + 3 then
    foldl (fun v a => match a with Out p' w => if p' =? ser_port + 3 then w else v | _ => v end) 0 h
  else 0x60.

Lemma console_delivers_witness :
  exists n tr, sends tr (chars "ok" ++ [NL]) /\
    fputs idle_port n (chars "ok" ++ [NUL])
      [Out (ser_port + 3) 3; In (ser_port + 3) 3; Out (ser_port + 3) 0x83;
       Out (ser_port + 1) 0; Out ser_port 1; In (ser_port + 3) 0x83; Out (ser_port + 3) 3] =
    Ok (1, [Out (ser_port + 3) 3; In (ser_port + 3) 3; Out (ser_port + 3) 0x83;
            Out (ser_port + 1) 0; Out ser_port 1; In (ser_port + 3) 0x83; Out (ser_port + 3) 3] ++ tr).
Proof.
  destruct (console_delivers idle_port (chars "ok")) as (n & tr & Hs & Hrun).
  - intros h. exists 0%nat. reflexivity.
  - intros h v reads Hr _. unfold idle_port. rewrite Z.eqb_refl, foldl_app. cbn [foldl].
    rewrite Z.eqb_refl. induction Hr as [|a reads Ha _ IH]; [reflexivity|]. cbn [foldl].
    destruct a as [|p w]; [exact IH|]. destruct Ha as [Ha|(p' & w' & [= <- <-] & Hp)]; [done|].
    by rewrite (proj2 (Z.eqb_neq p (ser_port + 3)) Hp).
  - by repeat constructor.
  - exists n, tr. split; [exact Hs|]. exact (Hrun n (fputs idle_port) (le_n n) (or_intror eq_refl)).
Defined.
