(* ===== verification/Printf.v ===== *)
(** * The kernel's printf on the console: [libc/printf.c]

    The characters of [_doprnt] go through a buffer of 128 to the functions of
    [x86_lib.c]; the console receives the text that the format means. *)

From S2P Require Import Prelude CLib Doprnt DoprntSpec Console.
Open Scope Z_scope.

Definition PRINTF_BUFMAX : Z := 128.

(** [buf] and [index] lie behind each other. *)
Record printf_state := { buf : text; index : Z }.

Section printf.
Context (device : list access -> Z -> Z) (fuel : nat).
#[local] Existing Instance io_ret.
#[local] Existing Instance io_bind.

Definition putchar (c : Z) : io Z := console_putchar device fuel c.

Definition flush (st : printf_state) : io printf_state :=
  _ ← console_putbytes device fuel (buf st) (index st);
  mret {| buf := buf st; index := 0 |}.

(** With 128 characters in the buffer the NUL of a new line is stored in the
    lowest byte of [index], the number 128, which it makes 0. *)
Definition printf_char (c : Z) (st : printf_state) : io printf_state :=
  if c =? NL then
    let text := if index st <? PRINTF_BUFMAX then <[Z.to_nat (index st) := NUL]> (buf st)
                else buf st ++ [NUL] in
    _ ← puts device fuel text;
    mret {| buf := take (Z.to_nat PRINTF_BUFMAX) text; index := 0 |}
  else if (c =? 0) || (PRINTF_BUFMAX <=? index st) then
    st ← flush st; _ ← putchar c; mret st
  else mret {| buf := <[Z.to_nat (index st) := c]> (buf st); index := index st + 1 |}.

Fixpoint printf_chars (l : text) (st : printf_state) : io printf_state :=
  match l with [] => mret st | c :: l' => st ← printf_char c st; printf_chars l' st end.

(** [junk] is what the buffer on the stack holds. *)
Definition vprintf (junk : text) (fmt : text) (args : list argument) : io Z :=
  out ← pure (_doprnt fmt args 0);
  st ← printf_chars out {| buf := junk; index := 0 |};
  _ ← (if index st =? 0 then mret st else flush st);
  mret 0.
End printf.

(** ** Delivery *)

Section delivery.
Context (device : list access -> Z -> Z) (Hfair : fair device).
#[local] Existing Instance io_ret.
#[local] Existing Instance io_bind.

(** The characters that wait in the buffer. *)
Record waiting (st : printf_state) (w : text) : Prop := {
  wa_size : length (buf st) = Z.to_nat PRINTF_BUFMAX;
  wa_index : index st = Z.of_nat (length w) /\ index st <= PRINTF_BUFMAX;
  wa_text : take (length w) (buf st) = w;
  wa_chars : Forall (fun c => c <> 0) w
}.

Lemma waiting_split st w : waiting st w -> exists t, buf st = w ++ t.
Proof. intros [_ _ H _]. exists (drop (length w) (buf st)). by rewrite <- H at 1; rewrite take_drop. Qed.

Lemma waiting_none st : length (buf st) = Z.to_nat PRINTF_BUFMAX -> index st = 0 -> waiting st [].
Proof. intros Hl Hi. split; [done|by rewrite Hi|done|constructor]. Qed.

Lemma flush_run st w h : waiting st w ->
  exists n tr, sends tr w /\ forall fuel, (n <= fuel)%nat ->
    flush device fuel st h = Ok ({| buf := buf st; index := 0 |}, h ++ tr).
Proof.
  intros Hw. destruct (waiting_split st w Hw) as [t Ht]. destruct (wa_index _ _ Hw) as [Hi _].
  destruct (putbytes_run device w h t Hfair) as (n & tr & Hs & Hrun). exists n, tr. split; [done|].
  intros fuel Hf. unfold flush, console_putbytes, mbind, io_bind. rewrite Ht, Hi, Nat2Z.id, Hrun by done.
  done.
Qed.

(** One character: some are sent, and what waits then completes them. *)
Lemma printf_char_run c st w h : waiting st w ->
  exists n tr sent st' w', sends tr sent /\ waiting st' w' /\ sent ++ w' = w ++ [c] /\
    forall fuel, (n <= fuel)%nat -> printf_char device fuel c st h = Ok (st', h ++ tr).
Proof.
  intros Hw. pose proof Hw as [Hsize [Hi Hmax] Htext Hchars].
  destruct (waiting_split st w Hw) as [t Ht]. unfold printf_char.
  destruct (Z.eqb_spec c NL) as [->|Hc]; [|destruct (Z.eqb_spec c 0) as [->|Hc0]; cbn [orb]].
  - set (text := if index st <? PRINTF_BUFMAX then _ else _).
    assert (exists r, text = (w ++ [NUL]) ++ r) as [r Hr].
    { unfold text. destruct (Z.ltb_spec (index st) PRINTF_BUFMAX).
      - exists (drop (S (length w)) (buf st)). rewrite insert_take_drop by lia.
        rewrite Hi, Nat2Z.id, Htext. by rewrite <- app_assoc.
      - exists []. rewrite Ht in *. rewrite length_app in Hsize. destruct t; cbn in Hsize; [|lia].
        by rewrite !app_nil_r. }
    assert (length (take (Z.to_nat PRINTF_BUFMAX) text) = Z.to_nat PRINTF_BUFMAX) as Hlen.
    { rewrite length_take. unfold text. destruct (_ <? _); rewrite ?length_insert, ?length_app; lia. }
    destruct (puts_run device w r h Hfair Hchars) as (n & tr & Hs & Hrun).
    exists n, tr, (w ++ [NL]), {| buf := take (Z.to_nat PRINTF_BUFMAX) text; index := 0 |}, [].
    split; [done|]. split; [by apply waiting_none|]. split; [apply app_nil_r|].
    intros fuel Hf. unfold mbind, io_bind. rewrite Hr, <- app_assoc. cbn [app]. by rewrite Hrun.
  - destruct (flush_run st w h Hw) as (n1 & t1 & S1 & R1).
    destruct (ser_putchar_run device 0 (h ++ t1) Hfair) as (n2 & t2 & S2 & R2).
    exists (n1 + n2)%nat, (t1 ++ t2), (w ++ [0]), {| buf := buf st; index := 0 |}, [].
    split; [exact (sends_app _ _ _ _ S1 S2)|]. split; [by apply waiting_none|]. split; [apply app_nil_r|].
    intros fuel Hf. unfold putchar, console_putchar, mbind, io_bind. rewrite R1 by lia.
    rewrite R2 by lia. by rewrite <- app_assoc.
  - destruct (Z.leb_spec PRINTF_BUFMAX (index st)).
    + destruct (flush_run st w h Hw) as (n1 & t1 & S1 & R1).
      destruct (ser_putchar_run device c (h ++ t1) Hfair) as (n2 & t2 & S2 & R2).
      exists (n1 + n2)%nat, (t1 ++ t2), (w ++ [c]), {| buf := buf st; index := 0 |}, [].
      split; [exact (sends_app _ _ _ _ S1 S2)|]. split; [by apply waiting_none|]. split; [apply app_nil_r|].
      intros fuel Hf. unfold putchar, console_putchar, mbind, io_bind. rewrite R1 by lia.
      rewrite R2 by lia. by rewrite <- app_assoc.
    + exists 0%nat, [], [], {| buf := <[Z.to_nat (index st) := c]> (buf st); index := index st + 1 |}, (w ++ [c]).
      split; [constructor|]. split; [|split; [done|intros; by rewrite app_nil_r]].
      split; cbn [buf index].
      * by rewrite length_insert.
      * rewrite length_app. cbn. lia.
      * rewrite length_app, Nat.add_1_r, Hi, Nat2Z.id. rewrite (take_S_r _ _ c).
        -- by rewrite take_insert_ge, Htext by lia.
        -- apply list_lookup_insert_eq. lia.
      * apply Forall_app. by split; [|constructor].
Qed.

Lemma printf_chars_run l : forall st w h, waiting st w ->
  exists n tr sent st' w', sends tr sent /\ waiting st' w' /\ sent ++ w' = w ++ l /\
    forall fuel, (n <= fuel)%nat -> printf_chars device fuel l st h = Ok (st', h ++ tr).
Proof.
  induction l as [|c l IH]; intros st w h Hw.
  - exists 0%nat, [], [], st, w. split; [constructor|]. split; [done|]. split; [by rewrite app_nil_r|].
    intros. by rewrite app_nil_r.
  - destruct (printf_char_run c st w h Hw) as (n1 & t1 & s1 & st1 & w1 & S1 & W1 & E1 & R1).
    destruct (IH st1 w1 (h ++ t1) W1) as (n2 & t2 & s2 & st2 & w2 & S2 & W2 & E2 & R2).
    exists (n1 + n2)%nat, (t1 ++ t2), (s1 ++ s2), st2, w2. split; [exact (sends_app _ _ _ _ S1 S2)|].
    split; [done|]. split.
    + rewrite <- app_assoc, E2, app_assoc, E1, <- app_assoc. done.
    + intros fuel Hf. cbn [printf_chars]. unfold mbind, io_bind. rewrite R1, R2 by lia.
      by rewrite app_assoc.
Qed.

End delivery.

