(* ===== verification/Fprintf.v ===== *)
(** * Output to streams: [vfprintf.c], [fprintf.c] and [fstubs.c] of [libc/]

    Every stream is the console: the functions take a stream and do not use it.
    Characters wait in a buffer of 128, which is emptied when it is full. *)

From S2P Require Import Prelude CLib Doprnt DoprntSpec Console.
Open Scope Z_scope.

Definition PRINTF_BUFMAX : Z := 128.

Record printf_state := { stream : Z; buf : text; index : Z }.

Section streams.
Context (device : list access -> Z -> Z) (fuel : nat).
#[local] Existing Instance io_ret.
#[local] Existing Instance io_bind.

Definition flush (state : printf_state) : io printf_state :=
  if 0 <? index state then
    _ ← console_putbytes device fuel (buf state) (index state);
    mret {| stream := stream state; buf := buf state; index := 0 |}
  else mret state.

Definition dochar (c : Z) (state : printf_state) : io printf_state :=
  state ← (if PRINTF_BUFMAX <=? index state then flush state else mret state);
  mret {| stream := stream state; buf := <[Z.to_nat (index state) := c]> (buf state); index := index state + 1 |}.

Fixpoint dochars (l : text) (state : printf_state) : io printf_state :=
  match l with [] => mret state | c :: l' => state ← dochar c state; dochars l' state end.

(** [junk] is what the buffer on the stack holds. *)
Definition vfprintf (junk : text) (stream : Z) (fmt : text) (args : list argument) : io Z :=
  out ← pure (_doprnt fmt args 0);
  state ← dochars out {| stream := stream; buf := junk; index := 0 |};
  _ ← flush state;
  mret 0.

Definition fprintf : text -> Z -> text -> list argument -> io Z := vfprintf.

Definition fwrite (ptr : text) (size nmemb stream : Z) : io Z :=
  _ ← console_putbytes device fuel ptr (i32 (size * nmemb));
  mret nmemb.
End streams.

Definition fclose (fp : Z) : Z := 0.
Definition fflush (stream : Z) : Z := 0.
Definition setvbuf (stream : Z) (buf : option text) (mode size : Z) : Z := 0.

(** ** Delivery *)

Section delivery.
Context (device : list access -> Z -> Z) (Hfair : fair device).
#[local] Existing Instance io_ret.
#[local] Existing Instance io_bind.

(** The characters [w] wait in the buffer. *)
Record waiting (st : printf_state) (w : text) : Prop := {
  wa_size : length (buf st) = Z.to_nat PRINTF_BUFMAX;
  wa_index : index st = Z.of_nat (length w) /\ index st <= PRINTF_BUFMAX;
  wa_text : take (length w) (buf st) = w
}.

Lemma stream_flush_run st w h : waiting st w -> exists n tr st', sends tr w /\ waiting st' [] /\
  forall fuel, (n <= fuel)%nat -> flush device fuel st h = Ok (st', h ++ tr).
Proof.
  intros [Hsize [Hi Hmax] Htext]. unfold flush.
  destruct (Z.ltb_spec 0 (index st)) as [Hpos|Hz].
  - destruct (putbytes_run device w h (drop (length w) (buf st)) Hfair) as (n & tr & Hs & Hrun).
    assert (w ++ drop (length w) (buf st) = buf st) as Hall by (rewrite <- Htext at 1; apply take_drop).
    rewrite Hall in Hrun.
    exists n, tr. eexists. split; [done|]. split; [|intros fuel Hf; unfold console_putbytes, mbind, io_bind;
      rewrite Hi, Nat2Z.id, Hrun by done; reflexivity]. by split.
  - assert (w = []) as -> by (destruct w; cbn in Hi; done || lia). exists 0%nat, [], st. split; [constructor|].
    split; [done|]. intros. by rewrite app_nil_r.
Qed.

(** One character: what waited is sent or not, the character waits. *)
Lemma dochar_run c st w h : waiting st w -> exists n tr sent st' w',
  sends tr sent /\ waiting st' w' /\ sent ++ w' = w ++ [c] /\
  forall fuel, (n <= fuel)%nat -> dochar device fuel c st h = Ok (st', h ++ tr).
Proof.
  intros Hw. assert (forall st1 w1, waiting st1 w1 -> index st1 < PRINTF_BUFMAX ->
    waiting {| stream := stream st1; buf := <[Z.to_nat (index st1) := c]> (buf st1); index := index st1 + 1 |} (w1 ++ [c])) as Hadd.
  { intros st1 w1 [Hsize [Hi Hmax] Htext] Hlt. split; cbn [buf index].
    - by rewrite length_insert.
    - rewrite length_app. cbn. lia.
    - rewrite length_app, Nat.add_1_r, Hi, Nat2Z.id, (take_S_r _ _ c).
      + by rewrite take_insert_ge, Htext by lia.
      + apply list_lookup_insert_eq. lia. }
  unfold dochar. destruct (Z.leb_spec PRINTF_BUFMAX (index st)) as [Hfull|Hroom].
  - destruct (stream_flush_run st w h Hw) as (n & tr & st1 & Hs & Hw1 & Hrun).
    destruct (wa_index _ _ Hw1) as [Hi1 _]. exists n, tr, w. eexists. exists ([] ++ [c]). split; [done|].
    split; [apply Hadd; [exact Hw1|rewrite Hi1; done]|]. split; [done|].
    intros fuel Hf. unfold mbind, io_bind. by rewrite Hrun.
  - exists 0%nat, [], []. eexists. exists (w ++ [c]). split; [constructor|]. split; [by apply Hadd|]. split; [done|].
    intros fuel Hf. unfold mbind, io_bind. by rewrite app_nil_r.
Qed.

Lemma dochars_run l : forall st w h, waiting st w -> exists n tr sent st' w',
  sends tr sent /\ waiting st' w' /\ sent ++ w' = w ++ l /\
  forall fuel, (n <= fuel)%nat -> dochars device fuel l st h = Ok (st', h ++ tr).
Proof.
  induction l as [|c l IH]; intros st w h Hw.
  - exists 0%nat, [], [], st, w. split; [constructor|]. split; [done|]. split; [by rewrite app_nil_r|].
    intros. by rewrite app_nil_r.
  - destruct (dochar_run c st w h Hw) as (n1 & t1 & s1 & st1 & w1 & S1 & W1 & E1 & R1).
    destruct (IH st1 w1 (h ++ t1) W1) as (n2 & t2 & s2 & st2 & w2 & S2 & W2 & E2 & R2).
    exists (n1 + n2)%nat, (t1 ++ t2), (s1 ++ s2), st2, w2. split; [exact (sends_app _ _ _ _ S1 S2)|].
    split; [done|]. split; [by rewrite <- app_assoc, E2, app_assoc, E1, <- app_assoc|].
    intros fuel Hf. cbn [dochars]. unfold mbind, io_bind. rewrite R1, R2 by lia. by rewrite app_assoc.
Qed.

(** What is printed to any stream goes to the console, as the format says, and
    [fwrite] sends its bytes. *)
Lemma vfprintf_delivers junk stream ds h :
  length junk = Z.to_nat PRINTF_BUFMAX -> Forall (fun d => directive_ok d = true) ds ->
  exists n tr, sends tr (concat (meaning <$> ds)) /\
    forall fuel, (n <= fuel)%nat ->
      vfprintf device fuel junk stream (concat (show <$> ds) ++ [NUL]) (concat (arguments <$> ds)) h = Ok (0, h ++ tr).
Proof.
  intros Hjunk Hds. pose proof (directives_run ds [] [] Hds) as Hout. rewrite app_nil_r in Hout.
  set (st0 := {| stream := stream; buf := junk; index := 0 |}). assert (waiting st0 []) as H0 by (by split).
  destruct (dochars_run (concat (meaning <$> ds)) st0 [] h H0) as (n1 & t1 & sent & st1 & w1 & S1 & W1 & E1 & R1).
  destruct (stream_flush_run st1 w1 (h ++ t1) W1) as (n2 & t2 & st2 & S2 & _ & R2). cbn [app] in E1.
  exists (n1 + n2)%nat, (t1 ++ t2). split; [rewrite <- E1; exact (sends_app _ _ _ _ S1 S2)|].
  intros fuel Hf. unfold vfprintf, pure, mbind, io_bind. rewrite Hout. cbn [mbind cres_bind]. fold st0.
  rewrite R1, R2 by lia. by rewrite <- app_assoc.
Qed.

Lemma fwrite_delivers l size nmemb stream h :
  0 <= size -> 0 <= nmemb -> size * nmemb = Z.of_nat (length l) -> Z.of_nat (length l) < 2 ^ 31 ->
  exists n tr, sends tr l /\
    forall fuel, (n <= fuel)%nat -> fwrite device fuel l size nmemb stream h = Ok (nmemb, h ++ tr).
Proof.
  intros H1 H2 Hn Hl. destruct (putbytes_run device l h [] Hfair) as (n & tr & Hs & Hrun).
  rewrite app_nil_r in Hrun. exists n, tr. split; [done|]. intros fuel Hf.
  unfold fwrite, console_putbytes, mbind, io_bind. rewrite Hn, swrap_small by (change (2 ^ (32 - 1)) with (2 ^ 31); lia).
  by rewrite Nat2Z.id, Hrun.
Qed.
End delivery.
