(* ===== verification/Multiboot.v ===== *)
(** * The boot loader's data: [multiboot.h]

    Packed structures in memory: a structure is the list of its fields with
    their widths in bytes, in the order of their declaration. *)

From S2P Require Import Prelude Memory.
Open Scope Z_scope.

Abbreviation struct := (list (string * nat)).

Fixpoint sizeof (t : struct) : Z :=
  match t with [] => 0 | (_, w) :: t' => Z.of_nat w + sizeof t' end.

(** The offset and the width of a field. *)
Fixpoint field_of (t : struct) (f : string) : option (Z * nat) :=
  match t with
  | [] => None
  | (g, w) :: t' =>
    if String.eqb f g then Some (0, w)
    else p ← field_of t' f; Some (Z.of_nat w + p.1, p.2)
  end.

(** [((t* )p)->f] *)
Definition get (t : struct) (p : Z) (f : string) (m : mem) : cres Z :=
  match field_of t f with Some (o, w) => load_le w m (u32 (p + o)) | None => Fault OutOfBounds end.

Open Scope string_scope.

(** The union of the symbol tables has 16 bytes. *)
Definition multiboot_info_t : struct :=
  [("flags", 4); ("mem_lower", 4); ("mem_upper", 4); ("boot_device", 4); ("cmdline", 4);
   ("mods_count", 4); ("mods_addr", 4); ("u", 16); ("mmap_length", 4); ("mmap_addr", 4);
   ("drives_length", 4); ("drives_addr", 4); ("config_table", 4); ("boot_loader_name", 4);
   ("apm_table", 4); ("vbe_control_info", 4); ("vbe_mode_info", 4); ("vbe_mode", 2);
   ("vbe_interface_seg", 2); ("vbe_interface_off", 2); ("vbe_interface_len", 2)]%nat.

Definition apm_table_t : struct :=
  [("version", 2); ("cseg", 2); ("offset", 4); ("cseg_16", 2); ("dseg", 2); ("flags", 2);
   ("cseg_len", 2); ("cseg_16_len", 2); ("dseg_len", 2)]%nat.

Close Scope string_scope.

Definition CHECK_FLAG (flags bit : Z) : bool := negb (Z.land flags (Z.shiftl 1 bit) =? 0).

Lemma check_flag_bit flags bit : 0 <= bit -> CHECK_FLAG flags bit = Z.testbit flags bit.
Proof.
  intros Hb. unfold CHECK_FLAG. rewrite Z.shiftl_1_l. destruct (Z.testbit flags bit) eqn:E.
  - apply negb_true_iff, Z.eqb_neq. intros Hz. apply (f_equal (fun z => Z.testbit z bit)) in Hz.
    rewrite Z.land_spec, Z.pow2_bits_true, E, Z.bits_0 in Hz by done. done.
  - apply negb_false_iff, Z.eqb_eq. apply Z.bits_inj'. intros k Hk.
    rewrite Z.land_spec, Z.bits_0. destruct (decide (k = bit)) as [->|].
    + by rewrite E.
    + rewrite Z.pow2_bits_false by done. apply andb_false_r.
Qed.
