(* ===== verification/Descriptors.v ===== *)
(** * Segments and interrupt gates: [x86_kernel.c], [x86_irq.c], [x86_lib.h]

    The tables by which the processor finds segments and interrupt handlers.
    Their entries have the base address and the limit scattered over several
    fields; [segment] and [gate] say what the processor reads from them. *)

From S2P Require Import Prelude Memory PhysMem Multiboot.
Open Scope Z_scope.

Definition GDT_SIZE : Z := 164.
Definition KERNEL_CS : Z := 0x0008.
Definition KERNEL_DS : Z := 0x0010.
Definition USER_CS : Z := 0x0018.
Definition USER_DS : Z := 0x0020.

Record descriptor_t := {
  limit_lo : Z; base_lo : Z; base_mid : Z; flags1 : Z; flags2 : Z; base_hi : Z
}.

Definition IDTF_INT_GATE : Z := 0x8E.
Definition IDTF_DPL : Z := 0x20.

Record idt_t := {
  off_lo : Z; sel : Z; always0 : Z; gate_flags : Z; off_hi : Z
}.

Record descriptor_ptr_t := { ptr_len : Z; ptr_base : Z }.

Definition TSS_F1_DEFAULT : Z := 0x89.
Definition TSS_F2_GRAN_4K : Z := 0x80.
Definition TSS_F2_DEFAULT : Z := TSS_F2_GRAN_4K.

Open Scope string_scope.
Definition tss_t : struct :=
  [("back_link", 2); ("z0", 2); ("esp0", 4); ("ss0", 2); ("z1", 2); ("esp1", 4); ("ss1", 2);
   ("z2", 2); ("esp2", 4); ("ss2", 2); ("z3", 2); ("cr3", 4); ("eip", 4); ("eflags", 4);
   ("eax", 4); ("ecx", 4); ("edx", 4); ("ebx", 4); ("esp", 4); ("ebp", 4); ("esi", 4); ("edi", 4);
   ("es", 2); ("z4", 2); ("cs", 2); ("z5", 2); ("ss", 2); ("z6", 2); ("ds", 2); ("z7", 2);
   ("fs", 2); ("z8", 2); ("gs", 2); ("z9", 2); ("ldt", 2); ("z10", 2); ("trace_trap", 2);
   ("io_bit_map_offset", 2)]%nat.
Close Scope string_scope.

Definition IDT_SIZE : Z := 256.
Definition IRQ_BASE : Z := 0x20.

(** The variables of the two files, the processor's table and task registers,
    and the bytes written to the interrupt controllers. *)
Record tables := {
  gdt : list descriptor_t;
  gdt_ptr : descriptor_ptr_t;
  gdt_count : Z;
  apm_call_ptr : list Z;
  seg_tss : Z;
  tss_ss0 : Z;
  tss_esp0 : Z;
  idt : list idt_t;
  idt_ptr : descriptor_ptr_t;
  trap_handlers : list Z;
  gdtr : option descriptor_ptr_t;
  idtr : option descriptor_ptr_t;
  cs_ds : Z * Z;
  tr : Z;
  pic : list (Z * Z)
}.

#[export] Instance eta_tables : Eta tables := fun r =>
  Build_tables (gdt r) (gdt_ptr r) (gdt_count r) (apm_call_ptr r) (seg_tss r) (tss_ss0 r) (tss_esp0 r)
    (idt r) (idt_ptr r) (trap_handlers r) (gdtr r) (idtr r) (cs_ds r) (tr r) (pic r).

Definition zero_descriptor : descriptor_t :=
  {| limit_lo := 0; base_lo := 0; base_mid := 0; flags1 := 0; flags2 := 0; base_hi := 0 |}.
Definition zero_gate : idt_t :=
  {| off_lo := 0; sel := 0; always0 := 0; gate_flags := 0; off_hi := 0 |}.

(** An assignment to [a[index]]. *)
Definition assign {A} (l : list A) (index : Z) (v : A) : cres (list A) :=
  if (0 <=? index) && (index <? Z.of_nat (length l)) then Ok (<[Z.to_nat index := v]> l)
  else Fault OutOfBounds.

(** ** Segments *)

Definition set_descriptor (index base len f1 f2 : Z) (s : tables) : cres tables :=
  g ← assign (gdt s) index
    {| limit_lo := u16 (Z.land len 0xffff);
       flags2 := u8 (Z.lor (Z.shiftr len 16) (u32 f2));
       base_lo := u16 (Z.land base 0xffff);
       base_mid := u8 (Z.shiftr base 16);
       base_hi := u8 (Z.shiftr base 24);
       flags1 := u8 f1 |};
  let s := s <| gdt := g |> in
  Ok (if u32 (gdt_count s) <=? index then s <| gdt_count := i32 (index + 1) |> else s).

Definition add_descriptor (base len f1 f2 : Z) (s : tables) : cres (Z * tables) :=
  let seg := i32 (gdt_count s * 8) in
  s ← set_descriptor (u32 (gdt_count s)) base len f1 f2 s; Ok (seg, s).

Section addresses.
(** The addresses of the tables, of the first interrupt handler and of the
    task segment, which the linker chooses, and the stack pointer. *)
Context (gdt_addr idt_addr exc_0x00 base_tss_addr esp : Z).

(** The segments of the power management system. *)
Definition apm_entries (m : mem) (mbi : Z) (s : tables) : cres tables :=
  apm ← get multiboot_info_t mbi "apm_table" m;
  cseg ← get apm_table_t apm "cseg" m;
  cseg_len ← get apm_table_t apm "cseg_len" m;
  r ← add_descriptor (Z.shiftl cseg 4) (u32 (cseg_len - 1)) 0x9a 0x40 s;
  let seg_apm := u16 r.1 in
  cseg_16 ← get apm_table_t apm "cseg_16" m;
  cseg_16_len ← get apm_table_t apm "cseg_16_len" m;
  r ← add_descriptor (Z.shiftl cseg_16 4) (u32 (cseg_16_len - 1)) 0x9a 0x00 r.2;
  dseg ← get apm_table_t apm "dseg" m;
  dseg_len ← get apm_table_t apm "dseg_len" m;
  r ← add_descriptor (Z.shiftl dseg 4) (u32 (dseg_len - 1)) 0x92 0x00 r.2;
  offset ← get apm_table_t apm "offset" m;
  Ok (r.2 <| apm_call_ptr := [u16 (Z.land offset 0xffff); u16 (Z.shiftr offset 16); seg_apm] |>).

Definition apm_segments (m : mem) (mbi : Z) (s : tables) : cres tables :=
  flags ← get multiboot_info_t mbi "flags" m;
  if CHECK_FLAG flags 10 then apm_entries m mbi s else Ok (s <| apm_call_ptr := [0; 0; 0] |>).

Definition init_GDT (m : mem) (mbi : Z) (s : tables) : cres tables :=
  let s := s <| gdt := replicate (Z.to_nat GDT_SIZE) zero_descriptor |> <| gdt_count := 0 |> in
  s ← set_descriptor 0 0 0 0 0 s;
  s ← set_descriptor 1 0 0xfffff 0x9a 0xc0 s;
  s ← set_descriptor 2 0 0xfffff 0x92 0xc0 s;
  s ← set_descriptor 3 0 0xbffff 0xfa 0xc0 s;
  s ← set_descriptor 4 0 0xbffff 0xf2 0xc0 s;
  s ← apm_segments m mbi s;
  let p := {| ptr_len := u16 (GDT_SIZE * 8); ptr_base := PHYS_MEM gdt_addr |} in
  Ok (s <| gdt_ptr := p |> <| gdtr := Some p |> <| cs_ds := (KERNEL_CS, KERNEL_DS) |>).

(** [&base_tss - KERNEL_VIRT_BASE] is the address less so many structures. *)
Definition init_TSS (s : tables) : cres tables :=
  let s := s <| tss_ss0 := KERNEL_DS |> <| tss_esp0 := esp |> in
  r ← add_descriptor (u32 (base_tss_addr - KERNEL_VIRT_BASE * sizeof tss_t)) (sizeof tss_t - 1)
        TSS_F1_DEFAULT TSS_F2_DEFAULT s;
  let seg := u16 r.1 in
  Ok (r.2 <| seg_tss := seg |> <| tr := seg |>).

(** ** Interrupt gates *)

Definition set_IDT (index base sel flags : Z) (s : tables) : cres tables :=
  match idt s !! Z.to_nat index with
  | Some e =>
    i ← assign (idt s) index
      {| off_lo := u16 (Z.land (u32 base) 0xffff); off_hi := u16 (Z.shiftr (u32 base) 16);
         sel := u16 sel; gate_flags := u8 flags; always0 := always0 e |};
    Ok (s <| idt := i |>)
  | None => Fault OutOfBounds
  end.

(** [for(i = start; i < start + n; i++)] *)
Fixpoint set_gates (start : Z) (n : nat) (s : tables) : cres tables :=
  match n with
  | O => Ok s
  | S n' =>
    s ← set_IDT start (exc_0x00 + start * 16) KERNEL_CS IDTF_INT_GATE s;
    set_gates (start + 1) n' s
  end.

Definition init_IDT (s : tables) : cres tables :=
  let s := s <| idt := replicate (Z.to_nat IDT_SIZE) zero_gate |> in
  s ← set_gates 0 (Z.to_nat IDT_SIZE) s;
  s ← set_IDT 0x80 (exc_0x00 + 0x80 * 16) KERNEL_CS (Z.lor IDTF_INT_GATE (IDTF_DPL * 3)) s;
  let s := s <| pic := pic s ++ [(0x20, 0x11); (0x21, IRQ_BASE); (0x21, 0x04); (0x21, 0x01);
                                 (0xA0, 0x11); (0xA1, IRQ_BASE + 8); (0xA1, 0x02); (0xA1, 0x01)] |>
             <| trap_handlers := replicate (Z.to_nat IDT_SIZE) 0 |> in
  let p := {| ptr_len := u16 (IDT_SIZE * 8); ptr_base := u32 idt_addr |} in
  Ok (s <| idt_ptr := p |> <| idtr := Some p |>).
End addresses.

(** ** What the processor reads from the tables *)

Definition seg_base (d : descriptor_t) : Z := base_lo d + 2 ^ 16 * base_mid d + 2 ^ 24 * base_hi d.
Definition seg_limit (d : descriptor_t) : Z := limit_lo d + 2 ^ 16 * (flags2 d mod 16).
Definition seg_granular (d : descriptor_t) : bool := Z.testbit (flags2 d) 7.
(** The last address of the segment. *)
Definition seg_last (d : descriptor_t) : Z :=
  seg_base d + if seg_granular d then seg_limit d * 4096 + 4095 else seg_limit d.
Definition privilege (flags : Z) : Z := flags / 2 ^ 5 mod 4.

Record segment (d : descriptor_t) (base len f1 f2 : Z) : Prop := {
  sg_base : seg_base d = base;
  sg_limit : seg_limit d = len;
  sg_f1 : flags1 d = f1;
  sg_f2 : flags2 d / 16 = f2 / 16
}.

Definition gate_offset (e : idt_t) : Z := off_lo e + 2 ^ 16 * off_hi e.

Lemma split_word z : 0 <= z < 2 ^ 32 ->
  u16 (Z.land z 0xffff) = z mod 2 ^ 16 /\ u16 (Z.shiftr z 16) = z / 2 ^ 16 /\
  z = z mod 2 ^ 16 + 2 ^ 16 * (z / 2 ^ 16) /\ 0 <= z / 2 ^ 16 < 2 ^ 16.
Proof.
  intros Hz. change 0xffff with (2 ^ 16 - 1). rewrite land_mask, Z.shiftr_div_pow2 by done.
  pose proof (Z.div_mod z (2 ^ 16) ltac:(lia)). pose proof (Z.mod_pos_bound z (2 ^ 16) ltac:(lia)).
  assert (0 <= z / 2 ^ 16 < 2 ^ 16) by (split; [apply Z.div_pos|apply Z.div_lt_upper_bound]; lia).
  rewrite !wrap_small by lia. lia.
Qed.

Lemma descriptor_segment base len f1 f2 :
  0 <= base < 2 ^ 32 -> 0 <= len < 2 ^ 20 -> 0 <= f1 < 256 -> 0 <= f2 < 256 -> f2 mod 16 = 0 ->
  segment {| limit_lo := u16 (Z.land len 0xffff); flags2 := u8 (Z.lor (Z.shiftr len 16) (u32 f2));
             base_lo := u16 (Z.land base 0xffff); base_mid := u8 (Z.shiftr base 16);
             base_hi := u8 (Z.shiftr base 24); flags1 := u8 f1 |} base len f1 f2.
Proof.
  intros Hb Hl H1 H2 H0. destruct (split_word base Hb) as (-> & _ & Eb & Rb).
  destruct (split_word len ltac:(lia)) as (-> & _ & El & Rl).
  rewrite !Z.shiftr_div_pow2 by done. rewrite (wrap_small 32 f2) by lia.
  assert (0 <= len / 2 ^ 16 < 16) as Rl' by (split; [lia|apply Z.div_lt_upper_bound; lia]).
  assert (Z.lor (len / 2 ^ 16) f2 = f2 + len / 2 ^ 16) as ->.
  { rewrite Z.lor_comm. apply (lor_low_add f2 (len / 2 ^ 16) 4); [lia|done|exact Rl']. }
  pose proof (Z.div_mod f2 16 ltac:(lia)).
  rewrite (wrap_small 8 (f2 + _)) by lia. rewrite (wrap_small 8 f1) by lia.
  constructor; unfold seg_base, seg_limit; cbn [base_lo base_mid base_hi limit_lo flags2 flags1].
  - change (2 ^ 24) with (2 ^ 16 * 2 ^ 8). rewrite <- Z.div_div by lia.
    unfold wrap. pose proof (Z.div_mod (base / 2 ^ 16) (2 ^ 8) ltac:(lia)).
    rewrite (Z.mod_small (base / 2 ^ 16 / 2 ^ 8)); [lia|].
    split; [apply Z.div_pos; lia|]. apply Z.div_lt_upper_bound; [lia|]. change (2 ^ 8 * 2 ^ 8) with (2 ^ 16). lia.
  - rewrite Z.add_mod, H0, Z.add_0_l, Z.mod_mod, (Z.mod_small (len / 2 ^ 16)) by lia. lia.
  - done.
  - symmetry. apply (Z.div_unique _ 16 _ (len / 2 ^ 16)); lia.
Qed.

Lemma assign_ok {A} (l : list A) i v :
  0 <= i < Z.of_nat (length l) -> assign l i v = Ok (<[Z.to_nat i := v]> l).
Proof.
  intros H. unfold assign. by rewrite (proj2 (Z.leb_le 0 i)), (proj2 (Z.ltb_lt _ _)) by lia.
Qed.

Lemma assign_beyond {A} (l : list A) i v : Z.of_nat (length l) <= i -> assign l i v = Fault OutOfBounds.
Proof. intros H. unfold assign. rewrite (proj2 (Z.ltb_ge _ _)) by lia. by rewrite andb_false_r. Qed.

(** A table of segments with [n] entries in use. *)
Definition gdt_ok (s : tables) (n : Z) : Prop :=
  length (gdt s) = Z.to_nat GDT_SIZE /\ gdt_count s = n /\ 0 <= n <= GDT_SIZE.

Lemma set_descriptor_run s n base len f1 f2 :
  gdt_ok s n -> n < GDT_SIZE ->
  0 <= base < 2 ^ 32 -> 0 <= len < 2 ^ 20 -> 0 <= f1 < 256 -> 0 <= f2 < 256 -> f2 mod 16 = 0 ->
  exists d, segment d base len f1 f2 /\
    set_descriptor n base len f1 f2 s =
    Ok (s <| gdt := <[Z.to_nat n := d]> (gdt s) |> <| gdt_count := n + 1 |>) /\
    gdt_ok (s <| gdt := <[Z.to_nat n := d]> (gdt s) |> <| gdt_count := n + 1 |>) (n + 1).
Proof.
  intros (Hlen & Hn & Hr) Hlt Hb Hl H1 H2 H0. unfold GDT_SIZE in *.
  eexists. split; [by apply descriptor_segment|]. split.
  - unfold set_descriptor. rewrite assign_ok by lia. cbn [mbind cres_bind].
    change (gdt_count (s <| gdt := _ |>)) with (gdt_count s).
    rewrite Hn, wrap_small by lia. rewrite Z.leb_refl, swrap_small by lia. done.
  - unfold gdt_ok, upd; cbn [gdt gdt_count]. rewrite length_insert. unfold GDT_SIZE. lia.
Qed.

Lemma add_descriptor_run s n base len f1 f2 :
  gdt_ok s n -> n < GDT_SIZE ->
  0 <= base < 2 ^ 32 -> 0 <= len < 2 ^ 20 -> 0 <= f1 < 256 -> 0 <= f2 < 256 -> f2 mod 16 = 0 ->
  exists d, segment d base len f1 f2 /\
    add_descriptor base len f1 f2 s =
    Ok (8 * n, s <| gdt := <[Z.to_nat n := d]> (gdt s) |> <| gdt_count := n + 1 |>) /\
    gdt_ok (s <| gdt := <[Z.to_nat n := d]> (gdt s) |> <| gdt_count := n + 1 |>) (n + 1).
Proof.
  intros Hok Hlt Hb Hl H1 H2 H0.
  destruct (set_descriptor_run s n base len f1 f2 Hok Hlt Hb Hl H1 H2 H0) as (d & Hd & Hrun & Hok').
  exists d. split; [done|]. split; [|done]. destruct Hok as (_ & Hn & Hr). unfold GDT_SIZE in *.
  unfold add_descriptor. rewrite Hn, wrap_small, Hrun, swrap_small by lia. cbn [mbind cres_bind].
  do 2 f_equal. lia.
Qed.

(** C21: the scattered fields of a descriptor round-trip.  While the table has
    room, [add_descriptor] returns the selector of a new entry from which the
    processor reads exactly the base, the limit and both groups of flags that
    were given, and changes no other entry; with a full table it writes behind
    the table, there being no check; and a limit that does not fit in 20 bits,
    as of a segment with length 0 less one, overwrites the second group of
    flags with ones. *)
Theorem add_descriptor_decodes s n base len f1 f2 :
  gdt_ok s n -> 0 <= base < 2 ^ 32 -> 0 <= f1 < 256 -> 0 <= f2 < 256 -> f2 mod 16 = 0 ->
  (n < GDT_SIZE -> 0 <= len < 2 ^ 20 -> exists d s',
     add_descriptor base len f1 f2 s = Ok (8 * n, s') /\ gdt_ok s' (n + 1) /\
     gdt s' !! Z.to_nat (8 * n / 8) = Some d /\ segment d base len f1 f2 /\
     forall i, i <> Z.to_nat n -> gdt s' !! i = gdt s !! i) /\
  (n = GDT_SIZE -> add_descriptor base len f1 f2 s = Fault OutOfBounds) /\
  (n < GDT_SIZE -> exists d s', add_descriptor base (u32 (0 - 1)) f1 f2 s = Ok (8 * n, s') /\
     gdt s' !! Z.to_nat n = Some d /\ flags2 d = 0xff).
Proof.
  intros Hok Hb H1 H2 H0. pose proof Hok as (Hlen & Hn & Hr). split_and!.
  - intros Hlt Hl. destruct (add_descriptor_run s n base len f1 f2) as (d & Hd & Hrun & Hok'); try done.
    exists d. eexists. split; [exact Hrun|]. split; [done|]. unfold upd; cbn [gdt]. split_and!; [|done|].
    + rewrite Z.mul_comm, Z.div_mul by done. apply list_lookup_insert_eq. unfold GDT_SIZE in *. lia.
    + intros i Hi. by apply list_lookup_insert_ne.
  - intros ->. unfold add_descriptor, set_descriptor. unfold GDT_SIZE in *.
    by rewrite Hn, wrap_small, assign_beyond by lia.
  - intros Hlt. unfold add_descriptor, set_descriptor. unfold GDT_SIZE in *.
    rewrite Hn, (wrap_small 32 n), assign_ok by lia. cbn [mbind cres_bind].
    change (gdt_count (s <| gdt := _ |>)) with (gdt_count s). rewrite Hn, (wrap_small 32 n), Z.leb_refl by lia.
    eexists _, _. split; [rewrite swrap_small by lia; do 2 f_equal; lia|]. unfold upd; cbn [gdt].
    split; [apply list_lookup_insert_eq; lia|]. cbn [flags2]. rewrite (wrap_small 32 f2) by lia.
    change (Z.shiftr (u32 (0 - 1)) 16) with (2 ^ 16 - 1).
    apply Z.bits_inj'. intros k Hk. change 0xff with (Z.ones 8).
    unfold wrap. destruct (decide (k < 8)).
    + rewrite Z.mod_pow2_bits_low, Z.lor_spec, Z.ones_spec_low by lia.
      change (2 ^ 16 - 1) with (Z.ones 16). rewrite Z.ones_spec_low by lia. done.
    + rewrite Z.mod_pow2_bits_high, Z.ones_spec_high by lia. done.
Qed.

(** The task segment, in the sixth entry. *)
Definition flat_tables : tables :=
  {| gdt := replicate 164 zero_descriptor; gdt_ptr := {| ptr_len := 0; ptr_base := 0 |}; gdt_count := 5;
     apm_call_ptr := [0; 0; 0]; seg_tss := 0; tss_ss0 := 0; tss_esp0 := 0; idt := [];
     idt_ptr := {| ptr_len := 0; ptr_base := 0 |}; trap_handlers := []; gdtr := None; idtr := None;
     cs_ds := (0, 0); tr := 0; pic := [] |}.

Lemma add_descriptor_decodes_witness :
  exists d s', add_descriptor 0xC0101234 103 TSS_F1_DEFAULT TSS_F2_DEFAULT flat_tables = Ok (40, s') /\
    gdt s' !! 5%nat = Some d /\ segment d 0xC0101234 103 0x89 0x80.
Proof.
  destruct (add_descriptor_decodes flat_tables 5 0xC0101234 103 TSS_F1_DEFAULT TSS_F2_DEFAULT)
    as [(d & s' & Hrun & _ & Hd & Hseg & _) _].
  - split; [reflexivity|]. split; [reflexivity|]. split; vm_compute; discriminate.
  - split; [discriminate|reflexivity].
  - split; [discriminate|reflexivity].
  - split; [discriminate|reflexivity].
  - reflexivity.
  - reflexivity.
  - split; [discriminate|reflexivity].
  - exists d, s'. split; [exact Hrun|]. split; [exact Hd|exact Hseg].
Defined.
