(* ===== verification/TableInit.v ===== *)
(** * Initialisation of the processor's tables: [init_GDT], [init_TSS], [init_IDT]

    The segments and gates that the processor finds after the kernel has set
    up its tables. *)

From S2P Require Import Prelude Memory PhysMem Multiboot Descriptors.
Open Scope Z_scope.

(** ** Initialisation *)

Lemma gdt_ok_start s :
  gdt_ok (s <| gdt := replicate (Z.to_nat GDT_SIZE) zero_descriptor |> <| gdt_count := 0 |>) 0.
Proof.
  unfold gdt_ok, upd; cbn [gdt gdt_count]. rewrite length_replicate. unfold GDT_SIZE. lia.
Qed.

(** The fields that the power management segments come from. *)
Record apm_info := {
  ai_cseg : Z; ai_cseg_len : Z; ai_cseg_16 : Z; ai_cseg_16_len : Z;
  ai_dseg : Z; ai_dseg_len : Z; ai_offset : Z
}.

Definition apm_at (m : mem) (mbi : Z) (i : apm_info) : Prop :=
  exists apm, get multiboot_info_t mbi "apm_table" m = Ok apm /\
    get apm_table_t apm "cseg" m = Ok (ai_cseg i) /\
    get apm_table_t apm "cseg_len" m = Ok (ai_cseg_len i) /\
    get apm_table_t apm "cseg_16" m = Ok (ai_cseg_16 i) /\
    get apm_table_t apm "cseg_16_len" m = Ok (ai_cseg_16_len i) /\
    get apm_table_t apm "dseg" m = Ok (ai_dseg i) /\
    get apm_table_t apm "dseg_len" m = Ok (ai_dseg_len i) /\
    get apm_table_t apm "offset" m = Ok (ai_offset i) /\
    0 <= ai_cseg i < 2 ^ 16 /\ 0 < ai_cseg_len i < 2 ^ 16 /\
    0 <= ai_cseg_16 i < 2 ^ 16 /\ 0 < ai_cseg_16_len i < 2 ^ 16 /\
    0 <= ai_dseg i < 2 ^ 16 /\ 0 < ai_dseg_len i < 2 ^ 16 /\ 0 <= ai_offset i < 2 ^ 32.

(** The segments of a table, in order from entry 0. *)
Definition segments (s : tables) (l : list (Z * Z * Z * Z)) : Prop :=
  gdt_ok s (Z.of_nat (length l)) /\
  forall i base len f1 f2, l !! i = Some (base, len, f1, f2) ->
    exists d, gdt s !! i = Some d /\ segment d base len f1 f2.

Lemma segments_add s l base len f1 f2 d :
  segments s l -> Z.of_nat (length l) < GDT_SIZE -> segment d base len f1 f2 ->
  segments (s <| gdt := <[Z.to_nat (Z.of_nat (length l)) := d]> (gdt s) |>
              <| gdt_count := Z.of_nat (length l) + 1 |>) (l ++ [(base, len, f1, f2)]).
Proof.
  intros [(Hlen & Hn & Hr) Hs] Hlt Hd. split.
  - unfold gdt_ok, upd; cbn [gdt gdt_count]. rewrite length_insert, length_app. cbn [length].
    unfold GDT_SIZE in *. lia.
  - intros i b n g1 g2 Hi. unfold upd; cbn [gdt]. rewrite Nat2Z.id.
    apply lookup_app_Some in Hi as [Hi|[Hge Hi]].
    + pose proof (lookup_lt_Some _ _ _ Hi). rewrite list_lookup_insert_ne by lia. by apply Hs.
    + destruct (i - length l)%nat eqn:E; [|done]. injection Hi as <- <- <- <-.
      assert (i = length l) as -> by lia. exists d. split; [|done].
      apply list_lookup_insert_eq. unfold GDT_SIZE in *. lia.
Qed.

Lemma set_segment n s l base len f1 f2 :
  segments s l -> n = Z.of_nat (length l) -> n < GDT_SIZE ->
  0 <= base < 2 ^ 32 -> 0 <= len < 2 ^ 20 -> 0 <= f1 < 256 -> 0 <= f2 < 256 -> f2 mod 16 = 0 ->
  exists s', set_descriptor n base len f1 f2 s = Ok s' /\
    segments s' (l ++ [(base, len, f1, f2)]) /\ pic s' = pic s.
Proof.
  intros Hs -> Hlt Hb Hl H1 H2 H0.
  destruct (set_descriptor_run s (Z.of_nat (length l)) base len f1 f2) as (d & Hd & Hrun & _); try done.
  { apply Hs. }
  eexists. split; [exact Hrun|]. split; [by apply segments_add|done].
Qed.

Lemma add_segment n s l base len f1 f2 :
  segments s l -> n = Z.of_nat (length l) -> n < GDT_SIZE ->
  0 <= base < 2 ^ 32 -> 0 <= len < 2 ^ 20 -> 0 <= f1 < 256 -> 0 <= f2 < 256 -> f2 mod 16 = 0 ->
  exists s', add_descriptor base len f1 f2 s = Ok (8 * n, s') /\
    segments s' (l ++ [(base, len, f1, f2)]) /\ pic s' = pic s.
Proof.
  intros Hs -> Hlt Hb Hl H1 H2 H0.
  destruct (add_descriptor_run s (Z.of_nat (length l)) base len f1 f2) as (d & Hd & Hrun & _); try done.
  { apply Hs. }
  eexists. split; [exact Hrun|]. split; [by apply segments_add|done].
Qed.

Definition flat_segments : list (Z * Z * Z * Z) :=
  [(0, 0, 0, 0); (0, 0xfffff, 0x9a, 0xc0); (0, 0xfffff, 0x92, 0xc0);
   (0, 0xbffff, 0xfa, 0xc0); (0, 0xbffff, 0xf2, 0xc0)].

Definition apm_list (i : apm_info) : list (Z * Z * Z * Z) :=
  [(16 * ai_cseg i, ai_cseg_len i - 1, 0x9a, 0x40); (16 * ai_cseg_16 i, ai_cseg_16_len i - 1, 0x9a, 0);
   (16 * ai_dseg i, ai_dseg_len i - 1, 0x92, 0)].

(** The first five entries, whatever follows. *)
Lemma flat_run s (k : tables -> cres tables) :
  exists s', segments s' flat_segments /\ pic s' = pic s /\
    (s ← set_descriptor 0 0 0 0 0 (s <| gdt := replicate (Z.to_nat GDT_SIZE) zero_descriptor |> <| gdt_count := 0 |>);
     s ← set_descriptor 1 0 0xfffff 0x9a 0xc0 s;
     s ← set_descriptor 2 0 0xfffff 0x92 0xc0 s;
     s ← set_descriptor 3 0 0xbffff 0xfa 0xc0 s;
     s ← set_descriptor 4 0 0xbffff 0xf2 0xc0 s; k s) = k s'.
Proof.
  assert (segments (s <| gdt := replicate (Z.to_nat GDT_SIZE) zero_descriptor |> <| gdt_count := 0 |>) []) as S0
    by (split; [apply gdt_ok_start|done]).
  destruct (set_segment 0 _ _ 0 0 0 0 S0) as (s1 & R1 & S1 & P1); try by split.
  destruct (set_segment 1 _ _ 0 0xfffff 0x9a 0xc0 S1) as (s2 & R2 & S2 & P2); try by split.
  destruct (set_segment 2 _ _ 0 0xfffff 0x92 0xc0 S2) as (s3 & R3 & S3 & P3); try by split.
  destruct (set_segment 3 _ _ 0 0xbffff 0xfa 0xc0 S3) as (s4 & R4 & S4 & P4); try by split.
  destruct (set_segment 4 _ _ 0 0xbffff 0xf2 0xc0 S4) as (s5 & R5 & S5 & P5); try by split.
  exists s5. split; [exact S5|]. split; [by rewrite P5, P4, P3, P2, P1|].
  rewrite R1. cbn [mbind cres_bind]. rewrite R2. cbn [mbind cres_bind]. rewrite R3.
  cbn [mbind cres_bind]. rewrite R4. cbn [mbind cres_bind]. by rewrite R5.
Qed.

Lemma segment_last d base len f1 f2 :
  segment d base len f1 f2 ->
  seg_last d = base + if Z.testbit f2 7 then len * 4096 + 4095 else len.
Proof.
  intros [Hb Hl _ Hf]. unfold seg_last, seg_granular. rewrite Hb, Hl.
  assert (forall z, Z.testbit z 7 = Z.testbit (z / 16) 3) as Hbit.
  { intros z. change 16 with (2 ^ 4). by rewrite Z.div_pow2_bits by done. }
  by rewrite (Hbit (flags2 d)), Hf, <- Hbit.
Qed.

(** The task segment.  The structure arithmetic in its base cancels out, as
    104 * 0xC0000000 is a multiple of 2^32, so the base is the address of the
    structure; but the flag that counts the limit in pages makes the segment
    4096 times as long as the structure. *)
Lemma init_TSS_segment base_tss_addr esp s n :
  gdt_ok s n -> n < GDT_SIZE -> 0 <= base_tss_addr < 2 ^ 32 ->
  exists s' d, init_TSS base_tss_addr esp s = Ok s' /\ seg_tss s' = 8 * n /\ tr s' = 8 * n /\
    gdt s' !! Z.to_nat n = Some d /\ seg_base d = base_tss_addr /\
    seg_last d = base_tss_addr + 4096 * sizeof tss_t - 1.
Proof.
  intros Hok Hlt Hb. unfold init_TSS.
  assert (u32 (base_tss_addr - KERNEL_VIRT_BASE * sizeof tss_t) = base_tss_addr) as ->.
  { change (KERNEL_VIRT_BASE * sizeof tss_t) with (78 * 2 ^ 32). unfold wrap.
    replace (base_tss_addr - 78 * 2 ^ 32) with (base_tss_addr + (-78) * 2 ^ 32) by lia.
    rewrite Z.mod_add by done. by apply Z.mod_small. }
  destruct (add_descriptor_run (s <| tss_ss0 := KERNEL_DS |> <| tss_esp0 := esp |>) n base_tss_addr
    (sizeof tss_t - 1) TSS_F1_DEFAULT TSS_F2_DEFAULT) as (d & Hd & Hrun & _); [exact Hok|done|done|by split|by split|by split|done|].
  rewrite Hrun. cbn [mbind cres_bind fst snd].
  destruct Hok as (Hlen & _ & Hr). unfold GDT_SIZE in *. rewrite wrap_small by lia.
  match goal with |- context [Ok ?x = Ok _] => exists x, d end.
  split; [reflexivity|]. split; [reflexivity|]. split; [reflexivity|]. split_and!.
  - change (<[Z.to_nat n := d]> (gdt s) !! Z.to_nat n = Some d). apply list_lookup_insert_eq. lia.
  - apply Hd.
  - rewrite (segment_last _ _ _ _ _ Hd). change (Z.testbit TSS_F2_DEFAULT 7) with true.
    change (sizeof tss_t) with 104. lia.
Qed.

Lemma apm_run m mbi i s :
  apm_at m mbi i -> segments s flat_segments ->
  exists s', apm_entries m mbi s = Ok s' /\ segments s' (flat_segments ++ apm_list i) /\
    apm_call_ptr s' = [ai_offset i mod 2 ^ 16; ai_offset i / 2 ^ 16; 40] /\ pic s' = pic s.
Proof.
  intros (apm & Ha & H1 & H2 & H3 & H4 & H5 & H6 & H7 & R1 & R2 & R3 & R4 & R5 & R6 & R7) Hs.
  unfold apm_entries. rewrite Ha. cbn [mbind cres_bind].
  rewrite H1, H2. cbn [mbind cres_bind].
  destruct (add_segment 5 s _ (16 * ai_cseg i) (ai_cseg_len i - 1) 0x9a 0x40 Hs)
    as (s1 & A1 & S1 & P1); try done; try lia.
  rewrite Z.shiftl_mul_pow2, (Z.mul_comm _ (2 ^ 4)), (wrap_small 32 (ai_cseg_len i - 1)) by lia. change (2 ^ 4) with 16.
  rewrite A1. cbn [mbind cres_bind]. rewrite H3, H4. cbn [mbind cres_bind snd].
  destruct (add_segment 6 s1 _ (16 * ai_cseg_16 i) (ai_cseg_16_len i - 1) 0x9a 0 S1)
    as (s2 & A2 & S2 & P2); try done; try lia.
  rewrite (Z.shiftl_mul_pow2 (ai_cseg_16 i)), (Z.mul_comm _ (2 ^ 4)), (wrap_small 32 (ai_cseg_16_len i - 1)) by lia.
  change (2 ^ 4) with 16.
  rewrite A2. cbn [mbind cres_bind]. rewrite H5, H6. cbn [mbind cres_bind snd].
  destruct (add_segment 7 s2 _ (16 * ai_dseg i) (ai_dseg_len i - 1) 0x92 0 S2)
    as (s3 & A3 & S3 & P3); try done; try lia.
  rewrite (Z.shiftl_mul_pow2 (ai_dseg i)), (Z.mul_comm _ (2 ^ 4)), (wrap_small 32 (ai_dseg_len i - 1)) by lia.
  change (2 ^ 4) with 16.
  rewrite A3. cbn [mbind cres_bind]. rewrite H7. cbn [mbind cres_bind fst snd].
  destruct (split_word (ai_offset i) R7) as (-> & -> & _ & _).
  eexists. split; [done|]. split_and!; [exact S3|done|]. change (pic s3 = pic s). by rewrite P3, P2, P1.
Qed.

Definition gate_at (exc k dpl : Z) (e : idt_t) : Prop :=
  gate_offset e = exc + 16 * k /\ sel e = KERNEL_CS /\ always0 e = 0 /\
  Z.testbit (gate_flags e) 7 = true /\ gate_flags e mod 32 = 0x0E /\ privilege (gate_flags e) = dpl.

Lemma set_IDT_run exc k dpl fl s :
  0 <= k < Z.of_nat (length (idt s)) -> Forall (fun e => always0 e = 0) (idt s) ->
  0 <= exc + 16 * k < 2 ^ 32 ->
  (fl = IDTF_INT_GATE /\ dpl = 0) \/ (fl = Z.lor IDTF_INT_GATE (IDTF_DPL * 3) /\ dpl = 3) ->
  exists e, gate_at exc k dpl e /\
    set_IDT k (exc + k * 16) KERNEL_CS fl s = Ok (s <| idt := <[Z.to_nat k := e]> (idt s) |>).
Proof.
  intros Hk H0 Hr Hfl. rewrite (Z.mul_comm k). unfold set_IDT.
  destruct (lookup_lt_is_Some_2 (idt s) (Z.to_nat k)) as (e0 & He); [lia|].
  rewrite He, assign_ok by lia. cbn [mbind cres_bind]. eexists. split; [|done].
  rewrite (wrap_small 32 (exc + 16 * k)) by done.
  destruct (split_word _ Hr) as (-> & -> & E & _).
  rewrite Forall_lookup in H0. specialize (H0 _ _ He).
  unfold gate_at, gate_offset; cbn [off_lo off_hi sel always0 gate_flags]. rewrite H0.
  destruct Hfl as [[-> ->]|[-> ->]]; split_and!; try done; lia.
Qed.

Lemma always0_insert l (k : nat) exc j dpl e :
  gate_at exc j dpl e -> Forall (fun e => always0 e = 0) l ->
  Forall (fun e => always0 e = 0) (<[k := e]> l).
Proof. intros He Hl. apply Forall_insert; [done|apply He]. Qed.

Lemma set_gates_run exc n : forall start s,
  0 <= start -> start + Z.of_nat n <= Z.of_nat (length (idt s)) ->
  0 <= exc -> exc + 16 * (start + Z.of_nat n) <= 2 ^ 32 -> Forall (fun e => always0 e = 0) (idt s) ->
  exists l, set_gates exc start n s = Ok (s <| idt := l |>) /\ length l = length (idt s) /\
    Forall (fun e => always0 e = 0) l /\
    (forall k, start <= k < start + Z.of_nat n -> exists e, l !! Z.to_nat k = Some e /\ gate_at exc k 0 e) /\
    (forall k, 0 <= k < start -> l !! Z.to_nat k = idt s !! Z.to_nat k).
Proof.
  induction n as [|n IH]; intros start s Hs Hlen He Hr H0.
  - exists (idt s). split_and!; try done; [by destruct s|lia].
  - destruct (set_IDT_run exc start 0 IDTF_INT_GATE s) as (e & Hg & Hrun); [lia|done|lia|by left|].
    cbn [set_gates]. rewrite Hrun. cbn [mbind cres_bind].
    destruct (IH (start + 1) (s <| idt := <[Z.to_nat start := e]> (idt s) |>)) as (l & R & L & Z0 & G & K).
    + lia.
    + unfold upd; cbn [idt]. rewrite length_insert. lia.
    + done.
    + lia.
    + unfold upd; cbn [idt]. by eapply always0_insert.
    + exists l. rewrite R. unfold upd in L, K; cbn [idt] in L, K. rewrite length_insert in L.
      split_and!; try done.
      * intros k Hk. destruct (decide (k = start)) as [->|]; [|apply G; lia].
        exists e. split; [|done]. rewrite K by lia. apply list_lookup_insert_eq. lia.
      * intros k Hk. rewrite K by lia. apply list_lookup_insert_ne. lia.
Qed.

Lemma init_IDT_run idt_addr exc s :
  0 <= exc -> exc + 16 * IDT_SIZE <= 2 ^ 32 ->
  exists s', init_IDT idt_addr exc s = Ok s' /\
    gdt s' = gdt s /\ gdt_count s' = gdt_count s /\ apm_call_ptr s' = apm_call_ptr s /\ gdtr s' = gdtr s /\
    idtr s' = Some {| ptr_len := 2048; ptr_base := u32 idt_addr |} /\
    pic s' = pic s ++ [(0x20, 0x11); (0x21, IRQ_BASE); (0x21, 0x04); (0x21, 0x01);
                       (0xA0, 0x11); (0xA1, IRQ_BASE + 8); (0xA1, 0x02); (0xA1, 0x01)] /\
    forall k, 0 <= k < IDT_SIZE -> exists e, idt s' !! Z.to_nat k = Some e /\
      gate_at exc k (if k =? 0x80 then 3 else 0) e.
Proof.
  intros He Hr. unfold init_IDT, IDT_SIZE in *.
  set (s0 := s <| idt := replicate (Z.to_nat 256) zero_gate |>).
  assert (length (idt s0) = Z.to_nat 256) as Hlen by apply length_replicate.
  destruct (set_gates_run exc (Z.to_nat 256) 0 s0) as (l & R & L & Z0 & G & _); try lia.
  { by apply Forall_replicate. }
  rewrite R. clear R. cbn [mbind cres_bind].
  assert (exists s1, s1 = s0 <| idt := l |> /\ idt s1 = l /\ gdt s1 = gdt s /\ gdt_count s1 = gdt_count s /\
    apm_call_ptr s1 = apm_call_ptr s /\ gdtr s1 = gdtr s /\ pic s1 = pic s)
    as (s1 & <- & E1 & E2 & E3 & E4 & E5 & E6) by (eexists; by split_and!).
  assert (length (idt s1) = Z.to_nat 256) as Hl by congruence. rewrite <- E1 in Z0.
  destruct (set_IDT_run exc 0x80 3 (Z.lor IDTF_INT_GATE (IDTF_DPL * 3)) s1) as (e & Hg & ->);
    [rewrite Hl; lia|exact Z0|lia|by right|].
  cbn [mbind cres_bind]. rewrite E1.
  match goal with |- context [Ok ?x = Ok _] => exists x end. rewrite <- E2, <- E3, <- E4, <- E5, <- E6.
  do 7 (split; [reflexivity|]). intros k Hk.
  match goal with |- context [idt ?x !! _] => change (idt x) with (<[Z.to_nat 0x80 := e]> l) end.
  destruct (Z.eqb_spec k 0x80) as [->|Hne].
  - exists e. split; [|done]. apply list_lookup_insert_eq. rewrite L, Hlen. lia.
  - rewrite list_lookup_insert_ne by lia. apply G. lia.
Qed.

(** C39: the processor's tables say what they are meant to.  For every memory
    map handed over by the boot loader, initialising the segments and then the
    interrupt gates completes; the null, kernel and user segments and, with
    power management in the machine, its three segments decode to the intended
    bases, limits and flags, kernel segments covering all 4 GB and user
    segments ending below the kernel; the far pointer names the first of the
    power management segments; each of the 256 interrupt gates is a present
    interrupt gate to its own handler in the kernel's code segment, open to
    user code for vector 0x80 only; and the interrupt controllers map the 16
    hardware interrupts to the vectors from 0x20, behind the exceptions. *)
Theorem descriptor_tables gdt_addr idt_addr exc m mbi flags i s :
  get multiboot_info_t mbi "flags" m = Ok flags ->
  (CHECK_FLAG flags 10 = true -> apm_at m mbi i) ->
  0 <= exc -> exc + 16 * IDT_SIZE <= 2 ^ 32 ->
  exists s', (s ← init_GDT gdt_addr m mbi s; init_IDT idt_addr exc s) = Ok s' /\
    segments s' (flat_segments ++ if CHECK_FLAG flags 10 then apm_list i else []) /\
    (forall d, gdt s' !! Z.to_nat (KERNEL_CS / 8) = Some d \/ gdt s' !! Z.to_nat (KERNEL_DS / 8) = Some d ->
       seg_base d = 0 /\ seg_last d = 2 ^ 32 - 1 /\ privilege (flags1 d) = 0) /\
    (forall d, gdt s' !! Z.to_nat (USER_CS / 8) = Some d \/ gdt s' !! Z.to_nat (USER_DS / 8) = Some d ->
       seg_base d = 0 /\ seg_last d = KERNEL_VIRT_BASE - 1 /\ privilege (flags1 d) = 3) /\
    apm_call_ptr s' = (if CHECK_FLAG flags 10
                       then [ai_offset i mod 2 ^ 16; ai_offset i / 2 ^ 16; 40] else [0; 0; 0]) /\
    (forall k, 0 <= k < IDT_SIZE -> exists e, idt s' !! Z.to_nat k = Some e /\
       gate_at exc k (if k =? 0x80 then 3 else 0) e) /\
    gdtr s' = Some {| ptr_len := GDT_SIZE * 8; ptr_base := PHYS_MEM gdt_addr |} /\
    idtr s' = Some {| ptr_len := IDT_SIZE * 8; ptr_base := u32 idt_addr |} /\
    pic s' = pic s ++ [(0x20, 0x11); (0x21, 0x20); (0x21, 0x04); (0x21, 0x01);
                       (0xA0, 0x11); (0xA1, 0x28); (0xA1, 0x02); (0xA1, 0x01)].
Proof.
  intros Hf Hapm He Hr. unfold init_GDT.
  match goal with |- context [set_descriptor 4 _ _ _ _ _ ≫= ?k] => destruct (flat_run s k) as (s1 & S1 & P1 & ->) end.
  cbv beta.
  assert (exists s2, apm_segments m mbi s1 = Ok s2 /\
    segments s2 (flat_segments ++ if CHECK_FLAG flags 10 then apm_list i else []) /\
    apm_call_ptr s2 = (if CHECK_FLAG flags 10
      then [ai_offset i mod 2 ^ 16; ai_offset i / 2 ^ 16; 40] else [0; 0; 0]) /\ pic s2 = pic s1)
    as (s2 & R2 & S2 & A2 & P2).
  { unfold apm_segments. rewrite Hf. cbn [mbind cres_bind]. destruct (CHECK_FLAG flags 10).
    - by apply apm_run; [apply Hapm|].
    - eexists. split; [done|]. rewrite app_nil_r. by split_and!. }
  rewrite R2. cbn [mbind cres_bind].
  match goal with |- context [init_IDT idt_addr exc ?x] =>
    assert (exists s3, s3 = x /\ gdt s3 = gdt s2 /\ gdt_count s3 = gdt_count s2 /\ pic s3 = pic s2 /\
      apm_call_ptr s3 = apm_call_ptr s2 /\
      gdtr s3 = Some {| ptr_len := GDT_SIZE * 8; ptr_base := PHYS_MEM gdt_addr |})
      as (s3 & <- & E1 & E2 & E3 & E4 & E5) by (eexists; split_and!; reflexivity) end.
  destruct (init_IDT_run idt_addr exc s3 He Hr) as (s' & R & G1 & G2 & G3 & G4 & G5 & G6 & G7).
  exists s'. split; [exact R|]. clear R R2 Hf Hapm. rewrite E1 in G1. rewrite E2 in G2. rewrite E4 in G3. rewrite E5 in G4.
  rewrite E3 in G6.
  assert (segments s' (flat_segments ++ if CHECK_FLAG flags 10 then apm_list i else [])) as S3.
  { destruct S2 as [(L1 & L2 & L3) S2]. split; [unfold gdt_ok; rewrite G1, G2; exact (conj L1 (conj L2 L3))|].
    intros j. rewrite G1. apply S2. }
  split; [exact S3|]. destruct S3 as [_ S3].
  assert (forall k len f1 f2 d, flat_segments !! k = Some (0, len, f1, f2) -> gdt s' !! k = Some d ->
    segment d 0 len f1 f2) as Hseg.
  { intros k len f1 f2 d Hk Hd. destruct (S3 k 0 len f1 f2) as (d' & Hd' & Hs').
    - by apply lookup_app_l_Some.
    - congruence. }
  assert (forall k len f1 f2 d, flat_segments !! k = Some (0, len, f1, f2) -> gdt s' !! k = Some d ->
    seg_base d = 0 /\ seg_last d = (if Z.testbit f2 7 then len * 4096 + 4095 else len) /\
    privilege (flags1 d) = privilege f1) as Hdec.
  { intros k len f1 f2 d Hk Hd. pose proof (Hseg k len f1 f2 d Hk Hd) as Hs.
    rewrite (segment_last _ _ _ _ _ Hs), (sg_base _ _ _ _ _ Hs), (sg_f1 _ _ _ _ _ Hs). done. }
  split; [intros d [Hd|Hd]; [exact (Hdec 1%nat _ _ _ d eq_refl Hd)|exact (Hdec 2%nat _ _ _ d eq_refl Hd)]|].
  split; [intros d [Hd|Hd]; [exact (Hdec 3%nat _ _ _ d eq_refl Hd)|exact (Hdec 4%nat _ _ _ d eq_refl Hd)]|].
  split; [by rewrite G3|]. split; [exact G7|]. split; [exact G4|]. split; [exact G5|].
  rewrite G6, P2, P1. reflexivity.
Qed.

(** A machine with power management: its information at address 0x1000. *)
Definition pm_memory : mem :=
  <[0x1001 := 4]> (<[0x1044 := 0]> (<[0x1045 := 0x20]> (
  <[0x2002 := 0]> (<[0x2003 := 0xf0]> (<[0x2004 := 0x34]> (<[0x2005 := 0x12]> (
  <[0x200e := 0]> (<[0x200f := 0x10]> (<[0x2011 := 1]> (<[0x2013 := 1]> (blank 0x1000 (Z.to_nat 0x1100)))))))))))).
Definition pm_info : apm_info :=
  {| ai_cseg := 0xf000; ai_cseg_len := 0x1000; ai_cseg_16 := 0; ai_cseg_16_len := 0x100;
     ai_dseg := 0; ai_dseg_len := 0x100; ai_offset := 0x1234 |}.

Lemma descriptor_tables_witness :
  exists s', (s ← init_GDT 0xC0108000 pm_memory 0x1000 flat_tables; init_IDT 0xC0109000 0xC0110000 s) = Ok s' /\
    apm_call_ptr s' = [0x1234; 0; 40] /\
    exists e, idt s' !! 128%nat = Some e /\ gate_at 0xC0110000 0x80 3 e.
Proof.
  destruct (descriptor_tables 0xC0108000 0xC0109000 0xC0110000 pm_memory 0x1000 (Z.shiftl 1 10) pm_info flat_tables)
    as (s' & Hrun & _ & _ & _ & Hptr & Hgate & _).
  - vm_compute. reflexivity.
  - intros _. exists 0x2000. split_and!; vm_compute; (reflexivity || discriminate).
  - discriminate.
  - discriminate.
  - exists s'. split; [exact Hrun|]. split; [exact Hptr|]. apply (Hgate 0x80). split; [discriminate|reflexivity].
Defined.
