(* ===== verification/Posix.v ===== *)
(** * The system calls of the program loaders

    Opening, reading, mapping and unmapping files, as an interface: what the
    loaders call, and the documented behaviour they rely on.  The state of the
    system is abstract but for the address space of the process, a map from
    mapped addresses to bytes, and the contents and offsets of open files. *)

From S2P Require Import Prelude Memory.
Open Scope Z_scope.

Class Posix (os : Type) := {
  getpagesize : Z;
  (** Path and flags. *)
  open_ : text -> Z -> os -> Z * os;
  (** Descriptor and count; the result and the bytes delivered. *)
  read : Z -> Z -> os -> (Z * list Z) * os;
  lseek : Z -> Z -> os -> Z * os;
  close : Z -> os -> Z * os;
  (** Address, length, protection, flags, descriptor and offset. *)
  mmap : Z -> Z -> Z -> Z -> Z -> Z -> os -> Z * os;
  munmap : Z -> Z -> os -> Z * os;
  space : os -> mem;
  set_space : mem -> os -> os;
  contents : os -> Z -> option (list Z);
  offset : os -> Z -> Z
}.

Definition PROT_READ : Z := 1.
Definition PROT_WRITE : Z := 2.
Definition PROT_EXEC : Z := 4.
Definition MAP_SHARED : Z := 1.
Definition MAP_PRIVATE : Z := 2.
Definition MAP_FIXED : Z := 0x10.
Definition MAP_ANONYMOUS : Z := 0x20.
Definition MAP_FAILED : Z := 2 ^ 32 - 1.
Definition O_RDONLY : Z := 0.
Definition O_RDWR : Z := 2.

Section programs.
Context {os : Type} `{Posix os}.

Definition sys (A : Type) : Type := os -> cres (A * os).
#[export] Instance sys_ret : MRet sys := fun A a s => Ok (a, s).
#[export] Instance sys_bind : MBind sys := fun A B k p s =>
  match p s with Ok (a, s') => k a s' | Fault f => Fault f end.
Definition call {A} (f : os -> A * os) : sys A := fun s => Ok (f s).
Definition value {A} (c : cres A) : sys A := fun s => a ← c; Ok (a, s).
(** Stores of the program itself. *)
Definition stores (f : mem -> cres mem) : sys unit := fun s =>
  m ← f (space s); Ok (tt, set_space m s).
Definition loads {A} (f : mem -> cres A) : sys A := fun s => a ← f (space s); Ok (a, s).
Definition exit_ {A} : sys A := fun _ => Fault Aborted.

(** A length rounded up to whole pages. *)
Definition pages_up (len : Z) : Z := (len + getpagesize - 1) / getpagesize * getpagesize.

(** The space is unchanged outside [lo, hi). *)
Definition changes (m m' : mem) (lo hi : Z) : Prop := forall a, ~ (lo <= a < hi) -> m' !! a = m !! a.

(** The documented behaviour. *)
Class PosixLaws : Prop := {
  law_page : exists k, 0 < k < 20 /\ getpagesize = 2 ^ k;
  law_space : forall m s, space (set_space m s) = m;
  law_set_contents : forall m s fd, contents (set_space m s) fd = contents s fd;
  law_set_offset : forall m s fd, offset (set_space m s) fd = offset s fd;
  (** A read delivers what the file has from the offset on, up to the count. *)
  law_read : forall fd n s c, contents s fd = Some c -> 0 <= n -> 0 <= offset s fd ->
    let l := take (Z.to_nat n) (drop (Z.to_nat (offset s fd)) c) in
    exists s', read fd n s = ((Z.of_nat (length l), l), s') /\ space s' = space s /\
      (forall fd', contents s' fd' = contents s fd') /\ offset s' fd = offset s fd + Z.of_nat (length l);
  law_lseek : forall fd off s c, contents s fd = Some c -> 0 <= off ->
    exists s', lseek fd off s = (off, s') /\ space s' = space s /\
      (forall fd', contents s' fd' = contents s fd') /\ offset s' fd = off;
  law_close : forall fd s, exists r s', close fd s = (r, s') /\ space s' = space s;
  (** A fixed private mapping of a file shows its bytes, and zeros to the end
      of the file's last page. *)
  law_mmap_file : forall addr len prot fd off s c,
    contents s fd = Some c -> 0 <= addr -> addr mod getpagesize = 0 -> 0 < len ->
    0 <= off -> off mod getpagesize = 0 -> addr + pages_up len <= 2 ^ 32 ->
    off + pages_up len <= pages_up (Z.of_nat (length c)) ->
    exists s', mmap addr len prot (Z.lor MAP_PRIVATE MAP_FIXED) fd off s = (addr, s') /\
      (forall fd', contents s' fd' = contents s fd') /\
      changes (space s) (space s') addr (addr + pages_up len) /\
      forall i, 0 <= i < pages_up len -> space s' !! (addr + i) = Some (default 0 (c !! Z.to_nat (off + i)));
  (** A fixed anonymous mapping shows zeros. *)
  law_mmap_anonymous : forall addr len prot s,
    0 <= addr -> addr mod getpagesize = 0 -> 0 < len -> addr + pages_up len <= 2 ^ 32 ->
    exists s', mmap addr len prot (Z.lor (Z.lor MAP_PRIVATE MAP_FIXED) MAP_ANONYMOUS) 0 0 s = (addr, s') /\
      (forall fd', contents s' fd' = contents s fd') /\
      changes (space s) (space s') addr (addr + pages_up len) /\
      forall i, 0 <= i < pages_up len -> space s' !! (addr + i) = Some 0;
  (** Unmapping removes whole pages; without a length it fails. *)
  law_munmap : forall addr len s,
    0 <= addr -> addr mod getpagesize = 0 -> 0 < len -> addr + pages_up len <= 2 ^ 32 ->
    exists s', munmap addr len s = (0, s') /\ changes (space s) (space s') addr (addr + pages_up len) /\
      forall a, addr <= a < addr + pages_up len -> space s' !! a = None;
  law_munmap_nothing : forall addr s, exists s', munmap addr 0 s = (-1, s') /\ space s' = space s
}.
End programs.

(** ** A system with one file

    Every path names it; its descriptor is 3 and pages have 4096 bytes. *)

Record one_file := { of_space : mem; of_bytes : list Z; of_offset : Z }.

Fixpoint put_bytes (l : list Z) (a : Z) (m : mem) : mem :=
  match l with [] => m | b :: l' => <[a := b]> (put_bytes l' (a + 1) m) end.

Definition bytes_from (c : list Z) (off : Z) (n : nat) : list Z :=
  (fun i => default 0 (c !! Z.to_nat (off + Z.of_nat i))) <$> seq 0 n.

Lemma put_bytes_in l : forall a m i, 0 <= i < Z.of_nat (length l) ->
  put_bytes l a m !! (a + i) = l !! Z.to_nat i.
Proof.
  induction l as [|b l IH]; intros a m i Hi; [cbn in Hi; lia|]. cbn [put_bytes].
  destruct (decide (i = 0)) as [->|Hne].
  - rewrite Z.add_0_r. apply lookup_insert_eq.
  - rewrite lookup_insert_ne by lia. replace (a + i) with (a + 1 + (i - 1)) by lia.
    cbn [length] in Hi. rewrite IH by lia. replace (Z.to_nat i) with (S (Z.to_nat (i - 1))) by lia. done.
Qed.

Lemma put_bytes_out l : forall a m x, ~ (a <= x < a + Z.of_nat (length l)) ->
  put_bytes l a m !! x = m !! x.
Proof.
  induction l as [|b l IH]; intros a m x Hx; [done|]. cbn [put_bytes length] in *.
  rewrite lookup_insert_ne by lia. apply IH. lia.
Qed.

Definition up4096 (len : Z) : Z := (len + 4096 - 1) / 4096 * 4096.

#[export] Instance one_file_posix : Posix one_file := {
  getpagesize := 4096;
  open_ _ _ s := (3, {| of_space := of_space s; of_bytes := of_bytes s; of_offset := 0 |});
  read fd n s :=
    let l := take (Z.to_nat n) (drop (Z.to_nat (of_offset s)) (of_bytes s)) in
    ((Z.of_nat (length l), l),
     {| of_space := of_space s; of_bytes := of_bytes s; of_offset := of_offset s + Z.of_nat (length l) |});
  lseek fd off s := (off, {| of_space := of_space s; of_bytes := of_bytes s; of_offset := off |});
  close _ s := (0, s);
  mmap addr len _ flags _ off s :=
    let bytes := if Z.testbit flags 5 then replicate (Z.to_nat (up4096 len)) 0
                 else bytes_from (of_bytes s) off (Z.to_nat (up4096 len)) in
    (addr, {| of_space := put_bytes bytes addr (of_space s); of_bytes := of_bytes s; of_offset := of_offset s |});
  munmap addr len s :=
    if len =? 0 then (-1, s)
    else (0, {| of_space := filter (fun kv => ~ (addr <= kv.1 < addr + up4096 len)) (of_space s);
                of_bytes := of_bytes s; of_offset := of_offset s |});
  space := of_space;
  set_space m s := {| of_space := m; of_bytes := of_bytes s; of_offset := of_offset s |};
  contents s fd := if fd =? 3 then Some (of_bytes s) else None;
  offset s _ := of_offset s
}.

#[export] Instance one_file_laws : PosixLaws (os := one_file).
Proof.
  split.
  - exists 12. split; [lia|done].
  - done.
  - done.
  - done.
  - intros fd n s c Hc Hn Ho. cbn in Hc. destruct (fd =? 3); [|done]. injection Hc as <-.
    eexists. by split_and!.
  - intros fd off s c Hc Ho. eexists. by split_and!.
  - intros fd s. by eexists _, _.
  - intros addr len prot fd off s c Hc Ha Ham Hl Ho Hom Htop Hfile.
    cbn in Hc. destruct (fd =? 3); [|done]. injection Hc as <-.
    eexists. split; [done|]. split; [done|].
    change (pages_up len) with (up4096 len) in *. cbn [space one_file_posix of_space of_bytes].
    assert (0 <= up4096 len) by (unfold up4096; pose proof (Z.div_pos (len + 4096 - 1) 4096); lia).
    change (Z.testbit (Z.lor MAP_PRIVATE MAP_FIXED) 5) with false. cbv iota.
    assert (Z.of_nat (length (bytes_from (of_bytes s) off (Z.to_nat (up4096 len)))) = up4096 len) as Hlen.
    { unfold bytes_from. rewrite length_fmap, length_seq. lia. }
    split.
    + intros a Hx. apply put_bytes_out. by rewrite Hlen.
    + intros i Hi. rewrite put_bytes_in by (by rewrite Hlen).
      unfold bytes_from. rewrite list_lookup_fmap, lookup_seq_lt by lia. cbn. do 3 f_equal. lia.
  - intros addr len prot s Ha Ham Hl Htop. eexists. split; [done|]. split; [done|].
    change (pages_up len) with (up4096 len) in *. cbn [space one_file_posix of_space of_bytes].
    assert (0 <= up4096 len) by (unfold up4096; pose proof (Z.div_pos (len + 4096 - 1) 4096); lia).
    change (Z.testbit (Z.lor (Z.lor MAP_PRIVATE MAP_FIXED) MAP_ANONYMOUS) 5) with true. cbv iota.
    split.
    + intros a Hx. apply put_bytes_out. rewrite length_replicate. lia.
    + intros i Hi. rewrite put_bytes_in by (rewrite length_replicate; lia).
      apply lookup_replicate_2. lia.
  - intros addr len s Ha Ham Hl Htop. cbn [munmap one_file_posix].
    rewrite (proj2 (Z.eqb_neq len 0)) by lia. eexists. split; [done|].
    change (pages_up len) with (up4096 len) in *. cbn [space one_file_posix of_space]. split.
    + intros a Hx. rewrite map_lookup_filter. destruct (of_space s !! a) as [b|]; [|done]. cbn.
      by rewrite option_guard_True.
    + intros a Hx. rewrite map_lookup_filter. destruct (of_space s !! a) as [b|]; [|done]. cbn.
      rewrite option_guard_False; [done|]. cbn. tauto.
  - intros addr s. by eexists.
Qed.
