(* ===== verification/ElfLoader.v ===== *)
(** * Loading a program: [static_loader.c]

    The segments of a statically linked ELF file are mapped at their
    addresses; what a segment has in memory beyond its bytes in the file is
    cleared, at the end of its last page of the file and in further pages. *)

From S2P Require Import Prelude Memory Multiboot MemFuncs Posix.
Open Scope Z_scope.

Open Scope string_scope.
(** The headers of [linux/elf.h] that the loader uses. *)
Definition Elf32_Ehdr : struct :=
  [("e_mag0", 1); ("e_mag1", 1); ("e_mag2", 1); ("e_mag3", 1); ("e_ident", 12); ("e_type", 2);
   ("e_machine", 2); ("e_version", 4); ("e_entry", 4); ("e_phoff", 4); ("e_shoff", 4); ("e_flags", 4);
   ("e_ehsize", 2); ("e_phentsize", 2); ("e_phnum", 2); ("e_shentsize", 2); ("e_shnum", 2);
   ("e_shstrndx", 2)]%nat.
Definition Elf32_Phdr : struct :=
  [("p_type", 4); ("p_offset", 4); ("p_vaddr", 4); ("p_paddr", 4); ("p_filesz", 4); ("p_memsz", 4);
   ("p_flags", 4); ("p_align", 4)]%nat.
Close Scope string_scope.

Definition PT_LOAD : Z := 1.
Definition PT_INTERP : Z := 3.
Definition PF_X : Z := 1.
Definition PF_W : Z := 2.
Definition PF_R : Z := 4.
Definition BUFSIZE : Z := 512.

(** A little-endian number in a buffer. *)
Fixpoint number_at (w : nat) (b : list Z) : cres Z :=
  match w, b with
  | O, _ => Ok 0
  | S w', x :: b' => r ← number_at w' b'; Ok (x + 256 * r)
  | S _, [] => Fault OutOfBounds
  end.

(** [((t* )(buf + p))->f] *)
Definition in_buf (t : struct) (buf : list Z) (p : Z) (f : string) : cres Z :=
  match field_of t f with
  | Some (o, w) => number_at w (drop (Z.to_nat (p + o)) buf)
  | None => Fault OutOfBounds
  end.

Record phdr := { p_type : Z; p_offset : Z; p_vaddr : Z; p_filesz : Z; p_memsz : Z; p_flags : Z }.

(** The fields of the header at [p] of the buffer. *)
Definition phdr_at (buf : list Z) (p : Z) : cres phdr :=
  ty ← in_buf Elf32_Phdr buf p "p_type";
  off ← in_buf Elf32_Phdr buf p "p_offset";
  va ← in_buf Elf32_Phdr buf p "p_vaddr";
  fs ← in_buf Elf32_Phdr buf p "p_filesz";
  ms ← in_buf Elf32_Phdr buf p "p_memsz";
  fl ← in_buf Elf32_Phdr buf p "p_flags";
  Ok {| p_type := ty; p_offset := off; p_vaddr := va; p_filesz := fs; p_memsz := ms; p_flags := fl |}.

Section loader.
Context {os : Type} `{Posix os}.

(** The contents of local arrays before they are written. *)
Context (junk : list Z).

Definition protection (p : phdr) : Z :=
  let flags := if Z.land (p_flags p) PF_R =? 0 then 0 else PROT_READ in
  let flags := if Z.land (p_flags p) PF_W =? 0 then flags else Z.lor flags PROT_WRITE in
  if Z.land (p_flags p) PF_X =? 0 then flags else Z.lor flags PROT_EXEC.

Definition load_segment (fd : Z) (p : phdr) : sys unit :=
  let pagesize := getpagesize in
  _ ← call (mmap (land_not 32 (p_vaddr p) (pagesize - 1))
        (u32 (p_filesz p + Z.land (p_offset p) (pagesize - 1)))
        (protection p) (Z.lor MAP_PRIVATE MAP_FIXED) fd (land_not 32 (p_offset p) (pagesize - 1)));
  _ ← (if p_filesz p =? p_memsz p then mret tt else
         let addr := u32 (p_vaddr p + p_filesz p) in
         let size := pagesize - Z.land (u32 (p_vaddr p + p_filesz p)) (pagesize - 1) in
         stores (set_loop (Z.to_nat size) addr 0));
  if p_filesz p / pagesize =? p_memsz p / pagesize then mret tt else
    let addr := u32 ((u32 (p_vaddr p + p_filesz p) / pagesize + 1) * pagesize) in
    let size := u32 (u32 (p_memsz p - p_filesz p + pagesize - 1) / pagesize * pagesize) in
    _ ← call (mmap addr size (protection p) (Z.lor (Z.lor MAP_PRIVATE MAP_FIXED) MAP_ANONYMOUS) 0 0);
    mret tt.

(** The loop over the program headers; the result is that of the function. *)
Fixpoint load_loop (fd psize : Z) (buf : list Z) (n : nat) (off : Z) : sys Z :=
  match n with
  | O => mret 1
  | S n' =>
    p ← value (phdr_at buf off);
    if p_type p =? PT_INTERP then mret 0
    else if p_type p =? PT_LOAD then
      _ ← load_segment fd p; load_loop fd psize buf n' (off + psize)
    else load_loop fd psize buf n' (off + psize)
  end.

Definition load_sections (fd psize pnum poff : Z) : sys Z :=
  r ← call (lseek fd poff);
  if r <? 0 then mret 0 else
  r ← call (read fd (psize * pnum));
  if r.1 <? 1 then mret 0 else
  let buf := take (Z.to_nat (pnum * psize + 1)) (r.2 ++ drop (length r.2) junk) in
  load_loop fd psize buf (Z.to_nat pnum) 0.

Definition load_elf (arg : text) : sys Z :=
  fd ← call (open_ arg O_RDONLY);
  if fd <? 0 then mret 0 else
  r ← call (read fd 52);
  if r.1 <? 52 then mret 0 else
  let buf := take (Z.to_nat BUFSIZE) (r.2 ++ drop (length r.2) junk) in
  m0 ← value (in_buf Elf32_Ehdr buf 0 "e_mag0"); m1 ← value (in_buf Elf32_Ehdr buf 0 "e_mag1");
  m2 ← value (in_buf Elf32_Ehdr buf 0 "e_mag2"); m3 ← value (in_buf Elf32_Ehdr buf 0 "e_mag3");
  if negb ((m0 =? 0x7f) && (m1 =? 0x45) && (m2 =? 0x4c) && (m3 =? 0x46)) then mret 0 else
  psize ← value (in_buf Elf32_Ehdr buf 0 "e_phentsize");
  pnum ← value (in_buf Elf32_Ehdr buf 0 "e_phnum");
  poff ← value (in_buf Elf32_Ehdr buf 0 "e_phoff");
  ok ← load_sections fd psize pnum (i32 poff);
  if ok =? 0 then mret 0 else
  _ ← call (close fd);
  entry ← value (in_buf Elf32_Ehdr buf 0 "e_entry");
  mret (i32 entry).

(** What [go_to_start] is given. *)
Record start := { st_argc : Z; st_argv : list text; st_envc : Z; st_envp : list text; st_entry : Z }.

Definition load_static (argc : Z) (argv : list text) (envc : Z) (envp : list text) : sys start :=
  if argc <? 2 then exit_ else
  arg ← value (match argv !! 1%nat with Some a => Ok a | None => Fault OutOfBounds end);
  entry ← load_elf arg;
  if u32 entry =? 0 then exit_ else
  mret {| st_argc := argc - 1; st_argv := drop 1 argv; st_envc := envc; st_envp := envp;
          st_entry := u32 entry |}.
End loader.
