(* ===== verification/ElfLoad.v ===== *)
(** * What the loader maps

    Every loadable segment of a well-formed file appears at its address: the
    bytes of the file, then zeros. *)

From S2P Require Import Prelude Memory Multiboot MemFuncs Posix ElfLoader.
Open Scope Z_scope.

(** ** Pages *)

Section pages.
Context {os : Type} {P : Posix os} {PL : PosixLaws}.
#[local] Abbreviation PS := (@getpagesize os P).
#[local] Abbreviation pages_up := (@pages_up os P).

Definition page_floor (a : Z) : Z := a / PS * PS.

Lemma page_pos : 1 < PS < 2 ^ 20.
Proof.
  destruct law_page as (k & Hk & ->). split.
  - apply (Z.pow_lt_mono_r 2 0 k); lia.
  - apply Z.pow_lt_mono_r; lia.
Qed.

Lemma page_mask a : Z.land a (PS - 1) = a mod PS.
Proof. destruct law_page as (k & Hk & ->). apply land_mask. lia. Qed.

Lemma page_clear a : 0 <= a < 2 ^ 32 -> land_not 32 a (PS - 1) = page_floor a.
Proof.
  intros Ha. unfold land_not, page_floor. pose proof page_pos.
  assert (2 ^ 20 < 2 ^ 32) by done. rewrite lxor_ones by lia.
  destruct law_page as (k & Hk & E). rewrite E.
  replace (2 ^ 32 - 1 - (2 ^ k - 1)) with (2 ^ 32 - 2 ^ k) by lia.
  rewrite land_high_mask by lia. pose proof (Z.div_mod a (2 ^ k) ltac:(lia)). lia.
Qed.

Lemma floor_eq a : page_floor a = a - a mod PS.
Proof. pose proof page_pos. unfold page_floor. pose proof (Z.div_mod a PS ltac:(lia)). lia. Qed.

Lemma floor_mod a : page_floor a mod PS = 0.
Proof. pose proof page_pos. unfold page_floor. apply Z.mod_mul. lia. Qed.

Lemma up_bounds n : n <= pages_up n < n + PS.
Proof.
  pose proof page_pos. unfold pages_up.
  pose proof (Z.div_mod (n + PS - 1) PS ltac:(lia)).
  pose proof (Z.mod_pos_bound (n + PS - 1) PS ltac:(lia)). lia.
Qed.

Lemma up_mod n : pages_up n mod PS = 0.
Proof. pose proof page_pos. unfold pages_up. apply Z.mod_mul. lia. Qed.

Lemma up_shift a n : a mod PS = 0 -> a + pages_up n = pages_up (a + n).
Proof.
  intros Ha. pose proof page_pos. unfold pages_up.
  pose proof (Z.div_mod a PS ltac:(lia)) as E. rewrite Ha in E.
  set (q := a / PS) in *.
  replace (a + n + PS - 1) with (n + PS - 1 + q * PS) by lia.
  rewrite Z.div_add by lia. lia.
Qed.

Lemma up_aligned n : n mod PS = 0 -> pages_up n = n.
Proof.
  intros Hn. pose proof page_pos. replace n with (n + 0) at 1 by lia. rewrite <- up_shift by done.
  unfold Posix.pages_up. rewrite Z.div_small by lia. lia.
Qed.

Lemma up_mono a b : a <= b -> pages_up a <= pages_up b.
Proof.
  intros Hab. pose proof page_pos. unfold pages_up. apply Z.mul_le_mono_nonneg_r; [lia|].
  apply Z.div_le_mono; lia.
Qed.

(** Above an address within a page, the next page is where rounding up goes. *)
Lemma up_next a : a mod PS <> 0 -> pages_up a = (a / PS + 1) * PS.
Proof.
  intros Ha. pose proof page_pos. pose proof (Z.div_mod a PS ltac:(lia)).
  pose proof (Z.mod_pos_bound a PS ltac:(lia)). unfold pages_up. f_equal.
  symmetry. apply (Z.div_unique _ _ _ (a mod PS - 1)); [lia|].
  lia.
Qed.
End pages.

Section loading.
Context {os : Type} {P : Posix os} {PL : PosixLaws}.
#[local] Abbreviation PS := (@getpagesize os P).
#[local] Abbreviation pages_up := (@pages_up os P).
#[local] Abbreviation page_floor := (@page_floor os P).

(** The page after the bytes of the file. *)
Definition file_end (p : phdr) : Z := pages_up (p_vaddr p + p_filesz p).
(** The addresses that loading the segment may change. *)
Definition seg_lo (p : phdr) : Z := page_floor (p_vaddr p).
Definition seg_hi (p : phdr) : Z :=
  if p_filesz p / PS =? p_memsz p / PS then file_end p
  else file_end p + pages_up (p_memsz p - p_filesz p).

(** A segment of a file with contents [c]: address and offset agree within the
    page, the file has the bytes; if there is more in memory, the bytes do not
    end at a page boundary.  Legal segments that do are left out: for them the
    loader clears a page that is not mapped. *)
Record segment_base (c : list Z) (p : phdr) : Prop := {
  so_vaddr : 0 <= p_vaddr p;
  so_offset : 0 <= p_offset p;
  so_filesz : 0 <= p_filesz p <= p_memsz p;
  so_top : p_vaddr p + p_memsz p + 2 * PS <= 2 ^ 32;
  so_page : p_vaddr p mod PS = p_offset p mod PS;
  so_file : p_offset p + p_filesz p <= Z.of_nat (length c) < 2 ^ 31;
  so_bytes : 0 < p_filesz p + p_offset p mod PS;
  so_tail : p_filesz p <> p_memsz p -> (p_vaddr p + p_filesz p) mod PS <> 0
}.

(** Unless the sizes differ in whole pages, it ends on the last page that has
    bytes of the file. *)
Definition segment_fits (p : phdr) : Prop :=
  p_filesz p / PS = p_memsz p / PS -> p_vaddr p + p_memsz p <= file_end p.

(** The space shows the segment. *)
Definition shows_segment (c : list Z) (p : phdr) (m : mem) : Prop :=
  (forall i, 0 <= i < p_filesz p -> m !! (p_vaddr p + i) = c !! Z.to_nat (p_offset p + i)) /\
  (forall i, p_filesz p <= i < p_memsz p -> m !! (p_vaddr p + i) = Some 0).
(** The same on the pages that the loader gives it *)
Definition shows_loaded (c : list Z) (p : phdr) (m : mem) : Prop :=
  (forall i, 0 <= i < p_filesz p -> m !! (p_vaddr p + i) = c !! Z.to_nat (p_offset p + i)) /\
  (forall i, p_filesz p <= i < p_memsz p -> p_vaddr p + i < seg_hi p -> m !! (p_vaddr p + i) = Some 0).

Lemma file_part c p :
  segment_base c p ->
  seg_lo p + pages_up (p_filesz p + p_offset p mod PS) = file_end p /\
  page_floor (p_offset p) + pages_up (p_filesz p + p_offset p mod PS) =
    pages_up (p_offset p + p_filesz p).
Proof.
  intros Hp. pose proof (so_page _ _ Hp) as E. unfold seg_lo, file_end.
  rewrite !up_shift by apply floor_mod. rewrite !floor_eq. split; f_equal; lia.
Qed.

(** Mapping the bytes of the file. *)
Lemma map_file fd c p s :
  segment_base c p -> contents s fd = Some c ->
  exists s', mmap (land_not 32 (p_vaddr p) (PS - 1))
      (u32 (p_filesz p + Z.land (p_offset p) (PS - 1))) (protection p)
      (Z.lor MAP_PRIVATE MAP_FIXED) fd (land_not 32 (p_offset p) (PS - 1)) s = (seg_lo p, s') /\
    (forall fd', contents s' fd' = contents s fd') /\
    changes (space s) (space s') (seg_lo p) (file_end p) /\
    forall a, seg_lo p <= a < file_end p ->
      space s' !! a = Some (default 0 (c !! Z.to_nat (p_offset p + (a - p_vaddr p)))).
Proof.
  intros Hp Hc. pose proof page_pos. destruct (file_part c p Hp) as [E1 E2]. destruct Hp.
  pose proof (Z.mod_pos_bound (p_offset p) PS ltac:(lia)).
  pose proof (Z.mod_pos_bound (p_vaddr p) PS ltac:(lia)).
  pose proof (Z.mod_le (p_vaddr p) PS ltac:(lia) ltac:(lia)).
  pose proof (Z.mod_le (p_offset p) PS ltac:(lia) ltac:(lia)).
  pose proof (up_bounds (p_vaddr p + p_filesz p)).
  pose proof (up_mono (p_offset p + p_filesz p) (Z.of_nat (length c)) ltac:(lia)).
  rewrite !page_clear, page_mask, wrap_small by lia.
  destruct (law_mmap_file (seg_lo p) (p_filesz p + p_offset p mod PS) (protection p) fd
    (page_floor (p_offset p)) s c) as (s' & R & Hc' & Hch & Hb); try done.
  - unfold seg_lo. rewrite floor_eq. lia.
  - apply floor_mod.
  - rewrite floor_eq. lia.
  - apply floor_mod.
  - rewrite E1. unfold file_end. lia.
  - by rewrite E2.
  - exists s'. split; [exact R|]. split; [done|]. rewrite E1 in Hch. split; [done|].
    intros a Ha. specialize (Hb (a - seg_lo p)).
    replace (seg_lo p + (a - seg_lo p)) with a in Hb by lia. rewrite Hb by lia. do 4 f_equal.
    unfold seg_lo. rewrite !floor_eq. lia.
Qed.

Lemma changes_refl m lo hi : changes m m lo hi.
Proof. done. Qed.

Lemma changes_trans m1 m2 m3 a b lo hi :
  changes m1 m2 lo hi -> changes m2 m3 a b -> lo <= a -> b <= hi -> changes m1 m3 lo hi.
Proof. intros H1 H2 ?? x Hx. rewrite H2 by lia. by apply H1. Qed.

Lemma changes_mono m m' a b lo hi : changes m m' a b -> lo <= a -> b <= hi -> changes m m' lo hi.
Proof. intros H ?? x Hx. apply H. lia. Qed.

(** Clearing the rest of the last page of the file. *)
Definition clear_tail (p : phdr) : sys unit :=
  if p_filesz p =? p_memsz p then mret tt else
    let addr := u32 (p_vaddr p + p_filesz p) in
    let size := PS - Z.land (u32 (p_vaddr p + p_filesz p)) (PS - 1) in
    stores (set_loop (Z.to_nat size) addr 0).

Lemma clear_tail_run c p s :
  segment_base c p -> mapped (space s) (seg_lo p) (file_end p) ->
  exists s', clear_tail p s = Ok (tt, s') /\
    (forall fd, contents s' fd = contents s fd) /\
    (p_filesz p = p_memsz p -> space s' = space s) /\
    changes (space s) (space s') (p_vaddr p + p_filesz p) (file_end p) /\
    (p_filesz p <> p_memsz p -> forall a, p_vaddr p + p_filesz p <= a < file_end p -> space s' !! a = Some 0).
Proof.
  intros Hp Hm. pose proof page_pos. destruct Hp. unfold clear_tail.
  destruct (Z.eqb_spec (p_filesz p) (p_memsz p)) as [Heq|Hne].
  { exists s. split_and!; try done. }
  specialize (so_tail0 Hne). rewrite wrap_small, page_mask by lia.
  set (e := p_vaddr p + p_filesz p) in *.
  pose proof (Z.mod_pos_bound e PS ltac:(lia)). pose proof (Z.mod_le (p_vaddr p) PS ltac:(lia) ltac:(lia)).
  assert (e + (PS - e mod PS) = file_end p) as Ee.
  { unfold file_end. fold e. rewrite up_next by done. pose proof (Z.div_mod e PS ltac:(lia)). lia. }
  destruct (set_loop_spec (Z.to_nat (PS - e mod PS)) e 0 (space s)) as (m & R & Hch & Hz).
  { rewrite Z2Nat.id, Ee by lia. eapply mapped_mono; [exact Hm| |lia]. unfold seg_lo. rewrite floor_eq.
    pose proof (Z.mod_pos_bound (p_vaddr p) PS ltac:(lia)). lia. }
  rewrite Z2Nat.id in Hch, Hz by lia. rewrite Ee in Hch.
  exists (set_space m s). unfold stores. rewrite R. cbn [mbind cres_bind].
  split; [done|]. split; [intros; apply law_set_contents|]. rewrite law_space.
  split; [done|]. split; [exact (proj2 Hch)|]. intros _ a Ha.
  replace a with (e + (a - e)) by lia. by rewrite Hz by lia.
Qed.

Definition map_rest (p : phdr) : sys unit :=
  if p_filesz p / PS =? p_memsz p / PS then mret tt else
    let addr := u32 ((u32 (p_vaddr p + p_filesz p) / PS + 1) * PS) in
    let size := u32 (u32 (p_memsz p - p_filesz p + PS - 1) / PS * PS) in
    _ ← call (mmap addr size (protection p) (Z.lor (Z.lor MAP_PRIVATE MAP_FIXED) MAP_ANONYMOUS) 0 0);
    mret tt.

Lemma map_rest_run c p s :
  segment_base c p ->
  exists s', map_rest p s = Ok (tt, s') /\
    (forall fd, contents s' fd = contents s fd) /\
    changes (space s) (space s') (file_end p) (seg_hi p) /\
    (segment_fits p -> forall a, file_end p <= a < p_vaddr p + p_memsz p -> space s' !! a = Some 0).
Proof.
  intros Hp. pose proof page_pos. destruct Hp. unfold map_rest, seg_hi.
  destruct (Z.eqb_spec (p_filesz p / PS) (p_memsz p / PS)) as [Heq|Hne].
  { exists s. split_and!; try done. intros Hf a Ha. specialize (Hf Heq). lia. }
  assert (p_filesz p <> p_memsz p) as Hne' by congruence. specialize (so_tail0 Hne').
  pose proof (up_bounds (p_memsz p - p_filesz p)). pose proof (up_bounds (p_vaddr p + p_filesz p)) as Hup.
  fold (file_end p) in Hup.
  rewrite (wrap_small 32 (p_vaddr p + p_filesz p)), <- up_next by (done || lia). fold (file_end p).
  rewrite (wrap_small 32 (_ - 1)) by lia. fold (pages_up (p_memsz p - p_filesz p)).
  rewrite !wrap_small by lia.
  destruct (law_mmap_anonymous (file_end p) (pages_up (p_memsz p - p_filesz p)) (protection p) s)
    as (s' & R & Hc & Hch & Hz); rewrite ?(up_aligned (pages_up _)) by apply up_mod;
    try apply up_mod; try lia.
  rewrite (up_aligned (pages_up _)) in Hch, Hz by apply up_mod.
  unfold call, mbind, sys_bind, mret, sys_ret. rewrite R. exists s'. split_and!; try done.
  intros _ a Ha. replace a with (file_end p + (a - file_end p)) by lia. apply Hz. lia.
Qed.

Lemma load_segment_parts fd p :
  load_segment fd p =
  (_ ← call (mmap (land_not 32 (p_vaddr p) (PS - 1))
        (u32 (p_filesz p + Z.land (p_offset p) (PS - 1)))
        (protection p) (Z.lor MAP_PRIVATE MAP_FIXED) fd (land_not 32 (p_offset p) (PS - 1)));
   _ ← clear_tail p; map_rest p).
Proof. done. Qed.

(** One segment: it is shown, and only its pages change. *)
Lemma load_segment_run fd c p s :
  segment_base c p -> contents s fd = Some c ->
  exists s', load_segment fd p s = Ok (tt, s') /\
    (forall fd', contents s' fd' = contents s fd') /\
    changes (space s) (space s') (seg_lo p) (seg_hi p) /\
    shows_loaded c p (space s').
Proof.
  intros Hp Hc. pose proof page_pos. rewrite load_segment_parts.
  destruct (map_file fd c p s Hp Hc) as (s1 & R1 & C1 & H1 & B1).
  destruct (clear_tail_run c p s1 Hp) as (s2 & R2 & C2 & E2 & H2 & B2).
  { intros a Ha. rewrite B1 by done. by eexists. }
  destruct (map_rest_run c p s2 Hp) as (s3 & R3 & C3 & H3 & B3).
  pose proof (up_bounds (p_vaddr p + p_filesz p)) as Hup. fold (file_end p) in Hup.
  pose proof (up_bounds (p_memsz p - p_filesz p)).
  assert (file_end p <= seg_hi p) as Hhi.
  { unfold seg_hi. pose proof (so_filesz _ _ Hp). destruct (_ =? _); lia. }
  assert (seg_lo p <= p_vaddr p) as Hlo.
  { unfold seg_lo. rewrite floor_eq. pose proof (Z.mod_pos_bound (p_vaddr p) PS ltac:(lia)). lia. }
  exists s3. split; [unfold call, mbind, sys_bind; by rewrite R1, R2, R3|].
  pose proof (so_filesz _ _ Hp). pose proof (so_vaddr _ _ Hp). pose proof (so_offset _ _ Hp).
  split; [intros; by rewrite C3, C2, C1|]. split.
  - eapply changes_trans; [eapply changes_trans; [eapply changes_mono; [exact H1|lia|lia]|exact H2|lia|lia]
      |exact H3|lia|lia].
  - split; intros i Hi; [|intros Hin].
    + rewrite H3, H2, B1 by lia. replace (p_offset p + (p_vaddr p + i - p_vaddr p)) with (p_offset p + i) by lia.
      destruct (lookup_lt_is_Some_2 c (Z.to_nat (p_offset p + i))) as [x Hx]; [|by rewrite Hx].
      pose proof (so_file _ _ Hp). lia.
    + destruct (decide (p_vaddr p + i < file_end p)); [|apply B3; [|lia]; unfold segment_fits, seg_hi in *; destruct (Z.eqb_spec (p_filesz p / PS) (p_memsz p / PS)); lia].
      rewrite H3 by lia. apply B2; lia.
Qed.

(** Whether a segment needs pages behind those of the file is decided by the
    sizes alone, so that a segment that begins late in its page can lack its
    last page: nothing is mapped there. *)
Lemma load_segment_lacks_page fd c p s :
  segment_base c p -> contents s fd = Some c ->
  p_filesz p / PS = p_memsz p / PS -> file_end p < p_vaddr p + p_memsz p ->
  exists s', load_segment fd p s = Ok (tt, s') /\
    forall a, file_end p <= a < p_vaddr p + p_memsz p -> space s' !! a = space s !! a.
Proof.
  intros Hp Hc Heq Hlt. destruct (load_segment_run fd c p s Hp Hc) as (s' & R & _ & Ch & _).
  exists s'. split; [done|]. intros a Ha. apply Ch. unfold seg_hi. rewrite Heq, Z.eqb_refl. lia.
Qed.

Lemma segment_ends c p : segment_base c p ->
  seg_lo p <= p_vaddr p /\ p_vaddr p + p_filesz p <= seg_hi p /\ (segment_fits p -> p_vaddr p + p_memsz p <= seg_hi p).
Proof.
  intros Hp. pose proof page_pos. pose proof (up_bounds (p_vaddr p + p_filesz p)) as Hup. fold (file_end p) in Hup.
  pose proof (up_bounds (p_memsz p - p_filesz p)). pose proof (so_filesz _ _ Hp). unfold segment_fits. split_and!.
  - unfold seg_lo. rewrite floor_eq. pose proof (Z.mod_pos_bound (p_vaddr p) PS ltac:(lia)). lia.
  - unfold seg_hi. destruct (_ =? _); lia.
  - unfold seg_hi. destruct (Z.eqb_spec (p_filesz p / PS) (p_memsz p / PS)); [auto|lia].
Qed.

Lemma loaded_shows c p m : segment_base c p -> shows_loaded c p m -> segment_fits p -> shows_segment c p m.
Proof.
  intros Hp [H1 H2] Hf. destruct (segment_ends c p Hp) as (_ & _ & Ht). specialize (Ht Hf). split; [done|].
  intros i Hi. apply H2; lia.
Qed.

Lemma loaded_kept c p m m' :
  segment_base c p -> shows_loaded c p m ->
  (forall a, seg_lo p <= a < seg_hi p -> m' !! a = m !! a) -> shows_loaded c p m'.
Proof.
  intros Hp [H1 H2] Hk. pose proof (segment_ends c p Hp) as (? & ? & _). destruct Hp.
  split; intros i Hi; [|intros Hin]; rewrite Hk by lia; [by apply H1|by apply H2].
Qed.

(** ** All segments *)

Definition loadable (p : phdr) : Prop := p_type p = PT_LOAD.
#[export] Instance loadable_dec p : Decision (loadable p).
Proof. unfold loadable. apply _. Defined.

Definition apart (p q : phdr) : Prop := seg_hi p <= seg_lo q \/ seg_hi q <= seg_lo p.

Fixpoint separate (l : list phdr) : Prop :=
  match l with [] => True | p :: l' => Forall (apart p) l' /\ separate l' end.

Lemma load_loop_run fd psize buf c l : forall off s,
  (forall i p, l !! i = Some p -> phdr_at buf (off + psize * Z.of_nat i) = Ok p) ->
  Forall (fun p => p_type p <> PT_INTERP) l ->
  Forall (segment_base c) (filter loadable l) -> separate (filter loadable l) ->
  contents s fd = Some c ->
  exists s', load_loop fd psize buf (length l) off s = Ok (1, s') /\
    Forall (fun p => shows_loaded c p (space s')) (filter loadable l) /\
    forall a, Forall (fun p => ~ (seg_lo p <= a < seg_hi p)) (filter loadable l) ->
      space s' !! a = space s !! a.
Proof.
  induction l as [|p l IH]; intros off s Hat Hint Hok Hsep Hc.
  { exists s. by split_and!. }
  cbn [length load_loop]. apply Forall_cons in Hint as [Hp Hint].
  pose proof (Hat 0%nat p eq_refl) as Hat0. rewrite Z.mul_0_r, Z.add_0_r in Hat0.
  unfold value, mbind at 1, sys_bind at 1. rewrite Hat0. cbn [mbind cres_bind].
  rewrite (proj2 (Z.eqb_neq _ _) Hp).
  assert (forall i q, l !! i = Some q -> phdr_at buf (off + psize + psize * Z.of_nat i) = Ok q) as Hat'.
  { intros i q Hq. rewrite <- (Hat (S i) q Hq). f_equal. lia. }
  rewrite filter_cons in *. destruct (decide (loadable p)) as [Hl|Hl].
  - unfold loadable in Hl. rewrite Hl, Z.eqb_refl. apply Forall_cons in Hok as [Hokp Hok].
    destruct Hsep as [Hap Hsep].
    destruct (load_segment_run fd c p s Hokp Hc) as (s1 & R1 & C1 & Ch1 & S1).
    destruct (IH (off + psize) s1 Hat' Hint Hok Hsep) as (s2 & R2 & S2 & K2); [by rewrite C1|].
    exists s2. unfold mbind, sys_bind. rewrite R1. split; [exact R2|]. split.
    + constructor; [|done]. apply (loaded_kept c p (space s1)); [done|done|].
      intros a Ha. apply K2. eapply Forall_impl; [exact Hap|]. intros q [?|?]; lia.
    + intros a Ha. apply Forall_cons in Ha as [Ha1 Ha2]. rewrite K2 by done. by apply Ch1.
  - assert ((p_type p =? PT_LOAD) = false) as -> by (by apply Z.eqb_neq). by apply IH.
Qed.
End loading.

(** ** The headers *)

Lemma number_at_take w : forall b, number_at w b = number_at w (take w b).
Proof.
  induction w as [|w IH]; intros [|x b]; try done. cbn [number_at take]. by rewrite IH.
Qed.

Lemma number_at_window w c pos n k r N :
  (k + w <= n)%nat -> (pos + n <= length c)%nat -> (n <= N)%nat ->
  number_at w (drop k (take N (take n (drop pos c) ++ r))) = number_at w (drop (pos + k) c).
Proof.
  intros Hk Hc HN. rewrite number_at_take, (number_at_take w (drop (pos + k) c)). f_equal.
  assert (length (take n (drop pos c)) = n) as Hlen by (rewrite length_take, length_drop; lia).
  apply list_eq. intros i. destruct (decide (i < w)%nat) as [Hi|Hi].
  - rewrite !lookup_take_lt, !lookup_drop, lookup_take_lt by lia.
    rewrite lookup_app_l by lia. rewrite lookup_take_lt, lookup_drop by lia. f_equal. lia.
  - by rewrite !lookup_take_ge by lia.
Qed.

Lemma in_buf_window t c pos n k f r N :
  (forall o w, field_of t f = Some (o, w) -> 0 <= o /\ k + o + Z.of_nat w <= n) ->
  0 <= k -> 0 <= pos -> pos + n <= Z.of_nat (length c) -> n <= N ->
  in_buf t (take (Z.to_nat N) (take (Z.to_nat n) (drop (Z.to_nat pos) c) ++ r)) k f = in_buf t c (pos + k) f.
Proof.
  intros Hf Hk Hpos Hc HN. unfold in_buf. destruct (field_of t f) as [[o w]|]; [|done].
  destruct (Hf o w eq_refl). rewrite number_at_window by lia. do 2 f_equal. lia.
Qed.

Definition field_end (t : struct) (f : string) : Z :=
  match field_of t f with Some (o, w) => o + Z.of_nat w | None => 0 end.

(** A header in the buffer is the header in the file. *)
Lemma phdr_at_window c pos n k r N :
  k + 32 <= n -> 0 <= k -> 0 <= pos -> pos + n <= Z.of_nat (length c) -> n <= N ->
  phdr_at (take (Z.to_nat N) (take (Z.to_nat n) (drop (Z.to_nat pos) c) ++ r)) k = phdr_at c (pos + k).
Proof.
  intros Hk Hk0 Hpos Hc HN. unfold phdr_at.
  repeat match goal with |- context [in_buf Elf32_Phdr (take _ _) k ?f] =>
    rewrite (in_buf_window Elf32_Phdr c pos n k f r N) by
      (try lia; intros o w E; vm_compute in E; injection E as <- <-; lia) end.
  done.
Qed.

Section elf.
Context {os : Type} {P : Posix os} {PL : PosixLaws}.
#[local] Abbreviation PS := (@getpagesize os P).

(** A file with a header, a table of program headers [l] and an entry point
    that the loader handles. *)
Record elf_file (c : list Z) (psize poff entry : Z) (l : list phdr) : Prop := {
  ef_magic : take 4 c = [0x7f; 0x45; 0x4c; 0x46];
  ef_psize : in_buf Elf32_Ehdr c 0 "e_phentsize" = Ok psize;
  ef_pnum : in_buf Elf32_Ehdr c 0 "e_phnum" = Ok (Z.of_nat (length l));
  ef_poff : in_buf Elf32_Ehdr c 0 "e_phoff" = Ok poff;
  ef_entry : in_buf Elf32_Ehdr c 0 "e_entry" = Ok entry;
  ef_header : 52 <= Z.of_nat (length c);
  ef_table : 32 <= psize /\ 0 <= poff < 2 ^ 31 /\ poff + psize * Z.of_nat (length l) <= Z.of_nat (length c);
  ef_some : l <> [];
  ef_start : 0 < entry < 2 ^ 32;
  ef_phdrs : forall i p, l !! i = Some p -> phdr_at c (poff + psize * Z.of_nat i) = Ok p;
  ef_static : Forall (fun p => p_type p <> PT_INTERP) l;
  ef_segments : Forall (segment_base c) (filter loadable l);
  ef_separate : separate (filter loadable l)
}.

Lemma load_sections_run junk fd c psize poff entry l s :
  elf_file c psize poff entry l -> contents s fd = Some c ->
  exists s', load_sections junk fd psize (Z.of_nat (length l)) poff s = Ok (1, s') /\
    Forall (fun p => shows_loaded c p (space s')) (filter loadable l) /\
    forall a, Forall (fun p => ~ (seg_lo p <= a < seg_hi p)) (filter loadable l) ->
      space s' !! a = space s !! a.
Proof.
  intros Hf Hc. destruct (ef_table _ _ _ _ _ Hf) as (Hps & Hpo & Htab).
  assert (0 < Z.of_nat (length l)) as Hn by (pose proof (ef_some _ _ _ _ _ Hf); destruct l; [done|cbn; lia]).
  assert (psize <= psize * Z.of_nat (length l)) as Hn1 by nia.
  unfold load_sections, mbind, sys_bind, call.
  destruct (law_lseek fd poff s c Hc ltac:(lia)) as (s1 & -> & E1 & C1 & O1).
  rewrite (proj2 (Z.ltb_ge poff 0)) by lia.
  destruct (law_read fd (psize * Z.of_nat (length l)) s1 c) as (s2 & R2 & E2 & C2 & O2);
    [by rewrite C1|lia|lia|].
  rewrite R2. cbn [fst snd]. rewrite O1.
  assert (length (take (Z.to_nat (psize * Z.of_nat (length l))) (drop (Z.to_nat poff) c))
    = Z.to_nat (psize * Z.of_nat (length l))) as Hlen by (rewrite length_take, length_drop; lia).
  rewrite Hlen. rewrite (proj2 (Z.ltb_ge _ 1)) by lia. rewrite Nat2Z.id.
  match goal with |- context [load_loop fd psize ?b _ _ _] =>
    destruct (load_loop_run fd psize b c l 0 s2) as (s3 & R3 & S3 & K3) end;
    [|apply Hf|apply Hf|apply Hf|by rewrite C2, C1|].
  - intros i p Hi. pose proof (lookup_lt_Some _ _ _ Hi).
    assert (psize * Z.of_nat i + psize <= psize * Z.of_nat (length l)) by nia.
    assert (0 <= psize * Z.of_nat i) by nia.
    rewrite phdr_at_window by lia. rewrite Z.add_0_l. by apply (ef_phdrs _ _ _ _ _ Hf).
  - exists s3. split; [exact R3|]. split; [done|]. intros a Ha. by rewrite K3, E2, E1.
Qed.

Lemma u32_i32 z : 0 <= z < 2 ^ 32 -> u32 (i32 z) = z.
Proof.
  intros Hz. unfold wrap, swrap. rewrite Zminus_mod, Z.mod_mod by done.
  rewrite <- Zminus_mod. replace (z + 2 ^ (32 - 1) - 2 ^ (32 - 1)) with z by lia. by apply Z.mod_small.
Qed.

(** C3: loading a program refines the ELF file.  On a system with the
    documented behaviour, take a statically linked file with a readable table of
    program headers whose loadable segments do not share pages, have bytes in
    the file, do not reach the last two pages of the address space and, when they
    are larger in memory, do not end at a page boundary in the file.  Then
    [load_static] ends by starting the entry point of the file, with the
    arguments less the first.  At that time the bytes of every loadable segment
    are in the address space, with zeros behind them on all pages that
    [load_segment] gives it, which are those of its whole size in memory for
    every segment that [segment_fits]; a segment that does not lacks its last
    pages, since every address outside these pages is as it was. *)
Theorem load_static_refines junk argc argv envc envp arg s fd s1 c psize poff entry l :
  argv !! 1%nat = Some arg -> 2 <= argc ->
  open_ arg O_RDONLY s = (fd, s1) -> 0 <= fd -> contents s1 fd = Some c -> offset s1 fd = 0 ->
  space s1 = space s -> elf_file c psize poff entry l ->
  exists s', load_static junk argc argv envc envp s =
      Ok ({| st_argc := argc - 1; st_argv := drop 1 argv; st_envc := envc; st_envp := envp;
             st_entry := entry |}, s') /\
    Forall (fun p => shows_loaded c p (space s') /\ (segment_fits p -> shows_segment c p (space s'))) (filter loadable l) /\
    forall a, Forall (fun p => ~ (seg_lo p <= a < seg_hi p)) (filter loadable l) ->
      space s' !! a = space s !! a.
Proof.
  intros Harg Hargc Hopen Hfd Hc Hoff Hsp Hf.
  unfold load_static. rewrite (proj2 (Z.ltb_ge argc 2)), Harg by lia.
  unfold load_elf, mbind, sys_bind, value, call, mret, sys_ret. cbn [mbind cres_bind]. rewrite Hopen.
  rewrite (proj2 (Z.ltb_ge fd 0)) by lia.
  destruct (law_read fd 52 s1 c Hc) as (s2 & R2 & E2 & C2 & O2); [lia|lia|].
  rewrite R2. cbn [fst snd]. rewrite Hoff.
  pose proof (ef_header _ _ _ _ _ Hf) as Hh.
  assert (length (take (Z.to_nat 52) (drop (Z.to_nat 0) c)) = Z.to_nat 52) as Hlen
    by (rewrite length_take, length_drop; lia).
  rewrite Hlen. rewrite (proj2 (Z.ltb_ge _ 52)) by lia.
  set (r := drop _ junk).
  repeat match goal with |- context [in_buf Elf32_Ehdr (take _ _) 0 ?f] =>
    rewrite (in_buf_window Elf32_Ehdr c 0 52 0 f r BUFSIZE) by
      (try lia; try done; intros o w E; vm_compute in E; injection E as <- <-; lia) end.
  rewrite Z.add_0_l.
  assert (in_buf Elf32_Ehdr c 0 "e_mag0" = Ok 0x7f /\ in_buf Elf32_Ehdr c 0 "e_mag1" = Ok 0x45 /\
    in_buf Elf32_Ehdr c 0 "e_mag2" = Ok 0x4c /\ in_buf Elf32_Ehdr c 0 "e_mag3" = Ok 0x46) as (-> & -> & -> & ->).
  { pose proof (ef_magic _ _ _ _ _ Hf) as Hm. destruct c as [|a0 [|a1 [|a2 [|a3 c']]]]; try discriminate.
    injection Hm as -> -> -> ->. done. }
  rewrite (ef_psize _ _ _ _ _ Hf), (ef_pnum _ _ _ _ _ Hf), (ef_poff _ _ _ _ _ Hf), (ef_entry _ _ _ _ _ Hf).
  cbn [mbind cres_bind]. change (negb _) with false. cbv iota.
  destruct (ef_table _ _ _ _ _ Hf) as (Hps & Hpo & Htab). rewrite swrap_small by lia.
  destruct (load_sections_run junk fd c psize poff entry l s2 Hf) as (s3 & R3 & S3 & K3); [by rewrite C2|].
  rewrite R3. change (1 =? 0) with false. cbv iota.
  destruct (law_close fd s3) as (rc & s4 & R4 & E4). rewrite R4.
  pose proof (ef_start _ _ _ _ _ Hf) as He. rewrite u32_i32, (proj2 (Z.eqb_neq entry 0)) by lia.
  exists s4. split; [done|]. rewrite E4. split; [|intros a Ha; by rewrite K3, E2, Hsp].
  pose proof (ef_segments _ _ _ _ _ Hf) as Hseg. apply Forall_forall. intros p Hp. rewrite Forall_forall in S3, Hseg.
  split; [by apply S3|]. apply loaded_shows; [by apply Hseg|by apply S3].
Qed.
End elf.

(** A file of 100 bytes with one segment, twice as long in memory. *)
Definition le_bytes (w : nat) (z : Z) : list Z :=
  (fun i => Z.shiftr z (8 * Z.of_nat i) mod 256) <$> seq 0 w.
Definition small_elf : list Z :=
  [0x7f; 0x45; 0x4c; 0x46] ++ replicate 12 0 ++ le_bytes 2 2 ++ le_bytes 2 3 ++ le_bytes 4 1 ++
  le_bytes 4 0x8048054 ++ le_bytes 4 52 ++ le_bytes 4 0 ++ le_bytes 4 0 ++ le_bytes 2 52 ++
  le_bytes 2 32 ++ le_bytes 2 1 ++ replicate 6 0 ++
  le_bytes 4 PT_LOAD ++ le_bytes 4 0 ++ le_bytes 4 0x8048000 ++ le_bytes 4 0x8048000 ++
  le_bytes 4 100 ++ le_bytes 4 200 ++ le_bytes 4 7 ++ le_bytes 4 4096 ++ replicate 16 0x90.
Definition small_phdr : phdr :=
  {| p_type := PT_LOAD; p_offset := 0; p_vaddr := 0x8048000; p_filesz := 100; p_memsz := 200; p_flags := 7 |}.

Lemma small_elf_ok : elf_file (os := one_file) small_elf 32 52 0x8048054 [small_phdr].
Proof.
  assert (filter loadable [small_phdr] = [small_phdr]) as Hfil by (by vm_compute).
  constructor; try done.
  - intros [|[|i]] p Hp; [|done|done]. injection Hp as <-. by vm_compute.
  - by repeat constructor.
  - rewrite Hfil. repeat constructor; cbn; try done; lia.
Qed.

Lemma load_static_refines_witness :
  exists s', load_static [] 2 [chars "loader"; chars "prog"] 0 [] {| of_space := ∅; of_bytes := small_elf; of_offset := 0 |} =
      Ok ({| st_argc := 1; st_argv := [chars "prog"]; st_envc := 0; st_envp := []; st_entry := 0x8048054 |}, s') /\
    shows_segment small_elf small_phdr (space s').
Proof.
  destruct (load_static_refines (os := one_file) [] 2 [chars "loader"; chars "prog"] 0 [] (chars "prog")
    {| of_space := ∅; of_bytes := small_elf; of_offset := 0 |} 3
    {| of_space := ∅; of_bytes := small_elf; of_offset := 0 |} small_elf 32 52 0x8048054 [small_phdr])
    as (s' & Hrun & Hshow & _).
  - reflexivity.
  - lia.
  - reflexivity.
  - lia.
  - reflexivity.
  - reflexivity.
  - reflexivity.
  - exact small_elf_ok.
  - exists s'. split; [exact Hrun|]. assert (filter loadable [small_phdr] = [small_phdr]) as Hfil by (by vm_compute).
    rewrite Hfil in Hshow. apply Forall_singleton in Hshow as [_ Hshow]. apply Hshow. intros _. by vm_compute.
Defined.
