(* ===== verification/LoaderExec.v ===== *)
(** * Replacing the running program: [loader_exec.c], [loader_fork.c]

    The loader lies in the address space of a kernel process.  It unmaps the
    segments of the kernel's own program, following the program headers in its
    first page, maps the memory image of the new program instead, puts
    arguments and environment on top of the stack in the image and jumps into
    it.  ([loader_fork.c] has the same functions for unmapping and mapping; it
    continues a copied image, with its registers instead of arguments.) *)

From S2P Require Import Prelude CLib Memory Multiboot Posix ElfLoader.
Open Scope Z_scope.

Definition IMAGE_SIZE : Z := 1024 * 1024 * 256.
Definition IMAGE_START : Z := 0x8000000.

Definition phdr_get (p : Z) (f : string) (m : mem) : cres Z := get Elf32_Phdr p f m.

Section loader.
Context {os : Type} `{Posix os}.

(** Both mappings of a loadable segment, whose header is at [p]; whether the
    function continues. *)
Definition unload_segment (load_address p : Z) : sys bool :=
  let pagesize := getpagesize in
  vaddr ← loads (phdr_get p "p_vaddr");
  let address := land_not 32 vaddr (pagesize - 1) in
  filesz ← loads (phdr_get p "p_filesz");
  off ← loads (phdr_get p "p_offset");
  let size := u32 (filesz + Z.land off (pagesize - 1)) in
  let '(address, size) :=
    if address =? load_address
    then (u32 (address + pagesize), size - (if pagesize <? size then pagesize else size))
    else (address, size) in
  if size =? 0 then mret true else
  r ← call (munmap address size);
  if negb (r =? 0) then mret false else
  filesz ← loads (phdr_get p "p_filesz");
  memsz ← loads (phdr_get p "p_memsz");
  if filesz / pagesize =? memsz / pagesize then mret true else
  vaddr ← loads (phdr_get p "p_vaddr");
  _ ← call (munmap (u32 ((u32 (vaddr + filesz) / pagesize + 1) * pagesize))
                   (u32 ((u32 (memsz - filesz + pagesize - 1) / pagesize - 1) * pagesize)));
  mret true.

Fixpoint unload_loop (load_address psize : Z) (n : nat) (p : Z) : sys bool :=
  match n with
  | O => mret true
  | S n' =>
    ty ← loads (phdr_get p "p_type");
    if ty =? PT_LOAD then
      more ← unload_segment load_address p;
      if (more : bool) then unload_loop load_address psize n' (p + psize) else mret false
    else unload_loop load_address psize n' (p + psize)
  end.

Definition unload_sections (load_address psize pnum poff : Z) : sys Z :=
  more ← unload_loop load_address psize (Z.to_nat pnum) (u32 (load_address + poff));
  if negb more then mret 0 else
  r ← call (munmap load_address getpagesize);
  if negb (r =? 0) then mret 0 else mret 1.

Definition unload_elf : sys Z :=
  let elf := 0x8048000 in
  psize ← loads (get Elf32_Ehdr elf "e_phentsize");
  pnum ← loads (get Elf32_Ehdr elf "e_phnum");
  poff ← loads (get Elf32_Ehdr elf "e_phoff");
  r ← unload_sections 0x8048000 psize pnum (i32 poff);
  if r =? 0 then mret 0 else mret 1.

Definition load_image (arg : text) : sys Z :=
  fd ← call (open_ arg O_RDWR);
  if fd <? 0 then mret 0 else
  r ← call (mmap IMAGE_START IMAGE_SIZE (Z.lor (Z.lor PROT_READ PROT_WRITE) PROT_EXEC)
              (Z.lor MAP_SHARED MAP_FIXED) fd 0);
  if r =? MAP_FAILED then mret 0 else mret 1.

(** ** The start of the exec loader *)

(** [memcpy] of a string on the local stack. *)
Fixpoint store_text (l : text) (a : Z) (m : mem) : cres mem :=
  match l with [] => Ok m | c :: l' => m ← store8 m a c; store_text l' (a + 1) m end.

(** The first of the two loops that put strings on the stack of the image:
    the strings downwards from [sp], their addresses upwards from [pointer]. *)
Fixpoint put_strings (l : list text) (sp pointer : Z) (m : mem) : cres (Z * mem) :=
  match l with
  | [] => Ok (sp, m)
  | s :: l' =>
    n ← strlen s;
    let length := n + 1 in
    m ← store_text (take (Z.to_nat length) s) (sp - length) m;
    m ← store32 m pointer (sp - length);
    put_strings l' (sp - length) (pointer + 4) m
  end.

Fixpoint strings_size (l : list text) : cres Z :=
  match l with [] => Ok 0 | s :: l' => n ← strlen s; r ← strings_size l'; Ok (n + 1 + r) end.

(** What [go_to_start_exec] is given. *)
Record exec_start := {
  ex_argc : Z; ex_argv : Z; ex_envc : Z; ex_envp : Z; ex_stack : Z; ex_entry : Z
}.

Definition build_stack (argv envp : list text) (entry : Z) (m : mem) : cres (exec_start * mem) :=
  argv_size ← strings_size argv;
  envp_size ← strings_size envp;
  let argc := Z.of_nat (length argv) in
  let envc := Z.of_nat (length envp) in
  let stack := IMAGE_START + IMAGE_SIZE in
  let argv_pointer := stack - argv_size - (argc + 1) * 4 in
  r ← put_strings argv stack argv_pointer m;
  let sp := r.1 - (argc + 1) * 4 in
  let envp_pointer := sp - envp_size - (envc + 1) * 4 in
  r ← put_strings envp sp envp_pointer r.2;
  m ← store32 r.2 (argv_pointer + 4 * argc) 0;
  m ← store32 m (envp_pointer + 4 * envc) 0;
  Ok ({| ex_argc := argc; ex_argv := argv_pointer; ex_envc := envc; ex_envp := envp_pointer;
         ex_stack := envp_pointer - 4 * 4; ex_entry := entry |}, m).

Definition set_slot {A} (l : list A) (i : Z) (v : A) : cres (list A) :=
  if (0 <=? i) && (i <? Z.of_nat (length l)) then Ok (<[Z.to_nat i := v]> l) else Fault OutOfBounds.

(** The array of argument strings on the local stack: [alloca] gives [slack]
    elements more than the [argc - 2] that are asked for.  The element written
    last is the null pointer, here [None]. *)
Definition copy_args (slack : nat) (av : list text) : cres (list text) :=
  let argc := Z.of_nat (length av) in
  let args := drop 3 av in
  let array := (Some <$> args) ++ replicate (Z.to_nat (argc - 2) + slack - length args) None in
  array ← set_slot array (argc - 2) None;
  Ok (omap id (take (Z.to_nat (argc - 3)) array)).

(** [snprintf(to, 256, "%s", s)], and [snprintf(to, 256, s)], for which a
    percent sign in [s] asks for an argument that is not there. *)
Definition snprintf_s (s : text) : text := take 255 (body s) ++ [NUL].
Definition snprintf_format (s : text) : cres text :=
  if existsb (fun c => c =? ch "%") (body s) then Fault OutOfBounds else Ok (snprintf_s s).

Definition _start (slack : nat) (av env : list text) : sys exec_start :=
  a1 ← value (match av !! 1%nat with Some a => Ok a | None => Fault OutOfBounds end);
  entry ← value (atoi a1);
  a2 ← value (match av !! 2%nat with Some a => Ok a | None => Fault OutOfBounds end);
  let pid_name := snprintf_s a2 in
  name ← value (snprintf_format pid_name);
  argv ← value (copy_args slack av);
  _ ← unload_elf;
  ok ← load_image pid_name;
  if ok =? 0 then exit_ else
  fun s => r ← build_stack argv env entry (space s); Ok (r.1, set_space r.2 s).

(** ** The start of the fork loader *)

Record fork_start := { fs_base : Z; fs_stack : Z; fs_entry : Z }.

Definition _start_fork (av : list text) : sys fork_start :=
  a1 ← value (match av !! 1%nat with Some a => Ok a | None => Fault OutOfBounds end);
  a2 ← value (match av !! 2%nat with Some a => Ok a | None => Fault OutOfBounds end);
  a3 ← value (match av !! 3%nat with Some a => Ok a | None => Fault OutOfBounds end);
  base ← value (atoi a1); stack ← value (atoi a2); entry ← value (atoi a3);
  a4 ← value (match av !! 4%nat with Some a => Ok a | None => Fault OutOfBounds end);
  let pid_name := snprintf_s a4 in
  _ ← unload_elf;
  ok ← load_image pid_name;
  if ok =? 0 then exit_ else
  mret {| fs_base := u32 base; fs_stack := u32 stack; fs_entry := u32 entry |}.
End loader.
