(* ===== verification/ElfUnload.v ===== *)
(** * What unmapping the kernel's program leaves

    [unload_sections] removes the pages of the segments that the program
    headers name, and the page of the headers last; but of the pages that hold
    a segment's cleared memory it leaves the last. *)

From S2P Require Import Prelude Memory Multiboot Posix ElfLoader ElfLoad LoaderExec.
Open Scope Z_scope.

(** The header at [p] in memory. *)
Record phdr_mem (m : mem) (p : Z) (h : phdr) : Prop := {
  pm_type : phdr_get p "p_type" m = Ok (p_type h);
  pm_offset : phdr_get p "p_offset" m = Ok (p_offset h);
  pm_vaddr : phdr_get p "p_vaddr" m = Ok (p_vaddr h);
  pm_filesz : phdr_get p "p_filesz" m = Ok (p_filesz h);
  pm_memsz : phdr_get p "p_memsz" m = Ok (p_memsz h)
}.

Section unload.
Context {os : Type} {P : Posix os} {PL : PosixLaws}.
#[local] Abbreviation PS := (@getpagesize os P).
#[local] Abbreviation pages_up := (@pages_up os P).
#[local] Abbreviation page_floor := (@page_floor os P).

(** The address of the program, at the beginning of a page. *)
Context (L : Z) (HL : 0 <= L /\ L mod PS = 0 /\ L + PS <= 2 ^ 32).

Definition in_first (a : Z) : Prop := L <= a < L + PS.

Lemma phdr_mem_kept m m' p h :
  L <= p -> p + 32 <= L + PS -> (forall a, in_first a -> m' !! a = m !! a) ->
  phdr_mem m p h -> phdr_mem m' p h.
Proof.
  intros Hp1 Hp2 Hk [H1 H2 H3 H4 H5]. pose proof page_pos.
  assert (forall f v, In f ["p_type"; "p_offset"; "p_vaddr"; "p_filesz"; "p_memsz"]%string ->
    phdr_get p f m = Ok v -> phdr_get p f m' = Ok v) as Hget.
  { intros f v Hf Hv. rewrite <- Hv. unfold phdr_get, get.
    assert (exists o, field_of Elf32_Phdr f = Some (o, 4%nat) /\ 0 <= o <= 28) as (o & -> & Ho).
    { cbn in Hf. destruct_or! Hf; subst; try done; eexists; (split; [reflexivity|cbn; lia]). }
    apply load_le_agree. intros a Ha. apply Hk. rewrite wrap_small in Ha by lia. unfold in_first. lia. }
  constructor; apply Hget; try done; cbn; tauto.
Qed.

(** ** One segment *)

(** The first address and the length of the mapping of the file's bytes, less
    the page of the headers. *)
Definition map_len (h : phdr) : Z := p_filesz h + p_offset h mod PS.
Definition body_lo (h : phdr) : Z :=
  if page_floor (p_vaddr h) =? L then L + PS else page_floor (p_vaddr h).
Definition body_len (h : phdr) : Z :=
  if page_floor (p_vaddr h) =? L then map_len h - Z.min (map_len h) PS else map_len h.
(** The further pages that are removed. *)
Definition rest_lo (h : phdr) : Z := ((p_vaddr h + p_filesz h) / PS + 1) * PS.
Definition rest_len (h : phdr) : Z := ((p_memsz h - p_filesz h + PS - 1) / PS - 1) * PS.

Definition removed (h : phdr) (a : Z) : Prop :=
  body_len h <> 0 /\
  (body_lo h <= a < body_lo h + pages_up (body_len h) \/
   (p_filesz h / PS <> p_memsz h / PS /\ rest_lo h <= a < rest_lo h + rest_len h)).

Record unload_ok (h : phdr) : Prop := {
  uo_vaddr : L <= p_vaddr h;
  uo_offset : 0 <= p_offset h < 2 ^ 32;
  uo_sizes : 0 <= p_filesz h <= p_memsz h;
  uo_top : p_vaddr h + p_memsz h + 3 * PS <= 2 ^ 32
}.

Lemma floor_first h : unload_ok h ->
  page_floor (p_vaddr h) = L \/ L + PS <= page_floor (p_vaddr h).
Proof.
  intros []. pose proof page_pos. destruct HL as (H0 & HLm & _).
  unfold ElfLoad.page_floor. pose proof (Z.div_mod L PS ltac:(lia)) as E. rewrite HLm in E.
  assert (L / PS <= p_vaddr h / PS) by (apply Z.div_le_mono; lia).
  destruct (decide (p_vaddr h / PS = L / PS)) as [->|]; [left; lia|right; nia].
Qed.

Lemma body_facts h : unload_ok h ->
  L + PS <= body_lo h /\ body_lo h mod PS = 0 /\ 0 <= body_len h /\
  body_lo h + pages_up (body_len h) <= 2 ^ 32 /\ L + PS <= rest_lo h /\ rest_lo h mod PS = 0.
Proof.
  intros Hu. pose proof page_pos as Hps. pose proof (floor_first h Hu) as Hfl. destruct Hu.
  destruct HL as (H0 & HLm & HLt). unfold body_lo, body_len.
  pose proof (Z.mod_pos_bound (p_offset h) PS ltac:(lia)) as Hom.
  assert (0 <= map_len h) by (unfold map_len; lia).
  assert (page_floor (p_vaddr h) <= p_vaddr h) as Hfv.
  { rewrite floor_eq. pose proof (Z.mod_pos_bound (p_vaddr h) PS ltac:(lia)). lia. }
  assert (L + PS <= rest_lo h) as Hrest.
  { unfold rest_lo. pose proof (Z.div_mod L PS ltac:(lia)) as E. rewrite HLm in E.
    assert (L / PS <= (p_vaddr h + p_filesz h) / PS) by (apply Z.div_le_mono; lia). nia. }
  assert (rest_lo h mod PS = 0) by (unfold rest_lo; apply Z.mod_mul; lia).
  destruct (Z.eqb_spec (page_floor (p_vaddr h)) L) as [Heq|Hne].
  - pose proof (up_bounds (map_len h - Z.min (map_len h) PS)). split_and!; try done; try lia.
    + rewrite <- Z.add_mod_idemp_r, Z.mod_same, Z.add_0_r by lia. done.
    + unfold map_len in *. lia.
  - pose proof (up_bounds (map_len h)). split_and!; try done; try lia; [apply floor_mod|].
    unfold map_len in *. lia.
Qed.

Lemma unload_segment_run p h s :
  L <= p -> p + 32 <= L + PS -> phdr_mem (space s) p h -> unload_ok h ->
  exists s', unload_segment L p s = Ok (true, s') /\
    (forall a, removed h a -> space s' !! a = None) /\
    (forall a, ~ removed h a -> space s' !! a = space s !! a).
Proof.
  intros Hp1 Hp2 Hm Hu. pose proof page_pos as Hps. pose proof (body_facts h Hu) as (F1 & F2 & F3 & F4 & F5 & F6).
  pose proof (Z.mod_pos_bound (p_offset h) PS ltac:(lia)) as Hom.
  destruct HL as (HL0 & HLm & HLt).
  unfold unload_segment, mbind, sys_bind, loads, call, mret, sys_ret.
  rewrite (pm_vaddr _ _ _ Hm). cbn [mbind cres_bind]. rewrite (pm_filesz _ _ _ Hm). cbn [mbind cres_bind].
  rewrite (pm_offset _ _ _ Hm). cbn [mbind cres_bind].
  pose proof Hu as []. rewrite page_clear, page_mask by lia. fold (map_len h).
  rewrite (wrap_small 32 (map_len h)) by (unfold map_len; lia).
  assert ((if page_floor (p_vaddr h) =? L
    then (u32 (page_floor (p_vaddr h) + PS), map_len h - (if PS <? map_len h then PS else map_len h))
    else (page_floor (p_vaddr h), map_len h)) = (body_lo h, body_len h)) as ->.
  { unfold body_lo, body_len. destruct (Z.eqb_spec (page_floor (p_vaddr h)) L) as [->|]; [|done].
    rewrite wrap_small by lia. f_equal. f_equal. destruct (Z.ltb_spec PS (map_len h)); lia. }
  destruct (Z.eqb_spec (body_len h) 0) as [Hz|Hnz].
  { exists s. split; [done|]. split; [intros a [? _]; done|done]. }
  destruct (law_munmap (body_lo h) (body_len h) s) as (s1 & R1 & Ch1 & N1); [lia|done|lia|done|].
  rewrite R1. cbv beta iota. change (negb (0 =? 0)) with false. cbv iota.
  assert (phdr_mem (space s1) p h) as Hm1.
  { eapply phdr_mem_kept; [done|done| |exact Hm]. intros a Ha. apply Ch1. unfold in_first in Ha. lia. }
  cbv beta. rewrite (pm_filesz _ _ _ Hm1). cbn [mbind cres_bind]. rewrite (pm_memsz _ _ _ Hm1). cbn [mbind cres_bind].
  destruct (Z.eqb_spec (p_filesz h / PS) (p_memsz h / PS)) as [Hq|Hq].
  { exists s1. split; [done|]. split.
    - intros a (_ & [Ha|[? _]]); [by apply N1|done].
    - intros a Ha. apply Ch1. intros Hin. apply Ha. by split; [|left]. }
  cbv beta. rewrite (pm_vaddr _ _ _ Hm1). cbn [mbind cres_bind].
  assert (p_filesz h <> p_memsz h) as Hfm by congruence.
  assert (1 <= (p_memsz h - p_filesz h + PS - 1) / PS) as Hn1.
  { apply Z.div_le_lower_bound; lia. }
  pose proof (Z.mul_div_le (p_memsz h - p_filesz h + PS - 1) PS ltac:(lia)) as Hn2.
  pose proof (Z.mul_div_le (p_vaddr h + p_filesz h) PS ltac:(lia)) as Hb.
  assert (0 <= (p_vaddr h + p_filesz h) / PS) by (apply Z.div_pos; lia).
  rewrite (wrap_small 32 (p_vaddr h + p_filesz h)), (wrap_small 32 (_ - 1)) by lia.
  fold (rest_lo h). fold (rest_len h).
  assert (0 <= rest_len h /\ rest_len h <= p_memsz h - p_filesz h) as [Hr0 Hr1] by (unfold rest_len; nia).
  assert (rest_lo h <= p_vaddr h + p_filesz h + PS) as Hr2 by (unfold rest_lo; lia).
  rewrite !wrap_small by lia.
  assert (rest_len h mod PS = 0) as Hrm by (unfold rest_len; apply Z.mod_mul; lia).
  assert (exists r s2, munmap (rest_lo h) (rest_len h) s1 = (r, s2) /\
    (forall a, rest_lo h <= a < rest_lo h + rest_len h -> space s2 !! a = None) /\
    (forall a, ~ (rest_lo h <= a < rest_lo h + rest_len h) -> space s2 !! a = space s1 !! a))
    as (r & s2 & R2 & N2 & K2).
  { destruct (decide (rest_len h = 0)) as [Hz|Hz].
    - rewrite Hz. destruct (law_munmap_nothing (rest_lo h) s1) as (s2 & R2 & E2).
      exists (-1), s2. split; [done|]. rewrite E2. split; [intros; lia|done].
    - destruct (law_munmap (rest_lo h) (rest_len h) s1) as (s2 & R2 & Ch2 & N2);
        [lia|done|lia|rewrite up_aligned by done; lia|].
      rewrite up_aligned in Ch2, N2 by done. exists 0, s2. done. }
  rewrite R2. exists s2. split; [done|]. split.
  - intros a (_ & [Ha|[_ Ha]]); [|by apply N2].
    destruct (decide (rest_lo h <= a < rest_lo h + rest_len h)); [by apply N2|].
    rewrite K2 by done. by apply N1.
  - intros a Ha. rewrite K2; [apply Ch1|]; intros Hin; apply Ha; (split; [done|]); [by left|by right].
Qed.

(** ** All segments *)

(** The headers [l] lie [psize] bytes apart from [p] on, in the first page. *)
Definition headers (m : mem) (psize p : Z) (l : list phdr) : Prop :=
  32 <= psize /\ L <= p /\ p + psize * Z.of_nat (length l) <= L + PS /\
  forall i h, l !! i = Some h -> phdr_mem m (p + psize * Z.of_nat i) h.

Lemma headers_tail m psize p h l : headers m psize p (h :: l) -> headers m psize (p + psize) l.
Proof.
  intros (Hps & Hp & Hlen & Hh). cbn [length] in Hlen. split_and!; [done|lia|lia|].
  intros i q Hq. specialize (Hh (S i) q Hq).
  by replace (p + psize + psize * Z.of_nat i) with (p + psize * Z.of_nat (S i)) by lia.
Qed.

Lemma headers_kept m m' psize p l :
  (forall a, in_first a -> m' !! a = m !! a) -> headers m psize p l -> headers m' psize p l.
Proof.
  intros Hk (Hps & Hp & Hlen & Hh). split_and!; [done..|]. intros i h Hi.
  pose proof (lookup_lt_Some _ _ _ Hi).
  assert (psize * Z.of_nat i + psize <= psize * Z.of_nat (length l)) by nia.
  eapply phdr_mem_kept; [nia|lia|exact Hk|by apply Hh].
Qed.

Lemma removed_outside h a : unload_ok h -> removed h a -> ~ in_first a.
Proof.
  intros Hu (_ & Ha). pose proof (body_facts h Hu) as (F1 & _ & _ & _ & F5 & _).
  unfold in_first. lia.
Qed.

Lemma unload_loop_run psize l : forall p s,
  headers (space s) psize p l -> Forall unload_ok (filter loadable l) ->
  exists s', unload_loop L psize (length l) p s = Ok (true, s') /\
    (forall a, Exists (fun h => removed h a) (filter loadable l) -> space s' !! a = None) /\
    (forall a, ~ Exists (fun h => removed h a) (filter loadable l) -> space s' !! a = space s !! a).
Proof.
  induction l as [|h l IH]; intros p s Hh Hu.
  { exists s. split_and!; try done. intros a Ha. by apply Exists_nil in Ha. }
  pose proof (headers_tail _ _ _ _ _ Hh) as Ht. destruct Hh as (Hps & Hp & Hlen & Hh).
  specialize (Hh 0%nat h eq_refl). rewrite Z.mul_0_r, Z.add_0_r in Hh. cbn [length] in Hlen.
  cbn [length unload_loop]. unfold mbind at 1, sys_bind at 1, loads. rewrite (pm_type _ _ _ Hh).
  cbn [mbind cres_bind]. rewrite filter_cons in *. destruct (decide (loadable h)) as [Hl|Hl].
  - unfold loadable in Hl. rewrite Hl, Z.eqb_refl. apply Forall_cons in Hu as [Hu1 Hu].
    destruct (unload_segment_run p h s Hp ltac:(nia) Hh Hu1) as (s1 & R1 & N1 & K1).
    destruct (IH (p + psize) s1) as (s2 & R2 & N2 & K2); [|done|].
    { eapply headers_kept; [|exact Ht]. intros a Ha. apply K1. intros Hr. by eapply removed_outside. }
    exists s2. unfold mbind, sys_bind. rewrite R1. split; [exact R2|]. split.
    + intros a Ha. destruct (decide (space s2 !! a = None)) as [?|Hne]; [done|].
      assert (~ Exists (fun h => removed h a) (filter loadable l)) as Hn by (intros He; by apply Hne, N2).
      apply Exists_cons in Ha as [Ha|Ha]; [|done]. rewrite K2 by done. by apply N1.
    + intros a Ha. rewrite K2, K1; [done| |]; intros Hx; apply Ha, Exists_cons; [by left|by right].
  - assert ((p_type h =? PT_LOAD) = false) as -> by (by apply Z.eqb_neq). by apply IH.
Qed.

(** The last page of the cleared memory is not removed. *)
Lemma last_page_stays h a :
  unload_ok h -> (p_vaddr h + p_filesz h) mod PS <> 0 -> p_filesz h / PS <> p_memsz h / PS ->
  0 < p_filesz h + p_offset h mod PS -> p_vaddr h mod PS = p_offset h mod PS ->
  seg_hi h - PS <= a < seg_hi h -> ~ removed h a.
Proof.
  intros Hu Ht Hq Hpos Hpage Ha (Hne & Hin). pose proof page_pos as Hps.
  pose proof Hu as []. destruct HL as (HL0 & _).
  assert (seg_hi h = file_end h + pages_up (p_memsz h - p_filesz h)) as Hhi.
  { unfold seg_hi. by rewrite (proj2 (Z.eqb_neq _ _) Hq). }
  assert (rest_lo h = file_end h) as Hr by (unfold rest_lo, file_end; by rewrite up_next).
  assert (rest_len h = pages_up (p_memsz h - p_filesz h) - PS) as Hrl.
  { unfold rest_len, Posix.pages_up. lia. }
  assert (p_filesz h <> p_memsz h) as Hfm by congruence.
  pose proof (up_bounds (p_memsz h - p_filesz h)) as Hub.
  assert (PS <= pages_up (p_memsz h - p_filesz h)) as Hge.
  { unfold Posix.pages_up.
    assert (1 <= (p_memsz h - p_filesz h + PS - 1) / PS) by (apply Z.div_le_lower_bound; lia). nia. }
  pose proof (up_bounds (p_vaddr h + p_filesz h)) as Hue. fold (file_end h) in Hue.
  assert (body_lo h + pages_up (body_len h) = file_end h) as Hb.
  { unfold body_lo, body_len in *.
    assert (page_floor (p_vaddr h) + pages_up (map_len h) = file_end h) as He.
    { rewrite up_shift by apply floor_mod. unfold file_end, map_len. f_equal. rewrite floor_eq. lia. }
    destruct (Z.eqb_spec (page_floor (p_vaddr h)) L) as [Hfl|]; [|done].
    destruct (decide (map_len h <= PS)); [lia|]. rewrite Z.min_r by lia.
    rewrite <- He, Hfl. replace (map_len h) with (PS + (map_len h - PS)) at 2 by lia.
    rewrite <- (up_shift PS) by (apply Z.mod_same; lia). lia. }
  lia.
Qed.

(** Unmapping removes exactly the pages it computes, and these are not
    all.  On a system with the documented behaviour, for every table of
    program headers in the first page, [unload_sections] completes with
    success; afterwards the page of the headers and, for each loadable
    segment, the pages of its bytes in the file and the computed further pages
    are unmapped, and every other address is as it was; in particular the last
    page of a segment that has cleared memory in further pages stays mapped,
    with its contents, unless it belongs to another segment.  [unload_elf] does
    this for the program at 0x8048000. *)
Lemma unload_sections_removes psize poff l s :
  0 <= poff < PS -> headers (space s) psize (L + poff) l -> Forall unload_ok (filter loadable l) ->
  exists s', unload_sections L psize (Z.of_nat (length l)) poff s = Ok (1, s') /\
    (L = 0x8048000 -> get Elf32_Ehdr L "e_phentsize" (space s) = Ok psize ->
       get Elf32_Ehdr L "e_phnum" (space s) = Ok (Z.of_nat (length l)) ->
       get Elf32_Ehdr L "e_phoff" (space s) = Ok poff -> unload_elf s = Ok (1, s')) /\
    (forall a, in_first a \/ Exists (fun h => removed h a) (filter loadable l) -> space s' !! a = None) /\
    (forall a, ~ (in_first a \/ Exists (fun h => removed h a) (filter loadable l)) ->
       space s' !! a = space s !! a) /\
    (forall h a, (p_vaddr h + p_filesz h) mod PS <> 0 -> p_filesz h / PS <> p_memsz h / PS ->
       0 < p_filesz h + p_offset h mod PS -> p_vaddr h mod PS = p_offset h mod PS -> unload_ok h ->
       seg_hi h - PS <= a < seg_hi h -> ~ in_first a ->
       Forall (fun q => q = h \/ ~ removed q a) (filter loadable l) -> space s' !! a = space s !! a).
Proof.
  intros Hpo Hh Hu. pose proof page_pos. destruct HL as (HL0 & HLm & HLt).
  pose proof Hh as (Hps & Hp & Hlen & _).
  assert (0 <= psize * Z.of_nat (length l)) by nia.
  destruct (unload_loop_run psize l (L + poff) s Hh Hu) as (s1 & R1 & N1 & K1).
  destruct (law_munmap L PS s1) as (s2 & R2 & Ch2 & N2); try done; try lia.
  { rewrite up_aligned by (apply Z.mod_same; lia). done. }
  rewrite up_aligned in Ch2, N2 by (apply Z.mod_same; lia).
  assert (unload_sections L psize (Z.of_nat (length l)) poff s = Ok (1, s2)) as Hrun.
  { unfold unload_sections, mbind, sys_bind, call, mret, sys_ret.
    rewrite Nat2Z.id, wrap_small, R1 by lia. cbv beta iota. change (negb true) with false. cbv beta iota.
    by rewrite R2. }
  exists s2. split; [exact Hrun|]. split.
  { intros -> G1 G2 G3. unfold unload_elf, mbind, sys_bind, loads, mret, sys_ret.
    rewrite G1. cbn [mbind cres_bind]. rewrite G2. cbn [mbind cres_bind]. rewrite G3. cbn [mbind cres_bind].
    rewrite swrap_small by lia. by rewrite Hrun. }
  assert (forall a, ~ (in_first a \/ Exists (fun h => removed h a) (filter loadable l)) ->
    space s2 !! a = space s !! a) as Hkeep.
  { intros a Ha. rewrite Ch2, K1; [done| |]; intros Hx; apply Ha; [by right|by left]. }
  split; [|split; [exact Hkeep|]].
  - intros a Ha. destruct (decide (L <= a < L + PS)) as [Hin|Hout]; [by apply N2|].
    rewrite Ch2 by done. apply N1. by destruct Ha as [Ha|Ha].
  - intros h a Ht Hq Hpos Hpage Huh Ha Hnf Hall. apply Hkeep. intros [Hf|Hx]; [done|].
    apply Exists_exists in Hx as (q & Hin & Hr). rewrite Forall_forall in Hall.
    destruct (Hall q Hin) as [->|Hn]; [|done]. by apply (last_page_stays h a).
Qed.
End unload.

(** A program with a text segment and a data segment whose cleared memory
    fills two further pages; one byte of the second is set. *)
Definition text_phdr : phdr :=
  {| p_type := PT_LOAD; p_offset := 0; p_vaddr := 0x8048000; p_filesz := 0x2000; p_memsz := 0x2000; p_flags := 5 |}.
Definition data_phdr : phdr :=
  {| p_type := PT_LOAD; p_offset := 0x2100; p_vaddr := 0x804a100; p_filesz := 0x100; p_memsz := 0x2100; p_flags := 6 |}.
Definition phdr_bytes (h : phdr) : list Z :=
  le_bytes 4 (p_type h) ++ le_bytes 4 (p_offset h) ++ le_bytes 4 (p_vaddr h) ++ le_bytes 4 (p_vaddr h) ++
  le_bytes 4 (p_filesz h) ++ le_bytes 4 (p_memsz h) ++ le_bytes 4 (p_flags h) ++ le_bytes 4 4096.
Definition kernel_program : one_file :=
  {| of_space := <[0x804c000 := 42]> (put_bytes (take 52 small_elf ++ phdr_bytes text_phdr ++ phdr_bytes data_phdr) 0x8048000 ∅);
     of_bytes := []; of_offset := 0 |}.

Lemma unload_sections_removes_witness :
  exists s', unload_sections 0x8048000 32 2 52 kernel_program = Ok (1, s') /\
    space s' !! 0x8049000 = None /\ space s' !! 0x804c000 = Some 42.
Proof.
  assert (filter loadable [text_phdr; data_phdr] = [text_phdr; data_phdr]) as Hfil by (by vm_compute).
  destruct (unload_sections_removes (os := one_file) 0x8048000
    ltac:(split; [discriminate|split; [reflexivity|discriminate]]) 32 52 [text_phdr; data_phdr] kernel_program)
    as (s' & Hrun & _ & Hgone & Hkept & _).
  - split; [discriminate|reflexivity].
  - split; [discriminate|]. split; [discriminate|]. split; [discriminate|].
    intros [|[|i]] h Hh; [injection Hh as <-|injection Hh as <-|destruct i; discriminate];
      constructor; vm_compute; reflexivity.
  - rewrite Hfil. repeat constructor; discriminate.
  - exists s'. split; [exact Hrun|]. rewrite Hfil in Hgone, Hkept. split.
    + apply Hgone. right. left. split; [discriminate|]. left. split; [discriminate|reflexivity].
    + rewrite Hkept; [reflexivity|]. intros [[_ Hx]|Hx]; [vm_compute in Hx; discriminate|].
      apply Exists_cons in Hx as [(_ & [[_ Hx]|[Hx _]])|Hx]; [vm_compute in Hx; discriminate|by apply Hx|].
      apply Exists_cons in Hx as [(_ & [[_ Hx]|[_ [_ Hx]]])|Hx];
        [vm_compute in Hx; discriminate|vm_compute in Hx; discriminate|by apply Exists_nil in Hx].
Defined.
