(* ===== verification/ExecStack.v ===== *)
(** * The stack of the new program

    What the exec loader puts on the stack of the image reads back as the
    arguments and the environment. *)

From S2P Require Import Prelude CLib Memory Multiboot Posix ElfLoader LoaderExec.
Open Scope Z_scope.

(** A string in an array of characters. *)
Definition good (s : text) : Prop :=
  exists b, s = b ++ [NUL] /\ Forall (fun c => c <> 0 /\ -128 <= c < 128) b.

Definition size (s : text) : Z := Z.of_nat (length s).
Fixpoint total_size (l : list text) : Z :=
  match l with [] => 0 | s :: l' => size s + total_size l' end.

Lemma total_nonneg l : 0 <= total_size l.
Proof. induction l as [|s l IH]; cbn [total_size]; unfold size in *; lia. Qed.

Lemma good_strlen s : good s -> strlen s = Ok (size s - 1) /\ 0 < size s.
Proof.
  intros (b & -> & Hb). unfold size. rewrite length_app. cbn [length]. split; [|lia].
  replace (Z.of_nat (length b + 1) - 1) with (Z.of_nat (length b)) by lia.
  induction Hb as [|c b [Hc _] _ IH]; [done|]. cbn [app strlen length].
  rewrite (proj2 (Z.eqb_neq c 0) Hc), IH. cbn [mbind cres_bind]. f_equal. lia.
Qed.

Lemma strings_size_run l : Forall good l -> strings_size l = Ok (total_size l).
Proof.
  induction 1 as [|s l Hs _ IH]; [done|]. cbn [strings_size total_size].
  destruct (good_strlen s Hs) as [-> _]. cbn [mbind cres_bind]. rewrite IH. cbn [mbind cres_bind].
  f_equal. lia.
Qed.

(** The bytes of [s] are at [q]. *)
Definition text_at (m : mem) (q : Z) (s : text) : Prop :=
  forall i c, s !! i = Some c -> m !! (q + Z.of_nat i) = Some (u8 c).

Lemma store_text_run s : forall a m,
  mapped m a (a + size s) ->
  exists m', store_text s a m = Ok m' /\ only_changes m m' a (a + size s) /\ text_at m' a s.
Proof.
  unfold size. induction s as [|c s IH]; intros a m Hm.
  - exists m. split; [done|]. split; [apply only_changes_refl|done].
  - cbn [length] in *. cbn [store_text].
    pose proof (store8_ok m a c ltac:(apply Hm; lia)) as R. rewrite R. cbn [mbind cres_bind].
    pose proof (store8_changes _ _ _ _ R) as Ch.
    destruct (IH (a + 1) (<[a := u8 c]> m)) as (m' & R' & Ch' & Ht).
    { eapply mapped_only_changes; [exact Ch|]. eapply mapped_mono; [exact Hm|lia|lia]. }
    exists m'. split; [done|]. split.
    + eapply only_changes_trans; eapply only_changes_mono; try done; lia.
    + intros [|i] x Hx.
      * injection Hx as <-. rewrite Z.add_0_r, (proj2 Ch') by lia. apply lookup_insert_eq.
      * replace (a + Z.of_nat (S i)) with (a + 1 + Z.of_nat i) by lia. by apply Ht.
Qed.

(** A string read back. *)
Lemma load_string_at s m q : forall b, s = b ++ [NUL] -> Forall (fun c => c <> 0 /\ -128 <= c < 128) b ->
  text_at m q s -> load_string (length s) m q = Ok b.
Proof.
  revert q. induction s as [|c s IH]; intros q b Hs Hb Ht; [by destruct b|].
  pose proof (Ht 0%nat c eq_refl) as H0. rewrite Z.add_0_r in H0.
  cbn [length load_string]. unfold load8. rewrite H0. cbn [mbind cres_bind].
  destruct b as [|x b]; injection Hs as -> Hs; [done|].
  apply Forall_cons in Hb as [[Hx Hr] Hb].
  assert (u8 x <> 0) as Hnz.
  { unfold wrap. intros Hz. apply Z.mod_divide in Hz as [k Hk]; [|done]. lia. }
  rewrite (proj2 (Z.eqb_neq _ 0) Hnz). rewrite (IH (q + 1) b Hs Hb).
  - cbn [mbind cres_bind]. do 2 f_equal. unfold swrap, wrap. rewrite Z.add_mod_idemp_l by done.
    change (2 ^ (8 - 1)) with 128. rewrite Z.mod_small by lia. lia.
  - intros i y Hy. replace (q + 1 + Z.of_nat i) with (q + Z.of_nat (S i)) by lia. by apply Ht.
Qed.

(** The pointers from [pointer] on lead to the strings [l], all in [lo, hi). *)
Definition strings_at (m : mem) (pointer : Z) (l : list text) (lo hi : Z) : Prop :=
  forall i s, l !! i = Some s -> exists q,
    load32 m (pointer + 4 * Z.of_nat i) = Ok q /\ lo <= q /\ q + size s <= hi /\ text_at m q s.

Definition outside (m m' : mem) (a b lo hi : Z) : Prop :=
  dom m' = dom m /\ forall x, ~ (a <= x < b) -> ~ (lo <= x < hi) -> m' !! x = m !! x.

Lemma outside_mapped m m' a b lo hi x y : outside m m' a b lo hi -> mapped m x y -> mapped m' x y.
Proof.
  intros [Hd _] Hm z Hz. apply elem_of_dom. rewrite Hd. apply elem_of_dom. by apply Hm.
Qed.

Lemma text_at_kept m m' q s : (forall x, q <= x < q + size s -> m' !! x = m !! x) ->
  text_at m q s -> text_at m' q s.
Proof.
  intros Hk Ht i c Hi. rewrite Hk; [by apply Ht|]. apply lookup_lt_Some in Hi. unfold size. lia.
Qed.

Lemma load32_kept m m' a : (forall x, a <= x < a + 4 -> m' !! x = m !! x) -> load32 m' a = load32 m a.
Proof. intros Hk. apply load_le_agree. intros x Hx. apply Hk. exact Hx. Qed.

Lemma store32_run m a v : mapped m a (a + 4) -> 0 <= v < 2 ^ 32 ->
  exists m', store32 m a v = Ok m' /\ only_changes m m' a (a + 4) /\ load32 m' a = Ok v.
Proof.
  intros Hm Hv. unfold store32. rewrite wrap_small by done.
  destruct (store_le_ok 4 m a v Hm) as (m' & R). exists m'. split; [done|].
  split; [by apply store_le_changes in R|]. by apply (load_store_le 4 m).
Qed.

Lemma strings_at_kept m m' pointer l lo hi :
  (forall x, lo <= x < hi -> m' !! x = m !! x) ->
  (forall x, pointer <= x < pointer + 4 * Z.of_nat (length l) -> m' !! x = m !! x) ->
  strings_at m pointer l lo hi -> strings_at m' pointer l lo hi.
Proof.
  intros H1 H2 Hs i s Hi. destruct (Hs i s Hi) as (q & Hq & Hlo & Hhi & Ht).
  pose proof (lookup_lt_Some _ _ _ Hi). exists q. split_and!; try done.
  - rewrite (load32_kept m m'); [done|]. intros x Hx. apply H2. lia.
  - eapply text_at_kept; [|exact Ht]. intros x Hx. apply H1. lia.
Qed.

Lemma put_strings_run l : forall sp pointer m,
  Forall good l -> 0 <= pointer -> pointer + 4 * Z.of_nat (length l) <= sp - total_size l -> sp < 2 ^ 32 ->
  mapped m pointer sp ->
  exists m', put_strings l sp pointer m = Ok (sp - total_size l, m') /\
    outside m m' pointer (pointer + 4 * Z.of_nat (length l)) (sp - total_size l) sp /\
    strings_at m' pointer l (sp - total_size l) sp.
Proof.
  induction l as [|s l IH]; intros sp pointer m Hg Hp Hroom Hsp Hm.
  { exists m. cbn [put_strings total_size]. rewrite Z.sub_0_r. split; [done|]. split; [by split|done]. }
  apply Forall_cons in Hg as [Hs Hg]. destruct (good_strlen s Hs) as [Hlen Hpos].
  pose proof (total_nonneg l) as Htot. cbn [put_strings total_size length] in *. rewrite Hlen. cbn [mbind cres_bind].
  replace (size s - 1 + 1) with (size s) by lia.
  assert (take (Z.to_nat (size s)) s = s) as -> by (apply take_ge; unfold size; lia).
  destruct (store_text_run s (sp - size s) m) as (m1 & R1 & C1 & T1).
  { eapply mapped_mono; [exact Hm|lia|lia]. }
  rewrite R1. cbn [mbind cres_bind].
  destruct (store32_run m1 pointer (sp - size s)) as (m2 & R2 & C2 & L2).
  { eapply mapped_only_changes; [exact C1|]. eapply mapped_mono; [exact Hm|lia|lia]. }
  { lia. }
  rewrite R2. cbn [mbind cres_bind].
  destruct (IH (sp - size s) (pointer + 4) m2) as (m' & R & C & S'); [done|lia|lia|lia| |].
  { eapply mapped_only_changes; [exact C2|]. eapply mapped_only_changes; [exact C1|].
    eapply mapped_mono; [exact Hm|lia|lia]. }
  replace (sp - (size s + total_size l)) with (sp - size s - total_size l) by lia.
  exists m'. split; [exact R|]. destruct C as [Cd C]. split.
  - split; [by rewrite Cd, (proj1 C2), (proj1 C1)|]. intros x Hx1 Hx2.
    rewrite C, (proj2 C2), (proj2 C1) by lia. done.
  - intros [|i] t Hi.
    + injection Hi as <-. exists (sp - size s). rewrite Z.mul_0_r, Z.add_0_r. split_and!; [|lia|lia|].
      * rewrite (load32_kept m2 m'); [done|]. intros x Hx. apply C; lia.
      * eapply text_at_kept; [|exact T1]. intros x Hx. rewrite C, (proj2 C2) by lia. done.
    + destruct (S' i t Hi) as (q & Hq & ? & ? & ?). exists q. split_and!; try done; [|lia].
      rewrite <- Hq. f_equal. lia.
Qed.

(** ** The new program's view *)

(** A vector of strings that ends with a null pointer, as a program reads its
    arguments: at most [n] strings of less than [len] characters. *)
Fixpoint read_vector (n len : nat) (m : mem) (p : Z) : cres (list text) :=
  match n with
  | O => Fault OutOfFuel
  | S n' =>
    q ← load32 m p;
    if q =? 0 then Ok [] else
    s ← load_string len m q; l ← read_vector n' len m (p + 4); Ok (s :: l)
  end.

Lemma load_string_more len m q b : load_string len m q = Ok b -> forall len', (len <= len')%nat ->
  load_string len' m q = Ok b.
Proof.
  revert q b. induction len as [|len IH]; intros q b H len' Hle; [done|].
  destruct len' as [|len']; [lia|]. cbn [load_string] in *. destruct (load8 m q) as [x|]; [|done].
  cbn [mbind cres_bind] in *. destruct (x =? 0); [done|].
  destruct (load_string len m (q + 1)) as [s|] eqn:E; [|done].
  rewrite (IH _ _ E) by lia. done.
Qed.

Lemma read_vector_run l : forall m p lo hi n len,
  Forall good l -> 0 < lo -> strings_at m p l lo hi -> load32 m (p + 4 * Z.of_nat (length l)) = Ok 0 ->
  (length l < n)%nat -> Forall (fun s => (length s <= len)%nat) l ->
  read_vector n len m p = Ok (body <$> l).
Proof.
  induction l as [|s l IH]; intros m p lo hi n len Hg Hlo Hs Hend Hn Hlen;
    (destruct n as [|n]; [cbn in Hn; lia|]); cbn [read_vector length] in *.
  - rewrite Z.mul_0_r, Z.add_0_r in Hend. by rewrite Hend.
  - destruct (Hs 0%nat s eq_refl) as (q & Hq & Hqlo & _ & Ht). rewrite Z.mul_0_r, Z.add_0_r in Hq.
    rewrite Hq. cbn [mbind cres_bind]. rewrite (proj2 (Z.eqb_neq q 0)) by lia.
    apply Forall_cons in Hg as [(b & Hb & Hc) Hg]. apply Forall_cons in Hlen as [Hl1 Hlen].
    rewrite (load_string_more _ _ _ _ (load_string_at s m q b Hb Hc Ht) len Hl1). cbn [mbind cres_bind].
    rewrite (IH m (p + 4) lo hi n len); try done; [|intros i t Hi|by rewrite <- Hend; f_equal; lia|lia].
    + cbn [mbind cres_bind fmap list_fmap]. do 2 f_equal. subst s. clear -Hc.
      induction Hc as [|c b [Hc _] _ IH]; [done|]. cbn. rewrite (proj2 (Z.eqb_neq c 0) Hc). by f_equal.
    + destruct (Hs (S i) t Hi) as (q' & Hq' & ?). exists q'. split; [|done]. rewrite <- Hq'. f_equal. lia.
Qed.

Definition stack_size (argv envp : list text) : Z :=
  total_size argv + 4 * (Z.of_nat (length argv) + 1) + total_size envp + 4 * (Z.of_nat (length envp) + 1).

Lemma build_stack_run argv envp entry m n len :
  Forall good argv -> Forall good envp -> stack_size argv envp <= IMAGE_SIZE ->
  mapped m (IMAGE_START + IMAGE_SIZE - stack_size argv envp) (IMAGE_START + IMAGE_SIZE) ->
  (length argv < n)%nat -> (length envp < n)%nat ->
  Forall (fun s => (length s <= len)%nat) (argv ++ envp) ->
  let top := IMAGE_START + IMAGE_SIZE in
  exists x m', build_stack argv envp entry m = Ok (x, m') /\
    ex_argc x = Z.of_nat (length argv) /\ ex_envc x = Z.of_nat (length envp) /\ ex_entry x = entry /\
    read_vector n len m' (ex_argv x) = Ok (body <$> argv) /\
    read_vector n len m' (ex_envp x) = Ok (body <$> envp) /\
    ex_stack x + 16 = top - stack_size argv envp /\
    outside m m' (ex_stack x + 16) top (ex_stack x + 16) top.
Proof.
  intros Ha He Hsize Hm Hna Hne Hlen top. apply Forall_app in Hlen as [Hla Hle].
  unfold build_stack. rewrite !strings_size_run by done. cbn [mbind cres_bind].
  pose proof (total_nonneg argv). pose proof (total_nonneg envp). unfold stack_size in *.
  fold top. assert (top = 0x18000000) as Htop by done. assert (IMAGE_SIZE = 0x10000000) as HI by done.
  assert (IMAGE_START = 0x8000000) as HS by done.
  set (ac := Z.of_nat (length argv)) in *. set (ec := Z.of_nat (length envp)) in *.
  set (ap := top - total_size argv - (ac + 1) * 4).
  destruct (put_strings_run argv top ap m) as (m1 & R1 & O1 & S1); [done|lia|fold ac; lia|lia| |].
  { eapply mapped_mono; [exact Hm|lia|lia]. }
  rewrite R1. cbn [mbind cres_bind fst snd].
  replace (top - total_size argv - (ac + 1) * 4) with ap by done.
  set (ep := ap - total_size envp - (ec + 1) * 4).
  destruct (put_strings_run envp ap ep m1) as (m2 & R2 & O2 & S2); [done|lia|fold ec; lia|lia| |].
  { eapply outside_mapped; [exact O1|]. eapply mapped_mono; [exact Hm|lia|lia]. }
  rewrite R2. cbn [mbind cres_bind fst snd]. fold ac in O1. fold ec in O2.
  destruct (store32_run m2 (ap + 4 * ac) 0) as (m3 & R3 & C3 & L3); [|lia|].
  { eapply outside_mapped; [exact O2|]. eapply outside_mapped; [exact O1|].
    eapply mapped_mono; [exact Hm|lia|lia]. }
  rewrite R3. cbn [mbind cres_bind].
  destruct (store32_run m3 (ep + 4 * ec) 0) as (m4 & R4 & C4 & L4); [|lia|].
  { eapply mapped_only_changes; [exact C3|]. eapply outside_mapped; [exact O2|].
    eapply outside_mapped; [exact O1|]. eapply mapped_mono; [exact Hm|lia|lia]. }
  rewrite R4. cbn [mbind cres_bind]. destruct C3 as [D3 C3], C4 as [D4 C4].
  destruct O1 as [D1 O1], O2 as [D2 O2].
  eexists _, m4. split; [reflexivity|]. cbn [ex_argc ex_envc ex_entry ex_argv ex_envp ex_stack].
  split_and!; try done.
  - apply (read_vector_run argv m4 ap (top - total_size argv) top); try done; [lia| |].
    + eapply (strings_at_kept m1 m4); [| |exact S1]; intros x Hx; rewrite C4, C3, O2 by lia; done.
    + fold ac. rewrite (load32_kept m3 m4); [exact L3|]. intros x Hx. apply C4. lia.
  - apply (read_vector_run envp m4 ep (ap - total_size envp) ap); try done; [lia|].
    eapply (strings_at_kept m2 m4); [| |exact S2]; intros x Hx; rewrite C4, C3 by lia; done.
  - lia.
  - split; [by rewrite D4, D3, D2, D1|]. intros x Hx1 Hx2. rewrite C4, C3, O2, O1 by lia. done.
Qed.

Lemma copy_args_run slack av : (3 <= length av)%nat ->
  copy_args slack av = if decide (slack = 0%nat) then Fault OutOfBounds else Ok (drop 3 av).
Proof.
  intros Hlen. unfold copy_args.
  assert (length (drop 3 av) = (length av - 3)%nat) as Hd by apply length_drop.
  set (array := (Some <$> drop 3 av) ++ replicate _ None).
  assert (length array = (length av - 2 + slack)%nat) as Ha.
  { unfold array. rewrite length_app, length_fmap, length_replicate, Hd. lia. }
  unfold set_slot. rewrite Ha. destruct (decide (slack = 0%nat)) as [->|Hs].
  - rewrite (proj2 (Z.ltb_ge _ _)) by lia. by rewrite andb_false_r.
  - rewrite (proj2 (Z.leb_le _ _)), (proj2 (Z.ltb_lt _ _)) by lia. cbn [andb mbind cres_bind]. f_equal.
    rewrite take_insert_ge by lia. unfold array.
    rewrite take_app_le by (rewrite length_fmap; lia). rewrite take_ge by (rewrite length_fmap; lia).
    clear. induction (drop 3 av) as [|a l IH]; [done|]. cbn. by f_equal.
Qed.

Section start.
Context {os : Type} {P : Posix os}.

(** C4: the new program finds its arguments and its environment.  When the
    kernel's program has been unmapped and the image mapped, and the image has
    room for the strings at its end, [_start] jumps to the given entry point
    with the numbers of arguments and environment strings, with vectors from
    which the program reads exactly the strings from the fourth argument on
    and the environment, and with a stack pointer below all of these; nothing
    else is written.  But that holds only where [alloca] gives more room than
    is asked for: one element of the argument vector is written behind its
    end, however many arguments there are. *)
Theorem start_arguments slack av env a1 a2 entry name s r s1 s2 n len :
  (forall m t, space (set_space m t) = m) ->
  av !! 1%nat = Some a1 -> av !! 2%nat = Some a2 -> atoi a1 = Ok entry ->
  snprintf_format (snprintf_s a2) = Ok name ->
  unload_elf s = Ok (r, s1) -> load_image (snprintf_s a2) s1 = Ok (1, s2) ->
  Forall good (drop 3 av) -> Forall good env -> stack_size (drop 3 av) env <= IMAGE_SIZE ->
  mapped (space s2) (IMAGE_START + IMAGE_SIZE - stack_size (drop 3 av) env) (IMAGE_START + IMAGE_SIZE) ->
  (length av + length env < n)%nat -> Forall (fun s => (length s <= len)%nat) (drop 3 av ++ env) ->
  (3 <= length av)%nat ->
  (slack = 0%nat -> _start slack av env s = Fault OutOfBounds) /\
  (slack <> 0%nat -> exists x s3, _start slack av env s = Ok (x, s3) /\
     ex_argc x = Z.of_nat (length av) - 3 /\ ex_envc x = Z.of_nat (length env) /\ ex_entry x = entry /\
     read_vector n len (space s3) (ex_argv x) = Ok (body <$> drop 3 av) /\
     read_vector n len (space s3) (ex_envp x) = Ok (body <$> env) /\
     ex_stack x + 16 = IMAGE_START + IMAGE_SIZE - stack_size (drop 3 av) env /\
     forall a, ~ (ex_stack x + 16 <= a < IMAGE_START + IMAGE_SIZE) -> space s3 !! a = space s2 !! a) /\
  (forall fv f1 f2 f3 f4 base stack go s', fv !! 1%nat = Some f1 -> fv !! 2%nat = Some f2 ->
     fv !! 3%nat = Some f3 -> fv !! 4%nat = Some f4 -> atoi f1 = Ok base -> atoi f2 = Ok stack ->
     atoi f3 = Ok go -> load_image (snprintf_s f4) s1 = Ok (1, s') ->
     _start_fork fv s = Ok ({| fs_base := u32 base; fs_stack := u32 stack; fs_entry := u32 go |}, s')).
Proof.
  intros Hsp H1 H2 Hentry Hname Hun Him Hg1 Hg2 Hsize Hm Hn Hlen Hav.
  assert (length (drop 3 av) = (length av - 3)%nat) as Hd by apply length_drop.
  unfold _start, mbind, sys_bind, value. rewrite H1, H2. cbn [mbind cres_bind]. rewrite Hentry.
  cbn [mbind cres_bind]. rewrite Hname. cbn [mbind cres_bind]. rewrite copy_args_run by done. split_and!.
  - intros ->. by rewrite decide_True.
  - intros Hs. rewrite decide_False by done. cbn [mbind cres_bind]. rewrite Hun, Him.
    change (1 =? 0) with false. cbv iota.
    destruct (build_stack_run (drop 3 av) env entry (space s2) n len) as (x & m' & -> & E1 & E2 & E3 & R1 & R2 & T & [_ O]);
      try done; try lia.
    cbn [mbind cres_bind fst snd]. exists x, (set_space m' s2). rewrite Hsp.
    split_and!; try done; [lia|]. intros a Ha. apply O; done.
  - intros fv f1 f2 f3 f4 base stack go s' E1 E2 E3 E4 A1 A2 A3 Hl.
    unfold _start_fork, mbind, sys_bind, value. rewrite E1, E2, E3, E4. cbn [mbind cres_bind].
    rewrite A1. cbn [mbind cres_bind]. rewrite A2. cbn [mbind cres_bind]. rewrite A3. cbn [mbind cres_bind].
    by rewrite Hun, Hl.
Qed.
End start.

(** A system whose space is only what is stored in it: the image is there. *)
#[local] Instance plain_os : Posix mem := {
  getpagesize := 4096;
  open_ _ _ s := (3, s);
  read _ _ s := ((0, []), s);
  lseek _ off s := (off, s);
  close _ s := (0, s);
  mmap addr _ _ _ _ _ s := (addr, s);
  munmap _ _ s := (0, s);
  space s := s;
  set_space m _ := m;
  contents _ _ := None;
  offset _ _ := 0
}.

Definition stack_memory : mem :=
  put_bytes (replicate 64 0) (IMAGE_START + IMAGE_SIZE - 64) (put_bytes (replicate 52 0) 0x8048000 ∅).

Lemma header_empty : unload_elf (os := mem) stack_memory = Ok (1, stack_memory).
Proof.
  assert (forall a, 0x8048000 <= a < 0x8048034 -> stack_memory !! a = Some 0) as Hb.
  { intros a Ha. unfold stack_memory. rewrite put_bytes_out by (rewrite length_replicate; unfold IMAGE_START, IMAGE_SIZE; lia).
    replace a with (0x8048000 + (a - 0x8048000)) by lia.
    rewrite put_bytes_in by (rewrite length_replicate; lia). apply lookup_replicate_2. lia. }
  assert (forall f o w, field_of Elf32_Ehdr f = Some (o, w) -> 0 <= o -> o + Z.of_nat w <= 52 ->
    get Elf32_Ehdr 0x8048000 f stack_memory = Ok 0) as Hz.
  { intros f o w Hf Ho Hw. unfold get. rewrite Hf, wrap_small by lia.
    assert (forall k a, 0x8048000 <= a -> a + Z.of_nat k <= 0x8048034 -> load_le k stack_memory a = Ok 0) as Hl.
    { induction k as [|k IH]; intros a Ha Hk; [done|]. cbn [load_le]. unfold load8.
      rewrite Hb by lia. cbn [mbind cres_bind]. rewrite IH by lia. done. }
    apply Hl; lia. }
  unfold unload_elf, mbind, sys_bind, loads, mret, sys_ret. change (space stack_memory) with stack_memory.
  rewrite (Hz "e_phentsize"%string 42 2%nat) by done. cbn [mbind cres_bind].
  change (space stack_memory) with stack_memory.
  rewrite (Hz "e_phnum"%string 44 2%nat) by done. cbn [mbind cres_bind].
  change (space stack_memory) with stack_memory.
  rewrite (Hz "e_phoff"%string 28 4%nat) by done. reflexivity.
Qed.

Lemma start_arguments_witness :
  exists x s3, _start 1 [cstr "loader"; cstr "4096"; cstr "/1"; cstr "sh"; cstr "-c"] [cstr "A=b"] stack_memory = Ok (x, s3) /\
    ex_entry x = 4096 /\ read_vector 9 9 s3 (ex_argv x) = Ok [chars "sh"; chars "-c"].
Proof.
  destruct (start_arguments (P := plain_os) 1 [cstr "loader"; cstr "4096"; cstr "/1"; cstr "sh"; cstr "-c"] [cstr "A=b"]
    (cstr "4096") (cstr "/1") 4096 (cstr "/1") stack_memory 1 stack_memory stack_memory 9 9)
    as (_ & Hstart & _);
    [..|destruct Hstart as (x & s3 & Hrun & _ & _ & He & Hargs & _)].
  - reflexivity.
  - reflexivity.
  - reflexivity.
  - vm_compute. reflexivity.
  - vm_compute. reflexivity.
  - exact header_empty.
  - reflexivity.
  - repeat constructor; [exists (chars "sh")|exists (chars "-c")]; (split; [reflexivity|]);
      repeat constructor; discriminate.
  - repeat constructor. exists (chars "A=b"). split; [reflexivity|]. repeat constructor; discriminate.
  - discriminate.
  - intros a Ha. exists 0. change (stack_memory !! a = Some 0). unfold stack_memory.
    change (stack_size _ _) with 30 in Ha.
    replace a with (IMAGE_START + IMAGE_SIZE - 64 + (a - (IMAGE_START + IMAGE_SIZE - 64))) by lia.
    rewrite put_bytes_in by (rewrite length_replicate; lia). apply lookup_replicate_2. lia.
  - cbn. lia.
  - repeat constructor; cbn; lia.
  - cbn. lia.
  - discriminate.
  - exists x, s3. split; [exact Hrun|]. split; [exact He|exact Hargs].
Defined.
