(* ===== verification/KernelStart.v ===== *)
(** * The kernel starts its bricks: [x86_kernel.c]

    [cmain] creates the first bricks and wires them by writing strategy texts to
    the strategy brick: [b_cmd] prints a text and writes it, [b_boot] gets an
    address first and writes the text there.  The printer (Doprnt), the strategy
    brick (ControlSimple), and the interpreter of the texts (AdaptStrat) are put
    together here; what the machine-dependent part of [cmain] does before is in
    Screen, Console, PhysMem and TableInit. *)

From S2P Require Import Prelude CLib Common StratScan AdaptStrat Cells ControlSimple ControlWiring ControlState ControlFrame ControlOps ControlCreate ControlBoot ControlSafe ControlText Doprnt DoprntSpec.
Open Scope Z_scope.

Definition DEFAULT_TRANSFER : Z := 4096.

(** The string that begins at a buffer *)
Definition string_in (t : text) : text := body t ++ [NUL].

Section kernel.
Context {W : Type} (loaders : list loader_t) (code : brick_code W) (grants : nat -> bool) (junk : args) (others : op_t -> args -> text -> control (W := W) args).
(** What the stack holds at [str] and [addr], and where [str] is *)
Context (stack_str stack_addr : text) (at_str : Z).
Abbreviation state := (control_state W).
Implicit Types (s : state).

(** ** The code *)

(** [vsnprintf] to [str]; a result of 511 ends the kernel. *)
Definition print_command (fmt : text) (va : list argument) : cres text :=
  r ← vsnprintf stack_str 511 fmt va;
  if r.2 =? 511 then Fault Aborted else Ok r.1.

Definition cmd_args (adr n : Z) : args :=
  zero_args <| name := replicate 24 0 |> <| log_addr := adr |> <| log_len := n |> <| phys_addr := at_str |> <| direction := direct_write |>.

Definition b_cmd (adr : Z) (fmt : text) (param : text) (va : list argument) : control (W := W) bool :=
  str ← lift (print_command fmt va);
  n ← lift (strlen str);
  a ← op_trans loaders code grants junk others (string_in str) (cmd_args adr n) param;
  mret (success a).

(** The initialised members; the others are zero. *)
Definition boot_args : args :=
  zero_args <| name := replicate 24 0 |> <| log_len := DEFAULT_TRANSFER |> <| reader := false |> <| exclu := true |> <| action := action_wait |>
    <| melt := true |> <| try_len := DEFAULT_TRANSFER |> <| op_code := opcode_gadr |> <| success := false |>.

Definition b_boot (fmt : text) (param : text) (va : list argument) : control (W := W) Z :=
  str ← lift (print_command fmt va);
  a ← operation loaders code grants junk others opcode_gadr boot_args param;
  if negb (success a) then fault Aborted else
  n ← lift (strlen str);
  a ← op_trans loaders code grants junk others (string_in str)
    (a <| success := false |> <| log_len := n |> <| phys_addr := at_str |> <| direction := direct_write |> <| op_code := opcode_trans |>) param;
  if negb (success a) then fault Aborted else mret (log_addr a).

(** [for (i = 0; i < 16; i++)] *)
Fixpoint irq_loop (n : nat) (i : Z) (cpu : Z) : control (W := W) Z :=
  match n with
  | O => mret i
  | S n' => _ ← b_cmd cpu (chars "output:=irq[%i]" ++ [NL; NUL]) (cstr "") [Word i]; irq_loop n' (i + 1) cpu
  end.

(** The bricks, from the default output of the strategy brick to the strategy
    level; the addresses of the bricks *)
Definition start_bricks : control (W := W) (list Z) :=
  let control := DEFAULT_TRANSFER in
  _ ← b_cmd control (chars "output:=control" ++ [NL; NUL]) (cstr "") [];
  map ← b_boot (chars "brick:=map_dummy" ++ NL :: chars " output:=out{" ++ [NL; NUL]) (cstr "") [];
  meta ← b_boot (chars "brick:=adapt_meta" ++ NL :: chars " connect in:=%llx:out" ++ NL :: chars " output:=out" ++ [NL; NUL]) (cstr "") [DWord map];
  _ ← b_cmd 0 (cstr "output:=_root") (cstr "") [];
  _ ← b_cmd meta (cstr "connect hook:=0:_root") (cstr "") [];
  cpu ← b_boot (chars "brick+=cpu_x86" ++ [NL; NUL]) (cstr "") [];
  i ← irq_loop 16 0 cpu;
  _ ← b_cmd cpu (chars "output:=int80" ++ [NL; NUL]) (cstr "") [Word i];
  fs ← b_boot (chars "brick:=fs_simple" ++ NL :: chars " connect strat:=%llx:control" ++ NL :: chars " output:=control{" ++ [NL; NUL]) (cstr "_root") [DWord control];
  strategy ← b_boot (chars "brick:=strategy_native" ++ NL :: chars " connect strat:=%llx:control" ++ NL :: cstr " connect fs:=%llx:control") (cstr "")
    [DWord control; DWord fs; DWord cpu];
  r ← lift (vsprintf stack_addr (cstr "%llx %llx") [DWord strategy; DWord cpu]);
  _ ← b_cmd strategy (chars "output:=posix" ++ [NL; NUL]) r.1 [];
  _ ← b_cmd strategy (chars "output:=dummy" ++ [NL; NUL]) r.1 [];
  mret [map; meta; cpu; fs; strategy].

(** [init_static_control_simple()] comes first. *)
Definition start_kernel : control (W := W) (list Z) :=
  _ ← boot loaders code grants junk; start_bricks.

(** ** What it comes down to

    A list of commands for a brick; a fresh address may be taken first. *)

Record entry := { fresh : bool; at_ : Z; lines : list line; last_nl : bool; with_param : text }.

Definition first_args (e : entry) (n : Z) : args :=
  if fresh e then
    boot_args <| log_addr := at_ e |> <| log_len := n |> <| phys_addr := at_str |> <| direction := direct_write |> <| op_code := opcode_trans |>
  else cmd_args (at_ e) n.

#[local] Instance strategy : Strategy state := control_strategy loaders code grants junk others.

Definition perform (e : entry) s : cres state :=
  let s := if fresh e then s <| last_addr := u64 (at_ e + DEFAULT_TRANSFER) |> else s in
  let a := first_args e (Z.of_nat (pred (length (script (last_nl e) (lines e))))) in
  r ← run (lines e) (a <| conn1 := Some (zero_conn <| conn_addr := at_ e |>) |> <| conn2 := Some zero_conn |>) (with_param e) s;
  Ok r.2.

Fixpoint performs (es : list entry) s : cres state :=
  match es with [] => Ok s | e :: es' => s ← perform e s; performs es' s end.

Definition out_line (i : nat) (nm : string) (ix : option Z) (tl : string) : line :=
  {| indent := i; cmd := InstConn true (ch ":") {| cs_name := chars nm; cs_index := ix |}; tail := chars tl |}.
Definition brick_line (nm : string) : line := {| indent := 0; cmd := InstBrick (chars nm) None; tail := [] |}.
Definition connect_line (i : nat) (nm : string) (adr : Z) (other : string) : line :=
  {| indent := i; cmd := AdaptStrat.Connect {| cs_name := chars nm; cs_index := None |} [(adr, {| cs_name := chars other; cs_index := None |})]; tail := [] |}.
Definition command (adr : Z) (l : list line) (b : bool) (param : text) : entry :=
  {| fresh := false; at_ := adr; lines := l; last_nl := b; with_param := param |}.
Definition creation (adr : Z) (l : list line) (b : bool) (param : text) : entry :=
  {| fresh := true; at_ := adr; lines := l; last_nl := b; with_param := param |}.

(** The commands of [cmain].  Those to [0x4000] are for a brick that is not
    there: [brick+=] creates none. *)
Definition irq_entries (i n : nat) : list entry :=
  (fun i => command 0x4000 [out_line 0 "irq" (Some (Z.of_nat i)) ""] true (cstr "")) <$> seq i n.
Definition bricks_entries : list entry :=
  [ command 0x1000 [out_line 0 "control" None ""] true (cstr "");
    creation 0x2000 [brick_line "map_dummy"; out_line 1 "out" None "{"] true (cstr "");
    creation 0x3000 [brick_line "adapt_meta"; connect_line 1 "in" 0x2000 "out"; out_line 1 "out" None ""] true (cstr "");
    command 0 [out_line 0 "_root" None ""] false (cstr "");
    command 0x3000 [connect_line 0 "hook" 0 "_root"] false (cstr "");
    creation 0x4000 [{| indent := 0; cmd := OtherBrick (ch "+") (chars "cpu_x86"); tail := [] |}] true (cstr "") ].
Definition strategy_param : text := cstr "6000 4000" ++ drop 10 stack_addr.
Definition level_entries : list entry :=
  [ command 0x4000 [out_line 0 "int80" None ""] true (cstr "");
    creation 0x5000 [brick_line "fs_simple"; connect_line 1 "strat" 0x1000 "control"; out_line 1 "control" None "{"] true (cstr "_root");
    creation 0x6000 [brick_line "strategy_native"; connect_line 1 "strat" 0x1000 "control"; connect_line 1 "fs" 0x5000 "control"] false (cstr "");
    command 0x6000 [out_line 0 "posix" None ""] true strategy_param;
    command 0x6000 [out_line 0 "dummy" None ""] true strategy_param ].
Definition kernel_entries : list entry := bricks_entries ++ irq_entries 0 16 ++ level_entries.

(** ** Printing a command *)

Lemma string_in_run t u : Forall (fun c => c <> 0) t -> string_in (t ++ NUL :: u) = t ++ [NUL].
Proof. unfold string_in. intros Ht. f_equal. induction Ht as [|c t Hc _ IH]; [done|]. cbn [app body]. by rewrite (proj2 (Z.eqb_neq _ _) Hc), IH. Qed.

Lemma vsprintf_fits m obj fmt va out : _doprnt fmt va 0 = Ok out -> m = SPRINTF_UNLIMITED \/ Z.of_nat (length out) <= m ->
  Z.of_nat (length out) < 2 ^ 31 -> (length out < length obj)%nat ->
  vsprintf_max m obj fmt va = Ok (out ++ NUL :: drop (S (length out)) obj, Z.of_nat (length out)).
Proof.
  intros Hout Hm Hlim Hobj. unfold vsprintf_max. rewrite Hout. cbn [mbind cres_bind].
  rewrite savechars_room; cbn [len sp_target Doprnt.max]; [|lia..]. rewrite decide_True by lia. cbn [mbind cres_bind len sp_target].
  rewrite decide_True by lia. rewrite swrap_small by lia. change (Z.to_nat 0) with 0%nat. rewrite take_0, Z.add_0_l, Nat2Z.id. cbn [app].
  rewrite Nat.add_0_l. do 2 f_equal. rewrite insert_app_r_alt, Nat.sub_diag by done. f_equal.
  destruct (drop (length out) obj) as [|x r] eqn:Hd; [apply (f_equal length) in Hd; rewrite length_drop in Hd; cbn in Hd; lia|].
  cbn. f_equal. by rewrite <- Nat.add_1_r, <- drop_drop, Hd.
Qed.

Context (Hstr : length stack_str = 512%nat) (Haddr : length stack_addr = 32%nat).

Lemma print_command_text fmt va out : _doprnt fmt va 0 = Ok out -> (length out < 511)%nat ->
  print_command fmt va = Ok (out ++ NUL :: drop (S (length out)) stack_str).
Proof.
  intros Hout Hl. unfold print_command, vsnprintf. rewrite (vsprintf_fits _ _ _ _ out Hout) by (try change (u32 511) with 511; lia).
  cbn [mbind cres_bind snd fst]. by rewrite (proj2 (Z.eqb_neq _ _)) by lia.
Qed.

(** ** Commands on the strategy brick *)

Context (Hbrick : forall ld b a param w, kept a (init_brick code ld b a param w).1)
  (Hconn : forall ld i o a param w, kept a (init_conn code ld i o a param w).1)
  (Hothers : forall op a param s a' s', others op a param s = Ok (a', s') -> shaped a -> shaped a')
  (Hloaders : loaders_ok loaders) (Hgrants : forall n, grants n = true)
  (Hinit : forall ld i o a param w, success (init_conn code ld i o a param w).1 = true)
  (w : W) (ld : nat) (l0 : loader_t) (Hboot : boot_table loaders ld l0).
Abbreviation reached := (reachable loaders code grants junk others w).

(** A [$connect] in a state that requests lead to has stopped the kernel. *)
Definition halts {A} (r : cres A) : Prop :=
  exists f a s param, r = Fault f /\ reached s /\ request loaders code grants junk others opcode_connect a param s = Fault f.

(** [does p v lo hi es]: from the next free address [lo] on, [p] is [es], with
    the result [v], and [hi] is the next free address then. *)
Definition ends (hi : Z) (r : cres state) : Prop := (exists s, r = Ok s /\ reached s /\ last_addr s = hi) \/ halts r.
Definition does {A} (p : control (W := W) A) (v : A) (lo hi : Z) (es : list entry) : Prop :=
  forall s, reached s -> last_addr s = lo -> p s = (s' ← performs es s; Ok (v, s')) /\ ends hi (performs es s).

Lemma performs_app es1 es2 s : performs (es1 ++ es2) s = (s' ← performs es1 s; performs es2 s').
Proof. revert s. induction es1 as [|e es1 IH]; intros s; [done|]. cbn [app performs]. destruct (perform e s); cbn; [apply IH|done]. Qed.

Lemma does_ret A (v : A) lo : does (mret v) v lo lo [].
Proof. intros s Hs Hlo. split; [done|]. left. by exists s. Qed.

Lemma does_bind A A' (p : control A) (k : A -> control A') v u lo mid hi es1 es2 :
  does p v lo mid es1 -> does (k v) u mid hi es2 -> does (p ≫= k) u lo hi (es1 ++ es2).
Proof.
  intros Hp Hk s Hs Hlo. destruct (Hp s Hs Hlo) as [Hrun Hends]. rewrite performs_app. unfold mbind at 1, control_bind. rewrite Hrun.
  destruct Hends as [(s1 & -> & Hs1 & Hlo1)|(f & a & s1 & param & -> & Hs1 & Hreq)]; [|split; [done|right; by exists f, a, s1, param]].
  destruct (Hk s1 Hs1 Hlo1) as [Hrun1 Hends1]. split; [exact Hrun1|exact Hends1].
Qed.

Lemma does_lift A A' (c : cres A) (k : A -> control A') v u lo hi es : c = Ok v -> does (k v) u lo hi es -> does (lift c ≫= k) u lo hi es.
Proof. intros -> Hk s Hs Hlo. exact (Hk s Hs Hlo). Qed.

(** The format prints the text of an entry; all lines are well formed and remove
    nothing. *)
Definition writes (e : entry) (fmt : text) (va : list argument) : bool :=
  match _doprnt fmt va 0 with
  | Ok out =>
    bool_decide (out ++ [NUL] = script (last_nl e) (lines e)) && forallb (fun c => negb (c =? 0)) out && (length out <? 511)%nat &&
    forallb (fun x => line_ok x && one_target x && negb (removes x)) (lines e) && params_ok (lines e)
  | Fault _ => false
  end.

Lemma writes_text e fmt va : writes e fmt va = true -> exists str,
  print_command fmt va = Ok str /\ string_in str = script (last_nl e) (lines e) /\
  strlen str = Ok (Z.of_nat (pred (length (script (last_nl e) (lines e))))) /\
  Forall (line_allowed (at_ e)) (lines e) /\ params_ok (lines e) = true.
Proof.
  unfold writes. destruct (_doprnt fmt va 0) as [out|] eqn:Hout; [|done].
  intros [[[[Htext%bool_decide_eq_true Hz]%andb_prop Hlen%Nat.ltb_lt]%andb_prop Hl]%andb_prop Hp]%andb_prop.
  assert (Forall (fun c => c <> 0) out) as Hnz.
  { apply Forall_forall. intros c Hc. rewrite forallb_forall in Hz. apply list_elem_of_In in Hc. by apply Hz, negb_true_iff, Z.eqb_neq in Hc. }
  eexists. split; [by apply print_command_text|]. rewrite <- Htext, string_in_run by done. split; [done|]. split; [|split; [|done]].
  - rewrite strlen_run by done. rewrite length_app, Nat.add_1_r. done.
  - apply Forall_forall. intros x Hx%list_elem_of_In. rewrite forallb_forall in Hl. apply Hl in Hx as [[? ?]%andb_prop Hr%negb_true_iff]%andb_prop.
    unfold line_allowed. by rewrite Hr.
Qed.

(** Writing the text of an entry; for a fresh address, after it has been taken *)
Lemma entry_text e s (s1 := if fresh e then s <| last_addr := u64 (at_ e + DEFAULT_TRANSFER) |> else s) :
  Forall (line_allowed (at_ e)) (lines e) -> params_ok (lines e) = true -> terminated (with_param e) = true -> reached s1 ->
  let n := Z.of_nat (pred (length (script (last_nl e) (lines e)))) in
  let r := op_trans loaders code grants junk others (script (last_nl e) (lines e)) (first_args e n) (with_param e) s1 in
  (exists a s', r = Ok (a, s') /\ performs [e] s = Ok s' /\ success a = true /\ log_addr a = at_ e /\ reached s' /\ last_addr s' = last_addr s1) \/
  (exists f, r = Fault f /\ performs [e] s = Fault f /\ halts (performs [e] s)).
Proof.
  intros Hl Hp Hpar Hs n r.
  assert (log_addr (first_args e n) = at_ e) as Hat by (unfold first_args; by destruct (fresh e)).
  destruct (text_run loaders code grants junk others Hbrick Hconn Hothers Hloaders Hgrants Hinit w ld l0 Hboot (last_nl e) (lines e) (first_args e n)
    (with_param e) s1 Hs) as [Hrun Hends]; [by unfold first_args; destruct (fresh e)..|done| |done|].
  { by rewrite Hat. }
  fold r in Hrun, Hends. rewrite Hat in Hrun, Hends.
  assert (performs [e] s = (r ← r; Ok r.2)) as Hperf.
  { cbn [performs]. unfold perform. cbv zeta. fold s1. fold n. rewrite Hrun.
    change (@run state (ControlText.strategy_ loaders code grants junk others)) with (@run state strategy).
    destruct (run _ _ _ _) as [[a' s']|]; done. }
  rewrite Hperf. destruct Hends as [(a' & s' & -> & H1 & H2 & H3 & H4)|(f & a' & s' & p' & -> & H2 & H3)].
  - left. exists a', s'. done.
  - right. exists f. split; [done|]. split; [done|]. by exists f, a', s', p'.
Qed.

(** [b_cmd] *)
Lemma does_cmd e fmt va lo : fresh e = false -> writes e fmt va = true -> terminated (with_param e) = true ->
  does (b_cmd (at_ e) fmt (with_param e) va) true lo lo [e].
Proof.
  intros He (str & Hstring & Htext & Hlen & Hl & Hp)%writes_text Hpar s Hs Hlo. pose proof (entry_text e s Hl Hp Hpar) as H.
  rewrite He in H. specialize (H Hs). unfold b_cmd.
  rewrite (bind_ok _ _ _ _ _ (lift_ok _ _ s Hstring)), (bind_ok _ _ _ _ _ (lift_ok _ _ s Hlen)).
  rewrite Htext. set (n := Z.of_nat _) in *. unfold first_args in H. rewrite He in H.
  unfold mbind at 1, control_bind. destruct H as [(a & s' & -> & Hrun & Hsuc & _ & Hs' & Hla)|(f & -> & Hrun & Hh)].
  - rewrite Hrun. split; [by rewrite <- Hsuc|]. left. exists s'. by rewrite Hla.
  - rewrite Hrun. split; [done|]. right. by rewrite <- Hrun.
Qed.

(** [b_boot] *)
Lemma does_boot e fmt va : fresh e = true -> writes e fmt va = true -> terminated (with_param e) = true ->
  does (b_boot fmt (with_param e) va) (at_ e) (at_ e) (u64 (at_ e + DEFAULT_TRANSFER)) [e].
Proof.
  intros He (str & Hstring & Htext & Hlen & Hl & Hp)%writes_text Hpar s Hs Hlo. pose proof (entry_text e s Hl Hp Hpar) as H.
  unfold b_boot. rewrite (bind_ok _ _ _ _ _ (lift_ok _ _ s Hstring)). set (s1 := s <| last_addr := u64 (at_ e + DEFAULT_TRANSFER) |>).
  assert (operation loaders code grants junk others opcode_gadr boot_args (with_param e) s = Ok (boot_args <| log_addr := at_ e |> <| success := true |>, s1)) as Hgadr.
  { unfold operation, op_gadr. cbn. unfold mbind, control_bind, get, modify. cbn. by rewrite Hlo. }
  rewrite He in H. specialize (H (reach_step _ _ _ _ _ _ s opcode_gadr boot_args (with_param e) _ _ Hs ltac:(unfold allowed; by rewrite Hpar) Hgadr)).
  rewrite (bind_ok _ _ _ _ _ Hgadr). change (negb (success (boot_args <| log_addr := at_ e |> <| success := true |>))) with false. cbv iota. rewrite (bind_ok _ _ _ _ _ (lift_ok _ _ s1 Hlen)), Htext.
  unfold first_args in H. rewrite He in H. set (n := Z.of_nat _) in *.
  unfold mbind at 1, control_bind. destruct H as [(a & s' & Hrun & Hperf & Hsuc & Hat & Hs' & Hla)|(f & Hrun & Hperf & Hh)].
  - replace (op_trans _ _ _ _ _ _ _ _ s1) with (@Ok (args * state) (a, s')) by (rewrite <- Hrun; reflexivity). rewrite Hperf, Hsuc. cbn. split; [by rewrite Hat|]. left. by exists s'.
  - replace (op_trans _ _ _ _ _ _ _ _ s1) with (@Fault (args * state) f) by (rewrite <- Hrun; reflexivity). rewrite Hperf. split; [done|]. right. by rewrite <- Hperf.
Qed.

(** ** The start *)

Ltac by_cmd e := refine (does_bind _ _ _ _ true _ _ _ _ [e] _ (does_cmd e _ _ _ eq_refl _ eq_refl) _); [vm_compute; reflexivity|cbv beta].
Ltac by_boot e := refine (does_bind _ _ _ _ (at_ e) _ _ _ _ [e] _ (does_boot e _ _ eq_refl _ eq_refl) _); [vm_compute; reflexivity|cbv beta].

Lemma irq_writes i : (i < 16)%nat ->
  writes (command 0x4000 [out_line 0 "irq" (Some (Z.of_nat i)) ""] true (cstr "")) (chars "output:=irq[%i]" ++ [NL; NUL]) [Word (Z.of_nat i)] = true.
Proof. intros Hi. do 16 (destruct i as [|i]; [vm_compute; reflexivity|]). lia. Qed.

Lemma irq_does n i lo : (i + n <= 16)%nat ->
  does (irq_loop n (Z.of_nat i) 0x4000) (Z.of_nat (i + n)) lo lo (irq_entries i n).
Proof.
  revert i. induction n as [|n IH]; intros i Hi; cbn [irq_loop].
  - rewrite Nat.add_0_r. apply does_ret.
  - set (e := command 0x4000 [out_line 0 "irq" (Some (Z.of_nat i)) ""] true (cstr "")).
    change (irq_entries i (S n)) with ([e] ++ irq_entries (S i) n).
    refine (does_bind _ _ _ _ true _ _ _ _ _ _ (does_cmd e _ _ _ eq_refl _ eq_refl) _); [apply irq_writes; lia|].
    replace (Z.of_nat i + 1) with (Z.of_nat (S i)) by lia. replace (i + S n)%nat with (S i + n)%nat by lia. apply IH. lia.
Qed.

Lemma param_text : vsprintf stack_addr (cstr "%llx %llx") [DWord 0x6000; DWord 0x4000] = Ok (strategy_param, 9).
Proof.
  unfold vsprintf. rewrite (vsprintf_fits _ _ _ _ (chars "6000 4000")); [done| |by left|vm_compute; reflexivity|rewrite Haddr; vm_compute; lia].
  vm_compute. reflexivity.
Qed.

Lemma start_does : does start_bricks [0x2000; 0x3000; 0x4000; 0x5000; 0x6000] 0x2000 0x7000 kernel_entries.
Proof.
  unfold start_bricks. cbv zeta.
  by_cmd (command 0x1000 [out_line 0 "control" None ""] true (cstr "")).
  by_boot (creation 0x2000 [brick_line "map_dummy"; out_line 1 "out" None "{"] true (cstr "")).
  by_boot (creation 0x3000 [brick_line "adapt_meta"; connect_line 1 "in" 0x2000 "out"; out_line 1 "out" None ""] true (cstr "")).
  by_cmd (command 0 [out_line 0 "_root" None ""] false (cstr "")).
  by_cmd (command 0x3000 [connect_line 0 "hook" 0 "_root"] false (cstr "")).
  by_boot (creation 0x4000 [{| indent := 0; cmd := OtherBrick (ch "+") (chars "cpu_x86"); tail := [] |}] true (cstr "")).
  refine (does_bind _ _ _ _ _ _ _ _ _ _ _ (irq_does 16 0 _ ltac:(lia)) _). cbv beta.
  by_cmd (command 0x4000 [out_line 0 "int80" None ""] true (cstr "")).
  by_boot (creation 0x5000 [brick_line "fs_simple"; connect_line 1 "strat" 0x1000 "control"; out_line 1 "control" None "{"] true (cstr "_root")).
  by_boot (creation 0x6000 [brick_line "strategy_native"; connect_line 1 "strat" 0x1000 "control"; connect_line 1 "fs" 0x5000 "control"] false (cstr "")).
  apply (does_lift _ _ _ _ _ _ _ _ _ param_text).
  by_cmd (command 0x6000 [out_line 0 "posix" None ""] true strategy_param).
  by_cmd (command 0x6000 [out_line 0 "dummy" None ""] true strategy_param).
  apply does_ret.
Qed.

(** C8: the kernel gets its bricks started.  From the static data on, whatever
    the stack holds, the strategy brick boots; then [cmain] does exactly the
    commands that its texts stand for, at the addresses that it gets, and no
    text overruns its buffer.  It ends in a state that requests lead to, where
    all lists and pointers are consistent, with the addresses [0x2000] to
    [0x6000] taken; it can stop on the way only in a [$connect]. *)
Theorem kernel_starts : exists s0,
  boot loaders code grants junk (start_state w) = Ok (tt, s0) /\
  start_kernel (start_state w) = (s ← performs kernel_entries s0; Ok ([0x2000; 0x3000; 0x4000; 0x5000; 0x6000], s)) /\
  ((exists s, performs kernel_entries s0 = Ok s /\ reached s /\ consistent loaders s /\ last_addr s = 0x7000) \/ halts (performs kernel_entries s0)).
Proof.
  destruct (boot_run loaders code grants junk Hloaders Hgrants Hinit ld l0 w Hboot) as (s0 & _ & _ & Hrun & _).
  pose proof (reach_boot loaders code grants junk others w s0 Hrun) as Hs0. destruct (boot_root _ _ _ _ Hconn _ _ Hrun) as [_ Hla].
  destruct (start_does s0 Hs0 Hla) as [Hstart Hends]. exists s0. split; [done|]. split.
  - unfold start_kernel. rewrite (bind_ok _ _ _ _ _ Hrun). exact Hstart.
  - destruct Hends as [(s & Hperf & Hs & Hl)|Hh]; [left|by right]. exists s. split_and!; try done.
    exact (reachable_consistent loaders code grants junk others Hloaders Hgrants Hinit w ld l0 s Hboot Hs).
Qed.
End kernel.

(** ** An example *)

Definition kernel_conn (nm : string) (out : bool) (start : nat) : load_conn_t := demo_conn nm out start 1.
Definition kernel_loader (nm : string) (conns : list load_conn_t) (n : nat) : loader_t :=
  {| ld_name := cstr nm; ld_static_info := [NUL]; ld_conns := conns; ld_totalcount := n; ld_wires := [] |}.

(** Bricks with the connectors that the commands name *)
Definition kernel_loaders : list loader_t :=
  [ demo_control;
    kernel_loader "map_dummy" [kernel_conn "hook" false 0; kernel_conn "out" true 1] 2;
    kernel_loader "adapt_meta" [kernel_conn "hook" false 0; kernel_conn "in" false 1; kernel_conn "out" true 2] 3;
    kernel_loader "cpu_x86" [demo_conn "irq" true 0 16; kernel_conn "int80" true 16] 17;
    kernel_loader "fs_simple" [kernel_conn "strat" false 0; kernel_conn "control" true 1] 2;
    kernel_loader "strategy_native" [kernel_conn "strat" false 0; kernel_conn "fs" false 1; kernel_conn "dummy" true 2; kernel_conn "posix" true 3] 4 ].

Definition kernel_run : cres (list Z * control_state unit) :=
  start_kernel kernel_loaders demo_code demo_grants zero_args demo_others (replicate 512 7) (replicate 32 7) 0x9000 (start_state tt).

Lemma kernel_loaders_ok : loaders_ok kernel_loaders.
Proof.
  unfold loaders_ok, kernel_loaders. repeat apply Forall_cons_2; [..|apply Forall_nil_2]; split; try done.
  all: try (intros i lc Hi; case_index i; injection Hi as <-; simpl; repeat split; try lia; try done; repeat constructor).
  all: try (intros i j lc lc' k k' Hi Hj; case_index i; case_index j; injection Hi as <-; injection Hj as <-; simpl; lia).
  all: intros c k Hck; first [by apply not_elem_of_nil in Hck|apply list_elem_of_singleton in Hck as [= -> ->]; by eexists].
Qed.

Lemma kernel_boot_table : boot_table kernel_loaders 0 demo_control.
Proof. split; [done..|exists 0%nat, (demo_conn "control" true 0 1); done|exists 1%nat, (demo_conn "hook" false 1 1); done]. Qed.

(** Whether there are bricks at addresses *)
Definition present (s : control_state unit) (l : list Z) : list bool :=
  (fun a => match find_brick_hash a s with Ok (Some _, _) => true | _ => false end) <$> l.

(** All bricks are there but the one of the processor. *)
Lemma kernel_starts_witness : exists s,
  kernel_run = Ok ([0x2000; 0x3000; 0x4000; 0x5000; 0x6000], s) /\ consistent kernel_loaders s /\
  present s [0x1000; 0x2000; 0x3000; 0x4000; 0x5000; 0x6000] = [true; true; true; false; true; true].
Proof.
  destruct (kernel_starts kernel_loaders demo_code demo_grants zero_args demo_others (replicate 512 7) (replicate 32 7) 0x9000 eq_refl eq_refl
    (fun _ _ _ _ _ => eq_refl) (fun _ _ _ _ _ _ => eq_refl) ltac:(by intros ?????? [= <- _]) kernel_loaders_ok demo_granted demo_init
    tt 0 demo_control kernel_boot_table) as (s0 & _ & Hrun & H).
  fold kernel_run in Hrun.
  assert (match kernel_run with Ok (_, s) => present s [0x1000; 0x2000; 0x3000; 0x4000; 0x5000; 0x6000] | Fault _ => [] end =
    [true; true; true; false; true; true]) as Hp by (vm_compute; reflexivity).
  destruct H as [(s & Hperf & _ & Hcon & _)|(f & a & s & p & Hperf & _)]; rewrite Hperf in Hrun; rewrite Hrun in Hp |- *; [|done].
  exists s. exact (conj eq_refl (conj Hcon Hp)).
Defined.
